(* ===== verification/_CoqProject ===== *)
-Q . S2P
Prelude.v
Types.v
Wire.v
MemPool.v
Ring.v
PriceLevels.v
LevelsView.v
MatchBook.v
BookSpec.v
BookRefinement.v
BookInvariant.v
BookTheorems.v
HashIndex.v
UnorderedBook.v
LFQueue.v
Variants.v
Logging.v
Socket.v
Journal.v
MatchingEngine.v
FIFOSequencer.v
TcpSocket.v
OrderGateway.v
GatewayTheorems.v
OrderServer.v
ServerTheorems.v
ServerDelivery.v
OrderSession.v
MarketView.v
BookHash.v
McastSocket.v
Snapshot.v
Publisher.v
TradingTypes.v
PositionKeeper.v
MapSum.v
RiskManager.v
ClientBook.v
ClientBookSpec.v
ClientFollows.v
MarketRecovery.v
RecoveryTheorems.v
RecoveryProgress.v
MarketDataConsumer.v
ConsumerTheorems.v
MarketHistory.v
BookText.v
MessageText.v
ExchangeMarket.v
OrderManager.v
Strategy.v
TradeGate.v
TradeGateTheorems.v
TradeEngine.v
MarketEndToEnd.v
Config.v
ConfigTheorems.v
ExchangeMain.v
ExchangeMainTheorems.v
OrderSessionEndToEnd.v
TradingMain.v
TradingMainTheorems.v
