(* ===== verification/Prelude.v ===== *)
(** * A trading system, verified

    The program is an exchange and a trading client, connected by two TCP
    sessions and two multicast channels.

    - Exchange: connections (common/tcp_server, tcp_socket) feed the order
      server (exchange/order_server), which checks the sessions and hands
      requests to the FIFO sequencer; the matching engine (exchange/matcher)
      takes them from a queue, works on one order book per ticker and fills
      two queues: responses, which the order server sends back, and market
      updates, which the publisher (exchange/market_data) numbers, multicasts
      and passes to the snapshot synthesizer, which multicasts snapshots.
    - Client: the market data consumer (trading/market_data) follows the two
      channels and recovers from losses; the order gateway (trading/order_gw)
      keeps the order session; the trade engine (trading/strategy) drains
      their queues, keeps one order book per ticker, runs a strategy through
      the order manager, and admits a request only through the risk manager
      and the reconciliation of positions.

    ** Files

    Every file models the source files that its first comment names; a Module
    has the name of the C++ class, a definition the name of the member function.
    Calls that only log or measure are left out of the components; the logger is
    a component of its own.

    - [Prelude]: outcomes ([res]: a value, a failed [ASSERT], an access outside
      a buffer, exhausted fuel), machine integers, [ends] (postconditions of
      fallible code), shared lemmas and tactics.  [Types], [Wire]: messages,
      frames, the [Codec] interface and its three instances.
    - [MemPool], [Ring], [PriceLevels], [LevelsView]: the pool, circular lists
      threaded through it, the price levels that the three order books share,
      and their reading without pointers.
    - [MatchBook]: the exchange's order book.  [BookSpec] is the reference book
      on lists; [BookRefinement], [BookInvariant], [BookTheorems] relate the two
      and derive what holds in every reachable state.  [HashIndex],
      [UnorderedBook]: [std::unordered_map] as a hash table, and the variant of
      the book that keeps its price levels in one, on a state and with operations
      of its own; a simulation relates it to the book.
    - [LFQueue]: the single-producer single-consumer queue, as a bounded FIFO
      and under all interleavings of its atomic accesses.  [Variants]: the
      queue and the pool that record/07_queue_pool_consumer keeps for comparison.
    - [Logging], [Socket]: the diagnostic log and its worker; the creation of a
      socket as a sequence of system calls.
    - [Journal], [MatchingEngine], [FIFOSequencer]: audit, matching engine,
      sequencer.
    - [TcpSocket], [OrderGateway], [GatewayTheorems], [OrderServer],
      [ServerTheorems], [ServerDelivery]: connections and the two ends of an
      order session.  [OrderSession]: a session of which the other connections
      know nothing; [OrderSessionEndToEnd]: gateway, network and exchange
      program together.
    - [MarketView], [BookHash], [McastSocket], [Snapshot], [Publisher]: the
      public book that the updates describe, its checksum, multicast, the
      snapshot cycle, the incremental channel.
    - [TradingTypes], [PositionKeeper], [MapSum], [RiskManager]: positions,
      profit and the pre-trade risk.
    - [ClientBook], [ClientBookSpec], [ClientFollows]: the client's order book,
      that it implements the public book, and that it follows the exchange's.
    - [MarketRecovery], [RecoveryTheorems], [RecoveryProgress],
      [MarketDataConsumer], [ConsumerTheorems]: recovery from losses and the
      thread that performs it.  [MarketHistory]: what a sequence of updates
      and snapshot cycles says about the books.
    - [BookText], [MessageText]: the texts ([toString]) of the three books, with
      their sanity check, and of messages, orders and levels.
    - [OrderManager] (against the interface [RequestSink]), [Strategy],
      [TradeGate] and [TradeGateTheorems] (admission, reconciliation, the
      instance of the interface), [TradeEngine] (the event loop).
    - [ExchangeMarket]: engine, publisher and synthesizer with the queues
      between them, as exchange/exchange_main.cpp connects them.
      [MarketEndToEnd]: this composition, the network and the client's consumer
      and books together.
    - [Config], [ConfigTheorems]: the configuration files and the command line
      (common/runtime_config.h, startup_options.h).  [TradingMain],
      [TradingMainTheorems]: trading/trading_main.cpp from its arguments to the
      shutdown.  [ExchangeMain], [ExchangeMainTheorems]: the same for
      exchange/exchange_main.cpp, with its five threads.

    ** State and steps

    A C++ object is a Record, a member function a function from the object's
    state to [res] of its new state; pointers into a pool are block numbers,
    other pointers are positions or keys.  A loop is structural recursion on
    what it traverses, or has fuel: [drain] and [run_stopped] of the engines,
    [quiesce], the frame loops (one unit per byte is enough, a frame has more)
    and the response loops (the length of the queue is enough, as the queue is
    only drained there); the theorems state that the fuel suffices, or prove
    the result for every sufficient fuel.  Threads are interleaved as
    sequences of operations ([McOp], [SeqOp], [GateOp], [RecOp], [TcpOp],
    [GatewayOp], [ServerOp], [ConsumerOp], [MarketOp], [LogOp], [ExchangeOp]):
    an operation is one iteration of a thread's loop or one call.  Only the queue is
    modelled at the grain of single atomic accesses; acquire and release are
    read as sequentially consistent.  Two loops wait for the system, so that
    their fuel is what the system needs: the wait for a connection in [Socket]
    (its hypothesis is that interrupted calls end) and the worker of the logger
    (one step for each record that waits and three more are enough).  Doubles are the
    Standard Library's executable IEEE 754.

    The operating system is a parameter: [Kernel] and [TcpKernel] give the
    results of the system calls, clocks and results of [epoll_wait] and [accept]
    are arguments.  The hypotheses about it are [kernel_ok] (no more bytes than
    asked for) and [delivers_bytes] (a datagram consists of bytes); both are
    instantiated in the witnesses.  [Socket] takes all of its system calls from
    a [System], with the hypothesis [os_ok]: a call that fails returns -1 and sets
    [errno] ([getaddrinfo], which has error codes of its own, is exempt), and
    interrupted calls end.  The hash functions and the growth policy of the
    standard library are a class, [HashLibrary], of which nothing is assumed.  The
    configuration takes the JSON parser, the file system, the environment,
    the conversion of a text to a double and the conversion of addresses as
    arguments; nothing is assumed of them.

    ** What the theorems show

    - The order book: the pointer code computes the reference book on every
      request ([order_book_refines_reference]); the book stays sorted and
      uncrossed, quantities are conserved, priority is respected; the variant
      with the hash table agrees except for the answer to a query after a cancel
      ([unordered_map_book_agrees]).
    - Exchange: responses are numbered and positions balance; every request is
      answered, exactly unless an output queue has no room for what it causes; no
      order is admitted twice, responses carry the numbers of their connection;
      the sequencer loses nothing and is a stable sort.
    - Market data: the published updates rebuild the book, the snapshot cycle
      is complete and consistent with them, multicast keeps the frames; the
      recovery delivers only consistent batches, and delivers the publisher's
      books once the frames have arrived; the consumer forwards increments
      only in sequence behind a batch; the client's book equals the
      exchange's.
    - Orders of the client: admission is all or nothing, positions stay within
      their limits also when all pending orders fill, fills count once, a
      stale market admits no new order but lets cancels pass, quiescing cancels
      what is open, the engine drains its queues and stops; the order manager only
      sends well-formed requests; strategies quote as they are meant to.
    - Whole programs: over lossy channels and any schedule of the threads, the
      client's books are books that the exchange had, and complete ones once
      the frames arrive ([client_books_follow_exchange]); over a reliable
      stream and any schedule, the exchange admits exactly the valid requests of
      a client, once and in order, and the client's engine is handed the answers
      without a gap ([order_session_end_to_end]); a configuration that
      is accepted satisfies every bound that the components rely on
      ([configuration_is_checked]); the client program, from its arguments to
      its shutdown, only sends valid requests within its limits
      ([client_run_is_safe]); when the exchange program returns after a signal,
      every admitted request has been served once and answered, and all
      responses and updates have left ([orderly_shutdown_loses_nothing]).
    - Foundations: the frame formats round-trip, queues are bounded FIFOs, the
      TCP and multicast buffers neither lose, repeat nor reorder; a socket is
      handed out connected to the address that was resolved, with all its options
      set, or is closed; a log record is written
      whole or counted as dropped; the text of a book shows exactly the orders
      of the reference book, the texts of messages, orders and levels form a
      prefix code.

    ** Not modelled

    Thread creation, clocks and measurement (common/thread_utils.h,
    time_utils.h, perf_utils.h): no influence on the state; ASSERT and FATAL of
    macros.h are [AssertFailed].  common/opt_mem_pool.h and opt_logging.h only
    rename the pool and the logger.  Signal handlers are the steps that set their
    flags.  Benchmarks, examples and tests only call or measure the components
    above.  Destructors other than the logger's.  Texts that
    show a double (configuration and positions).  The vendored JSON library. *)
From stdpp Require Export base gmap sets list strings sorting numbers.
From Stdlib Require Export ZArith Lia.

(** ** Outcomes of the C++ code

    [AssertFailed]: [ASSERT]/[FATAL] of common/macros.h exits the process.
    [BadAccess]: null or dangling dereference, read outside a buffer,
    [at] out of range (the code never expects these).
    [NoFuel]: a bounded model of a loop ran out of iterations. *)
Inductive fault : Type :=
  | AssertFailed
  | BadAccess
  | NoFuel.

Inductive res (A : Type) : Type :=
  | Ok (a : A)
  | Err (f : fault).
Arguments Ok {A} a.
Arguments Err {A} f.

#[export] Instance fault_eq_dec : EqDecision fault.
Proof. solve_decision. Defined.

#[export] Instance res_ret : MRet res := λ A a, Ok a.
#[export] Instance res_bind : MBind res := λ A B f m,
  match m with
  | Ok a => f a
  | Err e => Err e
  end.

Definition ASSERT (cond : bool) : res () :=
  if cond then Ok () else Err AssertFailed.

Definition deref {A} (o : option A) : res A :=
  match o with
  | Some a => Ok a
  | None => Err BadAccess
  end.

Definition is_ok {A} (m : res A) : bool :=
  match m with
  | Ok _ => true
  | Err _ => false
  end.

(** ** Machine integers: [Z] with the wrap-around written out *)
Definition u8 (z : Z) : Z := z mod 2 ^ 8.
Definition u32 (z : Z) : Z := z mod 2 ^ 32.
Definition u64 (z : Z) : Z := z mod 2 ^ 64.
Definition i8 (z : Z) : Z := (z + 2 ^ 7) mod 2 ^ 8 - 2 ^ 7.
Definition i64 (z : Z) : Z := (z + 2 ^ 63) mod 2 ^ 64 - 2 ^ 63.

Definition INT32_MAX : Z := 2147483647.

(** Iteration of a fallible step over a list, in order. *)
Fixpoint res_fold {S A} (f : S -> A -> res S) (l : list A) (s : S) : res S :=
  match l with
  | [] => Ok s
  | a :: l' => s' ← f s a; res_fold f l' s'
  end.

(** [trade]: side conditions the components share; [trade_rw]: rewriting
    rules of the components' operations. *)
Create HintDb trade discriminated.

Lemma bind_Ok {A B} (m : res A) (f : A -> res B) b :
  (m ≫= f) = Ok b <-> exists a, m = Ok a /\ f a = Ok b.
Proof.
  destruct m as [a|e]; simpl; split.
  - eauto.
  - intros (a' & [= ->] & H). exact H.
  - discriminate.
  - intros (a' & H & _). discriminate.
Qed.

Lemma deref_Ok {A} (o : option A) a : deref o = Ok a <-> o = Some a.
Proof. destruct o; simpl; split; congruence. Qed.

Lemma ASSERT_Ok b u : ASSERT b = Ok u <-> b = true.
Proof. destruct b, u; simpl; split; congruence. Qed.

Lemma u32_small z : (0 <= z < 2 ^ 32)%Z -> u32 z = z.
Proof. apply Z.mod_small. Qed.

Lemma u64_small z : (0 <= z < 2 ^ 64)%Z -> u64 z = z.
Proof. apply Z.mod_small. Qed.

Lemma i64_small z : (- 2 ^ 63 <= z < 2 ^ 63)%Z -> i64 z = z.
Proof. intros H. unfold i64. rewrite Z.mod_small; lia. Qed.

Lemma res_fold_app {S A} (f : S -> A -> res S) l1 l2 s :
  res_fold f (l1 ++ l2) s = (res_fold f l1 s ≫= res_fold f l2).
Proof.
  revert s. induction l1 as [|a l1 IH]; intros s; simpl; [done|].
  destruct (f s a) as [s'|e]; simpl; [apply IH|done].
Qed.

(** [ends F P m]: [m] returns a value of [P] or stops with a fault of [F];
    [fatal_or]: it stops only through [ASSERT] or [FATAL]. *)
Definition ends {A} (F : fault -> Prop) (P : A -> Prop) (m : res A) : Prop :=
  match m with
  | Ok a => P a
  | Err f => F f
  end.
Notation fatal_or := (ends (λ f, f = AssertFailed)).
Notation always := (ends (λ _, False)).

Section Ends.
Context {F : fault -> Prop}.

Lemma ends_bind {A B} (P : A -> Prop) (Q : B -> Prop) m (f : A -> res B) :
  ends F P m -> (forall a, P a -> ends F Q (f a)) -> ends F Q (m ≫= f).
Proof. destruct m as [a|e]; simpl; auto. Qed.

Lemma ends_mono {A} (P Q : A -> Prop) m :
  ends F P m -> (forall a, P a -> Q a) -> ends F Q m.
Proof. destruct m as [a|e]; simpl; auto. Qed.

Lemma ends_fold {S A} (P : S -> Prop) (f : S -> A -> res S) l s :
  (forall s a, a ∈ l -> P s -> ends F P (f s a)) -> P s -> ends F P (res_fold f l s).
Proof.
  revert s. induction l as [|a l IH]; intros s Hf Hs; simpl; [done|].
  apply (ends_bind P); [apply Hf; [by left|done]|].
  intros s' Hs'. apply IH; [|done]. intros ? a' Ha'. apply Hf. by right.
Qed.
End Ends.

Lemma fatal_or_assert b : fatal_or (λ _, b = true) (ASSERT b).
Proof. by destruct b. Qed.

Lemma always_Ok {A} (P : A -> Prop) m : always P m <-> exists a, m = Ok a /\ P a.
Proof. destruct m as [a|e]; simpl; split; [by eauto|by intros (? & [= ->] & ?)|done|by intros (? & ? & ?)]. Qed.

Lemma mjoin_snoc {A} (l : list (list A)) x : mjoin (l ++ [x]) = mjoin l ++ x.
Proof.
  induction l as [|y l IH]; cbn; [by rewrite app_nil_r|].
  change (y ++ mjoin (l ++ [x]) = (y ++ mjoin l) ++ x). by rewrite IH, app_assoc.
Qed.

#[export] Hint Resolve u32_small u64_small i64_small : trade.

(** Decompose hypotheses saying that a monadic computation succeeded. *)
Ltac res_inv :=
  repeat match goal with
  | H : (_ ≫= _) = Ok _ |- _ =>
      apply bind_Ok in H; destruct H as (? & ? & H)
  | H : deref _ = Ok _ |- _ => apply deref_Ok in H
  | H : ASSERT _ = Ok _ |- _ => apply ASSERT_Ok in H
  | H : Ok _ = Ok _ |- _ => injection H as H; try subst
  | H : mret _ = Ok _ |- _ => injection H as H; try subst
  | H : Err _ = Ok _ |- _ => discriminate H
  end.
