(* ===== verification/Types.v ===== *)
(** Machine types, enumerations, constants and message structures shared by
    the exchange and the trading client: common/types.h,
    order_server/client_request.h, order_server/client_response.h and
    market_data/market_update.h.

    Integers are [Z]; the widths appear in the well-formedness predicates and
    in the operations that can wrap around.  An [enum class] with a fixed
    underlying type holds any value of that type (the decoders produce such
    values with [static_cast]), hence the [unnamed] constructors. *)
From S2P Require Import Prelude.
From stdpp Require Import base gmap strings pretty.
From Stdlib Require Import ZArith Lia.

Local Open Scope Z_scope.

(** ** Capacities and sentinels (common/types.h) *)
Definition ME_MAX_TICKERS : Z := 8.
Definition ME_MAX_CLIENT_UPDATES : Z := 256 * 1024.
Definition ME_MAX_MARKET_UPDATES : Z := 256 * 1024.
Definition ME_MAX_NUM_CLIENTS : Z := 256.
Definition ME_MAX_ORDER_IDS : Z := 1024 * 1024.
Definition ME_MAX_PRICE_LEVELS : Z := 256.

Definition OrderId_INVALID : Z := 2 ^ 64 - 1.
Definition TickerId_INVALID : Z := 2 ^ 32 - 1.
Definition ClientId_INVALID : Z := 2 ^ 32 - 1.
Definition Price_INVALID : Z := 2 ^ 63 - 1.
Definition Qty_INVALID : Z := 2 ^ 32 - 1.
Definition Priority_INVALID : Z := 2 ^ 64 - 1.

(** ** Enumerations *)
(** [enum class Side : int8_t] of common/types.h. *)
Inductive Side : Type :=
  | Side_INVALID
  | BUY
  | SELL
  | Side_MAX
  | Side_unnamed (v : Z).

Definition Side_to_Z (e : Side) : Z :=
  match e with
  | Side_INVALID => 0
  | BUY => 1
  | SELL => (-1)
  | Side_MAX => 2
  | Side_unnamed v => v
  end.

Definition Side_of_Z (v : Z) : Side :=
  if v =? 0 then Side_INVALID else
  if v =? 1 then BUY else
  if v =? (-1) then SELL else
  if v =? 2 then Side_MAX else
  Side_unnamed v.

(** [enum class ClientRequestType : uint8_t] of order_server/client_request.h. *)
Inductive ClientRequestType : Type :=
  | RequestType_INVALID
  | NEW
  | CANCEL
  | QUERY
  | RequestType_unnamed (v : Z).

Definition ClientRequestType_to_Z (e : ClientRequestType) : Z :=
  match e with
  | RequestType_INVALID => 0
  | NEW => 1
  | CANCEL => 2
  | QUERY => 3
  | RequestType_unnamed v => v
  end.

Definition ClientRequestType_of_Z (v : Z) : ClientRequestType :=
  if v =? 0 then RequestType_INVALID else
  if v =? 1 then NEW else
  if v =? 2 then CANCEL else
  if v =? 3 then QUERY else
  RequestType_unnamed v.

(** [enum class ClientResponseType : uint8_t] of order_server/client_response.h. *)
Inductive ClientResponseType : Type :=
  | ResponseType_INVALID
  | ACCEPTED
  | CANCELED
  | FILLED
  | CANCEL_REJECTED
  | REJECTED
  | STATE
  | ResponseType_unnamed (v : Z).

Definition ClientResponseType_to_Z (e : ClientResponseType) : Z :=
  match e with
  | ResponseType_INVALID => 0
  | ACCEPTED => 1
  | CANCELED => 2
  | FILLED => 3
  | CANCEL_REJECTED => 4
  | REJECTED => 5
  | STATE => 6
  | ResponseType_unnamed v => v
  end.

Definition ClientResponseType_of_Z (v : Z) : ClientResponseType :=
  if v =? 0 then ResponseType_INVALID else
  if v =? 1 then ACCEPTED else
  if v =? 2 then CANCELED else
  if v =? 3 then FILLED else
  if v =? 4 then CANCEL_REJECTED else
  if v =? 5 then REJECTED else
  if v =? 6 then STATE else
  ResponseType_unnamed v.

(** [enum class RejectReason : uint8_t] of order_server/client_response.h. *)
Inductive RejectReason : Type :=
  | NONE
  | INVALID_ID
  | INVALID_TYPE
  | INVALID_SIDE
  | INVALID_PRICE
  | INVALID_QTY
  | DUPLICATE_ID
  | CAPACITY
  | IDENTITY
  | SEQUENCE
  | SESSION
  | VERSION
  | Reason_unnamed (v : Z).

Definition RejectReason_to_Z (e : RejectReason) : Z :=
  match e with
  | NONE => 0
  | INVALID_ID => 1
  | INVALID_TYPE => 2
  | INVALID_SIDE => 3
  | INVALID_PRICE => 4
  | INVALID_QTY => 5
  | DUPLICATE_ID => 6
  | CAPACITY => 7
  | IDENTITY => 8
  | SEQUENCE => 9
  | SESSION => 10
  | VERSION => 11
  | Reason_unnamed v => v
  end.

Definition RejectReason_of_Z (v : Z) : RejectReason :=
  if v =? 0 then NONE else
  if v =? 1 then INVALID_ID else
  if v =? 2 then INVALID_TYPE else
  if v =? 3 then INVALID_SIDE else
  if v =? 4 then INVALID_PRICE else
  if v =? 5 then INVALID_QTY else
  if v =? 6 then DUPLICATE_ID else
  if v =? 7 then CAPACITY else
  if v =? 8 then IDENTITY else
  if v =? 9 then SEQUENCE else
  if v =? 10 then SESSION else
  if v =? 11 then VERSION else
  Reason_unnamed v.

(** [enum class MarketUpdateType : uint8_t] of market_data/market_update.h. *)
Inductive MarketUpdateType : Type :=
  | UpdateType_INVALID
  | MD_CLEAR
  | MD_ADD
  | MD_MODIFY
  | MD_CANCEL
  | MD_TRADE
  | MD_SNAPSHOT_START
  | MD_SNAPSHOT_END
  | MD_RECOVERY_COMMIT
  | UpdateType_unnamed (v : Z).

Definition MarketUpdateType_to_Z (e : MarketUpdateType) : Z :=
  match e with
  | UpdateType_INVALID => 0
  | MD_CLEAR => 1
  | MD_ADD => 2
  | MD_MODIFY => 3
  | MD_CANCEL => 4
  | MD_TRADE => 5
  | MD_SNAPSHOT_START => 6
  | MD_SNAPSHOT_END => 7
  | MD_RECOVERY_COMMIT => 8
  | UpdateType_unnamed v => v
  end.

Definition MarketUpdateType_of_Z (v : Z) : MarketUpdateType :=
  if v =? 0 then UpdateType_INVALID else
  if v =? 1 then MD_CLEAR else
  if v =? 2 then MD_ADD else
  if v =? 3 then MD_MODIFY else
  if v =? 4 then MD_CANCEL else
  if v =? 5 then MD_TRADE else
  if v =? 6 then MD_SNAPSHOT_START else
  if v =? 7 then MD_SNAPSHOT_END else
  if v =? 8 then MD_RECOVERY_COMMIT else
  UpdateType_unnamed v.

#[export] Instance Side_eq_dec : EqDecision Side.
Proof. solve_decision. Defined.
#[export] Instance ClientRequestType_eq_dec : EqDecision ClientRequestType.
Proof. solve_decision. Defined.
#[export] Instance ClientResponseType_eq_dec : EqDecision ClientResponseType.
Proof. solve_decision. Defined.
#[export] Instance RejectReason_eq_dec : EqDecision RejectReason.
Proof. solve_decision. Defined.
#[export] Instance MarketUpdateType_eq_dec : EqDecision MarketUpdateType.
Proof. solve_decision. Defined.

Definition sideToIndex (s : Side) : Z := u64 (Side_to_Z s + 1).
Definition sideToValue (s : Side) : Z := Side_to_Z s.

Definition is_buy_or_sell (s : Side) : bool :=
  bool_decide (s = BUY) || bool_decide (s = SELL).

(** [enum class AlgoType : int8_t] of common/types.h; only built from
    configuration text, never from the wire. *)
Inductive AlgoType : Type :=
  | AlgoType_INVALID
  | AlgoType_RANDOM
  | AlgoType_MAKER
  | AlgoType_TAKER
  | AlgoType_MAX.

#[export] Instance AlgoType_eq_dec : EqDecision AlgoType.
Proof. solve_decision. Defined.

Definition algoTypeToString (t : AlgoType) : string :=
  match t with
  | AlgoType_RANDOM => "RANDOM"
  | AlgoType_MAKER => "MAKER"
  | AlgoType_TAKER => "TAKER"
  | AlgoType_INVALID => "INVALID"
  | AlgoType_MAX => "MAX"
  end.

(** The loop over the underlying values, [INVALID] to [MAX]. *)
Definition stringToAlgoType (str : string) : AlgoType :=
  default AlgoType_INVALID
    (list_find (λ t, algoTypeToString t = str)
       [AlgoType_INVALID; AlgoType_RANDOM; AlgoType_MAKER; AlgoType_TAKER; AlgoType_MAX]
     ≫= λ p, Some p.2).

(** ** Text of identifiers: the sentinel prints as INVALID *)
Definition orderIdToString (order_id : Z) : string :=
  if bool_decide (order_id = OrderId_INVALID) then "INVALID" else pretty order_id.
Definition tickerIdToString (ticker_id : Z) : string :=
  if bool_decide (ticker_id = TickerId_INVALID) then "INVALID" else pretty ticker_id.
Definition clientIdToString (client_id : Z) : string :=
  if bool_decide (client_id = ClientId_INVALID) then "INVALID" else pretty client_id.
Definition priceToString (price : Z) : string :=
  if bool_decide (price = Price_INVALID) then "INVALID" else pretty price.
Definition qtyToString (qty : Z) : string :=
  if bool_decide (qty = Qty_INVALID) then "INVALID" else pretty qty.
Definition priorityToString (priority : Z) : string :=
  if bool_decide (priority = Priority_INVALID) then "INVALID" else pretty priority.

Definition sideToString (side : Side) : string :=
  match side with
  | BUY => "BUY"
  | SELL => "SELL"
  | Side_INVALID => "INVALID"
  | Side_MAX => "MAX"
  | Side_unnamed _ => "UNKNOWN"
  end.

(** ** Messages; the [default_*] values are the member initialisers *)
(** MEClientRequest: client request travelling inside the exchange (order_server/client_request.h). *)
Record MEClientRequest : Type := mkRequest {
  rq_type : ClientRequestType;
  rq_client_id : Z;
  rq_ticker_id : Z;
  rq_order_id : Z;
  rq_side : Side;
  rq_price : Z;
  rq_qty : Z;
  rq_session_epoch : Z;
  rq_request_seq : Z
}.

Definition default_MEClientRequest : MEClientRequest := {|
  rq_type := RequestType_INVALID;
  rq_client_id := ClientId_INVALID;
  rq_ticker_id := TickerId_INVALID;
  rq_order_id := OrderId_INVALID;
  rq_side := Side_INVALID;
  rq_price := Price_INVALID;
  rq_qty := Qty_INVALID;
  rq_session_epoch := 0;
  rq_request_seq := 0
|}.

(** OMClientRequest: request frame with its sequence number and session (order_server/client_request.h). *)
Record OMClientRequest : Type := mkOMRequest {
  omrq_seq_num : Z;
  omrq_request : MEClientRequest;
  omrq_session_epoch : Z
}.

Definition default_OMClientRequest : OMClientRequest := {|
  omrq_seq_num := 0;
  omrq_request := default_MEClientRequest;
  omrq_session_epoch := 0
|}.

(** MEClientResponse: private report to a client (order_server/client_response.h). *)
Record MEClientResponse : Type := mkResponse {
  rs_type : ClientResponseType;
  rs_client_id : Z;
  rs_ticker_id : Z;
  rs_client_order_id : Z;
  rs_market_order_id : Z;
  rs_side : Side;
  rs_price : Z;
  rs_exec_qty : Z;
  rs_leaves_qty : Z;
  rs_reject_reason : RejectReason;
  rs_response_id : Z;
  rs_position : Z
}.

Definition default_MEClientResponse : MEClientResponse := {|
  rs_type := ResponseType_INVALID;
  rs_client_id := ClientId_INVALID;
  rs_ticker_id := TickerId_INVALID;
  rs_client_order_id := OrderId_INVALID;
  rs_market_order_id := OrderId_INVALID;
  rs_side := Side_INVALID;
  rs_price := Price_INVALID;
  rs_exec_qty := Qty_INVALID;
  rs_leaves_qty := Qty_INVALID;
  rs_reject_reason := NONE;
  rs_response_id := 0;
  rs_position := 0
|}.

(** OMClientResponse: report frame with its sequence number and session (order_server/client_response.h). *)
Record OMClientResponse : Type := mkOMResponse {
  omrs_seq_num : Z;
  omrs_response : MEClientResponse;
  omrs_session_epoch : Z
}.

Definition default_OMClientResponse : OMClientResponse := {|
  omrs_seq_num := 0;
  omrs_response := default_MEClientResponse;
  omrs_session_epoch := 0
|}.

(** MEMarketUpdate: public market data event (market_data/market_update.h). *)
Record MEMarketUpdate : Type := mkUpdate {
  mu_type : MarketUpdateType;
  mu_order_id : Z;
  mu_ticker_id : Z;
  mu_side : Side;
  mu_price : Z;
  mu_qty : Z;
  mu_priority : Z
}.

Definition default_MEMarketUpdate : MEMarketUpdate := {|
  mu_type := UpdateType_INVALID;
  mu_order_id := OrderId_INVALID;
  mu_ticker_id := TickerId_INVALID;
  mu_side := Side_INVALID;
  mu_price := Price_INVALID;
  mu_qty := Qty_INVALID;
  mu_priority := Priority_INVALID
|}.

(** MDPMarketUpdate: market data frame: sequence number and snapshot metadata (market_data/market_update.h). *)
Record MDPMarketUpdate : Type := mkMDP {
  mdp_seq_num : Z;
  mdp_update : MEMarketUpdate;
  mdp_snapshot_cycle : Z;
  mdp_watermark : Z;
  mdp_state_hash : Z
}.

Definition default_MDPMarketUpdate : MDPMarketUpdate := {|
  mdp_seq_num := 0;
  mdp_update := default_MEMarketUpdate;
  mdp_snapshot_cycle := 0;
  mdp_watermark := 0;
  mdp_state_hash := 0
|}.

#[export] Instance MEClientRequest_eq_dec : EqDecision MEClientRequest.
Proof. solve_decision. Defined.
#[export] Instance OMClientRequest_eq_dec : EqDecision OMClientRequest.
Proof. solve_decision. Defined.
#[export] Instance MEClientResponse_eq_dec : EqDecision MEClientResponse.
Proof. solve_decision. Defined.
#[export] Instance OMClientResponse_eq_dec : EqDecision OMClientResponse.
Proof. solve_decision. Defined.
#[export] Instance MEMarketUpdate_eq_dec : EqDecision MEMarketUpdate.
Proof. solve_decision. Defined.
#[export] Instance MDPMarketUpdate_eq_dec : EqDecision MDPMarketUpdate.
Proof. solve_decision. Defined.

(** Member assignments used by the code. *)
Definition set_rq_type (v : ClientRequestType) (r : MEClientRequest) : MEClientRequest := {|
  rq_type := v;
  rq_client_id := rq_client_id r;
  rq_ticker_id := rq_ticker_id r;
  rq_order_id := rq_order_id r;
  rq_side := rq_side r;
  rq_price := rq_price r;
  rq_qty := rq_qty r;
  rq_session_epoch := rq_session_epoch r;
  rq_request_seq := rq_request_seq r
|}.

Definition set_rs_type (v : ClientResponseType) (r : MEClientResponse) : MEClientResponse := {|
  rs_type := v;
  rs_client_id := rs_client_id r;
  rs_ticker_id := rs_ticker_id r;
  rs_client_order_id := rs_client_order_id r;
  rs_market_order_id := rs_market_order_id r;
  rs_side := rs_side r;
  rs_price := rs_price r;
  rs_exec_qty := rs_exec_qty r;
  rs_leaves_qty := rs_leaves_qty r;
  rs_reject_reason := rs_reject_reason r;
  rs_response_id := rs_response_id r;
  rs_position := rs_position r
|}.

Definition set_rs_client_id (v : Z) (r : MEClientResponse) : MEClientResponse := {|
  rs_type := rs_type r;
  rs_client_id := v;
  rs_ticker_id := rs_ticker_id r;
  rs_client_order_id := rs_client_order_id r;
  rs_market_order_id := rs_market_order_id r;
  rs_side := rs_side r;
  rs_price := rs_price r;
  rs_exec_qty := rs_exec_qty r;
  rs_leaves_qty := rs_leaves_qty r;
  rs_reject_reason := rs_reject_reason r;
  rs_response_id := rs_response_id r;
  rs_position := rs_position r
|}.

Definition set_rs_exec_qty (v : Z) (r : MEClientResponse) : MEClientResponse := {|
  rs_type := rs_type r;
  rs_client_id := rs_client_id r;
  rs_ticker_id := rs_ticker_id r;
  rs_client_order_id := rs_client_order_id r;
  rs_market_order_id := rs_market_order_id r;
  rs_side := rs_side r;
  rs_price := rs_price r;
  rs_exec_qty := v;
  rs_leaves_qty := rs_leaves_qty r;
  rs_reject_reason := rs_reject_reason r;
  rs_response_id := rs_response_id r;
  rs_position := rs_position r
|}.

Definition set_rs_leaves_qty (v : Z) (r : MEClientResponse) : MEClientResponse := {|
  rs_type := rs_type r;
  rs_client_id := rs_client_id r;
  rs_ticker_id := rs_ticker_id r;
  rs_client_order_id := rs_client_order_id r;
  rs_market_order_id := rs_market_order_id r;
  rs_side := rs_side r;
  rs_price := rs_price r;
  rs_exec_qty := rs_exec_qty r;
  rs_leaves_qty := v;
  rs_reject_reason := rs_reject_reason r;
  rs_response_id := rs_response_id r;
  rs_position := rs_position r
|}.

Definition set_rs_response_id (v : Z) (r : MEClientResponse) : MEClientResponse := {|
  rs_type := rs_type r;
  rs_client_id := rs_client_id r;
  rs_ticker_id := rs_ticker_id r;
  rs_client_order_id := rs_client_order_id r;
  rs_market_order_id := rs_market_order_id r;
  rs_side := rs_side r;
  rs_price := rs_price r;
  rs_exec_qty := rs_exec_qty r;
  rs_leaves_qty := rs_leaves_qty r;
  rs_reject_reason := rs_reject_reason r;
  rs_response_id := v;
  rs_position := rs_position r
|}.

Definition set_rs_position (v : Z) (r : MEClientResponse) : MEClientResponse := {|
  rs_type := rs_type r;
  rs_client_id := rs_client_id r;
  rs_ticker_id := rs_ticker_id r;
  rs_client_order_id := rs_client_order_id r;
  rs_market_order_id := rs_market_order_id r;
  rs_side := rs_side r;
  rs_price := rs_price r;
  rs_exec_qty := rs_exec_qty r;
  rs_leaves_qty := rs_leaves_qty r;
  rs_reject_reason := rs_reject_reason r;
  rs_response_id := rs_response_id r;
  rs_position := v
|}.

Definition set_mu_price (v : Z) (r : MEMarketUpdate) : MEMarketUpdate := {|
  mu_type := mu_type r;
  mu_order_id := mu_order_id r;
  mu_ticker_id := mu_ticker_id r;
  mu_side := mu_side r;
  mu_price := v;
  mu_qty := mu_qty r;
  mu_priority := mu_priority r
|}.

Definition set_mu_qty (v : Z) (r : MEMarketUpdate) : MEMarketUpdate := {|
  mu_type := mu_type r;
  mu_order_id := mu_order_id r;
  mu_ticker_id := mu_ticker_id r;
  mu_side := mu_side r;
  mu_price := mu_price r;
  mu_qty := v;
  mu_priority := mu_priority r
|}.

(** ** Well-formedness: every field fits its C++ type *)
Definition is_u8 (z : Z) : Prop := 0 <= z < 2 ^ 8.
Definition is_u32 (z : Z) : Prop := 0 <= z < 2 ^ 32.
Definition is_u64 (z : Z) : Prop := 0 <= z < 2 ^ 64.
Definition is_i8 (z : Z) : Prop := - 2 ^ 7 <= z < 2 ^ 7.
Definition is_i64 (z : Z) : Prop := - 2 ^ 63 <= z < 2 ^ 63.

Definition Side_wf (e : Side) : Prop :=
  is_i8 (Side_to_Z e) /\ Side_of_Z (Side_to_Z e) = e.
Definition ClientRequestType_wf (e : ClientRequestType) : Prop :=
  is_u8 (ClientRequestType_to_Z e) /\ ClientRequestType_of_Z (ClientRequestType_to_Z e) = e.
Definition ClientResponseType_wf (e : ClientResponseType) : Prop :=
  is_u8 (ClientResponseType_to_Z e) /\ ClientResponseType_of_Z (ClientResponseType_to_Z e) = e.
Definition RejectReason_wf (e : RejectReason) : Prop :=
  is_u8 (RejectReason_to_Z e) /\ RejectReason_of_Z (RejectReason_to_Z e) = e.
Definition MarketUpdateType_wf (e : MarketUpdateType) : Prop :=
  is_u8 (MarketUpdateType_to_Z e) /\ MarketUpdateType_of_Z (MarketUpdateType_to_Z e) = e.

Definition request_wf (r : MEClientRequest) : Prop :=
  ClientRequestType_wf (rq_type r) /\ is_u32 (rq_client_id r) /\ is_u32 (rq_ticker_id r) /\
  is_u64 (rq_order_id r) /\ Side_wf (rq_side r) /\ is_i64 (rq_price r) /\ is_u32 (rq_qty r).

Definition response_wf (r : MEClientResponse) : Prop :=
  ClientResponseType_wf (rs_type r) /\ is_u32 (rs_client_id r) /\ is_u32 (rs_ticker_id r) /\
  is_u64 (rs_client_order_id r) /\ is_u64 (rs_market_order_id r) /\ Side_wf (rs_side r) /\
  is_i64 (rs_price r) /\ is_u32 (rs_exec_qty r) /\ is_u32 (rs_leaves_qty r) /\
  RejectReason_wf (rs_reject_reason r) /\ is_u64 (rs_response_id r) /\ is_i64 (rs_position r).

Definition update_wf (u : MEMarketUpdate) : Prop :=
  MarketUpdateType_wf (mu_type u) /\ is_u64 (mu_order_id u) /\ is_u32 (mu_ticker_id u) /\
  Side_wf (mu_side u) /\ is_i64 (mu_price u) /\ is_u32 (mu_qty u) /\ is_u64 (mu_priority u).

(** ** Lemmas *)
Lemma Side_to_of (v : Z) : Side_to_Z (Side_of_Z v) = v.
Proof.
  unfold Side_of_Z.
  repeat match goal with |- context [if ?a =? ?b then _ else _] => destruct (Z.eqb_spec a b) as [->|?]; [done|] end.
  done.
Qed.

Lemma Side_of_Z_wf (v : Z) : is_i8 v -> Side_wf (Side_of_Z v).
Proof. intros H. unfold Side_wf. rewrite Side_to_of. done. Qed.

Lemma ClientRequestType_to_of (v : Z) : ClientRequestType_to_Z (ClientRequestType_of_Z v) = v.
Proof.
  unfold ClientRequestType_of_Z.
  repeat match goal with |- context [if ?a =? ?b then _ else _] => destruct (Z.eqb_spec a b) as [->|?]; [done|] end.
  done.
Qed.

Lemma ClientRequestType_of_Z_wf (v : Z) : is_u8 v -> ClientRequestType_wf (ClientRequestType_of_Z v).
Proof. intros H. unfold ClientRequestType_wf. rewrite ClientRequestType_to_of. done. Qed.

Lemma ClientResponseType_to_of (v : Z) : ClientResponseType_to_Z (ClientResponseType_of_Z v) = v.
Proof.
  unfold ClientResponseType_of_Z.
  repeat match goal with |- context [if ?a =? ?b then _ else _] => destruct (Z.eqb_spec a b) as [->|?]; [done|] end.
  done.
Qed.

Lemma ClientResponseType_of_Z_wf (v : Z) : is_u8 v -> ClientResponseType_wf (ClientResponseType_of_Z v).
Proof. intros H. unfold ClientResponseType_wf. rewrite ClientResponseType_to_of. done. Qed.

Lemma RejectReason_to_of (v : Z) : RejectReason_to_Z (RejectReason_of_Z v) = v.
Proof.
  unfold RejectReason_of_Z.
  repeat match goal with |- context [if ?a =? ?b then _ else _] => destruct (Z.eqb_spec a b) as [->|?]; [done|] end.
  done.
Qed.

Lemma RejectReason_of_Z_wf (v : Z) : is_u8 v -> RejectReason_wf (RejectReason_of_Z v).
Proof. intros H. unfold RejectReason_wf. rewrite RejectReason_to_of. done. Qed.

Lemma MarketUpdateType_to_of (v : Z) : MarketUpdateType_to_Z (MarketUpdateType_of_Z v) = v.
Proof.
  unfold MarketUpdateType_of_Z.
  repeat match goal with |- context [if ?a =? ?b then _ else _] => destruct (Z.eqb_spec a b) as [->|?]; [done|] end.
  done.
Qed.

Lemma MarketUpdateType_of_Z_wf (v : Z) : is_u8 v -> MarketUpdateType_wf (MarketUpdateType_of_Z v).
Proof. intros H. unfold MarketUpdateType_wf. rewrite MarketUpdateType_to_of. done. Qed.

#[export] Instance Side_countable : Countable Side.
Proof.
  refine (inj_countable' (λ s, match s with
                               | Side_unnamed v => inr v
                               | s' => inl (Side_to_Z s')
                               end)
            (λ x, match x with inl v => Side_of_Z v | inr v => Side_unnamed v end) _).
  intros []; done.
Defined.

#[export] Hint Resolve Side_of_Z_wf ClientRequestType_of_Z_wf ClientResponseType_of_Z_wf
  RejectReason_of_Z_wf MarketUpdateType_of_Z_wf : trade.
