(* ===== verification/Wire.v ===== *)
(** Wire protocol: big-endian fixed-width frames of common/order_protocol.h
    and common/market_protocol.h, the request validation of
    order_protocol.h, and the [Codec] interface through which the other
    components use the three frame formats. *)
From S2P Require Import Prelude.
From S2P Require Import Types.
From stdpp Require Import base list.
From Stdlib Require Import ZArith Lia.

Local Open Scope Z_scope.

(** Bytes are integers in [0, 256). *)
Definition is_byte (b : Z) : Prop := 0 <= b < 256.
#[export] Instance is_byte_dec b : Decision (is_byte b).
Proof. unfold is_byte. apply _. Defined.

Definition Wire_Version : Z := 1.
Definition RequestSize : nat := 50.
Definition ResponseSize : nat := 79.
Definition MarketSize : nat := 70.

(** [put]: [bits] is the value reinterpreted as unsigned; the loop writes the
    bytes [sizeof(T) - 1] down to [0]. *)
Fixpoint put_bytes (i : nat) (bits : Z) : list Z :=
  match i with
  | O => []
  | S i' => u8 (Z.shiftr bits (8 * Z.of_nat i')) :: put_bytes i' bits
  end.

Definition put (size : nat) (value : Z) : list Z :=
  put_bytes size (value mod 2 ^ (8 * Z.of_nat size)).

(** [get]: shift-and-or over [size] bytes, truncated to the unsigned type at
    each step; reading past the buffer is undefined behaviour. *)
Fixpoint get_bits (size : nat) (i : nat) (bits : Z) (input : list Z) : res (Z * list Z) :=
  match i with
  | O => Ok (bits, input)
  | S i' =>
      match input with
      | [] => Err BadAccess
      | b :: input' =>
          get_bits size i' (Z.lor (Z.shiftl bits 8) b mod 2 ^ (8 * Z.of_nat size)) input'
      end
  end.

Definition get_u (size : nat) (input : list Z) : res (Z * list Z) :=
  get_bits size size 0 input.

(** [std::bit_cast] of the unsigned accumulator to the signed type. *)
Definition get_i (size : nat) (input : list Z) : res (Z * list Z) :=
  '(bits, p) ← get_u size input;
  Ok ((bits + 2 ^ (8 * Z.of_nat size - 1)) mod 2 ^ (8 * Z.of_nat size)
      - 2 ^ (8 * Z.of_nat size - 1), p).

(** The magic bytes 'T' and 'S'. *)
Definition put_header (kind sequence epoch : Z) : list Z :=
  put 1 84 ++ put 1 83 ++ put 1 Wire_Version ++ put 1 kind ++ put 8 sequence ++ put 8 epoch.

(** The four tests are short-circuited: a mismatch stops the reading. *)
Definition get_magic (kind : Z) (p : list Z) : res (bool * list Z) :=
  '(b, p) ← get_u 1 p;
  if negb (b =? 84) then Ok (false, p) else
  '(b, p) ← get_u 1 p;
  if negb (b =? 83) then Ok (false, p) else
  '(b, p) ← get_u 1 p;
  if negb (b =? Wire_Version) then Ok (false, p) else
  '(b, p) ← get_u 1 p;
  if negb (b =? kind) then Ok (false, p) else Ok (true, p).

Definition encode_request (message : OMClientRequest) : list Z :=
  let r := omrq_request message in
  put_header 1 (omrq_seq_num message) (omrq_session_epoch message) ++
  put 1 (ClientRequestType_to_Z (rq_type r)) ++
  put 4 (rq_client_id r) ++
  put 4 (rq_ticker_id r) ++
  put 8 (rq_order_id r) ++
  put 1 (Side_to_Z (rq_side r)) ++
  put 8 (rq_price r) ++
  put 4 (rq_qty r).

(** [message] is the output parameter: untouched when the header is refused. *)
Definition decode_request (p : list Z) (message : OMClientRequest) :
    res (bool * OMClientRequest) :=
  '(ok, p) ← get_magic 1 p;
  if negb ok then Ok (false, message) else
  '(sequence, p) ← get_u 8 p;
  '(epoch, p) ← get_u 8 p;
  '(type, p) ← get_u 1 p;
  '(client, p) ← get_u 4 p;
  '(ticker, p) ← get_u 4 p;
  '(order, p) ← get_u 8 p;
  '(side, p) ← get_i 1 p;
  '(price, p) ← get_i 8 p;
  '(qty, p) ← get_u 4 p;
  Ok (true, {|
    omrq_seq_num := sequence;
    omrq_request := {|
      rq_type := ClientRequestType_of_Z type;
      rq_client_id := client;
      rq_ticker_id := ticker;
      rq_order_id := order;
      rq_side := Side_of_Z side;
      rq_price := price;
      rq_qty := qty;
      rq_session_epoch := epoch;
      rq_request_seq := sequence
    |};
    omrq_session_epoch := epoch
  |}).

Definition encode_response (message : OMClientResponse) : list Z :=
  let r := omrs_response message in
  put_header 2 (omrs_seq_num message) (omrs_session_epoch message) ++
  put 1 (ClientResponseType_to_Z (rs_type r)) ++
  put 4 (rs_client_id r) ++
  put 4 (rs_ticker_id r) ++
  put 8 (rs_client_order_id r) ++
  put 8 (rs_market_order_id r) ++
  put 1 (Side_to_Z (rs_side r)) ++
  put 8 (rs_price r) ++
  put 4 (rs_exec_qty r) ++
  put 4 (rs_leaves_qty r) ++
  put 1 (RejectReason_to_Z (rs_reject_reason r)) ++
  put 8 (rs_response_id r) ++
  put 8 (rs_position r).

Definition decode_response (p : list Z) (message : OMClientResponse) :
    res (bool * OMClientResponse) :=
  '(ok, p) ← get_magic 2 p;
  if negb ok then Ok (false, message) else
  '(sequence, p) ← get_u 8 p;
  '(epoch, p) ← get_u 8 p;
  '(type, p) ← get_u 1 p;
  '(client, p) ← get_u 4 p;
  '(ticker, p) ← get_u 4 p;
  '(coid, p) ← get_u 8 p;
  '(moid, p) ← get_u 8 p;
  '(side, p) ← get_i 1 p;
  '(price, p) ← get_i 8 p;
  '(exec_qty, p) ← get_u 4 p;
  '(leaves_qty, p) ← get_u 4 p;
  '(reason, p) ← get_u 1 p;
  '(response_id, p) ← get_u 8 p;
  '(position, p) ← get_i 8 p;
  Ok (true, {|
    omrs_seq_num := sequence;
    omrs_response := {|
      rs_type := ClientResponseType_of_Z type;
      rs_client_id := client;
      rs_ticker_id := ticker;
      rs_client_order_id := coid;
      rs_market_order_id := moid;
      rs_side := Side_of_Z side;
      rs_price := price;
      rs_exec_qty := exec_qty;
      rs_leaves_qty := leaves_qty;
      rs_reject_reason := RejectReason_of_Z reason;
      rs_response_id := response_id;
      rs_position := position
    |};
    omrs_session_epoch := epoch
  |}).

Definition encode_market (message : MDPMarketUpdate) : list Z :=
  let r := mdp_update message in
  put 1 84 ++ put 1 83 ++ put 1 Wire_Version ++ put 1 3 ++
  put 8 (mdp_seq_num message) ++
  put 8 (mdp_snapshot_cycle message) ++
  put 8 (mdp_watermark message) ++
  put 8 (mdp_state_hash message) ++
  put 1 (MarketUpdateType_to_Z (mu_type r)) ++
  put 8 (mu_order_id r) ++
  put 4 (mu_ticker_id r) ++
  put 1 (Side_to_Z (mu_side r)) ++
  put 8 (mu_price r) ++
  put 4 (mu_qty r) ++
  put 8 (mu_priority r).

(** The event types the network may carry: [CLEAR] to [SNAPSHOT_END]. *)
Definition market_type_on_wire (t : MarketUpdateType) : bool :=
  (MarketUpdateType_to_Z MD_CLEAR <=? MarketUpdateType_to_Z t) &&
  (MarketUpdateType_to_Z t <=? MarketUpdateType_to_Z MD_SNAPSHOT_END).

(** The message is filled in before the event type is judged. *)
Definition decode_market (p : list Z) (message : MDPMarketUpdate) :
    res (bool * MDPMarketUpdate) :=
  '(ok, p) ← get_magic 3 p;
  if negb ok then Ok (false, message) else
  '(sequence, p) ← get_u 8 p;
  '(cycle, p) ← get_u 8 p;
  '(watermark, p) ← get_u 8 p;
  '(hash, p) ← get_u 8 p;
  '(type, p) ← get_u 1 p;
  '(order, p) ← get_u 8 p;
  '(ticker, p) ← get_u 4 p;
  '(side, p) ← get_i 1 p;
  '(price, p) ← get_i 8 p;
  '(qty, p) ← get_u 4 p;
  '(priority, p) ← get_u 8 p;
  let event := {|
    mu_type := MarketUpdateType_of_Z type;
    mu_order_id := order;
    mu_ticker_id := ticker;
    mu_side := Side_of_Z side;
    mu_price := price;
    mu_qty := qty;
    mu_priority := priority
  |} in
  Ok (market_type_on_wire (mu_type event), {|
    mdp_seq_num := sequence;
    mdp_update := event;
    mdp_snapshot_cycle := cycle;
    mdp_watermark := watermark;
    mdp_state_hash := hash
  |}).

(** [Wire::validate]: the business fields of a request. *)
Definition validate (r : MEClientRequest) : RejectReason :=
  if (ME_MAX_NUM_CLIENTS <=? rq_client_id r) || (ME_MAX_TICKERS <=? rq_ticker_id r) ||
     (ME_MAX_ORDER_IDS <=? rq_order_id r) then INVALID_ID else
  if bool_decide (rq_type r = QUERY) then NONE else
  if negb (bool_decide (rq_type r = NEW)) && negb (bool_decide (rq_type r = CANCEL))
  then INVALID_TYPE else
  if rq_order_id r =? 0 then INVALID_ID else
  if bool_decide (rq_type r = CANCEL) then NONE else
  if negb (is_buy_or_sell (rq_side r)) then INVALID_SIDE else
  if (rq_price r <=? 0) || (rq_price r =? Price_INVALID) then INVALID_PRICE else
  if (rq_qty r =? 0) || (rq_qty r =? Qty_INVALID) || (INT32_MAX <? rq_qty r)
  then INVALID_QTY else
  NONE.

(** Frames whose fields fit the wire widths. *)
Definition om_request_wf (m : OMClientRequest) : Prop :=
  is_u64 (omrq_seq_num m) /\ is_u64 (omrq_session_epoch m) /\ request_wf (omrq_request m).
Definition om_response_wf (m : OMClientResponse) : Prop :=
  is_u64 (omrs_seq_num m) /\ is_u64 (omrs_session_epoch m) /\ response_wf (omrs_response m).
Definition mdp_wf (m : MDPMarketUpdate) : Prop :=
  is_u64 (mdp_seq_num m) /\ is_u64 (mdp_snapshot_cycle m) /\ is_u64 (mdp_watermark m) /\
  is_u64 (mdp_state_hash m) /\ update_wf (mdp_update m) /\
  market_type_on_wire (mu_type (mdp_update m)) = true.

(** What the receiver sees of a request frame: the decoder copies the epoch
    and the sequence number of the frame into the inner request. *)
Definition received_request (m : OMClientRequest) : OMClientRequest :=
  let r := omrq_request m in {|
    omrq_seq_num := omrq_seq_num m;
    omrq_request := {|
      rq_type := rq_type r;
      rq_client_id := rq_client_id r;
      rq_ticker_id := rq_ticker_id r;
      rq_order_id := rq_order_id r;
      rq_side := rq_side r;
      rq_price := rq_price r;
      rq_qty := rq_qty r;
      rq_session_epoch := omrq_session_epoch m;
      rq_request_seq := omrq_seq_num m
    |};
    omrq_session_epoch := omrq_session_epoch m
  |}.

(** ** Codec: what a frame format promises to the network components *)
Class Codec (M : Type) : Type := {
  frame_size : nat;
  frame_encode : M -> list Z;
  frame_decode : list Z -> M -> res (bool * M);
  frame_wf : M -> Prop;
  frame_view : M -> M;
  frame_encode_size m : length (frame_encode m) = frame_size;
  frame_encode_bytes m : Forall is_byte (frame_encode m);
  frame_roundtrip m m0 rest :
    frame_wf m -> frame_decode (frame_encode m ++ rest) m0 = Ok (true, frame_view m);
  frame_decode_total bs m0 :
    (frame_size <= length bs)%nat -> exists b m, frame_decode bs m0 = Ok (b, m);
  frame_canonical bs m0 m :
    Forall is_byte bs -> frame_decode bs m0 = Ok (true, m) ->
    frame_wf m /\ bs = frame_encode m ++ drop frame_size bs
}.

(** ** Byte-level lemmas *)
Lemma length_put_bytes n v : length (put_bytes n v) = n.
Proof. induction n; simpl; congruence. Qed.

Lemma length_put n v : length (put n v) = n.
Proof. apply length_put_bytes. Qed.

Lemma put_bytes_byte n v : Forall is_byte (put_bytes n v).
Proof.
  induction n; constructor; [|done]. unfold is_byte, u8. apply Z.mod_pos_bound. lia.
Qed.

Lemma put_byte n v : Forall is_byte (put n v).
Proof. apply put_bytes_byte. Qed.

Lemma shift_or_byte a b : is_byte b -> Z.lor (Z.shiftl a 8) b = a * 256 + b.
Proof.
  intros Hb. unfold is_byte in Hb.
  assert (Hz : Z.land (Z.shiftl a 8) b = 0).
  { apply Z.bits_inj'. intros n Hn. rewrite Z.land_spec, Z.bits_0.
    destruct (decide (n < 8)).
    - rewrite Z.shiftl_spec_low by done. done.
    - rewrite <- (Z.mod_small b (2 ^ 8)) by lia.
      rewrite Z.mod_pow2_bits_high by lia. apply andb_false_r. }
  pose proof (Z.add_lor_land (Z.shiftl a 8) b) as H.
  rewrite Hz in H. rewrite Z.shiftl_mul_pow2 in H |- * by lia. lia.
Qed.

Lemma pow8_succ i : 2 ^ (8 * Z.of_nat (S i)) = 256 * 2 ^ (8 * Z.of_nat i).
Proof. replace (8 * Z.of_nat (S i)) with (8 + 8 * Z.of_nat i) by lia. rewrite Z.pow_add_r; lia. Qed.

Lemma pow8_pos i : 0 < 2 ^ (8 * Z.of_nat i).
Proof. apply Z.pow_pos_nonneg; lia. Qed.

(** One step of the reading loop, when the accumulator has room. *)
Lemma get_bits_step size i acc b :
  (S i <= size)%nat -> is_byte b -> 0 <= acc < 2 ^ (8 * Z.of_nat (size - S i)) ->
  Z.lor (Z.shiftl acc 8) b mod 2 ^ (8 * Z.of_nat size) = acc * 256 + b /\
  0 <= acc * 256 + b < 2 ^ (8 * Z.of_nat (size - i)).
Proof.
  intros Hi Hb Hacc. rewrite shift_or_byte by done. unfold is_byte in Hb.
  assert (He : 2 ^ (8 * Z.of_nat (size - i)) = 256 * 2 ^ (8 * Z.of_nat (size - S i))).
  { rewrite <- pow8_succ. do 2 f_equal. lia. }
  assert (Hle : 2 ^ (8 * Z.of_nat (size - i)) <= 2 ^ (8 * Z.of_nat size)).
  { apply Z.pow_le_mono_r; lia. }
  split; [apply Z.mod_small|]; lia.
Qed.

Lemma get_bits_put size i acc v rest :
  (i <= size)%nat -> 0 <= acc < 2 ^ (8 * Z.of_nat (size - i)) ->
  get_bits size i acc (put_bytes i v ++ rest)
  = Ok (acc * 2 ^ (8 * Z.of_nat i) + v mod 2 ^ (8 * Z.of_nat i), rest).
Proof.
  revert acc. induction i as [|i IH]; intros acc Hi Hacc.
  - simpl. rewrite Z.mod_1_r. do 2 f_equal. lia.
  - cbn [put_bytes app get_bits].
    assert (Hb : is_byte (u8 (Z.shiftr v (8 * Z.of_nat i)))).
    { apply Z.mod_pos_bound. lia. }
    destruct (get_bits_step size i acc _ Hi Hb Hacc) as [-> Hacc'].
    rewrite IH by (done || lia). do 2 f_equal.
    unfold u8. rewrite Z.shiftr_div_pow2 by lia. rewrite pow8_succ.
    pose proof (pow8_pos i) as Hp. set (p := 2 ^ (8 * Z.of_nat i)) in *.
    rewrite (Z.mul_comm 256 p), Z.rem_mul_r by lia.
    change (2 ^ 8) with 256. ring.
Qed.

Lemma get_bits_inv size i acc bs v rest :
  (i <= size)%nat -> 0 <= acc < 2 ^ (8 * Z.of_nat (size - i)) -> Forall is_byte bs ->
  get_bits size i acc bs = Ok (v, rest) ->
  bs = put_bytes i v ++ rest /\ v / 2 ^ (8 * Z.of_nat i) = acc /\
  0 <= v < 2 ^ (8 * Z.of_nat size).
Proof.
  revert acc bs. induction i as [|i IH]; intros acc bs Hi Hacc Hbs.
  - simpl. intros [= -> ->]. rewrite Z.div_1_r.
    replace (size - 0)%nat with size in Hacc by lia. done.
  - destruct bs as [|b bs]; [done|]. cbn [get_bits]. intros H.
    apply Forall_cons in Hbs as [Hb Hbs].
    destruct (get_bits_step size i acc b Hi Hb Hacc) as [Heq Hacc'].
    rewrite Heq in H. apply IH in H as (-> & Hdiv & Hv); [|lia|done|done].
    split_and!; [| |lia|lia].
    + cbn [put_bytes app]. f_equal. unfold u8. rewrite Z.shiftr_div_pow2, Hdiv by lia.
      unfold is_byte in Hb. change (2 ^ 8) with 256.
      rewrite Z.add_comm, Z.mod_add, Z.mod_small; lia.
    + rewrite pow8_succ, (Z.mul_comm 256), <- Z.div_div by (pose proof (pow8_pos i); lia).
      rewrite Hdiv. unfold is_byte in Hb. rewrite Z.div_add_l, Z.div_small; lia.
Qed.

Lemma get_u_put n v rest : get_u n (put n v ++ rest) = Ok (v mod 2 ^ (8 * Z.of_nat n), rest).
Proof.
  unfold get_u, put. rewrite get_bits_put; [|lia|].
  - rewrite Z.mod_mod by (pose proof (pow8_pos n); lia). done.
  - rewrite Nat.sub_diag. simpl. lia.
Qed.

Lemma get_u_put_id n v rest :
  0 <= v < 2 ^ (8 * Z.of_nat n) -> get_u n (put n v ++ rest) = Ok (v, rest).
Proof. intros H. rewrite get_u_put, Z.mod_small; done. Qed.

Lemma get_i_put_id n v rest :
  (0 < n)%nat -> - 2 ^ (8 * Z.of_nat n - 1) <= v < 2 ^ (8 * Z.of_nat n - 1) ->
  get_i n (put n v ++ rest) = Ok (v, rest).
Proof.
  intros Hn Hv. unfold get_i. rewrite get_u_put. simpl. do 2 f_equal.
  assert (He : 2 ^ (8 * Z.of_nat n) = 2 * 2 ^ (8 * Z.of_nat n - 1)).
  { rewrite <- Z.pow_succ_r by lia. f_equal. lia. }
  rewrite Zplus_mod_idemp_l, He. rewrite Z.mod_small; lia.
Qed.

Lemma get_u_inv n bs v rest :
  Forall is_byte bs -> get_u n bs = Ok (v, rest) ->
  bs = put n v ++ rest /\ 0 <= v < 2 ^ (8 * Z.of_nat n) /\ Forall is_byte rest.
Proof.
  intros Hbs H. apply get_bits_inv in H as (-> & _ & Hv); [|lia| |done].
  - apply Forall_app in Hbs as [_ Hrest]. unfold put. rewrite Z.mod_small; done.
  - rewrite Nat.sub_diag. simpl. lia.
Qed.

Lemma put_mod n v : put n (v mod 2 ^ (8 * Z.of_nat n)) = put n v.
Proof. unfold put. rewrite Z.mod_mod; [done|]. pose proof (pow8_pos n). lia. Qed.

Lemma get_i_inv n bs v rest :
  (0 < n)%nat -> Forall is_byte bs -> get_i n bs = Ok (v, rest) ->
  bs = put n v ++ rest /\ - 2 ^ (8 * Z.of_nat n - 1) <= v < 2 ^ (8 * Z.of_nat n - 1)
  /\ Forall is_byte rest.
Proof.
  intros Hn Hbs H. unfold get_i in H. apply bind_Ok in H as ([w p] & Hw & [= <- <-]).
  apply get_u_inv in Hw as (-> & Hw & Hrest); [|done].
  assert (He : 2 ^ (8 * Z.of_nat n) = 2 * 2 ^ (8 * Z.of_nat n - 1)).
  { rewrite <- Z.pow_succ_r by lia. f_equal. lia. }
  pose proof (Z.mod_pos_bound (w + 2 ^ (8 * Z.of_nat n - 1)) (2 ^ (8 * Z.of_nat n))).
  split_and!; [|lia|lia|done]. f_equal. rewrite <- (put_mod n (_ - _)).
  rewrite Zminus_mod_idemp_l. replace (w + _ - _) with w by lia. rewrite put_mod. done.
Qed.

Lemma get_bits_total size i acc bs : (i <= length bs)%nat ->
  exists v, get_bits size i acc bs = Ok (v, drop i bs).
Proof.
  revert bs acc. induction i as [|i IH]; intros bs acc Hlen; cbn [get_bits drop]; [by eauto|].
  destruct bs as [|b bs]; cbn [length] in Hlen; [lia|]. apply IH. lia.
Qed.

Lemma get_u_total n bs : (n <= length bs)%nat ->
  exists v, get_u n bs = Ok (v, drop n bs).
Proof. apply get_bits_total. Qed.

Lemma get_i_total n bs : (n <= length bs)%nat ->
  exists v, get_i n bs = Ok (v, drop n bs).
Proof.
  intros H. unfold get_i. destruct (get_u_total n bs H) as [v ->]. simpl. eauto.
Qed.

(** ** Frame-level tactics *)
Ltac get_puts :=
  first
    [ rewrite get_u_put_id by assumption
    | rewrite get_i_put_id by first [assumption | lia] ];
  cbn [mbind res_bind].

(** Run a decoder over a long enough buffer. *)
Ltac get_totals :=
  repeat match goal with
  | |- context [get_u ?n ?bs] =>
      let v := fresh "v" in let H := fresh "H" in
      destruct (get_u_total n bs) as [v H]; [rewrite ?length_drop; lia|];
      rewrite H; clear H; cbn [mbind res_bind]
  | |- context [get_i ?n ?bs] =>
      let v := fresh "v" in let H := fresh "H" in
      destruct (get_i_total n bs) as [v H]; [rewrite ?length_drop; lia|];
      rewrite H; clear H; cbn [mbind res_bind]
  end.

(** Invert a successful decoder field by field. *)
Ltac get_invs :=
  repeat match goal with
  | H : (_ ≫= _) = Ok _ |- _ => apply bind_Ok in H as ([? ?] & ? & H); cbn beta iota in H
  end;
  repeat match goal with
  | Hb : Forall is_byte ?bs, H : get_u _ ?bs = Ok _ |- _ =>
      apply (get_u_inv _ _ _ _ Hb) in H as (-> & ? & ?); clear Hb
  | Hb : Forall is_byte ?bs, H : get_i ?n ?bs = Ok _ |- _ =>
      apply (get_i_inv n _ _ _ ltac:(lia) Hb) in H as (-> & ? & ?); clear Hb
  end.

(** Field bounds recovered by [get_invs], in the form of the message types. *)
Ltac wire_wf :=
  split_and!; first
    [ assumption
    | apply Side_of_Z_wf; assumption
    | apply ClientRequestType_of_Z_wf; assumption
    | apply ClientResponseType_of_Z_wf; assumption
    | apply RejectReason_of_Z_wf; assumption
    | apply MarketUpdateType_of_Z_wf; assumption ].

Lemma get_magic_put kind rest :
  0 <= kind < 2 ^ 8 ->
  get_magic kind (put 1 84 ++ put 1 83 ++ put 1 Wire_Version ++ put 1 kind ++ rest)
  = Ok (true, rest).
Proof.
  intros Hk. unfold get_magic.
  rewrite (get_u_put_id 1 84) by done. cbn [mbind res_bind].
  rewrite (get_u_put_id 1 83) by done. cbn [mbind res_bind].
  rewrite (get_u_put_id 1 Wire_Version) by done. cbn [mbind res_bind].
  rewrite (get_u_put_id 1 kind) by exact Hk. cbn [mbind res_bind].
  rewrite !Z.eqb_refl. done.
Qed.

Lemma get_magic_total kind bs : (4 <= length bs)%nat ->
  exists b p, get_magic kind bs = Ok (b, p) /\ (b = true -> p = drop 4 bs).
Proof.
  intros H. unfold get_magic.
  repeat (match goal with
  | |- context [get_u ?n ?l] =>
      destruct (get_u_total n l) as [? ->]; [rewrite ?length_drop; lia|]
  end; cbn [mbind res_bind]; case_match; [eexists _, _; split; [reflexivity|discriminate]|]).
  eexists _, _. split; [done|]. intros _. rewrite !drop_drop. done.
Qed.

Lemma get_magic_inv kind bs p :
  Forall is_byte bs -> get_magic kind bs = Ok (true, p) ->
  bs = put 1 84 ++ put 1 83 ++ put 1 Wire_Version ++ put 1 kind ++ p /\ Forall is_byte p.
Proof.
  intros Hbs H. unfold get_magic in H.
  apply bind_Ok in H as ([b0 p0] & H0 & H). case_match eqn:E0; [done|].
  apply bind_Ok in H as ([b1 p1] & H1 & H). case_match eqn:E1; [done|].
  apply bind_Ok in H as ([b2 p2] & H2 & H). case_match eqn:E2; [done|].
  apply bind_Ok in H as ([b3 p3] & H3 & H). case_match eqn:E3; [done|].
  injection H as <-.
  apply negb_false_iff, Z.eqb_eq in E0, E1, E2, E3. subst.
  get_invs. split; [|done]. by rewrite <- ?app_assoc.
Qed.

(** ** The three frame formats *)
Lemma encode_request_size m : length (encode_request m) = RequestSize.
Proof.
  unfold encode_request, put_header. rewrite !length_app, !length_put. reflexivity.
Qed.

Lemma encode_response_size m : length (encode_response m) = ResponseSize.
Proof.
  unfold encode_response, put_header. rewrite !length_app, !length_put. reflexivity.
Qed.

Lemma encode_market_size m : length (encode_market m) = MarketSize.
Proof. unfold encode_market. rewrite !length_app, !length_put. reflexivity. Qed.

Lemma encode_request_bytes m : Forall is_byte (encode_request m).
Proof. unfold encode_request, put_header. rewrite !Forall_app. split_and!; apply put_byte. Qed.

Lemma encode_response_bytes m : Forall is_byte (encode_response m).
Proof. unfold encode_response, put_header. rewrite !Forall_app. split_and!; apply put_byte. Qed.

Lemma encode_market_bytes m : Forall is_byte (encode_market m).
Proof. unfold encode_market. rewrite !Forall_app. split_and!; apply put_byte. Qed.

Lemma decode_encode_request m m0 rest :
  om_request_wf m -> decode_request (encode_request m ++ rest) m0 = Ok (true, received_request m).
Proof.
  intros (Hs & He & (Ht1 & Ht2) & Hc & Htk & Ho & (Hs1 & Hs2) & Hp & Hq).
  unfold is_u8, is_u32, is_u64, is_i8, is_i64 in *.
  unfold decode_request, encode_request, put_header. rewrite <- !app_assoc.
  rewrite get_magic_put by done. cbn [mbind res_bind negb].
  repeat get_puts. rewrite Ht2, Hs2. reflexivity.
Qed.

Lemma decode_encode_response m m0 rest :
  om_response_wf m -> decode_response (encode_response m ++ rest) m0 = Ok (true, m).
Proof.
  intros (Hs & He & (Ht1 & Ht2) & Hc & Htk & Ho & Hm & (Hs1 & Hs2) & Hp & Hx & Hl
          & (Hr1 & Hr2) & Hid & Hpos).
  unfold is_u8, is_u32, is_u64, is_i8, is_i64 in *.
  unfold decode_response, encode_response, put_header. rewrite <- !app_assoc.
  rewrite get_magic_put by done. cbn [mbind res_bind negb].
  repeat get_puts. rewrite Ht2, Hs2, Hr2. destruct m as [? [] ?]; reflexivity.
Qed.

Lemma decode_encode_market m m0 rest :
  mdp_wf m -> decode_market (encode_market m ++ rest) m0 = Ok (true, m).
Proof.
  intros (Hs & Hcy & Hw & Hh & ((Ht1 & Ht2) & Ho & Htk & (Hs1 & Hs2) & Hp & Hq & Hpr) & Hwire).
  unfold is_u8, is_u32, is_u64, is_i8, is_i64 in *.
  unfold decode_market, encode_market. rewrite <- !app_assoc.
  rewrite get_magic_put by done. cbn [mbind res_bind negb].
  repeat get_puts. cbn [mu_type]. rewrite Ht2, Hs2, Hwire. destruct m as [? [] ? ? ?]; reflexivity.
Qed.

Lemma decode_request_total bs m0 : (RequestSize <= length bs)%nat ->
  exists b m, decode_request bs m0 = Ok (b, m).
Proof.
  unfold RequestSize. intros H. unfold decode_request.
  destruct (get_magic_total 1 bs) as ([] & p & -> & Hp); [lia| |simpl; by eauto].
  rewrite (Hp eq_refl). cbn [mbind res_bind negb]. get_totals. eauto.
Qed.

Lemma decode_response_total bs m0 : (ResponseSize <= length bs)%nat ->
  exists b m, decode_response bs m0 = Ok (b, m).
Proof.
  unfold ResponseSize. intros H. unfold decode_response.
  destruct (get_magic_total 2 bs) as ([] & p & -> & Hp); [lia| |simpl; by eauto].
  rewrite (Hp eq_refl). cbn [mbind res_bind negb]. get_totals. eauto.
Qed.

Lemma decode_market_total bs m0 : (MarketSize <= length bs)%nat ->
  exists b m, decode_market bs m0 = Ok (b, m).
Proof.
  unfold MarketSize. intros H. unfold decode_market.
  destruct (get_magic_total 3 bs) as ([] & p & -> & Hp); [lia| |simpl; by eauto].
  rewrite (Hp eq_refl). cbn [mbind res_bind negb]. get_totals. eauto.
Qed.

(** A frame is its encoding as soon as its bytes begin with it. *)
Lemma prefix_drop (enc bs : list Z) n l :
  length enc = n -> bs = enc ++ l -> bs = enc ++ drop n bs.
Proof. intros Hl ->. by rewrite drop_app_length' by done. Qed.

Lemma decode_request_inv bs m0 m :
  Forall is_byte bs -> decode_request bs m0 = Ok (true, m) ->
  om_request_wf m /\ bs = encode_request m ++ drop RequestSize bs.
Proof.
  intros Hbs H. unfold decode_request in H.
  apply bind_Ok in H as ([ok p] & Hm & H). destruct ok; cbn [negb] in H; [|done].
  apply get_magic_inv in Hm as [-> Hp]; [|done]. get_invs.
  injection H as <-. split.
  - unfold om_request_wf, request_wf. cbn. wire_wf.
  - eapply prefix_drop; [apply encode_request_size|]. unfold encode_request, put_header. cbn [
      omrq_seq_num omrq_session_epoch omrq_request
      rq_type rq_client_id rq_ticker_id rq_order_id rq_side rq_price rq_qty].
    rewrite ClientRequestType_to_of, Side_to_of, <- !app_assoc. reflexivity.
Qed.

Lemma decode_response_inv bs m0 m :
  Forall is_byte bs -> decode_response bs m0 = Ok (true, m) ->
  om_response_wf m /\ bs = encode_response m ++ drop ResponseSize bs.
Proof.
  intros Hbs H. unfold decode_response in H.
  apply bind_Ok in H as ([ok p] & Hm & H). destruct ok; cbn [negb] in H; [|done].
  apply get_magic_inv in Hm as [-> Hp]; [|done]. get_invs.
  injection H as <-. split.
  - unfold om_response_wf, response_wf. cbn. wire_wf.
  - eapply prefix_drop; [apply encode_response_size|]. unfold encode_response, put_header. cbn [
      omrs_seq_num omrs_session_epoch omrs_response rs_type rs_client_id rs_ticker_id
      rs_client_order_id rs_market_order_id rs_side rs_price rs_exec_qty rs_leaves_qty
      rs_reject_reason rs_response_id rs_position].
    rewrite ClientResponseType_to_of, RejectReason_to_of, Side_to_of, <- !app_assoc. reflexivity.
Qed.

Lemma decode_market_inv bs m0 m :
  Forall is_byte bs -> decode_market bs m0 = Ok (true, m) ->
  mdp_wf m /\ bs = encode_market m ++ drop MarketSize bs.
Proof.
  intros Hbs H. unfold decode_market in H.
  apply bind_Ok in H as ([ok p] & Hm & H). destruct ok; cbn [negb] in H; [|done].
  apply get_magic_inv in Hm as [-> Hp]; [|done]. get_invs.
  injection H as Hwire <-. split.
  - unfold mdp_wf, update_wf. cbn. cbn in Hwire. wire_wf.
  - eapply prefix_drop; [apply encode_market_size|]. unfold encode_market. cbn [
      mdp_seq_num mdp_snapshot_cycle mdp_watermark mdp_state_hash mdp_update mu_type mu_order_id
      mu_ticker_id mu_side mu_price mu_qty mu_priority].
    rewrite MarketUpdateType_to_of, Side_to_of, <- !app_assoc. reflexivity.
Qed.

#[export] Instance request_codec : Codec OMClientRequest := {|
  frame_size := RequestSize;
  frame_encode := encode_request;
  frame_decode := decode_request;
  frame_wf := om_request_wf;
  frame_view := received_request;
  frame_encode_size := encode_request_size;
  frame_encode_bytes := encode_request_bytes;
  frame_roundtrip := decode_encode_request;
  frame_decode_total := decode_request_total;
  frame_canonical := decode_request_inv
|}.

#[export] Instance response_codec : Codec OMClientResponse := {|
  frame_size := ResponseSize;
  frame_encode := encode_response;
  frame_decode := decode_response;
  frame_wf := om_response_wf;
  frame_view := id;
  frame_encode_size := encode_response_size;
  frame_encode_bytes := encode_response_bytes;
  frame_roundtrip := decode_encode_response;
  frame_decode_total := decode_response_total;
  frame_canonical := decode_response_inv
|}.

#[export] Instance market_codec : Codec MDPMarketUpdate := {|
  frame_size := MarketSize;
  frame_encode := encode_market;
  frame_decode := decode_market;
  frame_wf := mdp_wf;
  frame_view := id;
  frame_encode_size := encode_market_size;
  frame_encode_bytes := encode_market_bytes;
  frame_roundtrip := decode_encode_market;
  frame_decode_total := decode_market_total;
  frame_canonical := decode_market_inv
|}.

Section CodecClients.
Context `{Codec M}.

(** Two well-formed frames with equal bytes are the same frame to the receiver. *)
Lemma frame_encode_inj m1 m2 :
  frame_wf m1 -> frame_wf m2 -> frame_encode m1 = frame_encode m2 ->
  frame_view m1 = frame_view m2.
Proof.
  intros H1 H2 He.
  pose proof (frame_roundtrip m1 m1 [] H1) as R1.
  pose proof (frame_roundtrip m2 m1 [] H2) as R2.
  rewrite He, R2 in R1. congruence.
Qed.
End CodecClients.

(** C22: on each of the three formats, a frame decodes to the message that was
    encoded (a request is stamped with the number and the session of its
    frame), whatever follows it in the buffer; and bytes that decode are the
    encoding of the message they decode to, so that no two byte strings stand
    for the same frame. *)
Theorem wire_round_trip rest bs q q0 r r0 m m0 :
  Forall is_byte bs ->
  (om_request_wf q -> decode_request (encode_request q ++ rest) q0 = Ok (true, received_request q)) /\
  (om_response_wf r -> decode_response (encode_response r ++ rest) r0 = Ok (true, r)) /\
  (mdp_wf m -> decode_market (encode_market m ++ rest) m0 = Ok (true, m)) /\
  (decode_request bs q0 = Ok (true, q) -> om_request_wf q /\ bs = encode_request q ++ drop RequestSize bs) /\
  (decode_response bs r0 = Ok (true, r) -> om_response_wf r /\ bs = encode_response r ++ drop ResponseSize bs) /\
  (decode_market bs m0 = Ok (true, m) -> mdp_wf m /\ bs = encode_market m ++ drop MarketSize bs).
Proof.
  intros Hbs. split_and!; intros H.
  - by apply decode_encode_request.
  - by apply decode_encode_response.
  - by apply decode_encode_market.
  - by eapply decode_request_inv.
  - by eapply decode_response_inv.
  - by eapply decode_market_inv.
Qed.

(** A modification of order 5, and the bytes of a trade. *)
Lemma wire_round_trip_witness :
  let u := mkMDP 7 (mkUpdate MD_MODIFY 5 2 SELL 12345 10 3) 0 0 0 in
  let bs := encode_market (mkMDP 8 (mkUpdate MD_TRADE 0 2 BUY 12345 4 0) 0 0 0) in
  Forall is_byte bs /\
  decode_market (encode_market u ++ [1; 2]) default_MDPMarketUpdate = Ok (true, u) /\
  bs = encode_market (mkMDP 8 (mkUpdate MD_TRADE 0 2 BUY 12345 4 0) 0 0 0) ++ drop MarketSize bs.
Proof.
  cbv zeta.
  assert (Hbs : Forall is_byte (encode_market (mkMDP 8 (mkUpdate MD_TRADE 0 2 BUY 12345 4 0) 0 0 0)))
    by apply encode_market_bytes.
  split; [exact Hbs|].
  pose proof (λ m, wire_round_trip [1; 2] _ default_OMClientRequest default_OMClientRequest
    default_OMClientResponse default_OMClientResponse m default_MDPMarketUpdate Hbs) as H.
  split; [apply H|apply H; vm_compute; reflexivity].
  unfold mdp_wf, update_wf, MarketUpdateType_wf, Side_wf, is_u8, is_u32, is_u64, is_i8, is_i64.
  apply (bool_decide_unpack _). vm_compute. exact I.
Defined.

Lemma validate_cases r :
  validate r = NONE ->
  rq_client_id r < ME_MAX_NUM_CLIENTS /\ rq_ticker_id r < ME_MAX_TICKERS /\
  rq_order_id r < ME_MAX_ORDER_IDS /\
  (rq_type r = QUERY \/
   (rq_type r = CANCEL /\ rq_order_id r <> 0) \/
   (rq_type r = NEW /\ rq_order_id r <> 0 /\ (rq_side r = BUY \/ rq_side r = SELL) /\
    0 < rq_price r /\ rq_price r <> Price_INVALID /\
    rq_qty r <> 0 /\ rq_qty r <> Qty_INVALID /\ rq_qty r <= INT32_MAX)).
Proof.
  unfold validate, is_buy_or_sell. intros H.
  destruct (ME_MAX_NUM_CLIENTS <=? rq_client_id r) eqn:E1; [done|].
  destruct (ME_MAX_TICKERS <=? rq_ticker_id r) eqn:E2; [done|].
  destruct (ME_MAX_ORDER_IDS <=? rq_order_id r) eqn:E3; [done|]. cbn [orb] in H.
  split_and!; [lia|lia|lia|].
  destruct (bool_decide_reflect (rq_type r = QUERY)) as [?|_]; [by left|right].
  destruct (bool_decide_reflect (rq_type r = NEW)) as [Hn|_],
    (bool_decide_reflect (rq_type r = CANCEL)) as [Hc|_]; cbn [negb andb] in H; try done;
    destruct (Z.eqb_spec (rq_order_id r) 0); try done; [congruence| |by left].
  right. destruct (bool_decide_reflect (rq_side r = BUY)), (bool_decide_reflect (rq_side r = SELL));
    cbn [orb negb] in H; try done; [congruence| |];
    repeat match type of H with
    | (if ?a || ?b then _ else _) = _ => destruct a eqn:?; cbn [orb] in H; [done|]
    | (if ?a then _ else _) = _ => destruct a eqn:?; [done|]
    end; split_and!; auto; lia.
Qed.
