(* ===== verification/MemPool.v ===== *)
(** Fixed-capacity object pool: common/mem_pool.h.

    A [T*] handed out by the pool is the index of its block; the storage of a
    block and its [used] flag are one map, a block being used exactly when it
    has an entry.  Capacity errors of the constructor are an [option]. *)
From S2P Require Import Prelude.
From stdpp Require Import base gmap list.
From Stdlib Require Import ZArith Lia.

Local Open Scope Z_scope.

Record MemPool (T : Type) : Type := mkPool {
  pool_capacity : Z;
  pool_blocks : gmap Z T;    (* live objects, by block index *)
  pool_free : list Z         (* free indices, top of the stack first *)
}.
Arguments mkPool {T} _ _ _.
Arguments pool_capacity {T} _.
Arguments pool_blocks {T} _.
Arguments pool_free {T} _.

Section MemPool.
Context {T : Type}.

(** Filled in reverse order, so that the first allocation gets block 0. *)
Definition pool_new (capacity : Z) : option (MemPool T) :=
  if (capacity =? 0) || (2 ^ 32 - 1 <? capacity) then None
  else Some {| pool_capacity := capacity;
               pool_blocks := ∅;
               pool_free := seqZ 0 capacity |}.

Definition pool_available (p : MemPool T) : Z := Z.of_nat (length (pool_free p)).

(** [None]: the pool is exhausted ([nullptr]). *)
Definition allocate (obj : T) (p : MemPool T) : option Z * MemPool T :=
  match pool_free p with
  | [] => (None, p)
  | index :: free =>
      (Some index, {| pool_capacity := pool_capacity p;
                      pool_blocks := <[index := obj]> (pool_blocks p);
                      pool_free := free |})
  end.

(** The address of block [i] is in the array and aligned on a block exactly
    when [0 <= i < capacity]. *)
Definition deallocate (object : Z) (p : MemPool T) : res (MemPool T) :=
  _ ← ASSERT ((0 <=? object) && (object <? pool_capacity p));
  _ ← ASSERT (bool_decide (is_Some (pool_blocks p !! object)));
  Ok {| pool_capacity := pool_capacity p;
        pool_blocks := delete object (pool_blocks p);
        pool_free := object :: pool_free p |}.

(** Reading and writing an object through a pointer. *)
Definition load (p : MemPool T) (a : Z) : res T := deref (pool_blocks p !! a).

Definition store (a : Z) (f : T -> T) (p : MemPool T) : res (MemPool T) :=
  x ← load p a;
  Ok {| pool_capacity := pool_capacity p;
        pool_blocks := <[a := f x]> (pool_blocks p);
        pool_free := pool_free p |}.

(** Invariant: every block is either live or on the free stack, once. *)
Record pool_ok (p : MemPool T) : Prop := {
  pok_nodup : NoDup (pool_free p);
  pok_free i : i ∈ pool_free p -> pool_blocks p !! i = None;
  pok_range i : (0 <= i < pool_capacity p) <-> (i ∈ pool_free p \/ is_Some (pool_blocks p !! i))
}.

(** ** Lemmas *)
Lemma pool_new_ok c p : pool_new c = Some p -> pool_ok p.
Proof.
  unfold pool_new. case_match; [done|]. intros [= <-]. split; simpl.
  - apply NoDup_seqZ.
  - intros i _. apply lookup_empty.
  - intros i. rewrite elem_of_seqZ, lookup_empty.
    split; [left; lia|]. intros [?|[? ?]]; [lia|done].
Qed.

Lemma pool_new_available c p : 0 <= c -> pool_new c = Some p -> pool_available p = c.
Proof.
  intros Hc. unfold pool_new. case_match; [done|]. intros [= <-].
  unfold pool_available. simpl. rewrite length_seqZ. lia.
Qed.

Lemma allocate_none obj p : pool_available p = 0 -> allocate obj p = (None, p).
Proof. unfold pool_available, allocate. destruct (pool_free p); [done|simpl; lia]. Qed.

Lemma allocate_some obj p :
  pool_ok p -> 0 < pool_available p ->
  exists a p', allocate obj p = (Some a, p') /\ pool_blocks p !! a = None /\
    0 <= a < pool_capacity p /\
    pool_blocks p' = <[a := obj]> (pool_blocks p) /\ pool_ok p' /\
    pool_available p' = pool_available p - 1 /\ pool_capacity p' = pool_capacity p.
Proof.
  intros [Hnd Hfree Hrange] Hav. unfold allocate, pool_available in *.
  destruct (pool_free p) as [|a free] eqn:Ef; [simpl in Hav; lia|].
  eexists a, _. split; [done|]. apply NoDup_cons in Hnd as [Hna Hnd].
  split_and!; simpl; [apply Hfree; set_solver|apply Hrange; set_solver
    |apply Hrange; set_solver|done| |lia|done].
  split; simpl; [done| |].
  - intros i Hi. rewrite lookup_insert_ne by (intros ->; done). apply Hfree. set_solver.
  - intros i. rewrite Hrange, elem_of_cons. destruct (decide (a = i)) as [->|Hne].
    + rewrite lookup_insert_eq. split; [by right; eauto|by left; left].
    + rewrite lookup_insert_ne by done. split; [intros [[->|?]|?]|]; naive_solver.
Qed.

Lemma deallocate_live a x p :
  pool_ok p -> pool_blocks p !! a = Some x ->
  exists p', deallocate a p = Ok p' /\ pool_blocks p' = delete a (pool_blocks p) /\
    pool_ok p' /\ pool_available p' = pool_available p + 1 /\
    pool_capacity p' = pool_capacity p.
Proof.
  intros [Hnd Hfree Hrange] Ha. unfold deallocate.
  assert (Hr : 0 <= a < pool_capacity p) by (apply Hrange; eauto).
  rewrite (proj2 (Z.leb_le 0 a)), (proj2 (Z.ltb_lt a _)) by lia.
  rewrite bool_decide_true by eauto. cbn [andb ASSERT mbind res_bind].
  eexists. split; [done|]. unfold pool_available. simpl. split_and!; [done| |lia|done].
  assert (Hna : a ∉ pool_free p) by (intros Hin; apply Hfree in Hin; congruence).
  split; simpl.
  - by apply NoDup_cons.
  - intros i. rewrite elem_of_cons. intros [->|Hi]; [apply lookup_delete_eq|].
    rewrite lookup_delete_ne by (intros ->; done). by apply Hfree.
  - intros i. rewrite Hrange, elem_of_cons. destruct (decide (a = i)) as [->|Hne].
    + rewrite lookup_delete_eq. split; [by left; left|by right; eauto].
    + rewrite lookup_delete_ne by done. naive_solver.
Qed.

Lemma deallocate_dead a p : pool_blocks p !! a = None -> deallocate a p = Err AssertFailed.
Proof.
  intros Ha. unfold deallocate. destruct ((0 <=? a) && _); [|done].
  cbn [ASSERT mbind res_bind]. rewrite bool_decide_false; [done|].
  rewrite Ha. by intros [? ?].
Qed.

Lemma load_Some p a x : pool_blocks p !! a = Some x -> load p a = Ok x.
Proof. intros H. unfold load. by rewrite H. Qed.

Lemma store_Some a f p x :
  pool_blocks p !! a = Some x ->
  store a f p = Ok {| pool_capacity := pool_capacity p;
                      pool_blocks := <[a := f x]> (pool_blocks p);
                      pool_free := pool_free p |}.
Proof. intros H. unfold store. by rewrite (load_Some p a x H). Qed.

Lemma pool_ok_update p a x y :
  pool_blocks p !! a = Some x -> pool_ok p ->
  pool_ok {| pool_capacity := pool_capacity p;
             pool_blocks := <[a := y]> (pool_blocks p);
             pool_free := pool_free p |}.
Proof.
  intros Ha [Hnd Hfree Hrange]. split; simpl; [done| |].
  - intros i Hi. rewrite lookup_insert_ne; [by apply Hfree|].
    intros ->. apply Hfree in Hi. congruence.
  - intros i. rewrite Hrange, lookup_insert. case_decide as Hai; [|done].
    rewrite <- Hai, Ha. split; intros _; right; eauto.
Qed.
End MemPool.

#[export] Hint Resolve pool_ok_update : trade.
