(* ===== verification/Ring.v ===== *)
(** Circular doubly linked lists threaded through pool objects.

    The order books keep two kinds of rings: the orders of a price level in
    arrival order and the price levels of a side from best to worst.  The
    predicate [ring] says that a list of pointers is such a ring, as a
    cyclic list segment; the two transformations are the insertion of a node
    before another one and the removal of a node. *)
From S2P Require Import Prelude.
From S2P Require Import MemPool.
From stdpp Require Import base gmap list.
From Stdlib Require Import ZArith Lia.

Local Open Scope Z_scope.

(** Nodes with a pair of links; [strip] forgets them. *)
Class Linked (T : Type) : Type := {
  nprev : T -> option Z;
  nnext : T -> option Z;
  set_nprev : option Z -> T -> T;
  set_nnext : option Z -> T -> T;
  nprev_set_nprev p x : nprev (set_nprev p x) = p;
  nnext_set_nprev p x : nnext (set_nprev p x) = nnext x;
  nprev_set_nnext p x : nprev (set_nnext p x) = nprev x;
  nnext_set_nnext p x : nnext (set_nnext p x) = p;
  set_nprev_nprev p q x : set_nprev p (set_nprev q x) = set_nprev p x;
  set_nnext_nnext p q x : set_nnext p (set_nnext q x) = set_nnext p x;
  set_nprev_nnext p q x : set_nprev p (set_nnext q x) = set_nnext q (set_nprev p x)
}.

Definition strip {T} `{Linked T} (x : T) : T := set_nprev None (set_nnext None x).

(** Links of the live objects of a pool, as seen through their addresses. *)
Definition links {T} `{Linked T} (m : gmap Z T) (a : Z) : option (option Z * option Z) :=
  (λ x, (nprev x, nnext x)) <$> m !! a.

Definition data {T} `{Linked T} (m : gmap Z T) (a : Z) : option T := strip <$> m !! a.

(** [seg lk p l n]: the nodes of [l] are linked in order, the first one has
    predecessor [p], the last one has successor [n]. *)
Fixpoint seg (lk : Z -> option (option Z * option Z)) (p : Z) (l : list Z) (n : Z) : Prop :=
  match l with
  | [] => True
  | a :: l' => lk a = Some (Some p, Some (hd n l')) /\ seg lk a l' n
  end.

(** The empty list is not a ring. *)
Definition ring (lk : Z -> option (option Z * option Z)) (l : list Z) : Prop :=
  match l with
  | [] => False
  | a :: l' => NoDup l /\ seg lk (List.last l' a) l a
  end.

(** ** The writes of the source

    [push_order]: [first->prev->next = x; x->prev = first->prev;
    x->next = first; first->prev = x], the tail insertion of [addOrder].
    [link_level]: the same insertion written in another order by
    [addOrdersAtPrice].
    [unlink]: [before->next = after; after->prev = before] of [removeOrder]
    and [removeOrdersAtPrice]; [clear_links] is the final reset. *)
Section Writes.
Context {T : Type} `{Linked T}.

Definition push_order (first x : Z) (p : MemPool T) : res (MemPool T) :=
  f ← load p first;
  before ← deref (nprev f);
  p ← store before (set_nnext (Some x)) p;
  f ← load p first;
  p ← store x (set_nprev (nprev f)) p;
  p ← store x (set_nnext (Some first)) p;
  store first (set_nprev (Some x)) p.

Definition link_level (target x : Z) (p : MemPool T) : res (MemPool T) :=
  t ← load p target;
  p ← store x (set_nprev (nprev t)) p;
  p ← store x (set_nnext (Some target)) p;
  t ← load p target;
  before ← deref (nprev t);
  p ← store before (set_nnext (Some x)) p;
  store target (set_nprev (Some x)) p.

Definition unlink (x : Z) (p : MemPool T) : res (MemPool T) :=
  n ← load p x;
  before ← deref (nprev n);
  after ← deref (nnext n);
  p ← store before (set_nnext (Some after)) p;
  store after (set_nprev (Some before)) p.

Definition clear_links (x : Z) (p : MemPool T) : res (MemPool T) :=
  store x (λ n, set_nprev None (set_nnext None n)) p.

(** Two pools that differ in the links only. *)
Record relinked (p p' : MemPool T) : Prop := {
  rl_capacity : pool_capacity p' = pool_capacity p;
  rl_free : pool_free p' = pool_free p;
  rl_data a : data (pool_blocks p') a = data (pool_blocks p) a
}.
End Writes.

(** ** Stripping *)
Section Strip.
Context `{Linked T}.

Lemma strip_set_nprev p x : strip (set_nprev p x) = strip x.
Proof.
  unfold strip. rewrite !set_nprev_nnext, !set_nprev_nprev. done.
Qed.

Lemma strip_set_nnext p x : strip (set_nnext p x) = strip x.
Proof. unfold strip. rewrite set_nnext_nnext. done. Qed.

Lemma links_insert (m : gmap Z T) a x b :
  links (<[a := x]> m) b = if decide (a = b) then Some (nprev x, nnext x) else links m b.
Proof. unfold links. rewrite lookup_insert. by case_decide. Qed.

Lemma data_insert (m : gmap Z T) a x b :
  data (<[a := x]> m) b = if decide (a = b) then Some (strip x) else data m b.
Proof. unfold data. rewrite lookup_insert. by case_decide. Qed.

Lemma links_delete (m : gmap Z T) a b :
  links (delete a m) b = if decide (a = b) then None else links m b.
Proof. unfold links. rewrite lookup_delete. by case_decide. Qed.

Lemma data_delete (m : gmap Z T) a b :
  data (delete a m) b = if decide (a = b) then None else data m b.
Proof. unfold data. rewrite lookup_delete. by case_decide. Qed.

Lemma links_lookup (m : gmap Z T) a p n :
  links m a = Some (p, n) -> exists x, m !! a = Some x /\ nprev x = p /\ nnext x = n.
Proof. unfold links. destruct (m !! a) as [x|]; simpl; [|done]. intros [= <- <-]. eauto. Qed.

Lemma data_lookup (m : gmap Z T) a d :
  data m a = Some d -> exists x, m !! a = Some x /\ strip x = d.
Proof. unfold data. destruct (m !! a) as [x|]; simpl; [|done]. intros [= <-]. eauto. Qed.
End Strip.

(** ** Segments *)
Section Seg.
Implicit Types (lk : Z -> option (option Z * option Z)) (l : list Z).

Lemma last_default l (a b : Z) : l <> [] -> List.last l a = List.last l b.
Proof.
  induction l as [|x l IH]; [done|]. intros _. destruct l; [done|]. by apply IH.
Qed.

Lemma last_snoc_Z l (a d : Z) : List.last (l ++ [a]) d = a.
Proof. apply List.last_last. Qed.

Lemma last_cons_Z l (a d : Z) : List.last (a :: l) d = List.last l a.
Proof.
  destruct l as [|z l]; [done|]. change (List.last (z :: l) d = List.last (z :: l) a).
  by apply last_default.
Qed.

Lemma seg_app lk p l1 l2 n :
  seg lk p (l1 ++ l2) n <-> seg lk p l1 (hd n l2) /\ seg lk (List.last l1 p) l2 n.
Proof.
  revert p. induction l1 as [|a l1 IH]; intros p; cbn [app seg]; [simpl; tauto|].
  rewrite IH. replace (hd n (l1 ++ l2)) with (hd (hd n l2) l1) by (by destruct l1).
  rewrite last_cons_Z. tauto.
Qed.

Lemma seg_ext lk lk' p l n :
  (forall a, a ∈ l -> lk' a = lk a) -> seg lk p l n -> seg lk' p l n.
Proof.
  revert p. induction l as [|a l IH]; intros p Hext; cbn [seg]; [done|].
  intros [Ha Hl]. split; [rewrite Hext; [done|left]|].
  apply IH; [|done]. intros b Hb. apply Hext. by right.
Qed.

(** Changing the predecessor of the first node. *)
Lemma seg_set_prev lk lk' p p' t l n s :
  NoDup (t :: l) -> lk t = Some (Some p, s) -> lk' t = Some (Some p', s) ->
  (forall a, a <> t -> a ∈ l -> lk' a = lk a) -> seg lk p (t :: l) n -> seg lk' p' (t :: l) n.
Proof.
  intros Hnd Ht Ht' Hext [Ha Hl]. apply NoDup_cons in Hnd as [Hnt _].
  cbn [seg]. split; [congruence|]. eapply seg_ext; [|exact Hl].
  intros a Hin. apply Hext; [|done]. by intros ->.
Qed.

(** Changing the successor of the last node. *)
Lemma seg_set_next lk lk' p l q n n' s :
  NoDup (l ++ [q]) -> lk q = Some (s, Some n) -> lk' q = Some (s, Some n') ->
  (forall a, a <> q -> a ∈ l -> lk' a = lk a) ->
  seg lk p (l ++ [q]) n -> seg lk' p (l ++ [q]) n'.
Proof.
  intros Hnd Hq Hq' Hext. rewrite !seg_app. cbn [seg hd]. intros (Hl & Hlast & _).
  apply NoDup_app in Hnd as (_ & Hdisj & _).
  split_and!; [|congruence|done]. eapply seg_ext; [|exact Hl].
  intros a Hin. apply Hext; [|done]. intros ->. by apply (Hdisj q Hin), list_elem_of_singleton.
Qed.

Lemma last_app_cons l1 l2 (b d : Z) : List.last (l1 ++ b :: l2) d = List.last l2 b.
Proof.
  revert d. induction l1 as [|a l1 IH]; intros d; cbn [app].
  - by rewrite last_cons_Z.
  - by rewrite last_cons_Z, IH.
Qed.

(** The cyclic list can be cut anywhere. *)
Lemma ring_rotate lk l1 l2 : ring lk (l1 ++ l2) -> ring lk (l2 ++ l1).
Proof.
  destruct l1 as [|a l1]; [by rewrite app_nil_r|].
  destruct l2 as [|b l2]; [by rewrite app_nil_r|].
  unfold ring. cbn [app]. intros [Hnd Hs]. split.
  - change (NoDup ((b :: l2) ++ a :: l1)).
    rewrite (Permutation_app_comm (b :: l2)). exact Hnd.
  - change (seg lk (List.last (l2 ++ a :: l1) b) ((b :: l2) ++ a :: l1) b).
    change (seg lk (List.last (l1 ++ b :: l2) a) ((a :: l1) ++ b :: l2) a) in Hs.
    apply seg_app in Hs as [Hs1 Hs2]. apply seg_app. cbn [hd] in *.
    rewrite last_app_cons in *. rewrite !last_cons_Z in *. done.
Qed.

Lemma ring_NoDup lk l : ring lk l -> NoDup l.
Proof. destruct l; [done|]. by intros [? _]. Qed.

Lemma ring_ext lk lk' l : (forall a, a ∈ l -> lk' a = lk a) -> ring lk l -> ring lk' l.
Proof.
  destruct l as [|a l]; [done|]. intros Hext [Hnd Hs]. split; [done|].
  by eapply seg_ext.
Qed.

Lemma ring_head lk a l : ring lk (a :: l) -> lk a = Some (Some (List.last l a), Some (hd a l)).
Proof. intros [_ Hs]. apply Hs. Qed.

Lemma ring_last lk a l q :
  ring lk (a :: l) -> List.last l a = q -> exists p, lk q = Some (Some p, Some a).
Proof.
  intros [_ Hs] Hq. destruct (exists_last (l := a :: l) ltac:(done)) as (l' & c & Hl).
  rewrite Hl in Hs. apply seg_app in Hs as (_ & Hc & _). cbn [hd] in Hc.
  assert (q = c) as ->; [|by eauto].
  rewrite <- Hq, <- (last_cons_Z l a a), Hl. apply last_snoc_Z.
Qed.

Lemma ring_singleton_iff lk a l : ring lk (a :: l) -> lk a = Some (Some a, Some a) <-> l = [].
Proof.
  intros Hr. pose proof (ring_NoDup _ _ Hr) as Hnd. apply ring_head in Hr. rewrite Hr.
  split; [|by intros ->]. intros [= _ Hn]. destruct l as [|b l]; [done|].
  simpl in Hn. subst. apply NoDup_cons in Hnd as [Hnd _]. set_solver.
Qed.

Lemma ring_singleton_prev lk a l : ring lk (a :: l) -> List.last l a = a <-> l = [].
Proof.
  intros Hr. apply ring_NoDup, NoDup_cons in Hr as [Hr _].
  split; [|by intros ->]. destruct l as [|b l] using rev_ind; [done|].
  rewrite last_snoc_Z. intros ->. set_solver.
Qed.

(** Insertion of [x] before the head [t], whose predecessor is [p]. *)
Lemma ring_insert lk lk' x t l p sp st :
  ring lk (t :: l) -> x ∉ t :: l -> p = List.last l t ->
  lk p = Some (sp, Some t) -> lk t = Some (Some p, st) ->
  lk' x = Some (Some p, Some t) ->
  (t <> p -> lk' p = Some (sp, Some x) /\ lk' t = Some (Some x, st)) ->
  (t = p -> lk' t = Some (Some x, Some x)) ->
  (forall a, a <> x -> a <> t -> a <> p -> lk' a = lk a) ->
  ring lk' (x :: t :: l).
Proof.
  intros Hr Hx Hp Hlp Hlt Hlx Hne Heq Hext.
  pose proof (ring_NoDup _ _ Hr) as Hnd. destruct Hr as [_ Hs].
  split; [by apply NoDup_cons|]. rewrite last_cons_Z, <- Hp in *. split; [done|].
  destruct (decide (t = p)) as [->|Htp].
  - assert (l = []) as ->.
    { destruct l as [|b l] using rev_ind; [done|]. rewrite last_snoc_Z in Hp. subst.
      apply NoDup_cons in Hnd as [Hnd _]. set_solver. }
    split; [|done]. by apply Heq.
  - destruct (Hne Htp) as [Hp' Ht'].
    destruct l as [|q l _] using rev_ind; [by destruct Htp|].
    rewrite last_snoc_Z in Hp. subst q.
    rewrite app_comm_cons in *. apply NoDup_app in Hnd as (Hnd & Hdisj & _).
    assert (Hnp : p ∉ t :: l) by (intros Hin; apply (Hdisj p Hin); by left).
    apply seg_app in Hs as (Hs & Hsp & _). apply seg_app. rewrite last_cons_Z in *. cbn [hd seg] in *.
    destruct Hs as [Hst Hs]. split_and!; [congruence| |congruence|done].
    apply (seg_ext lk); [|done]. intros a Ha. apply NoDup_cons in Hnd as [Hnt _].
    apply Hext; set_solver.
Qed.

(** Removal of the head [x], with predecessor [p] and successor [y]. *)
Lemma ring_remove lk lk' x y l p sp sy :
  ring lk (x :: y :: l) -> p = List.last l y ->
  lk p = Some (sp, Some x) -> lk y = Some (Some x, sy) ->
  (y <> p -> lk' p = Some (sp, Some y) /\ lk' y = Some (Some p, sy)) ->
  (y = p -> lk' y = Some (Some y, Some y)) ->
  (forall a, a <> x -> a <> y -> a <> p -> lk' a = lk a) ->
  ring lk' (y :: l).
Proof.
  intros Hr Hp Hlp Hly Hne Heq Hext.
  pose proof (ring_NoDup _ _ Hr) as Hnd. destruct Hr as [_ Hs].
  apply NoDup_cons in Hnd as [Hx Hnd]. split; [done|]. rewrite <- Hp.
  destruct Hs as [_ Hs]. destruct (decide (y = p)) as [->|Hyp].
  - assert (l = []) as ->.
    { destruct l as [|b l] using rev_ind; [done|]. rewrite last_snoc_Z in Hp. subst.
      apply NoDup_cons in Hnd as [Hnd _]. set_solver. }
    split; [|done]. by apply Heq.
  - destruct (Hne Hyp) as [Hp' Hy'].
    destruct l as [|q l _] using rev_ind; [by destruct Hyp|].
    rewrite last_snoc_Z in Hp. subst q.
    rewrite app_comm_cons in *. apply NoDup_app in Hnd as (Hnd & Hdisj & _).
    assert (Hnp : p ∉ y :: l) by (intros Hin; apply (Hdisj p Hin); by left).
    apply seg_app in Hs as (Hs & Hsp & _). apply seg_app. rewrite last_cons_Z in *. cbn [hd seg] in *.
    destruct Hs as [Hst Hs]. split_and!; [congruence| |congruence|done].
    apply (seg_ext lk); [|done]. intros a Ha. apply NoDup_cons in Hnd as [Hny _].
    apply Hext; set_solver.
Qed.
End Seg.

(** ** Effect of the writes *)
Section WritesLemmas.
Context {T : Type} `{Linked T}.
Implicit Types (p : MemPool T) (l : list Z).

Abbreviation plinks p := (links (pool_blocks p)).

Lemma relinked_refl p : relinked p p.
Proof. done. Qed.

Lemma relinked_trans p1 p2 p3 : relinked p1 p2 -> relinked p2 p3 -> relinked p1 p3.
Proof. intros [? ? H1] [? ? H2]. split; [congruence..|]. intros a. by rewrite H2. Qed.

Lemma data_is_Some (m : gmap Z T) a : is_Some (data m a) <-> is_Some (m !! a).
Proof. unfold data. by rewrite fmap_is_Some. Qed.

Lemma links_is_Some (m : gmap Z T) a : is_Some (links m a) <-> is_Some (m !! a).
Proof. unfold links. by rewrite fmap_is_Some. Qed.

Lemma relinked_pool_ok p p' : relinked p p' -> pool_ok p -> pool_ok p'.
Proof.
  intros [Hc Hf Hd] [Hnd Hfree Hr]. split.
  - by rewrite Hf.
  - intros i. rewrite Hf. intros Hi. apply Hfree in Hi.
    apply eq_None_not_Some. rewrite <- data_is_Some, Hd, data_is_Some, Hi.
    apply is_Some_None.
  - intros i. by rewrite Hc, Hf, <- data_is_Some, Hd, data_is_Some.
Qed.

Lemma relinked_available p p' : relinked p p' -> pool_available p' = pool_available p.
Proof. intros [_ Hf _]. unfold pool_available. by rewrite Hf. Qed.

Lemma load_links p a pr nx :
  plinks p a = Some (pr, nx) -> exists x, load p a = Ok x /\ nprev x = pr /\ nnext x = nx.
Proof.
  intros Hl. apply links_lookup in Hl as (x & Hx & Hp & Hn).
  exists x. split_and!; [by apply load_Some|done..].
Qed.

Lemma store_next p a pr nx n :
  plinks p a = Some (pr, nx) ->
  exists p', store a (set_nnext n) p = Ok p' /\ relinked p p' /\
    forall b, plinks p' b = if decide (a = b) then Some (pr, n) else plinks p b.
Proof.
  intros Hl. apply links_lookup in Hl as (x & Hx & Hp & Hn).
  eexists. split; [by apply store_Some|]. split.
  - split; [done..|]. intros b. cbn [pool_blocks]. rewrite data_insert.
    case_decide as Hab; [|done]. unfold data. by rewrite <- Hab, Hx, strip_set_nnext.
  - intros b. cbn [pool_blocks]. rewrite links_insert, nprev_set_nnext, nnext_set_nnext.
    by subst.
Qed.

Lemma store_prev p a pr nx n :
  plinks p a = Some (pr, nx) ->
  exists p', store a (set_nprev n) p = Ok p' /\ relinked p p' /\
    forall b, plinks p' b = if decide (a = b) then Some (n, nx) else plinks p b.
Proof.
  intros Hl. apply links_lookup in Hl as (x & Hx & Hp & Hn).
  eexists. split; [by apply store_Some|]. split.
  - split; [done..|]. intros b. cbn [pool_blocks]. rewrite data_insert.
    case_decide as Hab; [|done]. unfold data. by rewrite <- Hab, Hx, strip_set_nprev.
  - intros b. cbn [pool_blocks]. rewrite links_insert, nprev_set_nprev, nnext_set_nprev.
    by subst.
Qed.

(** Run the next load or store of the goal, whose links are known. *)
Ltac run_load Hl :=
  let x := fresh "x" in let H1 := fresh in
  destruct (load_links _ _ _ _ Hl) as (x & H1 & ? & ?);
  rewrite H1; clear H1; cbn [mbind res_bind]; simplify_eq.

Ltac links_at H := rewrite H; repeat (case_decide; [congruence|]); try done.

Lemma push_order_ring p x t l :
  ring (plinks p) (t :: l) -> x ∉ t :: l -> is_Some (pool_blocks p !! x) ->
  exists p', push_order t x p = Ok p' /\ relinked p p' /\ ring (plinks p') (x :: t :: l) /\
    forall a, a ∉ x :: t :: l -> plinks p' a = plinks p a.
Proof.
  intros Hr Hx Hlive. set (pr := List.last l t).
  pose proof (ring_head _ _ _ Hr) as Ht. fold pr in Ht.
  destruct (ring_last _ _ _ pr Hr eq_refl) as (sp & Hpr).
  apply links_is_Some in Hlive as [[xp xn] Hlx].
  assert (Hxt : x <> t) by set_solver.
  assert (Hprin : pr ∈ t :: l).
  { unfold pr. clear. destruct l as [|q l _] using rev_ind; [by left|].
    rewrite last_snoc_Z. set_solver. }
  assert (Hxpr : x <> pr) by (intros ->; done).
  unfold push_order. destruct (load_links _ _ _ _ Ht) as (n0 & -> & Hn0p & Hn0n).
  cbn [mbind res_bind]. rewrite Hn0p. cbn [deref mbind res_bind].
  destruct (store_next p pr _ _ (Some x) Hpr) as (p1 & -> & R1 & L1). cbn [mbind res_bind].
  assert (Ht1 : exists nx, plinks p1 t = Some (Some pr, nx)).
  { rewrite L1. case_decide as E; [|by eauto]. rewrite E in Hpr. rewrite Hpr in Ht.
    injection Ht as -> _. eauto. }
  destruct Ht1 as [nx1 Ht1]. destruct (load_links _ _ _ _ Ht1) as (n1 & -> & Hn1p & _).
  cbn [mbind res_bind]. rewrite Hn1p.
  assert (Hx1 : plinks p1 x = Some (xp, xn)) by (rewrite L1, decide_False; done).
  destruct (store_prev p1 x _ _ (Some pr) Hx1) as (p2 & -> & R2 & L2). cbn [mbind res_bind].
  assert (Hx2 : plinks p2 x = Some (Some pr, xn)) by (rewrite L2, decide_True; done).
  destruct (store_next p2 x _ _ (Some t) Hx2) as (p3 & -> & R3 & L3). cbn [mbind res_bind].
  assert (Ht3 : plinks p3 t = Some (Some pr, nx1)) by (rewrite L3, decide_False, L2, decide_False; done).
  destruct (store_prev p3 t _ _ (Some x) Ht3) as (p4 & -> & R4 & L4).
  eexists. split; [done|].
  split; [eauto using relinked_trans|].
  assert (HL : forall b, plinks p4 b = if decide (t = b) then Some (Some x, nx1) else
     if decide (x = b) then Some (Some pr, Some t) else
     if decide (pr = b) then Some (Some sp, Some x) else plinks p b).
  { intros b. rewrite L4, L3, L2, L1. repeat case_decide; done. }
  split.
  - eapply ring_insert with (p := pr) (sp := Some sp); [exact Hr|done|done|done|exact Ht|..].
    + rewrite HL, decide_False, decide_True; done.
    + intros Hne. rewrite !HL. rewrite (decide_False (P := t = pr)), (decide_False (P := x = pr)),
        !decide_True by done. split; [done|].
      rewrite L1, decide_False in Ht1 by done. congruence.
    + intros Heq. rewrite HL, decide_True by done.
      rewrite L1, decide_True in Ht1 by done. congruence.
    + intros a Ha1 Ha2 Ha3. rewrite HL, !decide_False by done. done.
  - intros a Ha. rewrite HL, !decide_False; set_solver.
Qed.

Lemma last_in l (t : Z) : List.last l t ∈ t :: l.
Proof. destruct l as [|q l _] using rev_ind; [by left|]. rewrite last_snoc_Z. set_solver. Qed.

Lemma link_level_ring p x t l :
  ring (plinks p) (t :: l) -> x ∉ t :: l -> is_Some (pool_blocks p !! x) ->
  exists p', link_level t x p = Ok p' /\ relinked p p' /\ ring (plinks p') (x :: t :: l) /\
    forall a, a ∉ x :: t :: l -> plinks p' a = plinks p a.
Proof.
  intros Hr Hx Hlive. pose proof (last_in l t) as Hprin. set (pr := List.last l t) in *.
  pose proof (ring_head _ _ _ Hr) as Ht. fold pr in Ht.
  destruct (ring_last _ _ _ pr Hr eq_refl) as (sp & Hpr).
  apply links_is_Some in Hlive as [[xp xn] Hlx].
  assert (Hxt : x <> t) by set_solver.
  assert (Hxpr : x <> pr) by (intros Heq; rewrite <- Heq in Hprin; done).
  unfold link_level. destruct (load_links _ _ _ _ Ht) as (n0 & -> & Hn0p & Hn0n).
  cbn [mbind res_bind]. rewrite Hn0p.
  destruct (store_prev p x _ _ (Some pr) Hlx) as (p1 & -> & R1 & L1). cbn [mbind res_bind].
  assert (Hx1 : plinks p1 x = Some (Some pr, xn)) by (rewrite L1, decide_True; done).
  destruct (store_next p1 x _ _ (Some t) Hx1) as (p2 & -> & R2 & L2). cbn [mbind res_bind].
  assert (Ht2 : plinks p2 t = plinks p t) by (rewrite L2, decide_False, L1, decide_False; done).
  rewrite Ht in Ht2. destruct (load_links _ _ _ _ Ht2) as (n1 & -> & Hn1p & _).
  cbn [mbind res_bind]. rewrite Hn1p. cbn [deref mbind res_bind].
  assert (Hpr2 : plinks p2 pr = Some (Some sp, Some t))
    by (rewrite L2, decide_False, L1, decide_False; done).
  destruct (store_next p2 pr _ _ (Some x) Hpr2) as (p3 & -> & R3 & L3). cbn [mbind res_bind].
  assert (Ht3 : exists nx, plinks p3 t = Some (Some pr, nx)).
  { rewrite L3. case_decide as E; [|by eauto]. rewrite E in Hpr2. rewrite Hpr2 in Ht2.
    injection Ht2 as -> _. eauto. }
  destruct Ht3 as [nx1 Ht3].
  destruct (store_prev p3 t _ _ (Some x) Ht3) as (p4 & -> & R4 & L4).
  eexists. split; [done|]. split; [eauto using relinked_trans|].
  assert (HL : forall b, plinks p4 b = if decide (t = b) then Some (Some x, nx1) else
     if decide (pr = b) then Some (Some sp, Some x) else
     if decide (x = b) then Some (Some pr, Some t) else plinks p b).
  { intros b. rewrite L4, L3, L2, L1. repeat case_decide; done. }
  split.
  - eapply ring_insert with (p := pr) (sp := Some sp);
      [exact Hr|done|done|exact Hpr|exact Ht|..].
    + rewrite HL. by rewrite (decide_False (P := t = x)), (decide_False (P := pr = x)),
        decide_True by done.
    + intros Hne. rewrite !HL. rewrite (decide_False (P := t = pr)), !decide_True by done.
      split; [done|]. rewrite L3, decide_False in Ht3 by done. congruence.
    + intros Heq. rewrite HL, decide_True by done.
      rewrite L3, decide_True in Ht3 by done. congruence.
    + intros a Ha1 Ha2 Ha3. rewrite HL, !decide_False by done. done.
  - intros a Ha. rewrite HL, !decide_False; set_solver.
Qed.

Lemma unlink_ring p x y l :
  ring (plinks p) (x :: y :: l) ->
  exists p', unlink x p = Ok p' /\ relinked p p' /\ ring (plinks p') (y :: l) /\
    (forall a, a ∉ y :: l -> plinks p' a = plinks p a).
Proof.
  intros Hr. pose proof (last_in l y) as Hprin. set (pr := List.last l y) in *.
  pose proof (ring_NoDup _ _ Hr) as Hnd. apply NoDup_cons in Hnd as [Hxnin _].
  pose proof (ring_head _ _ _ Hr) as Hx. rewrite last_cons_Z in Hx. fold pr in Hx. cbn [hd] in Hx.
  destruct (ring_last _ _ _ pr Hr (last_cons_Z _ _ _)) as (sp & Hpr).
  assert (Hy : exists sy, plinks p y = Some (Some x, sy)).
  { destruct Hr as [_ (_ & Hy & _)]. eauto. }
  destruct Hy as [sy Hy].
  unfold unlink. destruct (load_links _ _ _ _ Hx) as (n0 & -> & Hn0p & Hn0n).
  cbn [mbind res_bind]. rewrite Hn0p, Hn0n. cbn [deref mbind res_bind].
  destruct (store_next p pr _ _ (Some y) Hpr) as (p1 & -> & R1 & L1). cbn [mbind res_bind].
  assert (Hy1 : exists sy1, plinks p1 y = Some (Some x, sy1) /\
     (pr <> y -> sy1 = sy) /\ (pr = y -> sy1 = Some y)).
  { rewrite L1. case_decide as E.
    - rewrite E, Hy in Hpr. injection Hpr as <- _. eexists. by split_and!.
    - exists sy. by split_and!. }
  destruct Hy1 as (sy1 & Hy1 & Hs1 & Hs2).
  destruct (store_prev p1 y _ _ (Some pr) Hy1) as (p2 & -> & R2 & L2).
  eexists. split; [done|]. split; [eauto using relinked_trans|].
  assert (HL : forall b, plinks p2 b = if decide (y = b) then Some (Some pr, sy1) else
     if decide (pr = b) then Some (Some sp, Some y) else plinks p b).
  { intros b. rewrite L2, L1. repeat case_decide; done. }
  split.
  - eapply ring_remove with (p := pr) (sp := Some sp); [exact Hr|done|exact Hpr|exact Hy|..].
    + intros Hne. rewrite !HL, decide_False, !decide_True by done. split; [done|].
      by rewrite Hs1 by done.
    + intros Heq. rewrite HL, decide_True by done. by rewrite <- Heq, Hs2.
    + intros a Ha1 Ha2 Ha3. rewrite HL, !decide_False by done. done.
  - intros a Ha. rewrite HL, !decide_False; [done|set_solver..].
Qed.

Lemma clear_links_spec p x :
  is_Some (pool_blocks p !! x) ->
  exists p', clear_links x p = Ok p' /\ relinked p p' /\
    forall a, a <> x -> plinks p' a = plinks p a.
Proof.
  intros [n Hn]. unfold clear_links. eexists. split; [by apply store_Some|]. split.
  - split; [done..|]. intros b. cbn [pool_blocks]. rewrite data_insert.
    case_decide as Hb; [|done].
    unfold data. by rewrite <- Hb, Hn, strip_set_nprev, strip_set_nnext.
  - intros a Ha. cbn [pool_blocks]. by rewrite links_insert, decide_False.
Qed.
End WritesLemmas.
