(* ===== verification/PriceLevels.v ===== *)
(** Price levels of one order book, generic in the order node.

    The exchange book (matcher/me_order_book.h) and the client book
    (trading/strategy/market_order_book.h) contain the same pointer code on
    three structures: a price index, two rings of levels (best first) and a
    ring of orders per level.  It is modelled here once, over any order type
    with links, a side and a price. *)
From S2P Require Import Prelude.
From S2P Require Import Types.
From S2P Require Import MemPool.
From S2P Require Import Ring.
From stdpp Require Import functions base gmap list sorting.
From Stdlib Require Import ZArith Lia.

Local Open Scope Z_scope.

(** Orders that live in a price level. *)
Class BookOrder (Node : Type) : Type := {
  bo_linked :: Linked Node;
  bo_side : Node -> Side;
  bo_price : Node -> Z;
  bo_side_strip x : bo_side (strip x) = bo_side x;
  bo_price_strip x : bo_price (strip x) = bo_price x
}.

(** [MEOrdersAtPrice] / [MarketOrdersAtPrice]. *)
Record Level : Type := mkLevel {
  lv_side : Side;
  lv_price : Z;
  lv_first : option Z;
  lv_prev : option Z;
  lv_next : option Z
}.

Definition set_lv_first (o : option Z) (v : Level) : Level :=
  mkLevel (lv_side v) (lv_price v) o (lv_prev v) (lv_next v).

#[export] Instance level_linked : Linked Level.
Proof.
  refine {|
    nprev := lv_prev;
    nnext := lv_next;
    set_nprev p v := mkLevel (lv_side v) (lv_price v) (lv_first v) p (lv_next v);
    set_nnext n v := mkLevel (lv_side v) (lv_price v) (lv_first v) (lv_prev v) n
  |}; reflexivity.
Defined.

(** The members of a book that hold its price levels. *)
Record Levels (Node : Type) : Type := mkLevels {
  lv_orders : MemPool Node;
  lv_levels : MemPool Level;
  lv_index : gmap (Side * Z) Z;
  lv_bids : option Z;
  lv_asks : option Z
}.
Arguments mkLevels {Node} _ _ _ _ _.
Arguments lv_orders {Node} _.
Arguments lv_levels {Node} _.
Arguments lv_index {Node} _.
Arguments lv_bids {Node} _.
Arguments lv_asks {Node} _.

Section Operations.
Context {Node : Type} `{BookOrder Node}.

Definition set_orders (p : MemPool Node) (b : Levels Node) : Levels Node :=
  mkLevels p (lv_levels b) (lv_index b) (lv_bids b) (lv_asks b).
Definition set_levels (p : MemPool Level) (b : Levels Node) : Levels Node :=
  mkLevels (lv_orders b) p (lv_index b) (lv_bids b) (lv_asks b).
Definition set_index (m : gmap (Side * Z) Z) (b : Levels Node) : Levels Node :=
  mkLevels (lv_orders b) (lv_levels b) m (lv_bids b) (lv_asks b).

(** [buy ? bids_by_price_ : asks_by_price_]. *)
Definition best (s : Side) (b : Levels Node) : option Z :=
  if decide (s = BUY) then lv_bids b else lv_asks b.
Definition set_best (s : Side) (p : option Z) (b : Levels Node) : Levels Node :=
  if decide (s = BUY)
  then mkLevels (lv_orders b) (lv_levels b) (lv_index b) p (lv_asks b)
  else mkLevels (lv_orders b) (lv_levels b) (lv_index b) (lv_bids b) p.

Definition getOrdersAtPrice (price : Z) (side : Side) (b : Levels Node) : option Z :=
  lv_index b !! (side, price).

(** The lambda [better] of [addOrdersAtPrice]. *)
Definition better (s : Side) (left right : Z) : bool :=
  if decide (s = BUY) then right <? left else left <? right.

(** The do-while loop: walk from [target] to the first level, after it, that
    is [best] again or is not better than [price]. *)
Fixpoint find_target (fuel : nat) (pool : MemPool Level) (s : Side) (bst price target : Z) :
    res Z :=
  match fuel with
  | 0%nat => Err NoFuel
  | S fuel =>
      t ← load pool target;
      target ← deref (lv_next t);
      if bool_decide (target = bst) then Ok target else
      t ← load pool target;
      if better s (lv_price t) price then find_target fuel pool s bst price target
      else Ok target
  end.

Definition addOrdersAtPrice (level : Z) (b : Levels Node) : res (Levels Node) :=
  v ← load (lv_levels b) level;
  let s := lv_side v in
  let b := set_index (<[(s, lv_price v) := level]> (lv_index b)) b in
  match best s b with
  | None =>
      p ← store level (set_nnext (Some level)) (lv_levels b);
      p ← store level (set_nprev (Some level)) p;
      Ok (set_best s (Some level) (set_levels p b))
  | Some bst =>
      bv ← load (lv_levels b) bst;
      let new_best := better s (lv_price v) (lv_price bv) in
      target ←
        (if new_best then Ok bst else
         tail ← deref (lv_prev bv);
         tv ← load (lv_levels b) tail;
         if better s (lv_price v) (lv_price tv)
         then find_target (S (size (lv_index b))) (lv_levels b) s bst (lv_price v) bst
         else Ok bst);
      p ← link_level target level (lv_levels b);
      let b := set_levels p b in
      Ok (if new_best then set_best s (Some level) b else b)
  end.

Definition removeOrdersAtPrice (side : Side) (price : Z) (b : Levels Node) : res (Levels Node) :=
  let best_orders_by_price := best side b in
  level ← deref (getOrdersAtPrice price side b);
  v ← load (lv_levels b) level;
  b ← (if bool_decide (lv_next v = Some level) then Ok (set_best side None b) else
       p ← unlink level (lv_levels b);
       v ← load p level;
       let b := set_levels p b in
       let b := if bool_decide (best_orders_by_price = Some level)
                then set_best side (lv_next v) b else b in
       p ← clear_links level (lv_levels b);
       Ok (set_levels p b));
  let b := set_index (delete (side, price) (lv_index b)) b in
  p ← deallocate level (lv_levels b);
  Ok (set_levels p b).

(** [removeOrder], up to the index of the book and the order pool. *)
Definition detachOrder (order : Z) (b : Levels Node) : res (Levels Node) :=
  x ← load (lv_orders b) order;
  let orders_at_price := getOrdersAtPrice (bo_price x) (bo_side x) b in
  if bool_decide (nprev x = Some order)
  then removeOrdersAtPrice (bo_side x) (bo_price x) b
  else
    let order_after := nnext x in
    p ← unlink order (lv_orders b);
    let b := set_orders p b in
    level ← deref orders_at_price;
    v ← load (lv_levels b) level;
    b ← (if bool_decide (lv_first v = Some order)
         then q ← store level (set_lv_first order_after) (lv_levels b); Ok (set_levels q b)
         else Ok b);
    p ← clear_links order (lv_orders b);
    Ok (set_orders p b).

(** [addOrder], up to the index of the book: [order] is already allocated.
    An exhausted level pool gives the null pointer [addOrdersAtPrice]
    dereferences. *)
Definition attachOrder (order : Z) (b : Levels Node) : res (Levels Node) :=
  x ← load (lv_orders b) order;
  match getOrdersAtPrice (bo_price x) (bo_side x) b with
  | None =>
      p ← store order (set_nprev (Some order)) (lv_orders b);
      p ← store order (set_nnext (Some order)) p;
      let b := set_orders p b in
      let '(new, q) :=
        allocate (mkLevel (bo_side x) (bo_price x) (Some order) None None) (lv_levels b) in
      level ← deref new;
      addOrdersAtPrice level (set_levels q b)
  | Some level =>
      v ← load (lv_levels b) level;
      first ← deref (lv_first v);
      p ← push_order first order (lv_orders b);
      Ok (set_orders p b)
  end.
End Operations.

(** ** Abstract sides: levels from best to worst, orders in arrival order *)
Definition Side_view (Node : Type) : Type := list (Z * list Node).

Section Abstract.
Context {Node : Type} `{BookOrder Node}.

Fixpoint view_add (s : Side) (price : Z) (d : Node) (l : Side_view Node) : Side_view Node :=
  match l with
  | [] => [(price, [d])]
  | (p, os) :: l' =>
      if p =? price then (p, os ++ [d]) :: l'
      else if better s price p then (price, [d]) :: (p, os) :: l'
      else (p, os) :: view_add s price d l'
  end.

(** Removal of the orders that satisfy [P], dropping the levels it empties. *)
Definition view_remove (P : Node -> bool) (l : Side_view Node) : Side_view Node :=
  omap (λ '(p, os), match List.filter (λ o, negb (P o)) os with
                    | [] => None
                    | os' => Some (p, os')
                    end) l.
End Abstract.

(** ** Representation invariant

    The ghost [G] gives, for each side, the levels as the pointer to the
    level object, its price and the pointers to its orders. *)
Record GLevel : Type := mkG { g_ptr : Z; g_price : Z; g_orders : list Z }.

#[export] Instance GLevel_eq_dec : EqDecision GLevel.
Proof. solve_decision. Defined.

Definition valid_side (s : Side) : Prop := s = BUY \/ s = SELL.

Section Invariant.
Context {Node : Type} `{BookOrder Node}.

Record level_ok (b : Levels Node) (s : Side) (g : GLevel) : Prop := {
  lo_level : exists v, pool_blocks (lv_levels b) !! g_ptr g = Some v /\
    lv_side v = s /\ lv_price v = g_price g /\ lv_first v = head (g_orders g);
  lo_ring : ring (links (pool_blocks (lv_orders b))) (g_orders g);
  lo_orders o : o ∈ g_orders g -> exists x, pool_blocks (lv_orders b) !! o = Some x /\
    bo_side x = s /\ bo_price x = g_price g
}.

Record side_ok (b : Levels Node) (s : Side) (gs : list GLevel) : Prop := {
  so_best : best s b = g_ptr <$> head gs;
  so_ring : gs = [] \/ ring (links (pool_blocks (lv_levels b))) (g_ptr <$> gs);
  so_sorted : StronglySorted (λ g1 g2, better s (g_price g1) (g_price g2) = true) gs;
  so_levels g : g ∈ gs -> level_ok b s g
}.

(** [pend]: an allocated order that is not in a level (yet, or any more). *)
Record levels_ok (b : Levels Node) (G : Side -> list GLevel) (pend : option Z) : Prop := {
  lk_sides s : valid_side s -> side_ok b s (G s);
  lk_others s : ~ valid_side s -> G s = [];
  lk_index s p a : lv_index b !! (s, p) = Some a <->
    exists g, g ∈ G s /\ g_price g = p /\ g_ptr g = a;
  lk_orders o x : pool_blocks (lv_orders b) !! o = Some x ->
    pend = Some o \/ exists g, g ∈ G (bo_side x) /\ o ∈ g_orders g;
  lk_pend o : pend = Some o -> forall s g, g ∈ G s -> o ∉ g_orders g;
  lk_levels a v : pool_blocks (lv_levels b) !! a = Some v ->
    exists g, g ∈ G (lv_side v) /\ g_ptr g = a;
  lk_pool_orders : pool_ok (lv_orders b);
  lk_pool_levels : pool_ok (lv_levels b)
}.

(** The abstract side: the ghost pointers read as data. *)
Definition side_view (m : gmap Z Node) (gs : list GLevel) : Side_view Node :=
  (λ g, (g_price g, omap (data m) (g_orders g))) <$> gs.

(** Ghost counterparts of the operations. *)
Fixpoint g_add (s : Side) (price : Z) (level order : Z) (gs : list GLevel) : list GLevel :=
  match gs with
  | [] => [mkG level price [order]]
  | g :: gs' =>
      if g_price g =? price then mkG (g_ptr g) price (g_orders g ++ [order]) :: gs'
      else if better s price (g_price g) then mkG level price [order] :: g :: gs'
      else g :: g_add s price level order gs'
  end.

Definition g_del (order : Z) (gs : list GLevel) : list GLevel :=
  omap (λ g, match List.filter (λ o, negb (o =? order)) (g_orders g) with
             | [] => None
             | os => Some (mkG (g_ptr g) (g_price g) os)
             end) gs.
End Invariant.

(** ** Order on prices *)
Lemma better_irrefl s a : better s a a = false.
Proof. unfold better. case_decide; lia. Qed.

Lemma better_trans s a b c : better s a b = true -> better s b c = true -> better s a c = true.
Proof. unfold better. case_decide; lia. Qed.

Lemma better_total s a b : better s a b = false -> a <> b -> better s b a = true.
Proof. unfold better. case_decide; lia. Qed.

Lemma better_asym s a b : better s a b = true -> better s b a = false.
Proof. unfold better. case_decide; lia. Qed.

(** A strictly sorted side splits around a price that is not in it. *)
Lemma sorted_split s price (gs : list GLevel) :
  StronglySorted (λ g1 g2, better s (g_price g1) (g_price g2) = true) gs ->
  (forall g, g ∈ gs -> g_price g <> price) ->
  exists g1 g2, gs = g1 ++ g2 /\
    (forall g, g ∈ g1 -> better s (g_price g) price = true) /\
    (forall g, g ∈ g2 -> better s price (g_price g) = true) /\
    (forall lp o, g_add s price lp o gs = g1 ++ mkG lp price [o] :: g2).
Proof.
  induction 1 as [|g gs Hs IH Hg]; intros Hne.
  - exists [], []. split_and!; [done|set_solver..|done].
  - destruct (better s price (g_price g)) eqn:E.
    + exists [], (g :: gs). split_and!; [done|set_solver| |].
      * intros g' [->|Hg']%elem_of_cons; [done|].
        rewrite Forall_forall in Hg. eauto using better_trans.
      * intros lp o. simpl. rewrite E. destruct (Z.eqb_spec (g_price g) price); [|done].
        exfalso. apply (Hne g); [by left|done].
    + destruct IH as (g1 & g2 & -> & H1 & H2 & H3).
      { intros g' Hg'. apply Hne. by right. }
      exists (g :: g1), g2. split_and!; [done| |done|].
      * intros g' [->|Hg']%elem_of_cons; [|by apply H1].
        apply better_total; [done|]. intros Heq. apply (Hne g); [by left|done].
      * intros lp o. simpl. rewrite E, H3.
        destruct (Z.eqb_spec (g_price g) price); [|done].
        exfalso. apply (Hne g); [by left|done].
Qed.

Lemma g_add_existing s price lp o (g1 g2 : list GLevel) g :
  StronglySorted (λ g1 g2, better s (g_price g1) (g_price g2) = true) (g1 ++ g :: g2) ->
  g_price g = price ->
  g_add s price lp o (g1 ++ g :: g2) = g1 ++ mkG (g_ptr g) price (g_orders g ++ [o]) :: g2.
Proof.
  intros Hs Hg. induction g1 as [|g0 g1 IH]; simpl in *.
  - by rewrite Hg, Z.eqb_refl.
  - apply StronglySorted_inv in Hs as [Hs Hall]. rewrite IH by done.
    rewrite Forall_forall in Hall. specialize (Hall g). rewrite Hg in Hall.
    assert (Hb : better s (g_price g0) price = true) by (apply Hall; set_solver).
    rewrite (better_asym _ _ _ Hb).
    destruct (Z.eqb_spec (g_price g0) price) as [Heq|]; [|done].
    rewrite Heq, better_irrefl in Hb. done.
Qed.

(** ** Walking the ring of levels *)
Lemma ring_next lk (l1 l2 : list Z) a b :
  ring lk (l1 ++ a :: b :: l2) -> exists p, lk a = Some (p, Some b).
Proof.
  intros Hr. apply ring_rotate in Hr. cbn [app] in Hr. apply ring_head in Hr.
  cbn [hd] in Hr. eauto.
Qed.

Lemma find_target_ok (pool : MemPool Level) s bst price (pre mid post : list GLevel) c t fuel :
  ring (links (pool_blocks pool)) (g_ptr <$> pre ++ c :: mid ++ t :: post) ->
  (forall g, g ∈ mid ++ [t] -> exists v, pool_blocks pool !! g_ptr g = Some v /\
     lv_price v = g_price g) ->
  head (g_ptr <$> pre ++ [c]) = Some bst ->
  (forall g, g ∈ mid -> better s (g_price g) price = true) ->
  better s (g_price t) price = false ->
  (length mid < fuel)%nat ->
  find_target fuel pool s bst price (g_ptr c) = Ok (g_ptr t).
Proof.
  revert pre c fuel. induction mid as [|m mid IH]; intros pre c fuel Hr Hv Hb Hm Ht Hf;
    (destruct fuel as [|fuel]; [simpl in Hf; lia|]); cbn [find_target].
  - cbn [app] in *. rewrite fmap_app, !fmap_cons in Hr.
    destruct (ring_next _ _ _ _ _ Hr) as [p Hc].
    destruct (load_links _ _ _ _ Hc) as (x & -> & _ & Hx). cbn [mbind res_bind].
    change (lv_next x) with (nnext x). rewrite Hx. cbn [deref mbind res_bind].
    destruct (Hv t) as (v & Hload & Hpv); [set_solver|].
    rewrite (load_Some _ _ _ Hload). cbn [mbind res_bind]. rewrite Hpv, Ht.
    by case_bool_decide.
  - cbn [app] in *. pose proof Hr as Hr'. rewrite fmap_app, !fmap_cons in Hr.
    destruct (ring_next _ _ _ _ _ Hr) as [p Hc].
    destruct (load_links _ _ _ _ Hc) as (x & -> & _ & Hx). cbn [mbind res_bind].
    change (lv_next x) with (nnext x). rewrite Hx. cbn [deref mbind res_bind].
    rewrite bool_decide_false.
    + destruct (Hv m) as (v & Hload & Hpv); [set_solver|].
      rewrite (load_Some _ _ _ Hload). cbn [mbind res_bind].
      rewrite Hpv, Hm by set_solver.
      apply (IH (pre ++ [c])).
      * rewrite <- app_assoc. exact Hr'.
      * intros g Hg. apply Hv. set_solver.
      * rewrite <- app_assoc. destruct pre; exact Hb.
      * intros g Hg. apply Hm. set_solver.
      * done.
      * simpl in Hf. lia.
    + intros Heq. apply ring_NoDup in Hr.
      replace (_ ++ g_ptr c :: g_ptr m :: _) with
        ((g_ptr <$> pre ++ [c]) ++ g_ptr m :: (g_ptr <$> mid ++ t :: post)) in Hr
        by (by rewrite fmap_app, <- app_assoc).
      apply NoDup_app in Hr as (_ & Hd & _). apply (Hd bst); [|rewrite <- Heq; by left].
      destruct (g_ptr <$> pre ++ [c]); [done|]. injection Hb as ->. by left.
Qed.

(** ** The operations on levels *)
Section LevelLemmas.
Context {Node : Type} `{BookOrder Node}.
Implicit Types (b : Levels Node) (gs : list GLevel).

Abbreviation olinks b := (links (pool_blocks (lv_orders b))).
Abbreviation llinks b := (links (pool_blocks (lv_levels b))).

Lemma best_set_best s s' p b :
  valid_side s -> valid_side s' ->
  best s' (set_best s p b) = if decide (s = s') then p else best s' b.
Proof. intros [-> | ->] [-> | ->]; done. Qed.

Lemma best_set_levels s p b : best s (set_levels p b) = best s b.
Proof. done. Qed.
Lemma best_set_orders s p b : best s (set_orders p b) = best s b.
Proof. done. Qed.
Lemma best_set_index s m b : best s (set_index m b) = best s b.
Proof. done. Qed.

Lemma lv_levels_set_best s p b : lv_levels (set_best s p b) = lv_levels b.
Proof. unfold set_best. by case_decide. Qed.
Lemma lv_orders_set_best s p b : lv_orders (set_best s p b) = lv_orders b.
Proof. unfold set_best. by case_decide. Qed.
Lemma lv_index_set_best s p b : lv_index (set_best s p b) = lv_index b.
Proof. unfold set_best. by case_decide. Qed.

Hint Rewrite best_set_levels best_set_orders best_set_index lv_levels_set_best
  lv_orders_set_best lv_index_set_best : levels.

(** The price of a level of a side, read through its pointer. *)
Lemma side_level_load b s gs g :
  side_ok b s gs -> g ∈ gs ->
  exists v, pool_blocks (lv_levels b) !! g_ptr g = Some v /\ lv_price v = g_price g.
Proof.
  intros Hs Hg. destruct (lo_level _ _ _ (so_levels _ _ _ Hs g Hg)) as (v & ? & ? & ? & ?).
  eauto.
Qed.

(** What linking level [level] between [g1] and [g2] leaves. *)
Record linked_level (b b' : Levels Node) (s : Side) (level : Z) (g1 g2 : list GLevel) : Prop := {
  ll_orders : lv_orders b' = lv_orders b;
  ll_relinked : relinked (lv_levels b) (lv_levels b');
  ll_ring : ring (llinks b') ((g_ptr <$> g1) ++ level :: (g_ptr <$> g2));
  ll_frame a : a <> level -> a ∉ g_ptr <$> (g1 ++ g2) -> llinks b' a = llinks b a;
  ll_best : best s b' = head ((g_ptr <$> g1) ++ [level]);
  ll_best_other s' : valid_side s' -> s' <> s -> best s' b' = best s' b
}.

(** The level at whose front the new level goes: the head of [g2], or the
    best level when [g2] is empty. *)
Lemma target_ok b s gs g1 g2 h price fuel bv :
  side_ok b s gs -> gs = g1 ++ g2 -> head gs = Some h ->
  (forall g, g ∈ g1 -> better s (g_price g) price = true) ->
  (forall g, g ∈ g2 -> better s price (g_price g) = true) ->
  (forall g, g ∈ gs -> g_price g <> price) ->
  (length gs <= fuel)%nat ->
  pool_blocks (lv_levels b) !! g_ptr h = Some bv -> lv_price bv = g_price h ->
  (if better s price (lv_price bv) then Ok (g_ptr h) else
   tail ← deref (lv_prev bv);
   tv ← load (lv_levels b) tail;
   if better s price (lv_price tv)
   then find_target (S fuel) (lv_levels b) s (g_ptr h) price (g_ptr h)
   else Ok (g_ptr h)) = Ok (hd (g_ptr h) (g_ptr <$> g2))
  /\ better s price (lv_price bv) = bool_decide (g1 = []).
Proof.
  intros Hs -> Hh H1 H2 Hne Hf Hbv Hpv. rewrite Hpv.
  destruct g1 as [|h' mid].
  { simpl in Hh. destruct g2 as [|h' g2]; [done|]. injection Hh as ->.
    rewrite H2 by (by left). done. }
  injection Hh as ->. rewrite (better_asym _ _ _ (H1 h ltac:(by left))).
  split; [|by rewrite bool_decide_false].
  destruct (so_ring _ _ _ Hs) as [?|Hr]; [done|].
  pose proof Hr as Hr'. cbn [app fmap list_fmap] in Hr'. apply ring_head in Hr'.
  apply links_lookup in Hr' as (bv' & Hbv' & Hprev & _).
  rewrite Hbv in Hbv'. injection Hbv' as <-. change (nprev bv) with (lv_prev bv) in Hprev.
  rewrite Hprev. cbn [deref mbind res_bind].
  destruct g2 as [|t post].
  - destruct (exists_last (l := h :: mid) ltac:(done)) as (g' & q & Hq).
    assert (Hlast : List.last (g_ptr <$> mid ++ []) (g_ptr h) = g_ptr q).
    { rewrite app_nil_r.
      rewrite <- (last_cons_Z _ _ (g_ptr h)), <- fmap_cons, Hq, fmap_app.
      apply last_snoc_Z. }
    destruct (side_level_load b s _ q Hs) as (tv & Htv & Hpt).
    { rewrite app_nil_r, Hq. set_solver. }
    rewrite Hlast, (load_Some _ _ _ Htv). cbn [mbind res_bind].
    rewrite Hpt, better_asym; [done|]. apply H1. rewrite Hq. set_solver.
  - destruct (exists_last (l := t :: post) ltac:(done)) as (g' & q & Hq).
    assert (Hlast : List.last (g_ptr <$> mid ++ t :: post) (g_ptr h) = g_ptr q).
    { rewrite Hq, fmap_app, fmap_app. cbn [fmap list_fmap].
      rewrite app_assoc. apply last_snoc_Z. }
    destruct (side_level_load b s _ q Hs) as (tv & Htv & Hpt).
    { rewrite Hq. set_solver. }
    rewrite Hlast, (load_Some _ _ _ Htv). cbn [mbind res_bind].
    rewrite Hpt, H2 by (rewrite Hq; set_solver). cbn [hd fmap list_fmap].
    apply (find_target_ok (lv_levels b) s (g_ptr h) price [] mid post h t).
    + exact Hr.
    + intros g Hg. apply (side_level_load b s _ g Hs). set_solver.
    + done.
    + intros g Hg. apply H1. set_solver.
    + apply better_asym, H2. set_solver.
    + rewrite length_app in Hf. simpl in Hf. lia.
Qed.

Lemma addOrdersAtPrice_ok b s gs level v :
  valid_side s -> side_ok b s gs ->
  pool_blocks (lv_levels b) !! level = Some v -> lv_side v = s ->
  level ∉ g_ptr <$> gs -> (forall g, g ∈ gs -> g_price g <> lv_price v) ->
  (length gs <= size (<[(s, lv_price v) := level]> (lv_index b)))%nat ->
  exists b' g1 g2, addOrdersAtPrice level b = Ok b' /\ gs = g1 ++ g2 /\
    (forall lp o, g_add s (lv_price v) lp o gs = g1 ++ mkG lp (lv_price v) [o] :: g2) /\
    linked_level b b' s level g1 g2 /\
    lv_index b' = <[(s, lv_price v) := level]> (lv_index b).
Proof.
  intros Hvs Hs Hv <- Hnin Hne Hf.
  destruct (sorted_split _ (lv_price v) gs (so_sorted _ _ _ Hs) Hne)
    as (g1 & g2 & Hgs & H1 & H2 & H3).
  unfold addOrdersAtPrice. rewrite (load_Some _ _ _ Hv). cbn [mbind res_bind].
  rewrite best_set_index, (so_best _ _ _ Hs).
  destruct gs as [|h gs'] eqn:Egs.
  - symmetry in Hgs. apply app_nil in Hgs as [-> ->]. cbn [head fmap option_fmap option_map].
    cbn [set_index lv_levels].
    assert (Hl : links (pool_blocks (lv_levels b)) level = Some (lv_prev v, lv_next v))
      by (unfold links; by rewrite Hv).
    destruct (store_next _ _ _ _ (Some level) Hl) as (p1 & -> & R1 & L1). cbn [mbind res_bind].
    assert (Hl1 : links (pool_blocks p1) level = Some (lv_prev v, Some level))
      by (by rewrite L1, decide_True).
    destruct (store_prev _ _ _ _ (Some level) Hl1) as (p2 & -> & R2 & L2). cbn [mbind res_bind].
    eexists _, [], []. split; [done|]. split; [done|]. split; [done|].
    split; [|by rewrite lv_index_set_best].
    split; rewrite ?lv_orders_set_best, ?lv_levels_set_best; cbn [set_levels set_index lv_orders lv_levels].
    + done.
    + eauto using relinked_trans.
    + split; [apply NoDup_singleton|]. split; [|done]. by rewrite L2, decide_True.
    + intros a Ha _. by rewrite L2, decide_False, L1, decide_False by done.
    + rewrite best_set_best by done. by rewrite decide_True.
    + intros s' Hs' Hne'. rewrite best_set_best by done. by rewrite decide_False.
  - rewrite <- Egs in *.
    assert (Hhead : head gs = Some h) by (by rewrite Egs). rewrite Hhead.
    cbn [fmap option_fmap option_map set_index lv_levels].
    destruct (side_level_load b _ gs h Hs) as (bv & Hbv & Hpv); [rewrite Egs; by left|].
    rewrite (load_Some _ _ _ Hbv). cbn [mbind res_bind].
    destruct (target_ok b _ gs g1 g2 h _ _ bv Hs Hgs Hhead H1 H2 Hne Hf Hbv Hpv) as [Ht Hnb].
    cbn [lv_index set_index]. rewrite Ht, Hnb. cbn [mbind res_bind].
    set (t := hd (g_ptr h) (g_ptr <$> g2)).
    assert (Hrot : exists l, ring (llinks b) (t :: l) /\ (t :: l) ≡ₚ g_ptr <$> gs /\
      forall lk, ring lk (level :: t :: l) ->
        ring lk ((g_ptr <$> g1) ++ level :: (g_ptr <$> g2))).
    { destruct (so_ring _ _ _ Hs) as [?|Hr]; [congruence|].
      destruct g2 as [|t' post]; cbn [hd fmap list_fmap] in t.
      - exists (g_ptr <$> gs'). rewrite Egs in Hr |- *. cbn [fmap list_fmap] in *.
        split_and!; [exact Hr|reflexivity|]. intros lk Hlk. rewrite app_nil_r in Hgs.
        rewrite <- Hgs, Egs. apply (ring_rotate _ [level]). exact Hlk.
      - exists ((g_ptr <$> post) ++ (g_ptr <$> g1)).
        assert (Hgs2 : g_ptr <$> gs = (g_ptr <$> g1) ++ t :: (g_ptr <$> post))
          by (by rewrite Hgs, fmap_app, fmap_cons).
        rewrite Hgs2 in Hr |- *.
        split_and!; [by apply ring_rotate in Hr|apply (Permutation_app_comm (t :: _))|].
        intros lk Hlk. rewrite fmap_cons. apply (ring_rotate lk (level :: t :: (g_ptr <$> post))). exact Hlk. }
    destruct Hrot as (l & Hr & Hperm & Hback).
    destruct (link_level_ring (lv_levels b) level t l Hr) as (p' & -> & R & Hr' & Hfr).
    { by rewrite Hperm. } { by rewrite Hv. }
    cbn [mbind res_bind]. eexists _, g1, g2. split; [done|]. split; [done|]. split; [done|].
    split; [|case_bool_decide; by rewrite ?lv_index_set_best].
    split.
    + case_bool_decide; by rewrite ?lv_orders_set_best.
    + case_bool_decide; by rewrite ?lv_levels_set_best.
    + case_bool_decide; rewrite ?lv_levels_set_best; cbn [set_levels lv_levels]; by apply Hback.
    + intros a Ha Hnin'. rewrite <- Hgs, <- Hperm in Hnin'.
      case_bool_decide; rewrite ?lv_levels_set_best; cbn [set_levels lv_levels];
        apply Hfr; set_solver.
    + destruct g1 as [|h' g1]; cbn [bool_decide] in *.
      * rewrite bool_decide_true, best_set_best, decide_True by done. done.
      * rewrite bool_decide_false by done. cbn [set_levels set_index].
        change (best (lv_side v) b = Some (g_ptr h')).
        rewrite (so_best _ _ _ Hs), Hgs. done.
    + intros s' Hs' Hne'. case_bool_decide; rewrite ?best_set_best by done;
        by rewrite ?decide_False.
Qed.

(** What unlinking and freeing level [level] leaves. *)
Record unlinked_level (b b' : Levels Node) (s : Side) (level : Z) (gs : list GLevel) : Prop := {
  ul_orders : lv_orders b' = lv_orders b;
  ul_pool : pool_ok (lv_levels b');
  ul_capacity : pool_capacity (lv_levels b') = pool_capacity (lv_levels b);
  ul_available : pool_available (lv_levels b') = pool_available (lv_levels b) + 1;
  ul_data a : data (pool_blocks (lv_levels b')) a
    = if decide (level = a) then None else data (pool_blocks (lv_levels b)) a;
  ul_ring : gs = [] \/ ring (llinks b') (g_ptr <$> gs);
  ul_frame a : a <> level -> a ∉ g_ptr <$> gs -> llinks b' a = llinks b a;
  ul_best : best s b' = g_ptr <$> head gs;
  ul_best_other s' : valid_side s' -> s' <> s -> best s' b' = best s' b
}.

(** Freeing a level whose links do not matter any more. *)
Lemma deallocate_level (p0 p : MemPool Level) level v :
  pool_ok p0 -> relinked p0 p -> pool_blocks p0 !! level = Some v ->
  exists p', deallocate level p = Ok p' /\ pool_ok p' /\
    pool_capacity p' = pool_capacity p0 /\ pool_available p' = pool_available p0 + 1 /\
    (forall a, data (pool_blocks p') a
       = if decide (level = a) then None else data (pool_blocks p0) a) /\
    (forall a, a <> level -> links (pool_blocks p') a = links (pool_blocks p) a).
Proof.
  intros Hok R Hv.
  assert (Hl : is_Some (pool_blocks p !! level)).
  { rewrite <- data_is_Some, (rl_data _ _ R), data_is_Some. by rewrite Hv. }
  destruct Hl as [v' Hv'].
  destruct (deallocate_live level v' p) as (p' & -> & Hb & Hok' & Hav & Hcap);
    [by eapply relinked_pool_ok|done|].
  exists p'. split_and!; [done|done| | | |].
  - by rewrite Hcap, (rl_capacity _ _ R).
  - by rewrite Hav, (relinked_available _ _ R).
  - intros a. rewrite Hb, data_delete. case_decide; [done|]. apply (rl_data _ _ R).
  - intros a Ha. by rewrite Hb, links_delete, decide_False by done.
Qed.

Lemma removeOrdersAtPrice_ok b s g1 g g2 :
  valid_side s -> side_ok b s (g1 ++ g :: g2) -> pool_ok (lv_levels b) ->
  lv_index b !! (s, g_price g) = Some (g_ptr g) ->
  exists b', removeOrdersAtPrice s (g_price g) b = Ok b' /\
    unlinked_level b b' s (g_ptr g) (g1 ++ g2) /\
    lv_index b' = delete (s, g_price g) (lv_index b).
Proof.
  intros Hvs Hs Hok Hidx. unfold removeOrdersAtPrice, getOrdersAtPrice.
  rewrite Hidx. cbn [deref mbind res_bind].
  destruct (so_ring _ _ _ Hs) as [?|Hr]; [by destruct g1|].
  rewrite fmap_app, fmap_cons in Hr. apply ring_rotate in Hr. cbn [app] in Hr.
  destruct (lo_level _ _ _ (so_levels _ _ _ Hs g ltac:(set_solver))) as (v & Hv & _ & _ & _).
  pose proof (ring_head _ _ _ Hr) as Hl.
  assert (Hnx : lv_next v = Some (hd (g_ptr g) ((g_ptr <$> g2) ++ (g_ptr <$> g1)))).
  { unfold links in Hl. rewrite Hv in Hl. simpl in Hl. by injection Hl. }
  rewrite (load_Some _ _ _ Hv). cbn [mbind res_bind]. rewrite Hnx.
  pose proof (ring_NoDup _ _ Hr) as Hnd. apply NoDup_cons in Hnd as [Hnin _].
  rewrite <- fmap_app in *.
  destruct (g2 ++ g1) as [|y l] eqn:Eyl; cbn [fmap list_fmap hd] in *.
  - apply app_nil in Eyl as [-> ->]. rewrite bool_decide_true by done. cbn [mbind res_bind].
    cbn [set_index lv_levels]. rewrite lv_levels_set_best.
    destruct (deallocate_level (lv_levels b) (lv_levels b) (g_ptr g) v Hok (relinked_refl _) Hv)
      as (p' & -> & ? & ? & ? & ? & ?).
    cbn [mbind res_bind]. eexists. split; [done|].
    split; [|by cbn [set_levels set_index lv_index]; rewrite lv_index_set_best].
    split; cbn [set_levels set_index lv_orders lv_levels]; rewrite ?lv_orders_set_best;
      try done; [by left|by eauto| |].
    + change (best s (set_best s None b) = None).
      rewrite best_set_best by done. by rewrite decide_True.
    + intros s' Hs' Hne. change (best s' (set_best s None b) = best s' b).
      rewrite best_set_best by done. by rewrite decide_False.
  - rewrite bool_decide_false by (intros [= Heq]; apply Hnin; rewrite <- Heq; by left).
    destruct (unlink_ring _ _ _ _ Hr) as (p1 & -> & R1 & Hr1 & Hfr1). cbn [mbind res_bind].
    destruct (load_links p1 (g_ptr g) (Some (List.last (g_ptr <$> l) (g_ptr y))) (Some (g_ptr y)))
      as (v1 & -> & _ & Hv1).
    { rewrite Hfr1 by done. rewrite Hl. rewrite last_cons_Z. done. }
    cbn [mbind res_bind]. change (lv_next v1) with (nnext v1). rewrite Hv1.
    set (b1 := if bool_decide (best s b = Some (g_ptr g))
               then set_best s (Some (g_ptr y)) (set_levels p1 b) else set_levels p1 b).
    assert (Hb1 : lv_orders b1 = lv_orders b /\ lv_levels b1 = p1 /\ lv_index b1 = lv_index b).
    { unfold b1. case_bool_decide;
        rewrite ?lv_orders_set_best, ?lv_levels_set_best, ?lv_index_set_best; done. }
    destruct Hb1 as (Hb1o & Hb1l & Hb1i). rewrite Hb1l.
    destruct (clear_links_spec p1 (g_ptr g)) as (p2 & -> & R2 & Hfr2).
    { rewrite <- data_is_Some, (rl_data _ _ R1), data_is_Some. by rewrite Hv. }
    cbn [mbind res_bind set_index set_levels lv_levels lv_index].
    destruct (deallocate_level (lv_levels b) p2 (g_ptr g) v Hok (relinked_trans _ _ _ R1 R2) Hv)
      as (p3 & -> & ? & ? & ? & ? & Hfr3).
    cbn [mbind res_bind]. eexists. split; [done|]. rewrite Hb1i. split; [|done].
    assert (Hperm : g_ptr <$> (g1 ++ g2) ≡ₚ g_ptr y :: (g_ptr <$> l)).
    { rewrite <- fmap_cons, <- Eyl. apply fmap_Permutation, Permutation_app_comm. }
    split; cbn [set_levels set_index lv_orders lv_levels]; try done.
    + right. rewrite fmap_app. apply ring_rotate. rewrite <- fmap_app, Eyl.
      apply (ring_ext (links (pool_blocks p1))); [|exact Hr1].
      intros a Ha. assert (a <> g_ptr g) by (intros ->; done). rewrite Hfr3, Hfr2 by done. done.
    + intros a Ha Hnin'. rewrite Hperm in Hnin'. by rewrite Hfr3, Hfr2, Hfr1 by done.
    + change (best s b1 = g_ptr <$> head (g1 ++ g2)). unfold b1.
      rewrite (so_best _ _ _ Hs). destruct g1 as [|h g1].
      * cbn [app head fmap option_fmap option_map].
        rewrite bool_decide_true, best_set_best, decide_True by done.
        rewrite app_nil_r in Eyl. by rewrite Eyl.
      * cbn [app head fmap option_fmap option_map]. rewrite bool_decide_false.
        -- change (best s b = Some (g_ptr h)). by rewrite (so_best _ _ _ Hs).
        -- intros [= Heq]. apply Hnin. rewrite <- Hperm, <- Heq. by left.
    + intros s' Hs' Hne. change (best s' b1 = best s' b). unfold b1.
      case_bool_decide; [|done]. rewrite best_set_best by done. by rewrite decide_False.
Qed.
End LevelLemmas.

(** ** The invariant under the operations *)
Section InvariantLemmas.
Context {Node : Type} `{BookOrder Node}.
Implicit Types (b : Levels Node) (gs : list GLevel) (G : Side -> list GLevel).

Abbreviation olinks b := (links (pool_blocks (lv_orders b))).
Abbreviation llinks b := (links (pool_blocks (lv_levels b))).
Abbreviation odata b := (data (pool_blocks (lv_orders b))).
Abbreviation ldata b := (data (pool_blocks (lv_levels b))).

Lemma sorted_prices s gs :
  StronglySorted (λ g1 g2, better s (g_price g1) (g_price g2) = true) gs <->
  StronglySorted (λ p1 p2, better s p1 p2 = true) (g_price <$> gs).
Proof.
  induction gs as [|g gs IH]; [split; constructor|]. cbn [fmap list_fmap]. split; intros Hs;
    apply StronglySorted_inv in Hs as [Hs Hall]; constructor.
  - by apply IH.
  - by apply Forall_fmap.
  - by apply IH.
  - by apply Forall_fmap in Hall.
Qed.

Lemma sorted_app_inv s (g1 g2 : list GLevel) x y :
  StronglySorted (λ g1 g2, better s (g_price g1) (g_price g2) = true) (g1 ++ g2) ->
  x ∈ g1 -> y ∈ g2 -> better s (g_price x) (g_price y) = true.
Proof.
  intros Hs Hx Hy. induction g1 as [|g g1 IH]; [set_solver|].
  apply StronglySorted_inv in Hs as [Hs Hall]. rewrite Forall_forall in Hall.
  apply elem_of_cons in Hx as [->|Hx]; [apply Hall; set_solver|by apply IH].
Qed.

Lemma sorted_remove s (g1 g2 : list GLevel) g :
  StronglySorted (λ g1 g2, better s (g_price g1) (g_price g2) = true) (g1 ++ g :: g2) ->
  StronglySorted (λ g1 g2, better s (g_price g1) (g_price g2) = true) (g1 ++ g2).
Proof.
  induction g1 as [|h g1 IH]; cbn [app]; intros Hs; apply StronglySorted_inv in Hs as [Hs Hall].
  - done.
  - constructor; [by apply IH|]. rewrite Forall_app, Forall_cons in Hall.
    apply Forall_app. tauto.
Qed.

Lemma sorted_insert s (g1 g2 : list GLevel) g :
  StronglySorted (λ g1 g2, better s (g_price g1) (g_price g2) = true) (g1 ++ g2) ->
  (forall g', g' ∈ g1 -> better s (g_price g') (g_price g) = true) ->
  (forall g', g' ∈ g2 -> better s (g_price g) (g_price g') = true) ->
  StronglySorted (λ g1 g2, better s (g_price g1) (g_price g2) = true) (g1 ++ g :: g2).
Proof.
  intros Hs H1 H2. induction g1 as [|h g1 IH]; cbn [app] in *.
  - constructor; [done|]. by apply Forall_forall.
  - apply StronglySorted_inv in Hs as [Hs Hall]. constructor.
    + apply IH; [done|]. intros g' Hg'. apply H1. by right.
    + rewrite Forall_app in Hall. rewrite Forall_app, Forall_cons.
      split_and!; [tauto|apply H1; by left|tauto].
Qed.

(** The data of a node determines its side and price. *)
Lemma data_node (m m' : gmap Z Node) a x :
  m !! a = Some x -> data m' a = data m a ->
  exists x', m' !! a = Some x' /\ bo_side x' = bo_side x /\ bo_price x' = bo_price x.
Proof.
  intros Hx Hd. unfold data in Hd. rewrite Hx in Hd. simpl in Hd.
  destruct (m' !! a) as [x'|]; simpl in Hd; [|done]. injection Hd as Hd.
  exists x'. split; [done|]. rewrite <- (bo_side_strip x'), <- (bo_price_strip x'), Hd.
  by rewrite bo_side_strip, bo_price_strip.
Qed.

Lemma data_level (m m' : gmap Z Level) a v :
  m !! a = Some v -> data m' a = data m a ->
  exists v', m' !! a = Some v' /\ lv_side v' = lv_side v /\ lv_price v' = lv_price v /\
    lv_first v' = lv_first v.
Proof.
  intros Hv Hd. unfold data in Hd. rewrite Hv in Hd. simpl in Hd.
  destruct (m' !! a) as [v'|]; simpl in Hd; [|done]. injection Hd as H1 H2 H3.
  exists v'. done.
Qed.

Lemma level_ok_frame b b' s g :
  level_ok b s g ->
  (forall o, o ∈ g_orders g -> odata b' o = odata b o /\ olinks b' o = olinks b o) ->
  ldata b' (g_ptr g) = ldata b (g_ptr g) ->
  level_ok b' s g.
Proof.
  intros [(v & Hv & Hs & Hp & Hf) Hr Ho] Hord Hlv. split.
  - destruct (data_level _ _ _ _ Hv Hlv) as (v' & Hv' & H1 & H2 & H3).
    exists v'. split_and!; [done|congruence..].
  - apply (ring_ext (olinks b)); [|done]. intros a Ha. by apply Hord.
  - intros o Hin. destruct (Ho o Hin) as (x & Hx & Hxs & Hxp).
    destruct (data_node _ _ _ _ Hx (proj1 (Hord o Hin))) as (x' & Hx' & H1 & H2).
    exists x'. split_and!; [done|congruence..].
Qed.

Section Facts.
Context (b : Levels Node) (G : Side -> list GLevel) (pend : option Z).
Context (Hok : levels_ok b G pend).

Lemma ghost_valid s g : g ∈ G s -> valid_side s.
Proof.
  intros Hg. destruct (decide (s = BUY)); [by left|]. destruct (decide (s = SELL)); [by right|].
  rewrite (lk_others _ _ _ Hok) in Hg; [set_solver|]. by intros [?|?].
Qed.

Lemma ghost_level_ok s g : g ∈ G s -> level_ok b s g.
Proof. intros Hg. apply (so_levels _ _ _ (lk_sides _ _ _ Hok s (ghost_valid _ _ Hg)) _ Hg). Qed.

Lemma ghost_price_inj s g g' : g ∈ G s -> g' ∈ G s -> g_price g = g_price g' -> g = g'.
Proof.
  intros Hg Hg' Hp.
  pose proof (so_sorted _ _ _ (lk_sides _ _ _ Hok s (ghost_valid _ _ Hg))) as Hs.
  revert Hg Hg' Hs. induction (G s) as [|h gs IH]; [set_solver|].
  intros Hg Hg' Hs. apply StronglySorted_inv in Hs as [Hs Hall]. rewrite Forall_forall in Hall.
  apply elem_of_cons in Hg as [->|Hg], Hg' as [->|Hg']; [done| | |by apply IH].
  - specialize (Hall _ Hg'). rewrite Hp, better_irrefl in Hall. done.
  - specialize (Hall _ Hg). rewrite Hp, better_irrefl in Hall. done.
Qed.

Lemma ghost_order_inj s s' g g' o :
  g ∈ G s -> g' ∈ G s' -> o ∈ g_orders g -> o ∈ g_orders g' -> s = s' /\ g = g'.
Proof.
  intros Hg Hg' Ho Ho'.
  destruct (lo_orders _ _ _ (ghost_level_ok _ _ Hg) o Ho) as (x & Hx & Hs & Hp).
  destruct (lo_orders _ _ _ (ghost_level_ok _ _ Hg') o Ho') as (x' & Hx' & Hs' & Hp').
  assert (s = s') as <- by congruence. split; [done|].
  apply (ghost_price_inj s); [done|done|congruence].
Qed.

Lemma ghost_ptr_inj s s' g g' :
  g ∈ G s -> g' ∈ G s' -> g_ptr g = g_ptr g' -> s = s' /\ g = g'.
Proof.
  intros Hg Hg' Hp.
  destruct (lo_level _ _ _ (ghost_level_ok _ _ Hg)) as (v & Hv & Hs & Hpr & _).
  destruct (lo_level _ _ _ (ghost_level_ok _ _ Hg')) as (v' & Hv' & Hs' & Hpr' & _).
  rewrite Hp in Hv. assert (s = s') as <- by congruence. split; [done|].
  apply (ghost_price_inj s); [done|done|congruence].
Qed.

Lemma ghost_orders_nonempty s g : g ∈ G s -> g_orders g <> [].
Proof. intros Hg Heq. pose proof (lo_ring _ _ _ (ghost_level_ok _ _ Hg)) as Hr. by rewrite Heq in Hr. Qed.

Lemma ghost_index s g : g ∈ G s -> lv_index b !! (s, g_price g) = Some (g_ptr g).
Proof. intros Hg. apply (lk_index _ _ _ Hok). eauto. Qed.

Lemma ghost_index_None s p : lv_index b !! (s, p) = None -> forall g, g ∈ G s -> g_price g <> p.
Proof. intros Hn g Hg <-. rewrite ghost_index in Hn by done. done. Qed.

(** There are at least as many index entries as levels on a side. *)
Lemma ghost_size s : (length (G s) <= size (lv_index b))%nat.
Proof.
  destruct (decide (G s = [])) as [->|Hne]; [simpl; lia|].
  assert (Hvs : valid_side s).
  { destruct (G s) as [|g gs] eqn:E; [done|]. apply (ghost_valid s g). rewrite E. by left. }
  assert (Hnd : NoDup ((λ g, (s, g_price g)) <$> G s)).
  { pose proof (so_sorted _ _ _ (lk_sides _ _ _ Hok s Hvs)) as Hs. clear -Hs.
    induction Hs as [|g gs Hs IH Hall]; cbn [fmap list_fmap]; constructor; [|done].
    intros (g' & Heq & Hin)%list_elem_of_fmap. injection Heq as Heq.
    rewrite Forall_forall in Hall. specialize (Hall _ Hin).
    rewrite Heq, better_irrefl in Hall. done. }
  rewrite <- (length_fmap (λ g, (s, g_price g)) (G s)), <- (size_list_to_set (C := gset (Side * Z)) _ Hnd),
    <- size_dom.
  apply subseteq_size. intros k. rewrite elem_of_list_to_set.
  intros (g & -> & Hin)%list_elem_of_fmap. apply elem_of_dom.
  rewrite ghost_index by done. eauto.
Qed.
End Facts.

Lemma side_ok_frame b b' s gs :
  side_ok b s gs -> best s b' = best s b ->
  (forall a, a ∈ g_ptr <$> gs -> llinks b' a = llinks b a) ->
  (forall g, g ∈ gs -> level_ok b' s g) -> side_ok b' s gs.
Proof.
  intros [Hb Hr Hs _] Hbest Hl Hlv. split; [congruence| |done|done].
  destruct Hr as [->|Hr]; [by left|right]. by eapply ring_ext.
Qed.

(** Replacing the orders of one level. *)
Lemma levels_ok_replace b b' G pend pend' s g1 g g2 g' :
  levels_ok b G pend -> valid_side s -> G s = g1 ++ g :: g2 ->
  g_ptr g' = g_ptr g -> g_price g' = g_price g ->
  lv_index b' = lv_index b -> (forall s', best s' b' = best s' b) ->
  relinked (lv_orders b) (lv_orders b') ->
  (forall a, llinks b' a = llinks b a) ->
  (forall a, a <> g_ptr g -> ldata b' a = ldata b a) ->
  pool_ok (lv_levels b') ->
  (forall a v', pool_blocks (lv_levels b') !! a = Some v' ->
     exists v, pool_blocks (lv_levels b) !! a = Some v /\ lv_side v = lv_side v') ->
  level_ok b' s g' ->
  (forall a, a ∉ g_orders g -> pend <> Some a -> olinks b' a = olinks b a) ->
  (forall o, (pend' = Some o \/ o ∈ g_orders g') <-> (pend = Some o \/ o ∈ g_orders g)) ->
  (forall o, pend' = Some o -> o ∉ g_orders g') ->
  levels_ok b' (<[s := g1 ++ g' :: g2]> G) pend'.
Proof.
  intros Hok Hvs HG Hptr Hprice Hidx Hbest Hrel Hll Hld Hpl Hlv Hg' Hol Hpart Hpd.
  assert (Hgin : g ∈ G s) by (rewrite HG; set_solver).
  assert (Hold : forall s' h, h ∈ G s' -> h <> g -> level_ok b' s' h).
  { intros s' h Hh Hne. apply (level_ok_frame b); [by eapply ghost_level_ok| |].
    - intros o Ho. split; [apply (rl_data _ _ Hrel)|]. apply Hol.
      + intros Hog. destruct (ghost_order_inj _ _ _ Hok _ _ _ _ _ Hh Hgin Ho Hog). done.
      + intros Hpe. by apply (lk_pend _ _ _ Hok o Hpe s' h).
    - apply Hld. intros Heq. destruct (ghost_ptr_inj _ _ _ Hok _ _ _ _ Hh Hgin Heq). done. }
  assert (Hnd : g ∉ g1 /\ g ∉ g2).
  { pose proof (so_sorted _ _ _ (lk_sides _ _ _ Hok s Hvs)) as Hs. rewrite HG in Hs.
    split; intros Hin.
    - pose proof (sorted_app_inv _ _ _ g g Hs Hin ltac:(by left)) as Hb.
      rewrite better_irrefl in Hb. done.
    - replace (g1 ++ g :: g2) with ((g1 ++ [g]) ++ g2) in Hs by (by rewrite <- app_assoc).
      pose proof (sorted_app_inv _ _ _ g g Hs ltac:(set_solver) Hin) as Hb.
      rewrite better_irrefl in Hb. done. }
  assert (Hmem : forall s' h, h ∈ (<[s := g1 ++ g' :: g2]> G) s' <->
     (s' = s /\ h = g') \/ (h ∈ G s' /\ (s' = s -> h <> g))).
  { intros s' h. destruct (decide (s = s')) as [<-|Hne].
    - rewrite fn_lookup_insert, HG, !elem_of_app, !elem_of_cons.
      destruct Hnd. naive_solver.
    - rewrite fn_lookup_insert_ne by done. naive_solver. }
  assert (Hnew : forall s' h, h ∈ (<[s := g1 ++ g' :: g2]> G) s' -> level_ok b' s' h).
  { intros s' h [[-> ->]|[Hh Hn]]%Hmem; [done|]. apply Hold; [done|].
    intros ->. destruct (ghost_ptr_inj _ _ _ Hok _ _ _ _ Hh Hgin eq_refl) as [-> _]. by apply Hn. }
  split.
  - intros s' Hvs'. pose proof (lk_sides _ _ _ Hok s' Hvs') as Hs.
    destruct (decide (s = s')) as [<-|Hne].
    + assert (Heqp : g_ptr <$> g1 ++ g' :: g2 = g_ptr <$> G s)
        by (by rewrite HG, !fmap_app, !fmap_cons, Hptr).
      split; [|right|apply sorted_prices|apply Hnew]; rewrite ?fn_lookup_insert.
      * rewrite Hbest, (so_best _ _ _ Hs), HG. destruct g1; cbn; congruence.
      * destruct (so_ring _ _ _ Hs) as [He|Hr]; [rewrite HG in He; by destruct g1|].
        rewrite Heqp. eapply ring_ext; [|done]. intros a _. apply Hll.
      * rewrite fmap_app, fmap_cons, Hprice, <- fmap_cons, <- fmap_app, <- HG.
        apply sorted_prices, Hs.
    + rewrite fn_lookup_insert_ne by done.
      apply (side_ok_frame b); [done|apply Hbest|intros a _; apply Hll|].
      intros h Hh. apply Hnew. rewrite fn_lookup_insert_ne by done. done.
  - intros s' Hns. rewrite fn_lookup_insert_ne by (intros ->; done).
    by apply (lk_others _ _ _ Hok).
  - intros s' p a. rewrite Hidx, (lk_index _ _ _ Hok). split.
    + intros (h & Hh & Hp & Ha). destruct (decide (h = g)) as [->|Hne].
      * destruct (ghost_ptr_inj _ _ _ Hok _ _ _ _ Hh Hgin eq_refl) as [-> _].
        exists g'. split_and!; [apply Hmem; by left|congruence..].
      * exists h. split_and!; [apply Hmem; by right|done..].
    + intros (h & [[-> ->]|[Hh Hn]]%Hmem & Hp & Ha); [exists g|exists h];
        split_and!; (done || congruence).
  - intros o x Hx.
    assert (Hd : odata b o = odata b' o) by (symmetry; apply (rl_data _ _ Hrel)).
    destruct (data_node _ _ _ _ Hx Hd) as (x0 & Hx0 & Hxs & _).
    destruct (lk_orders _ _ _ Hok o x0 Hx0) as [Hpe|(h & Hh & Hoh)].
    + destruct (proj2 (Hpart o) (or_introl Hpe)) as [?|Hin]; [by left|right].
      exists g'. split; [|done]. apply Hmem. left. split; [|done].
      destruct (lo_orders _ _ _ Hg' o Hin) as (x' & Hx' & Hs' & _). congruence.
    + destruct (decide (h = g)) as [->|Hne].
      * destruct (ghost_ptr_inj _ _ _ Hok _ _ _ _ Hh Hgin eq_refl) as [Heq _].
        destruct (proj2 (Hpart o) (or_intror Hoh)) as [?|Hin]; [by left|right].
        exists g'. split; [|done]. apply Hmem. left. by rewrite <- Hxs.
      * right. exists h. split; [|done]. apply Hmem. rewrite <- Hxs. by right.
  - intros o Hpe s' h [[-> ->]|[Hh Hn]]%Hmem; [by apply Hpd|].
    intros Hoh. destruct (proj1 (Hpart o) (or_introl Hpe)) as [Hp|Hog].
    + by apply (lk_pend _ _ _ Hok o Hp s' h).
    + destruct (ghost_order_inj _ _ _ Hok _ _ _ _ _ Hh Hgin Hoh Hog) as [-> ->]. by apply Hn.
  - intros a v' Hv'. destruct (Hlv a v' Hv') as (v & Hv & Hsv).
    destruct (lk_levels _ _ _ Hok a v Hv) as (h & Hh & Ha). rewrite <- Hsv.
    destruct (decide (h = g)) as [->|Hne].
    + destruct (ghost_ptr_inj _ _ _ Hok _ _ _ _ Hh Hgin eq_refl) as [-> _].
      exists g'. split; [apply Hmem; by left|congruence].
    + exists h. split; [apply Hmem; by right|done].
  - eapply relinked_pool_ok; [done|]. apply Hok.
  - done.
Qed.

(** Adding a level that holds the pending order. *)
Lemma levels_ok_insert b b' G s g1 g2 g' o x :
  levels_ok b G (Some o) -> valid_side s -> G s = g1 ++ g2 ->
  pool_blocks (lv_orders b) !! o = Some x -> bo_side x = s -> bo_price x = g_price g' ->
  g_orders g' = [o] ->
  (forall g, g ∈ G s -> g_price g <> g_price g') ->
  pool_blocks (lv_levels b) !! g_ptr g' = None ->
  side_ok b' s (g1 ++ g' :: g2) ->
  (forall s', valid_side s' -> s' <> s -> best s' b' = best s' b) ->
  lv_index b' = <[(s, g_price g') := g_ptr g']> (lv_index b) ->
  relinked (lv_orders b) (lv_orders b') ->
  (forall a, a ∉ g_ptr <$> g1 ++ g' :: g2 -> llinks b' a = llinks b a) ->
  (forall a, a <> g_ptr g' -> ldata b' a = ldata b a) ->
  (forall a, a <> o -> olinks b' a = olinks b a) ->
  pool_ok (lv_levels b') ->
  levels_ok b' (<[s := g1 ++ g' :: g2]> G) None.
Proof.
  intros Hok Hvs HG Hx Hxs Hxp Hord Hne Hnone Hside Hbest Hidx Hrel Hll Hld Hol Hpl.
  assert (Hfresh : forall s' h, h ∈ G s' -> g_ptr h <> g_ptr g').
  { intros s' h Hh Heq.
    destruct (lo_level _ _ _ (ghost_level_ok _ _ _ Hok _ _ Hh)) as (v & Hv & _).
    rewrite Heq, Hnone in Hv. done. }
  assert (Hmem : forall s' h, h ∈ (<[s := g1 ++ g' :: g2]> G) s' <->
     (s' = s /\ h = g') \/ h ∈ G s').
  { intros s' h. destruct (decide (s = s')) as [<-|Hns].
    - rewrite fn_lookup_insert, HG, !elem_of_app, !elem_of_cons. naive_solver.
    - rewrite fn_lookup_insert_ne by done. naive_solver. }
  assert (Hnewlv : exists v, pool_blocks (lv_levels b') !! g_ptr g' = Some v /\ lv_side v = s).
  { destruct (lo_level _ _ _ (so_levels _ _ _ Hside g' ltac:(set_solver))) as (v & ? & ? & _).
    eauto. }
  split.
  - intros s' Hvs'. destruct (decide (s = s')) as [<-|Hns]; [by rewrite fn_lookup_insert|].
    rewrite fn_lookup_insert_ne by done. pose proof (lk_sides _ _ _ Hok s' Hvs') as Hs.
    apply (side_ok_frame b); [done|by apply Hbest| |].
    + intros a (h & -> & Hh)%list_elem_of_fmap. apply Hll.
      intros (h' & Heq & Hh')%list_elem_of_fmap.
      assert (Hcase : h' = g' \/ h' ∈ G s).
      { rewrite HG. revert Hh'. rewrite !elem_of_app, elem_of_cons. naive_solver. }
      destruct Hcase as [->|Hin]; [by apply (Hfresh s' h)|].
      by destruct (ghost_ptr_inj _ _ _ Hok _ _ _ _ Hh Hin Heq) as [-> _].
    + intros h Hh. apply (level_ok_frame b); [by eapply ghost_level_ok| |].
      * intros o' Ho'. split; [apply (rl_data _ _ Hrel)|]. apply Hol. intros ->.
        by apply (lk_pend _ _ _ Hok o eq_refl s' h).
      * apply Hld. by apply (Hfresh s').
  - intros s' Hns. rewrite fn_lookup_insert_ne by (intros ->; done).
    by apply (lk_others _ _ _ Hok).
  - intros s' p a. rewrite Hidx. destruct (decide ((s, g_price g') = (s', p))) as [Heq|Hk].
    + injection Heq as <- <-. rewrite lookup_insert_eq. split.
      * intros [= <-]. exists g'. split_and!; [apply Hmem; by left|done..].
      * intros (h & [[_ ->]|Hh]%Hmem & Hp & <-); [done|]. by apply Hne in Hh.
    + rewrite lookup_insert_ne by done. rewrite (lk_index _ _ _ Hok). split.
      * intros (h & Hh & Hp & Ha). exists h. split_and!; [apply Hmem; by right|done..].
      * intros (h & [[-> ->]|Hh]%Hmem & Hp & Ha); [congruence|eauto].
  - intros o' x' Hx'. right.
    assert (Hd : odata b o' = odata b' o') by (symmetry; apply (rl_data _ _ Hrel)).
    destruct (data_node _ _ _ _ Hx' Hd) as (x0 & Hx0 & Hxs0 & _).
    destruct (lk_orders _ _ _ Hok o' x0 Hx0) as [[= <-]|(h & Hh & Hoh)].
    + exists g'. split; [apply Hmem; left; split; [congruence|done]|]. rewrite Hord. by left.
    + exists h. split; [apply Hmem; right; congruence|done].
  - done.
  - intros a v' Hv'. destruct (decide (a = g_ptr g')) as [->|Hna].
    + destruct Hnewlv as (v & Hv & Hvs'). exists g'. split; [apply Hmem; left|done].
      split; [congruence|done].
    + assert (Hd : ldata b a = ldata b' a) by (symmetry; by apply Hld).
      destruct (data_level _ _ _ _ Hv' Hd) as (v & Hv & Hsv & _).
      destruct (lk_levels _ _ _ Hok a v Hv) as (h & Hh & Ha).
      exists h. split; [apply Hmem; right; congruence|done].
  - eapply relinked_pool_ok; [done|]. apply Hok.
  - done.
Qed.

(** Dropping a level whose only order becomes pending. *)
Lemma levels_ok_drop b b' G s g1 g g2 o :
  levels_ok b G None -> valid_side s -> G s = g1 ++ g :: g2 -> g_orders g = [o] ->
  unlinked_level b b' s (g_ptr g) (g1 ++ g2) ->
  lv_index b' = delete (s, g_price g) (lv_index b) ->
  levels_ok b' (<[s := g1 ++ g2]> G) (Some o).
Proof.
  intros Hok Hvs HG Hord [Hlo Hpl _ _ Hld Hr Hfr Hb Hbo] Hidx.
  assert (Hgin : g ∈ G s) by (rewrite HG; set_solver).
  assert (Hnd : g ∉ g1 ++ g2).
  { pose proof (so_sorted _ _ _ (lk_sides _ _ _ Hok s Hvs)) as Hs. rewrite HG in Hs.
    intros [Hin|Hin]%elem_of_app.
    - pose proof (sorted_app_inv _ _ _ g g Hs Hin ltac:(by left)) as Hbt.
      rewrite better_irrefl in Hbt. done.
    - replace (g1 ++ g :: g2) with ((g1 ++ [g]) ++ g2) in Hs by (by rewrite <- app_assoc).
      pose proof (sorted_app_inv _ _ _ g g Hs ltac:(set_solver) Hin) as Hbt.
      rewrite better_irrefl in Hbt. done. }
  assert (Hmem : forall s' h, h ∈ (<[s := g1 ++ g2]> G) s' <-> h ∈ G s' /\ (s' = s -> h <> g)).
  { intros s' h. destruct (decide (s = s')) as [<-|Hns].
    - rewrite fn_lookup_insert, HG, !elem_of_app, !elem_of_cons.
      rewrite elem_of_app in Hnd. naive_solver.
    - rewrite fn_lookup_insert_ne by done. naive_solver. }
  assert (Hptr : forall s' h, h ∈ (<[s := g1 ++ g2]> G) s' -> g_ptr h <> g_ptr g).
  { intros s' h [Hh Hn]%Hmem Heq.
    destruct (ghost_ptr_inj _ _ _ Hok _ _ _ _ Hh Hgin Heq) as [-> ->]. by apply Hn. }
  assert (Hnew : forall s' h, h ∈ (<[s := g1 ++ g2]> G) s' -> level_ok b' s' h).
  { intros s' h Hh. pose proof (Hptr s' h Hh) as Hp. apply Hmem in Hh as [Hh _].
    apply (level_ok_frame b); [by eapply ghost_level_ok| |].
    - intros o' _. by rewrite Hlo.
    - by rewrite Hld, decide_False by done. }
  split.
  - intros s' Hvs'. pose proof (lk_sides _ _ _ Hok s' Hvs') as Hs.
    destruct (decide (s = s')) as [<-|Hns].
    + split; [|rewrite fn_lookup_insert|rewrite fn_lookup_insert|apply Hnew];
        rewrite ?fn_lookup_insert; [done|done|].
      pose proof (so_sorted _ _ _ Hs) as Hst. rewrite HG in Hst. by eapply sorted_remove.
    + apply (side_ok_frame b).
      * by rewrite fn_lookup_insert_ne.
      * by apply Hbo.
      * intros a (h & -> & Hh)%list_elem_of_fmap. apply Hfr; [by apply (Hptr s')|].
        intros (h' & Heq & Hh')%list_elem_of_fmap.
        rewrite fn_lookup_insert_ne in Hh by done.
        assert (Hin : h' ∈ G s) by (rewrite HG; set_solver).
        by destruct (ghost_ptr_inj _ _ _ Hok _ _ _ _ Hh Hin Heq) as [-> _].
      * apply Hnew.
  - intros s' Hns. rewrite fn_lookup_insert_ne by (intros ->; done).
    by apply (lk_others _ _ _ Hok).
  - intros s' p a. rewrite Hidx. destruct (decide ((s, g_price g) = (s', p))) as [Heq|Hk].
    + injection Heq as <- <-. rewrite lookup_delete_eq. split; [done|].
      intros (h & [Hh Hn]%Hmem & Hp & _). exfalso. apply Hn; [done|].
      by apply (ghost_price_inj _ _ _ Hok s).
    + rewrite lookup_delete_ne by done. rewrite (lk_index _ _ _ Hok). split.
      * intros (h & Hh & Hp & Ha). exists h. split_and!; [apply Hmem; split; [done|]|done..].
        intros -> ->. congruence.
      * intros (h & [Hh _]%Hmem & Hp & Ha). eauto.
  - intros o' x Hx. rewrite Hlo in Hx.
    destruct (lk_orders _ _ _ Hok o' x Hx) as [?|(h & Hh & Hoh)]; [done|].
    destruct (decide (h = g)) as [->|Hne].
    + left. rewrite Hord in Hoh. apply list_elem_of_singleton in Hoh. by subst.
    + right. exists h. split; [apply Hmem; split; done|done].
  - intros o' [= <-] s' h [Hh Hn]%Hmem Hoh.
    assert (Hog : o ∈ g_orders g) by (rewrite Hord; by left).
    destruct (ghost_order_inj _ _ _ Hok _ _ _ _ _ Hh Hgin Hoh Hog) as [-> ->]. by apply Hn.
  - intros a v' Hv'. assert (Hd : ldata b' a = Some (strip v')) by (unfold data; by rewrite Hv').
    rewrite Hld in Hd. case_decide as Hag; [done|].
    apply data_lookup in Hd as (v & Hv & Hvv).
    assert (Hsv : lv_side v = lv_side v') by (destruct v, v'; simpl in *; congruence).
    destruct (lk_levels _ _ _ Hok a v Hv) as (h & Hh & Ha). rewrite <- Hsv.
    exists h. split; [|done]. apply Hmem. split; [done|]. intros _ ->. congruence.
  - rewrite Hlo. apply Hok.
  - done.
Qed.

Lemma data_lookup_eq {T} `{Linked T} (m : gmap Z T) a x : m !! a = Some x -> data m a = Some (strip x).
Proof. intros Hx. unfold data. by rewrite Hx. Qed.

Lemma relinked_live {T} `{Linked T} (p p' : MemPool T) a :
  relinked p p' -> is_Some (pool_blocks p !! a) -> is_Some (pool_blocks p' !! a).
Proof. intros R. rewrite <- !data_is_Some, (rl_data _ _ R). done. Qed.

(** Members of a level whose pool was relinked keep their side and price. *)
Lemma level_orders_relinked b b' s g :
  relinked (lv_orders b) (lv_orders b') -> level_ok b s g ->
  forall o, o ∈ g_orders g -> exists x, pool_blocks (lv_orders b') !! o = Some x /\
    bo_side x = s /\ bo_price x = g_price g.
Proof.
  intros R Hg o Ho. destruct (lo_orders _ _ _ Hg o Ho) as (x & Hx & Hs & Hp).
  destruct (data_node _ _ _ _ Hx (rl_data _ _ R o)) as (x' & Hx' & H1 & H2).
  exists x'. split_and!; [done|congruence..].
Qed.

Lemma attach_existing b G s g1 g g2 o x :
  levels_ok b G (Some o) -> G s = g1 ++ g :: g2 ->
  pool_blocks (lv_orders b) !! o = Some x -> bo_side x = s -> bo_price x = g_price g ->
  exists b', attachOrder o b = Ok b' /\
    levels_ok b' (<[s := g1 ++ mkG (g_ptr g) (g_price g) (g_orders g ++ [o]) :: g2]> G) None /\
    relinked (lv_orders b) (lv_orders b') /\ lv_levels b' = lv_levels b.
Proof.
  intros Hok HG Hx Hxs Hxp.
  assert (Hgin : g ∈ G s) by (rewrite HG; set_solver).
  pose proof (ghost_level_ok _ _ _ Hok _ _ Hgin) as Hg.
  destruct (lo_level _ _ _ Hg) as (v & Hv & Hvs & Hvp & Hvf).
  unfold attachOrder, getOrdersAtPrice. rewrite (load_Some _ _ _ Hx). cbn [mbind res_bind].
  rewrite Hxs, Hxp, (ghost_index _ _ _ Hok) by done.
  rewrite (load_Some _ _ _ Hv). cbn [mbind res_bind]. rewrite Hvf.
  pose proof (lo_ring _ _ _ Hg) as Hr.
  pose proof (lk_pend _ _ _ Hok o eq_refl s g Hgin) as Hpend.
  destruct (g_orders g) as [|f os] eqn:Eo; [done|]. cbn [head deref mbind res_bind].
  destruct (push_order_ring (lv_orders b) o f os Hr Hpend) as (p' & -> & R & Hr' & Hfr);
    [by rewrite Hx|].
  cbn [mbind res_bind]. exists (set_orders p' b). split_and!; [done| |done|done].
  apply (levels_ok_replace b _ G (Some o) None s g1 g); try done.
  - by eapply ghost_valid.
  - apply Hok.
  - eauto.
  - split; cbn [set_orders lv_orders lv_levels g_ptr g_price g_orders].
    + exists v. split_and!; [done..|]. by rewrite Hvf.
    + apply (ring_rotate _ [o]). done.
    + intros o' [Ho'|Ho']%elem_of_app; [|apply list_elem_of_singleton in Ho' as ->].
      * apply (level_orders_relinked b (set_orders p' b) s g R Hg). by rewrite Eo.
      * destruct (data_node _ _ _ _ Hx (rl_data _ _ R o)) as (x' & Hx' & H1 & H2).
        exists x'. split_and!; [done|congruence..].
  - intros a Ha Hpe. apply Hfr. rewrite Eo in Ha. rewrite elem_of_cons.
    intros [->|?]; done.
  - intros o'. cbn [g_orders]. rewrite Eo. split.
    + intros [?|Hin]; [done|]. apply elem_of_app in Hin as [?|Hin]; [by right|].
      apply list_elem_of_singleton in Hin as ->. by left.
    + intros [Heq|?]; right; apply elem_of_app; [right|by left]. injection Heq as ->. by left.
Qed.

Lemma attach_new b G s o x :
  levels_ok b G (Some o) -> valid_side s ->
  pool_blocks (lv_orders b) !! o = Some x -> bo_side x = s ->
  lv_index b !! (s, bo_price x) = None -> 0 < pool_available (lv_levels b) ->
  exists b' lp, attachOrder o b = Ok b' /\
    levels_ok b' (<[s := g_add s (bo_price x) lp o (G s)]> G) None /\
    relinked (lv_orders b) (lv_orders b') /\
    pool_available (lv_levels b') = pool_available (lv_levels b) - 1 /\
    pool_capacity (lv_levels b') = pool_capacity (lv_levels b).
Proof.
  intros Hok Hvs Hx Hxs Hidx Hav.
  unfold attachOrder, getOrdersAtPrice. rewrite (load_Some _ _ _ Hx). cbn [mbind res_bind].
  rewrite Hxs, Hidx.
  assert (Hl : olinks b o = Some (nprev x, nnext x)) by (unfold links; by rewrite Hx).
  destruct (store_prev _ _ _ _ (Some o) Hl) as (p1 & -> & R1 & L1). cbn [mbind res_bind].
  assert (Hl1 : links (pool_blocks p1) o = Some (Some o, nnext x)) by (by rewrite L1, decide_True).
  destruct (store_next _ _ _ _ (Some o) Hl1) as (p2 & -> & R2 & L2). cbn [mbind res_bind].
  pose proof (relinked_trans _ _ _ R1 R2) as R.
  set (nl := mkLevel s (bo_price x) (Some o) None None).
  destruct (allocate_some nl (lv_levels b) (lk_pool_levels _ _ _ Hok) Hav)
    as (lp & q & Hal & Hnone & _ & Hqb & Hqok & Hqav & Hqcap).
  cbn [set_orders lv_levels]. rewrite Hal. cbn [deref mbind res_bind].
  set (b1 := set_levels q (set_orders p2 b)).
  assert (Hlinks1 : forall a, a <> o -> olinks b1 a = olinks b a).
  { intros a Ha. cbn. by rewrite L2, decide_False, L1, decide_False by done. }
  assert (Hfresh : forall s' h, h ∈ G s' -> g_ptr h <> lp).
  { intros s' h Hh Heq. destruct (lo_level _ _ _ (ghost_level_ok _ _ _ Hok _ _ Hh)) as (v & Hv & _).
    by rewrite Heq, Hnone in Hv. }
  assert (Hlv1 : forall s' h, h ∈ G s' -> level_ok b1 s' h).
  { intros s' h Hh. apply (level_ok_frame b); [by eapply ghost_level_ok| |].
    - intros o' Ho'. split; [apply (rl_data _ _ R)|]. apply Hlinks1. intros ->.
      by apply (lk_pend _ _ _ Hok o eq_refl s' h).
    - cbn. rewrite Hqb, data_insert, decide_False; [done|]. intros Heq. by apply (Hfresh s' h). }
  assert (Hs1 : side_ok b1 s (G s)).
  { apply (side_ok_frame b); [by apply Hok|done| |by apply Hlv1].
    intros a (h & -> & Hh)%list_elem_of_fmap. cbn.
    rewrite Hqb, links_insert, decide_False; [done|]. intros Heq. by apply (Hfresh s h). }
  assert (Hnew1 : pool_blocks (lv_levels b1) !! lp = Some nl) by (cbn; by rewrite Hqb, lookup_insert_eq).
  destruct (addOrdersAtPrice_ok b1 s (G s) lp nl Hvs Hs1 Hnew1 eq_refl)
    as (b' & g1 & g2 & -> & HG & Hadd & [Ho' Rl Hring Hfr Hb Hbo] & Hi).
  - intros (h & Heq & Hh)%list_elem_of_fmap. by apply (Hfresh s h).
  - apply (ghost_index_None _ _ _ Hok). exact Hidx.
  - etransitivity; [apply (ghost_size _ _ _ Hok)|]. cbn.
    rewrite map_size_insert_None by exact Hidx. lia.
  - exists b', lp. split; [done|]. cbn [lv_price nl] in *.
    rewrite Hadd. set (g' := mkG lp (bo_price x) [o]).
    assert (Hsort : StronglySorted (λ g1 g2, better s (g_price g1) (g_price g2) = true) (g1 ++ g' :: g2)).
    { destruct (sorted_split s (bo_price x) (G s)) as (h1 & h2 & HG' & H1 & H2 & H3).
      - apply (lk_sides _ _ _ Hok s Hvs).
      - by apply (ghost_index_None _ _ _ Hok).
      - change g' with (mkG lp (bo_price x) [o]). rewrite <- (Hadd lp o), (H3 lp o).
        apply sorted_insert; [rewrite <- HG'; apply (lk_sides _ _ _ Hok s Hvs)|done|done]. }
    assert (Hodata : forall a, odata b' a = odata b a) by (intros a; rewrite Ho'; apply (rl_data _ _ R)).
    assert (Holinks : forall a, a <> o -> olinks b' a = olinks b a)
      by (intros a Ha; rewrite Ho'; by apply Hlinks1).
    split_and!.
    + eapply (levels_ok_insert b b' G s g1 g2 g' o x Hok); try done.
      * by apply (ghost_index_None _ _ _ Hok).
      * split.
        -- rewrite Hb. by destruct g1.
        -- right. rewrite fmap_app, fmap_cons. exact Hring.
        -- exact Hsort.
        -- intros h Hh.
           assert (Hcase : h = g' \/ h ∈ G s).
           { rewrite HG. revert Hh. rewrite !elem_of_app, elem_of_cons. naive_solver. }
           destruct Hcase as [->|Hh'].
           ++ split.
              ** destruct (data_level _ _ _ _ Hnew1 (rl_data _ _ Rl lp)) as (v' & Hv' & ? & ? & ?).
                 exists v'. split_and!; done.
              ** cbn [g_orders]. rewrite Ho'. split; [apply NoDup_singleton|]. split; [|done].
                 cbn. by rewrite L2, decide_True.
              ** intros o' Hin'. apply list_elem_of_singleton in Hin' as ->. rewrite Ho'.
                 destruct (data_node _ _ _ _ Hx (rl_data _ _ R o)) as (x' & Hx' & ? & ?).
                 exists x'. split_and!; [done|congruence|done].
           ++ apply (level_ok_frame b1); [by apply Hlv1| |].
              ** intros o' _. by rewrite Ho'.
              ** apply (rl_data _ _ Rl).
      * by rewrite Ho'.
      * intros a Ha. rewrite fmap_app, fmap_cons, not_elem_of_app, not_elem_of_cons in Ha.
        destruct Ha as (Ha1 & Ha2 & Ha3). rewrite Hfr; [|done|].
        -- cbn. rewrite Hqb, links_insert, decide_False; [done|]. by intros Heq.
        -- by rewrite fmap_app, not_elem_of_app.
      * intros a Ha. rewrite (rl_data _ _ Rl). cbn. by rewrite Hqb, data_insert, decide_False.
      * by eapply relinked_pool_ok.
    + rewrite Ho'. exact R.
    + by rewrite (relinked_available _ _ Rl).
    + by rewrite (rl_capacity _ _ Rl).
Qed.

Lemma attachOrder_ok b G s o x :
  levels_ok b G (Some o) -> valid_side s ->
  pool_blocks (lv_orders b) !! o = Some x -> bo_side x = s ->
  (lv_index b !! (s, bo_price x) = None -> 0 < pool_available (lv_levels b)) ->
  exists b' lp, attachOrder o b = Ok b' /\
    levels_ok b' (<[s := g_add s (bo_price x) lp o (G s)]> G) None /\
    relinked (lv_orders b) (lv_orders b') /\
    pool_capacity (lv_levels b') = pool_capacity (lv_levels b).
Proof.
  intros Hok Hvs Hx Hxs Hav. destruct (lv_index b !! (s, bo_price x)) as [lp|] eqn:Hidx.
  - apply (lk_index _ _ _ Hok) in Hidx as (g & Hg & Hp & Hptr).
    apply list_elem_of_split in Hg as (g1 & g2 & HG).
    destruct (attach_existing b G s g1 g g2 o x Hok HG Hx Hxs) as (b' & Ha & Hok' & R & Hl);
      [done|].
    exists b', lp. split; [done|]. rewrite HG, (g_add_existing s (bo_price x) lp o g1 g2 g).
    + rewrite <- Hp. split_and!; [done|done|by rewrite Hl].
    + rewrite <- HG. apply (lk_sides _ _ _ Hok s Hvs).
    + done.
  - destruct (attach_new b G s o x Hok Hvs Hx Hxs Hidx (Hav eq_refl))
      as (b' & lp & ? & ? & ? & ? & ?). eauto 10.
Qed.

Lemma filter_notin (o : Z) (l : list Z) : o ∉ l -> List.filter (λ a, negb (a =? o)) l = l.
Proof.
  intros Hl. apply List.forallb_filter_id, List.forallb_forall.
  intros a Ha. apply list_elem_of_In in Ha. destruct (Z.eqb_spec a o) as [->|]; done.
Qed.

Lemma g_del_cons o g gs :
  g_del o (g :: gs) = match List.filter (λ a, negb (a =? o)) (g_orders g) with
                      | [] => g_del o gs
                      | os => mkG (g_ptr g) (g_price g) os :: g_del o gs
                      end.
Proof. unfold g_del. cbn. by destruct (List.filter _ _). Qed.

Lemma g_del_notin o gs :
  (forall g, g ∈ gs -> o ∉ g_orders g /\ g_orders g <> []) -> g_del o gs = gs.
Proof.
  induction gs as [|g gs IH]; intros Hn; [done|]. rewrite g_del_cons, IH by (intros h Hh; apply Hn; by right).
  destruct (Hn g ltac:(by left)) as [Ho Hne].
  rewrite filter_notin by done. destruct g as [? ? []]; done.
Qed.

Lemma filter_split (l1 l2 : list Z) o :
  NoDup (l1 ++ o :: l2) -> List.filter (λ a, negb (a =? o)) (l1 ++ o :: l2) = l1 ++ l2.
Proof.
  intros Hnd. apply NoDup_app in Hnd as (_ & Hd & Hnd). apply NoDup_cons in Hnd as [Ho _].
  rewrite List.filter_app. cbn [List.filter]. rewrite Z.eqb_refl. cbn [negb].
  rewrite !filter_notin; [done|done|]. intros Hin. apply (Hd o Hin). by left.
Qed.

Lemma g_del_split o g1 g g2 l1 l2 :
  (forall h, h ∈ g1 ++ g2 -> o ∉ g_orders h /\ g_orders h <> []) ->
  g_orders g = l1 ++ o :: l2 -> NoDup (g_orders g) ->
  g_del o (g1 ++ g :: g2)
  = g1 ++ (match l1 ++ l2 with [] => [] | os => [mkG (g_ptr g) (g_price g) os] end) ++ g2.
Proof.
  intros Hn Ho Hnd. assert (Happ : g_del o (g1 ++ g :: g2) = g_del o g1 ++ g_del o (g :: g2))
    by apply omap_app.
  rewrite Happ, g_del_cons, !g_del_notin by (intros h Hh; apply Hn; set_solver).
  f_equal. rewrite Ho in Hnd |- *. rewrite filter_split by done.
  by destruct (l1 ++ l2).
Qed.

(** Removing an order that is not alone in its level. *)
Lemma detach_shared b G s g1 g g2 l1 l2 o x :
  levels_ok b G None -> G s = g1 ++ g :: g2 -> g_orders g = l1 ++ o :: l2 -> l1 ++ l2 <> [] ->
  pool_blocks (lv_orders b) !! o = Some x -> bo_side x = s -> bo_price x = g_price g ->
  exists b', detachOrder o b = Ok b' /\
    levels_ok b' (<[s := g1 ++ mkG (g_ptr g) (g_price g) (l1 ++ l2) :: g2]> G) (Some o) /\
    relinked (lv_orders b) (lv_orders b') /\
    pool_capacity (lv_levels b') = pool_capacity (lv_levels b).
Proof.
  intros Hok HG Ho Hne Hx Hxs Hxp.
  assert (Hgin : g ∈ G s) by (rewrite HG; set_solver).
  pose proof (ghost_valid _ _ _ Hok _ _ Hgin) as Hvs.
  pose proof (ghost_level_ok _ _ _ Hok _ _ Hgin) as Hg.
  destruct (lo_level _ _ _ Hg) as (v & Hv & Hvside & Hvp & Hvf).
  pose proof (lo_ring _ _ _ Hg) as Hr. rewrite Ho in Hr. pose proof (ring_NoDup _ _ Hr) as Hnd.
  apply ring_rotate in Hr. cbn [app] in Hr.
  destruct (l2 ++ l1) as [|y l] eqn:Ey.
  { apply app_nil in Ey as [-> ->]. done. }
  assert (Hperm : l1 ++ l2 ≡ₚ y :: l) by (rewrite <- Ey; apply Permutation_app_comm).
  pose proof (ring_NoDup _ _ Hr) as Hnd'. apply NoDup_cons in Hnd' as [Honin _].
  pose proof (ring_head _ _ _ Hr) as Hl. cbn [hd] in Hl.
  apply links_lookup in Hl as (x' & Hx' & Hprev & Hnext).
  rewrite Hx in Hx'. injection Hx' as <-.
  unfold detachOrder, getOrdersAtPrice. rewrite (load_Some _ _ _ Hx). cbn [mbind res_bind].
  rewrite bool_decide_false.
  2:{ rewrite Hprev. rewrite last_cons_Z. intros [= Heq]. apply Honin. rewrite <- Heq at 1. apply last_in. }
  destruct (unlink_ring _ _ _ _ Hr) as (p1 & -> & R1 & Hr1 & Hfr1). cbn [mbind res_bind].
  cbn [set_orders lv_index]. rewrite Hxs, Hxp, (ghost_index _ _ _ Hok) by done.
  cbn [deref mbind res_bind]. change (lv_levels (set_orders p1 b)) with (lv_levels b).
  rewrite (load_Some _ _ _ Hv). cbn [mbind res_bind].
  set (q := if bool_decide (lv_first v = Some o) then
      {| pool_capacity := pool_capacity (lv_levels b);
         pool_blocks := <[g_ptr g := set_lv_first (nnext x) v]> (pool_blocks (lv_levels b));
         pool_free := pool_free (lv_levels b) |} else lv_levels b).
  assert (Hq : (if bool_decide (lv_first v = Some o)
      then q ← store (g_ptr g) (set_lv_first (nnext x)) (lv_levels b);
           Ok (set_levels q (set_orders p1 b))
      else Ok (set_orders p1 b)) = Ok (set_levels q (set_orders p1 b))).
  { unfold q. case_bool_decide; [|done]. by rewrite (store_Some _ _ _ _ Hv). }
  cbn [mbind res_bind] in Hq. rewrite Hq. cbn [mbind res_bind set_levels set_orders lv_orders].
  destruct (clear_links_spec p1 o) as (p2 & -> & R2 & Hfr2).
  { eapply relinked_live; [done|]. by rewrite Hx. }
  cbn [mbind res_bind]. pose proof (relinked_trans _ _ _ R1 R2) as R.
  eexists. split; [done|].
  assert (Hfirst : lv_first v = head (l1 ++ o :: l2)) by (by rewrite Hvf, Ho).
  assert (Hq' : exists v', pool_blocks q !! g_ptr g = Some v' /\ lv_side v' = s /\
     lv_price v' = g_price g /\ lv_first v' = head (l1 ++ l2)).
  { unfold q. destruct l1 as [|f l1].
    - cbn [app head] in *. rewrite bool_decide_true by done.
      eexists. cbn [pool_blocks]. rewrite lookup_insert_eq. split; [done|].
      cbn. split_and!; [done..|]. rewrite Hnext. rewrite app_nil_r in Ey. by rewrite Ey.
    - cbn [app head] in *. rewrite bool_decide_false.
      + exists v. done.
      + rewrite Hfirst. intros [= ->]. apply NoDup_cons in Hnd as [Hnd _]. set_solver. }
  assert (Hqother : forall a, a <> g_ptr g -> pool_blocks q !! a = pool_blocks (lv_levels b) !! a).
  { intros a Ha. unfold q. case_bool_decide; [|done]. cbn [pool_blocks].
    by rewrite lookup_insert_ne. }
  split_and!; [|done|unfold q; by case_bool_decide].
  apply (levels_ok_replace b _ G None (Some o) s g1 g); try done.
  - intros a. cbn. unfold q. case_bool_decide; [|done]. cbn [pool_blocks]. rewrite links_insert.
    case_decide as Ha; [|done]. unfold links. by rewrite <- Ha, Hv.
  - intros a Ha. cbn. unfold data. by rewrite Hqother.
  - cbn. unfold q. case_bool_decide; [|apply Hok]. eapply pool_ok_update; [done|]. apply Hok.
  - intros a v' Hv'. cbn in Hv'. destruct (decide (a = g_ptr g)) as [->|Ha].
    + destruct Hq' as (w & Hw & Hws & _). rewrite Hw in Hv'. injection Hv' as <-.
      exists v. split; [done|congruence].
    + rewrite Hqother in Hv' by done. eauto.
  - split; cbn [g_ptr g_price g_orders set_orders set_levels lv_orders lv_levels].
    + exact Hq'.
    + apply ring_rotate. rewrite Ey. apply (ring_ext (links (pool_blocks p1))); [|done].
      intros a Ha. apply Hfr2. by intros ->.
    + intros o' Ho'. apply (level_orders_relinked b (set_orders p2 b) s g R Hg).
      rewrite Ho. set_solver.
  - intros a Ha _. cbn. rewrite Hfr2, Hfr1; [done| |].
    + rewrite <- Hperm. rewrite Ho in Ha. set_solver.
    + intros ->. apply Ha. rewrite Ho. set_solver.
  - intros o'. cbn [g_orders]. rewrite Ho. split.
    + intros [[= <-]|Hin]; right; set_solver.
    + intros [?|Hin]; [done|]. rewrite elem_of_app, elem_of_cons in Hin. rewrite elem_of_app.
      destruct Hin as [?|[->|?]]; auto.
  - intros o' Heq. injection Heq as <-. cbn [g_orders]. rewrite Hperm. done.
Qed.

Lemma detachOrder_ok b G o x :
  levels_ok b G None -> pool_blocks (lv_orders b) !! o = Some x ->
  exists b', detachOrder o b = Ok b' /\
    levels_ok b' (<[bo_side x := g_del o (G (bo_side x))]> G) (Some o) /\
    relinked (lv_orders b) (lv_orders b') /\
    pool_capacity (lv_levels b') = pool_capacity (lv_levels b).
Proof.
  intros Hok Hx. destruct (lk_orders _ _ _ Hok o x Hx) as [?|(g & Hgin & Hog)]; [done|].
  set (s := bo_side x) in *.
  pose proof (ghost_valid _ _ _ Hok _ _ Hgin) as Hvs.
  pose proof (ghost_level_ok _ _ _ Hok _ _ Hgin) as Hg.
  pose proof (ring_NoDup _ _ (lo_ring _ _ _ Hg)) as Hnd.
  assert (Hxp : bo_price x = g_price g).
  { destruct (lo_orders _ _ _ Hg o Hog) as (x' & Hx' & _ & ?). congruence. }
  pose proof Hgin as HG. apply list_elem_of_split in HG as (g1 & g2 & HG).
  apply list_elem_of_split in Hog as (l1 & l2 & Ho).
  assert (Hoth : forall h, h ∈ g1 ++ g2 -> o ∉ g_orders h /\ g_orders h <> []).
  { intros h Hh. assert (Hhin : h ∈ G s) by (rewrite HG; set_solver).
    split; [|by eapply ghost_orders_nonempty]. intros Hoh.
    assert (Hog : o ∈ g_orders g) by (rewrite Ho; set_solver).
    destruct (ghost_order_inj _ _ _ Hok _ _ _ _ _ Hhin Hgin Hoh Hog) as [_ ->].
    pose proof (so_sorted _ _ _ (lk_sides _ _ _ Hok s Hvs)) as Hs. rewrite HG in Hs.
    apply elem_of_app in Hh as [Hin|Hin].
    - pose proof (sorted_app_inv _ _ _ g g Hs Hin ltac:(by left)) as Hbt.
      rewrite better_irrefl in Hbt. done.
    - replace (g1 ++ g :: g2) with ((g1 ++ [g]) ++ g2) in Hs by (by rewrite <- app_assoc).
      pose proof (sorted_app_inv _ _ _ g g Hs ltac:(set_solver) Hin) as Hbt.
      rewrite better_irrefl in Hbt. done. }
  rewrite HG, (g_del_split o g1 g g2 l1 l2) by done.
  destruct (l1 ++ l2) as [|f os] eqn:El.
  - apply app_nil in El as [-> ->]. cbn [app] in *.
    unfold detachOrder. rewrite (load_Some _ _ _ Hx). cbn [mbind res_bind].
    pose proof (lo_ring _ _ _ Hg) as Hr. rewrite Ho in Hr.
    pose proof (ring_head _ _ _ Hr) as Hl. cbn in Hl.
    apply links_lookup in Hl as (x' & Hx' & Hprev & _). rewrite Hx in Hx'. injection Hx' as <-.
    rewrite Hprev, bool_decide_true by done. fold s. rewrite Hxp.
    destruct (removeOrdersAtPrice_ok b s g1 g g2 Hvs) as (b' & -> & Hu & Hi).
    + rewrite <- HG. by apply Hok.
    + apply Hok.
    + by apply (ghost_index _ _ _ Hok).
    + exists b'. split_and!; [done| |rewrite (ul_orders _ _ _ _ _ Hu); apply relinked_refl
        |apply (ul_capacity _ _ _ _ _ Hu)].
      by eapply levels_ok_drop.
  - cbn [app]. destruct (detach_shared b G s g1 g g2 l1 l2 o x Hok HG Ho) as (b' & ? & ? & ? & ?);
      [by rewrite El|done..|]. rewrite El in *. eauto 10.
Qed.
End InvariantLemmas.
