(* ===== verification/LevelsView.v ===== *)
(** The abstract content of a side of a book.

    A side of [PriceLevels] read without its pointers is one list of orders,
    by price priority and then by arrival.  [enqueue] is the reference
    definition of the insertion; the lemmas say how the pointer operations
    act on the lists, and give the allocation, deallocation and update of an
    order as steps that keep the representation invariant. *)
From S2P Require Import Prelude.
From S2P Require Import Types.
From S2P Require Import MemPool.
From S2P Require Import Ring.
From S2P Require Import PriceLevels.
From stdpp Require Import functions base gmap list sorting.
From Stdlib Require Import ZArith Lia.

Local Open Scope Z_scope.

Section Content.
Context {Node : Type} `{BookOrder Node}.

(** Pointers to the orders of a list of levels, by priority. *)
Definition ptrs (gs : list GLevel) : list Z := concat (g_orders <$> gs).

(** The orders themselves, without their links. *)
Definition resting (m : gmap Z Node) (gs : list GLevel) : list Node := omap (data m) (ptrs gs).

(** Insertion behind every order whose price is at least as good. *)
Fixpoint enqueue (s : Side) (d : Node) (l : list Node) : list Node :=
  match l with
  | [] => [d]
  | x :: l' => if better s (bo_price d) (bo_price x) then d :: x :: l' else x :: enqueue s d l'
  end.

(** The distinct prices of a side. *)
Definition prices (l : list Node) : gset Z := list_to_set (bo_price <$> l).

(** The last order to arrive at a price. *)
Definition last_at (price : Z) (l : list Node) : option Node :=
  last (List.filter (λ x, bo_price x =? price) l).
End Content.

Section PoolSize.
Context {T : Type}.

Lemma pool_available_size (p : MemPool T) :
  0 <= pool_capacity p -> pool_ok p ->
  pool_available p = pool_capacity p - Z.of_nat (size (pool_blocks p)).
Proof.
  intros Hc [Hnd Hfree Hrange]. unfold pool_available.
  set (F := list_to_set (pool_free p) : gset Z). set (D := dom (pool_blocks p) : gset Z).
  assert (HF : size F = length (pool_free p)) by (by apply size_list_to_set).
  assert (HD : size D = size (pool_blocks p)) by apply size_dom.
  assert (Hdisj : F ## D).
  { intros i Hi Hd. apply elem_of_list_to_set, Hfree in Hi. apply elem_of_dom in Hd.
    rewrite Hi in Hd. by destruct Hd. }
  assert (Hun : F ∪ D = list_to_set (seqZ 0 (pool_capacity p))).
  { apply set_eq. intros i. rewrite elem_of_union. unfold F, D.
    rewrite !elem_of_list_to_set, elem_of_dom, elem_of_seqZ, <- Hrange. lia. }
  pose proof (size_union F D Hdisj) as Hs. rewrite Hun, size_list_to_set in Hs by apply NoDup_seqZ.
  rewrite length_seqZ in Hs. lia.
Qed.
End PoolSize.

Section ContentLemmas.
Context {Node : Type} `{BookOrder Node}.
Implicit Types (b : Levels Node) (G : Side -> list GLevel).
Abbreviation oblocks b := (pool_blocks (lv_orders b)).

Lemma ptrs_cons g gs : ptrs (g :: gs) = g_orders g ++ ptrs gs.
Proof. done. Qed.

Lemma elem_of_ptrs o gs : o ∈ ptrs gs <-> exists g, g ∈ gs /\ o ∈ g_orders g.
Proof.
  induction gs as [|g gs IH].
  - split; [set_solver|]. intros (g & Hg & _). set_solver.
  - rewrite ptrs_cons, elem_of_app, IH. split.
    + intros [?|(h & ? & ?)]; [exists g|exists h]; split; [by left|done|by right|done].
    + intros (h & [->|?]%elem_of_cons & ?); [by left|right; eauto].
Qed.

Lemma resting_cons m g gs : resting m (g :: gs) = omap (data m) (g_orders g) ++ resting m gs.
Proof. unfold resting. rewrite ptrs_cons. apply omap_app. Qed.

Lemma resting_ext (m m' : gmap Z Node) gs :
  (forall o, o ∈ ptrs gs -> data m' o = data m o) -> resting m' gs = resting m gs.
Proof.
  unfold resting. generalize (ptrs gs). intros l Hl. induction l as [|o l IH]; [done|].
  cbn [omap list_omap]. rewrite Hl by (by left). rewrite IH; [done|].
  intros a Ha. apply Hl. by right.
Qed.

(** Every pointer of a level leads to an order at the price of the level. *)
Definition priced (m : gmap Z Node) (gs : list GLevel) : Prop :=
  forall g, g ∈ gs -> g_orders g <> [] /\
    forall o, o ∈ g_orders g -> exists x, data m o = Some x /\ bo_price x = g_price g.

Lemma omap_data_same m p (l : list Z) :
  (forall o, o ∈ l -> exists x, data m o = Some x /\ bo_price x = p) ->
  Forall (λ x : Node, bo_price x = p) (omap (data m) l) /\
  length (omap (data m) l) = length l.
Proof.
  induction l as [|o l IH]; intros Hl; [done|]. destruct (Hl o ltac:(by left)) as (x & Hx & Hp).
  destruct IH as [IH1 IH2]; [intros a Ha; apply Hl; by right|].
  cbn [omap list_omap]. rewrite Hx. split; [by constructor|]. cbn. by rewrite IH2.
Qed.

Lemma enqueue_skip s (d : Node) (l1 l2 : list Node) :
  Forall (λ x, better s (bo_price d) (bo_price x) = false) l1 ->
  enqueue s d (l1 ++ l2) = l1 ++ enqueue s d l2.
Proof. induction 1 as [|x l Hx _ IH]; [done|]. cbn. by rewrite Hx, IH. Qed.

Lemma enqueue_front s (d : Node) (l : list Node) :
  (forall x, head l = Some x -> better s (bo_price d) (bo_price x) = true) ->
  enqueue s d l = d :: l.
Proof. destruct l as [|x l]; [done|]. intros Hx. cbn. by rewrite Hx. Qed.

Lemma resting_head m gs g x :
  priced m (g :: gs) -> head (resting m (g :: gs)) = Some x -> bo_price x = g_price g.
Proof.
  intros Hp. rewrite resting_cons. destruct (Hp g ltac:(by left)) as [Hne Ho].
  destruct (g_orders g) as [|o os]; [done|]. destruct (Ho o ltac:(by left)) as (y & Hy & Hyp).
  cbn. rewrite Hy. cbn. by intros [= <-].
Qed.

Lemma priced_tail m g gs : priced m (g :: gs) -> priced m gs.
Proof. intros Hp h Hh. apply Hp. by right. Qed.

Lemma resting_g_add m s lp o d (gs : list GLevel) :
  StronglySorted (λ g1 g2, better s (g_price g1) (g_price g2) = true) gs ->
  priced m gs -> data m o = Some d ->
  resting m (g_add s (bo_price d) lp o gs) = enqueue s d (resting m gs).
Proof.
  intros Hs Hp Hd. induction Hs as [|g gs Hs IH Hall].
  - cbn [g_add]. rewrite resting_cons. cbn. by rewrite Hd.
  - pose proof (Hp g ltac:(by left)) as [Hne Hg]. destruct (omap_data_same m _ _ Hg) as [Hsame _].
    cbn [g_add]. destruct (Z.eqb_spec (g_price g) (bo_price d)) as [Heq|Hneq].
    + rewrite !resting_cons. cbn [g_orders]. rewrite omap_app. cbn. rewrite Hd, <- app_assoc. cbn.
      rewrite enqueue_skip, enqueue_front; [done| |].
      * destruct gs as [|h gs]; [done|]. intros x Hx%(resting_head _ _ _ _ (priced_tail _ _ _ Hp)).
        rewrite Hx, <- Heq. rewrite Forall_forall in Hall. apply Hall. by left.
      * eapply Forall_impl; [done|]. intros x Hx. cbn in Hx. rewrite Hx, Heq. apply better_irrefl.
    + destruct (better s (bo_price d) (g_price g)) eqn:E.
      * rewrite (resting_cons m (mkG _ _ _)). cbn. rewrite Hd. cbn. rewrite enqueue_front; [done|].
        intros x Hx%(resting_head _ _ _ _ Hp). by rewrite Hx.
      * rewrite !resting_cons, IH by (by eapply priced_tail). rewrite enqueue_skip; [done|].
        eapply Forall_impl; [done|]. intros x Hx. cbn in Hx. by rewrite Hx.
Qed.

Lemma ptrs_g_del o gs : ptrs (g_del o gs) = List.filter (λ a, negb (a =? o)) (ptrs gs).
Proof.
  induction gs as [|g gs IH]; [done|]. rewrite g_del_cons, ptrs_cons, List.filter_app, <- IH.
  by destruct (List.filter _ (g_orders g)).
Qed.

(** ** Facts on a well-formed book *)
Section Facts.
Context (b : Levels Node) (G : Side -> list GLevel) (pend : option Z).
Context (Hok : levels_ok b G pend).

Lemma levels_priced s : priced (oblocks b) (G s).
Proof.
  intros g Hg. split; [by eapply ghost_orders_nonempty|]. intros o Ho.
  destruct (lo_orders _ _ _ (ghost_level_ok _ _ _ Hok _ _ Hg) o Ho) as (x & Hx & _ & Hp).
  exists (strip x). split; [by apply data_lookup_eq|]. by rewrite bo_price_strip.
Qed.

Lemma levels_sorted s :
  StronglySorted (λ g1 g2, better s (g_price g1) (g_price g2) = true) (G s).
Proof.
  destruct (decide (valid_side s)) as [Hv|Hv].
  - apply (so_sorted _ _ _ (lk_sides _ _ _ Hok s Hv)).
  - rewrite (lk_others _ _ _ Hok) by done. constructor.
Qed.

Lemma ptrs_order o s :
  o ∈ ptrs (G s) -> exists x, oblocks b !! o = Some x /\ bo_side x = s.
Proof.
  intros (g & Hg & Ho)%elem_of_ptrs.
  destruct (lo_orders _ _ _ (ghost_level_ok _ _ _ Hok _ _ Hg) o Ho) as (x & Hx & Hs & _). eauto.
Qed.

Lemma order_ptrs o x : oblocks b !! o = Some x -> pend = Some o \/ o ∈ ptrs (G (bo_side x)).
Proof.
  intros Hx. destruct (lk_orders _ _ _ Hok o x Hx) as [?|?]; [by left|right].
  by apply elem_of_ptrs.
Qed.

Lemma pend_notin o s : pend = Some o -> o ∉ ptrs (G s).
Proof. intros Hp (g & Hg & Ho)%elem_of_ptrs. by apply (lk_pend _ _ _ Hok o Hp s g). Qed.

Lemma ptrs_NoDup_sub s gs :
  StronglySorted (λ g1 g2, better s (g_price g1) (g_price g2) = true) gs ->
  (forall g, g ∈ gs -> g ∈ G s) -> NoDup (ptrs gs).
Proof.
  induction 1 as [|g gs Hs IH Hall]; intros Hsub; [constructor|].
  rewrite ptrs_cons. apply NoDup_app. split_and!.
  - apply (ring_NoDup _ _ (lo_ring _ _ _ (ghost_level_ok _ _ _ Hok s g (Hsub _ ltac:(by left))))).
  - intros o Ho (h & Hh & Hoh)%elem_of_ptrs. rewrite Forall_forall in Hall.
    destruct (ghost_order_inj _ _ _ Hok s s g h o (Hsub _ ltac:(by left))
      (Hsub _ ltac:(by right)) Ho Hoh) as [_ <-].
    specialize (Hall _ Hh). rewrite better_irrefl in Hall. done.
  - apply IH. intros h Hh. apply Hsub. by right.
Qed.

Lemma ptrs_NoDup s : NoDup (ptrs (G s)).
Proof. apply (ptrs_NoDup_sub s); [apply levels_sorted|done]. Qed.

Lemma resting_length s : length (resting (oblocks b) (G s)) = length (ptrs (G s)).
Proof.
  unfold resting. assert (Hall : forall o, o ∈ ptrs (G s) -> is_Some (data (oblocks b) o)).
  { intros o (x & Hx & _)%ptrs_order. rewrite (data_lookup_eq _ _ _ Hx). eauto. }
  revert Hall. generalize (ptrs (G s)). intros l Hl. induction l as [|o l IH]; [done|].
  destruct (Hl o ltac:(by left)) as [x Hx]. cbn. rewrite Hx. cbn. rewrite IH; [done|].
  intros a Ha. apply Hl. by right.
Qed.

Lemma elem_of_resting s d :
  d ∈ resting (oblocks b) (G s) <-> exists o, o ∈ ptrs (G s) /\ data (oblocks b) o = Some d.
Proof. unfold resting. rewrite list_elem_of_omap. done. Qed.
End Facts.

(** ** Changes to the order pool *)

(** A new content of the order pool that keeps the orders of the levels. *)
Lemma levels_ok_orders b p' G pend pend' :
  levels_ok b G pend -> pool_ok p' ->
  (forall s o, o ∈ ptrs (G s) -> links (pool_blocks p') o = links (oblocks b) o /\
     forall x, oblocks b !! o = Some x ->
       exists x', pool_blocks p' !! o = Some x' /\ bo_side x' = bo_side x /\ bo_price x' = bo_price x) ->
  (forall o x', pool_blocks p' !! o = Some x' -> pend' = Some o \/ o ∈ ptrs (G (bo_side x'))) ->
  (forall o s, pend' = Some o -> o ∉ ptrs (G s)) ->
  levels_ok (set_orders p' b) G pend'.
Proof.
  intros Hok Hp Hkeep Hall Hpend. split; try apply Hok; [| | |done].
  - intros s Hv. destruct (lk_sides _ _ _ Hok s Hv) as [Hb Hr Hs Hlv].
    split; [by rewrite best_set_orders|done|done|]. intros g Hg.
    assert (Hin : forall o, o ∈ g_orders g -> o ∈ ptrs (G s)).
    { intros o Ho. apply elem_of_ptrs. eauto. }
    destruct (Hlv g Hg) as [Hlev Hring Ho]. split; [done| |].
    + eapply ring_ext; [|exact Hring]. intros a Ha. by apply (Hkeep s), Hin.
    + intros o Hin'. destruct (Ho o Hin') as (x & Hx & Hxs & Hxp).
      destruct (proj2 (Hkeep s o (Hin o Hin')) x Hx) as (x' & Hx' & ? & ?).
      exists x'. split_and!; [done|congruence..].
  - intros o x' Hx'. destruct (Hall o x' Hx') as [?|Hin]; [by left|right]. by apply elem_of_ptrs.
  - intros o Ho s g Hg Hin. apply (Hpend o s Ho), elem_of_ptrs. eauto.
Qed.

Lemma levels_ok_alloc b G x :
  levels_ok b G None -> 0 < pool_available (lv_orders b) ->
  exists a p', allocate x (lv_orders b) = (Some a, p') /\ oblocks b !! a = None /\
    pool_blocks p' = <[a := x]> (oblocks b) /\ levels_ok (set_orders p' b) G (Some a) /\
    pool_available p' = pool_available (lv_orders b) - 1 /\
    pool_capacity p' = pool_capacity (lv_orders b).
Proof.
  intros Hok Hav. destruct (allocate_some x _ (lk_pool_orders _ _ _ Hok) Hav)
    as (a & p' & Ha & Hn & _ & Hb & Hp & Hav' & Hcap).
  assert (Hna : forall o s, o ∈ ptrs (G s) -> o <> a).
  { intros o s Ho ->. destruct (ptrs_order _ _ _ Hok a s Ho) as (y & Hy & _). congruence. }
  exists a, p'. split_and!; try done. apply (levels_ok_orders b p' G None (Some a)); try done.
  - intros s o Ho. rewrite Hb, links_insert, decide_False by (intros <-; by eapply Hna).
    split; [done|]. intros y Hy. exists y. rewrite lookup_insert_ne by (intros <-; by eapply Hna).
    done.
  - intros o y. rewrite Hb, lookup_insert. case_decide as E; [by intros _; left; f_equal|].
    intros Hy. destruct (order_ptrs _ _ _ Hok o y Hy) as [?|?]; [done|by right].
  - intros o s [= <-] Hin. by eapply Hna.
Qed.

Lemma levels_ok_dealloc b G o :
  levels_ok b G (Some o) -> is_Some (oblocks b !! o) ->
  exists p', deallocate o (lv_orders b) = Ok p' /\
    pool_blocks p' = delete o (oblocks b) /\ levels_ok (set_orders p' b) G None /\
    pool_capacity p' = pool_capacity (lv_orders b).
Proof.
  intros Hok [x Hx]. destruct (deallocate_live o x _ (lk_pool_orders _ _ _ Hok) Hx)
    as (p' & Hd & Hb & Hp & _ & Hcap).
  assert (Hno : forall o' s, o' ∈ ptrs (G s) -> o <> o').
  { intros o' s Ho ->. by apply (pend_notin _ _ _ Hok o' s). }
  exists p'. split_and!; try done. apply (levels_ok_orders b p' G (Some o) None); try done.
  - intros s o' Ho'. rewrite Hb, links_delete, decide_False by eauto. split; [done|].
    intros y Hy. exists y. by rewrite lookup_delete_ne by eauto.
  - intros o' y. rewrite Hb. intros [Hne Hy]%lookup_delete_Some.
    destruct (order_ptrs _ _ _ Hok o' y Hy) as [[= ->]|?]; [done|by right].
Qed.

Lemma levels_ok_store b G o x f :
  levels_ok b G None -> oblocks b !! o = Some x ->
  bo_side (f x) = bo_side x -> bo_price (f x) = bo_price x ->
  nprev (f x) = nprev x -> nnext (f x) = nnext x ->
  exists p', store o f (lv_orders b) = Ok p' /\
    pool_blocks p' = <[o := f x]> (oblocks b) /\ levels_ok (set_orders p' b) G None /\
    pool_capacity p' = pool_capacity (lv_orders b).
Proof.
  intros Hok Hx Hs Hp Hpr Hnx. eexists. split; [by apply store_Some|]. cbn [pool_blocks].
  split_and!; [done| |done]. apply (levels_ok_orders b _ G None None); try done.
  - eapply pool_ok_update; [done|apply Hok].
  - intros s a Ha. cbn [pool_blocks]. rewrite links_insert. split.
    + case_decide as E; [|done]. unfold links. rewrite <- E, Hx. cbn. by rewrite Hpr, Hnx.
    + intros y Hy. rewrite lookup_insert. case_decide as E; [|by eauto].
      rewrite <- E, Hx in Hy. injection Hy as <-. eauto.
  - intros a y. cbn [pool_blocks]. rewrite lookup_insert. case_decide as E.
    + intros [= <-]. rewrite Hs, <- E. eapply order_ptrs; done.
    + intros Hy. by eapply order_ptrs.
Qed.

(** ** The operations on the contents *)

(** [removeOrder] on the levels: detaching and releasing an order. *)
Record removed (b b' : Levels Node) (G G' : Side -> list GLevel) (o : Z) (x : Node) : Prop := {
  rm_ok : levels_ok b' G' None;
  rm_ptrs s : ptrs (G' s) = if decide (s = bo_side x)
                            then List.filter (λ a, negb (a =? o)) (ptrs (G s)) else ptrs (G s);
  rm_data a : data (oblocks b') a = if decide (a = o) then None else data (oblocks b) a;
  rm_order_capacity : pool_capacity (lv_orders b') = pool_capacity (lv_orders b);
  rm_level_capacity : pool_capacity (lv_levels b') = pool_capacity (lv_levels b)
}.

Lemma remove_content b G o x :
  levels_ok b G None -> oblocks b !! o = Some x ->
  exists b1 x1 p2 G', detachOrder o b = Ok b1 /\
    oblocks b1 !! o = Some x1 /\ strip x1 = strip x /\
    deallocate o (lv_orders b1) = Ok p2 /\ removed b (set_orders p2 b1) G G' o x.
Proof.
  intros Hok Hx. destruct (detachOrder_ok b G o x Hok Hx) as (b1 & Hd & Hok1 & R & Hcap).
  assert (Hx1 : data (oblocks b1) o = Some (strip x)).
  { rewrite (rl_data _ _ R). by apply data_lookup_eq. }
  apply data_lookup in Hx1 as (x1 & Hx1 & Hstrip).
  destruct (levels_ok_dealloc b1 _ o Hok1) as (p2 & Hp2 & Hb2 & Hok2 & Hcap2); [eauto|].
  eexists b1, x1, p2, _. split_and!; [done..|]. split; [exact Hok2| | | |done].
  - intros s. destruct (decide (s = bo_side x)) as [->|Hne].
    + rewrite fn_lookup_insert. apply ptrs_g_del.
    + by rewrite fn_lookup_insert_ne.
  - intros a. cbn [set_orders lv_orders]. rewrite Hb2, data_delete.
    rewrite (decide_ext (o = a) (a = o)) by naive_solver. case_decide; [done|]. apply (rl_data _ _ R).
  - cbn. rewrite Hcap2. apply (rl_capacity _ _ R).
Qed.

(** [addOrder] on the levels. *)
Record attached (b b' : Levels Node) (G G' : Side -> list GLevel) (x : Node) : Prop := {
  at_ok : levels_ok b' G' None;
  at_resting s : resting (oblocks b') (G' s) =
    if decide (s = bo_side x) then enqueue s (strip x) (resting (oblocks b) (G s))
    else resting (oblocks b) (G s);
  at_data a : data (oblocks b') a = data (oblocks b) a;
  at_order_capacity : pool_capacity (lv_orders b') = pool_capacity (lv_orders b);
  at_level_capacity : pool_capacity (lv_levels b') = pool_capacity (lv_levels b)
}.

Lemma attach_content b G o x :
  levels_ok b G (Some o) -> valid_side (bo_side x) -> oblocks b !! o = Some x ->
  (getOrdersAtPrice (bo_price x) (bo_side x) b = None -> 0 < pool_available (lv_levels b)) ->
  exists b' G', attachOrder o b = Ok b' /\ attached b b' G G' x.
Proof.
  intros Hok Hv Hx Hav.
  destruct (attachOrder_ok b G (bo_side x) o x Hok Hv Hx eq_refl Hav)
    as (b' & lp & Ha & Hok' & R & Hcap).
  exists b', (<[bo_side x := g_add (bo_side x) (bo_price x) lp o (G (bo_side x))]> G).
  split; [done|]. split; [exact Hok'| |apply (rl_data _ _ R)|apply (rl_capacity _ _ R)|done].
  intros s. rewrite (resting_ext (oblocks b)) by (intros; apply (rl_data _ _ R)).
  case_decide as E; [|by rewrite fn_lookup_insert_ne]. rewrite E, fn_lookup_insert.
  rewrite <- (bo_price_strip x) at 1. apply resting_g_add.
  - by eapply levels_sorted.
  - by eapply levels_priced.
  - by apply data_lookup_eq.
Qed.

(** Reading the best order of a side. *)
Lemma best_content b G pend s :
  levels_ok b G pend -> valid_side s ->
  (best s b = None /\ ptrs (G s) = [] /\ resting (oblocks b) (G s) = []) \/
  exists lp v o x os, best s b = Some lp /\ pool_blocks (lv_levels b) !! lp = Some v /\
    lv_first v = Some o /\ oblocks b !! o = Some x /\ bo_side x = s /\
    ptrs (G s) = o :: os /\ resting (oblocks b) (G s) = strip x :: omap (data (oblocks b)) os.
Proof.
  intros Hok Hv. pose proof (so_best _ _ _ (lk_sides _ _ _ Hok s Hv)) as Hb.
  destruct (G s) as [|g gs] eqn:E; [left; done|right].
  assert (Hg : g ∈ G s) by (rewrite E; by left).
  destruct (ghost_level_ok _ _ _ Hok _ _ Hg) as [(v & Hlv & _ & _ & Hf) Hr Ho].
  destruct (g_orders g) as [|o os] eqn:Eo; [done|].
  destruct (Ho o ltac:(by left)) as (x & Hx & Hxs & _).
  exists (g_ptr g), v, o, x, (os ++ ptrs gs). split_and!; try done.
  - by rewrite ptrs_cons, Eo.
  - unfold resting. rewrite ptrs_cons, Eo. cbn [app omap list_omap].
    by rewrite (data_lookup_eq _ _ _ Hx).
Qed.

(** The number of live objects. *)
Lemma orders_count b G :
  levels_ok b G None ->
  size (oblocks b) = (length (ptrs (G BUY)) + length (ptrs (G SELL)))%nat.
Proof.
  intros Hok. rewrite <- length_app. rewrite <- (size_dom (D := gset Z)).
  rewrite <- (size_list_to_set (C := gset Z) (ptrs (G BUY) ++ ptrs (G SELL))).
  - f_equal. apply set_eq. intros o. rewrite elem_of_dom, elem_of_list_to_set, elem_of_app. split.
    + intros [x Hx]. destruct (order_ptrs _ _ _ Hok o x Hx) as [?|Hin]; [done|].
      pose proof Hin as (g & Hg & _)%elem_of_ptrs.
      destruct (ghost_valid _ _ _ Hok _ _ Hg) as [E|E]; rewrite E in Hin; tauto.
    + intros [Hin|Hin]; destruct (ptrs_order _ _ _ Hok _ _ Hin) as (x & Hx & _); eauto.
  - apply NoDup_app. split_and!; [by eapply ptrs_NoDup| |by eapply ptrs_NoDup].
    intros o H1 H2. destruct (ptrs_order _ _ _ Hok _ _ H1) as (x & Hx & Hs).
    destruct (ptrs_order _ _ _ Hok _ _ H2) as (x' & Hx' & Hs'). congruence.
Qed.

Lemma level_ptrs_NoDup b G pend s : levels_ok b G pend -> NoDup (g_ptr <$> G s).
Proof.
  intros Hok. destruct (decide (valid_side s)) as [Hv|Hv].
  - destruct (so_ring _ _ _ (lk_sides _ _ _ Hok s Hv)) as [->|Hr]; [constructor|].
    by apply ring_NoDup in Hr.
  - rewrite (lk_others _ _ _ Hok) by done. constructor.
Qed.

Lemma levels_count b G pend :
  levels_ok b G pend ->
  size (pool_blocks (lv_levels b)) = (length (G BUY) + length (G SELL))%nat.
Proof.
  intros Hok. rewrite <- (length_fmap g_ptr (G BUY)), <- (length_fmap g_ptr (G SELL)), <- length_app.
  rewrite <- (size_dom (D := gset Z)).
  rewrite <- (size_list_to_set (C := gset Z) ((g_ptr <$> G BUY) ++ (g_ptr <$> G SELL))).
  - f_equal. apply set_eq. intros a. rewrite elem_of_dom, elem_of_list_to_set, elem_of_app. split.
    + intros [v Hl]. destruct (lk_levels _ _ _ Hok a v Hl) as (g & Hg & <-).
      destruct (ghost_valid _ _ _ Hok _ _ Hg) as [E|E]; rewrite E in Hg; [left|right];
        by apply list_elem_of_fmap_2.
    + intros [Hin|Hin]; apply list_elem_of_fmap in Hin as (g & -> & Hg);
        destruct (lo_level _ _ _ (ghost_level_ok _ _ _ Hok _ _ Hg)) as (v & Hl & _); eauto.
  - apply NoDup_app. split_and!; [by eapply level_ptrs_NoDup| |by eapply level_ptrs_NoDup].
    intros a (g & -> & Hg)%list_elem_of_fmap (h & Heq & Hh)%list_elem_of_fmap.
    by destruct (ghost_ptr_inj _ _ _ Hok _ _ _ _ Hg Hh Heq).
Qed.

(** ** Prices *)
Lemma elem_of_prices p (l : list Node) : p ∈ prices l <-> exists x, x ∈ l /\ bo_price x = p.
Proof.
  unfold prices. rewrite elem_of_list_to_set, list_elem_of_fmap. naive_solver.
Qed.

Lemma prices_resting m gs :
  priced m gs -> prices (resting m gs) = list_to_set (g_price <$> gs).
Proof.
  intros Hp. apply set_eq. intros p. rewrite elem_of_prices, elem_of_list_to_set, list_elem_of_fmap.
  unfold resting. split.
  - intros (x & (o & (g & Hg & Ho)%elem_of_ptrs & Hx)%list_elem_of_omap & <-).
    exists g. split; [|done]. destruct (proj2 (Hp g Hg) o Ho) as (y & Hy & Hpy). congruence.
  - intros (g & -> & Hg). destruct (Hp g Hg) as [Hne Ho].
    destruct (g_orders g) as [|o os] eqn:E; [done|]. destruct (Ho o ltac:(by left)) as (x & Hx & Hxp).
    exists x. split; [|done]. apply list_elem_of_omap. exists o. split; [|done].
    apply elem_of_ptrs. exists g. split; [done|]. rewrite E. by left.
Qed.

Lemma prices_size b G pend s :
  levels_ok b G pend -> size (prices (resting (oblocks b) (G s))) = length (G s).
Proof.
  intros Hok. rewrite prices_resting by (by eapply levels_priced).
  rewrite size_list_to_set, length_fmap; [done|].
  pose proof (levels_sorted _ _ _ Hok s) as Hs. induction Hs as [|g gs Hs IH Hall]; [constructor|].
  cbn [fmap list_fmap]. constructor; [|done]. intros (h & Heq & Hh)%list_elem_of_fmap.
  rewrite Forall_forall in Hall. specialize (Hall h Hh). by rewrite Heq, better_irrefl in Hall.
Qed.

Lemma index_prices b G pend s price :
  levels_ok b G pend ->
  is_Some (getOrdersAtPrice price s b) <-> price ∈ prices (resting (oblocks b) (G s)).
Proof.
  intros Hok. rewrite prices_resting by (by eapply levels_priced).
  rewrite elem_of_list_to_set, list_elem_of_fmap. unfold getOrdersAtPrice. split.
  - intros [a (g & ? & ? & ?)%(lk_index _ _ _ Hok)]. eauto.
  - intros (g & -> & Hg). rewrite (ghost_index _ _ _ Hok) by done. eauto.
Qed.

Lemma filter_price_other m p gs :
  priced m gs -> (forall g, g ∈ gs -> g_price g <> p) ->
  List.filter (λ x, bo_price x =? p) (resting m gs) = [].
Proof.
  intros Hp Hne. induction gs as [|g gs IH]; [done|].
  rewrite resting_cons, List.filter_app, IH; [|by eapply priced_tail|intros; apply Hne; by right].
  rewrite app_nil_r. destruct (omap_data_same m _ _ (proj2 (Hp g ltac:(by left)))) as [Hs _].
  specialize (Hne g ltac:(by left)). induction Hs as [|x l Hx Hs IHs]; [done|].
  cbn. rewrite (proj2 (Z.eqb_neq _ _)) by congruence. done.
Qed.

Lemma filter_price_same m g :
  (forall o, o ∈ g_orders g -> exists x, data m o = Some x /\ bo_price x = g_price g) ->
  List.filter (λ x, bo_price x =? g_price g) (omap (data m) (g_orders g)) = omap (data m) (g_orders g).
Proof.
  intros Ho. destruct (omap_data_same m _ _ Ho) as [Hs _]. induction Hs as [|x l Hx Hs IH]; [done|].
  cbn. rewrite Hx, Z.eqb_refl. by rewrite IH.
Qed.

(** Following [first->prev] reaches the last order of the level. *)
Lemma level_tail b G pend s price lp :
  levels_ok b G pend -> getOrdersAtPrice price s b = Some lp ->
  exists v f xf a y, pool_blocks (lv_levels b) !! lp = Some v /\ lv_first v = Some f /\
    oblocks b !! f = Some xf /\ nprev xf = Some a /\ oblocks b !! a = Some y /\
    last_at price (resting (oblocks b) (G s)) = Some (strip y).
Proof.
  intros Hok (g & Hg & <- & <-)%(lk_index _ _ _ Hok).
  destruct (ghost_level_ok _ _ _ Hok _ _ Hg) as [(v & Hlv & _ & _ & Hf) Hr Ho].
  pose proof (levels_priced _ _ _ Hok s) as Hp.
  destruct (Hp g Hg) as [Hne Hgp]. destruct (g_orders g) as [|f os] eqn:Eo; [done|].
  pose proof (ring_head _ _ _ Hr) as Hl. apply links_lookup in Hl as (xf & Hxf & Hprev & _).
  destruct (Ho (List.last os f)) as (y & Hy & _).
  { destruct os as [|z os _] using rev_ind; [by left|]. rewrite last_snoc_Z. set_solver. }
  exists v, f, xf, (List.last os f), y. split_and!; [done..|]. unfold last_at.
  pose proof Hg as (g1 & g2 & HG)%list_elem_of_split. rewrite HG in Hp |- *.
  assert (Hoth : forall h, h ∈ g1 ++ g2 -> g_price h <> g_price g).
  { intros h Hh Heq. pose proof (levels_sorted _ _ _ Hok s) as Hs. rewrite HG in Hs.
    apply elem_of_app in Hh as [Hin|Hin].
    - pose proof (sorted_app_inv _ _ _ h g Hs Hin ltac:(by left)) as Hbt.
      rewrite Heq, better_irrefl in Hbt. done.
    - replace (g1 ++ g :: g2) with ((g1 ++ [g]) ++ g2) in Hs by (by rewrite <- app_assoc).
      pose proof (sorted_app_inv _ _ _ g h Hs ltac:(set_solver) Hin) as Hbt.
      rewrite Heq, better_irrefl in Hbt. done. }
  assert (Happ : resting (oblocks b) (g1 ++ g :: g2)
    = resting (oblocks b) g1 ++ resting (oblocks b) (g :: g2)).
  { unfold resting, ptrs. by rewrite fmap_app, concat_app, omap_app. }
  rewrite Happ, resting_cons, !List.filter_app, !filter_price_other, app_nil_r.
  - cbn [app]. rewrite filter_price_same by (rewrite Eo; done). rewrite Eo.
    destruct os as [|z os _] using rev_ind.
    + cbn. cbn in Hy. by rewrite (data_lookup_eq _ _ _ Hy).
    + rewrite last_snoc_Z in *. rewrite app_comm_cons, omap_app. cbn [omap list_omap].
      rewrite (data_lookup_eq _ _ _ Hy). apply last_snoc.
  - intros h Hh. apply Hp. rewrite elem_of_app, elem_of_cons. auto.
  - intros h Hh. apply Hoth. rewrite elem_of_app. auto.
  - intros h Hh. apply Hp. rewrite elem_of_app, elem_of_cons. auto.
  - intros h Hh. apply Hoth. rewrite elem_of_app. auto.
Qed.
End ContentLemmas.
