(* ===== verification/MatchBook.v ===== *)
(** The limit order book of one ticker: matcher/me_order.h and
    matcher/me_order_book.{h,cpp}.

    The pointer structures are those of [PriceLevels]; the arrays of
    unordered maps indexed by the client are maps on (client, order id).
    [emitResponse] and [emitMarket] append to the ordered list [bk_events],
    which the matching engine hands to its queues. *)
From S2P Require Import Prelude.
From S2P Require Import Types.
From S2P Require Import MemPool.
From S2P Require Import Ring.
From S2P Require Import PriceLevels.
From stdpp Require Import functions base gmap list sorting.
From Stdlib Require Import ZArith Lia.

Local Open Scope Z_scope.

(** [struct MEOrder]. *)
Record MEOrder : Type := mkOrder {
  o_ticker_id : Z;
  o_client_id : Z;
  o_client_order_id : Z;
  o_market_order_id : Z;
  o_side : Side;
  o_price : Z;
  o_qty : Z;
  o_priority : Z;
  o_prev : option Z;
  o_next : option Z
}.

Definition set_o_qty (q : Z) (o : MEOrder) : MEOrder :=
  mkOrder (o_ticker_id o) (o_client_id o) (o_client_order_id o) (o_market_order_id o) (o_side o)
    (o_price o) q (o_priority o) (o_prev o) (o_next o).
Definition set_o_links (p n : option Z) (o : MEOrder) : MEOrder :=
  mkOrder (o_ticker_id o) (o_client_id o) (o_client_order_id o) (o_market_order_id o) (o_side o)
    (o_price o) (o_qty o) (o_priority o) p n.

#[export] Instance MEOrder_eq_dec : EqDecision MEOrder.
Proof. solve_decision. Defined.

#[export] Instance order_linked : Linked MEOrder.
Proof.
  refine {|
    nprev := o_prev;
    nnext := o_next;
    set_nprev p o := set_o_links p (o_next o) o;
    set_nnext n o := set_o_links (o_prev o) n o
  |}; reflexivity.
Defined.

#[export] Instance order_book_order : BookOrder MEOrder.
Proof. refine {| bo_side := o_side; bo_price := o_price |}; reflexivity. Defined.

(** Events in the order in which the book hands them to its sinks. *)
Inductive BookEvent : Type :=
  | Response (r : MEClientResponse)
  | Market (u : MEMarketUpdate).

#[export] Instance BookEvent_eq_dec : EqDecision BookEvent.
Proof. solve_decision. Defined.

(** [class MEOrderBook]. *)
Record MEOrderBook : Type := mkBook {
  bk_ticker_id : Z;
  bk_levels : Levels MEOrder;
  bk_orders : gmap (Z * Z) Z;                     (* cid_oid_to_order_ *)
  bk_last : gmap (Z * Z) MEClientResponse;        (* last_order_response_ *)
  bk_next_id : Z;                                 (* next_market_order_id_ *)
  bk_used : gset (Z * Z);                         (* used_client_order_ids_ *)
  bk_events : list BookEvent
}.

Module MEOrderBook.
Definition with_levels (l : Levels MEOrder) (b : MEOrderBook) : MEOrderBook :=
  mkBook (bk_ticker_id b) l (bk_orders b) (bk_last b) (bk_next_id b) (bk_used b) (bk_events b).
Definition with_orders (m : gmap (Z * Z) Z) (b : MEOrderBook) : MEOrderBook :=
  mkBook (bk_ticker_id b) (bk_levels b) m (bk_last b) (bk_next_id b) (bk_used b) (bk_events b).

(** The constructor, for pools of any capacity; [make] has the sizes of the
    code. [None]: a pool constructor throws. *)
Definition make_sized (ticker_id orders levels : Z) : option MEOrderBook :=
  match @pool_new MEOrder orders, @pool_new Level levels with
  | Some order_pool, Some orders_at_price_pool =>
      Some (mkBook ticker_id (mkLevels order_pool orders_at_price_pool ∅ None None) ∅ ∅ 1 ∅ [])
  | _, _ => None
  end.
Definition make (ticker_id : Z) : option MEOrderBook :=
  make_sized ticker_id ME_MAX_ORDER_IDS ME_MAX_PRICE_LEVELS.

Definition emitResponse (response : MEClientResponse) (b : MEOrderBook) : MEOrderBook :=
  mkBook (bk_ticker_id b) (bk_levels b) (bk_orders b)
    (if (rs_client_id response <? ME_MAX_NUM_CLIENTS)
        && negb (bool_decide (rs_type response = REJECTED))
        && negb (bool_decide (rs_type response = CANCEL_REJECTED))
        && negb (bool_decide (rs_type response = STATE))
     then <[(rs_client_id response, rs_client_order_id response) := response]> (bk_last b)
     else bk_last b)
    (bk_next_id b) (bk_used b) (bk_events b ++ [Response response]).

Definition emitMarket (update : MEMarketUpdate) (b : MEOrderBook) : MEOrderBook :=
  mkBook (bk_ticker_id b) (bk_levels b) (bk_orders b) (bk_last b) (bk_next_id b) (bk_used b)
    (bk_events b ++ [Market update]).

Definition generateNewMarketOrderId (b : MEOrderBook) : Z * MEOrderBook :=
  (bk_next_id b,
   mkBook (bk_ticker_id b) (bk_levels b) (bk_orders b) (bk_last b) (u64 (bk_next_id b + 1))
     (bk_used b) (bk_events b)).

Definition getNextPriority (price : Z) (side : Side) (b : MEOrderBook) : res Z :=
  match getOrdersAtPrice price side (bk_levels b) with
  | None => Ok 1
  | Some orders_at_price =>
      v ← load (lv_levels (bk_levels b)) orders_at_price;
      first ← deref (lv_first v);
      f ← load (lv_orders (bk_levels b)) first;
      prev ← deref (o_prev f);
      x ← load (lv_orders (bk_levels b)) prev;
      Ok (u64 (o_priority x + 1))
  end.

(** [cid_oid_to_order_.at(client)]: out of range throws in a [noexcept]
    member and ends the process. *)
Definition removeOrder (order : Z) (b : MEOrderBook) : res MEOrderBook :=
  l ← detachOrder order (bk_levels b);
  let b := with_levels l b in
  x ← load (lv_orders (bk_levels b)) order;
  _ ← ASSERT (o_client_id x <? ME_MAX_NUM_CLIENTS);
  let b := with_orders (delete (o_client_id x, o_client_order_id x) (bk_orders b)) b in
  p ← deallocate order (lv_orders (bk_levels b));
  Ok (with_levels (set_orders p (bk_levels b)) b).

Definition addOrder (order : Z) (b : MEOrderBook) : res MEOrderBook :=
  l ← attachOrder order (bk_levels b);
  let b := with_levels l b in
  x ← load (lv_orders (bk_levels b)) order;
  _ ← ASSERT (o_client_id x <? ME_MAX_NUM_CLIENTS);
  Ok (with_orders (<[(o_client_id x, o_client_order_id x) := order]> (bk_orders b)) b).

(** [match]: one fill of the incoming order against the resting order [itr];
    returns the remaining quantity of the incoming order. *)
Definition match_order (ticker_id client_id : Z) (side : Side) (client_order_id new_market_order_id : Z)
    (itr : Z) (leaves_qty : Z) (b : MEOrderBook) : res (Z * MEOrderBook) :=
  order ← load (lv_orders (bk_levels b)) itr;
  let order_qty := o_qty order in
  let fill_qty := Z.min leaves_qty order_qty in
  let leaves_qty := u32 (leaves_qty - fill_qty) in
  p ← store itr (λ o, set_o_qty (u32 (o_qty o - fill_qty)) o) (lv_orders (bk_levels b));
  let b := with_levels (set_orders p (bk_levels b)) b in
  order ← load (lv_orders (bk_levels b)) itr;
  let b := emitResponse (mkResponse FILLED client_id ticker_id client_order_id new_market_order_id
    side (o_price order) fill_qty leaves_qty NONE 0 0) b in
  let b := emitResponse (mkResponse FILLED (o_client_id order) ticker_id (o_client_order_id order)
    (o_market_order_id order) (o_side order) (o_price order) fill_qty (o_qty order) NONE 0 0) b in
  let b := emitMarket (mkUpdate MD_TRADE OrderId_INVALID ticker_id side (o_price order) fill_qty
    Priority_INVALID) b in
  if o_qty order =? 0 then
    let b := emitMarket (mkUpdate MD_CANCEL (o_market_order_id order) ticker_id (o_side order)
      (o_price order) order_qty Priority_INVALID) b in
    b ← removeOrder itr b;
    Ok (leaves_qty, b)
  else
    let b := emitMarket (mkUpdate MD_MODIFY (o_market_order_id order) ticker_id (o_side order)
      (o_price order) (o_qty order) (o_priority order)) b in
    Ok (leaves_qty, b).

(** The two loops of [checkForMatch] are the same with the sides and the
    comparison exchanged. *)
Definition too_far (side : Side) (price resting : Z) : bool :=
  if decide (side = BUY) then price <? resting else resting <? price.

Fixpoint match_loop (fuel : nat) (client_id client_order_id ticker_id : Z) (side : Side)
    (price leaves_qty new_market_order_id : Z) (b : MEOrderBook) : res (Z * MEOrderBook) :=
  match fuel with
  | 0%nat => Err NoFuel
  | S fuel =>
      if leaves_qty =? 0 then Ok (leaves_qty, b) else
      match best (if decide (side = BUY) then SELL else BUY) (bk_levels b) with
      | None => Ok (leaves_qty, b)
      | Some level =>
          v ← load (lv_levels (bk_levels b)) level;
          itr ← deref (lv_first v);
          x ← load (lv_orders (bk_levels b)) itr;
          if too_far side price (o_price x) then Ok (leaves_qty, b) else
          '(leaves_qty, b) ← match_order ticker_id client_id side client_order_id
            new_market_order_id itr leaves_qty b;
          match_loop fuel client_id client_order_id ticker_id side price leaves_qty
            new_market_order_id b
      end
  end.

Definition checkForMatch (client_id client_order_id ticker_id : Z) (side : Side)
    (price qty new_market_order_id : Z) (b : MEOrderBook) : res (Z * MEOrderBook) :=
  if decide (side = BUY \/ side = SELL) then
    match_loop (S (size (pool_blocks (lv_orders (bk_levels b))))) client_id client_order_id
      ticker_id side price qty new_market_order_id b
  else Ok (qty, b).

(** The guards of [add], in order. *)
Definition add_reason (client_id client_order_id ticker_id : Z) (side : Side) (price qty : Z)
    (b : MEOrderBook) : RejectReason :=
  if (ME_MAX_NUM_CLIENTS <=? client_id) || negb (ticker_id =? bk_ticker_id b)
     || (client_order_id =? 0) || (ME_MAX_ORDER_IDS <=? client_order_id) then INVALID_ID
  else if negb (bool_decide (side = BUY)) && negb (bool_decide (side = SELL)) then INVALID_SIDE
  else if (price <=? 0) || (price =? Price_INVALID) then INVALID_PRICE
  else if (qty =? 0) || (qty =? Qty_INVALID) || (INT32_MAX <? qty) then INVALID_QTY
  else if bool_decide ((client_id, client_order_id) ∈ bk_used b) then DUPLICATE_ID
  else if (pool_available (lv_orders (bk_levels b)) =? 0) || (ME_MAX_ORDER_IDS <=? bk_next_id b)
     || (bool_decide (getOrdersAtPrice price side (bk_levels b) = None)
         && (pool_available (lv_levels (bk_levels b)) =? 0)) then CAPACITY
  else NONE.

Definition add (client_id client_order_id ticker_id : Z) (side : Side) (price qty : Z)
    (b : MEOrderBook) : res MEOrderBook :=
  let reason := add_reason client_id client_order_id ticker_id side price qty b in
  if negb (bool_decide (reason = NONE)) then
    Ok (emitResponse (mkResponse REJECTED client_id ticker_id client_order_id OrderId_INVALID
      side price 0 0 reason 0 0) b)
  else
  let b := mkBook (bk_ticker_id b) (bk_levels b) (bk_orders b) (bk_last b) (bk_next_id b)
    ({[(client_id, client_order_id)]} ∪ bk_used b) (bk_events b) in
  let '(new_market_order_id, b) := generateNewMarketOrderId b in
  let b := emitResponse (mkResponse ACCEPTED client_id ticker_id client_order_id
    new_market_order_id side price 0 qty NONE 0 0) b in
  '(leaves_qty, b) ← checkForMatch client_id client_order_id ticker_id side price qty
    new_market_order_id b;
  if leaves_qty =? 0 then Ok b else
  priority ← getNextPriority price side b;
  let '(order, p) := allocate (mkOrder ticker_id client_id client_order_id new_market_order_id
    side price leaves_qty priority None None) (lv_orders (bk_levels b)) in
  order ← deref order;
  b ← addOrder order (with_levels (set_orders p (bk_levels b)) b);
  Ok (emitMarket (mkUpdate MD_ADD new_market_order_id ticker_id side price leaves_qty priority) b).

Definition cancel (client_id order_id ticker_id : Z) (b : MEOrderBook) : res MEOrderBook :=
  let exchange_order :=
    if (client_id <? ME_MAX_NUM_CLIENTS) && (ticker_id =? bk_ticker_id b)
    then bk_orders b !! (client_id, order_id) else None in
  match exchange_order with
  | None =>
      Ok (emitResponse (mkResponse CANCEL_REJECTED client_id ticker_id order_id OrderId_INVALID
        Side_INVALID Price_INVALID 0 0 INVALID_ID 0 0) b)
  | Some order =>
      x ← load (lv_orders (bk_levels b)) order;
      let client_response := mkResponse CANCELED client_id ticker_id order_id
        (o_market_order_id x) (o_side x) (o_price x) Qty_INVALID (o_qty x) NONE 0 0 in
      let market_update := mkUpdate MD_CANCEL (o_market_order_id x) ticker_id (o_side x)
        (o_price x) 0 (o_priority x) in
      b ← removeOrder order b;
      Ok (emitResponse client_response (emitMarket market_update b))
  end.

Definition query (client_id order_id : Z) (b : MEOrderBook) : MEOrderBook :=
  if ME_MAX_NUM_CLIENTS <=? client_id then b else
  if order_id =? 0 then
    emitResponse (mkResponse STATE client_id (bk_ticker_id b) 0 OrderId_INVALID Side_INVALID
      Price_INVALID 0 0 NONE 0 0) b
  else
  match bk_last b !! (client_id, order_id) with
  | None =>
      emitResponse (mkResponse REJECTED client_id (bk_ticker_id b) order_id OrderId_INVALID
        Side_INVALID Price_INVALID 0 0 INVALID_ID 0 0) b
  | Some response =>
      let response := if bool_decide (rs_type response = CANCELED)
                      then set_rs_leaves_qty 0 response else response in
      emitResponse (set_rs_exec_qty 0 (set_rs_type STATE response)) b
  end.

(** [liveOrders]: one ADD per indexed order, by market order id. *)
Definition by_order_id (a b : MEMarketUpdate) : Prop := mu_order_id a <= mu_order_id b.
#[global] Instance by_order_id_dec a b : Decision (by_order_id a b).
Proof. unfold by_order_id. apply _. Defined.

Definition live_order (b : MEOrderBook) (order : Z) : res MEMarketUpdate :=
  x ← load (lv_orders (bk_levels b)) order;
  Ok (mkUpdate MD_ADD (o_market_order_id x) (bk_ticker_id b) (o_side x) (o_price x) (o_qty x)
    (o_priority x)).

Definition liveOrders (b : MEOrderBook) : res (list MEMarketUpdate) :=
  result ← res_fold (λ result order, u ← live_order b order; Ok (result ++ [u]))
    (map_to_list (bk_orders b)).*2 [];
  Ok (merge_sort by_order_id result).
End MEOrderBook.
