(* ===== verification/BookSpec.v ===== *)
(** Reference order book.

    A book as two lists of resting orders, best price first and then by
    arrival, with no pointers, pools or indices.  An incoming order consumes a
    prefix of the opposite list ([fill]); what is left of it is enqueued
    behind the orders of the same price.  [BookRefinement] shows that the
    pointer code of [MatchBook] computes exactly this. *)
From S2P Require Import Prelude.
From S2P Require Import Types.
From S2P Require Import MemPool.
From S2P Require Import Ring.
From S2P Require Import PriceLevels.
From S2P Require Import LevelsView.
From S2P Require Import MatchBook.
From stdpp Require Import functions base gmap list sorting.
From Stdlib Require Import ZArith Lia.

Local Open Scope Z_scope.

Record Book : Type := mkABook {
  a_ticker_id : Z;
  a_bids : list MEOrder;
  a_asks : list MEOrder;
  a_last : gmap (Z * Z) MEClientResponse;
  a_next_id : Z;
  a_used : gset (Z * Z);
  a_order_capacity : Z;
  a_level_capacity : Z
}.

(** Requests to a book, with the arguments of the three entry points. *)
Inductive BookOp : Type :=
  | OpAdd (client_id client_order_id ticker_id : Z) (side : Side) (price qty : Z)
  | OpCancel (client_id order_id ticker_id : Z)
  | OpQuery (client_id order_id : Z).

Definition opposite (s : Side) : Side := if decide (s = BUY) then SELL else BUY.

Definition side_of (s : Side) (a : Book) : list MEOrder :=
  if decide (s = BUY) then a_bids a else a_asks a.

Definition set_side (s : Side) (l : list MEOrder) (a : Book) : Book :=
  if decide (s = BUY)
  then mkABook (a_ticker_id a) l (a_asks a) (a_last a) (a_next_id a) (a_used a)
         (a_order_capacity a) (a_level_capacity a)
  else mkABook (a_ticker_id a) (a_bids a) l (a_last a) (a_next_id a) (a_used a)
         (a_order_capacity a) (a_level_capacity a).

Definition okey (x : MEOrder) : Z * Z := (o_client_id x, o_client_order_id x).

Definition all_orders (a : Book) : list MEOrder := a_bids a ++ a_asks a.

(** The last response of an order that [query] reports. *)
Definition record_event (m : gmap (Z * Z) MEClientResponse) (e : BookEvent) :
    gmap (Z * Z) MEClientResponse :=
  match e with
  | Market _ => m
  | Response r =>
      if (rs_client_id r <? ME_MAX_NUM_CLIENTS)
         && negb (bool_decide (rs_type r = REJECTED))
         && negb (bool_decide (rs_type r = CANCEL_REJECTED))
         && negb (bool_decide (rs_type r = STATE))
      then <[(rs_client_id r, rs_client_order_id r) := r]> m else m
  end.

Definition set_last (m : gmap (Z * Z) MEClientResponse) (a : Book) : Book :=
  mkABook (a_ticker_id a) (a_bids a) (a_asks a) m (a_next_id a) (a_used a)
    (a_order_capacity a) (a_level_capacity a).

Definition publish (evs : list BookEvent) (a : Book) : Book :=
  set_last (foldl record_event (a_last a) evs) a.

Definition empty_book (ticker_id orders levels : Z) : Book :=
  mkABook ticker_id [] [] ∅ 1 ∅ orders levels.

(** Fills of an incoming order: the resting orders it meets with the traded
    quantities, what remains of it and what remains of the list. *)
Fixpoint fill (side : Side) (price leaves : Z) (l : list MEOrder) :
    list (MEOrder * Z) * Z * list MEOrder :=
  match l with
  | [] => ([], leaves, [])
  | x :: l' =>
      if (leaves =? 0) || MEOrderBook.too_far side price (o_price x) then ([], leaves, x :: l')
      else
        let q := Z.min leaves (o_qty x) in
        if o_qty x - q =? 0 then
          let '(fills, leaves', rest) := fill side price (leaves - q) l' in
          ((x, q) :: fills, leaves', rest)
        else ([(x, q)], leaves - q, set_o_qty (o_qty x - q) x :: l')
  end.

Definition fill_events (ticker_id client_id : Z) (side : Side)
    (client_order_id new_market_order_id leaves : Z) (x : MEOrder) (q : Z) : list BookEvent :=
  [ Response (mkResponse FILLED client_id ticker_id client_order_id new_market_order_id side
      (o_price x) q (leaves - q) NONE 0 0);
    Response (mkResponse FILLED (o_client_id x) ticker_id (o_client_order_id x)
      (o_market_order_id x) (o_side x) (o_price x) q (o_qty x - q) NONE 0 0);
    Market (mkUpdate MD_TRADE OrderId_INVALID ticker_id side (o_price x) q Priority_INVALID);
    Market (if o_qty x - q =? 0
            then mkUpdate MD_CANCEL (o_market_order_id x) ticker_id (o_side x) (o_price x)
                   (o_qty x) Priority_INVALID
            else mkUpdate MD_MODIFY (o_market_order_id x) ticker_id (o_side x) (o_price x)
                   (o_qty x - q) (o_priority x)) ].

Fixpoint fills_events (ticker_id client_id : Z) (side : Side)
    (client_order_id new_market_order_id leaves : Z) (fills : list (MEOrder * Z)) :
    list BookEvent :=
  match fills with
  | [] => []
  | (x, q) :: fills' =>
      fill_events ticker_id client_id side client_order_id new_market_order_id leaves x q
      ++ fills_events ticker_id client_id side client_order_id new_market_order_id (leaves - q)
           fills'
  end.

Definition spec_reason (client_id client_order_id ticker_id : Z) (side : Side) (price qty : Z)
    (a : Book) : RejectReason :=
  if (ME_MAX_NUM_CLIENTS <=? client_id) || negb (ticker_id =? a_ticker_id a)
     || (client_order_id =? 0) || (ME_MAX_ORDER_IDS <=? client_order_id) then INVALID_ID
  else if negb (bool_decide (side = BUY)) && negb (bool_decide (side = SELL)) then INVALID_SIDE
  else if (price <=? 0) || (price =? Price_INVALID) then INVALID_PRICE
  else if (qty =? 0) || (qty =? Qty_INVALID) || (INT32_MAX <? qty) then INVALID_QTY
  else if bool_decide ((client_id, client_order_id) ∈ a_used a) then DUPLICATE_ID
  else if (Z.of_nat (length (all_orders a)) =? a_order_capacity a)
     || (ME_MAX_ORDER_IDS <=? a_next_id a)
     || (bool_decide (price ∉ prices (side_of side a))
         && (Z.of_nat (size (prices (a_bids a)) + size (prices (a_asks a)))
             =? a_level_capacity a)) then CAPACITY
  else NONE.

Definition next_priority (price : Z) (l : list MEOrder) : Z :=
  match last_at price l with
  | None => 1
  | Some x => u64 (o_priority x + 1)
  end.

Definition accept (client_id client_order_id : Z) (a : Book) : Book :=
  mkABook (a_ticker_id a) (a_bids a) (a_asks a) (a_last a) (u64 (a_next_id a + 1))
    ({[(client_id, client_order_id)]} ∪ a_used a) (a_order_capacity a) (a_level_capacity a).

(** An accepted order. *)
Definition spec_trade (client_id client_order_id ticker_id : Z) (side : Side) (price qty : Z)
    (a : Book) : Book * list BookEvent :=
  let id := a_next_id a in
  let a := accept client_id client_order_id a in
  let '(fills, leaves, rest) := fill side price qty (side_of (opposite side) a) in
  let a := set_side (opposite side) rest a in
  let evs :=
    Response (mkResponse ACCEPTED client_id ticker_id client_order_id id side price 0 qty NONE 0 0)
    :: fills_events ticker_id client_id side client_order_id id qty fills in
  if leaves =? 0 then (publish evs a, evs) else
  let priority := next_priority price (side_of side a) in
  let x := mkOrder ticker_id client_id client_order_id id side price leaves priority None None in
  let a := set_side side (enqueue side x (side_of side a)) a in
  let evs := evs ++ [Market (mkUpdate MD_ADD id ticker_id side price leaves priority)] in
  (publish evs a, evs).

Definition spec_add (client_id client_order_id ticker_id : Z) (side : Side) (price qty : Z)
    (a : Book) : Book * list BookEvent :=
  let reason := spec_reason client_id client_order_id ticker_id side price qty a in
  if bool_decide (reason = NONE) then
    spec_trade client_id client_order_id ticker_id side price qty a
  else
    (a, [Response (mkResponse REJECTED client_id ticker_id client_order_id OrderId_INVALID side
           price 0 0 reason 0 0)]).

Definition find_order (k : Z * Z) (a : Book) : option MEOrder :=
  head (List.filter (λ x, bool_decide (okey x = k)) (all_orders a)).

Definition drop_order (k : Z * Z) (l : list MEOrder) : list MEOrder :=
  List.filter (λ x, negb (bool_decide (okey x = k))) l.

Definition spec_cancel (client_id order_id ticker_id : Z) (a : Book) : Book * list BookEvent :=
  match (if (client_id <? ME_MAX_NUM_CLIENTS) && (ticker_id =? a_ticker_id a)
         then find_order (client_id, order_id) a else None) with
  | None =>
      (a, [Response (mkResponse CANCEL_REJECTED client_id ticker_id order_id OrderId_INVALID
             Side_INVALID Price_INVALID 0 0 INVALID_ID 0 0)])
  | Some x =>
      let evs :=
        [Market (mkUpdate MD_CANCEL (o_market_order_id x) ticker_id (o_side x) (o_price x) 0
           (o_priority x));
         Response (mkResponse CANCELED client_id ticker_id order_id (o_market_order_id x)
           (o_side x) (o_price x) Qty_INVALID (o_qty x) NONE 0 0)] in
      (publish evs (set_side (o_side x) (drop_order (client_id, order_id)
         (side_of (o_side x) a)) a), evs)
  end.

Definition spec_query (client_id order_id : Z) (a : Book) : Book * list BookEvent :=
  if ME_MAX_NUM_CLIENTS <=? client_id then (a, []) else
  if order_id =? 0 then
    (a, [Response (mkResponse STATE client_id (a_ticker_id a) 0 OrderId_INVALID Side_INVALID
           Price_INVALID 0 0 NONE 0 0)])
  else
  match a_last a !! (client_id, order_id) with
  | None =>
      (a, [Response (mkResponse REJECTED client_id (a_ticker_id a) order_id OrderId_INVALID
             Side_INVALID Price_INVALID 0 0 INVALID_ID 0 0)])
  | Some r =>
      let r := if bool_decide (rs_type r = CANCELED) then set_rs_leaves_qty 0 r else r in
      (a, [Response (set_rs_exec_qty 0 (set_rs_type STATE r))])
  end.

Definition spec_step (op : BookOp) (a : Book) : Book * list BookEvent :=
  match op with
  | OpAdd c o t s p q => spec_add c o t s p q a
  | OpCancel c o t => spec_cancel c o t a
  | OpQuery c o => spec_query c o a
  end.

Fixpoint spec_run (ops : list BookOp) (a : Book) : Book * list BookEvent :=
  match ops with
  | [] => (a, [])
  | op :: ops' =>
      let '(a1, evs1) := spec_step op a in
      let '(a2, evs2) := spec_run ops' a1 in
      (a2, evs1 ++ evs2)
  end.

(** The public part of the events. *)
Fixpoint updates_of (evs : list BookEvent) : list MEMarketUpdate :=
  match evs with
  | [] => []
  | Response _ :: evs' => updates_of evs'
  | Market u :: evs' => u :: updates_of evs'
  end.

(** The quantities of a request are machine words. *)
Definition op_wf (op : BookOp) : Prop :=
  match op with
  | OpAdd c o t s p q => is_u32 q
  | _ => True
  end.

(** ** Well-formed books *)

(** [x] has priority over [y]. *)
Definition before (s : Side) (x y : MEOrder) : Prop :=
  better s (o_price x) (o_price y) = true \/
  (o_price x = o_price y /\ o_priority x < o_priority y).

Record order_wf (a : Book) (s : Side) (x : MEOrder) : Prop := {
  ow_side : o_side x = s;
  ow_links : strip x = x;
  ow_ticker : o_ticker_id x = a_ticker_id a;
  ow_client : o_client_id x < ME_MAX_NUM_CLIENTS;
  ow_used : okey x ∈ a_used a;
  ow_price : 0 < o_price x /\ o_price x <> Price_INVALID;
  ow_qty : 0 < o_qty x <= INT32_MAX;
  ow_id : 0 < o_market_order_id x < a_next_id a;
  ow_priority : 0 < o_priority x <= o_market_order_id x
}.

Record book_wf (a : Book) : Prop := {
  bw_orders s x : valid_side s -> x ∈ side_of s a -> order_wf a s x;
  bw_sorted s : valid_side s -> StronglySorted (before s) (side_of s a);
  bw_uncrossed x y : x ∈ a_bids a -> y ∈ a_asks a -> o_price x < o_price y;
  bw_keys : NoDup (okey <$> all_orders a);
  bw_ids : NoDup (o_market_order_id <$> all_orders a);
  bw_next : 0 < a_next_id a <= ME_MAX_ORDER_IDS;
  bw_orders_capacity : Z.of_nat (length (all_orders a)) <= a_order_capacity a;
  bw_levels_capacity :
    Z.of_nat (size (prices (a_bids a)) + size (prices (a_asks a))) <= a_level_capacity a
}.

(** ** The fills of an incoming order *)
Fixpoint sum_qty (l : list MEOrder) : Z :=
  match l with
  | [] => 0
  | x :: l' => o_qty x + sum_qty l'
  end.

Definition full (x : MEOrder) : MEOrder * Z := (x, o_qty x).

Lemma sum_qty_nonneg l : Forall (λ x, 0 < o_qty x) l -> 0 <= sum_qty l.
Proof. induction 1; cbn; lia. Qed.

(** The orders met are a prefix [l1] of the list, all traded completely, and
    possibly the next one, traded partly. *)
Inductive fill_shape (s : Side) (p leaves : Z) (l1 l2 : list MEOrder) :
    list (MEOrder * Z) -> Z -> list MEOrder -> Prop :=
  | fill_whole :
      0 <= leaves - sum_qty l1 ->
      (leaves = sum_qty l1 \/
       forall x, head l2 = Some x -> MEOrderBook.too_far s p (o_price x) = true) ->
      fill_shape s p leaves l1 l2 (full <$> l1) (leaves - sum_qty l1) l2
  | fill_part x l2' :
      l2 = x :: l2' -> MEOrderBook.too_far s p (o_price x) = false ->
      0 < leaves - sum_qty l1 < o_qty x ->
      fill_shape s p leaves l1 l2 ((full <$> l1) ++ [(x, leaves - sum_qty l1)]) 0
        (set_o_qty (o_qty x - (leaves - sum_qty l1)) x :: l2').

Lemma fill_cases s p leaves l fs lv rest :
  fill s p leaves l = (fs, lv, rest) -> 0 <= leaves -> Forall (λ x, 0 < o_qty x) l ->
  exists l1 l2, l = l1 ++ l2 /\
    Forall (λ x, MEOrderBook.too_far s p (o_price x) = false) l1 /\
    fill_shape s p leaves l1 l2 fs lv rest.
Proof.
  intros Hf Hl Hq. revert leaves fs lv rest Hf Hl. induction Hq as [|x l Hx Hq IH];
    intros leaves fs lv rest Hf Hl; cbn [fill] in Hf.
  - injection Hf as <- <- <-. exists [], []. split; [done|]. split; [constructor|].
    replace leaves with (leaves - sum_qty []) at 2 by (cbn; lia). apply fill_whole; [cbn; lia|].
    right. done.
  - destruct (leaves =? 0) eqn:E0.
    { cbn in Hf. injection Hf as <- <- <-. exists [], (x :: l). split; [done|]. split; [constructor|].
      apply Z.eqb_eq in E0 as ->. apply (fill_whole _ _ 0 []); [cbn; lia|by left]. }
    destruct (MEOrderBook.too_far s p (o_price x)) eqn:Et.
    { cbn in Hf. injection Hf as <- <- <-. exists [], (x :: l). split; [done|]. split; [constructor|].
      replace leaves with (leaves - sum_qty []) at 2 by (cbn; lia). apply fill_whole; [cbn; lia|].
      right. intros y [= <-]. done. }
    apply Z.eqb_neq in E0. cbn [orb] in Hf. destruct (o_qty x - Z.min leaves (o_qty x) =? 0) eqn:Eq.
    + apply Z.eqb_eq in Eq. assert (Hm : Z.min leaves (o_qty x) = o_qty x) by lia. rewrite Hm in Hf.
      destruct (fill s p (leaves - o_qty x) l) as [[fs' lv'] rest'] eqn:Ef. injection Hf as <- <- <-.
      destruct (IH _ _ _ _ Ef) as (l1 & l2 & -> & Hn & Hs); [lia|].
      exists (x :: l1), l2. split; [done|]. split; [by constructor|].
      assert (Hsum : leaves - sum_qty (x :: l1) = leaves - o_qty x - sum_qty l1) by (cbn; lia).
      destruct Hs as [H1 H2|y l2' -> H2 H3].
      * rewrite <- Hsum. change ((x, o_qty x) :: (full <$> l1)) with (full <$> x :: l1).
        apply fill_whole; [lia|]. destruct H2 as [H2|H2]; [left; cbn; lia|by right].
      * rewrite <- Hsum in *. rewrite app_comm_cons.
        change ((x, o_qty x) :: (full <$> l1)) with (full <$> x :: l1). by apply fill_part.
    + apply Z.eqb_neq in Eq. assert (Hm : Z.min leaves (o_qty x) = leaves) by lia. rewrite Hm in Hf.
      injection Hf as <- <- <-. exists [], (x :: l). split; [done|]. split; [constructor|].
      replace (leaves - leaves) with 0 by lia.
      pose proof (fill_part s p leaves [] (x :: l) x l eq_refl Et) as Hp. cbn [sum_qty] in Hp.
      rewrite Z.sub_0_r in Hp. apply Hp. lia.
Qed.

(** What remains is a suffix of the list, the head with a smaller quantity. *)
Lemma fill_rest s p leaves l fs lv rest :
  fill s p leaves l = (fs, lv, rest) -> 0 <= leaves -> Forall (λ x, 0 < o_qty x) l ->
  0 <= lv <= leaves /\
  exists l1 l2, l = l1 ++ l2 /\
    (rest = l2 \/ exists x l2' q, l2 = x :: l2' /\ rest = set_o_qty q x :: l2' /\ 0 < q < o_qty x).
Proof.
  intros Hf Hl Hq. destruct (fill_cases _ _ _ _ _ _ _ Hf Hl Hq) as (l1 & l2 & -> & _ & Hs).
  apply Forall_app in Hq as [Hq1 _]. pose proof (sum_qty_nonneg _ Hq1).
  destruct Hs as [H1 H2|x l2' E H1 H2]; [|subst l2].
  - split; [lia|]. exists l1, l2. auto.
  - split; [lia|]. exists l1, (x :: l2'). split; [done|]. right. eexists x, l2', _.
    split; [done|]. split; [done|]. lia.
Qed.

Lemma fill_rest_fmap {B} (f : MEOrder -> B) s p leaves l fs lv rest :
  (forall q x, f (set_o_qty q x) = f x) ->
  fill s p leaves l = (fs, lv, rest) -> 0 <= leaves -> Forall (λ x, 0 < o_qty x) l ->
  exists k, f <$> l = k ++ (f <$> rest).
Proof.
  intros Hqty Hf Hl Hq. destruct (fill_rest _ _ _ _ _ _ _ Hf Hl Hq) as (_ & l1 & l2 & -> & Hr).
  exists (f <$> l1). rewrite fmap_app. f_equal.
  destruct Hr as [->|(x & l2' & q & -> & -> & _)]; [done|]. cbn [fmap list_fmap]. by rewrite Hqty.
Qed.

Lemma fill_rest_elem s p leaves l fs lv rest x :
  fill s p leaves l = (fs, lv, rest) -> 0 <= leaves -> Forall (λ x, 0 < o_qty x) l ->
  x ∈ rest -> exists y q, y ∈ l /\ x = set_o_qty q y /\ 0 < q <= o_qty y.
Proof.
  intros Hf Hl Hq Hx. destruct (fill_rest _ _ _ _ _ _ _ Hf Hl Hq) as (_ & l1 & l2 & -> & Hr).
  rewrite Forall_forall in Hq.
  assert (Hid : forall y, y ∈ l1 ++ l2 -> exists z q, z ∈ l1 ++ l2 /\ y = set_o_qty q z /\ 0 < q <= o_qty z).
  { intros y Hy. exists y, (o_qty y). split; [done|]. split; [by destruct y|].
    specialize (Hq y Hy). lia. }
  destruct Hr as [->|(y & l2' & q & -> & -> & Hlt)].
  - apply Hid, elem_of_app. by right.
  - apply elem_of_cons in Hx as [->|Hx].
    + exists y, q. split; [apply elem_of_app; right; by left|]. split; [done|lia].
    + apply Hid. rewrite elem_of_app, elem_of_cons. auto.
Qed.

Lemma fill_members s p leaves l fs lv rest x q :
  fill s p leaves l = (fs, lv, rest) -> (x, q) ∈ fs -> x ∈ l.
Proof.
  revert leaves fs lv rest. induction l as [|y l IH]; intros leaves fs lv rest Hf Hin; cbn [fill] in Hf.
  - injection Hf as <- <- <-. set_solver.
  - destruct ((leaves =? 0) || _); [injection Hf as <- <- <-; set_solver|].
    destruct (o_qty y - Z.min leaves (o_qty y) =? 0).
    + destruct (fill s p _ l) as [[fs' lv'] rest'] eqn:Ef. injection Hf as <- <- <-.
      apply elem_of_cons in Hin as [[= <- _]|Hin]; [by left|right; by eapply IH].
    + injection Hf as <- <- <-. apply list_elem_of_singleton in Hin as [= <- _]. by left.
Qed.

Lemma prices_suffix (l l' : list MEOrder) k :
  o_price <$> l = k ++ (o_price <$> l') -> prices l' ⊆ prices l.
Proof.
  intros E p. unfold prices. rewrite !elem_of_list_to_set.
  change (bo_price <$> l) with (o_price <$> l). change (bo_price <$> l') with (o_price <$> l').
  rewrite E, elem_of_app. by right.
Qed.
