(* ===== verification/BookRefinement.v ===== *)
(** The order book implements the reference book.

    [refines b a G] relates a pointer book to an abstract one, the ghost [G]
    being its levels.  Every operation of [MatchBook] succeeds on a related
    pair and gives a related pair and the same events. *)
From S2P Require Import Prelude.
From S2P Require Import Types.
From S2P Require Import MemPool.
From S2P Require Import Ring.
From S2P Require Import PriceLevels.
From S2P Require Import LevelsView.
From S2P Require Import MatchBook.
From S2P Require Import BookSpec.
From stdpp Require Import functions base gmap list sorting.
From Stdlib Require Import ZArith Lia.

Local Open Scope Z_scope.

Abbreviation blocks b := (pool_blocks (lv_orders (bk_levels b))).

Record refines (b : MEOrderBook) (a : Book) (G : Side -> list GLevel) : Prop := {
  rf_levels : levels_ok (bk_levels b) G None;
  rf_side s : valid_side s -> side_of s a = resting (blocks b) (G s);
  rf_index k p : bk_orders b !! k = Some p <-> exists x, blocks b !! p = Some x /\ okey x = k;
  rf_ticker : bk_ticker_id b = a_ticker_id a;
  rf_last : bk_last b = a_last a;
  rf_next : bk_next_id b = a_next_id a;
  rf_used : bk_used b = a_used a;
  rf_order_capacity : pool_capacity (lv_orders (bk_levels b)) = a_order_capacity a;
  rf_level_capacity : pool_capacity (lv_levels (bk_levels b)) = a_level_capacity a;
  rf_capacity : 0 <= a_order_capacity a /\ 0 <= a_level_capacity a
}.

(** What the code needs of a resting order to trade with it. *)
Definition tradable (x : MEOrder) : Prop :=
  o_client_id x < ME_MAX_NUM_CLIENTS /\ 0 < o_qty x <= INT32_MAX.

(** The operations of the pointer book, as requests. *)
Definition book_step (op : BookOp) (b : MEOrderBook) : res MEOrderBook :=
  match op with
  | OpAdd c o t s p q => MEOrderBook.add c o t s p q b
  | OpCancel c o t => MEOrderBook.cancel c o t b
  | OpQuery c o => Ok (MEOrderBook.query c o b)
  end.

Definition book_run (ops : list BookOp) (b : MEOrderBook) : res MEOrderBook :=
  res_fold (λ b op, book_step op b) ops b.

(** ** Abstract updates *)
Lemma valid_opposite s : valid_side s -> valid_side (opposite s).
Proof. intros [->| ->]; [right|left]; done. Qed.

Lemma opposite_ne s : valid_side s -> opposite s <> s.
Proof. by intros [->| ->]. Qed.

Lemma side_of_set_side s s' l a :
  valid_side s -> valid_side s' ->
  side_of s (set_side s' l a) = if decide (s = s') then l else side_of s a.
Proof. intros [->| ->] [->| ->]; done. Qed.

Lemma set_side_set_side s l l' a : set_side s l (set_side s l' a) = set_side s l a.
Proof. unfold set_side. by case_decide. Qed.

Ltac side_simpl :=
  change (opposite BUY) with SELL in *; change (opposite SELL) with BUY in *;
  repeat match goal with
  | |- context [side_of BUY ?a] => change (side_of BUY a) with (a_bids a)
  | |- context [side_of SELL ?a] => change (side_of SELL a) with (a_asks a)
  | |- context [a_bids (set_side BUY ?l ?a)] => change (a_bids (set_side BUY l a)) with l
  | |- context [a_asks (set_side BUY ?l ?a)] =>
      change (a_asks (set_side BUY l a)) with (a_asks a)
  | |- context [a_bids (set_side SELL ?l ?a)] =>
      change (a_bids (set_side SELL l a)) with (a_bids a)
  | |- context [a_asks (set_side SELL ?l ?a)] => change (a_asks (set_side SELL l a)) with l
  | H : context [side_of BUY ?a] |- _ => change (side_of BUY a) with (a_bids a) in H
  | H : context [side_of SELL ?a] |- _ => change (side_of SELL a) with (a_asks a) in H
  | H : context [a_bids (set_side BUY ?l ?a)] |- _ => change (a_bids (set_side BUY l a)) with l in H
  | H : context [a_asks (set_side BUY ?l ?a)] |- _ =>
      change (a_asks (set_side BUY l a)) with (a_asks a) in H
  | H : context [a_bids (set_side SELL ?l ?a)] |- _ =>
      change (a_bids (set_side SELL l a)) with (a_bids a) in H
  | H : context [a_asks (set_side SELL ?l ?a)] |- _ => change (a_asks (set_side SELL l a)) with l in H
  end.

Lemma set_side_same s a : set_side s (side_of s a) a = a.
Proof. unfold set_side, side_of. by destruct a; case_decide. Qed.

Lemma publish_app e1 e2 a : publish (e1 ++ e2) a = publish e2 (publish e1 a).
Proof. unfold publish. by rewrite foldl_app. Qed.

Lemma publish_nil a : publish [] a = a.
Proof. by destruct a. Qed.

Lemma set_side_publish s l e a : set_side s l (publish e a) = publish e (set_side s l a).
Proof. unfold set_side, publish. by case_decide. Qed.

Lemma set_side_accept s l c o a : set_side s l (accept c o a) = accept c o (set_side s l a).
Proof. unfold set_side. by case_decide. Qed.

Lemma side_of_publish s e a : side_of s (publish e a) = side_of s a.
Proof. done. Qed.

Lemma set_links_strip (x : MEOrder) : okey (strip x) = okey x.
Proof. done. Qed.

Lemma strip_okey (x y : MEOrder) : strip x = strip y -> okey x = okey y.
Proof. intros E. by rewrite <- (set_links_strip x), E. Qed.

Lemma record_update m (u : MEMarketUpdate) : record_event m (Market u) = m.
Proof. done. Qed.

Section Refinement.

Lemma published_refines b b' a G evs :
  refines b a G -> bk_levels b' = bk_levels b -> bk_orders b' = bk_orders b ->
  bk_ticker_id b' = bk_ticker_id b -> bk_next_id b' = bk_next_id b -> bk_used b' = bk_used b ->
  bk_last b' = foldl record_event (bk_last b) evs ->
  refines b' (publish evs a) G.
Proof.
  intros [] H1 H2 H3 H4 H5 H6. split; rewrite ?H1, ?H2, ?H3, ?H4, ?H5, ?H6; try done.
  cbn. by rewrite rf_last0.
Qed.

Lemma refines_live b a G s x :
  refines b a G -> valid_side s ->
  x ∈ side_of s a <-> exists p y, blocks b !! p = Some y /\ o_side y = s /\ strip y = x.
Proof.
  intros R Hs. rewrite (rf_side _ _ _ R) by done. rewrite elem_of_resting.
  pose proof (rf_levels _ _ _ R) as Hok. split.
  - intros (o & Ho & (y & Hy & Hx)%data_lookup).
    destruct (ptrs_order _ _ _ Hok o s Ho) as (y' & Hy' & Hside).
    exists o, y. split_and!; [done| |done]. cbn in Hside. congruence.
  - intros (o & y & Hy & Hside & <-). exists o. split; [|by apply data_lookup_eq].
    destruct (order_ptrs _ _ _ Hok o y Hy) as [?|Hin]; [done|]. by rewrite <- Hside.
Qed.

(** Two live orders have different keys. *)
Lemma refines_key_inj b a G p q x y :
  refines b a G -> blocks b !! p = Some x -> blocks b !! q = Some y -> okey x = okey y -> p = q.
Proof.
  intros R Hx Hy Hk.
  assert (H1 : bk_orders b !! okey x = Some p) by (apply (rf_index _ _ _ R); eauto).
  assert (H2 : bk_orders b !! okey x = Some q) by (apply (rf_index _ _ _ R); eauto).
  congruence.
Qed.

(** Dropping a pointer is dropping the order with its key. *)
Lemma drop_ptrs (m m' : gmap Z MEOrder) o k (l : list Z) :
  (forall p, data m' p = if decide (p = o) then None else data m p) ->
  (forall p, p ∈ l -> exists x, data m p = Some x /\ (okey x = k <-> p = o)) ->
  omap (data m') (List.filter (λ p, negb (p =? o)) l) = drop_order k (omap (data m) l).
Proof.
  intros Hm. induction l as [|p l IH]; intros Hl; [done|].
  destruct (Hl p ltac:(by left)) as (x & Hx & Hk). cbn [List.filter omap list_omap]. rewrite Hx.
  unfold drop_order. cbn [List.filter]. destruct (Z.eqb_spec p o) as [->|Hne]; cbn [negb].
  - rewrite bool_decide_true by tauto. cbn [negb]. apply IH. intros q Hq. apply Hl. by right.
  - rewrite bool_decide_false by tauto. cbn [negb omap list_omap]. rewrite Hm, decide_False, Hx by done.
    f_equal. apply IH. intros q Hq. apply Hl. by right.
Qed.

Lemma removeOrder_refines b a G o x :
  refines b a G -> blocks b !! o = Some x -> o_client_id x < ME_MAX_NUM_CLIENTS ->
  exists b' G', MEOrderBook.removeOrder o b = Ok b' /\
    refines b' (set_side (o_side x) (drop_order (okey x) (side_of (o_side x) a)) a) G' /\
    bk_events b' = bk_events b.
Proof.
  intros R Hx Hcl. pose proof (rf_levels _ _ _ R) as Hok.
  destruct (remove_content _ _ _ _ Hok Hx) as (l1 & x1 & p2 & G' & Hd & Hx1 & Hstrip & Hp2 & Hrm).
  assert (Hvs : valid_side (o_side x)).
  { destruct (order_ptrs _ _ _ Hok o x Hx) as [?|(g & Hg & _)%elem_of_ptrs]; [done|].
    by apply (ghost_valid _ _ _ Hok _ _ Hg). }
  assert (Hk1 : okey x1 = okey x) by (by apply strip_okey).
  unfold MEOrderBook.removeOrder. rewrite Hd. cbn [mbind res_bind].
  cbn [MEOrderBook.with_levels bk_levels]. rewrite (load_Some _ _ _ Hx1). cbn [mbind res_bind].
  unfold okey in Hk1. injection Hk1 as Hc1 Ho1. rewrite Hc1, Ho1.
  rewrite (proj2 (Z.ltb_lt _ _)) by done. cbn [ASSERT mbind res_bind].
  cbn [MEOrderBook.with_orders MEOrderBook.with_levels bk_levels]. rewrite Hp2. cbn [mbind res_bind].
  eexists _, G'. split; [done|]. split; [|done].
  split; cbn [bk_levels bk_orders bk_ticker_id bk_last bk_next_id bk_used MEOrderBook.with_levels
    MEOrderBook.with_orders].
  - apply Hrm.
  - intros s Hs. rewrite side_of_set_side by done. unfold resting.
    rewrite (rm_ptrs _ _ _ _ _ _ Hrm). change (bo_side x) with (o_side x). case_decide as E.
    + rewrite (rf_side _ _ _ R) by done. rewrite <- E. symmetry. apply drop_ptrs.
      * apply (rm_data _ _ _ _ _ _ Hrm).
      * intros p Hp. destruct (ptrs_order _ _ _ Hok p s Hp) as (y & Hy & _).
        exists (strip y). split; [by apply data_lookup_eq|]. rewrite set_links_strip. split.
        -- intros Hk. by apply (refines_key_inj _ _ _ _ _ _ _ R Hy Hx).
        -- intros ->. congruence.
    + rewrite (rf_side _ _ _ R) by done. symmetry. apply resting_ext. intros p Hp.
      rewrite (rm_data _ _ _ _ _ _ Hrm), decide_False; [done|]. intros ->.
      destruct (ptrs_order _ _ _ Hok o s Hp) as (y & Hy & Hys). rewrite Hx in Hy.
      injection Hy as <-. by apply E.
  - intros k p. rewrite lookup_delete_Some, (rf_index _ _ _ R).
    pose proof (rm_data _ _ _ _ _ _ Hrm p) as Hdp. cbn [set_orders lv_orders] in Hdp |- *. split.
    + intros (Hne & y & Hy & Hyk). case_decide as E.
      { subst p. rewrite Hx in Hy. injection Hy as <-. by destruct Hne. }
      rewrite (data_lookup_eq _ _ _ Hy) in Hdp. apply data_lookup in Hdp as (z & Hz & Hzs).
      exists z. split; [done|]. rewrite <- Hyk. by apply strip_okey.
    + intros (z & Hz & Hzk). rewrite (data_lookup_eq _ _ _ Hz) in Hdp.
      case_decide as E; [done|]. symmetry in Hdp. apply data_lookup in Hdp as (y & Hy & Hys).
      assert (Hyk : okey y = k) by (rewrite <- Hzk; by apply strip_okey).
      split; [|by eauto]. intros Heq. apply E.
      apply (refines_key_inj _ _ _ _ _ _ _ R Hy Hx). rewrite Hyk, <- Heq. done.
  - unfold set_side. case_decide; apply R.
  - unfold set_side. case_decide; apply R.
  - unfold set_side. case_decide; apply R.
  - unfold set_side. case_decide; apply R.
  - rewrite (rm_order_capacity _ _ _ _ _ _ Hrm). unfold set_side. case_decide; apply R.
  - rewrite (rm_level_capacity _ _ _ _ _ _ Hrm). unfold set_side. case_decide; apply R.
  - unfold set_side. case_decide; apply R.
Qed.

(** The new quantity of the order at the head of a side. *)
Lemma store_qty_refines b a G s o os x l f :
  refines b a G -> valid_side s -> ptrs (G s) = o :: os -> blocks b !! o = Some x ->
  side_of s a = strip x :: l ->
  (forall y, f y = set_o_qty (o_qty (f y)) y) ->
  exists p', store o f (lv_orders (bk_levels b)) = Ok p' /\
    let b' := MEOrderBook.with_levels (set_orders p' (bk_levels b)) b in
    blocks b' !! o = Some (f x) /\
    refines b' (set_side s (set_o_qty (o_qty (f x)) (strip x) :: l) a) G.
Proof.
  intros R Hs Hp Hx Hside Hf. pose proof (rf_levels _ _ _ R) as Hok.
  assert (Hfx : o_side (f x) = o_side x /\ o_price (f x) = o_price x /\ okey (f x) = okey x /\
    o_prev (f x) = o_prev x /\ o_next (f x) = o_next x) by (by rewrite (Hf x)).
  destruct Hfx as (F1 & F2 & F3 & F4 & F5).
  destruct (levels_ok_store _ _ _ _ f Hok Hx F1 F2 F4 F5) as (p' & Hst & Hb & Hok' & Hcap).
  exists p'. split; [done|]. cbn. split; [by rewrite Hb, lookup_insert_eq|].
  destruct (ptrs_order _ _ _ Hok o s) as (x' & Hx' & Hxs); [rewrite Hp; by left|].
  rewrite Hx in Hx'. injection Hx' as <-.
  assert (Hno : forall s', valid_side s' -> s' <> s -> o ∉ ptrs (G s')).
  { intros s' _ Hne Hin. destruct (ptrs_order _ _ _ Hok o s' Hin) as (y & Hy & Hys).
    rewrite Hx in Hy. injection Hy as <-. congruence. }
  destruct R. split; cbn [bk_levels bk_orders bk_ticker_id bk_last bk_next_id bk_used
    MEOrderBook.with_levels set_orders lv_orders lv_levels]; try done.
  - intros s' Hs'. rewrite side_of_set_side by done. case_decide as E.
    + rewrite E. unfold resting. rewrite Hp. cbn [omap list_omap]. rewrite Hb, data_insert, decide_True by done.
      rewrite rf_side0 in Hside by done. unfold resting in Hside. rewrite Hp in Hside.
      cbn [omap list_omap] in Hside. rewrite (data_lookup_eq _ _ _ Hx) in Hside.
      injection Hside as Hside. rewrite <- Hside. f_equal.
      * symmetry. etransitivity; [exact (f_equal strip (Hf x))|done].
      * assert (Hnd : NoDup (o :: os)) by (rewrite <- Hp; by eapply ptrs_NoDup).
        apply NoDup_cons in Hnd as [Hnin _]. clear -Hnin. induction os as [|q os IH]; [done|].
        cbn. rewrite data_insert, decide_False by (intros ->; apply Hnin; by left).
        rewrite IH; [done|]. intros ?. apply Hnin. by right.
    + rewrite rf_side0 by done. symmetry. apply resting_ext. intros q Hq. rewrite Hb, data_insert.
      rewrite decide_False; [done|]. intros <-. by eapply Hno.
  - intros k q. rewrite rf_index0, Hb. split; intros (y & Hy & Hk).
    + destruct (decide (o = q)) as [<-|Hne].
      * exists (f x). rewrite lookup_insert_eq. split; [done|]. congruence.
      * exists y. by rewrite lookup_insert_ne.
    + destruct (decide (o = q)) as [<-|Hne].
      * rewrite lookup_insert_eq in Hy. injection Hy as <-. exists x. split; [done|congruence].
      * rewrite lookup_insert_ne in Hy by done. eauto.
  - unfold set_side. by case_decide.
  - unfold set_side. by case_decide.
  - unfold set_side. by case_decide.
  - unfold set_side. by case_decide.
  - rewrite Hcap. unfold set_side. by case_decide.
  - unfold set_side. by case_decide.
  - unfold set_side. by case_decide.
Qed.

Lemma drop_order_absent k l : (forall x, x ∈ l -> okey x <> k) -> drop_order k l = l.
Proof.
  induction l as [|x l IH]; intros Hl; [done|]. unfold drop_order. cbn [List.filter].
  rewrite bool_decide_false by (apply Hl; by left). cbn [negb]. f_equal. apply IH.
  intros y Hy. apply Hl. by right.
Qed.

Lemma refines_NoDup b a G s :
  refines b a G -> valid_side s -> NoDup (okey <$> side_of s a).
Proof.
  intros R Hs. rewrite (rf_side _ _ _ R) by done. pose proof (rf_levels _ _ _ R) as Hok.
  pose proof (ptrs_NoDup _ _ _ Hok s) as Hnd. unfold resting.
  assert (Hin : forall p, p ∈ ptrs (G s) -> exists x, blocks b !! p = Some x).
  { intros p (x & Hx & _)%(ptrs_order _ _ _ Hok). eauto. }
  revert Hnd Hin. generalize (ptrs (G s)). intros l. induction 1 as [|p l Hp Hnd IH]; intros Hin.
  { constructor. }
  destruct (Hin p ltac:(by left)) as [x Hx]. cbn [omap list_omap].
  rewrite (data_lookup_eq _ _ _ Hx). cbn [fmap list_fmap]. constructor.
  - intros (y & Hk & (q & Hq & (z & Hz & <-)%data_lookup)%list_elem_of_omap)%list_elem_of_fmap.
    assert (p = q) as <-; [|done]. by apply (refines_key_inj _ _ _ _ _ _ _ R Hx Hz).
  - apply IH. intros q Hq. apply Hin. by right.
Qed.

Lemma drop_order_head b a G s x l :
  refines b a G -> valid_side s -> side_of s a = x :: l -> drop_order (okey x) (x :: l) = l.
Proof.
  intros R Hs E. pose proof (refines_NoDup _ _ _ _ R Hs) as Hnd. rewrite E in Hnd.
  apply NoDup_cons in Hnd as [Hk _]. unfold drop_order. cbn [List.filter].
  rewrite bool_decide_true by done. cbn [negb]. apply drop_order_absent.
  intros y Hy Heq. apply Hk. rewrite <- Heq. by apply list_elem_of_fmap_2.
Qed.

(** One fill. *)
Lemma match_order_refines t c s o id leaves b a G itr os x l :
  refines b a G -> valid_side s -> 0 < leaves < 2 ^ 32 ->
  ptrs (G (opposite s)) = itr :: os -> blocks b !! itr = Some x ->
  side_of (opposite s) a = strip x :: l -> tradable x ->
  let q := Z.min leaves (o_qty x) in
  exists b' G', MEOrderBook.match_order t c s o id itr leaves b = Ok (leaves - q, b') /\
    refines b' (publish (fill_events t c s o id leaves (strip x) q)
      (set_side (opposite s) (if o_qty x - q =? 0 then l
                              else set_o_qty (o_qty x - q) (strip x) :: l) a)) G' /\
    bk_events b' = bk_events b ++ fill_events t c s o id leaves (strip x) q.
Proof.
  intros R Hs Hl Hp Hx Hside [Hcl Hqty] q.
  assert (Hq : 0 < q <= leaves /\ q <= o_qty x) by lia.
  assert (HI : INT32_MAX < 2 ^ 32) by done.
  pose proof (valid_opposite _ Hs) as Hso.
  unfold MEOrderBook.match_order. rewrite (load_Some _ _ _ Hx). cbn [mbind res_bind].
  fold q. rewrite (u32_small (leaves - q)) by lia.
  destruct (store_qty_refines b a G _ itr os x l (λ o, set_o_qty (u32 (o_qty o - q)) o)
    R Hso Hp Hx Hside) as (p' & -> & Hx' & R1); [done|].
  cbn [mbind res_bind set_o_qty o_qty]. rewrite (load_Some _ _ _ Hx').
  cbn [o_qty set_o_qty] in R1, Hx'. rewrite u32_small in R1, Hx' |- * by lia.
  set (b1 := MEOrderBook.with_levels _ b) in *.
  assert (E1 : bk_events b1 = bk_events b) by done. clearbody b1. clear R.
  cbv zeta. cbn [mbind res_bind set_o_qty o_qty o_client_id o_client_order_id o_market_order_id
    o_side o_price o_priority].
  unfold fill_events. change (o_qty (strip x)) with (o_qty x).
  destruct (o_qty x - q =? 0) eqn:Hz.
  - match goal with |- context [MEOrderBook.removeOrder itr ?bb] =>
      destruct (removeOrder_refines bb (publish (fill_events t c s o id leaves (strip x) q)
        (set_side (opposite s) (set_o_qty (o_qty x - q) (strip x) :: l) a)) G itr
        (set_o_qty (o_qty x - q) x)) as (b' & G' & Hrm & R' & E')
    end; [|exact Hx'|exact Hcl|].
    { eapply published_refines; [exact R1|done..|]. unfold fill_events.
      change (o_qty (strip x)) with (o_qty x). by rewrite Hz. }
    rewrite Hrm. cbn [mbind res_bind]. exists b', G'. split; [done|].
    assert (Hxs : o_side (set_o_qty (o_qty x - q) x) = opposite s).
    { destruct (ptrs_order _ _ _ (rf_levels _ _ _ R1) itr (opposite s)) as (y & Hy & Hys);
        [rewrite Hp; by left|]. rewrite Hx' in Hy. injection Hy as <-. done. }
    rewrite Hxs, side_of_publish, side_of_set_side, decide_True in R' by done.
    change (okey (set_o_qty (o_qty x - q) x)) with (okey (set_o_qty (o_qty x - q) (strip x))) in R'.
    erewrite drop_order_head in R'; [|exact R1|done|].
    2:{ by rewrite side_of_set_side, decide_True by done. }
    rewrite set_side_publish, set_side_set_side in R'. unfold fill_events in R'.
    change (o_qty (strip x)) with (o_qty x) in R'. rewrite Hz in R'. split; [exact R'|].
    rewrite E'. cbn. rewrite E1, <- !app_assoc. done.
  - eexists _, G. split; [done|]. split; [by eapply published_refines|].
    cbn. rewrite E1, <- !app_assoc. done.
Qed.

Lemma set_o_qty_tradable x q :
  tradable x -> 0 < q <= INT32_MAX -> tradable (set_o_qty q x).
Proof. intros [? _] ?. done. Qed.

(** The loop of [checkForMatch] against the list of the opposite side. *)
Lemma match_loop_refines fuel t c s o id p leaves b a G l :
  refines b a G -> valid_side s -> 0 <= leaves < 2 ^ 32 ->
  side_of (opposite s) a = l -> Forall tradable l -> (length l < fuel)%nat ->
  let '(fills, lv, rest) := fill s p leaves l in
  exists b' G', MEOrderBook.match_loop fuel c o t s p leaves id b = Ok (lv, b') /\
    refines b' (publish (fills_events t c s o id leaves fills) (set_side (opposite s) rest a)) G' /\
    bk_events b' = bk_events b ++ fills_events t c s o id leaves fills.
Proof.
  revert fuel leaves b a G. induction l as [|x l IH]; intros [|fuel] leaves b a G R Hs Hl Hside Ht Hf;
    try (cbn in Hf; lia).
  - cbn [fill fills_events]. exists b, G. rewrite app_nil_r, publish_nil.
    rewrite <- Hside, set_side_same. split; [|done]. cbn [MEOrderBook.match_loop].
    case_match; [done|].
    destruct (best_content _ _ _ (opposite s) (rf_levels _ _ _ R) (valid_opposite _ Hs))
      as [(Hb & _)|(? & ? & ? & ? & ? & _ & _ & _ & _ & _ & _ & Hr)].
    + unfold opposite in Hb. by rewrite Hb.
    + rewrite (rf_side _ _ _ R), Hr in Hside by (by apply valid_opposite). done.
  - inversion_clear Ht as [|? ? Hx Ht']. cbn [fill MEOrderBook.match_loop].
    assert (Hstop : exists b' G', Ok (leaves, b) = Ok (leaves, b') /\
      refines b' (publish (fills_events t c s o id leaves []) (set_side (opposite s) (x :: l) a)) G' /\
      bk_events b' = bk_events b ++ fills_events t c s o id leaves []).
    { exists b, G. cbn [fills_events]. rewrite app_nil_r, publish_nil, <- Hside, set_side_same. done. }
    destruct (leaves =? 0) eqn:E0; [done|]. cbn [orb].
    destruct (best_content _ _ _ (opposite s) (rf_levels _ _ _ R) (valid_opposite _ Hs))
      as [(_ & _ & Hr)|(lp & v & itr & y & os & Hb & Hv & Hfst & Hy & Hys & Hp & Hr)].
    { rewrite (rf_side _ _ _ R), Hr in Hside by (by apply valid_opposite). done. }
    unfold opposite in Hb. rewrite Hb, (load_Some _ _ _ Hv). cbn [mbind res_bind].
    rewrite Hfst. cbn [deref mbind res_bind]. rewrite (load_Some _ _ _ Hy). cbn [mbind res_bind].
    pose proof Hside as Hside'. rewrite (rf_side _ _ _ R), Hr in Hside' by (by apply valid_opposite).
    assert (Hyx : strip y = x) by (injection Hside'; done). clear Hside'. change (o_price y) with (o_price (strip y)). rewrite Hyx.
    destruct (MEOrderBook.too_far s p (o_price x)); [done|].
    assert (Hleaves : 0 < leaves < 2 ^ 32) by lia.
    assert (Hty : tradable y) by (rewrite <- Hyx in Hx; exact Hx).
    assert (Hside2 : side_of (opposite s) a = strip y :: l) by (rewrite Hside, Hyx; done).
    destruct (match_order_refines t c s o id leaves b a G itr os y l R Hs Hleaves Hp Hy Hside2 Hty)
      as (b1 & G1 & -> & R1 & E1).
    cbn [mbind res_bind]. change (o_qty y) with (o_qty (strip y)) in *. rewrite Hyx in R1, E1 |- *.
    set (q := Z.min leaves (o_qty x)) in *.
    pose proof (valid_opposite _ Hs) as Hso. pose proof (proj2 Hx) as Hxq.
    destruct (o_qty x - q =? 0) eqn:Eq.
    + specialize (IH fuel (leaves - q) b1 _ G1 R1 Hs).
      rewrite side_of_publish, side_of_set_side, decide_True in IH by done.
      destruct (fill s p (leaves - q) l) as [[fills lv] rest] eqn:Ef.
      destruct IH as (b' & G' & -> & R' & E'); [unfold q; lia|done|done|cbn in Hf; lia|].
      exists b', G'. split; [done|]. split.
      * cbn [fills_events]. rewrite publish_app.
        rewrite set_side_publish, set_side_set_side in R'. done.
      * rewrite E', E1, <- app_assoc. done.
    + assert (Hq : q = leaves) by (apply Z.eqb_neq in Eq; unfold q in *; lia). destruct fuel as [|fuel]; [cbn in Hf; lia|].
      cbn [MEOrderBook.match_loop]. rewrite (proj2 (Z.eqb_eq (leaves - q) 0)) by lia.
      exists b1, G1. cbn [fills_events]. rewrite app_nil_r. done.
Qed.

Lemma checkForMatch_refines t c s o id p leaves b a G :
  refines b a G -> valid_side s -> 0 <= leaves < 2 ^ 32 ->
  Forall tradable (side_of (opposite s) a) ->
  let '(fills, lv, rest) := fill s p leaves (side_of (opposite s) a) in
  exists b' G', MEOrderBook.checkForMatch c o t s p leaves id b = Ok (lv, b') /\
    refines b' (publish (fills_events t c s o id leaves fills) (set_side (opposite s) rest a)) G' /\
    bk_events b' = bk_events b ++ fills_events t c s o id leaves fills.
Proof.
  intros R Hs Hl Ht. unfold MEOrderBook.checkForMatch. rewrite decide_True by done.
  apply (match_loop_refines _ t c s o id p leaves b a G); try done.
  rewrite (orders_count _ _ (rf_levels _ _ _ R)), (rf_side _ _ _ R) by (by apply valid_opposite).
  erewrite resting_length by apply R.
  destruct Hs as [-> | ->]; [change (opposite BUY) with SELL|change (opposite SELL) with BUY]; lia.
Qed.

(** ** Capacities *)
Lemma refines_bids b a G : refines b a G -> a_bids a = resting (blocks b) (G BUY).
Proof. intros R. exact (rf_side _ _ _ R BUY (or_introl eq_refl)). Qed.

Lemma refines_asks b a G : refines b a G -> a_asks a = resting (blocks b) (G SELL).
Proof. intros R. exact (rf_side _ _ _ R SELL (or_intror eq_refl)). Qed.

Lemma refines_all_orders b a G :
  refines b a G -> length (all_orders a) = size (blocks b).
Proof.
  intros R. pose proof (rf_levels _ _ _ R) as Hok. rewrite (orders_count _ _ Hok).
  unfold all_orders. rewrite length_app.
  rewrite (refines_bids _ _ _ R), (refines_asks _ _ _ R). by rewrite !(resting_length _ _ _ Hok).
Qed.

Lemma refines_orders_available b a G :
  refines b a G ->
  pool_available (lv_orders (bk_levels b)) = a_order_capacity a - Z.of_nat (length (all_orders a)).
Proof.
  intros R. rewrite (refines_all_orders _ _ _ R), <- (rf_order_capacity _ _ _ R).
  apply pool_available_size; [|apply (lk_pool_orders _ _ _ (rf_levels _ _ _ R))].
  rewrite (rf_order_capacity _ _ _ R). apply (rf_capacity _ _ _ R).
Qed.

Lemma refines_levels_available b a G :
  refines b a G ->
  pool_available (lv_levels (bk_levels b)) =
  a_level_capacity a - Z.of_nat (size (prices (a_bids a)) + size (prices (a_asks a))).
Proof.
  intros R. pose proof (rf_levels _ _ _ R) as Hok. 
  rewrite pool_available_size; [|rewrite (rf_level_capacity _ _ _ R); apply (rf_capacity _ _ _ R)
    |apply (lk_pool_levels _ _ _ Hok)].
  rewrite (levels_count _ _ _ Hok), (rf_level_capacity _ _ _ R).
  rewrite (refines_bids _ _ _ R), (refines_asks _ _ _ R). by rewrite !(prices_size _ _ _ _ Hok).
Qed.

Lemma refines_getOrdersAtPrice b a G s p :
  refines b a G -> valid_side s ->
  getOrdersAtPrice p s (bk_levels b) = None <-> p ∉ prices (side_of s a).
Proof.
  intros R Hs. rewrite (rf_side _ _ _ R) by done.
  rewrite <- (index_prices _ _ _ s p (rf_levels _ _ _ R)), eq_None_not_Some. done.
Qed.

Lemma add_reason_refines c o t s p q b a G :
  refines b a G -> MEOrderBook.add_reason c o t s p q b = spec_reason c o t s p q a.
Proof.
  intros R. unfold MEOrderBook.add_reason, spec_reason.
  rewrite (rf_ticker _ _ _ R), (rf_used _ _ _ R), (rf_next _ _ _ R).
  rewrite (refines_orders_available _ _ _ R), (refines_levels_available _ _ _ R).
  case_match; [done|]. case_match eqn:Es; [done|]. case_match; [done|]. case_match; [done|].
  case_match; [done|].
  assert (Hs : valid_side s).
  { destruct (decide (s = BUY)); [by left|]. destruct (decide (s = SELL)); [by right|].
    rewrite !bool_decide_false in Es by done. done. }
  rewrite (bool_decide_ext _ _ (refines_getOrdersAtPrice _ _ _ s p R Hs)).
  assert (Heqb : forall u v, (u - v =? 0) = (v =? u)) by (intros; lia).
  by rewrite !Heqb.
Qed.

Lemma getNextPriority_refines b a G s p :
  refines b a G -> valid_side s ->
  MEOrderBook.getNextPriority p s b = Ok (next_priority p (side_of s a)).
Proof.
  intros R Hs. unfold MEOrderBook.getNextPriority, next_priority.
  destruct (getOrdersAtPrice p s (bk_levels b)) as [lp|] eqn:E.
  - destruct (level_tail _ _ _ _ _ _ (rf_levels _ _ _ R) E)
      as (v & f & xf & r & y & Hv & Hf & Hxf & Hr & Hy & Hlast).
    rewrite (load_Some _ _ _ Hv). cbn [mbind res_bind]. rewrite Hf. cbn [deref mbind res_bind].
    rewrite (load_Some _ _ _ Hxf). cbn [mbind res_bind]. change (o_prev xf = Some r) in Hr.
    rewrite Hr. cbn [deref mbind res_bind]. rewrite (load_Some _ _ _ Hy). cbn [mbind res_bind].
    by rewrite (rf_side _ _ _ R), Hlast by done.
  - apply (refines_getOrdersAtPrice _ _ _ _ _ R Hs) in E. unfold last_at.
    replace (List.filter _ _) with ([] : list MEOrder); [done|]. symmetry.
    apply elem_of_nil_inv. intros x. rewrite list_elem_of_In, List.filter_In, <- list_elem_of_In.
    intros [Hx Hp]. apply E, elem_of_prices. exists x. split; [done|]. by apply Z.eqb_eq.
Qed.

(** ** Adding a resting order *)
Lemma elem_of_all_orders x a : x ∈ all_orders a <-> exists s, valid_side s /\ x ∈ side_of s a.
Proof.
  unfold all_orders. rewrite elem_of_app. split.
  - intros [?|?]; [exists BUY|exists SELL]; split; by try (left; done) || right.
  - intros (s & [->| ->] & ?); [by left|by right].
Qed.

Lemma refines_order b a G p x :
  refines b a G -> blocks b !! p = Some x -> strip x ∈ all_orders a.
Proof.
  intros R Hx. apply elem_of_all_orders. exists (o_side x).
  assert (Hvs : valid_side (o_side x)).
  { destruct (order_ptrs _ _ _ (rf_levels _ _ _ R) p x Hx) as [?|(g & Hg & _)%elem_of_ptrs]; [done|].
    by apply (ghost_valid _ _ _ (rf_levels _ _ _ R) _ _ Hg). }
  split; [done|]. apply (refines_live _ _ _ _ _ R Hvs). eauto.
Qed.

Lemma addOrder_refines b a G s x :
  refines b a G -> valid_side s -> o_side x = s -> strip x = x ->
  o_client_id x < ME_MAX_NUM_CLIENTS ->
  (forall y, y ∈ all_orders a -> okey y <> okey x) ->
  Z.of_nat (length (all_orders a)) < a_order_capacity a ->
  (o_price x ∉ prices (side_of s a) ->
   Z.of_nat (size (prices (a_bids a)) + size (prices (a_asks a))) < a_level_capacity a) ->
  exists p p' b' G', allocate x (lv_orders (bk_levels b)) = (Some p, p') /\
    MEOrderBook.addOrder p (MEOrderBook.with_levels (set_orders p' (bk_levels b)) b) = Ok b' /\
    refines b' (set_side s (enqueue s x (side_of s a)) a) G' /\ bk_events b' = bk_events b.
Proof.
  intros R Hs Hxs Hstrip Hcl Hkey Hoc Hlc. pose proof (rf_levels _ _ _ R) as Hok.
  destruct (levels_ok_alloc _ _ x Hok) as (p & p' & Hal & Hn & Hb & Hok' & _ & Hcap).
  { rewrite (refines_orders_available _ _ _ R). lia. }
  set (L := set_orders p' (bk_levels b)) in *.
  assert (Hx : pool_blocks (lv_orders L) !! p = Some x) by (cbn; by rewrite Hb, lookup_insert_eq).
  destruct (attach_content L G p x Hok') as (L' & G' & Hat & A); [by rewrite <- Hxs in Hs|done| |].
  { intros Hnone. change (lv_levels L) with (lv_levels (bk_levels b)).
    rewrite (refines_levels_available _ _ _ R). cbn in Hnone. rewrite Hxs in Hnone.
    apply (refines_getOrdersAtPrice b a G s) in Hnone; [|done..]. specialize (Hlc Hnone). lia. }
  pose proof (at_data _ _ _ _ _ A) as Hdata.
  pose proof (Hdata p) as Hx'. rewrite (data_lookup_eq _ _ _ Hx) in Hx'.
  apply data_lookup in Hx' as (x' & Hx' & Hs').
  assert (Hk' : okey x' = okey x) by (by apply strip_okey). pose proof Hk' as Hk''.
  unfold okey in Hk''. injection Hk'' as Hc Ho.
  unfold MEOrderBook.addOrder. exists p, p'. eexists _, G'. split; [done|].
  cbn [MEOrderBook.with_levels bk_levels]. fold L. rewrite Hat. cbn [mbind res_bind].
  rewrite (load_Some _ _ _ Hx'). cbn [mbind res_bind]. rewrite Hc, Ho, (proj2 (Z.ltb_lt _ _)) by done.
  cbn [ASSERT mbind res_bind]. split; [done|]. split; [|done].
  assert (Hold : forall q, q <> p -> data (pool_blocks (lv_orders L')) q = data (blocks b) q).
  { intros q Hq. rewrite Hdata. cbn. by rewrite Hb, data_insert, decide_False. }
  assert (Hnp : forall s' q, q ∈ ptrs (G s') -> q <> p).
  { intros s' q Hq ->. by apply (pend_notin _ _ _ Hok' p s'). }
  destruct R. split; cbn [bk_levels bk_orders bk_ticker_id bk_last bk_next_id bk_used
    MEOrderBook.with_levels MEOrderBook.with_orders].
  - apply A.
  - intros s' Hs''. rewrite side_of_set_side, (at_resting _ _ _ _ _ A) by done.
    change (bo_side x) with (o_side x). rewrite Hxs.
    assert (Hrest : resting (pool_blocks (lv_orders L)) (G s') = resting (blocks b) (G s')).
    { apply resting_ext. intros q Hq. cbn. rewrite Hb, data_insert, decide_False; [done|].
      intros <-. by apply (Hnp s' p). }
    rewrite Hrest, <- !rf_side0 by done. case_decide as E; [|done]. rewrite E.
    exact (f_equal (λ d, enqueue s d (side_of s a)) (eq_sym Hstrip)).
  - intros k q. rewrite lookup_insert_Some. split.
    + intros [[<- <-]|[Hne (y & Hy & Hyk)%rf_index0]]; [by exists x'|].
      assert (Hq : q <> p) by (intros ->; congruence).
      pose proof (Hold q Hq) as Hd. rewrite (data_lookup_eq _ _ _ Hy) in Hd.
      apply data_lookup in Hd as (z & Hz & Hzs). exists z. split; [done|].
      rewrite <- Hyk. by apply strip_okey.
    + intros (z & Hz & Hzk). destruct (decide (q = p)) as [->|Hq].
      * rewrite Hx' in Hz. injection Hz as <-. left. split; [|done].
        rewrite <- Hzk, Hk'. done.
      * right. pose proof (Hold q Hq) as Hd. rewrite (data_lookup_eq _ _ _ Hz) in Hd. symmetry in Hd.
        apply data_lookup in Hd as (y & Hy & Hys).
        assert (Hyk : okey y = k) by (rewrite <- Hzk; by apply strip_okey).
        split; [|apply rf_index0; by exists y]. intros Heq.
        apply (Hkey (strip y)); [|by rewrite set_links_strip, Hyk, <- Heq].
        apply (refines_order b a G q y); [by split|done].
  - unfold set_side. by case_decide.
  - unfold set_side. by case_decide.
  - unfold set_side. by case_decide.
  - unfold set_side. by case_decide.
  - rewrite (at_order_capacity _ _ _ _ _ A). cbn. rewrite Hcap. unfold set_side. by case_decide.
  - rewrite (at_level_capacity _ _ _ _ _ A). unfold set_side. by case_decide.
  - unfold set_side. by case_decide.
Qed.

Lemma accept_refines c o b a G :
  refines b a G ->
  refines (mkBook (bk_ticker_id b) (bk_levels b) (bk_orders b) (bk_last b) (u64 (bk_next_id b + 1))
    ({[(c, o)]} ∪ bk_used b) (bk_events b)) (accept c o a) G.
Proof.
  intros []. split; cbn; try done; [by rewrite rf_next0|by rewrite rf_used0].
Qed.

(** What the guards of [add] establish. *)
Lemma spec_reason_NONE c o t s p q a :
  spec_reason c o t s p q a = NONE ->
  c < ME_MAX_NUM_CLIENTS /\ t = a_ticker_id a /\ valid_side s /\ (0 < p /\ p <> Price_INVALID) /\
  (q <> 0 /\ q <= INT32_MAX) /\ (c, o) ∉ a_used a /\
  Z.of_nat (length (all_orders a)) <> a_order_capacity a /\ a_next_id a < ME_MAX_ORDER_IDS /\
  (p ∉ prices (side_of s a) ->
   Z.of_nat (size (prices (a_bids a)) + size (prices (a_asks a))) <> a_level_capacity a).
Proof.
  unfold spec_reason. intros Hr.
  case_match eqn:E1; [done|]. case_match eqn:E2; [done|]. case_match eqn:E3; [done|].
  case_match eqn:E4; [done|]. case_match eqn:E5; [done|]. case_match eqn:E6; [done|].
  rewrite !orb_false_iff in *. destruct E1 as [[[E1 Et] _] _]. destruct E6 as [[E6 E7] E8].
  apply bool_decide_eq_false in E5.
  split_and!; try lia; try done.
  - destruct (decide (s = BUY)); [by left|]. destruct (decide (s = SELL)); [by right|].
    rewrite !bool_decide_false in E2 by done. done.
  - intros Hp. rewrite bool_decide_true in E8 by done. cbn [andb] in E8. by apply Z.eqb_neq.
Qed.

Lemma wf_tradable a s : book_wf a -> valid_side s -> Forall tradable (side_of s a).
Proof.
  intros W Hs. apply Forall_forall. intros x Hx. destruct (bw_orders _ W s x Hs Hx). by split.
Qed.

Lemma tradable_pos l : Forall tradable l -> Forall (λ x, 0 < o_qty x) l.
Proof. intros Hl. eapply Forall_impl; [exact Hl|]. intros x [_ ?]. lia. Qed.

(** The book after the fills: nothing is left that was not there. *)
Lemma filled_all_orders s p leaves a fs lv rest :
  valid_side s -> 0 <= leaves -> Forall (λ x, 0 < o_qty x) (side_of (opposite s) a) ->
  fill s p leaves (side_of (opposite s) a) = (fs, lv, rest) ->
  let a' := set_side (opposite s) rest a in
  (forall y, y ∈ all_orders a' -> exists x, x ∈ all_orders a /\ okey y = okey x) /\
  (length (all_orders a') <= length (all_orders a))%nat /\
  (size (prices (a_bids a')) + size (prices (a_asks a'))
   <= size (prices (a_bids a)) + size (prices (a_asks a)))%nat.
Proof.
  intros Hs Hl Hq Hf a'.
  destruct (fill_rest_fmap o_price _ _ _ _ _ _ _ (λ _ _, eq_refl) Hf Hl Hq) as [k1 Hp].
  pose proof (f_equal length Hp) as Hlen. rewrite length_app, !length_fmap in Hlen.
  pose proof (subseteq_size _ _ (prices_suffix _ _ _ Hp)) as Hsz.
  assert (Hkey : forall y, y ∈ rest -> exists x, x ∈ side_of (opposite s) a /\ okey y = okey x).
  { intros y Hy. destruct (fill_rest_elem _ _ _ _ _ _ _ y Hf Hl Hq Hy) as (x & q & Hx & -> & _).
    by exists x. }
  pose proof (valid_opposite _ Hs) as Hso. split; [|].
  - intros y (s' & Hs' & Hy)%elem_of_all_orders. unfold a' in Hy.
    rewrite side_of_set_side in Hy by done. case_decide as E.
    + destruct (Hkey y Hy) as (x & Hx & Hk). exists x. split; [|done].
      apply elem_of_all_orders. eauto.
    + exists y. split; [|done]. apply elem_of_all_orders. eauto.
  - unfold a', all_orders. destruct Hs as [-> | ->]; side_simpl; rewrite !length_app; lia.
Qed.

Lemma add_refines c o t s p q b a G :
  refines b a G -> book_wf a -> is_u32 q ->
  let '(a', evs) := spec_add c o t s p q a in
  exists b' G', MEOrderBook.add c o t s p q b = Ok b' /\ refines b' a' G' /\
    bk_events b' = bk_events b ++ evs.
Proof.
  intros R W Hq. unfold spec_add, MEOrderBook.add. rewrite (add_reason_refines _ _ _ _ _ _ _ _ _ R).
  set (r := spec_reason c o t s p q a). case_bool_decide as Er; cbn [negb].
  2:{ eexists _, G. split; [done|]. split; [|done].
      rewrite <- (publish_nil a). eapply published_refines; try done.
      cbn. by rewrite andb_false_r. }
  destruct (spec_reason_NONE _ _ _ _ _ _ _ Er) as (Hc & Ht & Hs & Hp & Hqty & Hu & Hoc & Hn & Hlc).
  unfold MEOrderBook.generateNewMarketOrderId. cbn [bk_next_id bk_ticker_id bk_levels bk_orders
    bk_last bk_used bk_events]. cbv zeta.
  pose proof (accept_refines c o b a G R) as R1. rewrite (rf_next _ _ _ R) in R1 |- *.
  unfold spec_trade. cbv zeta. set (id := a_next_id a) in *. set (a1 := accept c o a) in *.
  match goal with |- context [MEOrderBook.emitResponse ?x ?y] => set (acc := x); set (b0 := y) in * end.
  assert (E0 : bk_events b0 = bk_events b) by done. clearbody b0.
  assert (R2 : refines (MEOrderBook.emitResponse acc b0) (publish [Response acc] a1) G)
    by (by eapply published_refines).
  pose proof (wf_tradable a (opposite s) W (valid_opposite _ Hs)) as Htr.
  pose proof (checkForMatch_refines t c s o id p q _ _ _ R2 Hs) as Hchk.
  rewrite side_of_publish in Hchk. change (side_of (opposite s) a1) with (side_of (opposite s) a) in *.
  destruct (fill s p q (side_of (opposite s) a)) as [[fills lv] rest] eqn:Ef.
  destruct Hchk as (b3 & G3 & -> & R3 & E3); [destruct Hq; lia|done|]. cbn [mbind res_bind].
  rewrite set_side_publish, <- publish_app in R3. cbn [app] in R3.
  assert (Hq0 : 0 <= q) by apply Hq.
  destruct (fill_rest _ _ _ _ _ _ _ Ef Hq0 (tradable_pos _ Htr)) as [Hlv _].
  destruct (filled_all_orders _ _ _ a _ _ _ Hs Hq0 (tradable_pos _ Htr) Ef) as (Hkeys & Hlen & Hsz).
  unfold a1 in R3 |- *. rewrite set_side_accept in R3 |- *.
  set (a2 := set_side (opposite s) rest a) in *.
  set (evs := fills_events t c s o id q fills) in *.
  destruct (lv =? 0) eqn:Elv.
  { exists b3, G3. split; [done|]. split; [exact R3|].
    rewrite E3. cbn. by rewrite E0, <- app_assoc. }
  rewrite (getNextPriority_refines _ _ _ s p R3 Hs), side_of_publish. cbn [mbind res_bind].
  set (prio := next_priority p (side_of s (accept c o a2))).
  set (x := mkOrder t c o id s p lv prio None None).
  assert (Hown : side_of s a2 = side_of s a).
  { unfold a2. rewrite side_of_set_side, decide_False; auto using valid_opposite.
    intros E. by apply (opposite_ne s Hs). }
  destruct (addOrder_refines _ _ _ s x R3 Hs eq_refl eq_refl Hc)
    as (ptr & p' & b4 & G4 & -> & Hadd & R4 & E4).
  - intros y Hy Hk. destruct (Hkeys y Hy) as (z & Hz & Hzk). apply Hu.
    apply elem_of_all_orders in Hz as (s' & Hs' & Hz).
    pose proof (ow_used _ _ _ (bw_orders _ W s' z Hs' Hz)) as Hused. rewrite <- Hzk, Hk in Hused. done.
  - change (Z.of_nat (length (all_orders a2)) < a_order_capacity a2).
    assert (a_order_capacity a2 = a_order_capacity a) by (unfold a2, set_side; by case_decide).
    pose proof (bw_orders_capacity _ W). lia.
  - intros Hpn. change (p ∉ prices (side_of s a2)) in Hpn. rewrite Hown in Hpn.
    change (Z.of_nat (size (prices (a_bids a2)) + size (prices (a_asks a2))) < a_level_capacity a2).
    assert (a_level_capacity a2 = a_level_capacity a) by (unfold a2, set_side; by case_decide).
    pose proof (bw_levels_capacity _ W). specialize (Hlc Hpn). lia.
  - cbn [deref mbind res_bind]. rewrite Hadd. cbn [mbind res_bind].
    eexists _, G4. split; [done|]. split.
    + rewrite publish_app, side_of_publish, set_side_publish in *.
      by eapply published_refines.
    + cbn. rewrite E4, E3. cbn. by rewrite E0, <- !app_assoc.
Qed.

(** ** Cancelling *)
Lemma find_order_Some b a G k x :
  refines b a G -> find_order k a = Some x ->
  exists p y, bk_orders b !! k = Some p /\ blocks b !! p = Some y /\ strip y = x /\ okey y = k.
Proof.
  intros R Hf. unfold find_order in Hf.
  assert (Hin : x ∈ all_orders a /\ okey x = k).
  { destruct (List.filter _ _) as [|y l] eqn:E; [done|]. injection Hf as ->.
    assert (Hx : x ∈ x :: l) by (by left). rewrite <- E, list_elem_of_In, List.filter_In in Hx.
    destruct Hx as [Hx Hk]. rewrite <- list_elem_of_In in Hx. split; [done|].
    by apply bool_decide_eq_true in Hk. }
  destruct Hin as [(s & Hs & Hx)%elem_of_all_orders Hk].
  apply (refines_live _ _ _ _ _ R Hs) in Hx as (p & y & Hy & Hys & Hst).
  exists p, y. assert (okey y = k) by (rewrite <- Hk, <- Hst; done).
  split_and!; [|done..]. apply (rf_index _ _ _ R). eauto.
Qed.

Lemma find_order_None b a G k :
  refines b a G -> find_order k a = None -> bk_orders b !! k = None.
Proof.
  intros R Hf. destruct (bk_orders b !! k) as [p|] eqn:E; [|done].
  apply (rf_index _ _ _ R) in E as (y & Hy & Hk).
  pose proof (refines_order _ _ _ _ _ R Hy) as Hin. unfold find_order in Hf.
  assert (Hx : strip y ∈ List.filter (λ x, bool_decide (okey x = k)) (all_orders a)).
  { rewrite list_elem_of_In, List.filter_In, <- list_elem_of_In. split; [done|].
    apply bool_decide_eq_true. by rewrite <- Hk. }
  destruct (List.filter _ _); [set_solver|done].
Qed.

Lemma cancel_refines c o t b a G :
  refines b a G -> book_wf a ->
  let '(a', evs) := spec_cancel c o t a in
  exists b' G', MEOrderBook.cancel c o t b = Ok b' /\ refines b' a' G' /\
    bk_events b' = bk_events b ++ evs.
Proof.
  intros R W. unfold spec_cancel, MEOrderBook.cancel. rewrite (rf_ticker _ _ _ R).
  assert (Hrej : exists b' G',
    Ok (MEOrderBook.emitResponse (mkResponse CANCEL_REJECTED c t o OrderId_INVALID Side_INVALID
      Price_INVALID 0 0 INVALID_ID 0 0) b) = Ok b' /\ refines b' a G' /\
    bk_events b' = bk_events b ++ [Response (mkResponse CANCEL_REJECTED c t o OrderId_INVALID
      Side_INVALID Price_INVALID 0 0 INVALID_ID 0 0)]).
  { eexists _, G. split; [done|]. split; [|done]. rewrite <- (publish_nil a).
    eapply published_refines; try done. cbn. by rewrite andb_false_r. }
  destruct ((c <? ME_MAX_NUM_CLIENTS) && _) eqn:Eg; [|done].
  destruct (find_order (c, o) a) as [x|] eqn:Ef.
  2:{ rewrite (find_order_None _ _ _ _ R Ef). done. }
  clear Hrej. destruct (find_order_Some _ _ _ _ _ R Ef) as (p & y & -> & Hy & <- & Hk).
  rewrite (load_Some _ _ _ Hy). cbn [mbind res_bind].
  destruct (removeOrder_refines _ _ _ _ _ R Hy) as (b1 & G1 & -> & R1 & E1).
  { unfold okey in Hk. injection Hk as Hkc _. rewrite Hkc. lia. }
  cbn [mbind res_bind]. eexists _, G1. split; [done|]. rewrite Hk in R1. split.
  - by eapply published_refines.
  - cbn. by rewrite E1, <- app_assoc.
Qed.

Lemma query_refines c o b a G :
  refines b a G ->
  let '(a', evs) := spec_query c o a in
  exists b' G', Ok (MEOrderBook.query c o b) = Ok b' /\ refines b' a' G' /\
    bk_events b' = bk_events b ++ evs.
Proof.
  intros R. unfold spec_query, MEOrderBook.query. rewrite (rf_ticker _ _ _ R), (rf_last _ _ _ R).
  assert (Hemit : forall r, rs_type r = STATE \/ rs_type r = REJECTED ->
    exists b' G', Ok (MEOrderBook.emitResponse r b) = Ok b' /\ refines b' a G' /\
      bk_events b' = bk_events b ++ [Response r]).
  { intros r Hr. eexists _, G. split; [done|]. split; [|done]. rewrite <- (publish_nil a).
    eapply published_refines; try done. cbn.
    destruct Hr as [-> | ->]; cbn; by rewrite ?andb_false_r. }
  destruct (ME_MAX_NUM_CLIENTS <=? c); [exists b, G; by rewrite app_nil_r|].
  destruct (o =? 0); [apply Hemit; by left|].
  destruct (a_last a !! (c, o)); apply Hemit; [by left|by right].
Qed.

Lemma step_refines op b a G :
  refines b a G -> book_wf a -> op_wf op ->
  let '(a', evs) := spec_step op a in
  exists b' G', book_step op b = Ok b' /\ refines b' a' G' /\ bk_events b' = bk_events b ++ evs.
Proof.
  intros R W Hop. destruct op; [by eapply add_refines|by eapply cancel_refines|by eapply query_refines].
Qed.

(** A new book. *)
Lemma make_refines t orders levels b :
  0 <= orders -> 0 <= levels -> MEOrderBook.make_sized t orders levels = Some b ->
  refines b (empty_book t orders levels) (λ _, []) /\ bk_events b = [].
Proof.
  intros Ho Hl Hm. unfold MEOrderBook.make_sized in Hm.
  destruct (@pool_new MEOrder orders) as [op|] eqn:Eo; [|done].
  destruct (@pool_new Level levels) as [lp|] eqn:El; [|done]. injection Hm as <-.
  pose proof (pool_new_ok _ _ Eo) as Hop. pose proof (pool_new_ok _ _ El) as Hlp.
  unfold pool_new in Eo, El. destruct ((orders =? 0) || _); [done|]. injection Eo as <-.
  destruct ((levels =? 0) || _); [done|]. injection El as <-. split; [|done]. split; cbn; try done.
  - split; cbn; try done.
    + intros s Hs. split; [by unfold best; case_decide|by left|constructor|set_solver].
    + intros s p a. rewrite lookup_empty. set_solver.
  - intros s [-> | ->]; done.
  - intros k p. rewrite lookup_empty. split; [done|]. intros (x & Hx & _). done.
Qed.
End Refinement.
