(* ===== verification/BookInvariant.v ===== *)
(** Invariant of the reference book.

    [book_wf] holds in the empty book and every request preserves it: orders
    are sorted by price and time, the book is never crossed, client keys and
    market ids are unique, quantities are positive and the capacities are
    respected. *)
From S2P Require Import Prelude.
From S2P Require Import Types.
From S2P Require Import MemPool.
From S2P Require Import Ring.
From S2P Require Import PriceLevels.
From S2P Require Import LevelsView.
From S2P Require Import MatchBook.
From S2P Require Import BookSpec.
From S2P Require Import BookRefinement.
From stdpp Require Import functions base gmap list sorting.
From Stdlib Require Import ZArith Lia.

Local Open Scope Z_scope.

(** [l'] is [l] less some orders, some with a smaller quantity. *)
Definition smaller (x y : MEOrder) : Prop := exists q, y = set_o_qty q x /\ 0 < q <= o_qty x.

Definition shrunk (l l' : list MEOrder) : Prop :=
  exists l0, l0 `sublist_of` l /\ Forall2 smaller l0 l'.

Section Shrunk.
Implicit Types l : list MEOrder.

Lemma smaller_refl x : 0 < o_qty x -> smaller x x.
Proof. intros H. exists (o_qty x). split; [by destruct x|lia]. Qed.

Lemma smaller_refl_list l : Forall (λ x, 0 < o_qty x) l -> Forall2 smaller l l.
Proof. induction 1; constructor; auto using smaller_refl. Qed.

Lemma shrunk_refl l : Forall (λ x, 0 < o_qty x) l -> shrunk l l.
Proof. intros H. exists l. split; [done|by apply smaller_refl_list]. Qed.

Lemma shrunk_elem l l' y : shrunk l l' -> y ∈ l' -> exists x, x ∈ l /\ smaller x y.
Proof.
  intros (l0 & Hsub & H2) Hy. apply list_elem_of_lookup in Hy as [i Hi].
  destruct (Forall2_lookup_r _ _ _ _ _ H2 Hi) as (x & Hx & Hs).
  exists x. split; [|done]. eapply elem_of_submseteq; [by eapply list_elem_of_lookup_2|].
  by apply sublist_submseteq.
Qed.

Lemma sublist_map {A B} (g : A -> B) (l l' : list A) : l' `sublist_of` l -> (g <$> l') `sublist_of` (g <$> l).
Proof. induction 1; cbn; by constructor. Qed.

Lemma shrunk_fmap {B} (g : MEOrder -> B) l l' :
  (forall q x, g (set_o_qty q x) = g x) -> shrunk l l' -> (g <$> l') `sublist_of` (g <$> l).
Proof.
  intros Hg (l0 & Hsub & H2). replace (g <$> l') with (g <$> l0); [by apply sublist_map|].
  clear Hsub. induction H2 as [|x y l0 l' (q & -> & _) _ IH]; [done|]. cbn. by rewrite IH, Hg.
Qed.

Lemma StronglySorted_sublist {A} (R : relation A) (l l' : list A) :
  l' `sublist_of` l -> StronglySorted R l -> StronglySorted R l'.
Proof.
  induction 1 as [|x l' l Hs IH|x l' l Hs IH]; intros H; [constructor|..];
    apply StronglySorted_inv in H as [H Hall]; [|by apply IH].
  constructor; [by apply IH|]. rewrite Forall_forall in Hall |- *. intros y Hy. apply Hall.
  eapply elem_of_submseteq; [done|by apply sublist_submseteq].
Qed.

Lemma shrunk_sorted s l l' :
  shrunk l l' -> StronglySorted (before s) l -> StronglySorted (before s) l'.
Proof.
  intros (l0 & Hsub & H2) Hs. apply (StronglySorted_sublist _ _ _ Hsub) in Hs. clear Hsub.
  induction H2 as [|x y l0 l' (q & -> & _) H2 IH]; [constructor|].
  apply StronglySorted_inv in Hs as [Hs Hall]. constructor; [by apply IH|].
  clear IH Hs. induction H2 as [|z z' l0 l' (q' & -> & _) _ IH]; [constructor|].
  apply Forall_cons in Hall as [Hz Hall]. constructor; [exact Hz|by apply IH].
Qed.

Lemma shrunk_length l l' : shrunk l l' -> (length l' <= length l)%nat.
Proof.
  intros (l0 & Hsub & H2). rewrite <- (Forall2_length _ _ _ H2). by apply sublist_length.
Qed.

Lemma shrunk_prices l l' : shrunk l l' -> prices l' ⊆ prices l.
Proof.
  intros H p. rewrite !elem_of_prices. intros (y & Hy & <-).
  destruct (shrunk_elem _ _ _ H Hy) as (x & Hx & q & -> & _). by exists x.
Qed.

Lemma fill_shrunk s p leaves l fs lv rest :
  fill s p leaves l = (fs, lv, rest) -> 0 <= leaves -> Forall (λ x, 0 < o_qty x) l ->
  shrunk l rest.
Proof.
  intros Hf Hl Hq. destruct (fill_rest _ _ _ _ _ _ _ Hf Hl Hq) as (_ & l1 & l2 & -> & Hr).
  apply Forall_app in Hq as [_ Hq]. exists l2. split; [by apply sublist_inserts_l|].
  destruct Hr as [->|(x & l2' & q & -> & -> & Hlt)]; [by apply smaller_refl_list|].
  apply Forall_cons in Hq as [_ Hq]. constructor; [|by apply smaller_refl_list].
  exists q. split; [done|lia].
Qed.

Lemma drop_order_sublist k l : drop_order k l `sublist_of` l.
Proof.
  unfold drop_order. induction l as [|x l IH]; [done|]. cbn [List.filter].
  destruct (bool_decide _); cbn [negb]; by constructor.
Qed.

Lemma drop_order_shrunk k l : Forall (λ x, 0 < o_qty x) l -> shrunk l (drop_order k l).
Proof.
  intros H. exists (drop_order k l). split; [apply drop_order_sublist|].
  apply smaller_refl_list. rewrite Forall_forall in H |- *. intros x Hx. apply H.
  eapply elem_of_submseteq; [done|]. apply sublist_submseteq, drop_order_sublist.
Qed.
End Shrunk.

(** ** Preservation *)
Section Preservation.

Lemma too_far_BUY p r : MEOrderBook.too_far BUY p r = (p <? r).
Proof. done. Qed.
Lemma too_far_SELL p r : MEOrderBook.too_far SELL p r = (r <? p).
Proof. done. Qed.
Lemma better_BUY p r : better BUY p r = (r <? p).
Proof. done. Qed.
Lemma better_SELL p r : better SELL p r = (p <? r).
Proof. done. Qed.

Lemma wf_positive a s : book_wf a -> valid_side s -> Forall (λ x, 0 < o_qty x) (side_of s a).
Proof. intros W Hs. by apply tradable_pos, wf_tradable. Qed.

Lemma order_wf_mono a a' s x :
  a_ticker_id a' = a_ticker_id a -> a_used a ⊆ a_used a' -> a_next_id a <= a_next_id a' ->
  order_wf a s x -> order_wf a' s x.
Proof.
  intros Ht Hu Hn []. split; try done; [congruence|by apply Hu|lia].
Qed.

(** Orders leave the book or lose quantity. *)
Lemma book_wf_shrunk a a' :
  book_wf a -> a_ticker_id a' = a_ticker_id a -> a_used a' = a_used a ->
  a_next_id a' = a_next_id a -> a_order_capacity a' = a_order_capacity a ->
  a_level_capacity a' = a_level_capacity a ->
  (forall s, valid_side s -> shrunk (side_of s a) (side_of s a')) -> book_wf a'.
Proof.
  intros W Ht Hu Hn Hoc Hlc Hsh.
  pose proof (Hsh BUY (or_introl eq_refl)) as HB. pose proof (Hsh SELL (or_intror eq_refl)) as HS.
  change (shrunk (a_bids a) (a_bids a')) in HB. change (shrunk (a_asks a) (a_asks a')) in HS.
  split.
  - intros s y Hs Hy. destruct (shrunk_elem _ _ _ (Hsh s Hs) Hy) as (x & Hx & q & -> & Hq).
    pose proof (bw_orders _ W s x Hs Hx) as Hwf.
    apply (order_wf_mono a); [done|by rewrite Hu|lia|]. destruct Hwf as [H1 H2 H3 H4 H5 H6 H7 H8 H9]. split; try done.
    + exact (f_equal (set_o_qty q) H2).
    + cbn [o_qty set_o_qty]. lia.
  - intros s Hs. eapply shrunk_sorted; [by apply Hsh|]. by apply (bw_sorted _ W).
  - intros x y Hx Hy. destruct (shrunk_elem _ _ _ HB Hx) as (x' & Hx' & q & -> & _).
    destruct (shrunk_elem _ _ _ HS Hy) as (y' & Hy' & q' & -> & _).
    by apply (bw_uncrossed _ W x' y').
  - eapply sublist_NoDup; [exact (bw_keys _ W)|]. unfold all_orders. rewrite !fmap_app.
    apply sublist_app; by apply shrunk_fmap.
  - eapply sublist_NoDup; [exact (bw_ids _ W)|]. unfold all_orders. rewrite !fmap_app.
    apply sublist_app; by apply shrunk_fmap.
  - rewrite Hn. apply W.
  - pose proof (bw_orders_capacity _ W) as H. unfold all_orders in *. rewrite !length_app in *.
    pose proof (shrunk_length _ _ HB). pose proof (shrunk_length _ _ HS). lia.
  - pose proof (bw_levels_capacity _ W) as H.
    pose proof (subseteq_size _ _ (shrunk_prices _ _ HB)).
    pose proof (subseteq_size _ _ (shrunk_prices _ _ HS)). lia.
Qed.

Lemma book_wf_publish e a : book_wf a -> book_wf (publish e a).
Proof.
  intros W. destruct W as [W1 W2 W3 W4 W5 W6 W7 W8]. split; try done.
  intros s x Hs Hx. apply (order_wf_mono a); try done. by apply W1.
Qed.

Lemma accept_wf c o a : book_wf a -> a_next_id a < ME_MAX_ORDER_IDS -> book_wf (accept c o a).
Proof.
  intros W Hn. pose proof (bw_next _ W) as Hn'.
  assert (Hu : u64 (a_next_id a + 1) = a_next_id a + 1).
  { apply u64_small. unfold ME_MAX_ORDER_IDS in *. lia. }
  destruct W as [W1 W2 W3 W4 W5 W6 W7 W8]. split; try done.
  - intros s x Hs Hx. apply (order_wf_mono a); [done|cbn; set_solver|cbn; lia|]. by apply W1.
  - cbn. lia.
Qed.

Lemma enqueue_perm s x l : enqueue s x l ≡ₚ x :: l.
Proof.
  induction l as [|y l IH]; [done|]. cbn [enqueue]. case_match; [done|].
  rewrite IH. apply Permutation_swap.
Qed.

Lemma before_trans s x y z : before s x y -> before s y z -> before s x z.
Proof.
  unfold before. intros [H1|[H1 H1']] [H2|[H2 H2']].
  - left. eapply better_trans; eauto.
  - left. by rewrite <- H2.
  - left. by rewrite H1.
  - right. split; [congruence|lia].
Qed.

Lemma enqueue_sorted s x l :
  StronglySorted (before s) l ->
  (forall y, y ∈ l -> o_price y = o_price x -> o_priority y < o_priority x) ->
  StronglySorted (before s) (enqueue s x l).
Proof.
  intros Hs Hp. induction Hs as [|y l Hs IH Hall]; [repeat constructor|]. cbn [enqueue].
  change (bo_price x) with (o_price x). change (bo_price y) with (o_price y).
  rewrite Forall_forall in Hall. destruct (better s (o_price x) (o_price y)) eqn:E.
  - constructor; [by constructor; [|apply Forall_forall]|]. apply Forall_forall.
    intros z [->|Hz]%elem_of_cons; [by left|]. eapply before_trans; [by left|by apply Hall].
  - constructor; [apply IH; intros z Hz; apply Hp; by right|]. apply Forall_forall.
    intros z. rewrite enqueue_perm, elem_of_cons. intros [->|Hz]; [|by apply Hall].
    destruct (decide (o_price y = o_price x)) as [Heq|Hne].
    + right. split; [done|]. apply Hp; [by left|done].
    + left. by apply better_total.
Qed.

(** The last order at a price has the largest priority at that price. *)
Lemma last_at_largest s p l :
  StronglySorted (before s) l ->
  match last_at p l with
  | None => forall y, y ∈ l -> o_price y <> p
  | Some z => z ∈ l /\ o_price z = p /\
      forall y, y ∈ l -> o_price y = p -> o_priority y <= o_priority z
  end.
Proof.
  unfold last_at. induction 1 as [|x l Hs IH Hall]; [set_solver|]. cbn [List.filter].
  change (bo_price x) with (o_price x). rewrite Forall_forall in Hall.
  destruct (Z.eqb_spec (o_price x) p) as [Hx|Hx].
  - rewrite last_cons. destruct (last (List.filter _ l)) as [z|].
    + destruct IH as (Hz & Hzp & Hmax). split; [by right|]. split; [done|].
      intros y [->|Hy]%elem_of_cons Hyp; [|by apply Hmax].
      destruct (Hall z Hz) as [Hb|[_ Hb]]; [|lia].
      rewrite Hx, Hzp, better_irrefl in Hb. done.
    + split; [by left|]. split; [done|]. intros y [->|Hy]%elem_of_cons Hyp; [lia|].
      by destruct (IH y Hy).
  - destruct (last (List.filter _ l)) as [z|].
    + destruct IH as (Hz & Hzp & Hmax). split; [by right|]. split; [done|].
      intros y [->|Hy]%elem_of_cons Hyp; [done|by apply Hmax].
    + intros y [->|Hy]%elem_of_cons; [done|by apply IH].
Qed.

Lemma next_priority_spec a s p :
  book_wf a -> valid_side s ->
  0 < next_priority p (side_of s a) <= a_next_id a /\
  forall y, y ∈ side_of s a -> o_price y = p -> o_priority y < next_priority p (side_of s a).
Proof.
  intros W Hs. pose proof (bw_next _ W) as Hn. unfold next_priority.
  pose proof (last_at_largest s p _ (bw_sorted _ W s Hs)) as Hl.
  destruct (last_at p (side_of s a)) as [z|].
  - destruct Hl as (Hz & Hzp & Hmax). pose proof (bw_orders _ W s z Hs Hz) as [].
    rewrite u64_small by (unfold ME_MAX_ORDER_IDS in *; lia). split; [lia|].
    intros y Hy Hyp. specialize (Hmax y Hy Hyp). lia.
  - split; [lia|]. intros y Hy Hyp. by destruct (Hl y Hy).
Qed.

Lemma prices_enqueue s x l : prices (enqueue s x l) = {[o_price x]} ∪ prices l.
Proof.
  apply set_eq. intros p. rewrite elem_of_union, elem_of_singleton, !elem_of_prices.
  setoid_rewrite enqueue_perm. setoid_rewrite elem_of_cons. split.
  - intros (y & [->|Hy] & <-); [by left|right; eauto].
  - intros [->|(y & Hy & <-)]; [exists x|exists y]; auto.
Qed.

Lemma size_prices_add p (l : gset Z) :
  (size ({[p]} ∪ l) <= size l + 1)%nat /\ (p ∈ l -> size ({[p]} ∪ l) = size l).
Proof.
  split.
  - destruct (decide (p ∈ l)) as [Hin|Hin].
    + replace ({[p]} ∪ l) with l by set_solver. lia.
    + rewrite size_union by set_solver. rewrite size_singleton. lia.
  - intros Hin. by replace ({[p]} ∪ l) with l by set_solver.
Qed.

Lemma all_orders_set_side s l a :
  valid_side s -> all_orders (set_side s l a) ≡ₚ l ++ side_of (opposite s) a.
Proof. intros [-> | ->]; [done|]. apply Permutation_app_comm. Qed.

Lemma all_orders_split s a :
  valid_side s -> all_orders a ≡ₚ side_of s a ++ side_of (opposite s) a.
Proof. intros [-> | ->]; [done|]. apply Permutation_app_comm. Qed.

(** A new order in the book. *)
Lemma enqueue_wf a s x :
  book_wf a -> valid_side s -> order_wf a s x ->
  (forall y, y ∈ side_of s a -> o_price y = o_price x -> o_priority y < o_priority x) ->
  (forall y, y ∈ all_orders a -> okey y <> okey x /\ o_market_order_id y <> o_market_order_id x) ->
  (forall y, y ∈ side_of (opposite s) a -> MEOrderBook.too_far s (o_price x) (o_price y) = true) ->
  Z.of_nat (length (all_orders a)) < a_order_capacity a ->
  (o_price x ∉ prices (side_of s a) ->
   Z.of_nat (size (prices (a_bids a)) + size (prices (a_asks a))) < a_level_capacity a) ->
  book_wf (set_side s (enqueue s x (side_of s a)) a).
Proof.
  intros W Hs Hx Hprio Hfresh Hfar Hoc Hlc. set (a' := set_side s _ a).
  assert (Hperm : all_orders a' ≡ₚ x :: all_orders a).
  { unfold a'. rewrite all_orders_set_side, enqueue_perm by done. cbn [app].
    by rewrite (all_orders_split s a Hs). }
  assert (Hsame : a_ticker_id a' = a_ticker_id a /\ a_used a' = a_used a /\
    a_next_id a' = a_next_id a /\ a_order_capacity a' = a_order_capacity a /\
    a_level_capacity a' = a_level_capacity a).
  { unfold a', set_side. by case_decide. }
  destruct Hsame as (Et & Eu & En & Eo & El). split.
  - intros s' y Hs' Hy. apply (order_wf_mono a); [done|by rewrite Eu|lia|].
    unfold a' in Hy. rewrite side_of_set_side in Hy by done. case_decide as E.
    + rewrite E. rewrite enqueue_perm, elem_of_cons in Hy. destruct Hy as [->|Hy]; [done|].
      by apply (bw_orders _ W).
    + by apply (bw_orders _ W).
  - intros s' Hs'. unfold a'. rewrite side_of_set_side by done. case_decide as E.
    + rewrite E. apply enqueue_sorted; [by apply (bw_sorted _ W)|done].
    + by apply (bw_sorted _ W).
  - intros y z Hy Hz. pose proof (bw_uncrossed _ W) as Hun. unfold a' in Hy, Hz.
    destruct Hs as [-> | ->]; side_simpl.
    + rewrite enqueue_perm, elem_of_cons in Hy. destruct Hy as [->|Hy]; [|by apply Hun].
      specialize (Hfar z Hz). rewrite too_far_BUY in Hfar. lia.
    + rewrite enqueue_perm, elem_of_cons in Hz. destruct Hz as [->|Hz]; [|by apply Hun].
      specialize (Hfar y Hy). rewrite too_far_SELL in Hfar. lia.
  - rewrite Hperm. cbn [fmap list_fmap]. constructor; [|apply W].
    intros (y & Hk & Hy)%list_elem_of_fmap. by destruct (Hfresh y Hy) as [[] _].
  - rewrite Hperm. cbn [fmap list_fmap]. constructor; [|apply W].
    intros (y & Hk & Hy)%list_elem_of_fmap. by destruct (Hfresh y Hy) as [_ []].
  - rewrite En. apply W.
  - rewrite Hperm, Eo. cbn [length]. lia.
  - rewrite El. pose proof (bw_levels_capacity _ W) as Hcap.
    destruct (size_prices_add (o_price x) (prices (side_of s a))) as [H1 H2].
    assert (Hb : (size (prices (a_bids a')) + size (prices (a_asks a')) +
      size (prices (side_of s a)) = size (prices (a_bids a)) + size (prices (a_asks a)) +
      size ({[o_price x]} ∪ prices (side_of s a)))%nat).
    { unfold a'. destruct Hs as [-> | ->]; side_simpl; rewrite prices_enqueue; lia. }
    destruct (decide (o_price x ∈ prices (side_of s a))) as [Hin|Hin].
    + specialize (H2 Hin). lia.
    + specialize (Hlc Hin). lia.
Qed.

(** Every price of a sorted list is too far when the first one is. *)
Lemma too_far_sorted s p l :
  valid_side s -> StronglySorted (before (opposite s)) l ->
  (forall x, head l = Some x -> MEOrderBook.too_far s p (o_price x) = true) ->
  forall x, x ∈ l -> MEOrderBook.too_far s p (o_price x) = true.
Proof.
  intros Hs Hsort Hhead x Hx. destruct Hsort as [|y l Hsort Hall]; [set_solver|].
  specialize (Hhead y eq_refl). apply elem_of_cons in Hx as [->|Hx]; [done|].
  rewrite Forall_forall in Hall. specialize (Hall x Hx). unfold before in Hall.
  destruct Hs as [-> | ->];
    [change (opposite BUY) with SELL in Hall | change (opposite SELL) with BUY in Hall].
  - rewrite too_far_BUY in Hhead |- *. rewrite better_SELL in Hall. lia.
  - rewrite too_far_SELL in Hhead |- *. rewrite better_BUY in Hall. lia.
Qed.

Lemma fill_leaves_far s p leaves l fs lv rest :
  fill s p leaves l = (fs, lv, rest) -> 0 <= leaves -> Forall (λ x, 0 < o_qty x) l -> lv <> 0 ->
  forall x, head rest = Some x -> MEOrderBook.too_far s p (o_price x) = true.
Proof.
  intros Hf Hl Hq Hne. destruct (fill_cases _ _ _ _ _ _ _ Hf Hl Hq) as (l1 & l2 & -> & _ & Hs).
  destruct Hs as [H1 [H2|H2]|x l2' E H1 H2]; [lia|done|done].
Qed.

(** The book after the fills of an accepted order. *)
Lemma filled_wf c o s p q a fs lv rest :
  book_wf a -> valid_side s -> 0 <= q -> a_next_id a < ME_MAX_ORDER_IDS ->
  fill s p q (side_of (opposite s) a) = (fs, lv, rest) ->
  book_wf (accept c o (set_side (opposite s) rest a)) /\
  (forall y, y ∈ all_orders (set_side (opposite s) rest a) ->
     exists x, x ∈ all_orders a /\ okey y = okey x /\ o_market_order_id y = o_market_order_id x).
Proof.
  intros W Hs Hq Hn Hf. pose proof (valid_opposite _ Hs) as Hso.
  pose proof (wf_positive _ _ W Hso) as Hpos.
  pose proof (fill_shrunk _ _ _ _ _ _ _ Hf Hq Hpos) as Hsh.
  assert (Hall : forall s', valid_side s' -> shrunk (side_of s' a) (side_of s' (set_side (opposite s) rest a))).
  { intros s' Hs'. rewrite side_of_set_side by done. case_decide as E; [by rewrite E|].
    by apply shrunk_refl, wf_positive. }
  split.
  - apply accept_wf; [|by unfold set_side; case_decide].
    apply (book_wf_shrunk a); [done|by unfold set_side; case_decide..|done].
  - intros y (s' & Hs' & Hy)%elem_of_all_orders.
    destruct (shrunk_elem _ _ _ (Hall s' Hs') Hy) as (x & Hx & r & -> & _).
    exists x. split_and!; [|done..]. apply elem_of_all_orders. eauto.
Qed.

Lemma spec_trade_wf c o t s p q a :
  book_wf a -> is_u32 q -> spec_reason c o t s p q a = NONE ->
  book_wf (fst (spec_trade c o t s p q a)).
Proof.
  intros W Hq Hr.
  destruct (spec_reason_NONE _ _ _ _ _ _ _ Hr) as (Hc & Ht & Hs & Hp & Hqty & Hu & Hoc & Hn & Hlc).
  unfold spec_trade. cbv zeta.
  change (side_of (opposite s) (accept c o a)) with (side_of (opposite s) a).
  destruct (fill s p q (side_of (opposite s) a)) as [[fs lv] rest] eqn:Ef.
  assert (Hq0 : 0 <= q) by apply Hq. pose proof (valid_opposite _ Hs) as Hso.
  pose proof (wf_positive _ _ W Hso) as Hpos.
  destruct (filled_wf c o _ _ _ _ _ _ _ W Hs Hq0 Hn Ef) as [W' Hold].
  destruct (filled_all_orders _ _ _ a _ _ _ Hs Hq0 Hpos Ef) as (_ & Hlen & Hsz).
  destruct (fill_rest _ _ _ _ _ _ _ Ef Hq0 Hpos) as [Hlv _].
  rewrite set_side_accept. set (a2 := set_side (opposite s) rest a) in *.
  destruct (lv =? 0) eqn:Elv; [by apply book_wf_publish|]. apply Z.eqb_neq in Elv.
  cbn [fst]. apply book_wf_publish.
  assert (Hown : side_of s a2 = side_of s a).
  { unfold a2. rewrite side_of_set_side, decide_False; auto. intros E. by apply (opposite_ne s Hs). }
  assert (Hcap : a_order_capacity a2 = a_order_capacity a /\ a_level_capacity a2 = a_level_capacity a /\
    a_next_id a2 = a_next_id a /\ a_ticker_id a2 = a_ticker_id a)
    by (unfold a2, set_side; by case_decide).
  destruct Hcap as (Eo & El & En & Et).
  pose proof (bw_next _ W) as Hnext.
  assert (Hn1 : a_next_id (accept c o a2) = a_next_id a + 1).
  { cbn. rewrite En. apply u64_small. unfold ME_MAX_ORDER_IDS in *. lia. }
  change (side_of s (accept c o a2)) with (side_of s a2). rewrite Hown.
  destruct (next_priority_spec a s p W Hs) as [Hpr Hpr2].
  change (enqueue s ?x (side_of s a)) with (enqueue s x (side_of s a)).
  replace (side_of s a) with (side_of s (accept c o a2)) at 2 by exact Hown.
  apply enqueue_wf; [done|done| | | | | |].
  - split; cbn [o_side o_ticker_id o_client_id o_price o_qty o_market_order_id o_priority];
      [done|done|by rewrite <- Et in Ht|done|cbn; set_solver|done| |rewrite Hn1; lia|lia].
    destruct Hqty. lia.
  - intros y Hy Hyp. change (y ∈ side_of s a2) in Hy. rewrite Hown in Hy. by apply Hpr2.
  - intros y Hy. destruct (Hold y Hy) as (x & (s' & Hs' & Hx)%elem_of_all_orders & -> & ->).
    destruct (bw_orders _ W s' x Hs' Hx). cbn. split; [|lia]. intros E. rewrite E in ow_used. done.
  - intros y Hy. change (y ∈ side_of (opposite s) a2) in Hy. unfold a2 in Hy.
    rewrite side_of_set_side, decide_True in Hy by done. cbn [o_price].
    apply (too_far_sorted s p rest Hs); [|by eapply fill_leaves_far|done].
    eapply shrunk_sorted; [by eapply fill_shrunk|by apply (bw_sorted _ W)].
  - change (Z.of_nat (length (all_orders a2)) < a_order_capacity a2).
    pose proof (bw_orders_capacity _ W). lia.
  - cbn [o_price]. change (side_of s (accept c o a2)) with (side_of s a2). rewrite Hown. intros Hpn.
    change (Z.of_nat (size (prices (a_bids a2)) + size (prices (a_asks a2))) < a_level_capacity a2).
    pose proof (bw_levels_capacity _ W). specialize (Hlc Hpn). lia.
Qed.

Lemma spec_cancel_wf c o t a : book_wf a -> book_wf (fst (spec_cancel c o t a)).
Proof.
  intros W. unfold spec_cancel. case_match; [|done]. cbn [fst]. apply book_wf_publish.
  apply (book_wf_shrunk a); [done|by unfold set_side; case_decide..|].
  intros s Hs. unfold set_side, side_of.
  pose proof (wf_positive a BUY W (or_introl eq_refl)).
  pose proof (wf_positive a SELL W (or_intror eq_refl)).
  case_decide as E; case_decide as E'; cbn; by first [apply drop_order_shrunk|apply shrunk_refl].
Qed.

Lemma spec_step_wf op a : book_wf a -> op_wf op -> book_wf (fst (spec_step op a)).
Proof.
  intros W Hop. destruct op as [c o t s p q|c o t|c o]; cbn [spec_step].
  - unfold spec_add. cbv zeta. case_bool_decide; [by apply spec_trade_wf|done].
  - by apply spec_cancel_wf.
  - unfold spec_query. repeat case_match; done.
Qed.

Lemma spec_run_wf ops a : book_wf a -> Forall op_wf ops -> book_wf (fst (spec_run ops a)).
Proof.
  intros W Hops. revert a W. induction Hops as [|op ops Hop Hops IH]; intros a W; [done|].
  cbn [spec_run]. pose proof (spec_step_wf op a W Hop) as W1.
  destruct (spec_step op a) as [a1 e1]. specialize (IH a1 W1).
  by destruct (spec_run ops a1).
Qed.

Lemma empty_book_wf t orders levels :
  0 <= orders -> 0 <= levels -> book_wf (empty_book t orders levels).
Proof.
  intros Ho Hl. split; try done.
  - intros s x [-> | ->] Hx; by apply elem_of_nil in Hx.
  - intros s [-> | ->]; constructor.
  - intros x y Hx. by apply elem_of_nil in Hx.
  - constructor.
  - constructor.
Qed.

(** The pointer book after any requests. *)
Lemma run_refines ops b a G :
  refines b a G -> book_wf a -> Forall op_wf ops ->
  let '(a', evs) := spec_run ops a in
  exists b' G', book_run ops b = Ok b' /\ refines b' a' G' /\ bk_events b' = bk_events b ++ evs.
Proof.
  intros R W Hops. revert b a G R W. induction Hops as [|op ops Hop Hops IH]; intros b a G R W.
  - cbn. exists b, G. by rewrite app_nil_r.
  - cbn [spec_run]. unfold book_run. cbn [res_fold].
    pose proof (step_refines op b a G R W Hop) as Hstep.
    pose proof (spec_step_wf op a W Hop) as W1.
    destruct (spec_step op a) as [a1 e1]. destruct Hstep as (b1 & G1 & -> & R1 & E1).
    cbn [mbind res_bind]. specialize (IH b1 a1 G1 R1 W1).
    destruct (spec_run ops a1) as [a2 e2]. destruct IH as (b2 & G2 & H2 & R2 & E2).
    exists b2, G2. split; [exact H2|]. split; [done|]. by rewrite E2, E1, app_assoc.
Qed.
End Preservation.
