(* ===== verification/BookTheorems.v ===== *)
(** What the order book guarantees to the engine and to its clients.

    The theorems speak of the pointer book of [MatchBook] in the states that
    requests can reach; their proofs go through the reference book. *)
From S2P Require Import Prelude.
From S2P Require Import Types.
From S2P Require Import MemPool.
From S2P Require Import Ring.
From S2P Require Import PriceLevels.
From S2P Require Import LevelsView.
From S2P Require Import MatchBook.
From S2P Require Import BookSpec.
From S2P Require Import BookRefinement.
From S2P Require Import BookInvariant.
From stdpp Require Import functions base gmap list sorting.
From Stdlib Require Import ZArith Lia.

Local Open Scope Z_scope.

(** Books that requests reach from a new book. *)
Definition reachable (t orders levels : Z) (b : MEOrderBook) : Prop :=
  exists b0 ops, MEOrderBook.make_sized t orders levels = Some b0 /\ 0 <= orders /\ 0 <= levels /\
    Forall op_wf ops /\ book_run ops b0 = Ok b.

(** Total quantity of the live orders. *)
Definition book_qty (b : MEOrderBook) : Z :=
  map_fold (λ _ x n, o_qty x + n) 0 (blocks b).

(** Total quantity of the public trades. *)
Fixpoint traded (evs : list BookEvent) : Z :=
  match evs with
  | [] => 0
  | Market u :: evs' => (if bool_decide (mu_type u = MD_TRADE) then mu_qty u else 0) + traded evs'
  | Response _ :: evs' => traded evs'
  end.

(** Quantity reported as filled to the order [k] on side [s]. *)
Fixpoint filled (k : Z * Z) (s : Side) (evs : list BookEvent) : Z :=
  match evs with
  | [] => 0
  | Response r :: evs' =>
      (if bool_decide (rs_type r = FILLED) && bool_decide ((rs_client_id r, rs_client_order_id r) = k)
          && bool_decide (rs_side r = s)
       then rs_exec_qty r else 0) + filled k s evs'
  | Market _ :: evs' => filled k s evs'
  end.

Fixpoint sum_fills (fs : list (MEOrder * Z)) : Z :=
  match fs with
  | [] => 0
  | (_, q) :: fs' => q + sum_fills fs'
  end.

(** Remaining quantity of the order of a client, if it is live. *)
Definition live_qty (k : Z * Z) (b : MEOrderBook) : option Z :=
  p ← bk_orders b !! k; x ← blocks b !! p; Some (o_qty x).

(** Requests used by the witnesses. *)
Definition demo_ops : list BookOp :=
  [OpAdd 1 1 0 BUY 100 10; OpAdd 2 1 0 BUY 100 5; OpAdd 3 1 0 SELL 99 12].

Definition queue_ops : list BookOp := [OpAdd 1 1 0 BUY 100 10; OpAdd 2 1 0 BUY 100 5].

Definition run_demo (ops : list BookOp) : option MEOrderBook :=
  match MEOrderBook.make_sized 0 4 2 with
  | None => None
  | Some b => match book_run ops b with Ok b' => Some b' | Err _ => None end
  end.

Definition demo_book : option MEOrderBook := run_demo demo_ops.
Definition queue_book : option MEOrderBook := run_demo queue_ops.

(** ** Lemmas *)
Section Theory.

Lemma reachable_refines t orders levels b :
  reachable t orders levels b -> exists a G, refines b a G /\ book_wf a.
Proof.
  intros (b0 & ops & Hm & Ho & Hl & Hops & Hr).
  destruct (make_refines _ _ _ _ Ho Hl Hm) as [R E].
  pose proof (empty_book_wf t orders levels Ho Hl) as W.
  pose proof (run_refines ops b0 _ _ R W Hops) as H.
  pose proof (spec_run_wf ops _ W Hops) as W'.
  destruct (spec_run ops _) as [a evs]. destruct H as (b' & G' & Hb' & R' & _).
  rewrite Hr in Hb'. injection Hb' as <-. eauto.
Qed.

Lemma sum_qty_app l1 l2 : sum_qty (l1 ++ l2) = sum_qty l1 + sum_qty l2.
Proof. induction l1 as [|x l1 IH]; cbn; [lia|]. rewrite IH. lia. Qed.

#[local] Instance sum_qty_perm : Proper (Permutation ==> eq) sum_qty.
Proof. intros l l'. induction 1; cbn; lia. Qed.

Lemma fill_sums s p leaves l fs lv rest :
  fill s p leaves l = (fs, lv, rest) ->
  sum_qty rest + sum_fills fs = sum_qty l /\ lv + sum_fills fs = leaves.
Proof.
  revert leaves fs lv rest. induction l as [|x l IH]; intros leaves fs lv rest Hf; cbn [fill] in Hf.
  - injection Hf as <- <- <-. cbn. lia.
  - destruct ((leaves =? 0) || _); [injection Hf as <- <- <-; cbn; lia|].
    destruct (o_qty x - Z.min leaves (o_qty x) =? 0) eqn:E.
    + destruct (fill s p (leaves - Z.min leaves (o_qty x)) l) as [[fs' lv'] rest'] eqn:Ef.
      injection Hf as <- <- <-. destruct (IH _ _ _ _ Ef). cbn. lia.
    + injection Hf as <- <- <-. cbn. lia.
Qed.

Lemma traded_app e1 e2 : traded (e1 ++ e2) = traded e1 + traded e2.
Proof. induction e1 as [|[r|u] e1 IH]; cbn; lia. Qed.

Lemma traded_fills t c s o id leaves fs :
  traded (fills_events t c s o id leaves fs) = sum_fills fs.
Proof.
  revert leaves. induction fs as [|[x q] fs IH]; intros leaves; [done|].
  cbn [fills_events]. rewrite traded_app, IH. cbn [sum_fills]. unfold fill_events. cbn [traded].
  rewrite bool_decide_true by done. rewrite bool_decide_false; [cbn; lia|].
  by case_match.
Qed.

(** The live quantity of the pointer book. *)
Lemma book_qty_sum b a G : refines b a G -> book_qty b = sum_qty (all_orders a).
Proof.
  intros R. pose proof (rf_levels _ _ _ R) as Hok.
  assert (Hf : forall m : gmap Z MEOrder, map_fold (λ _ x n, o_qty x + n) 0 m
    = sum_qty ((map_to_list m).*2)).
  { intros m. rewrite map_fold_foldr. induction (map_to_list m) as [|[k x] l IH]; [done|].
    cbn. by rewrite IH. }
  unfold book_qty. rewrite Hf. unfold all_orders.
  rewrite (refines_bids _ _ _ R), (refines_asks _ _ _ R). unfold resting. rewrite <- omap_app.
  assert (Hp : (map_to_list (blocks b)).*1 ≡ₚ ptrs (G BUY) ++ ptrs (G SELL)).
  { apply NoDup_Permutation; [apply NoDup_fst_map_to_list| |].
    - apply NoDup_app. split_and!; [by eapply ptrs_NoDup| |by eapply ptrs_NoDup].
      intros p H1 H2. destruct (ptrs_order _ _ _ Hok _ _ H1) as (x & Hx & Hs).
      destruct (ptrs_order _ _ _ Hok _ _ H2) as (x' & Hx' & Hs'). congruence.
    - intros p. rewrite elem_of_app, list_elem_of_fmap. split.
      + intros ([q x] & -> & Hx%elem_of_map_to_list). cbn.
        destruct (order_ptrs _ _ _ Hok q x Hx) as [?|Hin]; [done|].
        pose proof Hin as (g & Hg & _)%elem_of_ptrs.
        destruct (ghost_valid _ _ _ Hok _ _ Hg) as [E|E]; rewrite E in Hin; tauto.
      + intros [Hin|Hin]; destruct (ptrs_order _ _ _ Hok _ _ Hin) as (x & Hx & _);
          exists (p, x); (split; [done|by apply elem_of_map_to_list]). }
  rewrite <- Hp. assert (Hall : forall px, px ∈ map_to_list (blocks b) -> blocks b !! px.1 = Some px.2).
  { intros [p x]. by rewrite elem_of_map_to_list. }
  revert Hall. generalize (map_to_list (blocks b)). intros l Hl.
  induction l as [|[p x] l IH]; [done|]. cbn [fmap list_fmap omap list_omap].
  pose proof (Hl (p, x) ltac:(by left)) as E. cbn [fst snd] in E |- *.
  rewrite (data_lookup_eq _ _ _ E). cbn [sum_qty].
  rewrite IH by (intros; apply Hl; by right). done.
Qed.

Lemma spec_trade_sum c o t s p q a a' evs :
  valid_side s -> spec_trade c o t s p q a = (a', evs) ->
  sum_qty (all_orders a') + 2 * traded evs = sum_qty (all_orders a) + q.
Proof.
  intros Hs Ht. unfold spec_trade in Ht. cbv zeta in Ht.
  change (side_of (opposite s) (accept c o a)) with (side_of (opposite s) a) in Ht.
  destruct (fill s p q (side_of (opposite s) a)) as [[fs lv] rest] eqn:Ef.
  destruct (fill_sums _ _ _ _ _ _ _ Ef) as [H1 H2]. rewrite set_side_accept in Ht.
  set (a2 := set_side (opposite s) rest a) in *.
  assert (Ha : sum_qty (all_orders a) = sum_qty (side_of s a) + sum_qty (side_of (opposite s) a)).
  { by rewrite (all_orders_split s a Hs), sum_qty_app. }
  assert (Ha2 : sum_qty (all_orders a2) = sum_qty (side_of s a) + sum_qty rest).
  { unfold a2. rewrite (all_orders_split s _ Hs), sum_qty_app, !side_of_set_side
      by auto using valid_opposite.
    rewrite (decide_True (P := opposite s = opposite s)), decide_False by
      (done || (intros E; by apply (opposite_ne s Hs))). done. }
  destruct (lv =? 0) eqn:Elv; injection Ht as <- <-; cbn [traded].
  - rewrite traded_fills. change (sum_qty (all_orders a2) + 2 * sum_fills fs = sum_qty (all_orders a) + q).
    lia.
  - rewrite traded_app, traded_fills. cbn [traded]. rewrite bool_decide_false by done.
    set (x := mkOrder t c o (a_next_id a) s p lv _ None None).
    change (all_orders (publish ?e ?b)) with (all_orders b).
    rewrite (all_orders_set_side s _ _ Hs), enqueue_perm, sum_qty_app. cbn [sum_qty].
    change (side_of s (accept c o a2)) with (side_of s a2).
    change (side_of (opposite s) (accept c o a2)) with (side_of (opposite s) a2).
    rewrite (all_orders_split s a2 Hs), sum_qty_app in Ha2. cbn [o_qty x]. lia.
Qed.

Lemma find_order_absent k a :
  (forall x, x ∈ all_orders a -> okey x <> k) -> find_order k a = None.
Proof.
  intros Hn. unfold find_order. replace (List.filter _ _) with ([] : list MEOrder); [done|].
  symmetry. apply elem_of_nil_inv. intros x. rewrite list_elem_of_In, List.filter_In, <- list_elem_of_In.
  intros [Hx Hk%bool_decide_eq_true]. by apply (Hn x).
Qed.

Lemma find_order_unique k x a :
  NoDup (okey <$> all_orders a) -> x ∈ all_orders a -> okey x = k -> find_order k a = Some x.
Proof.
  unfold find_order. generalize (all_orders a). intros l. induction l as [|y l IH]; [set_solver|].
  cbn [fmap list_fmap List.filter]. intros [Hy Hnd]%NoDup_cons Hx Hk.
  apply elem_of_cons in Hx as [->|Hx].
  - by rewrite bool_decide_true.
  - rewrite bool_decide_false; [by apply IH|]. intros Heq. apply Hy. rewrite Heq, <- Hk.
    by apply list_elem_of_fmap_2.
Qed.

Lemma live_qty_refines k b a G :
  refines b a G -> live_qty k b = o_qty <$> find_order k a.
Proof.
  intros R. unfold live_qty. destruct (find_order k a) as [x|] eqn:E.
  - destruct (find_order_Some _ _ _ _ _ R E) as (p & y & -> & Hy & <- & _). cbn. by rewrite Hy.
  - by rewrite (find_order_None _ _ _ _ R E).
Qed.

(** An [add] on a reachable book, with its reference. *)
Lemma reachable_add t0 orders levels c o t s p q b :
  reachable t0 orders levels b -> is_u32 q ->
  exists a G b' G' evs a', refines b a G /\ book_wf a /\ spec_add c o t s p q a = (a', evs) /\
    MEOrderBook.add c o t s p q b = Ok b' /\ refines b' a' G' /\ book_wf a' /\
    bk_events b' = bk_events b ++ evs.
Proof.
  intros (a & G & R & W)%reachable_refines Hq.
  pose proof (add_refines c o t s p q b a G R W Hq) as H.
  pose proof (spec_step_wf (OpAdd c o t s p q) a W Hq) as W'. cbn [spec_step] in W'.
  destruct (spec_add c o t s p q a) as [a' evs] eqn:E. destruct H as (b' & G' & ? & ? & ?).
  cbn [fst] in W'. exists a, G, b', G', evs, a'. split_and!; done.
Qed.

Lemma filled_app k s e1 e2 : filled k s (e1 ++ e2) = filled k s e1 + filled k s e2.
Proof. induction e1 as [|[r|u] e1 IH]; cbn; lia. Qed.

(** The incoming order gets a report for every trade. *)
Lemma filled_fills t c s o id leaves fs :
  (forall x q, (x, q) ∈ fs -> o_side x <> s) ->
  filled (c, o) s (fills_events t c s o id leaves fs) = sum_fills fs.
Proof.
  revert leaves. induction fs as [|[x q] fs IH]; intros leaves Hs; [done|].
  cbn [fills_events]. rewrite filled_app, IH by (intros; eapply Hs; by right).
  assert (Hne : o_side x <> s) by (apply (Hs x q); by left).
  unfold fill_events. cbn [filled rs_type rs_client_id rs_client_order_id rs_side rs_exec_qty].
  rewrite (bool_decide_true (FILLED = FILLED)), (bool_decide_true ((c, o) = (c, o))),
    (bool_decide_true (s = s)), (bool_decide_false (o_side x = s)) by done.
  rewrite andb_false_r. cbn [andb sum_fills]. lia.
Qed.

Lemma spec_trade_filled c o t s p q a a' evs :
  book_wf a -> valid_side s -> spec_trade c o t s p q a = (a', evs) ->
  filled (c, o) s evs = traded evs.
Proof.
  intros W Hs Ht. unfold spec_trade in Ht. cbv zeta in Ht.
  change (side_of (opposite s) (accept c o a)) with (side_of (opposite s) a) in Ht.
  destruct (fill s p q (side_of (opposite s) a)) as [[fs lv] rest] eqn:Ef.
  assert (Hside : forall x r, (x, r) ∈ fs -> o_side x <> s).
  { intros x r Hx. pose proof (fill_members _ _ _ _ _ _ _ _ _ Ef Hx) as Hin.
    rewrite (ow_side _ _ _ (bw_orders _ W _ x (valid_opposite _ Hs) Hin)).
    by apply opposite_ne. }
  destruct (lv =? 0); injection Ht as _ <-; cbn [filled traded rs_type].
  - rewrite bool_decide_false by done. cbn [andb]. by rewrite filled_fills, traded_fills.
  - rewrite bool_decide_false by done. cbn [andb]. rewrite filled_app, traded_app.
    rewrite filled_fills, traded_fills by done. cbn [filled traded].
    rewrite bool_decide_false by done. lia.
Qed.

(** Positions in a sorted side. *)
Lemma before_asym s x y : before s x y -> ~ before s y x.
Proof.
  intros [H1|[H1 H1']] [H2|[H2 H2']].
  - rewrite (better_asym _ _ _ H1) in H2. done.
  - rewrite H2, better_irrefl in H1. done.
  - rewrite H1, better_irrefl in H2. done.
  - lia.
Qed.

Lemma before_irrefl s x : ~ before s x x.
Proof. intros H. by apply (before_asym _ _ _ H). Qed.

(** With [x] before [y], [x] is in every prefix that contains [y]. *)
Lemma before_prefix s l1 l2 x y :
  StronglySorted (before s) (l1 ++ l2) -> x ∈ l1 ++ l2 -> before s x y -> y ∈ l1 -> x ∈ l1.
Proof.
  intros Hs Hx Hb Hy. apply elem_of_app in Hx as [|Hx]; [done|].
  pose proof (StronglySorted_app_1_elem_of _ _ _ _ _ Hs Hy Hx) as Hyx.
  by destruct (before_asym _ _ _ Hb).
Qed.

Lemma before_prefix_head s l1 x y l2 :
  StronglySorted (before s) (l1 ++ y :: l2) -> x ∈ l1 ++ y :: l2 -> before s x y -> x ∈ l1.
Proof.
  intros Hs Hx Hb. apply elem_of_app in Hx as [|Hx]; [done|].
  apply elem_of_cons in Hx as [->|Hx]; [by apply before_irrefl in Hb|].
  apply StronglySorted_app_1_r, StronglySorted_inv in Hs as [_ Hall].
  rewrite Forall_forall in Hall. by destruct (before_asym _ _ _ Hb (Hall x Hx)).
Qed.

(** The orders that trade completely are not in the book any more; the others
    behind the last trade keep their quantity. *)
Lemma spec_trade_live c o t s p q a a' evs l1 l2 :
  book_wf a -> is_u32 q -> spec_reason c o t s p q a = NONE ->
  spec_trade c o t s p q a = (a', evs) -> side_of (opposite s) a = l1 ++ l2 ->
  (exists fs lv rest, fill s p q (l1 ++ l2) = (fs, lv, rest) /\ fill_shape s p q l1 l2 fs lv rest) ->
  (forall x, x ∈ l1 -> find_order (okey x) a' = None) /\
  (forall x, x ∈ l2 -> find_order (okey x) a' <> Some x ->
     exists l2', l2 = x :: l2' /\ MEOrderBook.too_far s p (o_price x) = false).
Proof.
  intros W Hq Hr Ht Hside (fs & lv & rest & Ef & Hsh).
  destruct (spec_reason_NONE _ _ _ _ _ _ _ Hr) as (Hc & _ & Hs & _ & _ & Hu & _ & Hn & _).
  pose proof (spec_trade_wf c o t s p q a W Hq Hr) as W'. rewrite Ht in W'. cbn [fst] in W'.
  pose proof (valid_opposite _ Hs) as Hso.
  assert (Hopp : side_of (opposite s) a' = rest).
  { unfold spec_trade in Ht. cbv zeta in Ht.
    change (side_of (opposite s) (accept c o a)) with (side_of (opposite s) a) in Ht.
    rewrite Hside, Ef in Ht. destruct (lv =? 0); injection Ht as <- _; rewrite side_of_publish.
    - by rewrite side_of_set_side, decide_True.
    - rewrite side_of_set_side, decide_False by (done || by apply opposite_ne).
      by rewrite side_of_set_side, decide_True. }
  assert (Hown : forall y, y ∈ side_of s a' -> y ∈ side_of s a \/ okey y = (c, o)).
  { intros y Hy. unfold spec_trade in Ht. cbv zeta in Ht.
    change (side_of (opposite s) (accept c o a)) with (side_of (opposite s) a) in Ht.
    rewrite Hside, Ef in Ht.
    assert (Hne : s <> opposite s) by (intros E; by apply (opposite_ne s Hs)).
    destruct (lv =? 0); injection Ht as <- _; rewrite side_of_publish in Hy.
    - rewrite side_of_set_side, decide_False in Hy by done. by left.
    - rewrite side_of_set_side, decide_True, enqueue_perm, elem_of_cons in Hy by done.
      destruct Hy as [->|Hy]; [by right|left].
      by rewrite side_of_set_side, decide_False in Hy. }
  assert (Hin : forall x, x ∈ l1 ++ l2 -> x ∈ side_of (opposite s) a) by (by rewrite Hside).
  assert (Hkey_own : forall x y, x ∈ l1 ++ l2 -> y ∈ side_of s a' -> okey y <> okey x).
  { intros x y Hx Hy Hk. apply Hin in Hx. destruct (Hown y Hy) as [Hy'|Hy'].
    - pose proof (bw_keys _ W) as Hnd. rewrite (all_orders_split s a Hs), fmap_app in Hnd.
      apply NoDup_app in Hnd as (_ & Hd & _). apply (Hd (okey y)); [by apply list_elem_of_fmap_2|].
      rewrite Hk. by apply list_elem_of_fmap_2.
    - pose proof (ow_used _ _ _ (bw_orders _ W _ x Hso Hx)). by rewrite <- Hk, Hy' in H. }
  assert (Hnd : NoDup (okey <$> l1 ++ l2)).
  { pose proof (bw_keys _ W) as Hnd. rewrite (all_orders_split s a Hs), fmap_app in Hnd.
    apply NoDup_app in Hnd as (_ & _ & Hnd). by rewrite Hside in Hnd. }
  rewrite fmap_app in Hnd. apply NoDup_app in Hnd as (_ & Hd & Hnd2).
  assert (Hrest : okey <$> rest = okey <$> l2).
  { destruct Hsh as [_ _|x l2' -> _ _]; [done|]. done. }
  split.
  - intros x Hx. apply find_order_absent. intros y Hy Hk.
    rewrite (all_orders_split s a' Hs), Hopp, elem_of_app in Hy. destruct Hy as [Hy|Hy].
    + by apply (Hkey_own x y); [rewrite elem_of_app; left|..].
    + apply (Hd (okey x)); [by apply list_elem_of_fmap_2|]. rewrite <- Hrest, <- Hk.
      by apply list_elem_of_fmap_2.
  - intros x Hx Hfind.
    assert (Hnot : x ∉ rest).
    { intros Hxr. apply Hfind, find_order_unique; [apply W'| |done].
      rewrite (all_orders_split s a' Hs), Hopp, elem_of_app. by right. }
    destruct Hsh as [_ _|y l2' E Hf _]; [done|]. subst l2. exists l2'.
    apply elem_of_cons in Hx as [->|Hx]; [done|]. destruct Hnot. by right.
Qed.

Lemma spec_step_used op a : a_used a ⊆ a_used (fst (spec_step op a)).
Proof.
  destruct op as [c o t s p q|c o t|c o]; cbn [spec_step].
  - unfold spec_add. cbv zeta. case_bool_decide; [|done]. unfold spec_trade. cbv zeta.
    destruct (fill _ _ _ _) as [[fs lv] rest].
    destruct (lv =? 0); unfold publish, set_last, set_side; repeat case_decide; cbn; set_solver.
  - unfold spec_cancel. case_match; [|done]. unfold publish, set_last, set_side.
    cbn. by case_decide.
  - unfold spec_query. repeat case_match; done.
Qed.

Lemma spec_run_used ops a : a_used a ⊆ a_used (fst (spec_run ops a)).
Proof.
  revert a. induction ops as [|op ops IH]; intros a; [done|]. cbn [spec_run].
  pose proof (spec_step_used op a) as H1. destruct (spec_step op a) as [a1 e1].
  specialize (IH a1). destruct (spec_run ops a1) as [a2 e2]. cbn in *. set_solver.
Qed.

Lemma filter_filter_ne (k k' : Z * Z) l :
  k <> k' -> List.filter (λ x, bool_decide (okey x = k)) (drop_order k' l) =
             List.filter (λ x, bool_decide (okey x = k)) l.
Proof.
  intros Hne. unfold drop_order. induction l as [|x l IH]; [done|]. cbn [List.filter].
  destruct (decide (okey x = k')) as [Hk|Hk].
  - rewrite (bool_decide_true (okey x = k')) by done. cbn [negb].
    rewrite (bool_decide_false (okey x = k)) by congruence. done.
  - rewrite (bool_decide_false (okey x = k')) by done. cbn [negb List.filter]. by rewrite IH.
Qed.

(** Looking up an order after another one was dropped from its side. *)
Lemma find_order_drop k k' s a :
  NoDup (okey <$> all_orders a) -> valid_side s ->
  (forall y, y ∈ all_orders a -> okey y = k' -> o_side y = s /\ y ∈ side_of s a) ->
  (if decide (k = k') then None else find_order k a)
  = find_order k (set_side s (drop_order k' (side_of s a)) a).
Proof.
  intros Hnd Hs Hk'. case_decide as E.
  - subst k'. symmetry. apply find_order_absent. intros y Hy Hyk.
    rewrite all_orders_set_side, elem_of_app in Hy by done. destruct Hy as [Hy|Hy].
    + unfold drop_order in Hy. rewrite list_elem_of_In, List.filter_In in Hy.
      destruct Hy as [_ Hy]. by rewrite bool_decide_true in Hy.
    + assert (Hall : y ∈ all_orders a).
      { rewrite (all_orders_split s a Hs), elem_of_app. by right. }
      destruct (Hk' y Hall Hyk) as [_ Hin].
      rewrite (all_orders_split s a Hs), fmap_app in Hnd. apply NoDup_app in Hnd as (_ & Hd & _).
      apply (Hd (okey y)); by apply list_elem_of_fmap_2.
  - unfold find_order, all_orders. destruct Hs as [-> | ->]; side_simpl;
      rewrite !List.filter_app, filter_filter_ne; done.
Qed.

#[export] Instance by_order_id_total : Total MEOrderBook.by_order_id.
Proof. intros u v. unfold MEOrderBook.by_order_id. lia. Qed.

#[export] Instance by_order_id_trans : Transitive MEOrderBook.by_order_id.
Proof. intros u v w. unfold MEOrderBook.by_order_id. lia. Qed.

(** Strictly increasing market ids. *)
Lemma sorted_by_id_strict us :
  StronglySorted MEOrderBook.by_order_id us -> NoDup (mu_order_id <$> us) ->
  StronglySorted (λ u v, mu_order_id u < mu_order_id v) us.
Proof.
  induction 1 as [|u us Hs IH Hall]; [constructor|]. cbn [fmap list_fmap].
  intros [Hu Hnd]%NoDup_cons. constructor; [by apply IH|]. rewrite Forall_forall in Hall |- *.
  intros v Hv. specialize (Hall v Hv). unfold MEOrderBook.by_order_id in Hall.
  assert (mu_order_id u <> mu_order_id v); [|lia]. intros E. apply Hu. rewrite E.
  by apply list_elem_of_fmap_2.
Qed.

Lemma res_fold_collect {A B} (f : A -> res B) (g : A -> B) l acc :
  (forall x, x ∈ l -> f x = Ok (g x)) ->
  res_fold (λ result x, u ← f x; Ok (result ++ [u])) l acc = Ok (acc ++ (g <$> l)).
Proof.
  revert acc. induction l as [|x l IH]; intros acc Hf; [by rewrite app_nil_r|].
  cbn [res_fold]. rewrite Hf by (by left). cbn [mbind res_bind].
  rewrite IH by (intros; apply Hf; by right). by rewrite <- app_assoc.
Qed.

Definition live_update (b : MEOrderBook) (x : MEOrder) : MEMarketUpdate :=
  mkUpdate MD_ADD (o_market_order_id x) (bk_ticker_id b) (o_side x) (o_price x) (o_qty x)
    (o_priority x).

Lemma refines_ids b a G p q x y :
  refines b a G -> book_wf a -> blocks b !! p = Some x -> blocks b !! q = Some y ->
  o_market_order_id x = o_market_order_id y -> p = q.
Proof.
  intros R W Hx Hy Hid. apply (refines_key_inj _ _ _ _ _ _ _ R Hx Hy).
  pose proof (refines_order _ _ _ _ _ R Hx) as Hxin. pose proof (refines_order _ _ _ _ _ R Hy) as Hyin.
  change (okey (strip x) = okey (strip y)).
  change (o_market_order_id (strip x) = o_market_order_id (strip y)) in Hid.
  pose proof (bw_ids _ W) as Hnd. revert Hxin Hyin Hid Hnd.
  generalize (strip x) (strip y) (all_orders a). intros u v l Hu Hv Hid Hnd.
  induction l as [|w l IH]; [set_solver|]. cbn [fmap list_fmap] in Hnd.
  apply NoDup_cons in Hnd as [Hw Hnd]. apply elem_of_cons in Hu as [->|Hu], Hv as [->|Hv].
  - done.
  - destruct Hw. rewrite Hid. by apply list_elem_of_fmap_2.
  - destruct Hw. rewrite <- Hid. by apply list_elem_of_fmap_2.
  - by apply IH.
Qed.

Lemma liveOrders_collect b a G :
  refines b a G -> book_wf a ->
  exists us, res_fold (λ result order, u ← MEOrderBook.live_order b order; Ok (result ++ [u]))
    (map_to_list (bk_orders b)).*2 [] = Ok us /\
    (forall u, u ∈ us <-> exists p x, blocks b !! p = Some x /\ u = live_update b x) /\
    NoDup (mu_order_id <$> us).
Proof.
  intros R W.
  set (g := λ p, match blocks b !! p with Some x => live_update b x | None => default_MEMarketUpdate end).
  set (ps := (map_to_list (bk_orders b)).*2).
  assert (Hps : forall p, p ∈ ps <-> exists x, blocks b !! p = Some x).
  { intros p. unfold ps. rewrite list_elem_of_fmap. split.
    - intros ([k q] & -> & Hk%elem_of_map_to_list). cbn.
      apply (rf_index _ _ _ R) in Hk as (x & Hx & _). eauto.
    - intros (x & Hx). exists (okey x, p). split; [done|]. apply elem_of_map_to_list.
      apply (rf_index _ _ _ R). eauto. }
  assert (Hnd : NoDup ps).
  { unfold ps. apply NoDup_fmap_2_strong; [|apply NoDup_map_to_list].
    intros [k p] [k' p'] H1%elem_of_map_to_list H2%elem_of_map_to_list E. cbn in E. subst p'.
    apply (rf_index _ _ _ R) in H1 as (x & Hx & <-), H2 as (y & Hy & <-). congruence. }
  exists (g <$> ps). split_and!.
  - rewrite (res_fold_collect _ g); [done|]. intros p (x & Hx)%Hps.
    unfold MEOrderBook.live_order, g. rewrite (load_Some _ _ _ Hx). by rewrite Hx.
  - intros u. rewrite list_elem_of_fmap. split.
    + intros (p & -> & (x & Hx)%Hps). exists p, x. unfold g. by rewrite Hx.
    + intros (p & x & Hx & ->). exists p. unfold g. rewrite Hx, Hps. eauto.
  - rewrite <- list_fmap_compose. apply NoDup_fmap_2_strong; [|done].
    intros p q (x & Hx)%Hps (y & Hy)%Hps. unfold g. cbn. rewrite Hx, Hy. cbn.
    by apply (refines_ids b a G p q x y).
Qed.
End Theory.





(** ** Properties *)

(** C4: refinement.  From a new book, every sequence of requests runs without
    a memory fault, a failed assertion or a lost iteration, emits exactly the
    responses and market updates of the reference book in the same order, and
    leaves a book that represents the reference book. *)
Theorem order_book_refines_reference t orders levels ops b :
  0 <= orders -> 0 <= levels -> MEOrderBook.make_sized t orders levels = Some b ->
  Forall op_wf ops ->
  exists b' G, book_run ops b = Ok b' /\
    bk_events b' = snd (spec_run ops (empty_book t orders levels)) /\
    refines b' (fst (spec_run ops (empty_book t orders levels))) G.
Proof.
  intros Ho Hl Hm Hops. destruct (make_refines _ _ _ _ Ho Hl Hm) as [R E].
  pose proof (run_refines ops b _ _ R (empty_book_wf t orders levels Ho Hl) Hops) as H.
  destruct (spec_run ops _) as [a evs]. destruct H as (b' & G' & Hb' & R' & E').
  exists b', G'. split_and!; [done|by rewrite E', E|done].
Qed.

Lemma demo_ops_wf : Forall op_wf demo_ops.
Proof. repeat (constructor; [cbn; unfold is_u32; lia|]). constructor. Defined.

Lemma order_book_refines_reference_witness :
  exists b b' G, MEOrderBook.make_sized 0 4 2 = Some b /\ book_run demo_ops b = Ok b' /\
    bk_events b' = snd (spec_run demo_ops (empty_book 0 4 2)) /\
    refines b' (fst (spec_run demo_ops (empty_book 0 4 2))) G.
Proof.
  eexists.
  destruct (order_book_refines_reference 0 4 2 demo_ops _ ltac:(lia) ltac:(lia) eq_refl demo_ops_wf)
    as (b' & G & H). exists b', G. split; [reflexivity|exact H].
Defined.

(** C14: invariant.  In every reachable book the best bid is below the best
    ask, and the order at the head of the best level of a side has price-time
    priority over every other order of that side. *)
Theorem book_sorted_and_uncrossed t orders levels b :
  reachable t orders levels b ->
  (forall p q x y, blocks b !! p = Some x -> blocks b !! q = Some y ->
     o_side x = BUY -> o_side y = SELL -> o_price x < o_price y) /\
  (forall s lp v f x q y, valid_side s -> best s (bk_levels b) = Some lp ->
     pool_blocks (lv_levels (bk_levels b)) !! lp = Some v -> lv_first v = Some f ->
     blocks b !! f = Some x -> blocks b !! q = Some y -> o_side y = s -> q <> f ->
     before s x y).
Proof.
  intros (a & G & R & W)%reachable_refines. split.
  - intros p q x y Hx Hy Hxs Hys. change (o_price (strip x) < o_price (strip y)).
    apply (bw_uncrossed _ W).
    + apply (refines_live _ _ _ BUY _ R); [by left|]. eauto.
    + apply (refines_live _ _ _ SELL _ R); [by right|]. eauto.
  - intros s lp v f x q y Hs Hb Hv Hf Hx Hy Hys Hne. pose proof (rf_levels _ _ _ R) as Hok.
    destruct (best_content _ _ _ s Hok Hs)
      as [(Hn & _)|(lp' & v' & f' & x' & os & Hb' & Hv' & Hf' & Hx' & Hxs' & Hp & Hr)]; [congruence|].
    assert (f' = f) as -> by congruence. assert (x' = x) as -> by congruence.
    pose proof (bw_sorted _ W s Hs) as Hsort. rewrite (rf_side _ _ _ R), Hr in Hsort by done.
    apply StronglySorted_inv in Hsort as [_ Hall]. rewrite Forall_forall in Hall.
    change (before s (strip x) (strip y)). apply Hall. destruct (order_ptrs _ _ _ Hok q y Hy) as [?|Hin]; [done|].
    change (bo_side y) with (o_side y) in Hin. rewrite Hys, Hp, elem_of_cons in Hin.
    destruct Hin as [->|Hin]; [done|]. apply list_elem_of_omap. exists q. split; [done|].
    by apply data_lookup_eq.
Qed.

Lemma run_demo_reachable ops b : Forall op_wf ops -> run_demo ops = Some b -> reachable 0 4 2 b.
Proof.
  unfold run_demo. intros Hops Hb. destruct (MEOrderBook.make_sized 0 4 2) as [b0|] eqn:E; [|done].
  exists b0, ops. destruct (book_run ops b0) eqn:Er; [|done].
  injection Hb as ->. split_and!; [done|lia|lia|done|done].
Defined.

Lemma demo_book_reachable b : demo_book = Some b -> reachable 0 4 2 b.
Proof. apply run_demo_reachable, demo_ops_wf. Defined.

Lemma queue_book_reachable b : queue_book = Some b -> reachable 0 4 2 b.
Proof.
  apply run_demo_reachable. repeat (constructor; [cbn; unfold is_u32; lia|]). constructor.
Defined.

Lemma book_sorted_and_uncrossed_witness :
  exists b, demo_book = Some b /\
    (forall p q x y, blocks b !! p = Some x -> blocks b !! q = Some y ->
     o_side x = BUY -> o_side y = SELL -> o_price x < o_price y).
Proof.
  eexists. split; [vm_compute; reflexivity|].
  refine (proj1 (book_sorted_and_uncrossed 0 4 2 _ (demo_book_reachable _ _))).
  vm_compute. reflexivity.
Defined.

(** C23: conservation.  An accepted order of quantity [q] splits into trades
    and resting quantity: the live quantity of the book grows by [q] less twice
    the volume traded, and the fills reported to the order add up to that
    volume. *)
Theorem add_conserves_quantity t0 orders levels c o t s p q b :
  reachable t0 orders levels b -> is_u32 q ->
  MEOrderBook.add_reason c o t s p q b = NONE ->
  exists b' evs, MEOrderBook.add c o t s p q b = Ok b' /\ bk_events b' = bk_events b ++ evs /\
    book_qty b' + 2 * traded evs = book_qty b + q /\ filled (c, o) s evs = traded evs.
Proof.
  intros Hb Hq Hr.
  destruct (reachable_add _ _ _ c o t s p q _ Hb Hq) as (a & G & b' & G' & evs & a' & R & W & Hs & Ha & R' & _ & E).
  rewrite (add_reason_refines _ _ _ _ _ _ _ _ _ R) in Hr. unfold spec_add in Hs.
  rewrite bool_decide_true in Hs by done.
  destruct (spec_reason_NONE _ _ _ _ _ _ _ Hr) as (_ & _ & Hvs & _).
  exists b', evs. split_and!; [done|done| |].
  - rewrite (book_qty_sum _ _ _ R), (book_qty_sum _ _ _ R'). by eapply spec_trade_sum.
  - by eapply spec_trade_filled.
Qed.

Lemma add_conserves_quantity_witness :
  exists b b' evs, demo_book = Some b /\ MEOrderBook.add 4 9 0 SELL 100 1 b = Ok b' /\
    bk_events b' = bk_events b ++ evs /\ book_qty b' + 2 * traded evs = book_qty b + 1 /\
    filled (4, 9) SELL evs = traded evs.
Proof.
  eexists.
  destruct (add_conserves_quantity 0 4 2 4 9 0 SELL 100 1 _
    (demo_book_reachable _ ltac:(vm_compute; reflexivity)) ltac:(unfold is_u32; lia)
    ltac:(vm_compute; reflexivity)) as (b' & evs & H).
  exists b', evs. split; [vm_compute; reflexivity|exact H].
Defined.

(** C24: price-time priority.  When an accepted order takes anything from a
    resting order [y], the limit allowed the price of [y], and every order
    with priority over [y] has been filled completely. *)
Theorem add_respects_priority t0 orders levels c o t s p q b b' i j x y :
  reachable t0 orders levels b -> is_u32 q ->
  MEOrderBook.add_reason c o t s p q b = NONE -> MEOrderBook.add c o t s p q b = Ok b' ->
  blocks b !! i = Some x -> blocks b !! j = Some y ->
  o_side x = opposite s -> o_side y = opposite s -> before (opposite s) x y ->
  live_qty (okey y) b' <> Some (o_qty y) ->
  MEOrderBook.too_far s p (o_price y) = false /\ live_qty (okey x) b' = None.
Proof.
  intros Hb Hq Hr Hadd Hx Hy Hxs Hys Hbef Hlost.
  destruct (reachable_add _ _ _ c o t s p q _ Hb Hq) as (a & G & b1 & G' & evs & a' & R & W & Hs & Ha & R' & W' & E).
  rewrite Hadd in Ha. injection Ha as <-.
  rewrite (add_reason_refines _ _ _ _ _ _ _ _ _ R) in Hr. unfold spec_add in Hs.
  rewrite bool_decide_true in Hs by done.
  destruct (spec_reason_NONE _ _ _ _ _ _ _ Hr) as (_ & _ & Hvs & _).
  pose proof (valid_opposite _ Hvs) as Hso.
  assert (Hxin : strip x ∈ side_of (opposite s) a) by (apply (refines_live _ _ _ _ _ R Hso); eauto).
  assert (Hyin : strip y ∈ side_of (opposite s) a) by (apply (refines_live _ _ _ _ _ R Hso); eauto).
  destruct (fill s p q (side_of (opposite s) a)) as [[fs lv] rest] eqn:Ef.
  destruct (fill_cases _ _ _ _ _ _ _ Ef (proj1 Hq) (wf_positive _ _ W Hso)) as (l1 & l2 & El & Hfar & Hsh).
  assert (Hex : exists fs lv rest, fill s p q (l1 ++ l2) = (fs, lv, rest) /\ fill_shape s p q l1 l2 fs lv rest).
  { exists fs, lv, rest. by rewrite <- El. }
  destruct (spec_trade_live _ _ _ _ _ _ _ _ _ l1 l2 W Hq Hr Hs El Hex) as [Hgone Hkept].
  pose proof (bw_sorted _ W _ Hso) as Hsort. rewrite El in Hsort, Hxin, Hyin.
  change (before (opposite s) (strip x) (strip y)) in Hbef.
  rewrite (live_qty_refines _ _ _ _ R') in Hlost. rewrite (live_qty_refines _ _ _ _ R').
  change (okey y) with (okey (strip y)) in Hlost. change (okey x) with (okey (strip x)).
  change (o_price y) with (o_price (strip y)). change (o_qty y) with (o_qty (strip y)) in Hlost.
  destruct (decide (strip y ∈ l1)) as [Hy1|Hy1].
  - rewrite Forall_forall in Hfar. split; [by apply Hfar|].
    rewrite Hgone; [done|]. by eapply before_prefix.
  - apply elem_of_app in Hyin as [?|Hy2]; [done|].
    destruct (Hkept _ Hy2) as (l2' & -> & Hf).
    { intros Hfind. by rewrite Hfind in Hlost. }
    split; [done|]. rewrite Hgone; [done|]. by eapply before_prefix_head.
Qed.

Lemma add_respects_priority_witness :
  exists b b' x y, queue_book = Some b /\ MEOrderBook.add 3 1 0 SELL 99 12 b = Ok b' /\
    blocks b !! 0 = Some x /\ blocks b !! 1 = Some y /\ before BUY x y /\
    live_qty (okey y) b' = Some 3 /\
    MEOrderBook.too_far SELL 99 (o_price y) = false /\ live_qty (okey x) b' = None.
Proof.
  eexists _, _, _, _. split; [vm_compute; reflexivity|]. split; [vm_compute; reflexivity|].
  split; [vm_compute; reflexivity|]. split; [vm_compute; reflexivity|].
  split; [right; vm_compute; done|]. split; [vm_compute; reflexivity|].
  refine (add_respects_priority 0 4 2 3 1 0 SELL 99 12 _ _ 0 1 _ _ (queue_book_reachable _ _)
    _ _ _ _ _ _ _ _ _).
  - vm_compute. reflexivity.
  - unfold is_u32. lia.
  - vm_compute. reflexivity.
  - vm_compute. reflexivity.
  - vm_compute. reflexivity.
  - vm_compute. reflexivity.
  - reflexivity.
  - reflexivity.
  - right. vm_compute. done.
  - vm_compute. discriminate.
Defined.

(** an id accepted once from a client is never accepted again. *)
Theorem client_order_id_never_reused t0 orders levels c o t s p q b b1 ops b2 t' s' p' q' :
  reachable t0 orders levels b -> is_u32 q ->
  MEOrderBook.add_reason c o t s p q b = NONE -> MEOrderBook.add c o t s p q b = Ok b1 ->
  Forall op_wf ops -> book_run ops b1 = Ok b2 ->
  MEOrderBook.add_reason c o t' s' p' q' b2 <> NONE.
Proof.
  intros Hb Hq Hr Hadd Hops Hrun.
  destruct (reachable_add _ _ _ c o t s p q _ Hb Hq) as (a & G & b' & G' & evs & a' & R & W & Hs & Ha & R' & W' & E).
  rewrite Hadd in Ha. injection Ha as <-.
  rewrite (add_reason_refines _ _ _ _ _ _ _ _ _ R) in Hr. unfold spec_add in Hs.
  rewrite bool_decide_true in Hs by done.
  pose proof (run_refines ops b1 a' G' R' W' Hops) as H.
  assert (Hused : (c, o) ∈ a_used a').
  { unfold spec_trade in Hs. cbv zeta in Hs. destruct (fill _ _ _ _) as [[fs lv] rest].
    destruct (lv =? 0); injection Hs as <- _; unfold publish, set_last, set_side;
      repeat case_decide; cbn; set_solver. }
  pose proof (spec_run_used ops a') as Hmono.
  destruct (spec_run ops a') as [a2 e2]. destruct H as (b2' & G2 & Hb2 & R2 & _).
  rewrite Hrun in Hb2. injection Hb2 as <-.
  rewrite (add_reason_refines _ _ _ _ _ _ _ _ _ R2). intros Hr2.
  destruct (spec_reason_NONE _ _ _ _ _ _ _ Hr2) as (_ & _ & _ & _ & _ & Hu & _).
  apply Hu, (Hmono _ Hused).
Qed.


Lemma client_order_id_never_reused_witness :
  exists b b1 b2, queue_book = Some b /\ MEOrderBook.add 3 1 0 SELL 99 12 b = Ok b1 /\
    book_run [OpCancel 3 1 0] b1 = Ok b2 /\ MEOrderBook.add_reason 3 1 0 BUY 50 1 b2 <> NONE.
Proof.
  eexists _, _, _. split; [vm_compute; reflexivity|]. split; [vm_compute; reflexivity|].
  split; [vm_compute; reflexivity|].
  eapply (client_order_id_never_reused 0 4 2 3 1 0 SELL 99 12 _ _ [OpCancel 3 1 0]).
  - apply queue_book_reachable. vm_compute. reflexivity.
  - unfold is_u32. lia.
  - vm_compute. reflexivity.
  - vm_compute. reflexivity.
  - repeat constructor.
  - vm_compute. reflexivity.
Defined.

(** cancelling a live order reports its remaining quantity, removes
    exactly that order, and a second cancel is rejected without effect. *)
Theorem cancel_removes_exactly t0 orders levels c o b p x :
  reachable t0 orders levels b -> bk_orders b !! (c, o) = Some p -> blocks b !! p = Some x ->
  exists b1 b2, MEOrderBook.cancel c o (bk_ticker_id b) b = Ok b1 /\
    bk_events b1 = bk_events b ++
      [Market (mkUpdate MD_CANCEL (o_market_order_id x) (bk_ticker_id b) (o_side x) (o_price x) 0
         (o_priority x));
       Response (mkResponse CANCELED c (bk_ticker_id b) o (o_market_order_id x) (o_side x)
         (o_price x) Qty_INVALID (o_qty x) NONE 0 0)] /\
    (forall k, live_qty k b1 = if decide (k = (c, o)) then None else live_qty k b) /\
    MEOrderBook.cancel c o (bk_ticker_id b1) b1 = Ok b2 /\
    bk_levels b2 = bk_levels b1 /\ bk_orders b2 = bk_orders b1 /\
    bk_events b2 = bk_events b1 ++
      [Response (mkResponse CANCEL_REJECTED c (bk_ticker_id b1) o OrderId_INVALID Side_INVALID
         Price_INVALID 0 0 INVALID_ID 0 0)].
Proof.
  intros (a & G & R & W)%reachable_refines Hp Hx.
  assert (Hk : okey x = (c, o)).
  { apply (rf_index _ _ _ R) in Hp as (y & Hy & Hk). congruence. }
  pose proof (refines_order _ _ _ _ _ R Hx) as Hin.
  pose proof (proj1 (elem_of_all_orders _ _) Hin) as (s & Hs & Hins).
  pose proof (bw_orders _ W s _ Hs Hins) as Hwf.
  assert (Hsx : o_side x = s) by exact (ow_side _ _ _ Hwf).
  assert (Hc : c < ME_MAX_NUM_CLIENTS).
  { pose proof (ow_client _ _ _ Hwf) as H. unfold okey in Hk. injection Hk as <- _. exact H. }
  assert (Hf : find_order (c, o) a = Some (strip x)) by (apply find_order_unique; [apply W|done|done]).
  pose proof (cancel_refines c o (bk_ticker_id b) b a G R W) as H.
  pose proof (spec_cancel_wf c o (bk_ticker_id b) a W) as W1.
  assert (Es : spec_cancel c o (bk_ticker_id b) a =
    let evs := [Market (mkUpdate MD_CANCEL (o_market_order_id x) (bk_ticker_id b) (o_side x)
       (o_price x) 0 (o_priority x));
       Response (mkResponse CANCELED c (bk_ticker_id b) o (o_market_order_id x) (o_side x)
         (o_price x) Qty_INVALID (o_qty x) NONE 0 0)] in
    (publish evs (set_side (o_side x) (drop_order (c, o) (side_of (o_side x) a)) a), evs)).
  { unfold spec_cancel. rewrite (rf_ticker _ _ _ R), Z.eqb_refl, (proj2 (Z.ltb_lt _ _)) by done.
    cbn [andb]. by rewrite Hf. }
  rewrite Es in H, W1. cbv zeta in H. destruct H as (b1 & G1 & Hb1 & R1 & E1).
  assert (Hlive : forall k, live_qty k b1 = if decide (k = (c, o)) then None else live_qty k b).
  { intros k. rewrite (live_qty_refines _ _ _ _ R1), (live_qty_refines _ _ _ _ R).
    change (find_order k (publish ?e ?a)) with (find_order k a).
    rewrite <- (find_order_drop k (c, o) (o_side x) a); [by case_decide|apply W|..].
    - by rewrite Hsx.
    - intros y Hy Hyk. rewrite Hsx.
      pose proof (find_order_unique (c, o) y a (bw_keys _ W) Hy Hyk) as Hy2.
      rewrite Hf in Hy2. injection Hy2 as <-. by split. }
  assert (Hno : bk_orders b1 !! (c, o) = None).
  { specialize (Hlive (c, o)). rewrite decide_True in Hlive by done. unfold live_qty in Hlive.
    destruct (bk_orders b1 !! (c, o)) as [p'|] eqn:E; [|done].
    apply (rf_index _ _ _ R1) in E as (y & Hy & _). cbn in Hlive. by rewrite Hy in Hlive. }
  eexists b1, _. split; [exact Hb1|]. split; [exact E1|]. split; [exact Hlive|].
  unfold MEOrderBook.cancel. rewrite Hno, Z.eqb_refl.
  rewrite (proj2 (Z.ltb_lt _ _)) by done. cbn [andb]. done.
Qed.

Lemma cancel_removes_exactly_witness :
  exists b b1 x, queue_book = Some b /\ blocks b !! 1 = Some x /\
    MEOrderBook.cancel 2 1 0 b = Ok b1 /\
    forall k, live_qty k b1 = if decide (k = (2, 1)) then None else live_qty k b.
Proof.
  eexists. destruct (cancel_removes_exactly 0 4 2 2 1 _ 1 _
    (queue_book_reachable _ ltac:(vm_compute; reflexivity)) ltac:(vm_compute; reflexivity)
    ltac:(vm_compute; reflexivity)) as (b1 & _ & H & _ & Hl & _).
  eexists b1, _. split; [vm_compute; reflexivity|]. split; [vm_compute; reflexivity|].
  split; [exact H|exact Hl].
Defined.

(** [liveOrders] returns one ADD per live order, by increasing market
    order id. *)
Theorem liveOrders_complete t0 orders levels b :
  reachable t0 orders levels b ->
  exists us, MEOrderBook.liveOrders b = Ok us /\
    StronglySorted (λ u v, mu_order_id u < mu_order_id v) us /\
    forall u, u ∈ us <-> exists p x, blocks b !! p = Some x /\
      u = mkUpdate MD_ADD (o_market_order_id x) (bk_ticker_id b) (o_side x) (o_price x) (o_qty x)
            (o_priority x).
Proof.
  intros (a & G & R & W)%reachable_refines.
  destruct (liveOrders_collect b a G R W) as (us & Hus & Hperm & Hnd).
  exists (merge_sort MEOrderBook.by_order_id us). unfold MEOrderBook.liveOrders. rewrite Hus.
  split; [done|]. split.
  - apply sorted_by_id_strict; [apply (StronglySorted_merge_sort _)|].
    by rewrite merge_sort_Permutation.
  - intros u. rewrite merge_sort_Permutation. apply Hperm.
Qed.

Lemma liveOrders_complete_witness :
  exists b us, queue_book = Some b /\ MEOrderBook.liveOrders b = Ok us /\
    StronglySorted (λ u v, mu_order_id u < mu_order_id v) us.
Proof.
  eexists. destruct (liveOrders_complete 0 4 2 _
    (queue_book_reachable _ ltac:(vm_compute; reflexivity))) as (us & H & Hs & _).
  exists us. split; [vm_compute; reflexivity|]. split; [exact H|exact Hs].
Defined.
