(* ===== verification/HashIndex.v ===== *)
(** [std::unordered_map], as the book variant of
    matcher/unordered_map_me_order_book.h uses it: chained buckets.

    The hash function and the policy by which the table grows belong to the
    implementation of the library; they are parameters, and everything here holds
    for all of them. *)
From S2P Require Import Prelude.
From stdpp Require Import base gmap list.
From Stdlib Require Import ZArith Lia.

Local Open Scope Z_scope.

(** The buckets, each with its entries. *)
Record HashIndex (K V : Type) : Type := mkIndex { hi_buckets : list (list (K * V)) }.
Arguments mkIndex {K V} _.
Arguments hi_buckets {K V} _.

Module HashIndex.
Section Operations.
Context {K V : Type} `{Countable K}.

(** The hash function; [policy count buckets]: the number of buckets to rehash
    to before an entry is added that makes [count], if any. *)
Context (hash : K -> Z) (policy : nat -> nat -> option nat).

Definition empty : HashIndex K V := mkIndex [[]].

Definition bucket_of (buckets : nat) (k : K) : nat := Z.to_nat (hash k mod Z.of_nat buckets).

Definition entries (h : HashIndex K V) : list (K * V) := concat (hi_buckets h).
Definition size (h : HashIndex K V) : nat := length (entries h).

(** The scan of a bucket. *)
Fixpoint scan (k : K) (bucket : list (K * V)) : option V :=
  match bucket with
  | [] => None
  | (k', v) :: bucket => if decide (k' = k) then Some v else scan k bucket
  end.

Definition find (k : K) (h : HashIndex K V) : option V :=
  bucket ← hi_buckets h !! bucket_of (length (hi_buckets h)) k; scan k bucket.

(** A new entry goes to the front of its bucket. *)
Definition push (h : HashIndex K V) (e : K * V) : HashIndex K V :=
  mkIndex (alter (cons e) (bucket_of (length (hi_buckets h)) e.1) (hi_buckets h)).

Definition rehash (buckets : nat) (h : HashIndex K V) : HashIndex K V :=
  foldl push (mkIndex (replicate (Nat.max 1 buckets) [])) (entries h).

(** [h[k] = v]. *)
Definition assign (k : K) (v : V) (h : HashIndex K V) : HashIndex K V :=
  match find k h with
  | Some _ =>
      mkIndex (alter (fmap (λ e : K * V, if decide (e.1 = k) then (k, v) else e))
        (bucket_of (length (hi_buckets h)) k) (hi_buckets h))
  | None =>
      push (match policy (S (size h)) (length (hi_buckets h)) with
            | Some buckets => rehash buckets h
            | None => h
            end) (k, v)
  end.

Definition erase (k : K) (h : HashIndex K V) : HashIndex K V :=
  mkIndex (alter (List.filter (λ e, negb (bool_decide (e.1 = k))))
    (bucket_of (length (hi_buckets h)) k) (hi_buckets h)).

(** ** The table is a finite map *)
Definition to_map (h : HashIndex K V) : gmap K V := list_to_map (entries h).

(** Every entry is in the bucket of its key, once. *)
Record hash_ok (h : HashIndex K V) : Prop := {
  ho_buckets : (0 < length (hi_buckets h))%nat;
  ho_place i bucket e : hi_buckets h !! i = Some bucket -> e ∈ bucket ->
    bucket_of (length (hi_buckets h)) e.1 = i;
  ho_keys : NoDup (entries h).*1
}.

Lemma bucket_lt n k : (0 < n)%nat -> (bucket_of n k < n)%nat.
Proof. intros Hn. unfold bucket_of. pose proof (Z.mod_pos_bound (hash k) (Z.of_nat n)). lia. Qed.

(** The entries of the bucket of a key, and the others. *)
Lemma bucket_split h k :
  hash_ok h -> exists bucket rest,
    hi_buckets h !! bucket_of (length (hi_buckets h)) k = Some bucket /\
    entries h ≡ₚ bucket ++ rest /\ k ∉ rest.*1 /\
    forall f, entries (mkIndex (alter f (bucket_of (length (hi_buckets h)) k) (hi_buckets h))) ≡ₚ f bucket ++ rest.
Proof.
  intros [Hn Hp _]. set (i := bucket_of _ k).
  destruct (lookup_lt_is_Some_2 (hi_buckets h) i) as [bucket Hb]; [by apply bucket_lt|].
  exists bucket. pose proof Hb as (l1 & l2 & E & Hl)%list_elem_of_split_length.
  exists (concat l1 ++ concat l2). split; [done|].
  assert (Hperm : forall x, concat (l1 ++ x :: l2) ≡ₚ x ++ concat l1 ++ concat l2).
  { intros x. rewrite concat_app. cbn. rewrite !app_assoc. apply Permutation_app_tail, Permutation_app_comm. }
  split; [unfold entries; rewrite E; apply Hperm|]. split.
  - intros (e & Ek & He)%list_elem_of_fmap. rewrite <- concat_app in He.
    apply list_elem_of_In, in_concat in He as (b & Hb2 & Hin). apply list_elem_of_In in Hb2, Hin.
    assert (Hj : exists j, (j <> length l1)%nat /\ hi_buckets h !! j = Some b).
    { apply elem_of_app in Hb2 as [Hb2|Hb2]; apply list_elem_of_lookup in Hb2 as (j & Hj).
      - exists j. split; [apply lookup_lt_Some in Hj; lia|]. rewrite E. by apply lookup_app_l_Some.
      - exists (length l1 + S j)%nat. split; [lia|]. rewrite E, lookup_app_r by lia.
        by replace (length l1 + S j - length l1)%nat with (S j) by lia. }
    destruct Hj as (j & Hne & Hj). pose proof (Hp _ _ _ Hj Hin) as Hbk. rewrite <- Ek in Hbk. fold i in Hbk. lia.
  - intros f. unfold entries. cbn [hi_buckets]. rewrite E. rewrite Hl, <- (Nat.add_0_r (length l1)), alter_app_r.
    cbn. apply Hperm.
Qed.

Lemma to_map_split h bucket rest :
  hash_ok h -> entries h ≡ₚ bucket ++ rest ->
  to_map h = (list_to_map bucket : gmap K V) ∪ list_to_map rest.
Proof. intros Hok Hp. unfold to_map. rewrite (list_to_map_proper _ _ (ho_keys _ Hok) Hp). apply list_to_map_app. Qed.

Lemma rest_lookup k (rest : list (K * V)) : k ∉ rest.*1 -> (list_to_map rest : gmap K V) !! k = None.
Proof. apply not_elem_of_list_to_map. Qed.

Lemma scan_ok k bucket : scan k bucket = (list_to_map bucket : gmap K V) !! k.
Proof.
  induction bucket as [|[k' v] bucket IH]; cbn; [by rewrite lookup_empty|].
  destruct (decide (k' = k)) as [->|Hne]; [by rewrite lookup_insert_eq|by rewrite lookup_insert_ne].
Qed.

Lemma find_ok k h : hash_ok h -> find k h = to_map h !! k.
Proof.
  intros Hok. destruct (bucket_split h k Hok) as (bucket & rest & Hb & Hp & Hk & _).
  unfold find. rewrite Hb. cbn. rewrite (to_map_split _ _ _ Hok Hp), lookup_union, (rest_lookup _ _ Hk), scan_ok.
  by rewrite (right_id None _).
Qed.

Lemma size_ok h : hash_ok h -> size h = base.size (to_map h).
Proof.
  intros Hok. unfold size, to_map. pose proof (map_to_list_to_map _ (ho_keys _ Hok)) as Hp.
  apply Permutation_length in Hp. rewrite <- Hp. apply length_map_to_list.
Qed.

(** A change of one bucket. *)
Lemma change_ok h k f (g : gmap K V -> gmap K V) :
  hash_ok h ->
  (forall bucket : list (K * V), NoDup bucket.*1 -> hi_buckets h !! bucket_of (length (hi_buckets h)) k = Some bucket ->
     NoDup (f bucket).*1 /\ (forall e, e ∈ f bucket -> e.1 = k \/ e.1 ∈ bucket.*1) /\
     list_to_map (f bucket) = g (list_to_map bucket)) ->
  (forall m m' : gmap K V, m' !! k = None -> g (m ∪ m') = g m ∪ m') ->
  let h' := mkIndex (alter f (bucket_of (length (hi_buckets h)) k) (hi_buckets h)) in
  hash_ok h' /\ to_map h' = g (to_map h).
Proof.
  intros Hok Hf Hg. destruct (bucket_split h k Hok) as (bucket & rest & Hb & Hp & Hk & Ha).
  pose proof (ho_keys _ Hok) as Hnd. rewrite (Permutation_map fst Hp), map_app in Hnd.
  change (map fst) with (fmap (M := list) (@fst K V)) in Hnd. apply NoDup_app in Hnd as (Hn1 & Hdis & Hn2).
  destruct (Hf bucket Hn1 Hb) as (Hn & Hkeys & Hmap). specialize (Ha f).
  set (i := bucket_of _ k) in *. set (h' := mkIndex (alter f i (hi_buckets h))) in *.
  assert (Hok' : hash_ok h').
  { split; unfold h'; cbn [hi_buckets]; rewrite ?length_alter; [apply Hok| |].
    - intros j b e Hj He. destruct (decide (j = i)) as [->|Hne].
      + rewrite list_lookup_alter_eq, Hb in Hj. injection Hj as <-.
        destruct (Hkeys e He) as [->|(e' & -> & He')%list_elem_of_fmap]; [done|]. by apply (ho_place _ Hok i bucket).
      + rewrite list_lookup_alter_ne in Hj by done. by apply (ho_place _ Hok j b).
    - fold h'. rewrite (Permutation_map fst Ha), map_app.
      change (map fst) with (fmap (M := list) (@fst K V)). apply NoDup_app. split; [done|]. split; [|done].
      intros x (e & -> & He)%list_elem_of_fmap. destruct (Hkeys e He) as [->|Hx]; [done|by apply Hdis]. }
  split; [exact Hok'|].
  rewrite (to_map_split _ _ _ Hok' Ha), (to_map_split _ _ _ Hok Hp), Hmap, Hg; [done|by apply rest_lookup].
Qed.

Lemma erase_ok k h : hash_ok h -> hash_ok (erase k h) /\ to_map (erase k h) = delete k (to_map h).
Proof.
  intros Hok. apply (change_ok h k _ (delete k) Hok).
  - intros bucket Hn _. split; [|split].
    + induction bucket as [|[k' v] bucket IH]; [constructor|]. apply NoDup_cons in Hn as [Hk Hn]. cbn.
      case_bool_decide; cbn; [by apply IH|]. apply NoDup_cons. split; [|by apply IH].
      intros (e & -> & He)%list_elem_of_fmap. apply Hk, list_elem_of_fmap. exists e. split; [done|].
      apply list_elem_of_In, filter_In in He as [He _]. by apply list_elem_of_In.
    + intros e He. right. apply list_elem_of_fmap. exists e. split; [done|].
      apply list_elem_of_In, filter_In in He as [He _]. by apply list_elem_of_In.
    + clear. induction bucket as [|[k' v] bucket IH]; cbn; [by rewrite delete_empty|].
      case_bool_decide as E; cbn.
      * by rewrite E, delete_insert_eq, IH.
      * by rewrite IH, delete_insert_ne.
  - intros m m' Hm. by rewrite delete_union, (delete_id m').
Qed.

Lemma push_ok k v h :
  hash_ok h -> to_map h !! k = None -> hash_ok (push h (k, v)) /\ to_map (push h (k, v)) = <[k := v]> (to_map h).
Proof.
  intros Hok Hk. apply (change_ok h k (cons (k, v)) (insert k v) Hok).
  - intros bucket Hn Hb. split; [|split].
    + cbn. apply NoDup_cons. split; [|done]. rewrite <- find_ok in Hk by done. unfold find in Hk. rewrite Hb in Hk.
      cbn in Hk. rewrite scan_ok in Hk. by apply not_elem_of_list_to_map in Hk.
    + intros e [->|He]%elem_of_cons; [by left|]. right. apply list_elem_of_fmap. by exists e.
    + done.
  - intros m m' _. by rewrite insert_union_l.
Qed.

Lemma empty_ok : hash_ok empty /\ to_map empty = ∅.
Proof.
  split; [|done]. split; [cbn; lia| |constructor]. intros [|i] bucket e; [|done]. by intros [= <-] ?%elem_of_nil.
Qed.

Lemma concat_replicate_nil n : concat (replicate n ([] : list (K * V))) = [].
Proof. by induction n. Qed.

Lemma rehash_ok n h : hash_ok h -> hash_ok (rehash n h) /\ to_map (rehash n h) = to_map h.
Proof.
  intros Hok. unfold rehash.
  assert (Hgen : forall es h0, hash_ok h0 -> NoDup es.*1 -> (forall k, k ∈ es.*1 -> to_map h0 !! k = None) ->
    hash_ok (foldl push h0 es) /\ to_map (foldl push h0 es) = list_to_map es ∪ to_map h0).
  { clear. intros es. induction es as [|[k v] es IH]; intros h0 H0 Hn Hk; cbn.
    { split; [done|]. by rewrite (left_id ∅ _). }
    apply NoDup_cons in Hn as [Hnk Hn].
    destruct (push_ok k v h0 H0) as [H1 E1]; [apply Hk; by left|].
    destruct (IH (push h0 (k, v)) H1 Hn) as [H2 E2].
    { intros k' Hk'. rewrite E1, lookup_insert_ne by (by intros ->). apply Hk. by right. }
    split; [done|]. rewrite E2, E1, <- insert_union_r, insert_union_l; [done|by apply not_elem_of_list_to_map]. }
  assert (H0 : hash_ok (mkIndex (replicate (Nat.max 1 n) []))).
  { split; cbn [hi_buckets]; [rewrite length_replicate; lia| |].
    - intros i bucket e [-> _]%lookup_replicate. by intros ?%elem_of_nil.
    - unfold entries. cbn [hi_buckets]. rewrite concat_replicate_nil. constructor. }
  assert (E0 : to_map (mkIndex (replicate (Nat.max 1 n) [])) = ∅).
  { unfold to_map, entries. cbn [hi_buckets]. by rewrite concat_replicate_nil. }
  destruct (Hgen (entries h) _ H0 (ho_keys _ Hok)) as [H1 E1].
  { intros k _. rewrite E0. apply lookup_empty. }
  split; [done|]. by rewrite E1, E0, (right_id ∅ _).
Qed.

Lemma assign_ok k v h :
  hash_ok h -> hash_ok (assign k v h) /\ to_map (assign k v h) = <[k := v]> (to_map h).
Proof.
  intros Hok. unfold assign. destruct (find k h) as [v0|] eqn:Ef.
  - apply (change_ok h k _ (insert k v) Hok); [|intros m m' _; by rewrite insert_union_l].
    intros bucket Hn Hb. unfold find in Ef. rewrite Hb in Ef. cbn in Ef.
    assert (Hkeys : (fmap (λ e : K * V, if decide (e.1 = k) then (k, v) else e) bucket).*1 = bucket.*1).
    { rewrite <- list_fmap_compose. apply list_fmap_ext. intros i [k' v'] _. cbn. by case_decide. }
    split; [by rewrite Hkeys|]. split.
    + intros e He. right. rewrite <- Hkeys. apply list_elem_of_fmap. by exists e.
    + clear Hkeys Hb. induction bucket as [|[k' v'] bucket IH]; [done|]. cbn in *.
      apply NoDup_cons in Hn as [Hk Hn]. destruct (decide (k' = k)) as [->|Hne]; cbn.
      * rewrite insert_insert_eq. f_equal. f_equal. clear -Hk. induction bucket as [|[k' v'] bucket IH]; [done|].
        cbn in *. apply not_elem_of_cons in Hk as [Hne Hk]. rewrite decide_False by congruence. by rewrite IH.
      * rewrite IH by done. by rewrite insert_insert_ne.
  - rewrite find_ok in Ef by done. destruct (policy _ _) as [n|]; [|by apply push_ok].
    destruct (rehash_ok n h Hok) as [H1 E1]. rewrite <- E1. apply push_ok; [done|by rewrite E1].
Qed.

End Operations.
End HashIndex.
