(* ===== verification/UnorderedBook.v ===== *)
(** The variant of the exchange's book with an unordered price index:
    matcher/unordered_map_me_order_book.{h,cpp}.

    Its state has the [std::unordered_map] of the price levels, with the hash
    function of common/types.h over those of the library; the operations are the
    variant's own text.  They are compared with those of [MEOrderBook], whose
    index is an ordered [std::map] (a [gmap]), by a simulation. *)
From S2P Require Import Prelude.
From S2P Require Import Types.
From S2P Require Import MemPool.
From S2P Require Import Ring.
From S2P Require Import PriceLevels.
From S2P Require Import MatchBook.
From S2P Require Import BookSpec.
From S2P Require Import BookRefinement.
From S2P Require Import BookInvariant.
From S2P Require Import BookTheorems.
From S2P Require Import HashIndex.
From stdpp Require Import functions base gmap list sorting.
From Stdlib Require Import ZArith Lia.

Local Open Scope Z_scope.

(** What the implementation of the standard library chooses: [std::hash] of the
    integer types and the growth of a table. *)
Class HashLibrary : Type := {
  hash_Price : Z -> Z;
  hash_int : Z -> Z;
  grow : nat -> nat -> option nat
}.

(** [PriceKey] and [PriceKeyHash]. *)
Notation PriceKey := (Side * Z)%type.
Definition PriceKeyHash `{HashLibrary} (key : PriceKey) : Z :=
  Z.lxor (hash_Price key.2) (u64 (Z.shiftl (hash_int (Side_to_Z key.1)) 1)).

(** [class UnorderedMapMEOrderBook]. *)
Record UnorderedMapMEOrderBook : Type := mkUnordered {
  ub_ticker_id : Z;
  ub_orders : gmap (Z * Z) Z;                     (* cid_oid_to_order_ *)
  ub_level_pool : MemPool Level;                  (* orders_at_price_pool_ *)
  ub_bids : option Z;                             (* bids_by_price_ *)
  ub_asks : option Z;                             (* asks_by_price_ *)
  ub_index : HashIndex PriceKey Z;                (* price_orders_at_price_ *)
  ub_order_pool : MemPool MEOrder;                (* order_pool_ *)
  ub_last : gmap (Z * Z) MEClientResponse;        (* last_order_response_ *)
  ub_next_id : Z;                                 (* next_market_order_id_ *)
  ub_used : gset (Z * Z);                         (* used_client_order_ids_ *)
  ub_events : list BookEvent
}.

Module UnorderedMapMEOrderBook.
Section Operations.
Context `{HashLibrary}.
Implicit Types b : UnorderedMapMEOrderBook.

Definition set_order_pool (p : MemPool MEOrder) b : UnorderedMapMEOrderBook :=
  mkUnordered (ub_ticker_id b) (ub_orders b) (ub_level_pool b) (ub_bids b) (ub_asks b) (ub_index b) p
    (ub_last b) (ub_next_id b) (ub_used b) (ub_events b).
Definition set_level_pool (p : MemPool Level) b : UnorderedMapMEOrderBook :=
  mkUnordered (ub_ticker_id b) (ub_orders b) p (ub_bids b) (ub_asks b) (ub_index b) (ub_order_pool b)
    (ub_last b) (ub_next_id b) (ub_used b) (ub_events b).
Definition set_price_index (h : HashIndex PriceKey Z) b : UnorderedMapMEOrderBook :=
  mkUnordered (ub_ticker_id b) (ub_orders b) (ub_level_pool b) (ub_bids b) (ub_asks b) h (ub_order_pool b)
    (ub_last b) (ub_next_id b) (ub_used b) (ub_events b).
Definition set_cid_orders (m : gmap (Z * Z) Z) b : UnorderedMapMEOrderBook :=
  mkUnordered (ub_ticker_id b) m (ub_level_pool b) (ub_bids b) (ub_asks b) (ub_index b) (ub_order_pool b)
    (ub_last b) (ub_next_id b) (ub_used b) (ub_events b).

(** [side == Side::BUY ? bids_by_price_ : asks_by_price_]. *)
Definition best (side : Side) b : option Z := if decide (side = BUY) then ub_bids b else ub_asks b.
Definition set_best (side : Side) (level : option Z) b : UnorderedMapMEOrderBook :=
  if decide (side = BUY)
  then mkUnordered (ub_ticker_id b) (ub_orders b) (ub_level_pool b) level (ub_asks b) (ub_index b)
         (ub_order_pool b) (ub_last b) (ub_next_id b) (ub_used b) (ub_events b)
  else mkUnordered (ub_ticker_id b) (ub_orders b) (ub_level_pool b) (ub_bids b) level (ub_index b)
         (ub_order_pool b) (ub_last b) (ub_next_id b) (ub_used b) (ub_events b).

(** The constructor. *)
Definition make_sized (ticker_id orders levels : Z) : option UnorderedMapMEOrderBook :=
  orders_at_price_pool ← @pool_new Level levels;
  order_pool ← @pool_new MEOrder orders;
  Some (mkUnordered ticker_id ∅ orders_at_price_pool None None HashIndex.empty order_pool ∅ 1 ∅ []).
Definition make (ticker_id : Z) : option UnorderedMapMEOrderBook :=
  make_sized ticker_id ME_MAX_ORDER_IDS ME_MAX_PRICE_LEVELS.

Definition emitResponse (response : MEClientResponse) b : UnorderedMapMEOrderBook :=
  mkUnordered (ub_ticker_id b) (ub_orders b) (ub_level_pool b) (ub_bids b) (ub_asks b) (ub_index b) (ub_order_pool b)
    (if (rs_client_id response <? ME_MAX_NUM_CLIENTS)
        && negb (bool_decide (rs_type response = REJECTED))
        && negb (bool_decide (rs_type response = CANCEL_REJECTED))
        && negb (bool_decide (rs_type response = STATE))
     then <[(rs_client_id response, rs_client_order_id response) := response]> (ub_last b)
     else ub_last b)
    (ub_next_id b) (ub_used b) (ub_events b ++ [Response response]).

Definition emitMarket (update : MEMarketUpdate) b : UnorderedMapMEOrderBook :=
  mkUnordered (ub_ticker_id b) (ub_orders b) (ub_level_pool b) (ub_bids b) (ub_asks b) (ub_index b) (ub_order_pool b)
    (ub_last b) (ub_next_id b) (ub_used b) (ub_events b ++ [Market update]).

Definition generateNewMarketOrderId b : Z * UnorderedMapMEOrderBook :=
  (ub_next_id b,
   mkUnordered (ub_ticker_id b) (ub_orders b) (ub_level_pool b) (ub_bids b) (ub_asks b) (ub_index b) (ub_order_pool b)
     (ub_last b) (u64 (ub_next_id b + 1)) (ub_used b) (ub_events b)).

(** [used_client_order_ids_[client].insert(order)]. *)
Definition use_order_id (client_id client_order_id : Z) b : UnorderedMapMEOrderBook :=
  mkUnordered (ub_ticker_id b) (ub_orders b) (ub_level_pool b) (ub_bids b) (ub_asks b) (ub_index b) (ub_order_pool b)
    (ub_last b) (ub_next_id b) ({[(client_id, client_order_id)]} ∪ ub_used b) (ub_events b).

(** *** The price levels *)
Definition getOrdersAtPrice (price : Z) (side : Side) b : option Z :=
  HashIndex.find PriceKeyHash (side, price) (ub_index b).

(** The lambda [better]. *)
Definition better (buy : bool) (left right : Z) : bool := if buy then right <? left else left <? right.

(** The do-while loop; no side has more levels than the index. *)
Fixpoint find_target (fuel : nat) (pool : MemPool Level) (buy : bool) (best target price : Z) : res Z :=
  match fuel with
  | O => Err NoFuel
  | S fuel =>
      t ← load pool target;
      target ← deref (lv_next t);
      if bool_decide (target = best) then Ok target else
      t ← load pool target;
      if better buy (lv_price t) price then find_target fuel pool buy best target price else Ok target
  end.

Definition addOrdersAtPrice (level : Z) b : res UnorderedMapMEOrderBook :=
  v ← load (ub_level_pool b) level;
  let b := set_price_index (HashIndex.assign PriceKeyHash grow (lv_side v, lv_price v) level (ub_index b)) b in
  let buy := bool_decide (lv_side v = BUY) in
  match best (lv_side v) b with
  | None =>
      p ← store level (set_nnext (Some level)) (ub_level_pool b);
      p ← store level (set_nprev (Some level)) p;
      Ok (set_best (lv_side v) (Some level) (set_level_pool p b))
  | Some first =>
      f ← load (ub_level_pool b) first;
      let new_best := better buy (lv_price v) (lv_price f) in
      target ←
        (if new_best then Ok first else
         last ← deref (lv_prev f);
         l ← load (ub_level_pool b) last;
         if better buy (lv_price v) (lv_price l)
         then find_target (S (HashIndex.size (ub_index b))) (ub_level_pool b) buy first first (lv_price v)
         else Ok first);
      t ← load (ub_level_pool b) target;
      p ← store level (set_nprev (lv_prev t)) (ub_level_pool b);
      p ← store level (set_nnext (Some target)) p;
      t ← load p target;
      before ← deref (lv_prev t);
      p ← store before (set_nnext (Some level)) p;
      p ← store target (set_nprev (Some level)) p;
      let b := set_level_pool p b in
      Ok (if new_best then set_best (lv_side v) (Some level) b else b)
  end.

Definition removeOrdersAtPrice (side : Side) (price : Z) b : res UnorderedMapMEOrderBook :=
  let best_orders_by_price := best side b in
  orders_at_price ← deref (getOrdersAtPrice price side b);
  v ← load (ub_level_pool b) orders_at_price;
  b ← (if bool_decide (lv_next v = Some orders_at_price) then Ok (set_best side None b) else
       before ← deref (lv_prev v);
       after ← deref (lv_next v);
       p ← store before (set_nnext (Some after)) (ub_level_pool b);
       p ← store after (set_nprev (Some before)) p;
       v ← load p orders_at_price;
       let b := set_level_pool p b in
       let b := if bool_decide (best_orders_by_price = Some orders_at_price)
                then set_best side (lv_next v) b else b in
       p ← store orders_at_price (λ v, set_nprev None (set_nnext None v)) (ub_level_pool b);
       Ok (set_level_pool p b));
  let b := set_price_index (HashIndex.erase PriceKeyHash (side, price) (ub_index b)) b in
  p ← deallocate orders_at_price (ub_level_pool b);
  Ok (set_level_pool p b).

Definition getNextPriority (price : Z) (side : Side) b : res Z :=
  match getOrdersAtPrice price side b with
  | None => Ok 1
  | Some orders_at_price =>
      v ← load (ub_level_pool b) orders_at_price;
      first ← deref (lv_first v);
      f ← load (ub_order_pool b) first;
      prev ← deref (o_prev f);
      x ← load (ub_order_pool b) prev;
      Ok (u64 (o_priority x + 1))
  end.

(** The removal of an order from the queue of its level. *)
Definition remove_from_level (order : Z) b : res UnorderedMapMEOrderBook :=
  x ← load (ub_order_pool b) order;
  let orders_at_price := getOrdersAtPrice (o_price x) (o_side x) b in
  if bool_decide (o_prev x = Some order) then removeOrdersAtPrice (o_side x) (o_price x) b else
  order_before ← deref (o_prev x);
  order_after ← deref (o_next x);
  p ← store order_before (set_nnext (Some order_after)) (ub_order_pool b);
  p ← store order_after (set_nprev (Some order_before)) p;
  let b := set_order_pool p b in
  level ← deref orders_at_price;
  v ← load (ub_level_pool b) level;
  b ← (if bool_decide (lv_first v = Some order)
       then q ← store level (set_lv_first (Some order_after)) (ub_level_pool b); Ok (set_level_pool q b)
       else Ok b);
  p ← store order (λ x, set_nprev None (set_nnext None x)) (ub_order_pool b);
  Ok (set_order_pool p b).

Definition removeOrder (order : Z) b : res UnorderedMapMEOrderBook :=
  b ← remove_from_level order b;
  x ← load (ub_order_pool b) order;
  _ ← ASSERT (o_client_id x <? ME_MAX_NUM_CLIENTS);
  let b := set_cid_orders (delete (o_client_id x, o_client_order_id x) (ub_orders b)) b in
  p ← deallocate order (ub_order_pool b);
  Ok (set_order_pool p b).

(** The insertion of an order into a level, a new one if need be. *)
Definition add_to_level (order : Z) b : res UnorderedMapMEOrderBook :=
  x ← load (ub_order_pool b) order;
  match getOrdersAtPrice (o_price x) (o_side x) b with
  | None =>
      p ← store order (set_nprev (Some order)) (ub_order_pool b);
      p ← store order (set_nnext (Some order)) p;
      let b := set_order_pool p b in
      let '(new_orders_at_price, q) :=
        allocate (mkLevel (o_side x) (o_price x) (Some order) None None) (ub_level_pool b) in
      level ← deref new_orders_at_price;
      addOrdersAtPrice level (set_level_pool q b)
  | Some orders_at_price =>
      v ← load (ub_level_pool b) orders_at_price;
      first_order ← deref (lv_first v);
      f ← load (ub_order_pool b) first_order;
      before ← deref (o_prev f);
      p ← store before (set_nnext (Some order)) (ub_order_pool b);
      f ← load p first_order;
      p ← store order (set_nprev (o_prev f)) p;
      p ← store order (set_nnext (Some first_order)) p;
      p ← store first_order (set_nprev (Some order)) p;
      Ok (set_order_pool p b)
  end.

(** [cid_oid_to_order_[client]]: out of range is undefined behaviour, which
    the model takes as a failure. *)
Definition addOrder (order : Z) b : res UnorderedMapMEOrderBook :=
  b ← add_to_level order b;
  x ← load (ub_order_pool b) order;
  _ ← ASSERT (o_client_id x <? ME_MAX_NUM_CLIENTS);
  Ok (set_cid_orders (<[(o_client_id x, o_client_order_id x) := order]> (ub_orders b)) b).

(** *** Requests *)
(** [match]: one fill of the incoming order against the resting order [itr];
    returns the remaining quantity of the incoming order. *)
Definition match_order (ticker_id client_id : Z) (side : Side) (client_order_id new_market_order_id : Z)
    (itr : Z) (leaves_qty : Z) b : res (Z * UnorderedMapMEOrderBook) :=
  order ← load (ub_order_pool b) itr;
  let order_qty := o_qty order in
  let fill_qty := Z.min leaves_qty order_qty in
  let leaves_qty := u32 (leaves_qty - fill_qty) in
  p ← store itr (λ o, set_o_qty (u32 (o_qty o - fill_qty)) o) (ub_order_pool b);
  let b := set_order_pool p b in
  order ← load (ub_order_pool b) itr;
  let b := emitResponse (mkResponse FILLED client_id ticker_id client_order_id new_market_order_id
    side (o_price order) fill_qty leaves_qty NONE 0 0) b in
  let b := emitResponse (mkResponse FILLED (o_client_id order) ticker_id (o_client_order_id order)
    (o_market_order_id order) (o_side order) (o_price order) fill_qty (o_qty order) NONE 0 0) b in
  let b := emitMarket (mkUpdate MD_TRADE OrderId_INVALID ticker_id side (o_price order) fill_qty
    Priority_INVALID) b in
  if o_qty order =? 0 then
    let b := emitMarket (mkUpdate MD_CANCEL (o_market_order_id order) ticker_id (o_side order)
      (o_price order) order_qty Priority_INVALID) b in
    b ← removeOrder itr b;
    Ok (leaves_qty, b)
  else
    let b := emitMarket (mkUpdate MD_MODIFY (o_market_order_id order) ticker_id (o_side order)
      (o_price order) (o_qty order) (o_priority order)) b in
    Ok (leaves_qty, b).

(** The two loops of [checkForMatch] are the same with the sides and the
    comparison exchanged. *)
Definition too_far (side : Side) (price resting : Z) : bool :=
  if decide (side = BUY) then price <? resting else resting <? price.

Fixpoint match_loop (fuel : nat) (client_id client_order_id ticker_id : Z) (side : Side)
    (price leaves_qty new_market_order_id : Z) b : res (Z * UnorderedMapMEOrderBook) :=
  match fuel with
  | 0%nat => Err NoFuel
  | S fuel =>
      if leaves_qty =? 0 then Ok (leaves_qty, b) else
      match best (if decide (side = BUY) then SELL else BUY) b with
      | None => Ok (leaves_qty, b)
      | Some level =>
          v ← load (ub_level_pool b) level;
          itr ← deref (lv_first v);
          x ← load (ub_order_pool b) itr;
          if too_far side price (o_price x) then Ok (leaves_qty, b) else
          '(leaves_qty, b) ← match_order ticker_id client_id side client_order_id
            new_market_order_id itr leaves_qty b;
          match_loop fuel client_id client_order_id ticker_id side price leaves_qty
            new_market_order_id b
      end
  end.

Definition checkForMatch (client_id client_order_id ticker_id : Z) (side : Side)
    (price qty new_market_order_id : Z) b : res (Z * UnorderedMapMEOrderBook) :=
  if decide (side = BUY \/ side = SELL) then
    match_loop (S (size (pool_blocks (ub_order_pool b)))) client_id client_order_id
      ticker_id side price qty new_market_order_id b
  else Ok (qty, b).

(** The guards of [add], in order. *)
Definition add_reason (client_id client_order_id ticker_id : Z) (side : Side) (price qty : Z)
    b : RejectReason :=
  if (ME_MAX_NUM_CLIENTS <=? client_id) || negb (ticker_id =? ub_ticker_id b)
     || (client_order_id =? 0) || (ME_MAX_ORDER_IDS <=? client_order_id) then INVALID_ID
  else if negb (bool_decide (side = BUY)) && negb (bool_decide (side = SELL)) then INVALID_SIDE
  else if (price <=? 0) || (price =? Price_INVALID) then INVALID_PRICE
  else if (qty =? 0) || (qty =? Qty_INVALID) || (INT32_MAX <? qty) then INVALID_QTY
  else if bool_decide ((client_id, client_order_id) ∈ ub_used b) then DUPLICATE_ID
  else if (pool_available (ub_order_pool b) =? 0) || (ME_MAX_ORDER_IDS <=? ub_next_id b)
     || (bool_decide (getOrdersAtPrice price side b = None)
         && (pool_available (ub_level_pool b) =? 0)) then CAPACITY
  else NONE.

Definition add (client_id client_order_id ticker_id : Z) (side : Side) (price qty : Z)
    b : res UnorderedMapMEOrderBook :=
  let reason := add_reason client_id client_order_id ticker_id side price qty b in
  if negb (bool_decide (reason = NONE)) then
    Ok (emitResponse (mkResponse REJECTED client_id ticker_id client_order_id OrderId_INVALID
      side price 0 0 reason 0 0) b)
  else
  let b := use_order_id client_id client_order_id b in
  let '(new_market_order_id, b) := generateNewMarketOrderId b in
  let b := emitResponse (mkResponse ACCEPTED client_id ticker_id client_order_id
    new_market_order_id side price 0 qty NONE 0 0) b in
  '(leaves_qty, b) ← checkForMatch client_id client_order_id ticker_id side price qty
    new_market_order_id b;
  if leaves_qty =? 0 then Ok b else
  priority ← getNextPriority price side b;
  let '(order, p) := allocate (mkOrder ticker_id client_id client_order_id new_market_order_id
    side price leaves_qty priority None None) (ub_order_pool b) in
  order ← deref order;
  b ← addOrder order (set_order_pool p b);
  Ok (emitMarket (mkUpdate MD_ADD new_market_order_id ticker_id side price leaves_qty priority) b).

Definition cancel (client_id order_id ticker_id : Z) b : res UnorderedMapMEOrderBook :=
  let exchange_order :=
    if (client_id <? ME_MAX_NUM_CLIENTS) && (ticker_id =? ub_ticker_id b)
    then ub_orders b !! (client_id, order_id) else None in
  match exchange_order with
  | None =>
      Ok (emitResponse (mkResponse CANCEL_REJECTED client_id ticker_id order_id OrderId_INVALID
        Side_INVALID Price_INVALID 0 0 INVALID_ID 0 0) b)
  | Some order =>
      x ← load (ub_order_pool b) order;
      let client_response := mkResponse CANCELED client_id ticker_id order_id
        (o_market_order_id x) (o_side x) (o_price x) Qty_INVALID (o_qty x) NONE 0 0 in
      let market_update := mkUpdate MD_CANCEL (o_market_order_id x) ticker_id (o_side x)
        (o_price x) 0 (o_priority x) in
      b ← removeOrder order b;
      Ok (emitResponse client_response (emitMarket market_update b))
  end.

Definition query (client_id order_id : Z) b : UnorderedMapMEOrderBook :=
  if ME_MAX_NUM_CLIENTS <=? client_id then b else
  if order_id =? 0 then
    emitResponse (mkResponse STATE client_id (ub_ticker_id b) 0 OrderId_INVALID
      Side_INVALID Price_INVALID 0 0 NONE 0 0) b
  else
  match ub_last b !! (client_id, order_id) with
  | None =>
      emitResponse (mkResponse REJECTED client_id (ub_ticker_id b) order_id
        OrderId_INVALID Side_INVALID Price_INVALID 0 0 INVALID_ID 0 0) b
  | Some response =>
      emitResponse (set_rs_exec_qty 0 (set_rs_type STATE response)) b
  end.

Definition live_order b (order : Z) : res MEMarketUpdate :=
  x ← load (ub_order_pool b) order;
  Ok (mkUpdate MD_ADD (o_market_order_id x) (ub_ticker_id b) (o_side x) (o_price x) (o_qty x)
    (o_priority x)).

Definition liveOrders b : res (list MEMarketUpdate) :=
  result ← res_fold (λ result order, u ← live_order b order; Ok (result ++ [u]))
    (map_to_list (ub_orders b)).*2 [];
  Ok (merge_sort MEOrderBook.by_order_id result).
End Operations.
End UnorderedMapMEOrderBook.

(** ** The simulation *)

(** The same event, but for the remaining quantity in the answer to a query. *)
Definition same_event (e e' : BookEvent) : Prop :=
  e = e' \/ exists r, rs_type r = STATE /\ e' = Response r /\ e = Response (set_rs_leaves_qty 0 r).

(** The state, read as one of [MEOrderBook]. *)
Definition levels_of `{HashLibrary} (u : UnorderedMapMEOrderBook) : Levels MEOrder :=
  mkLevels (ub_order_pool u) (ub_level_pool u) (HashIndex.to_map (ub_index u)) (ub_bids u) (ub_asks u).
Definition as_book `{HashLibrary} (u : UnorderedMapMEOrderBook) (events : list BookEvent) : MEOrderBook :=
  mkBook (ub_ticker_id u) (levels_of u) (ub_orders u) (ub_last u) (ub_next_id u) (ub_used u) events.

Notation index_ok u := (HashIndex.hash_ok PriceKeyHash (ub_index u)).

Record mirror `{HashLibrary} (u : UnorderedMapMEOrderBook) (b : MEOrderBook) : Prop := {
  mi_index : index_ok u;
  mi_book : b = as_book u (bk_events b);
  mi_events : Forall2 same_event (bk_events b) (ub_events u)
}.

(** Both fail in the same way, or both return related values. *)
Definition agree {A B} (R : A -> B -> Prop) (m : res A) (m' : res B) : Prop :=
  match m, m' with
  | Ok a, Ok b => R a b
  | Err e, Err e' => e = e'
  | _, _ => False
  end.

Lemma agree_bind {A B A' B'} (R : A -> B -> Prop) (S : A' -> B' -> Prop) m m' (f : A -> res A') (g : B -> res B') :
  agree R m m' -> (forall a b, R a b -> agree S (f a) (g b)) -> agree S (m ≫= f) (m' ≫= g).
Proof. destruct m, m'; cbn; auto; done. Qed.

Lemma agree_mono {A B} (R S : A -> B -> Prop) m m' : agree R m m' -> (forall a b, R a b -> S a b) -> agree S m m'.
Proof. destruct m, m'; cbn; auto. Qed.

(** The next call, the same on both sides. *)
Ltac next_call t :=
  lazymatch t with
  | mbind _ ?m => next_call m
  | _ => t
  end.
Tactic Notation "same_call" "as" ident(x) :=
  match goal with
  | |- agree _ ?l ?r =>
      let m := next_call l in let m' := next_call r in
      change m' with m; destruct m as [x|]; cbn [mbind res_bind]; [|exact eq_refl]
  end.
Ltac same_call := let x := fresh "r" in same_call as x.

Section Simulation.
Context `{HashLibrary}.
Implicit Types u : UnorderedMapMEOrderBook.

(** The members that the operations on levels leave alone. *)
Definition others u : Z * gmap (Z * Z) Z * gmap (Z * Z) MEClientResponse * Z * gset (Z * Z) * list BookEvent :=
  (ub_ticker_id u, ub_orders u, ub_last u, ub_next_id u, ub_used u, ub_events u).

Definition same_levels u0 u (l : Levels MEOrder) : Prop := index_ok u /\ l = levels_of u /\ others u = others u0.

Lemma get_agrees price side u :
  index_ok u -> UnorderedMapMEOrderBook.getOrdersAtPrice price side u = getOrdersAtPrice price side (levels_of u).
Proof. apply HashIndex.find_ok. Qed.

Lemma better_agrees s l r : UnorderedMapMEOrderBook.better (bool_decide (s = BUY)) l r = better s l r.
Proof. unfold UnorderedMapMEOrderBook.better, better. by destruct (decide (s = BUY)); [rewrite bool_decide_true|rewrite bool_decide_false]. Qed.

Lemma find_target_agrees fuel pool s bst target price :
  UnorderedMapMEOrderBook.find_target fuel pool (bool_decide (s = BUY)) bst target price
  = find_target fuel pool s bst price target.
Proof.
  revert target. induction fuel as [|fuel IH]; intros target; [done|].
  cbn [UnorderedMapMEOrderBook.find_target find_target].
  destruct (load pool target) as [t|]; [|done]. cbn [mbind res_bind].
  destruct (deref (lv_next t)) as [n|]; [|done]. cbn [mbind res_bind]. case_match; [done|].
  destruct (load pool n) as [t'|]; [|done]. cbn [mbind res_bind]. rewrite better_agrees. case_match; [apply IH|done].
Qed.

Lemma best_agrees s u : best s (levels_of u) = UnorderedMapMEOrderBook.best s u.
Proof. done. Qed.

Lemma set_index_agrees h m u :
  HashIndex.to_map h = m -> set_index m (levels_of u) = levels_of (UnorderedMapMEOrderBook.set_price_index h u).
Proof. by intros <-. Qed.

Lemma set_best_agrees u0 s p u :
  index_ok u -> others u = others u0 ->
  same_levels u0 (UnorderedMapMEOrderBook.set_best s p u) (set_best s p (levels_of u)).
Proof. intros Hi Ho. unfold same_levels, UnorderedMapMEOrderBook.set_best, set_best. by case_decide. Qed.

Lemma addOrdersAtPrice_agrees level u :
  index_ok u ->
  agree (same_levels u) (UnorderedMapMEOrderBook.addOrdersAtPrice level u) (addOrdersAtPrice level (levels_of u)).
Proof.
  intros Hi. unfold UnorderedMapMEOrderBook.addOrdersAtPrice, addOrdersAtPrice. cbn [lv_levels levels_of].
  destruct (load (ub_level_pool u) level) as [v|]; [|done]. cbn [mbind res_bind].
  destruct (HashIndex.assign_ok PriceKeyHash grow (lv_side v, lv_price v) level (ub_index u) Hi) as [Hi' Em].
  set (h := HashIndex.assign _ _ _ _ _) in *.
  set (u1 := UnorderedMapMEOrderBook.set_price_index h u).
  rewrite (set_index_agrees _ _ _ Em), best_agrees. fold u1. assert (Ho : others u1 = others u) by done.
  destruct (UnorderedMapMEOrderBook.best (lv_side v) u1) as [first|].
  - change (lv_levels (levels_of u1)) with (ub_level_pool u1).
    destruct (load (ub_level_pool u1) first) as [f|]; [|done]. cbn [mbind res_bind]. rewrite better_agrees.
    apply (agree_bind (=)).
    + destruct (better _ _ (lv_price f)); [done|]. same_call. same_call. rewrite better_agrees.
      destruct (better _ _ _); [|done]. rewrite find_target_agrees.
      change (lv_index (levels_of u1)) with (HashIndex.to_map (ub_index u1)).
      rewrite (HashIndex.size_ok PriceKeyHash) by exact Hi'. by destruct (find_target _ _ _ _ _ _).
    + intros target _ <-. unfold link_level. do 7 same_call.
      destruct (better _ _ (lv_price f)); [|by split]. by apply set_best_agrees.
  - change (lv_levels (levels_of u1)) with (ub_level_pool u1). do 2 same_call.
    by apply (set_best_agrees u (lv_side v) (Some level) (UnorderedMapMEOrderBook.set_level_pool _ u1)).
Qed.
Lemma removeOrdersAtPrice_agrees side price u :
  index_ok u ->
  agree (same_levels u) (UnorderedMapMEOrderBook.removeOrdersAtPrice side price u)
    (removeOrdersAtPrice side price (levels_of u)).
Proof.
  intros Hi. unfold UnorderedMapMEOrderBook.removeOrdersAtPrice, removeOrdersAtPrice.
  rewrite get_agrees by done. same_call as level. cbn [lv_levels levels_of].
  destruct (load (ub_level_pool u) level) as [v|] eqn:Ev; [|done]. cbn [mbind res_bind].
  apply (agree_bind (same_levels u)).
  - destruct (bool_decide (lv_next v = Some level)); [by apply set_best_agrees|].
    unfold unlink, clear_links. rewrite Ev. cbn [mbind res_bind]. do 3 same_call. same_call as p. same_call as v'.
    rewrite best_agrees. set (u1 := UnorderedMapMEOrderBook.set_level_pool p u).
    change (set_levels p (levels_of u)) with (levels_of u1).
    assert (Hsame : forall q : option Z, same_levels u
      (if bool_decide (UnorderedMapMEOrderBook.best side u = Some level)
       then UnorderedMapMEOrderBook.set_best side q u1 else u1)
      (if bool_decide (UnorderedMapMEOrderBook.best side u = Some level)
       then set_best side q (levels_of u1) else levels_of u1)).
    { intros q. case_bool_decide; [by apply set_best_agrees|by split]. }
    destruct (Hsame (lv_next v')) as (H1 & -> & H2). cbn [lv_levels levels_of]. same_call. by split.
  - intros u1 l (H1 & -> & H2).
    destruct (HashIndex.erase_ok PriceKeyHash (side, price) (ub_index u1) H1) as [H1' Em].
    rewrite (set_index_agrees _ _ _ Em). set (u2 := UnorderedMapMEOrderBook.set_price_index _ u1).
    cbn [lv_levels levels_of]. same_call. by split.
Qed.

(** ** Orders in their levels *)
Lemma remove_from_level_agrees order u :
  index_ok u ->
  agree (same_levels u) (UnorderedMapMEOrderBook.remove_from_level order u) (detachOrder order (levels_of u)).
Proof.
  intros Hi. unfold UnorderedMapMEOrderBook.remove_from_level, detachOrder. cbn [lv_orders levels_of].
  destruct (load (ub_order_pool u) order) as [x|] eqn:Ex; [|done]. cbn [mbind res_bind].
  rewrite get_agrees by done. change (bo_price x) with (o_price x). change (bo_side x) with (o_side x).
  change (nprev x) with (o_prev x).
  destruct (bool_decide (o_prev x = Some order)); [by apply removeOrdersAtPrice_agrees|].
  unfold unlink, clear_links. rewrite Ex. cbn [mbind res_bind]. change (nnext x) with (o_next x). same_call.
  destruct (o_next x) as [after|]; [|done]. cbn [deref mbind res_bind]. same_call. same_call as p. do 2 same_call.
  apply (agree_bind (same_levels u)).
  - case_bool_decide; [same_call|]; by split.
  - intros u1 l (H1 & -> & H2). cbn [lv_orders levels_of]. same_call. by split.
Qed.

Lemma add_to_level_agrees order u :
  index_ok u ->
  agree (same_levels u) (UnorderedMapMEOrderBook.add_to_level order u) (attachOrder order (levels_of u)).
Proof.
  intros Hi. unfold UnorderedMapMEOrderBook.add_to_level, attachOrder. cbn [lv_orders levels_of].
  destruct (load (ub_order_pool u) order) as [x|]; [|done]. cbn [mbind res_bind].
  rewrite get_agrees by done. change (bo_price x) with (o_price x). change (bo_side x) with (o_side x).
  destruct (getOrdersAtPrice (o_price x) (o_side x) (levels_of u)) as [level|].
  - cbn [lv_levels levels_of]. unfold push_order. do 9 same_call. by split.
  - same_call. same_call as p. cbn [lv_levels levels_of set_orders ub_level_pool UnorderedMapMEOrderBook.set_order_pool].
    destruct (allocate _ (ub_level_pool u)) as [new q].
    same_call as level. set (u1 := UnorderedMapMEOrderBook.set_level_pool q (UnorderedMapMEOrderBook.set_order_pool p u)).
    eapply agree_mono; [exact (addOrdersAtPrice_agrees level u1 Hi)|]. intros u2 l (H1 & H2 & H3). by split.
Qed.

(** ** Operations of the book *)
Lemma mirror_intro u evs : index_ok u -> Forall2 same_event evs (ub_events u) -> mirror u (as_book u evs).
Proof. by split. Qed.

Lemma others_book u u0 evs :
  others u = others u0 -> as_book u evs = MEOrderBook.with_levels (levels_of u) (as_book u0 evs).
Proof. unfold others. intros [= E1 E2 E3 E4 E5 E6]. unfold as_book, MEOrderBook.with_levels. cbn. congruence. Qed.

Lemma others_events u u0 : others u = others u0 -> ub_events u = ub_events u0.
Proof. unfold others. congruence. Qed.

Lemma removeOrder_agrees order u evs :
  index_ok u -> Forall2 same_event evs (ub_events u) ->
  agree mirror (UnorderedMapMEOrderBook.removeOrder order u) (MEOrderBook.removeOrder order (as_book u evs)).
Proof.
  intros Hi He. unfold UnorderedMapMEOrderBook.removeOrder, MEOrderBook.removeOrder.
  eapply agree_bind; [exact (remove_from_level_agrees order u Hi)|]. intros u1 l (H1 & -> & H2). cbv zeta.
  rewrite <- (others_book u1 u evs H2). rewrite <- (others_events _ _ H2) in He. do 3 same_call. by split.
Qed.

Lemma addOrder_agrees order u evs :
  index_ok u -> Forall2 same_event evs (ub_events u) ->
  agree mirror (UnorderedMapMEOrderBook.addOrder order u) (MEOrderBook.addOrder order (as_book u evs)).
Proof.
  intros Hi He. unfold UnorderedMapMEOrderBook.addOrder, MEOrderBook.addOrder.
  eapply agree_bind; [exact (add_to_level_agrees order u Hi)|]. intros u1 l (H1 & -> & H2). cbv zeta.
  rewrite <- (others_book u1 u evs H2). rewrite <- (others_events _ _ H2) in He. do 2 same_call. by split.
Qed.

Lemma mirror_cases u b :
  mirror u b -> exists evs, b = as_book u evs /\ index_ok u /\ Forall2 same_event evs (ub_events u).
Proof. intros [H1 H2 H3]. by exists (bk_events b). Qed.

Lemma same_snoc evs evs' e e' :
  Forall2 same_event evs evs' -> same_event e e' -> Forall2 same_event (evs ++ [e]) (evs' ++ [e']).
Proof. intros H1 H2. apply Forall2_app; [done|by constructor]. Qed.

Lemma emitResponse_mirror r u b :
  mirror u b -> mirror (UnorderedMapMEOrderBook.emitResponse r u) (MEOrderBook.emitResponse r b).
Proof.
  intros (evs & -> & Hi & He)%mirror_cases.
  apply (mirror_intro (UnorderedMapMEOrderBook.emitResponse r u) (evs ++ [Response r])); [done|].
  apply same_snoc; [done|by left].
Qed.

Lemma emitMarket_mirror m u b :
  mirror u b -> mirror (UnorderedMapMEOrderBook.emitMarket m u) (MEOrderBook.emitMarket m b).
Proof.
  intros (evs & -> & Hi & He)%mirror_cases.
  apply (mirror_intro (UnorderedMapMEOrderBook.emitMarket m u) (evs ++ [Market m])); [done|].
  apply same_snoc; [done|by left].
Qed.

Hint Resolve emitResponse_mirror emitMarket_mirror mirror_intro : core.

Definition mirror_qty (x : Z * UnorderedMapMEOrderBook) (y : Z * MEOrderBook) : Prop :=
  x.1 = y.1 /\ mirror x.2 y.2.

Lemma removeOrder_mirror order u b :
  mirror u b -> agree mirror (UnorderedMapMEOrderBook.removeOrder order u) (MEOrderBook.removeOrder order b).
Proof. intros (evs & -> & Hi & He)%mirror_cases. by apply removeOrder_agrees. Qed.

Lemma match_order_agrees t c s o id itr leaves u b :
  mirror u b ->
  agree mirror_qty (UnorderedMapMEOrderBook.match_order t c s o id itr leaves u)
    (MEOrderBook.match_order t c s o id itr leaves b).
Proof.
  intros (evs & -> & Hi & He)%mirror_cases. unfold UnorderedMapMEOrderBook.match_order, MEOrderBook.match_order.
  same_call. same_call as p. cbv zeta.
  set (u1 := UnorderedMapMEOrderBook.set_order_pool p u).
  change (MEOrderBook.with_levels (set_orders p (bk_levels (as_book u evs))) (as_book u evs)) with (as_book u1 evs).
  assert (H1 : mirror u1 (as_book u1 evs)) by auto. same_call as x.
  destruct (o_qty x =? 0); [|split; [done|]; cbn [snd]; auto].
  eapply agree_bind; [apply removeOrder_mirror; auto|]. intros u2 b2 H2. by split.
Qed.

Lemma match_loop_agrees fuel c o t s p leaves id u b :
  mirror u b ->
  agree mirror_qty (UnorderedMapMEOrderBook.match_loop fuel c o t s p leaves id u)
    (MEOrderBook.match_loop fuel c o t s p leaves id b).
Proof.
  revert leaves u b. induction fuel as [|fuel IH]; intros leaves u b Hm; [done|].
  cbn [UnorderedMapMEOrderBook.match_loop MEOrderBook.match_loop].
  destruct (leaves =? 0); [by split|]. pose proof Hm as (evs & -> & Hi & He)%mirror_cases.
  change (best ?s' (bk_levels (as_book u evs))) with (UnorderedMapMEOrderBook.best s' u).
  destruct (UnorderedMapMEOrderBook.best _ u) as [level|]; [|by split].
  do 2 same_call. same_call as x.
  change (MEOrderBook.too_far s p (o_price x)) with (UnorderedMapMEOrderBook.too_far s p (o_price x)).
  destruct (UnorderedMapMEOrderBook.too_far s p (o_price x)); [by split|].
  eapply agree_bind; [by apply match_order_agrees|]. intros [l1 u1] [l2 b2] [E H2]. cbn [fst snd] in *. subst l2. by apply IH.
Qed.

Lemma checkForMatch_agrees c o t s p q id u b :
  mirror u b ->
  agree mirror_qty (UnorderedMapMEOrderBook.checkForMatch c o t s p q id u)
    (MEOrderBook.checkForMatch c o t s p q id b).
Proof.
  intros Hm. unfold UnorderedMapMEOrderBook.checkForMatch, MEOrderBook.checkForMatch.
  destruct (decide _); [|by split]. pose proof Hm as (evs & E & _)%mirror_cases.
  replace (pool_blocks (lv_orders (bk_levels b))) with (pool_blocks (ub_order_pool u)) by (by rewrite E).
  by apply match_loop_agrees.
Qed.

Lemma getNextPriority_agrees p s u evs :
  index_ok u ->
  UnorderedMapMEOrderBook.getNextPriority p s u = MEOrderBook.getNextPriority p s (as_book u evs).
Proof.
  intros Hi. unfold UnorderedMapMEOrderBook.getNextPriority, MEOrderBook.getNextPriority. by rewrite get_agrees.
Qed.

Lemma add_reason_agrees c o t s p q u evs :
  index_ok u ->
  UnorderedMapMEOrderBook.add_reason c o t s p q u = MEOrderBook.add_reason c o t s p q (as_book u evs).
Proof.
  intros Hi. unfold UnorderedMapMEOrderBook.add_reason, MEOrderBook.add_reason. by rewrite get_agrees.
Qed.

Lemma add_agrees c o t s p q u b :
  mirror u b ->
  agree mirror (UnorderedMapMEOrderBook.add c o t s p q u) (MEOrderBook.add c o t s p q b).
Proof.
  intros Hm. pose proof Hm as (evs & -> & Hi & He)%mirror_cases.
  unfold UnorderedMapMEOrderBook.add, MEOrderBook.add. rewrite (add_reason_agrees c o t s p q u evs Hi).
  destruct (negb _); [cbn; auto|]. cbv zeta.
  cbn [UnorderedMapMEOrderBook.generateNewMarketOrderId MEOrderBook.generateNewMarketOrderId].
  set (u1 := mkUnordered _ _ _ _ _ _ _ _ (u64 _) _ _). set (b1 := mkBook _ _ _ _ (u64 _) _ _).
  change (bk_next_id _) with (ub_next_id u).
  assert (H1 : mirror u1 b1) by (by apply (mirror_intro u1 evs)).
  eapply agree_bind; [by apply checkForMatch_agrees, emitResponse_mirror|].
  intros [l1 u2] [l2 b2] [E H2]. cbn [fst snd] in *. subst l2.
  destruct (l1 =? 0); [done|]. clear u1 b1 H1 Hm evs He. pose proof H2 as (evs & -> & Hi2 & He)%mirror_cases.
  rewrite (getNextPriority_agrees p s u2 evs Hi2). same_call as pr.
  cbn [bk_levels as_book lv_orders levels_of]. destruct (allocate _ (ub_order_pool u2)) as [order pool].
  same_call as a. set (u3 := UnorderedMapMEOrderBook.set_order_pool pool u2).
  eapply agree_bind; [exact (addOrder_agrees a u3 evs Hi2 He)|]. intros u4 b4 H4. cbn. auto.
Qed.

Lemma cancel_agrees c o t u b :
  mirror u b -> agree mirror (UnorderedMapMEOrderBook.cancel c o t u) (MEOrderBook.cancel c o t b).
Proof.
  intros Hm. pose proof Hm as (evs & -> & Hi & He)%mirror_cases.
  unfold UnorderedMapMEOrderBook.cancel, MEOrderBook.cancel. cbn [bk_ticker_id bk_orders as_book].
  destruct (if (c <? ME_MAX_NUM_CLIENTS) && (t =? ub_ticker_id u) then ub_orders u !! (c, o) else None)
    as [order|]; [|cbn; auto]. same_call.
  eapply agree_bind; [by apply removeOrder_agrees|]. intros u1 b1 H1. cbn. auto.
Qed.

Lemma query_mirror c o u b :
  mirror u b -> mirror (UnorderedMapMEOrderBook.query c o u) (MEOrderBook.query c o b).
Proof.
  intros Hm. pose proof Hm as (evs & -> & Hi & He)%mirror_cases.
  unfold UnorderedMapMEOrderBook.query, MEOrderBook.query. cbn [bk_ticker_id bk_last as_book].
  case_match; [done|]. case_match; [auto|]. destruct (ub_last u !! (c, o)) as [r|]; [|auto].
  case_bool_decide; [|auto]. set (r' := set_rs_exec_qty 0 (set_rs_type STATE (set_rs_leaves_qty 0 r))). set (r2 := set_rs_exec_qty 0 (set_rs_type STATE r)).
  assert (Ht : rs_type r' = STATE /\ rs_type r2 = STATE) by done. destruct Ht as [Ht Ht2].
  unfold UnorderedMapMEOrderBook.emitResponse, MEOrderBook.emitResponse. rewrite Ht, Ht2, !andb_false_r.
  set (u1 := mkUnordered _ _ _ _ _ _ _ _ _ _ _).
  apply (mirror_intro u1 (evs ++ [Response r'])); [done|]. apply same_snoc; [done|]. right. by exists r2.
Qed.

Lemma liveOrders_agrees u b :
  mirror u b -> UnorderedMapMEOrderBook.liveOrders u = MEOrderBook.liveOrders b.
Proof. by intros (evs & -> & _ & _)%mirror_cases. Qed.

End Simulation.

(** ** Runs *)
Definition unordered_step `{HashLibrary} (op : BookOp) (u : UnorderedMapMEOrderBook) : res UnorderedMapMEOrderBook :=
  match op with
  | OpAdd c o t s p q => UnorderedMapMEOrderBook.add c o t s p q u
  | OpCancel c o t => UnorderedMapMEOrderBook.cancel c o t u
  | OpQuery c o => Ok (UnorderedMapMEOrderBook.query c o u)
  end.
Definition unordered_run `{HashLibrary} (ops : list BookOp) (u : UnorderedMapMEOrderBook) : res UnorderedMapMEOrderBook :=
  res_fold (λ u op, unordered_step op u) ops u.

Section Runs.
Context `{HashLibrary}.

Lemma step_agrees op u b : mirror u b -> agree mirror (unordered_step op u) (book_step op b).
Proof.
  intros Hm. destruct op; [by apply add_agrees|by apply cancel_agrees|by apply query_mirror].
Qed.

Lemma run_agrees ops u b : mirror u b -> agree mirror (unordered_run ops u) (book_run ops b).
Proof.
  revert u b. induction ops as [|op ops IH]; intros u b Hm; [done|].
  unfold unordered_run, book_run. cbn [res_fold]. eapply agree_bind; [by apply step_agrees|]. intros u' b'. apply IH.
Qed.

Lemma make_agrees t orders levels b :
  MEOrderBook.make_sized t orders levels = Some b ->
  exists u, UnorderedMapMEOrderBook.make_sized t orders levels = Some u /\ mirror u b.
Proof.
  unfold MEOrderBook.make_sized, UnorderedMapMEOrderBook.make_sized.
  destruct (pool_new orders) as [p|]; [|done]. destruct (pool_new levels) as [q|]; [|done].
  intros [= <-]. eexists. split; [done|]. destruct (HashIndex.empty_ok PriceKeyHash (V := Z)) as [H1 H2].
  split; [exact H1| |constructor]. unfold as_book, levels_of. cbn [ub_index]. by rewrite H2.
Qed.

(** C36: the variant with the unordered price index is equivalent to the book,
    whatever hash functions and growth policy the library has.  From the
    constructor on, every sequence of requests runs without a fault on both; they
    emit the same events in the same order, but for the remaining quantity in the
    answer to a query, where the book says zero; the table finds for every side
    and price the level that the ordered index finds; and the levels, the orders,
    their rings, the pools and every other member are the same, and so are the
    live orders. *)
Theorem unordered_map_book_agrees t orders levels ops b :
  0 <= orders -> 0 <= levels -> MEOrderBook.make_sized t orders levels = Some b -> Forall op_wf ops ->
  exists u u' b', UnorderedMapMEOrderBook.make_sized t orders levels = Some u /\
    book_run ops b = Ok b' /\ unordered_run ops u = Ok u' /\
    Forall2 same_event (bk_events b') (ub_events u') /\
    (forall price side, UnorderedMapMEOrderBook.getOrdersAtPrice price side u'
       = getOrdersAtPrice price side (bk_levels b')) /\
    b' = as_book u' (bk_events b') /\
    UnorderedMapMEOrderBook.liveOrders u' = MEOrderBook.liveOrders b'.
Proof.
  intros Ho Hl Hm Hops. destruct (make_agrees _ _ _ _ Hm) as (u & Hu & Hmir).
  destruct (make_refines _ _ _ _ Ho Hl Hm) as [R _].
  pose proof (run_refines ops b _ _ R (empty_book_wf t orders levels Ho Hl) Hops) as Hrun.
  destruct (spec_run ops _) as [a evs]. destruct Hrun as (b' & G' & Hb' & _).
  pose proof (run_agrees ops u b Hmir) as Hag. rewrite Hb' in Hag.
  destruct (unordered_run ops u) as [u'|] eqn:Eu; [|done]. cbn in Hag. exists u, u', b'.
  split; [done|]. split; [done|]. split; [done|]. split; [apply Hag|]. split; [|split; [apply Hag|]].
  - intros price side. rewrite (mi_book _ _ Hag). apply get_agrees, Hag.
  - by apply liveOrders_agrees.
Qed.
End Runs.

(** libstdc++ hashes an integer to itself; a table here doubles when it is full. *)
Definition demo_library : HashLibrary :=
  {| hash_Price := u64; hash_int := u64;
     grow count buckets := if (buckets <? count)%nat then Some (2 * buckets + 1)%nat else None |}.

Lemma unordered_map_book_agrees_witness :
  let _ := demo_library in
  exists u u' b b', MEOrderBook.make_sized 0 4 2 = Some b /\ UnorderedMapMEOrderBook.make_sized 0 4 2 = Some u /\
    book_run demo_ops b = Ok b' /\ unordered_run demo_ops u = Ok u' /\
    UnorderedMapMEOrderBook.getOrdersAtPrice 100 BUY u' = getOrdersAtPrice 100 BUY (bk_levels b') /\
    getOrdersAtPrice 100 BUY (bk_levels b') <> None.
Proof.
  intros lib. destruct (MEOrderBook.make_sized 0 4 2) as [b|] eqn:Eb; [|by vm_compute in Eb].
  destruct (unordered_map_book_agrees 0 4 2 demo_ops b ltac:(lia) ltac:(lia) Eb demo_ops_wf)
    as (u & u' & b' & Hu & Hb' & Hu' & _ & Hfind & _). exists u, u', b, b'.
  split; [done|]. split; [exact Hu|]. split; [exact Hb'|]. split; [exact Hu'|]. split; [apply Hfind|].
  vm_compute in Eb. injection Eb as <-. vm_compute in Hb'. injection Hb' as <-. by vm_compute.
Defined.

(** ** A query after a cancel *)

(** The book reports no remaining quantity for the canceled order, the
    unordered_map variant the canceled quantity. *)
Theorem query_after_cancel `{HashLibrary} t0 orders levels c o b u p x :
  reachable t0 orders levels b -> mirror u b -> bk_orders b !! (c, o) = Some p -> blocks b !! p = Some x ->
  o <> 0 ->
  exists b1 u1 r1 r2, MEOrderBook.cancel c o (bk_ticker_id b) b = Ok b1 /\
    UnorderedMapMEOrderBook.cancel c o (bk_ticker_id b) u = Ok u1 /\
    bk_events (MEOrderBook.query c o b1) = bk_events b1 ++ [Response r1] /\
    ub_events (UnorderedMapMEOrderBook.query c o u1) = ub_events u1 ++ [Response r2] /\
    rs_type r1 = STATE /\ rs_leaves_qty r1 = 0 /\ rs_type r2 = STATE /\
    rs_leaves_qty r2 = o_qty x /\ 0 < o_qty x.
Proof.
  intros Hb Hmir Hp Hx Ho. pose proof (cancel_agrees c o (bk_ticker_id b) u b Hmir) as Hag.
  apply reachable_refines in Hb as (a & G & R & W).
  assert (Hk : okey x = (c, o)).
  { apply (rf_index _ _ _ R) in Hp as (y & Hy & Hk). congruence. }
  pose proof (refines_order _ _ _ _ _ R Hx) as (s & Hs & Hins)%elem_of_all_orders.
  pose proof (bw_orders _ W s _ Hs Hins) as Hwf.
  assert (Hc : c < ME_MAX_NUM_CLIENTS).
  { pose proof (ow_client _ _ _ Hwf) as H1. unfold okey in Hk. injection Hk as <- _. exact H1. }
  destruct (removeOrder_refines _ _ _ _ _ R Hx) as (b1 & G1 & Er & R1 & E1).
  { unfold okey in Hk. injection Hk as -> _. done. }
  assert (Hcancel : MEOrderBook.cancel c o (bk_ticker_id b) b = Ok (MEOrderBook.emitResponse
    (mkResponse CANCELED c (bk_ticker_id b) o (o_market_order_id x) (o_side x) (o_price x) Qty_INVALID (o_qty x) NONE 0 0)
    (MEOrderBook.emitMarket (mkUpdate MD_CANCEL (o_market_order_id x) (bk_ticker_id b) (o_side x) (o_price x) 0
       (o_priority x)) b1))).
  { unfold MEOrderBook.cancel. rewrite Z.eqb_refl, (proj2 (Z.ltb_lt _ _)) by done. cbn [andb].
    rewrite Hp, (load_Some _ _ _ Hx). cbn [mbind res_bind]. by rewrite Er. }
  rewrite Hcancel in *. destruct (UnorderedMapMEOrderBook.cancel c o (bk_ticker_id b) u) as [u1|e]; [|done].
  cbn [agree] in Hag.
  set (r := mkResponse CANCELED c _ o _ _ _ _ _ NONE 0 0) in *. set (b2 := MEOrderBook.emitResponse r _) in *.
  assert (Hlast : bk_last b2 !! (c, o) = Some r).
  { cbn. rewrite (proj2 (Z.ltb_lt _ _)) by done. cbn. apply lookup_insert_eq. }
  assert (Hlast' : ub_last u1 !! (c, o) = Some r) by (rewrite <- Hlast, (mi_book _ _ Hag); done).
  exists b2, u1. unfold MEOrderBook.query, UnorderedMapMEOrderBook.query.
  rewrite (proj2 (Z.leb_gt _ _)), (proj2 (Z.eqb_neq _ _)), Hlast, Hlast' by done.
  eexists _, _. split; [done|]. split; [done|]. split; [done|]. split; [done|]. split_and!; try done.
  pose proof (ow_qty _ _ _ Hwf) as H1. cbn [o_qty] in H1. exact (proj1 H1).
Qed.
