(* ===== verification/LFQueue.v ===== *)
(** Single-producer single-consumer ring queue: common/lf_queue.h.

    The cursors live in [0, 2*capacity), the slots in [0, capacity).
    [queue_ok q l] says that the queue holds the list [l]; the operations are
    shown to be those of a bounded FIFO.  The second part interleaves the
    atomic accesses of one producer and one consumer; the acquire/release
    pairs of the source are read as sequentially consistent accesses. *)
From S2P Require Import Prelude.
From stdpp Require Import functions base list.
From Stdlib Require Import ZArith Lia.

Local Open Scope Z_scope.

Record LFQueue (T : Type) : Type := mkQueue {
  q_store : list T;
  q_mask : Z;
  q_cursor_mask : Z;
  q_head : Z;
  q_tail : Z;
  q_full_count : Z;
  q_high_watermark : Z
}.
Arguments mkQueue {T} _ _ _ _ _ _ _.
Arguments q_store {T} _.
Arguments q_mask {T} _.
Arguments q_cursor_mask {T} _.
Arguments q_head {T} _.
Arguments q_tail {T} _.
Arguments q_full_count {T} _.
Arguments q_high_watermark {T} _.

(** [std::has_single_bit]. *)
Definition has_single_bit (n : Z) : bool := (0 <? n) && (Z.land n (n - 1) =? 0).

Definition checkedCapacity (capacity : Z) : option Z :=
  if negb (has_single_bit capacity) || ((2 ^ 64 - 1) / 2 <? capacity) then None
  else Some capacity.

Section Queue.
Context {T : Type}.

(** [d]: the value-initialised element of the vector. *)
Definition queue_new (d : T) (capacity : Z) : option (LFQueue T) :=
  c ← checkedCapacity capacity;
  Some (mkQueue (replicate (Z.to_nat c) d) (c - 1) (c * 2 - 1) 0 0 0 0).

Definition capacity (q : LFQueue T) : Z := Z.of_nat (length (q_store q)).

Definition next (q : LFQueue T) (i : Z) : Z := Z.land (i + 1) (q_cursor_mask q).

Definition distance (q : LFQueue T) (tail head : Z) : Z :=
  Z.land (u64 (tail - head)) (q_cursor_mask q).

Definition set_store (s : list T) (q : LFQueue T) : LFQueue T :=
  mkQueue s (q_mask q) (q_cursor_mask q) (q_head q) (q_tail q) (q_full_count q)
    (q_high_watermark q).
Definition set_head (h : Z) (q : LFQueue T) : LFQueue T :=
  mkQueue (q_store q) (q_mask q) (q_cursor_mask q) h (q_tail q) (q_full_count q)
    (q_high_watermark q).
Definition set_tail (t : Z) (q : LFQueue T) : LFQueue T :=
  mkQueue (q_store q) (q_mask q) (q_cursor_mask q) (q_head q) t (q_full_count q)
    (q_high_watermark q).
Definition recordFull (q : LFQueue T) : LFQueue T :=
  mkQueue (q_store q) (q_mask q) (q_cursor_mask q) (q_head q) (q_tail q)
    (u64 (q_full_count q + 1)) (q_high_watermark q).
Definition raise_watermark (n : Z) (q : LFQueue T) : LFQueue T :=
  if q_high_watermark q <? n then
    mkQueue (q_store q) (q_mask q) (q_cursor_mask q) (q_head q) (q_tail q) (q_full_count q) n
  else q.

(** [store_[i]]: out of the vector is undefined behaviour. *)
Definition write_slot (i : Z) (v : T) (q : LFQueue T) : res (LFQueue T) :=
  _ ← deref (q_store q !! Z.to_nat i);
  Ok (set_store (<[Z.to_nat i := v]> (q_store q)) q).

Definition try_push (value : T) (q : LFQueue T) : res (bool * LFQueue T) :=
  let tail := q_tail q in
  let used := distance q tail (q_head q) in
  if used =? capacity q then Ok (false, recordFull q) else
  q ← write_slot (Z.land tail (q_mask q)) value q;
  let q := set_tail (next q tail) q in
  Ok (true, raise_watermark (used + 1) q).

Fixpoint write_all (values : list T) (write : Z) (q : LFQueue T) : res (Z * LFQueue T) :=
  match values with
  | [] => Ok (write, q)
  | value :: values =>
      q ← write_slot (Z.land write (q_mask q)) value q;
      write_all values (next q write) q
  end.

Definition try_push_batch (values : list T) (q : LFQueue T) : res (bool * LFQueue T) :=
  match values with
  | [] => Ok (true, q)
  | _ =>
      let tail := q_tail q in
      let used := distance q tail (q_head q) in
      if capacity q - used <? Z.of_nat (length values) then Ok (false, recordFull q) else
      '(write, q) ← write_all values tail q;
      Ok (true, raise_watermark (used + Z.of_nat (length values)) (set_tail write q))
  end.

Definition peek (q : LFQueue T) : res (option T) :=
  let head := q_head q in
  if head =? q_tail q then Ok None else
  x ← deref (q_store q !! Z.to_nat (Z.land head (q_mask q)));
  Ok (Some x).

Definition pop (q : LFQueue T) : res (LFQueue T) :=
  let head := q_head q in
  _ ← ASSERT (negb (head =? q_tail q));
  Ok (set_head (next q head) q).

Definition try_pop (q : LFQueue T) : res (option T * LFQueue T) :=
  let head := q_head q in
  if head =? q_tail q then Ok (None, q) else
  x ← deref (q_store q !! Z.to_nat (Z.land head (q_mask q)));
  Ok (Some x, set_head (next q head) q).

Definition queue_size (q : LFQueue T) : Z :=
  Z.min (distance q (q_tail q) (q_head q)) (capacity q).

(** The queue holds [l], oldest first. *)
Record queue_ok (q : LFQueue T) (l : list T) : Prop := {
  qo_capacity : exists k, 0 <= k < 63 /\ capacity q = 2 ^ k;
  qo_mask : q_mask q = capacity q - 1;
  qo_cursor_mask : q_cursor_mask q = capacity q * 2 - 1;
  qo_head : 0 <= q_head q < 2 * capacity q;
  qo_tail : q_tail q = (q_head q + Z.of_nat (length l)) mod (2 * capacity q);
  qo_length : Z.of_nat (length l) <= capacity q;
  qo_slots i x : l !! i = Some x ->
    q_store q !! Z.to_nat ((q_head q + Z.of_nat i) mod capacity q) = Some x
}.

End Queue.

(** ** One producer and one consumer, access by access *)
(** [try_push] between its accesses: after the capacity check, after the slot
    is written. *)
Inductive Producer (T : Type) : Type :=
  | PIdle
  | PChecked (v : T) (tail used : Z)
  | PWritten (v : T) (tail used : Z).

(** [try_pop] between its accesses: after the emptiness check, after the slot
    is read. *)
Inductive Consumer (T : Type) : Type :=
  | CIdle
  | CChecked (head : Z)
  | CRead (head : Z) (x : T).
Arguments PIdle {T}.
Arguments PChecked {T} _ _ _.
Arguments PWritten {T} _ _ _.
Arguments CIdle {T}.
Arguments CChecked {T} _.
Arguments CRead {T} _ _.

(** [sys_pushed] and [sys_popped]: the values whose operation completed. *)
Record System (T : Type) : Type := mkSystem {
  sys_queue : LFQueue T;
  sys_producer : Producer T;
  sys_consumer : Consumer T;
  sys_pushed : list T;
  sys_popped : list T
}.
Arguments mkSystem {T} _ _ _ _ _.
Arguments sys_queue {T} _.
Arguments sys_producer {T} _.
Arguments sys_consumer {T} _.
Arguments sys_pushed {T} _.
Arguments sys_popped {T} _.

Inductive step {T : Type} : System T -> System T -> Prop :=
  | step_push_full q c pushed popped :
      distance q (q_tail q) (q_head q) = capacity q ->
      step (mkSystem q PIdle c pushed popped) (mkSystem (recordFull q) PIdle c pushed popped)
  | step_push_check q c pushed popped v :
      distance q (q_tail q) (q_head q) <> capacity q ->
      step (mkSystem q PIdle c pushed popped)
        (mkSystem q (PChecked v (q_tail q) (distance q (q_tail q) (q_head q))) c pushed popped)
  | step_push_write q q' c pushed popped v tail used :
      write_slot (Z.land tail (q_mask q)) v q = Ok q' ->
      step (mkSystem q (PChecked v tail used) c pushed popped)
        (mkSystem q' (PWritten v tail used) c pushed popped)
  | step_push_publish q c pushed popped v tail used :
      step (mkSystem q (PWritten v tail used) c pushed popped)
        (mkSystem (raise_watermark (used + 1) (set_tail (next q tail) q)) PIdle c
           (pushed ++ [v]) popped)
  | step_pop_check q p pushed popped :
      q_head q <> q_tail q ->
      step (mkSystem q p CIdle pushed popped) (mkSystem q p (CChecked (q_head q)) pushed popped)
  | step_pop_read q p pushed popped head x :
      q_store q !! Z.to_nat (Z.land head (q_mask q)) = Some x ->
      step (mkSystem q p (CChecked head) pushed popped) (mkSystem q p (CRead head x) pushed popped)
  | step_pop_release q p pushed popped head x :
      step (mkSystem q p (CRead head x) pushed popped)
        (mkSystem (set_head (next q head) q) p CIdle pushed (popped ++ [x])).

Inductive runs {T : Type} : System T -> System T -> Prop :=
  | runs_refl s : runs s s
  | runs_step s1 s2 s3 : runs s1 s2 -> step s2 s3 -> runs s1 s3.

(** ** Lemmas *)
Section QueueLemmas.
Context {T : Type}.

Lemma land_pow2 a k : 0 <= k -> Z.land a (2 ^ k - 1) = a mod 2 ^ k.
Proof. intros Hk. rewrite <- Z.land_ones by done. by rewrite Z.ones_equiv, <- Z.sub_1_r. Qed.

Lemma has_single_bit_pow2 n : has_single_bit n = true -> exists k, 0 <= k /\ n = 2 ^ k.
Proof.
  unfold has_single_bit. intros [H1%Z.ltb_lt H2%Z.eqb_eq]%andb_true_iff.
  exists (Z.log2 n). split; [apply Z.log2_nonneg|].
  destruct (Z.log2_spec n H1) as [Hlo Hhi].
  destruct (Z.eq_dec n (2 ^ Z.log2 n)) as [|Hne]; [done|exfalso].
  pose proof (Z.pow_pos_nonneg 2 (Z.log2 n) ltac:(lia) (Z.log2_nonneg n)) as Hpos.
  assert (Hbit : Z.testbit (Z.land n (n - 1)) (Z.log2 n) = true).
  { rewrite Z.land_spec, Z.bit_log2 by lia. cbn [andb].
    replace (Z.log2 n) with (Z.log2 (n - 1)); [apply Z.bit_log2; lia|].
    apply Z.log2_unique; [apply Z.log2_nonneg|lia]. }
  rewrite H2, Z.bits_0 in Hbit. done.
Qed.

Lemma queue_new_ok (d : T) c q : queue_new d c = Some q -> queue_ok q [] /\ capacity q = c.
Proof.
  unfold queue_new, checkedCapacity. destruct (negb _ || _) eqn:E; [done|]. cbn.
  intros [= <-]. apply orb_false_iff in E as [E1%negb_false_iff E2%Z.ltb_ge].
  destruct (has_single_bit_pow2 _ E1) as (k & Hk & ->).
  assert (Hp : 0 < 2 ^ k) by (by apply Z.pow_pos_nonneg).
  assert (Hc : capacity (mkQueue (replicate (Z.to_nat (2 ^ k)) d) (2 ^ k - 1) (2 ^ k * 2 - 1) 0 0 0 0) = 2 ^ k).
  { unfold capacity. cbn [q_store]. rewrite length_replicate. lia. }
  split; [|done]. split; rewrite ?Hc; cbn [q_mask q_cursor_mask q_head q_tail length]; try done; try lia.
  - exists k. split; [|done]. split; [done|]. destruct (Z.lt_ge_cases k 63); [done|].
    pose proof (Z.pow_le_mono_r 2 63 k ltac:(lia) ltac:(lia)) as H63.
    change ((2 ^ 64 - 1) / 2) with (2 ^ 63 - 1) in E2. lia.
Qed.

Section Masks.
Context (q : LFQueue T) (l : list T) (Hok : queue_ok q l).

Lemma capacity_pos : 0 < capacity q.
Proof. destruct (qo_capacity _ _ Hok) as (k & Hk & ->). apply Z.pow_pos_nonneg; lia. Qed.

Lemma mask_mod i : Z.land i (q_mask q) = i mod capacity q.
Proof.
  rewrite (qo_mask _ _ Hok). destruct (qo_capacity _ _ Hok) as (k & Hk & ->).
  apply land_pow2. lia.
Qed.

Lemma cursor_mod i : Z.land i (q_cursor_mask q) = i mod (2 * capacity q).
Proof.
  rewrite (qo_cursor_mask _ _ Hok). destruct (qo_capacity _ _ Hok) as (k & Hk & ->).
  replace (2 ^ k * 2) with (2 ^ (k + 1)) by (rewrite Z.pow_add_r; lia).
  replace (2 * 2 ^ k) with (2 ^ (k + 1)) by (rewrite Z.pow_add_r; lia).
  apply land_pow2. lia.
Qed.

Lemma next_mod i : next q i = (i + 1) mod (2 * capacity q).
Proof. apply cursor_mod. Qed.

Lemma distance_mod t h : distance q t h = (t - h) mod (2 * capacity q).
Proof.
  unfold distance. rewrite cursor_mod. destruct (qo_capacity _ _ Hok) as (k & Hk & ->).
  replace (2 * 2 ^ k) with (2 ^ (k + 1)) by (rewrite Z.pow_add_r; lia). unfold u64.
  symmetry. apply Znumtheory.Zmod_div_mod.
  1, 2: apply Z.pow_pos_nonneg; lia.
  exists (2 ^ (64 - (k + 1))). rewrite <- Z.pow_add_r by lia. f_equal. lia.
Qed.

(** The distance between the cursors is the number of elements. *)
Lemma distance_length : distance q (q_tail q) (q_head q) = Z.of_nat (length l).
Proof.
  rewrite distance_mod, (qo_tail _ _ Hok). pose proof capacity_pos as Hc.
  pose proof (qo_length _ _ Hok) as Hl.
  rewrite Zminus_mod_idemp_l. replace (_ + _ - _) with (Z.of_nat (length l)) by lia.
  apply Z.mod_small. lia.
Qed.

Lemma empty_iff : q_head q = q_tail q <-> l = [].
Proof.
  pose proof capacity_pos as Hc. pose proof distance_length as Hd. rewrite distance_mod in Hd.
  split.
  - intros E. rewrite E, Z.sub_diag, Z.mod_0_l in Hd by lia. by destruct l.
  - intros E. pose proof (qo_tail _ _ Hok) as Ht. rewrite E in Ht. cbn in Ht.
    rewrite Z.add_0_r, Z.mod_small in Ht by apply (qo_head _ _ Hok). done.
Qed.

(** Two different positions less than [capacity] apart use different slots. *)
Lemma slot_ne i j :
  (i < j)%nat -> Z.of_nat j - Z.of_nat i < capacity q ->
  (q_head q + Z.of_nat i) mod capacity q <> (q_head q + Z.of_nat j) mod capacity q.
Proof.
  pose proof capacity_pos as Hc. intros Hij Hlt E.
  assert (Hd : (Z.of_nat j - Z.of_nat i) mod capacity q = 0).
  { replace (Z.of_nat j - Z.of_nat i) with (q_head q + Z.of_nat j - (q_head q + Z.of_nat i)) by lia.
    rewrite Zminus_mod, E, Z.sub_diag. apply Z.mod_0_l. lia. }
  rewrite Z.mod_small in Hd; lia.
Qed.

Lemma slot_lookup i : exists x, q_store q !! Z.to_nat (i mod capacity q) = Some x.
Proof.
  apply lookup_lt_is_Some. pose proof capacity_pos as Hc.
  pose proof (Z.mod_pos_bound i _ Hc) as H.
  revert H. generalize (i mod capacity q). unfold capacity. lia.
Qed.

Lemma mod_mod_capacity i : (i mod (2 * capacity q)) mod capacity q = i mod capacity q.
Proof.
  pose proof capacity_pos as Hc. symmetry. apply Znumtheory.Zmod_div_mod; [lia|lia|].
  by exists 2.
Qed.
End Masks.

(** ** The operations *)
Implicit Types (q : LFQueue T) (l : list T).

Definition slots q l : Prop :=
  forall i x, l !! i = Some x -> q_store q !! Z.to_nat ((q_head q + Z.of_nat i) mod capacity q) = Some x.

Lemma set_store_same q : set_store (q_store q) q = q.
Proof. by destruct q. Qed.

Lemma capacity_set_store q s : length s = length (q_store q) -> capacity (set_store s q) = capacity q.
Proof. intros H. unfold capacity. cbn. by rewrite H. Qed.

Lemma write_slot_ok q l l0 v :
  queue_ok q l -> slots q l0 -> Z.of_nat (length l0) < capacity q ->
  exists s, write_slot ((q_head q + Z.of_nat (length l0)) mod capacity q) v q = Ok (set_store s q) /\
    length s = length (q_store q) /\ slots (set_store s q) (l0 ++ [v]).
Proof.
  intros Hok Hs Hl. unfold write_slot.
  destruct (slot_lookup q l Hok (q_head q + Z.of_nat (length l0))) as [y Hy]. rewrite Hy.
  cbn [deref mbind res_bind]. eexists. split; [done|]. split; [apply length_insert|].
  intros i x Hi. rewrite capacity_set_store by apply length_insert. cbn [q_store q_head set_store].
  apply lookup_app_Some in Hi as [Hi|[Hle Hi]].
  - pose proof (lookup_lt_Some _ _ _ Hi) as Hlt. rewrite list_lookup_insert_ne; [by apply Hs|].
    intros E. apply Z2Nat.inj in E; [|apply Z.mod_pos_bound, (capacity_pos q l Hok)..].
    symmetry in E. revert E. apply (slot_ne q l Hok); [done|lia].
  - apply list_lookup_singleton_Some in Hi as [Hi ->].
    replace i with (length l0) by lia. apply list_lookup_insert_eq. by eapply lookup_lt_Some.
Qed.

(** The cursor of position [n] after the head. *)
Lemma tail_slot q l n :
  queue_ok q l -> ((q_head q + n) mod (2 * capacity q)) mod capacity q = (q_head q + n) mod capacity q.
Proof. intros Hok. by apply (mod_mod_capacity q l). Qed.

Lemma tail_next q l n :
  queue_ok q l ->
  ((q_head q + n) mod (2 * capacity q) + 1) mod (2 * capacity q) = (q_head q + (n + 1)) mod (2 * capacity q).
Proof. intros Hok. rewrite Zplus_mod_idemp_l. f_equal. lia. Qed.

(** Publishing a new tail. *)
Lemma queue_ok_publish q l s l' :
  queue_ok q l -> length s = length (q_store q) -> slots (set_store s q) l' ->
  Z.of_nat (length l') <= capacity q ->
  forall n, queue_ok (raise_watermark n (set_tail ((q_head q + Z.of_nat (length l')) mod (2 * capacity q))
    (set_store s q))) l'.
Proof.
  intros Hok Hlen Hs Hl n. unfold raise_watermark. set (t := (_ + _) mod _).
  assert (Hc : capacity (set_store s q) = capacity q) by (by apply capacity_set_store).
  assert (Hq : queue_ok (set_tail t (set_store s q)) l').
  { split; cbn [set_tail q_mask q_cursor_mask q_head q_tail set_store];
      change (capacity (set_tail t (set_store s q))) with (capacity (set_store s q)); rewrite ?Hc;
      try apply Hok; [done|done|].
    intros i x Hi. specialize (Hs i x Hi). rewrite Hc in Hs. exact Hs. }
  case_match; [|exact Hq]. destruct Hq. by split.
Qed.

(** A queue determines its contents. *)
Lemma queue_contents_unique q l l' : queue_ok q l -> queue_ok q l' -> l = l'.
Proof.
  intros H1 H2. assert (Hlen : length l = length l').
  { pose proof (distance_length q l H1). pose proof (distance_length q l' H2). lia. }
  apply list_eq. intros i. destruct (l !! i) as [x|] eqn:E1, (l' !! i) as [y|] eqn:E2; try done.
  - pose proof (qo_slots _ _ H1 i x E1). pose proof (qo_slots _ _ H2 i y E2). congruence.
  - apply lookup_lt_Some in E1. apply lookup_ge_None in E2. lia.
  - apply lookup_lt_Some in E2. apply lookup_ge_None in E1. lia.
Qed.

(** [try_push] appends, or counts a refusal when the queue is full. *)
Lemma try_push_ok q l v :
  queue_ok q l ->
  if Z.of_nat (length l) =? capacity q
  then try_push v q = Ok (false, recordFull q) /\ queue_ok (recordFull q) l
  else exists q', try_push v q = Ok (true, q') /\ queue_ok q' (l ++ [v]) /\ capacity q' = capacity q.
Proof.
  intros Hok. unfold try_push. rewrite (distance_length q l Hok).
  pose proof (qo_length _ _ Hok) as Hl.
  destruct (Z.eqb_spec (Z.of_nat (length l)) (capacity q)) as [E|E].
  { split; [done|]. destruct Hok. by split. }
  rewrite (mask_mod q l Hok), (qo_tail _ _ Hok), (tail_slot q l) by done.
  destruct (write_slot_ok q l l v Hok (qo_slots _ _ Hok)) as (s & -> & Hlen & Hs); [lia|].
  cbn [mbind res_bind]. eexists. split; [done|].
  change (next (set_store s q)) with (next q). rewrite (next_mod q l Hok), (tail_next q l) by done.
  replace (Z.of_nat (length l) + 1) with (Z.of_nat (length (l ++ [v]))) by (rewrite length_app; cbn; lia).
  split.
  - apply (queue_ok_publish q l); try done. rewrite length_app. cbn. lia.
  - rewrite <- (capacity_set_store q s Hlen). unfold raise_watermark. by case_match.
Qed.

Lemma queue_ok_store q l m s :
  queue_ok q l -> length s = length (q_store q) -> slots (set_store s q) (l ++ m) ->
  queue_ok (set_store s q) l.
Proof.
  intros Hok Hlen Hs. pose proof (capacity_set_store q s Hlen) as Hc.
  split; rewrite ?Hc; cbn [q_mask q_cursor_mask q_head q_tail set_store]; try apply Hok.
  intros i x Hi. rewrite <- Hc. apply Hs. rewrite lookup_app_l; [done|]. by eapply lookup_lt_Some.
Qed.

Lemma write_all_ok q l m vs :
  queue_ok q l -> slots q (l ++ m) -> Z.of_nat (length (l ++ m) + length vs) <= capacity q ->
  exists s, write_all vs ((q_head q + Z.of_nat (length (l ++ m))) mod (2 * capacity q)) q
    = Ok ((q_head q + Z.of_nat (length (l ++ m ++ vs))) mod (2 * capacity q), set_store s q) /\
    length s = length (q_store q) /\ slots (set_store s q) (l ++ m ++ vs).
Proof.
  revert q m. induction vs as [|v vs IH]; intros q m Hok Hs Hl.
  - exists (q_store q). rewrite app_nil_r. cbn [write_all]. split; [by destruct q|]. split; [done|].
    by destruct q.
  - cbn [write_all]. cbn [length] in Hl.
    rewrite (mask_mod q l Hok), (tail_slot q l) by done.
    destruct (write_slot_ok q l (l ++ m) v Hok Hs) as (s & -> & Hlen & Hs'); [lia|].
    cbn [mbind res_bind]. change (next (set_store s q)) with (next q).
    rewrite (next_mod q l Hok), (tail_next q l) by done.
    assert (Hc : capacity (set_store s q) = capacity q) by (by apply capacity_set_store).
    rewrite <- app_assoc in Hs'.
    destruct (IH (set_store s q) (m ++ [v])) as (s' & Hw & Hlen' & Hs'').
    + by eapply queue_ok_store.
    + done.
    + rewrite Hc. rewrite !length_app in *. cbn [length]. lia.
    + rewrite Hc in Hw. cbn [q_head set_store] in Hw.
      replace (Z.of_nat (length (l ++ m)) + 1) with (Z.of_nat (length (l ++ m ++ [v])))
        by (rewrite !length_app; cbn; lia).
      exists s'. rewrite <- app_assoc in Hw, Hs''. split; [exact Hw|]. split; [exact (eq_trans Hlen' Hlen)|exact Hs''].
Qed.

(** [try_push_batch] appends the whole batch or nothing. *)
Lemma try_push_batch_ok q l vs :
  queue_ok q l ->
  if Z.of_nat (length l + length vs) <=? capacity q
  then exists q', try_push_batch vs q = Ok (true, q') /\ queue_ok q' (l ++ vs) /\
    capacity q' = capacity q
  else try_push_batch vs q = Ok (false, recordFull q) /\ queue_ok (recordFull q) l.
Proof.
  intros Hok. pose proof (qo_length _ _ Hok) as Hl. unfold try_push_batch. destruct vs as [|v vs'].
  { rewrite (proj2 (Z.leb_le _ _)) by (cbn; lia). exists q. by rewrite app_nil_r. }
  set (vs := v :: vs'). rewrite (distance_length q l Hok).
  destruct (Z.leb_spec (Z.of_nat (length l + length vs)) (capacity q)) as [E|E].
  - rewrite (proj2 (Z.ltb_ge _ _)) by lia. rewrite (qo_tail _ _ Hok).
    destruct (write_all_ok q l [] vs Hok) as (s & Hw & Hlen & Hs);
      [rewrite app_nil_r; exact (qo_slots _ _ Hok)|rewrite app_nil_r; lia|].
    rewrite app_nil_r in Hw. rewrite Hw. cbn [mbind res_bind]. eexists. split; [done|]. split.
    + apply (queue_ok_publish q l); try done. rewrite length_app. lia.
    + rewrite <- (capacity_set_store q s Hlen). unfold raise_watermark. by case_match.
  - rewrite (proj2 (Z.ltb_lt _ _)) by lia. split; [done|]. destruct Hok. by split.
Qed.

Lemma peek_ok q l : queue_ok q l -> peek q = Ok (head l).
Proof.
  intros Hok. unfold peek. destruct (Z.eqb_spec (q_head q) (q_tail q)) as [E|E].
  - apply (empty_iff q l Hok) in E as ->. done.
  - destruct l as [|x l]; [by destruct E; apply (empty_iff q [] Hok)|].
    rewrite (mask_mod q _ Hok). pose proof (qo_slots _ _ Hok 0%nat x eq_refl) as Hx.
    rewrite Z.add_0_r in Hx. by rewrite Hx.
Qed.

Lemma queue_ok_advance q x l :
  queue_ok q (x :: l) -> queue_ok (set_head (next q (q_head q)) q) l.
Proof.
  intros Hok. pose proof (capacity_pos q _ Hok) as Hc. pose proof (qo_length _ _ Hok) as Hl.
  cbn [length] in Hl. rewrite (next_mod q _ Hok).
  split; cbn [q_mask q_cursor_mask q_head q_tail q_store set_head];
    change (capacity (set_head _ q)) with (capacity q); try apply Hok.
  - apply Z.mod_pos_bound. lia.
  - rewrite (qo_tail _ _ Hok), Zplus_mod_idemp_l. f_equal. cbn [length]. lia.
  - lia.
  - intros i y Hi. pose proof (qo_slots _ _ Hok (S i) y Hi) as Hy.
    rewrite <- Zplus_mod_idemp_l, (mod_mod_capacity q _ Hok), Zplus_mod_idemp_l.
    replace (q_head q + 1 + Z.of_nat i) with (q_head q + Z.of_nat (S i)) by lia. done.
Qed.

Lemma pop_ok q l :
  queue_ok q l ->
  match l with
  | [] => pop q = Err AssertFailed
  | _ :: l' => exists q', pop q = Ok q' /\ queue_ok q' l' /\ capacity q' = capacity q
  end.
Proof.
  intros Hok. unfold pop. destruct l as [|x l].
  - rewrite (proj2 (Z.eqb_eq _ _)); [done|]. by apply (empty_iff q [] Hok).
  - rewrite (proj2 (Z.eqb_neq _ _)); [|by intros E; apply (empty_iff q _ Hok) in E].
    cbn [negb ASSERT mbind res_bind]. eexists. split; [done|].
    split; [by eapply queue_ok_advance|done].
Qed.

Lemma try_pop_ok q l :
  queue_ok q l ->
  match l with
  | [] => try_pop q = Ok (None, q)
  | x :: l' => exists q', try_pop q = Ok (Some x, q') /\ queue_ok q' l' /\ capacity q' = capacity q
  end.
Proof.
  intros Hok. unfold try_pop. destruct l as [|x l].
  - rewrite (proj2 (Z.eqb_eq _ _)); [done|]. by apply (empty_iff q [] Hok).
  - rewrite (proj2 (Z.eqb_neq _ _)); [|by intros E; apply (empty_iff q _ Hok) in E].
    rewrite (mask_mod q _ Hok). pose proof (qo_slots _ _ Hok 0%nat x eq_refl) as Hx.
    rewrite Z.add_0_r in Hx. rewrite Hx. cbn [deref mbind res_bind]. eexists. split; [done|].
    split; [by eapply queue_ok_advance|done].
Qed.

Lemma queue_size_ok q l : queue_ok q l -> queue_size q = Z.of_nat (length l).
Proof.
  intros Hok. unfold queue_size. rewrite (distance_length q l Hok).
  pose proof (qo_length _ _ Hok). lia.
Qed.

(** ** Invariant of the interleaving *)
Record sys_ok (s : System T) (l : list T) : Prop := {
  so_queue : queue_ok (sys_queue s) l;
  so_order : sys_pushed s = sys_popped s ++ l;
  so_producer : match sys_producer s with
    | PIdle => True
    | PChecked v tail _ => tail = q_tail (sys_queue s) /\ Z.of_nat (length l) < capacity (sys_queue s)
    | PWritten v tail _ => tail = q_tail (sys_queue s) /\
        Z.of_nat (length l) < capacity (sys_queue s) /\ slots (sys_queue s) (l ++ [v])
    end;
  so_consumer : match sys_consumer s with
    | CIdle => True
    | CChecked h => h = q_head (sys_queue s) /\ l <> []
    | CRead h x => h = q_head (sys_queue s) /\ head l = Some x
    end
}.

Lemma slots_advance q x l :
  queue_ok q (x :: l) -> forall v, slots q (x :: l ++ [v]) ->
  slots (set_head (next q (q_head q)) q) (l ++ [v]).
Proof.
  intros Hok v Hs i y Hi. specialize (Hs (S i) y Hi). rewrite (next_mod q _ Hok).
  cbn [q_head q_store set_head]. change (capacity (set_head _ q)) with (capacity q).
  rewrite <- Zplus_mod_idemp_l, (mod_mod_capacity q _ Hok), Zplus_mod_idemp_l.
  replace (q_head q + 1 + Z.of_nat i) with (q_head q + Z.of_nat (S i)) by lia. done.
Qed.

Lemma sys_ok_write q c pushed popped v tail used l :
  sys_ok (mkSystem q (PChecked v tail used) c pushed popped) l ->
  exists q', write_slot (Z.land tail (q_mask q)) v q = Ok q' /\
    sys_ok (mkSystem q' (PWritten v tail used) c pushed popped) l.
Proof.
  intros [Hok Hord [Ht Hl] Hc]. cbn [sys_queue sys_pushed sys_popped sys_consumer sys_producer] in *.
  rewrite Ht, (mask_mod q l Hok), (qo_tail _ _ Hok), (tail_slot q l) by done.
  destruct (write_slot_ok q l l v Hok (qo_slots _ _ Hok) Hl) as (st & -> & Hlen & Hs).
  eexists. split; [done|]. pose proof (capacity_set_store q st Hlen) as Hcap.
  split; cbn [sys_queue sys_pushed sys_popped sys_consumer sys_producer]; [|done| |done].
  - by eapply queue_ok_store.
  - split; [|split]; [cbn; by rewrite (qo_tail _ _ Hok)|by rewrite Hcap|done].
Qed.

Lemma sys_ok_publish q c pushed popped v tail used l :
  sys_ok (mkSystem q (PWritten v tail used) c pushed popped) l ->
  sys_ok (mkSystem (raise_watermark (used + 1) (set_tail (next q tail) q)) PIdle c
    (pushed ++ [v]) popped) (l ++ [v]).
Proof.
  intros [Hok Hord (Ht & Hl & Hs) Hc]. cbn [sys_queue sys_pushed sys_popped sys_consumer sys_producer] in *.
  set (n := used + 1).
  assert (Hq : queue_ok (raise_watermark n (set_tail (next q tail) q)) (l ++ [v])).
  { rewrite Ht, (next_mod q l Hok), (qo_tail _ _ Hok), (tail_next q l) by done.
    replace (Z.of_nat (length l) + 1) with (Z.of_nat (length (l ++ [v]))) by (rewrite length_app; cbn; lia).
    pose proof (queue_ok_publish q l (q_store q) (l ++ [v]) Hok eq_refl) as H.
    rewrite set_store_same in H.
    apply H; [done|]. rewrite length_app. cbn. lia. }
  assert (Hh : q_head (raise_watermark n (set_tail (next q tail) q)) = q_head q)
    by (unfold raise_watermark; by destruct (_ <? _)).
  split; cbn [sys_queue sys_pushed sys_popped sys_consumer sys_producer]; [done| |done|].
  - by rewrite Hord, app_assoc.
  - rewrite Hh. destruct c as [|h|h x]; [done|..]; destruct Hc as [Hh1 Hc]; split; try done.
    + by destruct l.
    + by destruct l.
Qed.

Lemma sys_ok_release q p pushed popped h x l :
  sys_ok (mkSystem q p (CRead h x) pushed popped) l ->
  exists l', l = x :: l' /\
    sys_ok (mkSystem (set_head (next q h) q) p CIdle pushed (popped ++ [x])) l'.
Proof.
  intros [Hok Hord Hp [Hh Hx]]. cbn [sys_queue sys_pushed sys_popped sys_consumer sys_producer] in *.
  destruct l as [|y l]; [done|]. cbn in Hx. injection Hx as ->. exists l. split; [done|]. subst h.
  split; cbn [sys_queue sys_pushed sys_popped sys_consumer sys_producer].
  - by eapply queue_ok_advance.
  - by rewrite Hord, <- app_assoc.
  - change (capacity (set_head _ q)) with (capacity q). cbn [q_tail set_head].
    cbn [length] in Hp. destruct p as [|v t u|v t u]; [done|..]; destruct Hp as [Ht Hp].
    + split; [done|lia].
    + destruct Hp as [Hl Hs]. split; [done|]. split; [lia|]. by eapply slots_advance.
  - done.
Qed.

Lemma step_ok s s' l : sys_ok s l -> step s s' -> exists l', sys_ok s' l'.
Proof.
  intros Hs Hstep. destruct Hstep as [q c pu po Hfull|q c pu po v Hroom|q q' c pu po v t u Hw
    |q c pu po v t u|q p pu po Hne|q p pu po h x Hx|q p pu po h x].
  - destruct Hs as [Hok Hord Hp Hc]. exists l. split; try done. destruct Hok. by split.
  - destruct Hs as [Hok Hord Hp Hc]. exists l. split; try done. cbn in *.
    rewrite (distance_length q l Hok) in Hroom. pose proof (qo_length _ _ Hok). split; [done|lia].
  - destruct (sys_ok_write _ _ _ _ _ _ _ _ Hs) as (q'' & Hw' & Hs'). rewrite Hw in Hw'.
    injection Hw' as <-. eauto.
  - eexists. by apply sys_ok_publish.
  - destruct Hs as [Hok Hord Hp Hc]. exists l. split; try done. cbn in *. split; [done|].
    intros E. by apply Hne, (empty_iff q l Hok).
  - destruct Hs as [Hok Hord Hp [Hh Hl]]. exists l. split; try done. cbn in *. split; [done|].
    destruct l as [|y l]; [done|]. subst h. rewrite (mask_mod q _ Hok) in Hx.
    pose proof (qo_slots _ _ Hok 0%nat y eq_refl) as Hy. rewrite Z.add_0_r, Hx in Hy. done.
  - destruct (sys_ok_release _ _ _ _ _ _ _ Hs) as (l' & _ & Hs'). eauto.
Qed.

Lemma runs_ok s s' l : sys_ok s l -> runs s s' -> exists l', sys_ok s' l'.
Proof.
  intros Hs Hr. revert l Hs. induction Hr as [s|s1 s2 s3 H12 IH H23]; intros l Hs; [eauto|].
  destruct (IH l Hs) as [l2 Hs2]. by eapply step_ok.
Qed.
End QueueLemmas.

Lemma runs_cons {T} (s1 s2 s3 : System T) : step s1 s2 -> runs s2 s3 -> runs s1 s3.
Proof.
  intros H12 H. induction H as [s|s4 s5 s6 _ IH H56]; [|eauto using @runs].
  eapply runs_step; [apply runs_refl|done].
Qed.

(** ** Properties *)

(** C31: the queue is a bounded FIFO.  On a queue that holds [l], [try_push]
    appends exactly when there are fewer than [capacity] elements, and
    [try_pop] returns the oldest one. *)
Theorem queue_is_bounded_fifo {T} (q : LFQueue T) l v :
  queue_ok q l ->
  (Z.of_nat (length l) < capacity q ->
     exists q', try_push v q = Ok (true, q') /\ queue_ok q' (l ++ [v])) /\
  (Z.of_nat (length l) = capacity q ->
     exists q', try_push v q = Ok (false, q') /\ queue_ok q' l) /\
  (l = [] -> try_pop q = Ok (None, q) /\ pop q = Err AssertFailed) /\
  (forall x l', l = x :: l' -> peek q = Ok (Some x) /\
     exists q', try_pop q = Ok (Some x, q') /\ pop q = Ok q' /\ queue_ok q' l').
Proof.
  intros Hok. pose proof (try_push_ok q l v Hok) as Hpush. pose proof (pop_ok q l Hok) as Hpop.
  pose proof (try_pop_ok q l Hok) as Htry. pose proof (peek_ok q l Hok) as Hpeek. split_and!.
  - intros Hl. rewrite (proj2 (Z.eqb_neq _ _)) in Hpush by lia.
    destruct Hpush as (q' & ? & ? & _). eauto.
  - intros Hl. rewrite (proj2 (Z.eqb_eq _ _)) in Hpush by done. destruct Hpush. eauto.
  - intros ->. done.
  - intros x l' ->. split; [done|]. destruct Hpop as (q1 & Hq1 & Hok1 & _).
    destruct Htry as (q2 & Hq2 & Hok2 & _). exists q2. split; [done|]. split; [|done].
    unfold pop, try_pop in *. destruct (q_head q =? q_tail q); [done|].
    cbn [negb ASSERT mbind res_bind]. destruct (q_store q !! _); [|done]. cbn in Hq2. congruence.
Qed.

Lemma queue_is_bounded_fifo_witness :
  exists q q' : LFQueue Z, queue_new 0 2 = Some q /\ queue_ok q [] /\
    try_push 7 q = Ok (true, q') /\ queue_ok q' [7].
Proof.
  eexists. assert (Hq : queue_new 0 2 = Some (mkQueue [0; 0] 1 3 0 0 0 0)) by reflexivity.
  destruct (queue_new_ok _ _ _ Hq) as [Hok Hc].
  destruct (proj1 (queue_is_bounded_fifo _ [] 7 Hok) ltac:(rewrite Hc; cbn; lia)) as (q' & Hp & Hok').
  exists q'. split; [exact Hq|]. split; [exact Hok|]. split; [exact Hp|exact Hok'].
Defined.

(** a batch is published completely or not at all. *)
Theorem batch_is_atomic {T} (q : LFQueue T) l vs :
  queue_ok q l ->
  (Z.of_nat (length l + length vs) <= capacity q /\
   exists q', try_push_batch vs q = Ok (true, q') /\ queue_ok q' (l ++ vs)) \/
  (capacity q < Z.of_nat (length l + length vs) /\
   exists q', try_push_batch vs q = Ok (false, q') /\ queue_ok q' l /\
     q_tail q' = q_tail q /\ q_store q' = q_store q).
Proof.
  intros Hok. pose proof (try_push_batch_ok q l vs Hok) as H.
  destruct (Z.leb_spec (Z.of_nat (length l + length vs)) (capacity q)) as [E|E].
  - left. split; [done|]. destruct H as (q' & ? & ? & _). eauto.
  - right. split; [done|]. destruct H as [H1 H2]. exists (recordFull q). done.
Qed.

Lemma batch_is_atomic_witness :
  exists q q' : LFQueue Z, queue_new 0 2 = Some q /\
    try_push_batch [1; 2; 3] q = Ok (false, q') /\ queue_ok q' [].
Proof.
  eexists. assert (Hq : queue_new 0 2 = Some (mkQueue [0; 0] 1 3 0 0 0 0)) by reflexivity.
  destruct (queue_new_ok _ _ _ Hq) as [Hok Hc].
  destruct (batch_is_atomic _ [] [1; 2; 3] Hok) as [[Hle _]|(_ & q' & Hp & Hok' & _)].
  - rewrite Hc in Hle. cbn in Hle. lia.
  - exists q'. split; [exact Hq|]. split; [exact Hp|exact Hok'].
Defined.

(** C18: under any interleaving of the producer's and the consumer's accesses
    the consumer receives the values pushed, in order, each once; the queue
    never holds more than its capacity. *)
Theorem spsc_delivers_in_order {T} (q : LFQueue T) s :
  queue_ok q [] -> runs (mkSystem q PIdle CIdle [] []) s ->
  exists l, sys_pushed s = sys_popped s ++ l /\ queue_ok (sys_queue s) l /\
    Z.of_nat (length l) <= capacity (sys_queue s).
Proof.
  intros Hok Hr. assert (H0 : sys_ok (mkSystem q PIdle CIdle [] []) []) by (split; cbn; done).
  destruct (runs_ok _ s [] H0 Hr) as [l [Hq Ho _ _]]. exists l. split_and!; [done|done|apply Hq].
Qed.

Lemma spsc_delivers_in_order_witness :
  exists (q : LFQueue Z) s, queue_new 0 1 = Some q /\
    runs (mkSystem q PIdle CIdle [] []) s /\ sys_popped s = [5] /\
    exists l, sys_pushed s = sys_popped s ++ l.
Proof.
  assert (Hq : queue_new 0 1 = Some (mkQueue [0] 0 1 0 0 0 0)) by reflexivity.
  destruct (queue_new_ok _ _ _ Hq) as [Hok _].
  assert (Hr : exists s, runs (mkSystem (mkQueue [0] 0 1 0 0 0 0) PIdle CIdle [] []) s /\ sys_popped s = [5]).
  { eexists. split.
    - eapply runs_cons; [apply (step_push_check _ _ _ _ 5); discriminate|].
      eapply runs_cons; [eapply step_push_write; reflexivity|].
      eapply runs_cons; [apply step_push_publish|].
      eapply runs_cons; [apply step_pop_check; discriminate|].
      eapply runs_cons; [eapply step_pop_read; reflexivity|].
      eapply runs_cons; [apply step_pop_release|]. apply runs_refl.
    - reflexivity. }
  destruct Hr as (s & Hr & Hp). eexists _, s. split; [exact Hq|]. split; [exact Hr|].
  split; [exact Hp|]. destruct (spsc_delivers_in_order _ _ Hok Hr) as (l & H & _). exists l. exact H.
Defined.
