(* ===== verification/Variants.v ===== *)
(** Variants of the foundations that the repository keeps beside its
    measurements: the queue before its cursors were masked
    (record/07_queue_pool_consumer/baseline/common/lf_queue.h) and a pool that
    keeps its used flags apart from the blocks
    (record/07_queue_pool_consumer/rejected/common/mem_pool.h).  Both behave
    like the ones in use. *)
From S2P Require Import Prelude.
From S2P Require Import LFQueue.
From S2P Require Import MemPool.
From stdpp Require Import functions base gmap list.
From Stdlib Require Import ZArith Lia.

Local Open Scope Z_scope.

(** ** The queue with a modulus *)
Record BaselineQueue (T : Type) : Type := mkBaseline {
  bq_store : list T;
  bq_mask : Z;
  bq_modulus : Z;
  bq_head : Z;
  bq_tail : Z;
  bq_full_count : Z;
  bq_high_watermark : Z
}.
Arguments mkBaseline {T} _ _ _ _ _ _ _.
Arguments bq_store {T} _.
Arguments bq_mask {T} _.
Arguments bq_modulus {T} _.
Arguments bq_head {T} _.
Arguments bq_tail {T} _.
Arguments bq_full_count {T} _.
Arguments bq_high_watermark {T} _.

Module BaselineQueue.
Section BaselineQueue.
Context {T : Type}.

Definition checkedCapacity (capacity : Z) : option Z :=
  if negb (has_single_bit capacity) || ((2 ^ 64 - 1) / 2 <? capacity) then None else Some capacity.

Definition make (d : T) (capacity : Z) : option (BaselineQueue T) :=
  c ← checkedCapacity capacity;
  Some (mkBaseline (replicate (Z.to_nat c) d) (c - 1) (c * 2) 0 0 0 0).

Definition capacity (q : BaselineQueue T) : Z := Z.of_nat (length (bq_store q)).
Definition next (q : BaselineQueue T) (i : Z) : Z := if i + 1 =? bq_modulus q then 0 else i + 1.
Definition distance (q : BaselineQueue T) (tail head : Z) : Z :=
  if head <=? tail then tail - head else bq_modulus q - (head - tail).

Definition set_store (s : list T) (q : BaselineQueue T) : BaselineQueue T :=
  mkBaseline s (bq_mask q) (bq_modulus q) (bq_head q) (bq_tail q) (bq_full_count q) (bq_high_watermark q).
Definition set_head (h : Z) (q : BaselineQueue T) : BaselineQueue T :=
  mkBaseline (bq_store q) (bq_mask q) (bq_modulus q) h (bq_tail q) (bq_full_count q) (bq_high_watermark q).
Definition set_tail (t : Z) (q : BaselineQueue T) : BaselineQueue T :=
  mkBaseline (bq_store q) (bq_mask q) (bq_modulus q) (bq_head q) t (bq_full_count q) (bq_high_watermark q).
Definition count_full (q : BaselineQueue T) : BaselineQueue T :=
  mkBaseline (bq_store q) (bq_mask q) (bq_modulus q) (bq_head q) (bq_tail q) (u64 (bq_full_count q + 1))
    (bq_high_watermark q).
Definition raise (n : Z) (q : BaselineQueue T) : BaselineQueue T :=
  if bq_high_watermark q <? n then
    mkBaseline (bq_store q) (bq_mask q) (bq_modulus q) (bq_head q) (bq_tail q) (bq_full_count q) n
  else q.

Definition write_slot (i : Z) (v : T) (q : BaselineQueue T) : res (BaselineQueue T) :=
  _ ← deref (bq_store q !! Z.to_nat i);
  Ok (set_store (<[Z.to_nat i := v]> (bq_store q)) q).

Definition try_push (value : T) (q : BaselineQueue T) : res (bool * BaselineQueue T) :=
  let tail := bq_tail q in
  let used := distance q tail (bq_head q) in
  if used =? capacity q then Ok (false, count_full q) else
  q ← write_slot (Z.land tail (bq_mask q)) value q;
  Ok (true, raise (used + 1) (set_tail (next q tail) q)).

Fixpoint write_all (values : list T) (write : Z) (q : BaselineQueue T) : res (Z * BaselineQueue T) :=
  match values with
  | [] => Ok (write, q)
  | value :: values =>
      q ← write_slot (Z.land write (bq_mask q)) value q;
      write_all values (next q write) q
  end.

(** An empty batch is not treated apart. *)
Definition try_push_batch (values : list T) (q : BaselineQueue T) : res (bool * BaselineQueue T) :=
  let tail := bq_tail q in
  let used := distance q tail (bq_head q) in
  if capacity q - used <? Z.of_nat (length values) then Ok (false, count_full q) else
  '(write, q) ← write_all values tail q;
  Ok (true, raise (used + Z.of_nat (length values)) (set_tail write q)).

Definition peek (q : BaselineQueue T) : res (option T) :=
  if bq_head q =? bq_tail q then Ok None else
  x ← deref (bq_store q !! Z.to_nat (Z.land (bq_head q) (bq_mask q)));
  Ok (Some x).

Definition pop (q : BaselineQueue T) : res (BaselineQueue T) :=
  _ ← ASSERT (negb (bq_head q =? bq_tail q));
  Ok (set_head (next q (bq_head q)) q).

Definition try_pop (q : BaselineQueue T) : res (option T * BaselineQueue T) :=
  if bq_head q =? bq_tail q then Ok (None, q) else
  x ← deref (bq_store q !! Z.to_nat (Z.land (bq_head q) (bq_mask q)));
  Ok (Some x, set_head (next q (bq_head q)) q).

Definition size (q : BaselineQueue T) : Z := Z.min (distance q (bq_tail q) (bq_head q)) (capacity q).
End BaselineQueue.
End BaselineQueue.

(** Calls on a queue and what they return. *)
Inductive QueueOp (T : Type) : Type :=
  | Push (v : T)
  | PushBatch (vs : list T)
  | Peek
  | Pop
  | TryPop
  | Size.
Arguments Push {T} _.
Arguments PushBatch {T} _.
Arguments Peek {T}.
Arguments Pop {T}.
Arguments TryPop {T}.
Arguments Size {T}.

Inductive QueueAnswer (T : Type) : Type :=
  | Flag (b : bool)
  | Element (x : option T)
  | Void
  | Count (n : Z).
Arguments Flag {T} _.
Arguments Element {T} _.
Arguments Void {T}.
Arguments Count {T} _.

Section Agreement.
Context {T : Type}.
Implicit Types (q : LFQueue T) (l : list T).

Definition queue_call (op : QueueOp T) (q : LFQueue T) : res (QueueAnswer T * LFQueue T) :=
  match op with
  | Push v => '(b, q) ← try_push v q; Ok (Flag b, q)
  | PushBatch vs => '(b, q) ← try_push_batch vs q; Ok (Flag b, q)
  | Peek => x ← peek q; Ok (Element x, q)
  | Pop => q ← pop q; Ok (Void, q)
  | TryPop => '(x, q) ← try_pop q; Ok (Element x, q)
  | Size => Ok (Count (queue_size q), q)
  end.

Definition baseline_call (op : QueueOp T) (q : BaselineQueue T) : res (QueueAnswer T * BaselineQueue T) :=
  match op with
  | Push v => '(b, q) ← BaselineQueue.try_push v q; Ok (Flag b, q)
  | PushBatch vs => '(b, q) ← BaselineQueue.try_push_batch vs q; Ok (Flag b, q)
  | Peek => x ← BaselineQueue.peek q; Ok (Element x, q)
  | Pop => q ← BaselineQueue.pop q; Ok (Void, q)
  | TryPop => '(x, q) ← BaselineQueue.try_pop q; Ok (Element x, q)
  | Size => Ok (Count (BaselineQueue.size q), q)
  end.

(** The same queue with a modulus. *)
Definition to_baseline (q : LFQueue T) : BaselineQueue T :=
  mkBaseline (q_store q) (q_mask q) (q_cursor_mask q + 1) (q_head q) (q_tail q) (q_full_count q)
    (q_high_watermark q).

Record good (q : LFQueue T) (l : list T) : Prop := {
  gd_queue : queue_ok q l;
  gd_watermark : Z.of_nat (length l) <= q_high_watermark q
}.

Lemma cursor_bound q l : queue_ok q l -> 0 <= q_tail q < 2 * capacity q.
Proof.
  intros Hok. rewrite (qo_tail _ _ Hok). apply Z.mod_pos_bound. pose proof (capacity_pos q l Hok). lia.
Qed.

Lemma baseline_next q l i :
  queue_ok q l -> 0 <= i < 2 * capacity q -> BaselineQueue.next (to_baseline q) i = next q i.
Proof.
  intros Hok Hi. rewrite (next_mod q l Hok). unfold BaselineQueue.next. cbn [bq_modulus to_baseline].
  rewrite (qo_cursor_mask _ _ Hok). destruct (Z.eqb_spec (i + 1) (capacity q * 2 - 1 + 1)) as [E|E].
  - replace (i + 1) with (2 * capacity q) by lia. by rewrite Z_mod_same_full.
  - rewrite Z.mod_small; lia.
Qed.

Lemma baseline_distance q l :
  queue_ok q l ->
  BaselineQueue.distance (to_baseline q) (q_tail q) (q_head q) = distance q (q_tail q) (q_head q).
Proof.
  intros Hok. rewrite (distance_mod q l Hok). unfold BaselineQueue.distance. cbn [bq_modulus to_baseline].
  rewrite (qo_cursor_mask _ _ Hok). pose proof (cursor_bound q l Hok). pose proof (qo_head _ _ Hok).
  destruct (Z.leb_spec (q_head q) (q_tail q)).
  - rewrite Z.mod_small; lia.
  - rewrite <- (Z_mod_plus_full _ 1), Z.mod_small; lia.
Qed.

Lemma baseline_write q i v :
  BaselineQueue.write_slot i v (to_baseline q) = (q ← write_slot i v q; Ok (to_baseline q)).
Proof. unfold BaselineQueue.write_slot, write_slot. cbn. by destruct (q_store q !! Z.to_nat i). Qed.

Lemma baseline_raise n q : BaselineQueue.raise n (to_baseline q) = to_baseline (raise_watermark n q).
Proof. unfold BaselineQueue.raise, raise_watermark. cbn. by case_match. Qed.

Lemma raise_high n q : q_high_watermark (raise_watermark n q) = Z.max (q_high_watermark q) n.
Proof. unfold raise_watermark. destruct (Z.ltb_spec (q_high_watermark q) n); cbn; lia. Qed.

Lemma write_slot_inv i v q q' :
  write_slot i v q = Ok q' -> q' = set_store (<[Z.to_nat i := v]> (q_store q)) q.
Proof. unfold write_slot. destruct (q_store q !! Z.to_nat i); [|done]. by intros [= <-]. Qed.

Lemma baseline_push q l v :
  queue_ok q l ->
  BaselineQueue.try_push v (to_baseline q) = ('(b, q) ← try_push v q; Ok (b, to_baseline q)).
Proof.
  intros Hok. unfold BaselineQueue.try_push, try_push. cbn [bq_tail bq_head bq_mask to_baseline].
  rewrite (baseline_distance q l Hok). change (BaselineQueue.capacity (to_baseline q)) with (capacity q).
  case_match; [done|]. rewrite baseline_write.
  destruct (write_slot _ v q) as [q1|f] eqn:Ew; [|done]. cbn [mbind res_bind].
  apply write_slot_inv in Ew as ->. rewrite <- baseline_raise.
  pose proof (baseline_next q l (q_tail q) Hok (cursor_bound q l Hok)) as En.
  exact (f_equal (λ t, Ok (true, BaselineQueue.raise _ (BaselineQueue.set_tail t (to_baseline (set_store _ q))))) En).
Qed.

Lemma baseline_write_all q l vs i :
  queue_ok q l -> 0 <= i < 2 * capacity q ->
  BaselineQueue.write_all vs i (to_baseline q) = ('(i, q) ← write_all vs i q; Ok (i, to_baseline q)).
Proof.
  intros Hok Hi.
  assert (H : forall s, length s = length (q_store q) ->
    BaselineQueue.write_all vs i (to_baseline (set_store s q))
      = ('(i, q) ← write_all vs i (set_store s q); Ok (i, to_baseline q))).
  { revert i Hi. induction vs as [|v vs IH]; intros i Hi s Hs; [done|].
    cbn [BaselineQueue.write_all write_all]. rewrite baseline_write. cbn [bq_mask to_baseline set_store q_mask].
    destruct (write_slot _ v (set_store s q)) as [q1|f] eqn:Ew; [|done]. cbn [mbind res_bind].
    apply write_slot_inv in Ew as ->. cbn [q_store set_store].
    pose proof (baseline_next q l i Hok Hi) as En.
    change (BaselineQueue.write_all vs (BaselineQueue.next (to_baseline q) i)
      (to_baseline (set_store (<[Z.to_nat (Z.land i (q_mask q)) := v]> s) q)) =
      ('(i, q) ← write_all vs (next q i) (set_store (<[Z.to_nat (Z.land i (q_mask q)) := v]> s) q);
       Ok (i, to_baseline q))). rewrite En.
    apply IH; [|by rewrite length_insert]. rewrite (next_mod q l Hok). apply Z.mod_pos_bound. lia. }
  rewrite <- (set_store_same q) at 1. rewrite H by done. by rewrite set_store_same.
Qed.

Lemma baseline_batch q l vs :
  good q l ->
  BaselineQueue.try_push_batch vs (to_baseline q) = ('(b, q) ← try_push_batch vs q; Ok (b, to_baseline q)).
Proof.
  intros [Hok Hw]. unfold BaselineQueue.try_push_batch. cbn [bq_tail bq_head to_baseline].
  rewrite (baseline_distance q l Hok), (distance_length q l Hok).
  change (BaselineQueue.capacity (to_baseline q)) with (capacity q). pose proof (qo_length _ _ Hok) as Hl.
  destruct vs as [|v vs].
  - cbn [length]. rewrite (proj2 (Z.ltb_ge (capacity q - _) _)) by lia. cbn [BaselineQueue.write_all mbind res_bind].
    unfold BaselineQueue.raise. cbn [bq_high_watermark BaselineQueue.set_tail to_baseline].
    by rewrite (proj2 (Z.ltb_ge (q_high_watermark q) _)) by lia.
  - unfold try_push_batch. rewrite (distance_length q l Hok). case_match; [done|].
    rewrite (baseline_write_all q l) by (done || by eapply cursor_bound).
    destruct (write_all (v :: vs) (q_tail q) q) as [[t q1]|f]; [|done]. cbn [mbind res_bind].
    change (BaselineQueue.set_tail t (to_baseline q1)) with (to_baseline (set_tail t q1)).
    by rewrite baseline_raise.
Qed.

Lemma baseline_answers q l op :
  good q l ->
  baseline_call op (to_baseline q) = ('(a, q) ← queue_call op q; Ok (a, to_baseline q)).
Proof.
  intros [Hok Hw]. destruct op as [v|vs| | | |]; cbn [baseline_call queue_call].
  - rewrite (baseline_push q l) by done. by destruct (try_push v q) as [[]|].
  - rewrite (baseline_batch q l) by done. by destruct (try_push_batch vs q) as [[]|].
  - unfold BaselineQueue.peek, peek. cbn. case_match; [done|]. by destruct (_ !! _).
  - unfold BaselineQueue.pop, pop. cbn [bq_head bq_tail to_baseline]. destruct (ASSERT _); [|done].
    cbn [mbind res_bind]. rewrite <- (baseline_next q l (q_head q) Hok (qo_head _ _ Hok)). done.
  - unfold BaselineQueue.try_pop, try_pop. cbn [bq_head bq_tail bq_store bq_mask to_baseline].
    case_match; [done|]. destruct (_ !! _); [|done]. cbn [deref mbind res_bind].
    rewrite <- (baseline_next q l (q_head q) Hok (qo_head _ _ Hok)). done.
  - cbn [mbind res_bind]. unfold BaselineQueue.size, queue_size. cbn [bq_head bq_tail to_baseline].
    by rewrite (baseline_distance q l Hok).
Qed.

Lemma push_watermark q q' v b :
  try_push v q = Ok (b, q') ->
  q_high_watermark q <= q_high_watermark q' /\
  (b = true -> distance q (q_tail q) (q_head q) + 1 <= q_high_watermark q').
Proof.
  unfold try_push. case_match; [by intros [= <- <-]|]. destruct (write_slot _ v q) as [q1|] eqn:Ew; [|done].
  cbn [mbind res_bind]. apply write_slot_inv in Ew as ->. intros [= <- <-]. rewrite raise_high. cbn. lia.
Qed.

Lemma write_all_high vs i q t q' : write_all vs i q = Ok (t, q') -> q_high_watermark q' = q_high_watermark q.
Proof.
  revert i q. induction vs as [|v vs IH]; intros i q; cbn [write_all]; [by intros [= _ <-]|].
  destruct (write_slot _ v q) as [q1|] eqn:Ew; [|done]. cbn [mbind res_bind].
  apply write_slot_inv in Ew as ->. by intros ->%IH.
Qed.

Lemma batch_watermark q q' vs b :
  try_push_batch vs q = Ok (b, q') ->
  q_high_watermark q <= q_high_watermark q' /\
  (b = true -> vs = [] \/ distance q (q_tail q) (q_head q) + Z.of_nat (length vs) <= q_high_watermark q').
Proof.
  unfold try_push_batch. destruct vs as [|v vs]; [intros [= <- <-]; split; [done|by left]|].
  case_match; [by intros [= <- <-]|]. destruct (write_all _ _ q) as [[t q1]|] eqn:Ew; [|done].
  cbn [mbind res_bind]. apply write_all_high in Ew. intros [= <- <-]. rewrite raise_high. cbn. rewrite Ew.
  split; [lia|]. intros _. right. lia.
Qed.

Lemma call_good q l op a q' : good q l -> queue_call op q = Ok (a, q') -> exists l', good q' l'.
Proof.
  intros [Hok Hw]. destruct op as [v|vs| | | |]; cbn [queue_call].
  - pose proof (try_push_ok q l v Hok) as Hp. destruct (try_push v q) as [[b q1]|] eqn:E; [|done].
    cbn [mbind res_bind]. intros [= _ <-]. apply push_watermark in E as [H1 H2].
    rewrite (distance_length q l Hok) in H2. case_match.
    + destruct Hp as [[= -> ->] Hq]. exists l. split; [done|lia].
    + destruct Hp as (q2 & [= -> ->] & Hq & _). exists (l ++ [v]). split; [done|]. rewrite length_app. cbn.
      specialize (H2 eq_refl). lia.
  - pose proof (try_push_batch_ok q l vs Hok) as Hp. destruct (try_push_batch vs q) as [[b q1]|] eqn:E; [|done].
    cbn [mbind res_bind]. intros [= _ <-]. apply batch_watermark in E as [H1 H2].
    rewrite (distance_length q l Hok) in H2. case_match.
    + destruct Hp as (q2 & [= -> ->] & Hq & _). exists (l ++ vs). split; [done|]. rewrite length_app.
      destruct (H2 eq_refl) as [->|?]; [cbn|]; lia.
    + destruct Hp as [[= -> ->] Hq]. exists l. split; [done|lia].
  - rewrite (peek_ok q l Hok). intros [= _ <-]. by exists l.
  - pose proof (pop_ok q l Hok) as Hp. destruct l as [|x l]; [by rewrite Hp|].
    destruct Hp as (q1 & E & Hq & _). rewrite E. intros [= _ <-]. exists l. split; [done|].
    assert (q_high_watermark q1 = q_high_watermark q) as ->; [|cbn [length] in Hw; lia].
    unfold pop in E. destruct (ASSERT _); [|done]. cbn in E. by injection E as <-.
  - pose proof (try_pop_ok q l Hok) as Hp. destruct l as [|x l].
    { rewrite Hp. intros [= _ <-]. by exists []. }
    destruct Hp as (q1 & E & Hq & _). rewrite E. intros [= _ <-]. exists l. split; [done|].
    assert (q_high_watermark q1 = q_high_watermark q) as ->; [|cbn [length] in Hw; lia].
    unfold try_pop in E. case_match; [done|]. destruct (_ !! _); [|done]. cbn in E. by injection E as _ <-.
  - intros [= _ <-]. by exists l.
Qed.

(** A sequence of calls; it ends at a failed ASSERT. *)
Fixpoint calls {Q A : Type} (call : A -> Q -> res (QueueAnswer T * Q)) (ops : list A) (q : Q) :
    res (list (QueueAnswer T) * Q) :=
  match ops with
  | [] => Ok ([], q)
  | op :: ops =>
      '(a, q) ← call op q;
      '(l, q) ← calls call ops q;
      Ok (a :: l, q)
  end.

(** the queue with masked cursors is equivalent to the one with a modulus
    that it replaced.  A capacity is accepted by both constructors or by none,
    and any sequence of calls gets the same answers from both, counters
    included, and stops at the same failed check. *)
Theorem masked_cursors_agree (d : T) c :
  BaselineQueue.make d c = to_baseline <$> queue_new d c /\
  forall q ops, queue_new d c = Some q ->
    calls baseline_call ops (to_baseline q) = ('(l, q) ← calls queue_call ops q; Ok (l, to_baseline q)).
Proof.
  split.
  - unfold BaselineQueue.make, BaselineQueue.checkedCapacity, queue_new, checkedCapacity. case_match; [done|].
    cbn. unfold to_baseline. cbn. do 3 f_equal. lia.
  - intros q ops Hq. assert (Hg : exists l, good q l).
    { exists []. split; [by eapply queue_new_ok|]. unfold queue_new in Hq.
      destruct (checkedCapacity c); [|done]. by injection Hq as <-. }
    clear Hq. revert q Hg. induction ops as [|op ops IH]; intros q [l Hg]; [done|]. cbn [calls].
    rewrite (baseline_answers q l op Hg). destruct (queue_call op q) as [[a q1]|f] eqn:E; [|done].
    cbn [mbind res_bind]. rewrite IH by (by eapply call_good).
    by destruct (calls queue_call ops q1) as [[]|].
Qed.
End Agreement.

Definition baseline_demo : list (QueueOp Z) :=
  [Push 1; PushBatch [2]; Push 3; TryPop; PushBatch []; Push 4; Pop; Peek; Size; TryPop; TryPop].

Lemma masked_cursors_agree_witness :
  exists q l q', queue_new 0 2 = Some q /\ calls queue_call baseline_demo q = Ok (l, q') /\
    calls baseline_call baseline_demo (to_baseline q) = Ok (l, to_baseline q') /\
    l = [Flag true; Flag true; Flag false; Element (Some 1); Flag true; Flag true; Void; Element (Some 4);
         Count 1; Element (Some 4); Element None].
Proof.
  destruct (queue_new 0 2) as [q|] eqn:E; [|by vm_compute in E].
  pose proof (proj2 (masked_cursors_agree 0 2) q baseline_demo E) as H.
  destruct (calls queue_call baseline_demo q) as [[l q']|] eqn:Er.
  2:{ vm_compute in E. injection E as <-. by vm_compute in Er. }
  exists q, l, q'. split; [done|]. split; [done|]. split; [exact H|].
  vm_compute in E. injection E as <-. vm_compute in Er. by injection Er as <- _.
Defined.

(** ** The pool with separate flags *)
Record RejectedPool (T : Type) : Type := mkRejected {
  rp_storage : gmap Z T;   (* the objects constructed in [blocks_] *)
  rp_free : list Z;        (* [free_], top first *)
  rp_used : list Z         (* [used_]; one flag per block *)
}.
Arguments mkRejected {T} _ _ _.
Arguments rp_storage {T} _.
Arguments rp_free {T} _.
Arguments rp_used {T} _.

Module RejectedPool.
Section RejectedPool.
Context {T : Type}.

Definition make (capacity : Z) : option (RejectedPool T) :=
  if (capacity =? 0) || (2 ^ 32 - 1 <? capacity) then None
  else Some (mkRejected ∅ (seqZ 0 capacity) (replicate (Z.to_nat capacity) 0)).

Definition available (p : RejectedPool T) : Z := Z.of_nat (length (rp_free p)).

Definition set_used (index flag : Z) (p : RejectedPool T) : res (RejectedPool T) :=
  _ ← deref (rp_used p !! Z.to_nat index);
  Ok (mkRejected (rp_storage p) (rp_free p) (<[Z.to_nat index := flag]> (rp_used p))).

Definition allocate (obj : T) (p : RejectedPool T) : res (option Z * RejectedPool T) :=
  match rp_free p with
  | [] => Ok (None, p)
  | index :: free =>
      p ← set_used index 1 (mkRejected (<[index := obj]> (rp_storage p)) free (rp_used p));
      Ok (Some index, p)
  end.

Definition deallocate (object : Z) (p : RejectedPool T) : res (RejectedPool T) :=
  _ ← ASSERT ((0 <=? object) && (object <? Z.of_nat (length (rp_used p))));
  used ← deref (rp_used p !! Z.to_nat object);
  _ ← ASSERT (negb (used =? 0));
  set_used object 0 (mkRejected (delete object (rp_storage p)) (object :: rp_free p) (rp_used p)).
End RejectedPool.
End RejectedPool.

Inductive PoolOp (T : Type) : Type :=
  | Allocate (obj : T)
  | Deallocate (object : Z)
  | Available.
Arguments Allocate {T} _.
Arguments Deallocate {T} _.
Arguments Available {T}.

Section Pools.
Context {T : Type}.

(** The answer: a block, nothing, or a number. *)
Definition pool_call (op : PoolOp T) (p : MemPool T) : res (option Z * MemPool T) :=
  match op with
  | Allocate obj => Ok (allocate obj p)
  | Deallocate a => p ← deallocate a p; Ok (None, p)
  | Available => Ok (Some (pool_available p), p)
  end.

Definition rejected_call (op : PoolOp T) (p : RejectedPool T) : res (option Z * RejectedPool T) :=
  match op with
  | Allocate obj => RejectedPool.allocate obj p
  | Deallocate a => p ← RejectedPool.deallocate a p; Ok (None, p)
  | Available => Ok (Some (RejectedPool.available p), p)
  end.

Fixpoint pool_calls {P A : Type} (call : A -> P -> res (option Z * P)) (ops : list A) (p : P) :
    res (list (option Z) * P) :=
  match ops with
  | [] => Ok ([], p)
  | op :: ops =>
      '(a, p) ← call op p;
      '(l, p) ← pool_calls call ops p;
      Ok (a :: l, p)
  end.

(** The flags say which blocks are live. *)
Record same_pool (r : RejectedPool T) (p : MemPool T) : Prop := {
  sp_ok : pool_ok p;
  sp_storage : rp_storage r = pool_blocks p;
  sp_free : rp_free r = pool_free p;
  sp_length : Z.of_nat (length (rp_used r)) = pool_capacity p;
  sp_flag i f : 0 <= i -> rp_used r !! Z.to_nat i = Some f ->
    f = if decide (is_Some (pool_blocks p !! i)) then 1 else 0
}.

Lemma set_used_flags (used : list Z) (m m' : gmap Z T) a flag :
  0 <= a < Z.of_nat (length used) -> flag = (if decide (is_Some (m' !! a)) then 1 else 0) ->
  (forall i, i <> a -> m' !! i = m !! i) ->
  (forall i f, 0 <= i -> used !! Z.to_nat i = Some f -> f = if decide (is_Some (m !! i)) then 1 else 0) ->
  forall i f, 0 <= i -> <[Z.to_nat a := flag]> used !! Z.to_nat i = Some f ->
    f = if decide (is_Some (m' !! i)) then 1 else 0.
Proof.
  intros Ha Hflag Hm Hu i f Hi [(E & <- & _)|[Hne Hf]]%list_lookup_insert_Some.
  - assert (i = a) as -> by lia. done.
  - rewrite Hm by (intros ->; done). by apply Hu.
Qed.

Lemma same_call r p op :
  same_pool r p ->
  match pool_call op p, rejected_call op r with
  | Ok (a, p'), Ok (b, r') => a = b /\ same_pool r' p'
  | Err e, Err f => e = f
  | _, _ => False
  end.
Proof.
  intros [Hp Hs Hf Hl Hu]. destruct op as [obj|a|]; cbn [pool_call rejected_call].
  - unfold RejectedPool.allocate. rewrite Hf. unfold allocate.
    destruct (pool_free p) as [|i free] eqn:E; [by split; [|split; rewrite ?E]|].
    assert (Hav : 0 < pool_available p) by (unfold pool_available; rewrite E; cbn; lia).
    destruct (allocate_some obj p Hp Hav) as (i' & p' & Ha & _ & Hr & Hb & Hok & _).
    unfold allocate in Ha. rewrite E in Ha. injection Ha as <- <-.
    unfold RejectedPool.set_used. cbn [rp_used rp_storage rp_free].
    destruct (lookup_lt_is_Some_2 (rp_used r) (Z.to_nat i)) as [f ->]; [lia|].
    cbn [deref mbind res_bind]. split; [done|]. split; [done|cbn; by rewrite Hs|done|cbn; by rewrite length_insert|].
    cbn [rp_used pool_blocks]. apply (set_used_flags _ (pool_blocks p)); [lia| | |done].
    + rewrite lookup_insert_eq. by rewrite decide_True by eauto.
    + intros j Hj. by rewrite lookup_insert_ne.
  - unfold RejectedPool.deallocate, deallocate. rewrite Hl.
    destruct ((0 <=? a) && (a <? pool_capacity p)) eqn:Er; [|done]. cbn [ASSERT mbind res_bind].
    apply andb_true_iff in Er as [Ha1%Z.leb_le Ha2%Z.ltb_lt].
    destruct (lookup_lt_is_Some_2 (rp_used r) (Z.to_nat a)) as [f Hfl]; [lia|]. rewrite Hfl. cbn [deref mbind res_bind].
    pose proof (Hu a f Ha1 Hfl) as Ef. case_bool_decide as Hlive.
    + rewrite decide_True in Ef by done. subst f. cbn [negb Z.eqb ASSERT mbind res_bind].
      unfold RejectedPool.set_used. cbn [rp_used rp_storage rp_free]. rewrite Hfl. cbn [deref mbind res_bind].
      split; [done|]. destruct Hlive as [x Hx].
      destruct (deallocate_live a x p Hp Hx) as (p' & Hd & _ & Hok & _).
      unfold deallocate in Hd. rewrite (proj2 (Z.leb_le 0 a)), (proj2 (Z.ltb_lt a _)) in Hd by lia.
      rewrite bool_decide_true in Hd by eauto. cbn [andb ASSERT mbind res_bind] in Hd. injection Hd as <-.
      split; [done|cbn; by rewrite Hs|cbn; by rewrite Hf|cbn; by rewrite length_insert|].
      cbn [rp_used pool_blocks]. apply (set_used_flags _ (pool_blocks p)); [lia| | |done].
      * by rewrite lookup_delete_eq.
      * intros j Hj. by rewrite lookup_delete_ne.
    + rewrite decide_False in Ef by done. by subst f.
  - split; [|by split]. unfold RejectedPool.available, pool_available. by rewrite Hf.
Qed.

(** Any sequence of calls gets the same answers from the two pools and ends
    with the same objects, or stops at the same failed check. *)
Lemma rejected_pool_agrees c :
  0 <= c ->
  match pool_new c, RejectedPool.make c with
  | Some p, Some r => forall ops,
      match pool_calls pool_call ops p, pool_calls rejected_call ops r with
      | Ok (l, p'), Ok (l', r') => l = l' /\ rp_storage r' = pool_blocks p' /\ rp_free r' = pool_free p'
      | Err e, Err f => e = f
      | _, _ => False
      end
  | None, None => True
  | _, _ => False
  end.
Proof.
  intros Hc. destruct (@pool_new T c) as [p|] eqn:Ep; unfold RejectedPool.make; unfold pool_new in Ep;
    destruct ((c =? 0) || _) eqn:E; try done.
  assert (Hsame : same_pool (mkRejected ∅ (seqZ 0 c) (replicate (Z.to_nat c) 0)) p).
  { pose proof Ep as Ep'. injection Ep as <-. split; cbn; try done.
    - apply (pool_new_ok c). unfold pool_new. by rewrite E.
    - rewrite length_replicate. lia.
    - intros i f _ [-> _]%lookup_replicate. by rewrite lookup_empty. }
  clear Ep. intros ops. revert p Hsame. generalize (mkRejected (T := T) ∅ (seqZ 0 c) (replicate (Z.to_nat c) 0)).
  induction ops as [|op ops IH]; intros r p Hs; cbn [pool_calls]; [by destruct Hs|].
  pose proof (same_call r p op Hs) as Hstep.
  destruct (pool_call op p) as [[a p1]|e], (rejected_call op r) as [[b r1]|f]; cbn [mbind res_bind]; try done.
  destruct Hstep as [<- Hs1]. specialize (IH r1 p1 Hs1).
  destruct (pool_calls pool_call ops p1) as [[l p2]|], (pool_calls rejected_call ops r1) as [[l' r2]|];
    cbn [mbind res_bind]; try done. destruct IH as (<- & ? & ?). done.
Qed.
End Pools.
