(* ===== verification/Logging.v ===== *)
(** The diagnostic log: common/logging.h.

    Threads format a record and push it, one at a time, into a queue; a worker
    thread writes the records to the file.  Values are arguments already
    printed; the file is the text written to it.  Formatting a record with too
    few or too many arguments stops the process. *)
From S2P Require Import Prelude.
From S2P Require Import LFQueue.
From stdpp Require Import base strings pretty list.
From Stdlib Require Import Ascii ZArith Lia.

Local Open Scope Z_scope.

Definition LOG_QUEUE_SIZE : Z := 8192.

(** Where the worker is: at the head of the outer loop, in the inner one
    ([written]), or past its end. *)
Inductive LogWorker : Type :=
  | AtHead
  | Draining (written : bool)
  | Finished.

Record Logger : Type := mkLogger {
  lg_queue : LFQueue string;
  lg_file : string;
  lg_flushed : string;      (* the part that a flush has handed over *)
  lg_running : bool;
  lg_dropped : Z;
  lg_worker : LogWorker
}.

Module Logger.

(** [formatTo] without and with values: [%] stands for a value, [%%] for a
    percent sign. *)
Fixpoint format_rest (format : string) : res string :=
  match format with
  | EmptyString => Ok EmptyString
  | String c rest =>
      if bool_decide (c = "%"%char) then
        match rest with
        | String c' rest' =>
            _ ← ASSERT (bool_decide (c' = "%"%char));
            text ← format_rest rest'; Ok (String c' text)
        | EmptyString => Err AssertFailed
        end
      else text ← format_rest rest; Ok (String c text)
  end.

Fixpoint formatTo (format : string) (args : list string) : res string :=
  match args with
  | [] => format_rest format
  | value :: args' =>
      match format with
      | EmptyString => Err AssertFailed
      | String c rest =>
          if bool_decide (c = "%"%char) then
            match rest with
            | String c' rest' =>
                if bool_decide (c' = "%"%char)
                then text ← formatTo rest' args; Ok (String c' text)
                else text ← formatTo rest args'; Ok (value +:+ text)%string
            | EmptyString => text ← formatTo rest args'; Ok (value +:+ text)%string
            end
          else text ← formatTo rest args; Ok (String c text)
      end
  end.

(** The file can be opened. *)
Definition make (capacity : Z) : option Logger :=
  q ← queue_new EmptyString capacity;
  Some (mkLogger q EmptyString EmptyString true 0 AtHead).

Definition with_queue (q : LFQueue string) (l : Logger) : Logger :=
  mkLogger q (lg_file l) (lg_flushed l) (lg_running l) (lg_dropped l) (lg_worker l).
Definition with_worker (w : LogWorker) (l : Logger) : Logger :=
  mkLogger (lg_queue l) (lg_file l) (lg_flushed l) (lg_running l) (lg_dropped l) w.
Definition write (text : string) (l : Logger) : Logger :=
  mkLogger (lg_queue l) (lg_file l +:+ text)%string (lg_flushed l) (lg_running l) (lg_dropped l) (lg_worker l).
Definition flush (l : Logger) : Logger :=
  mkLogger (lg_queue l) (lg_file l) (lg_file l) (lg_running l) (lg_dropped l) (lg_worker l).
Definition drop (l : Logger) : Logger :=
  mkLogger (lg_queue l) (lg_file l) (lg_flushed l) (lg_running l) (u64 (lg_dropped l + 1)) (lg_worker l).

(** [log]: a record that is too long is not pushed. *)
Definition log (format : string) (args : list string) (l : Logger) : res Logger :=
  record ← formatTo format args;
  if 65536 <? Z.of_nat (String.length record) then Ok (drop l) else
  '(ok, q) ← try_push record (lg_queue l);
  let l := with_queue q l in
  Ok (if ok : bool then l else drop l).

Definition footer (dropped : Z) : string :=
  ("[LOGGER] dropped_records=" +:+ pretty dropped +:+ String "010" EmptyString)%string.

(** One step of the worker: the test of the outer loop, or one [try_pop]. *)
Definition worker_step (l : Logger) : res Logger :=
  match lg_worker l with
  | AtHead =>
      head ← peek (lg_queue l);
      if lg_running l || bool_decide (is_Some head) then Ok (with_worker (Draining false) l)
      else Ok (with_worker Finished (flush (write (footer (lg_dropped l)) l)))
  | Draining written =>
      '(record, q) ← try_pop (lg_queue l);
      let l := with_queue q l in
      match record with
      | Some text => Ok (with_worker (Draining true) (write text l))
      | None => Ok (with_worker AtHead (if written : bool then flush l else l))
      end
  | Finished => Ok l
  end.

(** The destructor: the worker runs to its end. *)
Definition stop (l : Logger) : Logger :=
  mkLogger (lg_queue l) (lg_file l) (lg_flushed l) false (lg_dropped l) (lg_worker l).

Fixpoint join (fuel : nat) (l : Logger) : res Logger :=
  match lg_worker l, fuel with
  | Finished, _ => Ok l
  | _, O => Err NoFuel
  | _, S fuel => l ← worker_step l; join fuel l
  end.

Definition destroy (fuel : nat) (l : Logger) : res Logger := join fuel (stop l).
End Logger.

(** ** Runs: calls of [log] by any threads and steps of the worker *)
Inductive LogOp : Type :=
  | LogRecord (format : string) (args : list string)
  | LogWorkerStep.

Definition log_step (l : Logger) (op : LogOp) : res Logger :=
  match op with
  | LogRecord format args => Logger.log format args l
  | LogWorkerStep => Logger.worker_step l
  end.

Definition log_run (ops : list LogOp) (l : Logger) : res Logger := res_fold log_step ops l.

(** The records formatted in a run. *)
Fixpoint records_of (ops : list LogOp) : list (res string) :=
  match ops with
  | [] => []
  | LogRecord format args :: ops => Logger.formatTo format args :: records_of ops
  | LogWorkerStep :: ops => records_of ops
  end.

(** ** Formatting *)

(** The number of values that a format asks for. *)
Fixpoint holes (format : string) : nat :=
  match format with
  | EmptyString => 0
  | String c rest =>
      if bool_decide (c = "%"%char) then
        match rest with
        | String c' rest' => if bool_decide (c' = "%"%char) then holes rest' else S (holes rest)
        | EmptyString => 1
        end
      else holes rest
  end.

Lemma format_ind (P : string -> Prop) :
  P EmptyString -> (forall c s, P s -> (forall c' s', s = String c' s' -> P s') -> P (String c s)) -> forall s, P s.
Proof.
  intros H0 H1 s. enough (P s /\ forall c' s', s = String c' s' -> P s') as [? _] by done.
  induction s as [|c s [IH1 IH2]]; [done|]. split; [by apply H1|]. by intros ? ? [= _ <-].
Qed.

Lemma formatTo_nil s : Logger.formatTo s [] = Logger.format_rest s.
Proof. by destruct s. Qed.

(** A record is formatted when the format has a place for every value, and
    the process stops otherwise. *)
Lemma format_arity format args :
  match Logger.formatTo format args with
  | Ok _ => holes format = length args
  | Err f => f = AssertFailed /\ holes format <> length args
  end.
Proof.
  revert args. induction format as [|c s IH1 IH2] using format_ind; intros args.
  { by destruct args. }
  destruct args as [|value args]; cbn [Logger.formatTo Logger.format_rest holes length].
  - specialize (IH1 []). rewrite formatTo_nil in IH1. case_bool_decide; [|].
    + destruct s as [|c' s']; [done|]. specialize (IH2 c' s' eq_refl []). rewrite formatTo_nil in IH2.
      case_bool_decide; cbn [ASSERT mbind res_bind]; [|by split]. by destruct (Logger.format_rest s').
    + by destruct (Logger.format_rest s).
  - case_bool_decide; [|].
    + destruct s as [|c' s'].
      { specialize (IH1 args). destruct (Logger.formatTo EmptyString args); cbn in *; [lia|].
        destruct IH1. split; [done|lia]. }
      case_bool_decide.
      * specialize (IH2 c' s' eq_refl (value :: args)). by destruct (Logger.formatTo s' (value :: args)).
      * specialize (IH1 args). destruct (Logger.formatTo (String c' s') args); cbn [mbind res_bind]; [lia|].
        destruct IH1. split; [done|lia].
    + specialize (IH1 (value :: args)). by destruct (Logger.formatTo s (value :: args)).
Qed.

(** ** Whole records or counted ones *)
Fixpoint joined (l : list string) : string :=
  match l with
  | [] => EmptyString
  | s :: l => (s +:+ joined l)%string
  end.

Lemma string_app_assoc (a b c : string) : (a +:+ (b +:+ c) = (a +:+ b) +:+ c)%string.
Proof. induction a as [|x a IH]; [done|]. exact (f_equal (String x) IH). Qed.

Lemma joined_snoc l s : joined (l ++ [s]) = (joined l +:+ s)%string.
Proof.
  induction l as [|x l IH]; cbn [joined app].
  - induction s as [|c s IH]; [done|]. exact (f_equal (String c) IH).
  - by rewrite IH, string_app_assoc.
Qed.

(** A record that is not too long. *)
Definition short (r : string) : Prop := Z.of_nat (String.length r) <= 65536.

Section Run.
Context (capacity_of_queue : Z).

(** The records so far, those written and those that wait. *)
Record logger_ok (records written waiting : list string) (l : Logger) : Prop := {
  lo_queue : queue_ok (lg_queue l) waiting;
  lo_capacity : capacity (lg_queue l) = capacity_of_queue;
  lo_sublist : (written ++ waiting) `sublist_of` records;
  lo_dropped : lg_dropped l = u64 (Z.of_nat (length records) - Z.of_nat (length (written ++ waiting)));
  lo_all : Z.of_nat (length records) <= capacity_of_queue -> Forall short records -> written ++ waiting = records;
  lo_file : match lg_worker l with
            | Finished => waiting = [] /\ lg_running l = false /\
                lg_file l = (joined written +:+ Logger.footer (lg_dropped l))%string
            | _ => lg_file l = joined written
            end;
  lo_flushed : match lg_worker l with
               | Draining true => True
               | _ => lg_flushed l = lg_file l
               end
}.

Lemma drop_ok records written waiting l r :
  lg_running l = true -> logger_ok records written waiting l ->
  (short r -> capacity_of_queue <= Z.of_nat (length waiting)) ->
  logger_ok (records ++ [r]) written waiting (Logger.drop l).
Proof.
  intros Hrun [H1 H2 H3 H4 H5 H6 H7] Hr. pose proof (sublist_length _ _ H3) as Hlen. split; cbn; try done.
  - by apply sublist_inserts_r.
  - rewrite H4, (length_app records). cbn [length]. unfold u64. rewrite Zplus_mod_idemp_l. f_equal. lia.
  - rewrite (length_app records), Forall_app. cbn. intros Hc [_ [Hs _]%Forall_cons]. specialize (Hr Hs).
    rewrite length_app in Hlen. lia.
  - destruct (lg_worker l); try done. destruct H6 as (_ & ? & _). congruence.
Qed.

Lemma log_ok records written waiting l format args :
  lg_running l = true -> logger_ok records written waiting l ->
  match Logger.log format args l with
  | Ok l' => exists r waiting', Logger.formatTo format args = Ok r /\ lg_running l' = true /\
      logger_ok (records ++ [r]) written waiting' l'
  | Err f => f = AssertFailed /\ holes format <> length args
  end.
Proof.
  intros Hrun Hok. unfold Logger.log. pose proof (format_arity format args) as Ha.
  destruct (Logger.formatTo format args) as [r|f]; [|exact Ha]. cbn [mbind res_bind].
  destruct (Z.ltb_spec 65536 (Z.of_nat (String.length r))) as [Hlong|Hshort].
  { exists r, waiting. split; [done|]. split; [done|]. apply drop_ok; [done..|]. unfold short. lia. }
  pose proof (try_push_ok _ _ r (lo_queue _ _ _ _ Hok)) as Hp.
  destruct (Z.eqb_spec (Z.of_nat (length waiting)) (capacity (lg_queue l))) as [E|E].
  - destruct Hp as [-> Hq]. cbn [mbind res_bind]. exists r, waiting. split; [done|]. split; [done|].
    apply drop_ok; [done| |]; [destruct Hok; by split|]. rewrite <- (lo_capacity _ _ _ _ Hok). lia.
  - destruct Hp as (q & -> & Hq & Hc). cbn [mbind res_bind]. exists r, (waiting ++ [r]).
    split; [done|]. split; [done|]. destruct Hok as [H1 H2 H3 H4 H5 H6 H7].
    split; cbn [lg_queue lg_dropped lg_worker lg_file lg_flushed lg_running Logger.with_queue]; try done;
      rewrite ?app_assoc.
    + congruence.
    + by apply sublist_app.
    + rewrite H4, !length_app. f_equal. lia.
    + rewrite length_app, Forall_app. intros Hc' [Hs _]. f_equal. apply H5; [cbn in Hc'; lia|done].
    + destruct (lg_worker l); try done. destruct H6 as (_ & ? & _). congruence.
Qed.

Lemma worker_ok records written waiting l :
  logger_ok records written waiting l ->
  exists l' written' waiting', Logger.worker_step l = Ok l' /\ lg_running l' = lg_running l /\
    lg_dropped l' = lg_dropped l /\ written' ++ waiting' = written ++ waiting /\
    logger_ok records written' waiting' l'.
Proof.
  intros Hok. pose proof Hok as [H1 H2 H3 H4 H5 H6 H7]. unfold Logger.worker_step.
  destruct (lg_worker l) as [|w|] eqn:Ew.
  - rewrite (peek_ok _ _ H1). cbn [mbind res_bind]. destruct (lg_running l || _) eqn:Er.
    + exists (Logger.with_worker (Draining false) l), written, waiting. by split_and!; try split.
    + apply orb_false_iff in Er as [Er Ew']. exists (Logger.with_worker Finished
        (Logger.flush (Logger.write (Logger.footer (lg_dropped l)) l))), written, waiting.
      split_and!; try done. split; cbn; try done. split; [|split; [done|by rewrite H6]].
      destruct waiting; [done|]. by apply bool_decide_eq_false in Ew' as [].
  - pose proof (try_pop_ok _ _ H1) as Hp. destruct waiting as [|r waiting].
    + rewrite Hp. cbn [mbind res_bind]. eexists _, written, []. split; [done|].
      split; [by destruct w|]. split; [by destruct w|]. split; [done|]. destruct w; by split.
    + destruct Hp as (q & -> & Hq & Hc). cbn [mbind res_bind].
      eexists _, (written ++ [r]), waiting. split; [done|]. split; [done|]. split; [done|].
      assert (E : (written ++ [r]) ++ waiting = written ++ r :: waiting) by (by rewrite <- app_assoc).
      split; [exact E|]. split; cbn; rewrite ?E; try done; [congruence|]. by rewrite joined_snoc, H6.
  - exists l, written, waiting. by split_and!.
Qed.

Lemma logger_run_ok ops records written waiting l :
  lg_running l = true -> logger_ok records written waiting l ->
  match log_run ops l with
  | Ok l' => exists rs written' waiting', records_of ops = Ok <$> rs /\ lg_running l' = true /\
      logger_ok (records ++ rs) written' waiting' l'
  | Err f => f = AssertFailed /\
      exists format args, LogRecord format args ∈ ops /\ holes format <> length args
  end.
Proof.
  revert records written waiting l. induction ops as [|op ops IH]; intros records written waiting l Hrun Hok.
  { exists [], written, waiting. by rewrite app_nil_r. }
  unfold log_run in *. cbn [res_fold]. destruct op as [format args|]; cbn [log_step records_of].
  - pose proof (log_ok records written waiting l format args Hrun Hok) as Hl.
    destruct (Logger.log format args l) as [l1|f]; cbn [mbind res_bind].
    + destruct Hl as (r & waiting1 & -> & Hrun1 & Hok1). specialize (IH _ _ _ _ Hrun1 Hok1).
      destruct (res_fold log_step ops l1) as [l2|f].
      * destruct IH as (rs & written2 & waiting2 & -> & Hrun2 & Hok2). exists (r :: rs), written2, waiting2.
        rewrite <- app_assoc in Hok2. by split_and!.
      * destruct IH as (-> & fm & ar & Hin & Hne). split; [done|]. exists fm, ar. split; [by right|done].
    + destruct Hl as [-> Hne]. split; [done|]. exists format, args. split; [by left|done].
  - destruct (worker_ok records written waiting l Hok) as (l1 & written1 & waiting1 & -> & Hrun1 & _ & _ & Hok1).
    cbn [mbind res_bind]. rewrite Hrun in Hrun1. specialize (IH _ _ _ _ Hrun1 Hok1).
    destruct (res_fold log_step ops l1) as [l2|f]; [exact IH|].
    destruct IH as (-> & fm & ar & Hin & Hne). split; [done|]. exists fm, ar. split; [by right|done].
Qed.

(** What the worker still has to do once the logger stops: one step per waiting
    record, and the ends of the loops. *)
Definition to_do (waiting : list string) (w : LogWorker) : nat :=
  match w with
  | Finished => 0
  | AtHead => match waiting with [] => 1 | _ => length waiting + 3 end
  | Draining _ => length waiting + 2
  end.

Lemma join_ok fuel : forall records written waiting l,
  lg_running l = false -> logger_ok records written waiting l -> (to_do waiting (lg_worker l) <= fuel)%nat ->
  exists l', Logger.join fuel l = Ok l' /\ lg_dropped l' = lg_dropped l /\ lg_flushed l' = lg_file l' /\
    lg_file l' = (joined (written ++ waiting) +:+ Logger.footer (lg_dropped l))%string.
Proof.
  induction fuel as [|fuel IH]; intros records written waiting l Hrun Hok Hfuel.
  { destruct (lg_worker l) eqn:Ew; cbn in Hfuel; [destruct waiting; cbn in Hfuel; lia|lia|].
    exists l. cbn [Logger.join]. rewrite Ew. destruct Hok as [_ _ _ _ _ H6 H7]. rewrite Ew in *.
    destruct H6 as (-> & _ & H6). rewrite app_nil_r. by split_and!. }
  destruct (worker_ok records written waiting l Hok) as (l1 & written1 & waiting1 & E & Hrun1 & Hd & Happ & Hok1).
  destruct (lg_worker l) as [|w|] eqn:Ew.
  3:{ exists l. cbn [Logger.join]. rewrite Ew. destruct Hok as [_ _ _ _ _ H6 H7]. rewrite Ew in *.
      destruct H6 as (-> & _ & H6). rewrite app_nil_r. by split_and!. }
  all: cbn [Logger.join]; rewrite Ew, E; cbn [mbind res_bind]; rewrite <- Happ, <- Hd.
  all: apply (IH records written1 waiting1); [congruence|done|].
  all: unfold Logger.worker_step in E; rewrite Ew in E; cbn [to_do] in Hfuel.
  - rewrite (peek_ok _ _ (lo_queue _ _ _ _ Hok)), Hrun in E. cbn [mbind res_bind orb] in E.
    destruct waiting as [|r waiting]; cbn [head] in E.
    + injection E as <-. cbn. lia.
    + rewrite bool_decide_eq_true_2 in E by eauto. injection E as <-. cbn [to_do Logger.with_worker lg_worker].
      rewrite (queue_contents_unique _ _ _ (lo_queue _ _ _ _ Hok1) (lo_queue _ _ _ _ Hok)). lia.
  - pose proof (try_pop_ok _ _ (lo_queue _ _ _ _ Hok)) as Hp. destruct waiting as [|r waiting].
    + rewrite Hp in E. cbn [mbind res_bind] in E.
      assert (Hw : lg_worker l1 = AtHead /\ lg_queue l1 = lg_queue l) by (destruct w; by injection E as <-).
      destruct Hw as [-> Hq]. pose proof (lo_queue _ _ _ _ Hok1) as Hq1. rewrite Hq in Hq1.
      rewrite (queue_contents_unique _ _ _ Hq1 (lo_queue _ _ _ _ Hok)). cbn in *. lia.
    + destruct Hp as (q & Ep & Hq & _). rewrite Ep in E. cbn [mbind res_bind] in E. injection E as <-.
      rewrite (queue_contents_unique _ _ _ (lo_queue _ _ _ _ Hok1) Hq). cbn in *. lia.
Qed.
End Run.

(** C38: a record is logged whole or counted as dropped.  Whatever threads log
    and however the worker's steps fall between: the process stops only at a
    record whose values do not match its format; the records accepted are
    written whole and in order, the others are counted, and none is dropped
    that is at most 65536 long as long as the queue is large enough; and the
    destructor ends with every accepted record, then the count, in the file
    and flushed. *)
Theorem log_is_whole_or_counted size l0 ops :
  Logger.make size = Some l0 ->
  match log_run ops l0 with
  | Err f => f = AssertFailed /\ exists format args, LogRecord format args ∈ ops /\ holes format <> length args
  | Ok l =>
      exists records written waiting,
        records_of ops = Ok <$> records /\ (written ++ waiting) `sublist_of` records /\
        queue_ok (lg_queue l) waiting /\ lg_file l = joined written /\
        lg_dropped l = u64 (Z.of_nat (length records) - Z.of_nat (length (written ++ waiting))) /\
        (Z.of_nat (length records) <= size -> Forall short records -> written ++ waiting = records) /\
        forall fuel, (length waiting + 3 <= fuel)%nat ->
          exists l', Logger.destroy fuel l = Ok l' /\ lg_flushed l' = lg_file l' /\
            lg_file l' = (joined (written ++ waiting) +:+ Logger.footer (lg_dropped l))%string
  end.
Proof.
  intros Hm. unfold Logger.make in Hm. destruct (queue_new EmptyString size) as [q|] eqn:Eq; [|done].
  injection Hm as <-. destruct (queue_new_ok _ _ _ Eq) as [Hq Hc].
  assert (Hok : logger_ok size [] [] [] (mkLogger q EmptyString EmptyString true 0 AtHead)) by (by split).
  pose proof (logger_run_ok size ops [] [] [] (mkLogger q EmptyString EmptyString true 0 AtHead) eq_refl Hok) as Hrun.
  destruct (log_run ops _) as [l|f]; [|exact Hrun].
  destruct Hrun as (records & written & waiting & Hr & Hl & [H1 H2 H3 H4 H5 H6 H7]). cbn [app] in *.
  exists records, written, waiting. split; [done|]. split; [done|]. split; [done|].
  split; [destruct (lg_worker l); try done; destruct H6 as (_ & ? & _); congruence|].
  split; [done|]. split; [done|]. intros fuel Hfuel. unfold Logger.destroy.
  destruct (join_ok size fuel records written waiting (Logger.stop l)) as (l' & E & _ & Hf & Ht); [done| | |].
  - split; try done. cbn. destruct (lg_worker l); try done. destruct H6 as (_ & ? & _). congruence.
  - cbn [Logger.stop lg_worker]. unfold to_do. destruct (lg_worker l), waiting; cbn [length] in *; lia.
  - exists l'. by split_and!.
Qed.

(** Two records for a queue with one place, one of them before the worker has
    taken the other. *)
Definition demo_log_ops : list LogOp :=
  [LogRecord "% of %%%" ["1"; "2"]; LogRecord "lost" []; LogWorkerStep; LogWorkerStep; LogRecord "kept" []].

Lemma log_is_whole_or_counted_witness :
  exists l0 l l', Logger.make 1 = Some l0 /\ log_run demo_log_ops l0 = Ok l /\
    Logger.destroy 9 l = Ok l' /\ lg_flushed l' = lg_file l' /\
    lg_file l' = ("1 of %2kept[LOGGER] dropped_records=1" +:+ String "010" EmptyString)%string.
Proof.
  destruct (Logger.make 1) as [l0|] eqn:E0; [|by vm_compute in E0].
  pose proof (log_is_whole_or_counted 1 l0 demo_log_ops E0) as H.
  destruct (log_run demo_log_ops l0) as [l|f] eqn:E.
  2:{ vm_compute in E0. injection E0 as <-. by vm_compute in E. }
  destruct H as (records & written & waiting & _ & _ & Hq & _ & _ & _ & Hd).
  assert (Hw : (length waiting <= 1)%nat).
  { pose proof (qo_length _ _ Hq) as Hl.
    assert (capacity (lg_queue l) = 1) as Hc by (vm_compute in E0; injection E0 as <-; vm_compute in E; by injection E as <-).
    lia. }
  destruct (Hd 9%nat ltac:(lia)) as (l' & El & Hf & Ht). exists l0, l, l'.
  split; [done|]. split; [done|]. split; [done|]. split; [done|].
  vm_compute in E0. injection E0 as <-. vm_compute in E. injection E as <-. vm_compute in El. by injection El as <-.
Defined.
