(* ===== verification/Socket.v ===== *)
(** Sockets: common/socket_utils.h.

    The system is a parameter: the answers to the calls, which may differ from
    call to call, the addresses of the interfaces and the resolver.  The state
    of a program is the calls it has made with their results, and [errno]. *)
From S2P Require Import Prelude.
From stdpp Require Import base strings pretty list.
From Stdlib Require Import ZArith Lia.

Local Open Scope Z_scope.

Record SocketCfg : Type := mkSocketCfg {
  sk_ip : string;
  sk_iface : string;
  sk_port : Z;
  sk_is_udp : bool;
  sk_is_listening : bool;
  sk_needs_so_timestamp : bool
}.

Definition default_SocketCfg : SocketCfg := mkSocketCfg EmptyString EmptyString (-1) false false false.

(** Streams print a [bool] as a number. *)
Definition bool_text (b : bool) : string := if b then "1" else "0".

Definition SocketCfg_toString (c : SocketCfg) : string :=
  "SocketCfg[ip:" +:+ sk_ip c +:+ " iface:" +:+ sk_iface c +:+ " port:" +:+ pretty (sk_port c) +:+
  " is_udp:" +:+ bool_text (sk_is_udp c) +:+ " is_listening:" +:+ bool_text (sk_is_listening c) +:+
  " needs_SO_timestamp:" +:+ bool_text (sk_needs_so_timestamp c) +:+ "]".

Definition MaxTCPServerBacklog : Z := 1024.

(** Linux. *)
Definition O_NONBLOCK : Z := 2048.
Definition EINTR : Z := 4.
Definition ENODEV : Z := 19.
Definition EINVAL : Z := 22.
Definition ETIMEDOUT : Z := 110.
Definition EINPROGRESS : Z := 115.

(** The address is in 224.0.0.0/4. *)
Definition in_multicast (host : Z) : bool := Z.shiftr host 28 =? 14.

Inductive SocketOption : Type :=
  | TCP_NODELAY
  | SO_TIMESTAMP
  | SO_REUSEADDR
  | IP_MULTICAST_IF (iface : Z)
  | IP_ADD_MEMBERSHIP (group iface : Z).

(** Addresses are host-order numbers; the wildcard is 0. *)
Inductive Syscall : Type :=
  | CallGetAddrInfo (node : string) (service : Z) (passive udp : bool)
  | CallFreeAddrInfo
  | CallSocket (udp : bool)
  | CallGetFlags (fd : Z)
  | CallSetFlags (fd flags : Z)
  | CallSetOption (fd : Z) (option : SocketOption)
  | CallConnect (fd address : Z)
  | CallPoll (fd timeout : Z)
  | CallGetError (fd : Z)
  | CallBind (fd address port : Z)
  | CallListen (fd backlog : Z)
  | CallClose (fd : Z).

#[export] Instance SocketOption_eq_dec : EqDecision SocketOption.
Proof. solve_decision. Defined.
#[export] Instance Syscall_eq_dec : EqDecision Syscall.
Proof. solve_decision. Defined.

(** [os_answer]: the result of the k-th call and the new [errno]; for
    [CallGetError], the second number is the error of the socket when the
    first is 0.  [os_interfaces]: name, whether the address is an IPv4 one, and
    its text. *)
Record System : Type := mkOs {
  os_answer : nat -> Syscall -> Z * Z;
  os_interfaces : option (list (string * bool * string));
  os_resolve : string -> Z -> list Z;
  os_pton : string -> option Z
}.

Record Program : Type := mkProgram {
  pg_trace : list (Syscall * (Z * Z));
  pg_errno : Z
}.

Section Socket.
Context (os : System).

(** ** A state monad with failure *)
Definition M (A : Type) : Type := Program -> res (A * Program).
#[local] Instance M_ret : MRet M := λ A a p, Ok (a, p).
#[local] Instance M_bind : MBind M := λ A B f m p, '(a, p) ← m p; f a p.

Definition require (b : bool) : M () := λ p, _ ← ASSERT b; Ok ((), p).
Definition errno : M Z := λ p, Ok (pg_errno p, p).
Definition set_errno (e : Z) : M () := λ p, Ok ((), mkProgram (pg_trace p) e).

(** A failed call sets [errno].  ([getaddrinfo] reports by its result; [errno]
    after it is only shown in the message of an ASSERT that failed.) *)
Definition call (c : Syscall) : M Z := λ p,
  let '(r, e) := os_answer os (length (pg_trace p)) c in
  Ok (r, mkProgram (pg_trace p ++ [(c, (r, e))]) (if r =? -1 then e else pg_errno p)).

(** [getsockopt] with [SO_ERROR]: the result and the error read. *)
Definition call_get_error (fd : Z) : M (Z * Z) := λ p,
  let c := CallGetError fd in
  let '(r, e) := os_answer os (length (pg_trace p)) c in
  Ok ((r, e), mkProgram (pg_trace p ++ [(c, (r, e))]) (if r =? -1 then e else pg_errno p)).

(** ** The helpers *)
Definition getIfaceIP (iface : string) : string :=
  match os_interfaces os with
  | None => EmptyString
  | Some l =>
      match list_find (λ '(name, ipv4, _), ipv4 = true /\ name = iface) l with
      | Some (_, (_, _, address)) => address
      | None => EmptyString
      end
  end.

Definition setNonBlocking (fd : Z) : M bool :=
  flags ← call (CallGetFlags fd);
  if flags =? -1 then mret false else
  if negb (Z.land flags O_NONBLOCK =? 0) then mret true else
  r ← call (CallSetFlags fd (Z.lor flags O_NONBLOCK));
  mret (negb (r =? -1)).

Definition disableNagle (fd : Z) : M bool :=
  r ← call (CallSetOption fd TCP_NODELAY); mret (negb (r =? -1)).

Definition setSOTimestamp (fd : Z) : M bool :=
  r ← call (CallSetOption fd SO_TIMESTAMP); mret (negb (r =? -1)).

Definition join (fd : Z) (ip iface : string) : M bool :=
  let iface_ip := getIfaceIP iface in
  if bool_decide (iface_ip = EmptyString) then _ ← set_errno ENODEV; mret false else
  match os_pton os ip with
  | Some group =>
      if in_multicast group then
        r ← call (CallSetOption fd (IP_ADD_MEMBERSHIP group (default 0 (os_pton os iface_ip))));
        mret (negb (r =? -1))
      else _ ← set_errno EINVAL; mret false
  | None => _ ← set_errno EINVAL; mret false
  end.

(** ** [createSocket] *)

(** The wait for a connection that is in progress; [fuel] bounds the
    interrupted calls. *)
Fixpoint wait_writable (fuel : nat) (fd : Z) : M Z :=
  match fuel with
  | O => λ _, Err NoFuel
  | S fuel =>
      ready ← call (CallPoll fd 5000);
      e ← errno;
      if (ready <? 0) && (e =? EINTR) then wait_writable fuel fd else mret ready
  end.

(** The result of a connection in progress. *)
Definition connect_result (fuel : nat) (fd : Z) : M Z :=
  ready ← wait_writable fuel fd;
  if 0 <? ready then
    '(r, value) ← call_get_error fd;
    if r =? 0 then mret value else errno
  else if ready =? 0 then mret ETIMEDOUT else errno.

Definition connect_error (fuel : nat) (fd address : Z) : M Z :=
  connected ← call (CallConnect fd address);
  if 0 <=? connected then mret 0 else
  e ← errno;
  if negb (e =? EINPROGRESS) then mret e else connect_result fuel fd.

(** One candidate; [inr]: the function returns. *)
Definition try_candidate (fuel : nat) (c : SocketCfg) (address : Z) : M (Z + Z) :=
  socket_fd ← call (CallSocket (sk_is_udp c));
  _ ← require (negb (socket_fd =? -1));
  ok ← setNonBlocking socket_fd;
  _ ← require ok;
  ok ← (if sk_is_udp c then mret true else disableNagle socket_fd);
  _ ← require ok;
  r ← (if sk_is_udp c && negb (sk_is_listening c) && in_multicast address then
         let iface_ip := getIfaceIP (sk_iface c) in
         _ ← require (negb (bool_decide (iface_ip = EmptyString)));
         _ ← require (bool_decide (is_Some (os_pton os iface_ip)));
         call (CallSetOption socket_fd (IP_MULTICAST_IF (default 0 (os_pton os iface_ip))))
       else mret 0);
  _ ← require (r =? 0);
  error ← (if sk_is_listening c then mret 0 else connect_error fuel socket_fd address);
  if negb (error =? 0) then
    _ ← call (CallClose socket_fd);
    _ ← call CallFreeAddrInfo;
    _ ← set_errno error;
    mret (inr (-1))
  else
  r ← (if sk_is_listening c then call (CallSetOption socket_fd SO_REUSEADDR) else mret 0);
  _ ← require (r =? 0);
  r ← (if sk_is_listening c
       then call (CallBind socket_fd (if sk_is_udp c then 0 else address) (sk_port c)) else mret 0);
  _ ← require (r =? 0);
  r ← (if negb (sk_is_udp c) && sk_is_listening c
       then call (CallListen socket_fd MaxTCPServerBacklog) else mret 0);
  _ ← require (r =? 0);
  ok ← (if sk_needs_so_timestamp c then setSOTimestamp socket_fd else mret true);
  _ ← require ok;
  mret (inl socket_fd).

(** The loop over the candidates. *)
Fixpoint try_candidates (fuel : nat) (c : SocketCfg) (candidates : list Z) (socket_fd : Z) : M (Z + Z) :=
  match candidates with
  | [] => mret (inl socket_fd)
  | address :: candidates =>
      r ← try_candidate fuel c address;
      match r with
      | inl fd => try_candidates fuel c candidates fd
      | inr result => mret (inr result)
      end
  end.

Definition createSocket (fuel : nat) (c : SocketCfg) : M Z :=
  let ip := if bool_decide (sk_ip c = EmptyString) then getIfaceIP (sk_iface c) else sk_ip c in
  rc ← call (CallGetAddrInfo ip (sk_port c) (sk_is_listening c) (sk_is_udp c));
  _ ← require (rc =? 0);
  r ← try_candidates fuel c (os_resolve os ip (sk_port c)) (-1);
  match r with
  | inr result => mret result
  | inl fd => _ ← call CallFreeAddrInfo; mret fd
  end.

(** ** What the calls leave behind *)
Definition Trace : Type := list (Syscall * (Z * Z)).

Definition opened (tr : Trace) : list Z :=
  omap (λ '(c, (r, _)), match c with CallSocket _ => if r =? -1 then None else Some r | _ => None end) tr.
Definition closed (tr : Trace) : list Z :=
  omap (λ '(c, _), match c with CallClose fd => Some fd | _ => None end) tr.
Definition resolved (tr : Trace) : nat :=
  length (omap (λ '(c, (r, _)), match c with CallGetAddrInfo _ _ _ _ => if r =? 0 then Some () else None | _ => None end) tr).
Definition freed (tr : Trace) : nat :=
  length (omap (λ '(c, _), match c with CallFreeAddrInfo => Some () | _ => None end) tr).

(** The call was made and succeeded. *)
Definition done_ok (c : Syscall) (tr : Trace) : Prop := exists e, (c, (0, e)) ∈ tr.
Definition not_failed (c : Syscall) (tr : Trace) : Prop := exists r e, (c, (r, e)) ∈ tr /\ r <> -1.

Definition nonblocking (fd : Z) (tr : Trace) : Prop :=
  exists flags e, (CallGetFlags fd, (flags, e)) ∈ tr /\
    (Z.land flags O_NONBLOCK <> 0 \/ not_failed (CallSetFlags fd (Z.lor flags O_NONBLOCK)) tr).

(** Connected, at once or once the socket is writable. *)
Definition connected (fd address : Z) (tr : Trace) : Prop :=
  exists r e, (CallConnect fd address, (r, e)) ∈ tr /\ (0 <= r \/ (CallGetError fd, (0, 0)) ∈ tr).

(** What a socket needs before it is handed out. *)
Record ready (c : SocketCfg) (address fd : Z) (tr : Trace) : Prop := {
  rd_nonblocking : nonblocking fd tr;
  rd_nagle : sk_is_udp c = false -> not_failed (CallSetOption fd TCP_NODELAY) tr;
  rd_connected : sk_is_listening c = false -> connected fd address tr;
  rd_interface : sk_is_udp c = true -> sk_is_listening c = false -> in_multicast address = true ->
    exists a, os_pton os (getIfaceIP (sk_iface c)) = Some a /\ done_ok (CallSetOption fd (IP_MULTICAST_IF a)) tr;
  rd_bound : sk_is_listening c = true -> done_ok (CallSetOption fd SO_REUSEADDR) tr /\
    done_ok (CallBind fd (if sk_is_udp c then 0 else address) (sk_port c)) tr;
  rd_listening : sk_is_listening c = true -> sk_is_udp c = false -> done_ok (CallListen fd MaxTCPServerBacklog) tr;
  rd_timestamp : sk_needs_so_timestamp c = true -> not_failed (CallSetOption fd SO_TIMESTAMP) tr
}.

(** Calls that neither open nor release anything. *)
Record quiet (tr : Trace) : Prop := {
  qt_opened : opened tr = [];
  qt_closed : closed tr = [];
  qt_resolved : resolved tr = 0%nat;
  qt_freed : freed tr = 0%nat
}.

Lemma opened_app tr tr' : opened (tr ++ tr') = opened tr ++ opened tr'.
Proof. apply omap_app. Qed.
Lemma closed_app tr tr' : closed (tr ++ tr') = closed tr ++ closed tr'.
Proof. apply omap_app. Qed.
Lemma resolved_app tr tr' : resolved (tr ++ tr') = (resolved tr + resolved tr')%nat.
Proof. unfold resolved. by rewrite omap_app, length_app. Qed.
Lemma freed_app tr tr' : freed (tr ++ tr') = (freed tr + freed tr')%nat.
Proof. unfold freed. by rewrite omap_app, length_app. Qed.

Lemma quiet_nil : quiet [].
Proof. done. Qed.

Lemma quiet_app tr tr' : quiet tr -> quiet tr' -> quiet (tr ++ tr').
Proof.
  intros [H1 H2 H3 H4] [H1' H2' H3' H4'].
  split; [by rewrite opened_app, H1|by rewrite closed_app, H2|by rewrite resolved_app, H3|by rewrite freed_app, H4].
Qed.

(** The system: a failed call returns -1 and sets [errno]; a wait is not
    interrupted [n] times in a row.  [getaddrinfo] is no system call: its result
    is 0 or one of its own error codes. *)
Record os_ok (n : nat) : Prop := {
  ok_errno i c r e : match c with CallGetAddrInfo _ _ _ _ => False | _ => True end ->
    os_answer os i c = (r, e) -> r < 0 -> r = -1 /\ e <> 0;
  ok_interrupts i fd : exists j, (j < n)%nat /\
    let '(r, e) := os_answer os (i + j) (CallPoll fd 5000) in 0 <= r \/ e <> EINTR
}.

(** The calls that set a socket up succeed, and the interface a multicast
    sender asks for has an address.  (The connection may fail.) *)
Record cooperative (c : SocketCfg) : Prop := {
  co_calls i call r e : os_answer os i call = (r, e) ->
    match call with
    | CallConnect _ _ | CallPoll _ _ | CallGetError _ | CallClose _ | CallFreeAddrInfo => True
    | CallSocket _ | CallGetFlags _ => r <> -1
    | _ => r = 0
    end;
  co_interface : sk_is_udp c = true -> sk_is_listening c = false ->
    getIfaceIP (sk_iface c) <> EmptyString /\ is_Some (os_pton os (getIfaceIP (sk_iface c)))
}.

(** [does c m Q]: [m] makes some calls and returns so that [Q] holds of the
    value, the calls and the last [errno]; or it stops by a failed ASSERT, which
    a cooperative system does not cause. *)
Definition does (c : SocketCfg) {A} (m : M A) (Q : A -> Trace -> Z -> Prop) : Prop :=
  forall p, ends (λ f, f = AssertFailed /\ ~ cooperative c)
    (λ '(a, p'), exists tr, pg_trace p' = pg_trace p ++ tr /\ Q a tr (pg_errno p')) (m p).

Section Does.
Context (c : SocketCfg).

Lemma does_ret {A} (a : A) (Q : A -> Trace -> Z -> Prop) : (forall e, Q a [] e) -> does c (mret a) Q.
Proof. intros H p. exists []. by rewrite app_nil_r. Qed.

Lemma does_bind {A B} (m : M A) (f : A -> M B) P Q :
  does c m P -> (forall a tr e, P a tr e -> does c (f a) (λ b tr' e', Q b (tr ++ tr') e')) -> does c (m ≫= f) Q.
Proof.
  intros Hm Hf p. apply (ends_bind _ _ _ _ (Hm p)). intros [a p1] (tr & E & Ha).
  eapply ends_mono; [exact (Hf a tr _ Ha p1)|]. intros [b p2] (tr' & E' & Hb). exists (tr ++ tr').
  by rewrite app_assoc, <- E.
Qed.

Lemma does_mono {A} (m : M A) P Q : does c m P -> (forall a tr e, P a tr e -> Q a tr e) -> does c m Q.
Proof. intros Hm H p. eapply ends_mono; [exact (Hm p)|]. intros [a p'] (tr & ? & ?). eauto. Qed.

Lemma does_require b : (cooperative c -> b = true) -> does c (require b) (λ _ tr _, tr = [] /\ b = true).
Proof.
  intros Hb p. unfold require. destruct b; [exists []; by rewrite app_nil_r|].
  split; [done|]. intros Hc. by specialize (Hb Hc).
Qed.

(** The system gave this answer at some time. *)
Definition answered (call : Syscall) (r e : Z) : Prop := exists i, os_answer os i call = (r, e).

Lemma does_call call' : does c (call call') (λ r tr _, exists e, tr = [(call', (r, e))] /\ answered call' r e).
Proof.
  intros p. unfold call. destruct (os_answer os _ call') as [r e] eqn:E. exists [(call', (r, e))]. split; [done|].
  exists e. split; [done|]. by exists (length (pg_trace p)).
Qed.

Lemma does_set_errno e : does c (set_errno e) (λ _ tr e', tr = [] /\ e' = e).
Proof. intros p. exists []. by rewrite app_nil_r. Qed.

Lemma co_result call' r e :
  cooperative c -> answered call' r e ->
  match call' with
  | CallConnect _ _ | CallPoll _ _ | CallGetError _ | CallClose _ | CallFreeAddrInfo => True
  | CallSocket _ | CallGetFlags _ => r <> -1
  | _ => r = 0
  end.
Proof. intros Hc [i Hi]. exact (co_calls _ Hc _ _ _ _ Hi). Qed.

(** ** The steps of [createSocket] *)
Lemma nonblocking_ok fd :
  does c (setNonBlocking fd)
    (λ b tr _, quiet tr /\ (b = true -> nonblocking fd tr) /\ (cooperative c -> b = true)).
Proof.
  unfold setNonBlocking. eapply does_bind; [apply does_call|]. intros flags tr e (e1 & -> & Ha).
  destruct (Z.eqb_spec flags (-1)) as [->|Hf].
  { apply does_ret. split; [done|]. split; [done|]. intros Hc. by destruct (co_result _ _ _ Hc Ha). }
  destruct (Z.eqb_spec (Z.land flags O_NONBLOCK) 0) as [E|E]; cbn [negb].
  - eapply does_bind; [apply does_call|]. intros r tr e' (e2 & -> & Ha2). apply does_ret. intros _. split; [done|]. split.
    + intros H. exists flags, e1. split; [by left|]. right. exists r, e2.
      split; [right; by left|]. by apply negb_true_iff, Z.eqb_neq in H.
    + intros Hc. by rewrite (co_result _ _ _ Hc Ha2).
  - apply does_ret. intros _. split; [done|]. split; [|done]. intros _. exists flags, e1. split; [by left|by left].
Qed.

Lemma option_ok fd o :
  does c (r ← call (CallSetOption fd o); mret (negb (r =? -1)))
    (λ b tr _, quiet tr /\ (b = true -> not_failed (CallSetOption fd o) tr) /\ (cooperative c -> b = true)).
Proof.
  eapply does_bind; [apply does_call|]. intros r tr e (e1 & -> & Ha). apply does_ret. intros _. split; [done|]. split.
  - intros H. exists r, e1. split; [by left|]. by apply negb_true_iff, Z.eqb_neq in H.
  - intros Hc. by rewrite (co_result _ _ _ Hc Ha).
Qed.
End Does.

Lemma failed_call n i c r e :
  os_ok n -> os_answer os i c = (r, e) -> match c with CallGetAddrInfo _ _ _ _ => False | _ => True end ->
  r < 0 -> r = -1 /\ e <> 0.
Proof. intros Hos Ha Hc. by apply (ok_errno _ Hos i c). Qed.

Lemma wait_ok n m fd p :
  os_ok m -> pg_errno p <> 0 ->
  (exists j, (j < n)%nat /\ let '(r, e) := os_answer os (length (pg_trace p) + j) (CallPoll fd 5000) in
     0 <= r \/ e <> EINTR) ->
  always (λ '(r, p'), exists tr, pg_trace p' = pg_trace p ++ tr /\ quiet tr /\ pg_errno p' <> 0)
    (wait_writable n fd p).
Proof.
  intros Hos. revert p. induction n as [|n IH]; intros p Herr (j & Hj & H); [lia|]. cbn [wait_writable].
  unfold mbind, M_bind, call, errno. destruct (os_answer os (length (pg_trace p)) (CallPoll fd 5000)) as [r e] eqn:Ea.
  cbn [mbind res_bind pg_errno].
  assert (Hq : quiet [(CallPoll fd 5000, (r, e))]) by done.
  assert (He : (if r =? -1 then e else pg_errno p) <> 0).
  { destruct (Z.eqb_spec r (-1)) as [->|]; [|done]. by apply (failed_call _ _ _ _ _ Hos Ea I). }
  destruct ((r <? 0) && _) eqn:Ei.
  - eapply ends_mono; [apply IH; [exact He|]|].
    + cbn [pg_trace]. rewrite length_app. cbn [length]. destruct j as [|j].
      * rewrite Nat.add_0_r, Ea in H. exfalso. apply andb_true_iff in Ei as [Hr%Z.ltb_lt Hi%Z.eqb_eq].
        destruct (failed_call _ _ _ _ _ Hos Ea I Hr) as [-> _]. destruct H as [H|H]; [lia|done].
      * exists j. split; [lia|]. by replace (length (pg_trace p) + 1 + j)%nat with (length (pg_trace p) + S j)%nat by lia.
    + intros [r' p'] (tr & E & Hq' & He'). cbn [pg_trace] in E. exists ((CallPoll fd 5000, (r, e)) :: tr).
      rewrite E, <- app_assoc. split; [done|]. split; [exact (quiet_app _ _ Hq Hq')|done].
  - exists [(CallPoll fd 5000, (r, e))]. by split.
Qed.

Lemma ends_any {A} (F : fault -> Prop) (P : A -> Prop) m : always P m -> ends F P m.
Proof. by destruct m. Qed.

(** What follows a connection in progress. *)
Lemma progress_ok n fd p :
  os_ok n -> pg_errno p <> 0 ->
  always (λ '(e, p'), exists tr, pg_trace p' = pg_trace p ++ tr /\ quiet tr /\
      (e = 0 -> (CallGetError fd, (0, 0)) ∈ tr))
    (connect_result n fd p).
Proof.
  intros Hos Herr. unfold connect_result. unfold mbind at 1, M_bind at 1.
  eapply ends_bind; [apply (wait_ok n n fd p Hos Herr (ok_interrupts _ Hos _ _))|].
  intros [ready p1] (tr & E & Hq & Herr1). destruct (0 <? ready).
  - unfold mbind, M_bind, call_get_error. destruct (os_answer os _ (CallGetError fd)) as [r v] eqn:Ea.
    cbn [mbind res_bind]. assert (He : (if r =? -1 then v else pg_errno p1) <> 0).
    { destruct (Z.eqb_spec r (-1)) as [->|]; [|done]. by apply (failed_call _ _ _ _ _ Hos Ea I). }
    assert (Hq2 : quiet [(CallGetError fd, (r, v))]) by done.
    assert (Htr : pg_trace p1 ++ [(CallGetError fd, (r, v))] = pg_trace p ++ tr ++ [(CallGetError fd, (r, v))])
      by (by rewrite E, app_assoc).
    destruct (Z.eqb_spec r 0) as [->|Hr]; cbn [mret M_ret errno ends]; eexists;
      (split; [exact Htr|]); (split; [by apply quiet_app|]).
    + intros ->. apply elem_of_app. right. by left.
    + cbn [pg_errno]. done.
  - destruct (ready =? 0); cbn [mret M_ret errno ends]; exists tr; by split_and!.
Qed.

(** A connection was asked for and refused, or not made yet. *)
Definition unconnected (fd address : Z) (tr : Trace) : Prop :=
  exists r e, (CallConnect fd address, (r, e)) ∈ tr /\ r < 0.

Lemma connect_ok c n fd address :
  os_ok n ->
  does c (connect_error n fd address) (λ e tr _, quiet tr /\
    (e = 0 -> connected fd address tr) /\ (e <> 0 -> unconnected fd address tr)).
Proof.
  intros Hos p. unfold connect_error, mbind, M_bind, call, errno, mret, M_ret.
  destruct (os_answer os _ (CallConnect fd address)) as [r e] eqn:Ea. cbn [mbind res_bind].
  assert (Hq : quiet [(CallConnect fd address, (r, e))]) by done.
  destruct (Z.leb_spec 0 r) as [Hr|Hr].
  { exists [(CallConnect fd address, (r, e))]. split; [done|]. split; [done|]. split; [|done]. intros _.
    exists r, e. split; [by left|by left]. }
  destruct (failed_call _ _ _ _ _ Hos Ea I Hr) as [-> He]. cbn [Z.eqb Pos.eqb].
  cbn [mbind res_bind pg_errno].
  destruct (Z.eqb_spec e EINPROGRESS) as [->|_]; cbn [negb].
  - eapply ends_any, ends_mono; [by apply (progress_ok n)|]. intros [err p'] (tr & E & Hq' & Herr).
    cbn [pg_trace] in E. exists ((CallConnect fd address, (-1, EINPROGRESS)) :: tr).
    rewrite E, <- app_assoc. split; [done|]. split; [exact (quiet_app _ _ Hq Hq')|]. split.
    + intros H0. exists (-1), EINPROGRESS. split; [by left|]. right. right. by apply Herr.
    + intros _. exists (-1), EINPROGRESS. split; [by left|done].
  - exists [(CallConnect fd address, (-1, e))]. split; [done|]. split; [done|]. split; [by intros ->|].
    intros _. exists (-1), e. split; [by left|done].
Qed.

(** ** One candidate *)
Lemma not_failed_mono c tr tr' : tr ⊆ tr' -> not_failed c tr -> not_failed c tr'.
Proof. intros H (r & e & Hin & Hr). exists r, e. split; [by apply H|done]. Qed.
Lemma done_ok_mono c tr tr' : tr ⊆ tr' -> done_ok c tr -> done_ok c tr'.
Proof. intros H (e & Hin). exists e. by apply H. Qed.
Lemma nonblocking_mono fd tr tr' : tr ⊆ tr' -> nonblocking fd tr -> nonblocking fd tr'.
Proof.
  intros H (f & e & Hin & Hf). exists f, e. split; [by apply H|].
  destruct Hf as [Hf|Hf]; [by left|right]. by eapply not_failed_mono.
Qed.
Lemma connected_mono fd a tr tr' : tr ⊆ tr' -> connected fd a tr -> connected fd a tr'.
Proof. intros H (r & e & Hin & Hr). exists r, e. split; [by apply H|]. destruct Hr; [by left|right; by apply H]. Qed.

#[local] Hint Resolve not_failed_mono done_ok_mono nonblocking_mono connected_mono : core.

Section Conditional.
Context (c : SocketCfg).

(** A call that is made on a condition. *)
Lemma call_if_ok (b : bool) k :
  match k with CallSetOption _ _ | CallBind _ _ _ | CallListen _ _ => True | _ => False end ->
  does c (if b then call k else mret 0)
    (λ r tr _, quiet tr /\ (r = 0 -> b = true -> done_ok k tr) /\ (cooperative c -> r = 0)).
Proof.
  intros Hk. destruct b; [|by apply does_ret]. eapply does_mono; [apply does_call|].
  intros r tr _ (e & -> & Ha). split; [by destruct k|]. split; [intros -> _; exists e; by left|].
  intros Hc. pose proof (co_result _ _ _ _ Hc Ha) as Hr. by destruct k.
Qed.

Lemma option_if_ok (b : bool) fd o :
  does c (if b then (r ← call (CallSetOption fd o); mret (negb (r =? -1))) else mret true)
    (λ ok tr _, quiet tr /\ (ok = true -> b = true -> not_failed (CallSetOption fd o) tr) /\ (cooperative c -> ok = true)).
Proof.
  destruct b; [|apply does_ret; intros _; by split_and!]. eapply does_mono; [apply option_ok|]. intros ok tr _ (? & ? & ?).
  split_and!; auto.
Qed.

Lemma nagle_ok fd :
  does c (if sk_is_udp c then mret true else disableNagle fd)
    (λ ok tr _, quiet tr /\ (ok = true -> sk_is_udp c = false -> not_failed (CallSetOption fd TCP_NODELAY) tr) /\
      (cooperative c -> ok = true)).
Proof.
  destruct (sk_is_udp c); [apply does_ret; intros _; by split_and!|]. eapply does_mono; [apply option_ok|].
  intros ok tr _ (? & ? & ?). split_and!; auto.
Qed.

(** The interface of a multicast sender. *)
Lemma interface_ok fd (b : bool) :
  (b = true -> sk_is_udp c = true /\ sk_is_listening c = false) ->
  does c (if b then
          let iface_ip := getIfaceIP (sk_iface c) in
          _ ← require (negb (bool_decide (iface_ip = EmptyString)));
          _ ← require (bool_decide (is_Some (os_pton os iface_ip)));
          call (CallSetOption fd (IP_MULTICAST_IF (default 0 (os_pton os iface_ip))))
        else mret 0)
    (λ r tr _, quiet tr /\ (r = 0 -> b = true -> exists a, os_pton os (getIfaceIP (sk_iface c)) = Some a /\
       done_ok (CallSetOption fd (IP_MULTICAST_IF a)) tr) /\ (cooperative c -> r = 0)).
Proof.
  intros Hb. destruct b; [|by apply does_ret]. destruct (Hb eq_refl) as [Hu Hl]. cbv zeta.
  eapply does_bind; [apply does_require|].
  { intros Hc. apply negb_true_iff, bool_decide_eq_false. by apply (co_interface _ Hc). }
  intros _ tr1 _ (-> & _). eapply does_bind; [apply does_require|].
  { intros Hc. apply bool_decide_eq_true. by apply (co_interface _ Hc). }
  intros _ tr2 _ (-> & Hp%bool_decide_eq_true). destruct Hp as [a Ha].
  rewrite Ha. cbn [default from_option app]. eapply does_mono; [apply does_call|].
  intros r tr _ (e & -> & Han). split; [done|]. split; [|intros Hc; by apply (co_result _ _ _ _ Hc Han)].
  intros -> _. exists a. split; [done|]. exists e. by left.
Qed.

Lemma peer_ok n fd address :
  os_ok n ->
  does c (if sk_is_listening c then mret 0 else connect_error n fd address)
    (λ e tr _, quiet tr /\ (e = 0 -> sk_is_listening c = false -> connected fd address tr) /\
      (e <> 0 -> sk_is_listening c = false /\ unconnected fd address tr)).
Proof.
  intros Hos. destruct (sk_is_listening c); [by apply does_ret|].
  eapply does_mono; [by apply connect_ok|]. intros e tr _ (? & ? & ?). split_and!; auto.
Qed.
End Conditional.

(** What a candidate leaves. *)
Definition candidate_left (c : SocketCfg) (address : Z) (r : Z + Z) (tr : Trace) (e : Z) : Prop :=
  resolved tr = 0%nat /\
  match r with
  | inl fd => fd <> -1 /\ opened tr = [fd] /\ closed tr = [] /\ freed tr = 0%nat /\ ready c address fd tr
  | inr v => v = -1 /\ e <> 0 /\ freed tr = 1%nat /\ sk_is_listening c = false /\
      exists fd, opened tr = [fd] /\ closed tr = [fd] /\ unconnected fd address tr
  end.

(** The last step after [socket] has returned [fd]: everything asked for was
    done, in calls that are quiet. *)
Lemma candidate_ready c address fd e udp tr e' :
  fd <> -1 -> quiet tr -> ready c address fd tr ->
  candidate_left c address (inl fd) ((CallSocket udp, (fd, e)) :: tr) e'.
Proof.
  intros Hfd [H1 H2 H3 H4] [R1 R2 R3 R4 R5 R6 R7].
  assert (Hsub : tr ⊆ (CallSocket udp, (fd, e)) :: tr) by (intros x Hx; by right).
  unfold candidate_left. split; [exact H3|]. split; [done|].
  split. { cbn. rewrite (proj2 (Z.eqb_neq fd (-1))) by done. f_equal. exact H1. }
  split; [exact H2|]. split; [exact H4|]. split; eauto.
  - intros Hu Hl Hm. destruct (R4 Hu Hl Hm) as (a & ? & ?). eauto.
  - intros Hl. destruct (R5 Hl). eauto.
Qed.

Lemma candidate_failed c address fd e udp tr r1 r2 e' :
  fd <> -1 -> quiet tr -> e' <> 0 -> sk_is_listening c = false -> unconnected fd address tr ->
  candidate_left c address (inr (-1))
    ((CallSocket udp, (fd, e)) :: tr ++ [(CallClose fd, r1)] ++ [(CallFreeAddrInfo, r2)]) e'.
Proof.
  intros Hfd [H1 H2 H3 H4] He Hl (r0 & e0 & Hin & Hr0). unfold candidate_left. destruct r1 as [r1 e1], r2 as [r2 e2].
  rewrite !(app_comm_cons tr), !(app_assoc _ [_] [_]).
  assert (Ho : opened ((CallSocket udp, (fd, e)) :: tr) = [fd]).
  { cbn. rewrite (proj2 (Z.eqb_neq fd (-1))) by done. f_equal. exact H1. }
  rewrite !resolved_app, !freed_app, !opened_app, !closed_app, Ho.
  change (resolved ((CallSocket udp, (fd, e)) :: tr)) with (resolved tr).
  change (freed ((CallSocket udp, (fd, e)) :: tr)) with (freed tr).
  change (closed ((CallSocket udp, (fd, e)) :: tr)) with (closed tr).
  rewrite H2, H3, H4. split; [done|]. split; [done|]. split; [done|]. split; [done|]. split; [done|].
  exists fd. split; [done|]. split; [done|]. exists r0, e0. split; [set_solver|done].
Qed.

Lemma does_fail c {A} (v : A) e : does c (_ ← set_errno e; mret v) (λ r tr e', r = v /\ tr = [] /\ e' = e).
Proof. intros p. exists []. by rewrite app_nil_r. Qed.

Lemma candidate_ok n c address : os_ok n -> does c (try_candidate n c address) (candidate_left c address).
Proof.
  intros Hos. unfold try_candidate.
  eapply does_bind; [apply does_call|]. intros fd t0 _ (e0 & -> & Ha0).
  eapply does_bind; [apply does_require|].
  { intros Hc. apply negb_true_iff, Z.eqb_neq. exact (co_result _ _ _ _ Hc Ha0). }
  intros _ t1 _ (-> & Hfd%negb_true_iff%Z.eqb_neq).
  eapply does_bind; [apply nonblocking_ok|]. intros ok1 t2 _ (Q2 & N2 & C2).
  eapply does_bind; [by apply does_require|]. intros _ t3 _ (-> & ->).
  eapply does_bind; [apply nagle_ok|]. intros ok2 t4 _ (Q4 & N4 & C4).
  eapply does_bind; [by apply does_require|]. intros _ t5 _ (-> & ->).
  eapply does_bind; [apply interface_ok|].
  { intros [[-> Hl%negb_true_iff]%andb_true_iff _]%andb_true_iff. done. }
  intros r1 t6 _ (Q6 & N6 & C6).
  eapply does_bind; [apply does_require; intros Hc; by apply Z.eqb_eq, C6|]. intros _ t7 _ (-> & Hr1%Z.eqb_eq).
  eapply does_bind; [by apply peer_ok|]. intros err t8 _ (Q8 & N8 & F8).
  destruct (Z.eqb_spec err 0) as [->|Herr]; cbn [negb].
  - eapply does_bind; [by apply call_if_ok|]. intros r2 t9 _ (Q9 & N9 & C9).
    eapply does_bind; [apply does_require; intros Hc; by apply Z.eqb_eq, C9|]. intros _ t10 _ (-> & Hr2%Z.eqb_eq).
    eapply does_bind; [by apply call_if_ok|]. intros r3 t11 _ (Q11 & N11 & C11).
    eapply does_bind; [apply does_require; intros Hc; by apply Z.eqb_eq, C11|]. intros _ t12 _ (-> & Hr3%Z.eqb_eq).
    eapply does_bind; [by apply call_if_ok|]. intros r4 t13 _ (Q13 & N13 & C13).
    eapply does_bind; [apply does_require; intros Hc; by apply Z.eqb_eq, C13|]. intros _ t14 _ (-> & Hr4%Z.eqb_eq).
    eapply does_bind; [apply option_if_ok|]. intros ok3 t15 _ (Q15 & N15 & C15).
    eapply does_bind; [by apply does_require|]. intros _ t16 _ (-> & ->).
    apply does_ret. intros e. cbn [app]. rewrite ?app_nil_r.
    apply candidate_ready; [done|by repeat apply quiet_app|].
    specialize (N2 eq_refl). specialize (N4 eq_refl). specialize (N6 Hr1). specialize (N8 eq_refl).
    specialize (N9 Hr2). specialize (N11 Hr3). specialize (N13 Hr4). specialize (N15 eq_refl).
    split.
    + eapply nonblocking_mono; [|exact N2]. set_solver.
    + intros Hu. eapply not_failed_mono; [|by apply N4]. set_solver.
    + intros Hl. eapply connected_mono; [|by apply N8]. set_solver.
    + intros Hu Hl Hm. destruct N6 as (a & Ha & N6); [by rewrite Hu, Hl, Hm|]. exists a. split; [done|].
      eapply done_ok_mono; [|exact N6]. set_solver.
    + intros Hl. split; (eapply done_ok_mono; [|by first [apply N9|apply N11]]); set_solver.
    + intros Hl Hu. eapply done_ok_mono; [|apply N13; by rewrite Hl, Hu]. set_solver.
    + intros Hs. eapply not_failed_mono; [|by apply N15]. set_solver.
  - eapply does_bind; [apply does_call|]. intros r2 t9 _ (e1 & -> & _).
    eapply does_bind; [apply does_call|]. intros r3 t10 _ (e2 & -> & _).
    eapply does_mono; [apply does_fail|]. intros v t11 e (-> & -> & ->). cbn [app]. rewrite ?app_nil_r.
    pose proof (candidate_failed c address fd e0 (sk_is_udp c) (t2 ++ t4 ++ t6 ++ t8) (r2, e1) (r3, e2) err Hfd) as H.
    cbn [app] in H. rewrite <- !app_assoc in H. destruct (F8 Herr) as [Hl (r & e & Hin & Hr)].
    apply H; [by repeat apply quiet_app|done|done|]. exists r, e. split; [set_solver|done].
Qed.

Lemma ready_mono c address fd tr tr' : tr ⊆ tr' -> ready c address fd tr -> ready c address fd tr'.
Proof.
  intros Hsub [R1 R2 R3 R4 R5 R6 R7]. split; eauto.
  - intros Hu Hl Hm. destruct (R4 Hu Hl Hm) as (a & ? & ?). eauto.
  - intros Hl. destruct (R5 Hl). eauto.
Qed.

(** ** The whole function *)
Lemma does_bind_or c {A B} (m : M A) (f : A -> M B) P Q :
  does c m P ->
  (forall a tr e, P a tr e ->
     (exists b, f a = mret b /\ Q b tr e) \/ does c (f a) (λ b tr' e', Q b (tr ++ tr') e')) ->
  does c (m ≫= f) Q.
Proof.
  intros Hm Hf p. apply (ends_bind _ _ _ _ (Hm p)). intros [a p1] (tr & E & Ha).
  destruct (Hf a tr _ Ha) as [(b & -> & Hb)|Hd]; [by exists tr|].
  eapply ends_mono; [exact (Hd p1)|]. intros [b p2] (tr' & E' & Hb). exists (tr ++ tr').
  by rewrite app_assoc, <- E.
Qed.

(** The address that is resolved, and what the resolver is asked. *)
Definition node (c : SocketCfg) : string :=
  if bool_decide (sk_ip c = EmptyString) then getIfaceIP (sk_iface c) else sk_ip c.
Definition lookup_call (c : SocketCfg) : Syscall :=
  CallGetAddrInfo (node c) (sk_port c) (sk_is_listening c) (sk_is_udp c).

(** What [createSocket] leaves when the name has one address. *)
Definition socket_left (c : SocketCfg) (address fd : Z) (tr : Trace) (e : Z) : Prop :=
  resolved tr = 1%nat /\ freed tr = 1%nat /\
  ((fd = -1 /\ e <> 0 /\ sk_is_listening c = false /\
    exists s, opened tr = [s] /\ closed tr = [s] /\ unconnected s address tr) \/
   (fd <> -1 /\ opened tr = [fd] /\ closed tr = [] /\ ready c address fd tr)).

Lemma createSocket_ok n c address :
  os_ok n -> os_resolve os (node c) (sk_port c) = [address] ->
  does c (createSocket n c) (λ fd tr e, (exists e0 tr', tr = (lookup_call c, (0, e0)) :: tr') /\
    socket_left c address fd tr e).
Proof.
  intros Hos Ea. unfold createSocket. cbv zeta. fold (node c). fold (lookup_call c).
  eapply does_bind; [apply does_call|]. intros rc t0 _ (e0 & -> & Ha).
  eapply does_bind; [apply does_require; intros Hc; by rewrite (co_result _ _ _ _ Hc Ha)|].
  intros _ t1 _ (-> & ->%Z.eqb_eq). rewrite Ea. cbn [try_candidates].
  eapply does_bind_or.
  { eapply does_bind_or; [by apply (candidate_ok n c address)|]. intros r tr e H. left.
    exists r. split; [by destruct r|exact H]. }
  intros [fd|v] tr e [Hres H].
  - destruct H as (Hfd & Ho & Hc & Hf & Hr). right. eapply does_bind; [apply does_call|].
    intros r2 t2 _ (e2 & -> & _). apply does_ret. intros e'. rewrite app_nil_r.
    split; [cbn [app]; eauto|]. unfold socket_left.
    rewrite !resolved_app, !freed_app, !opened_app, !closed_app, Ho, Hc, Hf, Hres. split; [done|]. split; [done|]. right.
    split; [done|]. split; [done|]. split; [done|]. eapply ready_mono; [|exact Hr]. set_solver.
  - left. exists v. split; [done|]. destruct H as (-> & He & Hf & Hl & s & Ho & Hc & r & e1 & Hin & Hr).
    split; [cbn [app]; eauto|]. unfold socket_left.
    rewrite !resolved_app, !freed_app, !opened_app, !closed_app, Ho, Hc, Hf, Hres. split; [done|]. split; [done|]. left.
    split; [done|]. split; [done|]. split; [done|]. exists s. split; [done|]. split; [done|]. exists r, e1.
    split; [set_solver|done].
Qed.
End Socket.

(** C37: a socket is handed out ready or closed.  The resolver is asked for the
    configured address, or for that of the interface, and answers with one
    address (the address is numeric).  Then the function resolves it first and
    frees the resolver's list, and either it returns the only socket opened,
    which does not block and is connected to that very address, or bound and
    listening, with the options asked for; or it returns -1 with the error in
    [errno], the connection to that address failed, and the only socket opened is
    closed.  It stops, by an ASSERT, only when a call that sets the socket up
    fails or a multicast sender's interface has no address. *)
Theorem socket_is_ready_or_closed os n c p address :
  os_ok os n -> os_resolve os (node os c) (sk_port c) = [address] ->
  ends (λ f, f = AssertFailed /\ ~ cooperative os c)
    (λ '(fd, p'), exists e0 tr, let tr' := (lookup_call os c, (0, e0)) :: tr in
      pg_trace p' = pg_trace p ++ tr' /\ socket_left os c address fd tr' (pg_errno p'))
    (createSocket os n c p).
Proof.
  intros Hos Hone. eapply ends_mono; [exact (createSocket_ok os n c address Hos Hone p)|].
  intros [fd p'] (tr & E & (e0 & tr' & ->) & H). by exists e0, tr'.
Qed.

(** A connection that is in progress, interrupted once and then refused, and
    one that is accepted. *)
Definition demo_answer (refused : bool) (k : nat) (c : Syscall) : Z * Z :=
  match c with
  | CallSocket _ => (7, 0)
  | CallConnect _ _ => (-1, EINPROGRESS)
  | CallPoll _ _ => if (k =? 6)%nat then (-1, EINTR) else (1, 0)
  | CallGetError _ => (0, if refused then 111 else 0)
  | _ => (0, 0)
  end.
Definition demo_os (refused : bool) : System :=
  mkOs (demo_answer refused) None (λ _ _, [2130706433]) (λ _, None).
Definition demo_cfg : SocketCfg := mkSocketCfg "127.0.0.1" "lo" 12345 false false true.

Lemma demo_os_ok b : os_ok (demo_os b) 2.
Proof.
  split.
  - intros i c r e _. unfold demo_os, demo_answer. cbn [os_answer]. unfold EINPROGRESS, EINTR.
    destruct c; intros H Hr; try (injection H as <- <-; lia).
    destruct (i =? 6)%nat; injection H as <- <-; lia.
  - intros i fd. destruct (decide (i = 6%nat)) as [->|Hne].
    + exists 1%nat. split; [lia|]. left. done.
    + exists 0%nat. split; [lia|]. rewrite Nat.add_0_r. cbn. destruct (Nat.eqb_spec i 6); [done|]. by left.
Qed.

Lemma demo_cooperative b : cooperative (demo_os b) demo_cfg.
Proof.
  split; [|done]. intros i call r e. unfold demo_os, demo_answer. cbn [os_answer].
  destruct call; try done; by intros [= <- <-].
Qed.

Lemma socket_is_ready_or_closed_witness :
  (exists p tr, createSocket (demo_os false) 2 demo_cfg (mkProgram [] 0) = Ok (7, p) /\
     pg_trace p = tr /\ opened tr = [7] /\ ready (demo_os false) demo_cfg 2130706433 7 tr) /\
  (exists p, createSocket (demo_os true) 2 demo_cfg (mkProgram [] 0) = Ok (-1, p) /\ pg_errno p = 111 /\
     opened (pg_trace p) = closed (pg_trace p)).
Proof.
  pose proof (socket_is_ready_or_closed (demo_os false) 2 demo_cfg (mkProgram [] 0) 2130706433 (demo_os_ok _) eq_refl) as H1.
  pose proof (socket_is_ready_or_closed (demo_os true) 2 demo_cfg (mkProgram [] 0) 2130706433 (demo_os_ok _) eq_refl) as H2.
  destruct (createSocket (demo_os false) 2 demo_cfg (mkProgram [] 0)) as [[fd1 p1]|] eqn:E1;
    [|destruct H1 as [_ H1]; destruct (H1 (demo_cooperative _))].
  destruct (createSocket (demo_os true) 2 demo_cfg (mkProgram [] 0)) as [[fd2 p2]|] eqn:E2;
    [|destruct H2 as [_ H2]; destruct (H2 (demo_cooperative _))].
  assert (fd1 = 7) as -> by (vm_compute in E1; by injection E1 as <- _).
  assert (fd2 = -1 /\ pg_errno p2 = 111) as [-> He] by (vm_compute in E2; by injection E2 as <- <-).
  destruct H1 as (e1 & tr & Et & _ & _ & [(? & _)|(_ & Ho & _ & Hr)]); [done|].
  destruct H2 as (e2 & tr2 & Et2 & _ & _ & [(_ & _ & _ & s & Ho2 & Hc2 & _)|(? & _)]); [|done].
  split.
  - exists p1, (pg_trace p1). split; [done|]. split; [done|]. rewrite Et. by split.
  - exists p2. split; [done|]. split; [done|]. rewrite Et2. cbn [pg_trace]. exact (eq_trans Ho2 (eq_sym Hc2)).
Defined.
