(* ===== verification/Journal.v ===== *)
(** Append-only audit journal: common/critical_journal.h.

    One text line per record.  Opening the file exclusively, writing and
    syncing are the operating system's; a failed write or sync ends the
    process, so that a journal that exists has all its records. *)
From S2P Require Import Prelude.
From S2P Require Import Types.
From stdpp Require Import base list strings pretty.
From Stdlib Require Import ZArith Lia.

Local Open Scope Z_scope.

Record CriticalJournal : Type := mkJournal {
  j_text : list string;   (* the lines of the file, oldest first *)
  j_records : Z
}.

Definition append (text : string) (j : CriticalJournal) : CriticalJournal :=
  mkJournal (j_text j ++ [text]) (u64 (j_records j + 1)).

(** The constructor, on a path that does not exist. *)
Definition journal_new : CriticalJournal := append "TS_AUDIT_V1" (mkJournal [] 0).

(** Fields separated by one space. *)
Fixpoint fields (l : list string) : string :=
  match l with
  | [] => EmptyString
  | [s] => s
  | s :: l' => String.append s (String.append " " (fields l'))
  end.

Definition request_text (phase : string) (r : MEClientRequest) : string :=
  fields [phase; pretty (rq_client_id r); pretty (rq_session_epoch r); pretty (rq_request_seq r);
    pretty (ClientRequestType_to_Z (rq_type r)); pretty (rq_ticker_id r); pretty (rq_order_id r);
    pretty (Side_to_Z (rq_side r)); pretty (rq_price r); pretty (rq_qty r)].

Definition response_text (r : MEClientResponse) : string :=
  fields ["RESPONSE"; pretty (rs_response_id r); pretty (rs_client_id r); pretty (rs_ticker_id r);
    pretty (rs_client_order_id r); pretty (rs_market_order_id r);
    pretty (ClientResponseType_to_Z (rs_type r)); pretty (Side_to_Z (rs_side r));
    pretty (rs_price r); pretty (rs_exec_qty r); pretty (rs_leaves_qty r);
    pretty (RejectReason_to_Z (rs_reject_reason r)); pretty (rs_position r)].

Definition journal_request (phase : string) (r : MEClientRequest) (j : CriticalJournal) :
    CriticalJournal := append (request_text phase r) j.

Definition journal_response (r : MEClientResponse) (j : CriticalJournal) : CriticalJournal :=
  append (response_text r) j.
