(* ===== verification/MatchingEngine.v ===== *)
(** The matching engine: matcher/matching_engine.{h,cpp}.

    One order book per ticker; requests come from a queue, responses and
    market updates go to two queues.  A full output queue stops the process.
    The events that a book appends are handed to [sendClientResponse] and
    [sendMarketUpdate] in order. *)
From S2P Require Import Prelude.
From S2P Require Import Types.
From S2P Require Import Wire.
From S2P Require Import MemPool.
From S2P Require Import Ring.
From S2P Require Import PriceLevels.
From S2P Require Import LevelsView.
From S2P Require Import MatchBook.
From S2P Require Import BookSpec.
From S2P Require Import BookRefinement.
From S2P Require Import BookInvariant.
From S2P Require Import LFQueue.
From S2P Require Import Journal.
From stdpp Require Import functions base gmap list sorting.
From Stdlib Require Import ZArith Lia.

Local Open Scope Z_scope.

Record MatchingEngine : Type := mkEngine {
  me_books : list MEOrderBook;                    (* ticker_order_book_ *)
  me_requests : LFQueue MEClientRequest;
  me_responses : LFQueue MEClientResponse;
  me_updates : LFQueue MEMarketUpdate;
  me_next_response_id : Z;
  me_response_count : Z;
  me_positions : gmap (Z * Z) Z;                  (* client_positions_, 0 elsewhere *)
  me_audit : option CriticalJournal
}.

Module MatchingEngine.
Definition with_books (l : list MEOrderBook) (e : MatchingEngine) : MatchingEngine :=
  mkEngine l (me_requests e) (me_responses e) (me_updates e) (me_next_response_id e)
    (me_response_count e) (me_positions e) (me_audit e).
Definition with_requests (q : LFQueue MEClientRequest) (e : MatchingEngine) : MatchingEngine :=
  mkEngine (me_books e) q (me_responses e) (me_updates e) (me_next_response_id e)
    (me_response_count e) (me_positions e) (me_audit e).
Definition with_audit (a : option CriticalJournal) (e : MatchingEngine) : MatchingEngine :=
  mkEngine (me_books e) (me_requests e) (me_responses e) (me_updates e) (me_next_response_id e)
    (me_response_count e) (me_positions e) a.

(** The constructor, for books of any capacity. *)
Definition make_sized (orders levels : Z) (requests : LFQueue MEClientRequest)
    (responses : LFQueue MEClientResponse) (updates : LFQueue MEMarketUpdate)
    (audit : option CriticalJournal) : option MatchingEngine :=
  books ← mapM (λ i, MEOrderBook.make_sized i orders levels) (seqZ 0 ME_MAX_TICKERS);
  Some (mkEngine books requests responses updates 1 0 ∅ audit).
Definition make := make_sized ME_MAX_ORDER_IDS ME_MAX_PRICE_LEVELS.

(** What [sendClientResponse] adds to a response: its number and the
    position of its client after it.  (A position is a signed integer of 64
    bits; it wraps here where a C++ overflow is undefined.) *)
Definition stamp (id : Z) (positions : gmap (Z * Z) Z) (client_response : MEClientResponse) :
    MEClientResponse * gmap (Z * Z) Z :=
  let response := set_rs_response_id id client_response in
  if (rs_client_id response <? ME_MAX_NUM_CLIENTS) && (rs_ticker_id response <? ME_MAX_TICKERS)
  then
    let k := (rs_client_id response, rs_ticker_id response) in
    let position := default 0 (positions !! k) in
    let position := if bool_decide (rs_type response = FILLED)
                    then i64 (position + rs_exec_qty response * sideToValue (rs_side response))
                    else position in
    (set_rs_position position response, <[k := position]> positions)
  else (response, positions).

Definition sendClientResponse (client_response : MEClientResponse) (e : MatchingEngine) :
    res MatchingEngine :=
  let '(response, positions) :=
    stamp (me_next_response_id e) (me_positions e) client_response in
  let next_response_id := u64 (me_next_response_id e + 1) in
  let audit := journal_response response <$> me_audit e in
  '(pushed, q) ← try_push response (me_responses e);
  _ ← ASSERT pushed;
  Ok (mkEngine (me_books e) (me_requests e) q (me_updates e) next_response_id
        (u64 (me_response_count e + 1)) positions audit).

Definition sendMarketUpdate (market_update : MEMarketUpdate) (e : MatchingEngine) :
    res MatchingEngine :=
  '(pushed, q) ← try_push market_update (me_updates e);
  _ ← ASSERT pushed;
  Ok (mkEngine (me_books e) (me_requests e) (me_responses e) q (me_next_response_id e)
        (me_response_count e) (me_positions e) (me_audit e)).

(** The sinks of a book. *)
Definition send_event (e : MatchingEngine) (ev : BookEvent) : res MatchingEngine :=
  match ev with
  | Response r => sendClientResponse r e
  | Market u => sendMarketUpdate u e
  end.

(** A call of a book's member: its events reach the sinks in order. *)
Definition with_book (i : Z) (f : MEOrderBook -> res MEOrderBook) (e : MatchingEngine) :
    res MatchingEngine :=
  b ← deref (me_books e !! Z.to_nat i);
  b ← f b;
  e ← res_fold send_event (bk_events b) e;
  Ok (with_books (<[Z.to_nat i :=
        mkBook (bk_ticker_id b) (bk_levels b) (bk_orders b) (bk_last b) (bk_next_id b) (bk_used b) []]>
        (me_books e)) e).

Definition processClientRequest (r : MEClientRequest) (e : MatchingEngine) : res MatchingEngine :=
  let e := with_audit (journal_request "APPLY" r <$> me_audit e) e in
  let invalid := validate r in
  if negb (bool_decide (invalid = NONE)) then
    sendClientResponse (mkResponse REJECTED (rq_client_id r) (rq_ticker_id r) (rq_order_id r)
      OrderId_INVALID (rq_side r) (rq_price r) 0 0 invalid 0 0) e
  else
  match rq_type r with
  | NEW => with_book (rq_ticker_id r)
      (MEOrderBook.add (rq_client_id r) (rq_order_id r) (rq_ticker_id r) (rq_side r) (rq_price r)
         (rq_qty r)) e
  | CANCEL => with_book (rq_ticker_id r)
      (MEOrderBook.cancel (rq_client_id r) (rq_order_id r) (rq_ticker_id r)) e
  | QUERY => with_book (rq_ticker_id r)
      (λ b, Ok (MEOrderBook.query (rq_client_id r) (rq_order_id r) b)) e
  | _ => Ok e
  end.

(** One iteration of [run]. *)
Definition run_once (e : MatchingEngine) : res MatchingEngine :=
  req ← peek (me_requests e);
  match req with
  | None => Ok e
  | Some r =>
      e ← processClientRequest r e;
      q ← pop (me_requests e);
      Ok (with_requests q e)
  end.

(** [run] after [stop]: until the request queue is empty; one iteration per
    queued request. *)
Fixpoint drain (fuel : nat) (e : MatchingEngine) : res MatchingEngine :=
  req ← peek (me_requests e);
  match req, fuel with
  | None, _ => Ok e
  | Some _, O => Err NoFuel
  | Some _, S fuel => e ← run_once e; drain fuel e
  end.
Definition run_stopped (e : MatchingEngine) : res MatchingEngine :=
  drain (Z.to_nat (queue_size (me_requests e))) e.
End MatchingEngine.

(** ** States of the engine

    Requests are processed by the engine's thread; the consumers of the two
    output queues pop concurrently. *)
Inductive engine_step (e : MatchingEngine) : MatchingEngine -> Prop :=
  | es_process r e' :
      request_wf r -> MatchingEngine.processClientRequest r e = Ok e' -> engine_step e e'
  | es_response_popped q :
      pop (me_responses e) = Ok q ->
      engine_step e (mkEngine (me_books e) (me_requests e) q (me_updates e)
        (me_next_response_id e) (me_response_count e) (me_positions e) (me_audit e))
  | es_update_popped q :
      pop (me_updates e) = Ok q ->
      engine_step e (mkEngine (me_books e) (me_requests e) (me_responses e) q
        (me_next_response_id e) (me_response_count e) (me_positions e) (me_audit e)).

Inductive engine_reachable (e0 : MatchingEngine) : MatchingEngine -> Prop :=
  | er_refl : engine_reachable e0 e0
  | er_step e e' : engine_reachable e0 e -> engine_step e e' -> engine_reachable e0 e'.

(** A response to the client [k.1] about its order [k.2]. *)
Definition addressed (k : Z * Z) (r : MEClientResponse) : Prop :=
  rs_client_id r = k.1 /\ rs_client_order_id r = k.2.

(** The responses kept for queries are kept under their own keys. *)
Definition keyed_last (m : gmap (Z * Z) MEClientResponse) : Prop :=
  forall k r, m !! k = Some r -> addressed k r.

(** Everything that a book puts in a response fits its C++ type. *)
Record tracked (a : Book) : Prop := {
  tr_last : keyed_last (a_last a);
  tr_last_wf k r : a_last a !! k = Some r -> response_wf r;
  tr_used k : k ∈ a_used a -> is_u32 k.1 /\ is_u64 k.2;
  tr_prices s : Forall (λ x, is_i64 (o_price x)) (side_of s a)
}.

Definition book_ok (i : nat) (b : MEOrderBook) : Prop :=
  bk_events b = [] /\ bk_ticker_id b = Z.of_nat i /\
  exists a G, refines b a G /\ book_wf a /\ tracked a.

Definition positions_fit (m : gmap (Z * Z) Z) : Prop := forall k p, m !! k = Some p -> is_i64 p.

Record engine_ok (e : MatchingEngine) : Prop := {
  eo_books_length : length (me_books e) = Z.to_nat ME_MAX_TICKERS;
  eo_books i b : me_books e !! i = Some b -> book_ok i b;
  eo_responses : exists l, queue_ok (me_responses e) l;
  eo_updates : exists l, queue_ok (me_updates e) l;
  eo_next : is_u64 (me_next_response_id e);
  eo_positions : positions_fit (me_positions e)
}.

(** Net position of all clients in a ticker. *)
Definition total_position (ticker : Z) (m : gmap (Z * Z) Z) : Z :=
  map_fold (λ k p n, (if k.2 =? ticker then p else 0) + n) 0 m.

(** Signed quantity of the fills of a ticker. *)
Fixpoint net_fills (ticker : Z) (evs : list BookEvent) : Z :=
  match evs with
  | [] => 0
  | Response r :: evs' =>
      (if bool_decide (rs_type r = FILLED) && (rs_ticker_id r =? ticker)
       then rs_exec_qty r * sideToValue (rs_side r) else 0) + net_fills ticker evs'
  | Market _ :: evs' => net_fills ticker evs'
  end.

(** Fills of known clients in known tickers. *)
Definition fill_local (ev : BookEvent) : Prop :=
  match ev with
  | Response r => rs_type r = FILLED ->
      rs_client_id r < ME_MAX_NUM_CLIENTS /\ rs_ticker_id r < ME_MAX_TICKERS
  | Market _ => True
  end.

(** The responses of a list of events, numbered and stamped. *)
Fixpoint stamped (id : Z) (positions : gmap (Z * Z) Z) (evs : list BookEvent) :
    list MEClientResponse :=
  match evs with
  | [] => []
  | Response r :: evs' =>
      let '(r', positions') := MatchingEngine.stamp id positions r in
      r' :: stamped (u64 (id + 1)) positions' evs'
  | Market _ :: evs' => stamped id positions evs'
  end.

(** The book operation of a valid request. *)
Definition op_of (r : MEClientRequest) : option BookOp :=
  match rq_type r with
  | NEW => Some (OpAdd (rq_client_id r) (rq_order_id r) (rq_ticker_id r) (rq_side r) (rq_price r) (rq_qty r))
  | CANCEL => Some (OpCancel (rq_client_id r) (rq_order_id r) (rq_ticker_id r))
  | QUERY => Some (OpQuery (rq_client_id r) (rq_order_id r))
  | _ => None
  end.

(** The events a request causes: the answer to an invalid one, or what the book
    of its ticker emits. *)
Definition request_events (r : MEClientRequest) (e : MatchingEngine) : list BookEvent :=
  if negb (bool_decide (validate r = NONE)) then
    [Response (mkResponse REJECTED (rq_client_id r) (rq_ticker_id r) (rq_order_id r) OrderId_INVALID (rq_side r)
       (rq_price r) 0 0 (validate r) 0 0)]
  else
  match op_of r, me_books e !! Z.to_nat (rq_ticker_id r) with
  | Some op, Some b => match book_step op b with Ok b' => bk_events b' | Err _ => [] end
  | _, _ => []
  end.

(** Any book, for positions past the array. *)
Definition default_book : MEOrderBook :=
  mkBook 0 (mkLevels (mkPool 0 ∅ []) (mkPool 0 ∅ []) ∅ None None) ∅ ∅ 0 ∅ [].

(** ** Lemmas *)
Section Theory.

Lemma total_insert (t : Z) (k : Z * Z) (v : Z) (m : gmap (Z * Z) Z) :
  total_position t (<[k := v]> m)
  = total_position t m + (if k.2 =? t then v - default 0 (m !! k) else 0).
Proof.
  unfold total_position. set (f := λ (k : Z * Z) (p n : Z), (if k.2 =? t then p else 0) + n).
  assert (Hcomm : forall (j1 j2 : Z * Z) (z1 z2 y : Z), f j1 z1 (f j2 z2 y) = f j2 z2 (f j1 z1 y)).
  { intros. unfold f. lia. }
  rewrite <- insert_delete_eq.
  rewrite (map_fold_insert_L f 0 k v) by (auto || apply lookup_delete_eq).
  destruct (m !! k) as [x|] eqn:E.
  - rewrite (map_fold_delete_L f 0 k x m) by auto. unfold f. cbn [default from_option id].
    destruct (k.2 =? t); lia.
  - rewrite (delete_id m k) by done. unfold f. cbn. destruct (k.2 =? t); lia.
Qed.

Lemma i64_mod z : (i64 z - z) mod 2 ^ 64 = 0.
Proof.
  unfold i64. replace ((z + 2 ^ 63) mod 2 ^ 64 - 2 ^ 63 - z) with
    ((z + 2 ^ 63) mod 2 ^ 64 - (z + 2 ^ 63)) by lia.
  rewrite Zminus_mod_idemp_l, Z.sub_diag. done.
Qed.

(** A stamped response moves the net position by the signed fill. *)
Lemma stamp_total t id m r :
  fill_local (Response r) ->
  (total_position t (snd (MatchingEngine.stamp id m r)) - total_position t m
   - net_fills t [Response r]) mod 2 ^ 64 = 0.
Proof.
  intros Hloc. unfold MatchingEngine.stamp. cbn [fill_local] in Hloc.
  change (rs_client_id (set_rs_response_id id r)) with (rs_client_id r).
  change (rs_ticker_id (set_rs_response_id id r)) with (rs_ticker_id r).
  change (rs_type (set_rs_response_id id r)) with (rs_type r).
  change (rs_exec_qty (set_rs_response_id id r)) with (rs_exec_qty r).
  change (rs_side (set_rs_response_id id r)) with (rs_side r).
  cbn [net_fills]. case_bool_decide as Ef.
  - destruct (Hloc Ef) as [H1 H2]. rewrite (proj2 (Z.ltb_lt _ _) H1), (proj2 (Z.ltb_lt _ _) H2).
    cbn [andb snd]. rewrite total_insert. cbn [snd]. destruct (rs_ticker_id r =? t).
    + set (p := default 0 _). set (d := rs_exec_qty r * _).
      replace (_ - _ - _) with (i64 (p + d) - (p + d)) by lia. apply i64_mod.
    + replace (_ - _ - _) with 0 by lia. done.
  - cbn [andb]. destruct (_ && _); cbn [snd].
    + rewrite total_insert. cbn [snd]. destruct (_ =? t); (replace (_ - _ - _) with 0 by lia); done.
    + replace (_ - _ - _) with 0 by lia. done.
Qed.

(** The events of one call, sent in order. *)
Lemma send_events_ok evs e resps upds :
  queue_ok (me_responses e) resps -> queue_ok (me_updates e) upds ->
  match res_fold MatchingEngine.send_event evs e with
  | Ok e' =>
      queue_ok (me_responses e') (resps ++ stamped (me_next_response_id e) (me_positions e) evs) /\
      queue_ok (me_updates e') (upds ++ updates_of evs) /\
      me_books e' = me_books e /\ me_requests e' = me_requests e /\
      capacity (me_responses e') = capacity (me_responses e) /\
      capacity (me_updates e') = capacity (me_updates e)
  | Err f => f = AssertFailed /\
      (capacity (me_responses e) < Z.of_nat (length (resps ++ stamped (me_next_response_id e) (me_positions e) evs)) \/
       capacity (me_updates e) < Z.of_nat (length (upds ++ updates_of evs)))
  end.
Proof.
  revert e resps upds. induction evs as [|ev evs IH]; intros e resps upds Hr Hu.
  { cbn. rewrite !app_nil_r. done. }
  cbn [res_fold]. destruct ev as [r|u]; cbn [MatchingEngine.send_event stamped updates_of].
  - unfold MatchingEngine.sendClientResponse.
    destruct (MatchingEngine.stamp _ _ r) as [r' pos'].
    pose proof (try_push_ok _ _ r' Hr) as Hp.
    destruct (Z.of_nat (length resps) =? capacity (me_responses e)) eqn:E.
    + destruct Hp as [-> _]. cbn. split; [done|left]. rewrite length_app. cbn. lia.
    + destruct Hp as (q & -> & Hq & Hc). cbn [mbind res_bind ASSERT].
      match goal with |- context [res_fold _ _ ?e1] => specialize (IH e1 _ _ Hq Hu) end.
      cbn [me_next_response_id me_positions me_books me_requests me_responses me_updates] in IH.
      rewrite <- app_assoc in IH. cbn [app] in IH. rewrite Hc in IH. exact IH.
  - unfold MatchingEngine.sendMarketUpdate. pose proof (try_push_ok _ _ u Hu) as Hp.
    destruct (Z.of_nat (length upds) =? capacity (me_updates e)) eqn:E.
    + destruct Hp as [-> _]. cbn. split; [done|right]. rewrite length_app. cbn. lia.
    + destruct Hp as (q & -> & Hq & Hc). cbn [mbind res_bind ASSERT].
      match goal with |- context [res_fold _ _ ?e1] => specialize (IH e1 _ _ Hr Hq) end.
      cbn [me_next_response_id me_positions me_books me_requests me_responses me_updates] in IH.
      rewrite <- (app_assoc upds) in IH. cbn [app] in IH. rewrite Hc in IH. exact IH.
Qed.

Lemma net_fills_cons t ev evs : net_fills t (ev :: evs) = net_fills t [ev] + net_fills t evs.
Proof. destruct ev; cbn; lia. Qed.

Lemma mod_add_0 x y z m : x mod m = 0 -> y mod m = 0 -> z = x + y -> z mod m = 0.
Proof. intros Hx Hy ->. by rewrite Zplus_mod, Hx, Hy. Qed.

Lemma send_events_total t evs e e' :
  Forall fill_local evs -> res_fold MatchingEngine.send_event evs e = Ok e' ->
  (total_position t (me_positions e') - total_position t (me_positions e) - net_fills t evs)
    mod 2 ^ 64 = 0.
Proof.
  intros Hl. revert e. induction Hl as [|ev evs Hev Hl IH]; intros e He.
  { injection He as <-. cbn. by replace (_ - _ - _) with 0 by lia. }
  cbn [res_fold] in He. rewrite net_fills_cons.
  destruct ev as [r|u]; cbn [MatchingEngine.send_event] in He.
  - unfold MatchingEngine.sendClientResponse in He.
    pose proof (stamp_total t (me_next_response_id e) (me_positions e) r Hev) as Ht.
    destruct (MatchingEngine.stamp _ _ r) as [r' pos']. cbn [snd] in Ht.
    destruct (try_push r' (me_responses e)) as [[[|] q]|]; cbn [mbind res_bind ASSERT] in He; try done.
    specialize (IH _ He). cbn [me_positions] in IH.
    eapply mod_add_0; [exact Ht|exact IH|lia].
  - unfold MatchingEngine.sendMarketUpdate in He.
    destruct (try_push u (me_updates e)) as [[[|] q]|]; cbn [mbind res_bind ASSERT] in He; try done.
    specialize (IH _ He). exact IH.
Qed.

(** ** The events of a book operation *)
Lemma net_fills_app t e1 e2 : net_fills t (e1 ++ e2) = net_fills t e1 + net_fills t e2.
Proof. induction e1 as [|[r|u] e1 IH]; cbn; rewrite ?IH; lia. Qed.

Lemma fills_net tk t c s o id leaves fs :
  valid_side s -> (forall x q, (x, q) ∈ fs -> o_side x = opposite s) ->
  net_fills tk (fills_events t c s o id leaves fs) = 0.
Proof.
  intros Hs. revert leaves. induction fs as [|[x q] fs IH]; intros leaves Hx; [done|].
  cbn [fills_events]. rewrite net_fills_app, IH by (intros; eapply Hx; by right).
  unfold fill_events. cbn [net_fills rs_type rs_ticker_id rs_side rs_exec_qty].
  rewrite (Hx x q) by (by left). rewrite !bool_decide_true by done. cbn [andb].
  destruct (t =? tk); [|done]. unfold sideToValue.
  destruct Hs as [-> | ->]; [change (opposite BUY) with SELL|change (opposite SELL) with BUY];
    cbn [Side_to_Z]; lia.
Qed.

Lemma fills_local t c s o id leaves fs :
  c < ME_MAX_NUM_CLIENTS -> t < ME_MAX_TICKERS ->
  (forall x q, (x, q) ∈ fs -> o_client_id x < ME_MAX_NUM_CLIENTS) ->
  Forall fill_local (fills_events t c s o id leaves fs).
Proof.
  intros Hc Ht. revert leaves. induction fs as [|[x q] fs IH]; intros leaves Hx; [constructor|].
  cbn [fills_events]. apply Forall_app. split; [|apply IH; intros; eapply Hx; by right].
  unfold fill_events. repeat (apply Forall_cons; split; [cbn|]); [done| |done|done|constructor].
  intros _. split; [|done]. apply (Hx x q). by left.
Qed.

Lemma fill_local_other r : rs_type r <> FILLED -> fill_local (Response r).
Proof. intros Hne Hf. by destruct Hne. Qed.

Lemma quiet_response r :
  rs_type r <> FILLED -> Forall fill_local [Response r] /\ forall t, net_fills t [Response r] = 0.
Proof.
  intros Hne. split; [constructor; [by apply fill_local_other|constructor]|].
  intros t. cbn. by rewrite bool_decide_false.
Qed.

Lemma spec_step_events op a :
  book_wf a -> op_wf op -> a_ticker_id a < ME_MAX_TICKERS ->
  Forall fill_local (snd (spec_step op a)) /\ forall t, net_fills t (snd (spec_step op a)) = 0.
Proof.
  intros W Hop Htk. destruct op as [c o t s p q|c o t|c o]; cbn [spec_step].
  - unfold spec_add. cbv zeta. case_bool_decide as Er; cbn [snd]; [|by apply quiet_response].
    destruct (spec_reason_NONE _ _ _ _ _ _ _ Er) as (Hc & -> & Hs & _).
    unfold spec_trade. cbv zeta.
    change (side_of (opposite s) (accept c o a)) with (side_of (opposite s) a).
    destruct (fill s p q (side_of (opposite s) a)) as [[fs lv] rest] eqn:Ef.
    assert (Hside : forall x r, (x, r) ∈ fs -> order_wf a (opposite s) x).
    { intros x r Hx. apply (bw_orders _ W); [by apply valid_opposite|].
      by apply (fill_members _ _ _ _ _ _ _ _ _ Ef Hx). }
    assert (Hloc : Forall fill_local (fills_events (a_ticker_id a) c s o (a_next_id a) q fs)).
    { apply fills_local; [done|done|]. intros x r Hx. apply (ow_client _ _ _ (Hside x r Hx)). }
    assert (Hnet : forall tk, net_fills tk (fills_events (a_ticker_id a) c s o (a_next_id a) q fs) = 0).
    { intros tk. apply fills_net; [done|]. intros x r Hx. apply (ow_side _ _ _ (Hside x r Hx)). }
    destruct (lv =? 0); cbn [snd]; split.
    + constructor; [by apply fill_local_other|done].
    + intros tk. rewrite net_fills_cons, Hnet. cbn. by rewrite bool_decide_false.
    + constructor; [by apply fill_local_other|]. apply Forall_app. split; [done|].
      constructor; [done|constructor].
    + intros tk. rewrite net_fills_app, net_fills_cons, Hnet. cbn. by rewrite bool_decide_false.
  - unfold spec_cancel. case_match; cbn [snd]; [|by apply quiet_response].
    split; [constructor; [done|by apply quiet_response]|].
    intros tk. cbn. by rewrite bool_decide_false.
  - unfold spec_query. destruct (ME_MAX_NUM_CLIENTS <=? c); [split; [constructor|done]|].
    destruct (o =? 0); [by apply quiet_response|].
    destruct (a_last a !! (c, o)); cbn [snd]; by apply quiet_response.
Qed.

Lemma spec_step_ticker op a : a_ticker_id (fst (spec_step op a)) = a_ticker_id a.
Proof.
  destruct op as [c o t s p q|c o t|c o]; cbn [spec_step].
  - unfold spec_add. cbv zeta. case_bool_decide; [|done]. unfold spec_trade. cbv zeta.
    destruct (fill _ _ _ _) as [[fs lv] rest].
    destruct (lv =? 0); unfold publish, set_last, set_side; repeat case_decide; done.
  - unfold spec_cancel. case_match; [|done]. unfold publish, set_last, set_side. by case_decide.
  - unfold spec_query. repeat case_match; done.
Qed.

(** Every operation answers its client. *)
Definition op_key (op : BookOp) : Z * Z :=
  match op with
  | OpAdd c o _ _ _ _ | OpCancel c o _ | OpQuery c o => (c, o)
  end.

Definition answers (k : Z * Z) (evs : list BookEvent) : Prop :=
  exists r, Response r ∈ evs /\ addressed k r.

Lemma record_keyed evs m : keyed_last m -> keyed_last (foldl record_event m evs).
Proof.
  revert m. induction evs as [|ev evs IH]; intros m Hm; [done|]. cbn [foldl]. apply IH.
  destruct ev as [r|u]; cbn [record_event]; [|done]. case_match; [|done].
  intros k x Hx. apply lookup_insert_Some in Hx as [[<- <-]|[_ Hx]]; [done|by apply Hm].
Qed.

Definition event_wf (ev : BookEvent) : Prop :=
  match ev with
  | Response r => response_wf r
  | Market _ => True
  end.

Definition op_fits (op : BookOp) : Prop :=
  match op with
  | OpAdd c o t s p q => is_u32 c /\ is_u64 o /\ is_u32 t /\ Side_wf s /\ is_i64 p
  | OpCancel c o t => is_u32 c /\ is_u64 o /\ is_u32 t
  | OpQuery c o => is_u32 c /\ is_u64 o
  end.

Lemma validate_wf r : RejectReason_wf (validate r).
Proof. unfold validate. repeat case_match; done. Qed.

Lemma valid_side_wf s : valid_side s -> Side_wf s.
Proof. by intros [-> | ->]. Qed.

Lemma spec_reason_wf c o t s p q a : RejectReason_wf (spec_reason c o t s p q a).
Proof. unfold spec_reason. repeat case_match; done. Qed.

Lemma fits_0 : is_u32 0 /\ is_u64 0 /\ is_i64 0.
Proof. unfold is_u32, is_u64, is_i64. lia. Qed.
Lemma fits_invalid : is_u64 OrderId_INVALID /\ is_i64 Price_INVALID /\ is_u32 Qty_INVALID.
Proof. by unfold is_u64, is_i64, is_u32, OrderId_INVALID, Price_INVALID, Qty_INVALID. Qed.

(** A response whose fields fit, the number and the position not set yet. *)
Ltac fits :=
  unfold response_wf; cbn; pose proof fits_0 as (?&?&?); pose proof fits_invalid as (?&?&?);
  split_and!; try done.

(** The resting orders of a book. *)
Record resting_wf (x : MEOrder) : Prop := {
  rw_client : is_u32 (o_client_id x);
  rw_order : is_u64 (o_client_order_id x);
  rw_id : is_u64 (o_market_order_id x);
  rw_side : Side_wf (o_side x);
  rw_price : is_i64 (o_price x);
  rw_qty : 0 < o_qty x < 2 ^ 32
}.

Lemma resting_fits a s x : book_wf a -> tracked a -> valid_side s -> x ∈ side_of s a -> resting_wf x.
Proof.
  intros W K Hs Hx. destruct (bw_orders _ W s x Hs Hx) as [Hside _ _ _ Hused _ Hqty Hid _].
  destruct (tr_used _ K _ Hused) as [Hc Ho]. pose proof (bw_next _ W) as Hn. split.
  - exact Hc.
  - exact Ho.
  - unfold is_u64, ME_MAX_ORDER_IDS in *. lia.
  - rewrite Hside. by apply valid_side_wf.
  - pose proof (tr_prices _ K s) as Hp. rewrite Forall_forall in Hp. by apply Hp.
  - unfold INT32_MAX in Hqty. lia.
Qed.

Lemma fill_quantities s p leaves l fs lv rest :
  fill s p leaves l = (fs, lv, rest) -> 0 <= leaves -> (forall x, x ∈ l -> 0 < o_qty x) ->
  Forall (λ f, 0 <= f.2 <= o_qty f.1) fs /\ sum_list_with (λ f, Z.to_nat f.2) fs = Z.to_nat (leaves - lv) /\ 0 <= lv <= leaves.
Proof.
  revert leaves fs lv rest. induction l as [|x l IH]; intros leaves fs lv rest Hf Hl Hq; cbn [fill] in Hf.
  { injection Hf as <- <- <-. split_and!; [constructor|cbn; lia|lia|lia]. }
  pose proof (Hq x ltac:(by left)) as Hx.
  destruct (_ || _); [injection Hf as <- <- <-; split_and!; [constructor|cbn; lia|lia|lia]|].
  destruct (_ =? 0).
  - destruct (fill s p _ l) as [[fs' lv'] rest'] eqn:E. injection Hf as <- <- <-.
    destruct (IH _ _ _ _ E) as (H1 & H2 & H3); [lia|intros; apply Hq; by right|].
    split_and!; [constructor; [cbn; lia|done]|cbn; rewrite H2; lia|lia|lia].
  - injection Hf as <- <- <-. split_and!; [constructor; [cbn; lia|constructor]|cbn; lia|lia|lia].
Qed.

Lemma fills_wf t c s o id leaves lv fs :
  is_u32 c -> is_u64 o -> is_u32 t -> Side_wf s -> is_u64 id -> 0 <= lv -> leaves < 2 ^ 32 ->
  Forall (λ f, 0 <= f.2 <= o_qty f.1 /\ resting_wf f.1) fs ->
  sum_list_with (λ f, Z.to_nat f.2) fs = Z.to_nat (leaves - lv) -> lv <= leaves ->
  Forall event_wf (fills_events t c s o id leaves fs).
Proof.
  intros Hc Ho Ht Hs Hid Hlv. revert leaves. induction fs as [|[x q] fs IH]; intros leaves Hl Hfs Hsum Hle; [constructor|].
  apply Forall_cons in Hfs as [[Hq [? ? ? ? ? ?]] Hfs]. cbn [sum_list_with fst snd] in *.
  cbn [fills_events]. apply Forall_app. split; [|apply IH; [lia|done|lia|lia]].
  unfold fill_events. repeat (apply Forall_cons; split); [| |done|done|constructor]; cbn [event_wf].
  - fits; unfold is_u32; lia.
  - fits; unfold is_u32; lia.
Qed.

(** The events of an operation. *)
Lemma spec_step_event_wf op a :
  book_wf a -> tracked a -> op_wf op -> op_fits op -> 0 <= a_ticker_id a < ME_MAX_TICKERS ->
  Forall event_wf (snd (spec_step op a)).
Proof.
  intros W K Hop Hf Htk. assert (Ht32 : is_u32 (a_ticker_id a)) by (unfold is_u32, ME_MAX_TICKERS in *; lia).
  destruct op as [c o t s p q|c o t|c o]; cbn [spec_step op_wf op_fits] in *.
  - destruct Hf as (Hc & Ho & Ht & Hside & Hp). unfold spec_add. cbv zeta.
    case_bool_decide as Er; cbn [snd]; [|apply Forall_singleton; cbn [event_wf]; fits; apply spec_reason_wf].
    destruct (spec_reason_NONE _ _ _ _ _ _ _ Er) as (_ & _ & Hs & _). unfold spec_trade. cbv zeta.
    change (side_of (opposite s) (accept c o a)) with (side_of (opposite s) a).
    assert (Hid : is_u64 (a_next_id a)).
    { pose proof (bw_next _ W). unfold is_u64, ME_MAX_ORDER_IDS in *. lia. }
    destruct (fill s p q (side_of (opposite s) a)) as [[fs lv] rest] eqn:Ef.
    destruct (fill_quantities _ _ _ _ _ _ _ Ef) as (Hfq & Hsum & Hlv); [apply Hop|..].
    { intros x Hx. apply (rw_qty x). eapply resting_fits; [done|done|by apply valid_opposite|done]. }
    assert (Hfs : Forall event_wf (fills_events t c s o (a_next_id a) q fs)).
    { apply (fills_wf _ _ _ _ _ _ lv); try done; [apply Hlv|apply Hop| |apply Hlv].
      rewrite Forall_forall in Hfq |- *. intros [x r] Hx. split; [by apply Hfq|].
      eapply resting_fits; [done|done|by apply (valid_opposite s)|]. by apply (fill_members _ _ _ _ _ _ _ _ _ Ef Hx). }
    assert (Hacc : event_wf (Response (mkResponse ACCEPTED c t o (a_next_id a) s p 0 q NONE 0 0))) by (cbn [event_wf]; fits).
    destruct (lv =? 0); cbn [snd]; (apply Forall_cons; split; [done|]); [done|].
    apply Forall_app. split; [done|]. by apply Forall_singleton.
  - destruct Hf as (Hc & Ho & Ht). unfold spec_cancel. case_match eqn:Ex; cbn [snd].
    2:{ apply Forall_singleton. cbn [event_wf]. fits. }
    destruct ((c <? ME_MAX_NUM_CLIENTS) && (t =? a_ticker_id a)); [|done].
    assert (Hx : m ∈ all_orders a).
    { unfold find_order in Ex. apply head_Some_elem_of in Ex. apply list_elem_of_In, filter_In in Ex as [Ex _].
      by apply list_elem_of_In. }
    assert (Hr : resting_wf m).
    { unfold all_orders in Hx. apply elem_of_app in Hx as [Hx|Hx];
        [apply (resting_fits a BUY)|apply (resting_fits a SELL)]; try done; [by left|by right]. }
    destruct Hr. repeat (apply Forall_cons; split); [done| |constructor]. cbn [event_wf]. fits. unfold is_u32. lia.
  - destruct Hf as (Hc & Ho). unfold spec_query. destruct (ME_MAX_NUM_CLIENTS <=? c); [constructor|].
    destruct (o =? 0); [apply Forall_singleton; cbn [event_wf]; fits|].
    destruct (a_last a !! (c, o)) as [r|] eqn:Er; cbn [snd]; [|apply Forall_singleton; cbn [event_wf]; fits].
    apply (tr_last_wf _ K) in Er as (?&?&?&?&?&?&?&?&?&?&?&?). apply Forall_singleton. cbn [event_wf].
    case_bool_decide; fits.
Qed.

(** ** Operations keep the book so *)
Lemma record_wf evs m :
  Forall event_wf evs -> (forall k r, m !! k = Some r -> response_wf r) ->
  forall k r, foldl record_event m evs !! k = Some r -> response_wf r.
Proof.
  intros Hev. revert m. induction Hev as [|ev evs He Hev IH]; intros m Hm; [done|]. cbn [foldl]. apply IH.
  destruct ev as [r|u]; cbn [record_event]; [|done]. case_match; [|done].
  intros k x Hx. apply lookup_insert_Some in Hx as [[<- <-]|[_ Hx]]; [exact He|by eapply Hm].
Qed.

Lemma set_side_last s l a : a_last (set_side s l a) = a_last a.
Proof. unfold set_side. by case_decide. Qed.
Lemma set_side_used s l a : a_used (set_side s l a) = a_used a.
Proof. unfold set_side. by case_decide. Qed.

Lemma publish_tracked evs a : Forall event_wf evs -> tracked a -> tracked (publish evs a).
Proof.
  intros Hev [H1 H2 H3 H4]. split; [by apply record_keyed|by apply record_wf|exact H3|exact H4].
Qed.

Lemma set_side_tracked s l a :
  Forall (λ x, is_i64 (o_price x)) l -> tracked a -> tracked (set_side s l a).
Proof.
  intros Hl [H1 H2 H3 H4]. split; rewrite ?set_side_last, ?set_side_used; try done.
  intros s'. specialize (H4 s'). unfold side_of, set_side in *. by repeat case_decide.
Qed.

Lemma fill_rest_prices s p leaves l fs lv rest (P : Z -> Prop) :
  fill s p leaves l = (fs, lv, rest) -> Forall (λ x, P (o_price x)) l -> Forall (λ x, P (o_price x)) rest.
Proof.
  revert leaves fs lv rest. induction l as [|x l IH]; intros leaves fs lv rest Hf Hl; cbn [fill] in Hf.
  { by injection Hf as <- <- <-. }
  apply Forall_cons in Hl as [Hx Hl].
  destruct (_ || _); [injection Hf as <- <- <-; by constructor|].
  destruct (_ =? 0); [|injection Hf as <- <- <-; by constructor].
  destruct (fill s p _ l) as [[fs' lv'] rest'] eqn:E. injection Hf as <- <- <-. by eapply IH.
Qed.

Lemma spec_step_tracked op a :
  book_wf a -> op_wf op -> op_fits op -> 0 <= a_ticker_id a < ME_MAX_TICKERS -> tracked a ->
  tracked (fst (spec_step op a)).
Proof.
  intros W Hop Hfits Htk K. pose proof (spec_step_event_wf op a W K Hop Hfits Htk) as Hev.
  destruct op as [c o t s p q|c o t|c o]; cbn [spec_step op_fits] in *.
  - destruct Hfits as (Hc & Ho & _ & _ & Hp). unfold spec_add in *. cbv zeta in *. case_bool_decide; [|exact K].
    unfold spec_trade in *. cbv zeta in *.
    assert (Ka : tracked (accept c o a)).
    { destruct K as [H1 H2 H3 H4]. split; [exact H1|exact H2| |exact H4].
      cbn. intros k [->%elem_of_singleton|Hk]%elem_of_union; [by split|auto]. }
    destruct (fill _ _ _ _) as [[fs lv] rest] eqn:Ef.
    pose proof (fill_rest_prices _ _ _ _ _ _ _ _ Ef (tr_prices _ Ka _)) as Hrest.
    pose proof (set_side_tracked (opposite s) _ _ Hrest Ka) as Kr.
    destruct (lv =? 0); cbn [fst snd] in *; (apply publish_tracked; [done|]); [exact Kr|].
    apply set_side_tracked; [|exact Kr]. rewrite enqueue_perm. constructor; [exact Hp|]. apply (tr_prices _ Kr).
  - unfold spec_cancel in *. case_match; [|exact K]. cbn [fst snd] in *. apply publish_tracked; [done|].
    apply set_side_tracked; [|exact K]. apply Forall_forall. intros x Hx.
    pose proof (tr_prices _ K (o_side m)) as Hall. rewrite Forall_forall in Hall. apply Hall.
    eapply elem_of_submseteq; [exact Hx|]. apply sublist_submseteq, drop_order_sublist.
  - unfold spec_query. repeat case_match; exact K.
Qed.

Lemma spec_step_answers op a :
  (forall c o, op = OpQuery c o -> c < ME_MAX_NUM_CLIENTS) -> keyed_last (a_last a) ->
  answers (op_key op) (snd (spec_step op a)).
Proof.
  intros Hc Hk. destruct op as [c o t s p q|c o t|c o]; cbn [spec_step op_key].
  - unfold spec_add. cbv zeta. case_bool_decide; cbn [snd]; [|by eexists; split; [by left|]].
    unfold spec_trade. cbv zeta. destruct (fill _ _ _ _) as [[fs lv] rest].
    destruct (lv =? 0); (eexists; split; [by left|done]).
  - unfold spec_cancel. case_match; cbn [snd]; [|by eexists; split; [by left|]].
    eexists. split; [right; by left|done].
  - unfold spec_query. rewrite (proj2 (Z.leb_gt _ _)) by (by eapply Hc).
    destruct (Z.eqb_spec o 0) as [->|_]; [by eexists; split; [by left|]|].
    destruct (a_last a !! (c, o)) as [r|] eqn:Er; cbn [snd]; [|by eexists; split; [by left|]].
    apply Hk in Er. eexists. split; [by left|]. by case_bool_decide.
Qed.

Lemma i64_fits z : is_i64 (i64 z).
Proof. unfold is_i64, i64. pose proof (Z.mod_pos_bound (z + 2 ^ 63) (2 ^ 64) ltac:(lia)). lia. Qed.

Lemma stamp_wf n m (r : MEClientResponse) r' m' :
  MatchingEngine.stamp n m r = (r', m') -> is_u64 n -> positions_fit m -> positions_fit m' /\
  (response_wf r -> response_wf r').
Proof.
  intros E Hn Hm. assert (Hp : forall k, is_i64 (default 0 (m !! k))).
  { intros k. destruct (m !! k) as [z|] eqn:Ek; [by eapply Hm|]. cbn. unfold is_i64. lia. }
  unfold MatchingEngine.stamp in E. destruct (_ && _) in E; injection E as <- <-.
  - match goal with |- context [set_rs_position ?p _] =>
      assert (Hpos : is_i64 p) by (case_match; [apply i64_fits|apply Hp]); revert Hpos; generalize p; intros p0 Hpos end.
    split; [intros k y [[_ <-]|[_ Hy]]%lookup_insert_Some; [done|by eapply Hm]|].
    intros (?&?&?&?&?&?&?&?&?&?&?&?). unfold response_wf. cbn. by split_and!.
  - split; [done|]. intros (?&?&?&?&?&?&?&?&?&?&?&?). unfold response_wf. cbn. by split_and!.
Qed.

Lemma stamped_wf n m evs :
  is_u64 n -> positions_fit m -> Forall event_wf evs -> Forall response_wf (stamped n m evs).
Proof.
  intros Hn Hm H. revert n m Hn Hm. induction H as [|[r|u] evs Hr H IH]; intros n m Hn Hm; cbn [stamped];
    [constructor| |by apply IH].
  destruct (MatchingEngine.stamp n m r) as [r' m'] eqn:E. destruct (stamp_wf _ _ _ _ _ E Hn Hm) as [Hm' Hw].
  constructor; [by apply Hw|]. apply IH; [|done]. unfold is_u64, u64. apply Z.mod_pos_bound. lia.
Qed.

Lemma send_events_positions evs e e' :
  is_u64 (me_next_response_id e) -> positions_fit (me_positions e) ->
  res_fold MatchingEngine.send_event evs e = Ok e' -> positions_fit (me_positions e').
Proof.
  revert e. induction evs as [|[r|u] evs IH]; intros e Hid Hm He; cbn [res_fold MatchingEngine.send_event] in He.
  - by injection He as <-.
  - unfold MatchingEngine.sendClientResponse in He.
    destruct (MatchingEngine.stamp _ _ r) as [r' m'] eqn:E. destruct (stamp_wf _ _ _ _ _ E Hid Hm) as [Hm' _].
    destruct (try_push r' _) as [[[|] q]|]; cbn [mbind res_bind ASSERT] in He; try done.
    refine (IH _ _ _ He); [|done]. cbn. unfold is_u64, u64. apply Z.mod_pos_bound. lia.
  - unfold MatchingEngine.sendMarketUpdate in He.
    destruct (try_push u _) as [[[|] q]|]; cbn [mbind res_bind ASSERT] in He; try done.
    by refine (IH _ _ _ He).
Qed.

(** Numbering keeps the addressee. *)
Lemma stamped_answers k id m evs : answers k evs -> exists r, r ∈ stamped id m evs /\ addressed k r.
Proof.
  intros (r & Hr & Ha). revert id m. induction evs as [|ev evs IH]; intros id m; [by apply elem_of_nil in Hr|].
  apply elem_of_cons in Hr as [<-|Hr]; cbn [stamped].
  - destruct (MatchingEngine.stamp id m r) as [r' m'] eqn:E. exists r'. split; [by left|].
    unfold MatchingEngine.stamp in E. destruct (_ && _) in E; injection E as <- _; exact Ha.
  - destruct ev as [x|u]; [|by apply IH]. destruct (MatchingEngine.stamp id m x) as [x' m'].
    destruct (IH Hr (u64 (id + 1)) m') as (y & Hy & Hya). exists y. split; [by right|done].
Qed.

(** A call on the book of a ticker. *)
Lemma with_book_ok e i op :
  length (me_books e) = Z.to_nat ME_MAX_TICKERS ->
  (forall i b, me_books e !! i = Some b -> book_ok i b) -> 0 <= i < ME_MAX_TICKERS -> op_wf op ->
  (forall c o, op = OpQuery c o -> c < ME_MAX_NUM_CLIENTS) -> op_fits op ->
  exists evs b', MatchingEngine.with_book i (book_step op) e =
      (e1 ← res_fold MatchingEngine.send_event evs e;
       Ok (MatchingEngine.with_books (<[Z.to_nat i := b']> (me_books e1)) e1)) /\
    book_ok (Z.to_nat i) b' /\ Forall fill_local evs /\ (forall t, net_fills t evs = 0) /\
    answers (op_key op) evs /\ Forall event_wf evs /\
    exists b b1, me_books e !! Z.to_nat i = Some b /\ book_step op b = Ok b1 /\ bk_events b1 = evs.
Proof.
  intros Hlen Hbooks Hi Hop Hc Hfits.
  destruct (lookup_lt_is_Some_2 (me_books e) (Z.to_nat i)) as [b Hb]; [lia|].
  destruct (Hbooks _ _ Hb) as (Hev & Htk & a & G & R & W & K).
  assert (Hat : 0 <= a_ticker_id a < ME_MAX_TICKERS) by (rewrite <- (rf_ticker _ _ _ R), Htk; lia).
  unfold MatchingEngine.with_book. rewrite Hb. cbn [deref mbind res_bind].
  pose proof (step_refines op b a G R W Hop) as Hstep.
  pose proof (spec_step_wf op a W Hop) as W'.
  destruct (spec_step_events op a W Hop (proj2 Hat)) as [Hloc Hnet].
  pose proof (spec_step_answers op a Hc (tr_last _ K)) as Hans. pose proof (spec_step_tracked op a W Hop Hfits Hat K) as K'.
  pose proof (spec_step_event_wf op a W K Hop Hfits Hat) as Hcl.
  pose proof (spec_step_ticker op a) as Htk'.
  destruct (spec_step op a) as [a' evs]. destruct Hstep as (b' & G' & Hb' & R' & E'). rewrite Hb'.
  cbn [mbind res_bind fst snd] in *. rewrite Hev in E'. cbn [app] in E'. rewrite E'.
  eexists evs, _. split; [done|]. split; [|by split_and!; eauto].
  split; [done|]. split.
  - cbn. rewrite (rf_ticker _ _ _ R'), Htk', <- (rf_ticker _ _ _ R). exact Htk.
  - exists a', G'. split; [|done]. destruct R'. by split.
Qed.

(** Processing a request is sending some events and replacing a book. *)
Lemma process_shape r e :
  length (me_books e) = Z.to_nat ME_MAX_TICKERS ->
  (forall i b, me_books e !! i = Some b -> book_ok i b) -> request_wf r ->
  exists evs i b', MatchingEngine.processClientRequest r e =
      (e1 ← res_fold MatchingEngine.send_event evs
              (MatchingEngine.with_audit (journal_request "APPLY" r <$> me_audit e) e);
       Ok (MatchingEngine.with_books (<[i := b']> (me_books e1)) e1)) /\
    (is_Some (me_books e !! i) -> book_ok i b') /\
    Forall fill_local evs /\ (forall t, net_fills t evs = 0) /\
    answers (rq_client_id r, rq_order_id r) evs /\ Forall event_wf evs /\ evs = request_events r e.
Proof.
  intros Hlen Hbooks (Htype & Hcid & Htid & Hoid & Hside & Hprice & Hqty).
  unfold MatchingEngine.processClientRequest. set (e0 := MatchingEngine.with_audit _ e).
  case_bool_decide as Hv; cbn [negb].
  - destruct (validate_cases r Hv) as (Hc & Ht & Ho & Htypes).
    assert (H0 : 0 <= rq_ticker_id r < ME_MAX_TICKERS) by (destruct Htid; lia).
    assert (Hcase : forall op, op_wf op -> op_fits op -> (forall c o, op = OpQuery c o -> c < ME_MAX_NUM_CLIENTS) ->
      op_key op = (rq_client_id r, rq_order_id r) -> op_of r = Some op ->
      exists evs i b', MatchingEngine.with_book (rq_ticker_id r) (book_step op) e0 =
        (e1 ← res_fold MatchingEngine.send_event evs e0;
         Ok (MatchingEngine.with_books (<[i := b']> (me_books e1)) e1)) /\
        (is_Some (me_books e !! i) -> book_ok i b') /\
        Forall fill_local evs /\ (forall t, net_fills t evs = 0) /\
        answers (rq_client_id r, rq_order_id r) evs /\ Forall event_wf evs /\ evs = request_events r e).
    { intros op Hop Hfits Hq Hkey Hopof. rewrite <- Hkey.
      destruct (with_book_ok e0 (rq_ticker_id r) op Hlen Hbooks H0 Hop Hq Hfits)
        as (evs & b' & H1 & H2 & H3 & H4 & H5 & H6 & b & b1 & Hb & Hstep & He).
      exists evs, (Z.to_nat (rq_ticker_id r)), b'. split; [exact H1|]. split; [by intros _|].
      split_and!; try done. unfold request_events. change (me_books e0) with (me_books e) in Hb.
      by rewrite (bool_decide_true (validate r = NONE)), Hopof, Hb, Hstep. }
    destruct Htypes as [E|[[E _]|[E _]]]; rewrite E.
    + apply (Hcase (OpQuery (rq_client_id r) (rq_order_id r))); [done|done| |done|by unfold op_of; rewrite E].
      intros c o [= <- _]. done.
    + by apply (Hcase (OpCancel (rq_client_id r) (rq_order_id r) (rq_ticker_id r))); try (unfold op_of; rewrite E).
    + by apply (Hcase (OpAdd (rq_client_id r) (rq_order_id r) (rq_ticker_id r) (rq_side r)
        (rq_price r) (rq_qty r))); try (unfold op_of; rewrite E).
  - set (rej := mkResponse REJECTED _ _ _ _ _ _ _ _ _ _ _).
    exists [Response rej], (length (me_books e)), default_book. split.
    + cbn [res_fold MatchingEngine.send_event].
      destruct (MatchingEngine.sendClientResponse rej e0) as [e1|] eqn:Es; cbn [mbind res_bind]; [|done].
      unfold MatchingEngine.with_books. rewrite list_insert_ge.
      * by destruct e1.
      * unfold MatchingEngine.sendClientResponse in Es. destruct (MatchingEngine.stamp _ _ _).
        destruct (try_push _ _) as [[[|] q]|]; cbn in Es; [|done..]. injection Es as <-. done.
    + split; [by intros [? ?%lookup_lt_Some]; lia|]. split; [|split].
      * by apply quiet_response.
      * by apply quiet_response.
      * split; [by eexists; split; [by left|]|]. split.
        -- apply Forall_singleton. cbn [event_wf]. fits. apply validate_wf.
        -- unfold request_events. by rewrite bool_decide_false.
Qed.

Lemma with_books_ok e i b' books :
  (forall j b, books !! j = Some b -> book_ok j b) -> (is_Some (books !! i) -> book_ok i b') ->
  me_books e = books -> forall j b, <[i := b']> (me_books e) !! j = Some b -> book_ok j b.
Proof.
  intros Hbooks Hb' -> j b Hj. apply list_lookup_insert_Some in Hj as [(<- & <- & Hlt)|[_ Hj]].
  - by apply Hb', lookup_lt_is_Some.
  - by apply Hbooks.
Qed.

Lemma stamped_ids id m evs k x :
  is_u64 id -> stamped id m evs !! k = Some x -> rs_response_id x = u64 (id + Z.of_nat k).
Proof.
  revert id m k. induction evs as [|[r|u] evs IH]; intros id m k Hid Hk; cbn [stamped] in Hk; [done| |].
  - destruct (MatchingEngine.stamp id m r) as [r' m'] eqn:E. destruct k as [|k].
    + injection Hk as <-. rewrite Z.add_0_r, u64_small by done.
      unfold MatchingEngine.stamp in E. destruct (_ && _) in E; by injection E as <- _.
    + cbn in Hk. assert (Hid' : is_u64 (u64 (id + 1))) by (apply Z.mod_pos_bound; lia).
      rewrite (IH (u64 (id + 1)) m' k Hid' Hk).
      unfold u64. rewrite Zplus_mod_idemp_l. f_equal. lia.
  - by apply (IH id m k).
Qed.

Lemma send_events_next evs e e' :
  is_u64 (me_next_response_id e) ->
  res_fold MatchingEngine.send_event evs e = Ok e' ->
  me_next_response_id e' = u64 (me_next_response_id e + Z.of_nat (length (stamped (me_next_response_id e) (me_positions e) evs))).
Proof.
  revert e. induction evs as [|[r|u] evs IH]; intros e Hid He; cbn [res_fold MatchingEngine.send_event] in He.
  - injection He as <-. cbn. by rewrite Z.add_0_r, u64_small.
  - unfold MatchingEngine.sendClientResponse in He. cbn [stamped].
    destruct (MatchingEngine.stamp _ _ r) as [r' m'].
    destruct (try_push r' _) as [[[|] q]|]; cbn [mbind res_bind ASSERT] in He; try done.
    assert (Hid' : is_u64 (u64 (me_next_response_id e + 1))) by (apply Z.mod_pos_bound; lia).
    match type of He with res_fold _ _ ?e1 = _ => rewrite (IH e1 Hid' He) end.
    cbn [me_next_response_id me_positions length].
    set (n := length _). unfold u64. rewrite Zplus_mod_idemp_l. f_equal. lia.
  - unfold MatchingEngine.sendMarketUpdate in He.
    destruct (try_push u _) as [[[|] q]|]; cbn [mbind res_bind ASSERT] in He; try done.
    match type of He with res_fold _ _ ?e1 = _ => exact (IH e1 Hid He) end.
Qed.

Lemma engine_step_ok e e' : engine_ok e -> engine_step e e' -> engine_ok e'.
Proof.
  intros [Hlen Hbooks [lr Hr] [lu Hu] Hid Hpos] Hstep. destruct Hstep as [r e' Hwf Hp|q Hq|q Hq].
  - destruct (process_shape r e Hlen Hbooks Hwf) as (evs & i & b' & Hshape & Hb' & _).
    rewrite Hshape in Hp. set (e0 := MatchingEngine.with_audit _ e) in *.
    pose proof (send_events_ok evs e0 lr lu Hr Hu) as Hsend.
    pose proof (send_events_next evs e0) as Hnext. pose proof (send_events_positions evs e0) as Hpn.
    destruct (res_fold MatchingEngine.send_event evs e0) as [e1|]; [|done].
    cbn [mbind res_bind] in Hp. injection Hp as <-.
    destruct Hsend as (Hr' & Hu' & Hb1 & _).
    split; cbn [me_books me_responses me_updates me_next_response_id MatchingEngine.with_books]; eauto.
    + rewrite length_insert, Hb1. exact Hlen.
    + apply (with_books_ok e1 i b' (me_books e)); [done|done|by rewrite Hb1].
    + rewrite (Hnext _ Hid eq_refl). unfold is_u64, u64. apply Z.mod_pos_bound. lia.
    + by apply (Hpn e1).
  - split; cbn; eauto. destruct lr as [|x lr].
    + rewrite (pop_ok _ [] Hr) in Hq. done.
    + destruct (pop_ok _ _ Hr) as (q' & Hq' & Hok & _). rewrite Hq in Hq'. injection Hq' as <-. eauto.
  - split; cbn; eauto. destruct lu as [|x lu].
    + rewrite (pop_ok _ [] Hu) in Hq. done.
    + destruct (pop_ok _ _ Hu) as (q' & Hq' & Hok & _). rewrite Hq in Hq'. injection Hq' as <-. eauto.
Qed.

Lemma engine_reachable_ok e0 e : engine_ok e0 -> engine_reachable e0 e -> engine_ok e.
Proof. intros H0 Hr. induction Hr; eauto using engine_step_ok. Qed.

Lemma make_ok orders levels rq rs up au e :
  0 <= orders -> 0 <= levels -> (exists l, queue_ok rs l) -> (exists l, queue_ok up l) ->
  MatchingEngine.make_sized orders levels rq rs up au = Some e ->
  engine_ok e /\ me_positions e = ∅.
Proof.
  intros Ho Hl Hrs Hup Hm. unfold MatchingEngine.make_sized in Hm.
  destruct (mapM _ _) as [books|] eqn:E; [|done]. injection Hm as <-.
  apply mapM_Some_1 in E. split; [|done]. split; cbn; [| |done|done|unfold is_u64; lia|by intros ?? ?%lookup_empty_Some].
  - rewrite <- (Forall2_length _ _ _ E), length_seqZ. done.
  - intros i b Hb. destruct (Forall2_lookup_r _ _ _ _ _ E Hb) as (t & Ht & Hmk).
    apply lookup_seqZ in Ht as [-> Hlt]. destruct (make_refines _ _ _ _ Ho Hl Hmk) as [R Ev].
    split; [done|]. split; [rewrite (rf_ticker _ _ _ R); cbn; lia|].
    eexists _, _. split; [exact R|]. split; [by apply empty_book_wf|]. split; cbn; [done|done|set_solver|].
    intros s. unfold side_of. case_decide; constructor.
Qed.

(** The request queue is not read while a request is processed. *)
Definition map_ok {A B} (f : A -> B) (m : res A) : res B :=
  match m with
  | Ok a => Ok (f a)
  | Err e => Err e
  end.

Lemma send_event_requests q ev e :
  MatchingEngine.send_event (MatchingEngine.with_requests q e) ev
  = map_ok (MatchingEngine.with_requests q) (MatchingEngine.send_event e ev).
Proof.
  destruct ev as [r|u]; cbn [MatchingEngine.send_event].
  - unfold MatchingEngine.sendClientResponse. cbn [me_next_response_id me_positions me_responses
      MatchingEngine.with_requests]. destruct (MatchingEngine.stamp _ _ r) as [r' m'].
    destruct (try_push r' (me_responses e)) as [[[|] q']|]; done.
  - unfold MatchingEngine.sendMarketUpdate. cbn [me_updates MatchingEngine.with_requests].
    destruct (try_push u (me_updates e)) as [[[|] q']|]; done.
Qed.

Lemma send_events_requests q evs e :
  res_fold MatchingEngine.send_event evs (MatchingEngine.with_requests q e)
  = map_ok (MatchingEngine.with_requests q) (res_fold MatchingEngine.send_event evs e).
Proof.
  revert e. induction evs as [|ev evs IH]; intros e; [done|]. cbn [res_fold].
  rewrite send_event_requests. destruct (MatchingEngine.send_event e ev) as [e1|]; [|done].
  cbn [map_ok mbind res_bind]. apply IH.
Qed.

Lemma with_book_requests q i f e :
  MatchingEngine.with_book i f (MatchingEngine.with_requests q e)
  = map_ok (MatchingEngine.with_requests q) (MatchingEngine.with_book i f e).
Proof.
  unfold MatchingEngine.with_book. cbn [me_books MatchingEngine.with_requests].
  destruct (me_books e !! Z.to_nat i) as [b|]; [|done]. cbn [deref mbind res_bind].
  destruct (f b) as [b'|]; [|done]. cbn [mbind res_bind]. rewrite send_events_requests.
  by destruct (res_fold MatchingEngine.send_event (bk_events b') e).
Qed.

Lemma process_requests q r e :
  MatchingEngine.processClientRequest r (MatchingEngine.with_requests q e)
  = map_ok (MatchingEngine.with_requests q) (MatchingEngine.processClientRequest r e).
Proof.
  unfold MatchingEngine.processClientRequest. cbn [me_audit MatchingEngine.with_requests].
  change (MatchingEngine.with_audit ?a (MatchingEngine.with_requests q e))
    with (MatchingEngine.with_requests q (MatchingEngine.with_audit a e)).
  set (e0 := MatchingEngine.with_audit _ e). case_bool_decide; cbn [negb].
  - destruct (rq_type r); try done; apply with_book_requests.
  - apply (send_event_requests q (Response _)).
Qed.

Lemma res_fold_requests q rs e :
  res_fold (λ e r, MatchingEngine.processClientRequest r e) rs (MatchingEngine.with_requests q e)
  = map_ok (MatchingEngine.with_requests q)
      (res_fold (λ e r, MatchingEngine.processClientRequest r e) rs e).
Proof.
  revert e. induction rs as [|r rs IH]; intros e; [done|]. cbn [res_fold].
  rewrite process_requests. destruct (MatchingEngine.processClientRequest r e) as [e1|]; [|done].
  cbn [map_ok mbind res_bind]. apply IH.
Qed.

Lemma process_keeps_requests r e e' :
  MatchingEngine.processClientRequest r e = Ok e' -> me_requests e' = me_requests e.
Proof.
  intros He. pose proof (process_requests (me_requests e) r e) as H.
  replace (MatchingEngine.with_requests (me_requests e) e) with e in H by (by destruct e).
  rewrite He in H. injection H as H. by rewrite H.
Qed.

Lemma drain_ok rs e fuel :
  queue_ok (me_requests e) rs -> (length rs <= fuel)%nat ->
  exists q, queue_ok q [] /\ MatchingEngine.drain fuel e
    = map_ok (MatchingEngine.with_requests q)
        (res_fold (λ e r, MatchingEngine.processClientRequest r e) rs e).
Proof.
  revert e fuel. induction rs as [|r rs IH]; intros e fuel Hq Hf.
  - exists (me_requests e). split; [done|]. destruct fuel; cbn [MatchingEngine.drain];
      rewrite (peek_ok _ _ Hq); cbn; by destruct e.
  - destruct fuel as [|fuel]; [cbn in Hf; lia|]. cbn [MatchingEngine.drain res_fold length] in *.
    rewrite (peek_ok _ _ Hq). cbn [mbind res_bind head]. unfold MatchingEngine.run_once.
    rewrite (peek_ok _ _ Hq). cbn [mbind res_bind head].
    destruct (MatchingEngine.processClientRequest r e) as [e1|] eqn:Ep; cbn [mbind res_bind].
    + rewrite (process_keeps_requests r e e1 Ep).
      destruct (pop_ok _ _ Hq) as (q1 & -> & Hq1 & _). cbn [mbind res_bind].
      destruct (IH (MatchingEngine.with_requests q1 e1) fuel Hq1) as (q & Hq2 & Hd); [lia|].
      exists q. split; [done|]. rewrite Hd, res_fold_requests.
      by destruct (res_fold _ rs e1).
    + destruct (queue_new_ok default_MEClientRequest 1 _ eq_refl) as [H0 _]. eauto.
Qed.
End Theory.



(** ** Properties *)

(** C16: positions balance.  In every state the engine can reach, while the
    order server and the publisher drain its queues, the net position of all
    clients in each ticker is zero (modulo the width of a position). *)
Theorem positions_balance orders levels rq rs up au e0 e t :
  0 <= orders -> 0 <= levels -> queue_ok rs [] -> queue_ok up [] ->
  MatchingEngine.make_sized orders levels rq rs up au = Some e0 -> engine_reachable e0 e ->
  total_position t (me_positions e) mod 2 ^ 64 = 0.
Proof.
  intros Ho Hl Hrs Hup Hm Hr.
  destruct (make_ok orders levels rq rs up au e0 Ho Hl) as [Hok Hpos]; eauto.
  induction Hr as [|e e' Hr IH Hstep]; [by rewrite Hpos|].
  destruct (engine_reachable_ok _ _ Hok Hr) as [Hlen Hbooks _ _ _].
  destruct Hstep as [r e' Hwf Hp|q Hq|q Hq]; [|exact IH|exact IH].
  destruct (process_shape r e Hlen Hbooks Hwf) as (evs & i & b' & Hshape & _ & Hloc & Hnet & _).
  rewrite Hshape in Hp. set (e1 := MatchingEngine.with_audit _ e) in *.
  destruct (res_fold MatchingEngine.send_event evs e1) as [e2|] eqn:Es; [|done].
  cbn [mbind res_bind] in Hp. injection Hp as <-.
  pose proof (send_events_total t evs e1 e2 Hloc Es) as Ht. rewrite Hnet in Ht.
  eapply mod_add_0; [exact IH|exact Ht|]. cbn. lia.
Qed.

Definition demo_request (c : Z) (s : Side) : MEClientRequest := mkRequest NEW c 0 1 s 100 5 0 0.

Definition demo_queue {T} (d : T) : LFQueue T := mkQueue (replicate 8 d) 7 15 0 0 0 0.

Lemma demo_queue_ok {T} (d : T) : queue_ok (demo_queue d) [].
Proof. by apply (queue_new_ok d 8). Defined.

Definition demo_engine : option MatchingEngine :=
  MatchingEngine.make_sized 2 2 (demo_queue default_MEClientRequest)
    (demo_queue default_MEClientResponse) (demo_queue default_MEMarketUpdate) None.

Definition demo_traded : res MatchingEngine :=
  e ← deref demo_engine;
  e ← MatchingEngine.processClientRequest (demo_request 1 BUY) e;
  MatchingEngine.processClientRequest (demo_request 2 SELL) e.

Lemma demo_request_wf c s :
  0 <= c < 256 -> s = BUY \/ s = SELL -> request_wf (demo_request c s).
Proof.
  intros Hc Hs. unfold request_wf, demo_request. cbn. unfold is_u32, is_u64, is_i64.
  destruct Hs as [-> | ->]; repeat split; lia || done.
Defined.

Lemma positions_balance_witness :
  exists e0 e1 e, demo_engine = Some e0 /\
    MatchingEngine.processClientRequest (demo_request 1 BUY) e0 = Ok e1 /\
    MatchingEngine.processClientRequest (demo_request 2 SELL) e1 = Ok e /\
    me_positions e !! (1, 0) = Some 5 /\ me_positions e !! (2, 0) = Some (-5) /\
    total_position 0 (me_positions e) mod 2 ^ 64 = 0.
Proof.
  eexists _, _, _. split; [vm_compute; reflexivity|]. split; [vm_compute; reflexivity|].
  split; [vm_compute; reflexivity|]. split; [vm_compute; reflexivity|]. split; [vm_compute; reflexivity|].
  eapply (positions_balance 2 2 (demo_queue default_MEClientRequest)
    (demo_queue default_MEClientResponse) (demo_queue default_MEMarketUpdate) None).
  - lia.
  - lia.
  - apply demo_queue_ok.
  - apply demo_queue_ok.
  - vm_compute. reflexivity.
  - eapply er_step; [eapply er_step; [apply er_refl|]|].
    + eapply (es_process _ (demo_request 1 BUY)); [apply demo_request_wf; auto; lia|].
      vm_compute. reflexivity.
    + eapply (es_process _ (demo_request 2 SELL)); [apply demo_request_wf; auto; lia|].
      vm_compute. reflexivity.
Defined.

(** What processing a request adds to the two queues: the responses and the
    updates it causes, if there is room for them. *)
Lemma process_exact e r l u :
  engine_ok e -> request_wf r -> queue_ok (me_responses e) l -> queue_ok (me_updates e) u ->
  let evs := request_events r e in
  let rs := stamped (me_next_response_id e) (me_positions e) evs in
  match MatchingEngine.processClientRequest r e with
  | Ok e' => engine_ok e' /\ queue_ok (me_responses e') (l ++ rs) /\ queue_ok (me_updates e') (u ++ updates_of evs) /\
      capacity (me_responses e') = capacity (me_responses e) /\ capacity (me_updates e') = capacity (me_updates e) /\
      me_next_response_id e' = u64 (me_next_response_id e + Z.of_nat (length rs))
  | Err f => f = AssertFailed /\
      (capacity (me_responses e) < Z.of_nat (length (l ++ rs)) \/
       capacity (me_updates e) < Z.of_nat (length (u ++ updates_of evs)))
  end.
Proof.
  intros Hok Hwf Hr Hu. pose proof (engine_step_ok e) as Hstep. pose proof (es_process e r) as Hproc.
  destruct (process_shape r e) as (evs & i & b' & Hshape & _ & _ & _ & _ & _ & <-); [apply Hok..|done|].
  set (e0 := MatchingEngine.with_audit _ e) in *.
  pose proof (send_events_ok evs e0 l u Hr Hu) as Hsend. pose proof (send_events_next evs e0) as Hnext.
  destruct (res_fold MatchingEngine.send_event evs e0) as [e1|f]; cbn [mbind res_bind] in Hshape; rewrite Hshape in *;
    [|exact Hsend].
  destruct Hsend as (H1 & H2 & _ & _ & H3 & H4). split; [by apply Hstep, Hproc|]. split_and!; try done.
  by apply (Hnext e1 (eo_next _ Hok)).
Qed.

(** The responses a request causes. *)
Lemma request_answers e r :
  engine_ok e -> request_wf r ->
  let rs := stamped (me_next_response_id e) (me_positions e) (request_events r e) in
  Forall response_wf rs /\ (exists x, x ∈ rs /\ addressed (rq_client_id r, rq_order_id r) x) /\
  (forall k x, rs !! k = Some x -> rs_response_id x = u64 (me_next_response_id e + Z.of_nat k)).
Proof.
  intros Hok Hwf.
  destruct (process_shape r e) as (evs & i & b' & _ & _ & _ & _ & Hans & Hev & <-); [apply Hok..|done|].
  split; [apply stamped_wf; [apply Hok|apply Hok|done]|]. split; [by apply stamped_answers|].
  intros k x. apply stamped_ids, Hok.
Qed.

Lemma process_adds e r l u :
  engine_ok e -> request_wf r -> queue_ok (me_responses e) l -> queue_ok (me_updates e) u ->
  match MatchingEngine.processClientRequest r e with
  | Ok e' => engine_ok e' /\ exists rs us, Forall response_wf rs /\
      (exists x, x ∈ rs /\ addressed (rq_client_id r, rq_order_id r) x) /\ queue_ok (me_responses e') (l ++ rs) /\
      queue_ok (me_updates e') (u ++ us) /\
      (forall k x, rs !! k = Some x -> rs_response_id x = u64 (me_next_response_id e + Z.of_nat k)) /\
      me_next_response_id e' = u64 (me_next_response_id e + Z.of_nat (length rs))
  | Err f => f = AssertFailed
  end.
Proof.
  intros Hok Hwf Hr Hu. pose proof (process_exact e r l u Hok Hwf Hr Hu) as H.
  destruct (request_answers e r Hok Hwf) as (Hrs & Hans & Hid).
  destruct (MatchingEngine.processClientRequest r e) as [e'|f]; [|apply H].
  destruct H as (H1 & H2 & H3 & _ & _ & H4). split; [exact H1|]. eexists _, _. split_and!; eauto.
Qed.

(** C29: every request is answered, in order, or the process stops because an
    output queue is full.  One iteration of the engine, on a consistent state,
    takes the request at the head of the queue.  What it says is determined by
    the request and the books ([request_events]): responses, numbered
    consecutively from [next_response_id_], one of them addressed to the client
    and about the order of the request, and market updates.  If both queues have
    room, the iteration succeeds: it appends exactly these, in order, behind what
    waits, leaves the other requests in the queue, and the next number is the one
    after the last; if not, and only then, the assertion on a full queue fails. *)
Theorem requests_are_answered e r lq l u :
  engine_ok e -> request_wf r -> queue_ok (me_requests e) (r :: lq) ->
  queue_ok (me_responses e) l -> queue_ok (me_updates e) u ->
  let evs := request_events r e in
  let rs := stamped (me_next_response_id e) (me_positions e) evs in
  (exists x, x ∈ rs /\ rs_client_id x = rq_client_id r /\ rs_client_order_id x = rq_order_id r) /\
  (forall k x, rs !! k = Some x -> rs_response_id x = u64 (me_next_response_id e + Z.of_nat k)) /\
  if bool_decide (Z.of_nat (length (l ++ rs)) <= capacity (me_responses e) /\
                  Z.of_nat (length (u ++ updates_of evs)) <= capacity (me_updates e))
  then exists e', MatchingEngine.run_once e = Ok e' /\ engine_ok e' /\ queue_ok (me_requests e') lq /\
    queue_ok (me_responses e') (l ++ rs) /\ queue_ok (me_updates e') (u ++ updates_of evs) /\
    me_next_response_id e' = u64 (me_next_response_id e + Z.of_nat (length rs))
  else MatchingEngine.run_once e = Err AssertFailed.
Proof.
  intros He Hr Hq Hl Hu. cbv zeta. destruct (request_answers e r He Hr) as (_ & Hans & Hids).
  split; [exact Hans|]. split; [exact Hids|]. pose proof (process_exact e r l u He Hr Hl Hu) as H. cbv zeta in H.
  unfold MatchingEngine.run_once. rewrite (peek_ok _ _ Hq). cbn [mbind res_bind head].
  destruct (MatchingEngine.processClientRequest r e) as [e'|f] eqn:Ep.
  - destruct H as (H1 & H2 & H3 & Hc1 & Hc2 & H4). rewrite bool_decide_true.
    2:{ rewrite <- Hc1, <- Hc2. split; [exact (qo_length _ _ H2)|exact (qo_length _ _ H3)]. }
    cbn [mbind res_bind]. rewrite (process_keeps_requests r e e' Ep).
    destruct (pop_ok _ _ Hq) as (q & -> & Hq' & _). cbn [mbind res_bind]. eexists. split; [done|].
    split; [by destruct H1|]. by split_and!.
  - destruct H as [-> H]. rewrite bool_decide_false by lia. done.
Qed.

(** The demo engine with a request that waits and a queue of responses. *)
Definition demo_waiting : LFQueue MEClientRequest :=
  mkQueue (<[0%nat := demo_request 1 BUY]> (replicate 8 default_MEClientRequest)) 7 15 0 1 0 1.
Definition demo_full : LFQueue MEClientResponse := mkQueue [default_MEClientResponse] 0 1 0 1 0 1.
Definition demo_serving (responses : LFQueue MEClientResponse) (e : MatchingEngine) : MatchingEngine :=
  mkEngine (me_books e) demo_waiting responses (me_updates e) (me_next_response_id e) (me_response_count e)
    (me_positions e) (me_audit e).

Lemma demo_waiting_ok : queue_ok demo_waiting [demo_request 1 BUY].
Proof.
  pose proof (try_push_ok _ [] (demo_request 1 BUY) (demo_queue_ok default_MEClientRequest)) as H.
  destruct H as (q & E & H & _). vm_compute in E. injection E as <-. exact H.
Qed.

Lemma demo_full_ok : queue_ok demo_full [default_MEClientResponse].
Proof.
  destruct (queue_new_ok default_MEClientResponse 1 _ eq_refl) as [H0 _].
  pose proof (try_push_ok _ [] default_MEClientResponse H0) as H.
  destruct H as (q & E & H & _). vm_compute in E. injection E as <-. exact H.
Qed.

Lemma demo_engine_ok : exists e0, demo_engine = Some e0 /\ engine_ok e0 /\
  me_updates e0 = demo_queue default_MEMarketUpdate /\
  length (stamped (me_next_response_id e0) (me_positions e0) (request_events (demo_request 1 BUY) e0)) = 1%nat /\
  length (updates_of (request_events (demo_request 1 BUY) e0)) = 1%nat.
Proof.
  eexists. split; [vm_compute; reflexivity|]. split; [|by vm_compute].
  eapply (make_ok 2 2 (demo_queue default_MEClientRequest) (demo_queue default_MEClientResponse)
    (demo_queue default_MEMarketUpdate) None); [lia|lia| | |vm_compute; reflexivity].
  - exists []. apply demo_queue_ok.
  - exists []. apply demo_queue_ok.
Qed.

Lemma demo_serving_ok q lr e : engine_ok e -> queue_ok q lr -> engine_ok (demo_serving q e).
Proof. intros [] Hq. split; cbn; eauto. Qed.

Lemma requests_are_answered_witness :
  exists e0, demo_engine = Some e0 /\
    (exists e1 rs, MatchingEngine.run_once (demo_serving (demo_queue default_MEClientResponse) e0) = Ok e1 /\
       queue_ok (me_requests e1) [] /\ queue_ok (me_responses e1) rs /\ length rs = 1%nat) /\
    MatchingEngine.run_once (demo_serving demo_full e0) = Err AssertFailed.
Proof.
  destruct demo_engine_ok as (e0 & He & Hok & Hu & Hrs & Hus). exists e0. split; [exact He|].
  assert (Hqu : queue_ok (me_updates e0) []) by (rewrite Hu; apply demo_queue_ok).
  assert (Hwf : request_wf (demo_request 1 BUY)) by (apply demo_request_wf; auto; lia).
  pose proof (requests_are_answered (demo_serving (demo_queue default_MEClientResponse) e0) (demo_request 1 BUY) [] [] []
    (demo_serving_ok _ _ _ Hok (demo_queue_ok default_MEClientResponse)) Hwf demo_waiting_ok
    (demo_queue_ok default_MEClientResponse) Hqu) as H1.
  pose proof (requests_are_answered (demo_serving demo_full e0) (demo_request 1 BUY) [] [default_MEClientResponse] []
    (demo_serving_ok _ _ _ Hok demo_full_ok) Hwf demo_waiting_ok demo_full_ok Hqu) as H2.
  cbv zeta in H1, H2. change (request_events _ (demo_serving _ e0)) with (request_events (demo_request 1 BUY) e0) in H1, H2.
  cbn [demo_serving me_next_response_id me_positions me_responses me_updates] in H1, H2. rewrite Hu in H1, H2. split.
  - destruct H1 as (_ & _ & H1). rewrite bool_decide_true in H1.
    2:{ cbn [app]. rewrite Hrs, Hus. by vm_compute. }
    destruct H1 as (e1 & Hrun & _ & Hq & Hr & _). eexists e1, _. split; [exact Hrun|]. split; [exact Hq|].
    split; [exact Hr|exact Hrs].
  - destruct H2 as (_ & _ & H2). rewrite bool_decide_false in H2; [exact H2|].
    rewrite length_app, Hrs. intros [Hle _]. exact (Hle eq_refl).
Defined.

(** stopping the engine processes every queued request once, in the
    order of arrival, and leaves the request queue empty. *)
Theorem stop_drains_requests e rs :
  queue_ok (me_requests e) rs ->
  exists q, queue_ok q [] /\ MatchingEngine.run_stopped e
    = match res_fold (λ e r, MatchingEngine.processClientRequest r e) rs e with
      | Ok e' => Ok (MatchingEngine.with_requests q e')
      | Err f => Err f
      end.
Proof.
  intros Hq. unfold MatchingEngine.run_stopped. apply drain_ok; [done|].
  rewrite (queue_size_ok _ _ Hq). lia.
Qed.

Lemma stop_drains_requests_witness :
  exists e, demo_engine = Some e /\ exists q, queue_ok q [] /\
    MatchingEngine.run_stopped e = Ok (MatchingEngine.with_requests q e).
Proof.
  eexists. split; [vm_compute; reflexivity|].
  refine (stop_drains_requests _ [] _). apply (demo_queue_ok default_MEClientRequest).
Defined.
