(* ===== verification/FIFOSequencer.v ===== *)
(** Receive-time sequencing of client requests: exchange/order_server/fifo_sequencer.h.

    The valid prefix of the fixed array is a list.  [std::stable_sort] is the
    insertion sort that keeps equal elements in order; logging and the
    measurement macro have no effect on the state.  [SeqOp] interleaves the
    order server (additions, publications) with the matching engine (pops). *)
From S2P Require Import Prelude.
From S2P Require Import Types.
From S2P Require Import LFQueue.
From stdpp Require Import base list sorting.
From Stdlib Require Import ZArith Lia.

Local Open Scope Z_scope.

Definition ME_MAX_PENDING_REQUESTS : nat := Z.to_nat 1024.

Record RecvTimeClientRequest : Type := mkRecv {
  recv_time : Z;
  request : MEClientRequest
}.

(** [operator<]. *)
Definition recv_lt (lhs rhs : RecvTimeClientRequest) : bool := recv_time lhs <? recv_time rhs.

Record FIFOSequencer : Type := mkSequencer {
  pending_client_requests : list RecvTimeClientRequest   (* the first [pending_size_] slots *)
}.

(** [std::stable_sort]. *)
Fixpoint insert_stable (x : RecvTimeClientRequest) (l : list RecvTimeClientRequest) :
    list RecvTimeClientRequest :=
  match l with
  | [] => [x]
  | y :: l' => if recv_lt y x then y :: insert_stable x l' else x :: l
  end.

Definition stable_sort (l : list RecvTimeClientRequest) : list RecvTimeClientRequest :=
  foldr insert_stable [] l.

Module FIFOSequencer.

Definition make : FIFOSequencer := mkSequencer [].

Definition pending (s : FIFOSequencer) : nat := length (pending_client_requests s).

Definition canAccept (s : FIFOSequencer) : bool :=
  bool_decide (pending s < ME_MAX_PENDING_REQUESTS)%nat.

Definition addClientRequest (rx_time : Z) (r : MEClientRequest) (s : FIFOSequencer) :
    bool * FIFOSequencer :=
  if bool_decide (ME_MAX_PENDING_REQUESTS <= pending s)%nat then (false, s)
  else (true, mkSequencer (pending_client_requests s ++ [mkRecv rx_time r])).

(** The loop: the suffix that was not pushed, the refused request included. *)
Fixpoint publish_loop (l : list RecvTimeClientRequest) (q : LFQueue MEClientRequest) :
    res (list RecvTimeClientRequest * LFQueue MEClientRequest) :=
  match l with
  | [] => Ok ([], q)
  | client_request :: l' =>
      '(pushed, q) ← try_push (request client_request) q;
      if pushed : bool then publish_loop l' q else Ok (l, q)
  end.

Definition sequenceAndPublish (s : FIFOSequencer) (q : LFQueue MEClientRequest) :
    res (FIFOSequencer * LFQueue MEClientRequest) :=
  if bool_decide (pending s = 0)%nat then Ok (s, q) else
  let sorted :=
    if bool_decide (1 < pending s)%nat then stable_sort (pending_client_requests s)
    else pending_client_requests s in
  '(rest, q) ← publish_loop sorted q;
  Ok (mkSequencer rest, q).

End FIFOSequencer.

(** ** Rounds of the order server against the matching engine *)
Inductive SeqOp : Type :=
  | Receive (rx_time : Z) (r : MEClientRequest)
  | Publish
  | Consume.

Record SeqState : Type := mkSeqState {
  ss_sequencer : FIFOSequencer;
  ss_queue : LFQueue MEClientRequest;
  ss_accepted : list MEClientRequest;   (* requests for which addClientRequest returned true *)
  ss_consumed : list MEClientRequest    (* requests popped by the matching engine *)
}.

Definition seq_step (s : SeqState) (op : SeqOp) : res SeqState :=
  match op with
  | Receive t r =>
      let '(ok, fs) := FIFOSequencer.addClientRequest t r (ss_sequencer s) in
      Ok (mkSeqState fs (ss_queue s) (if ok then ss_accepted s ++ [r] else ss_accepted s)
            (ss_consumed s))
  | Publish =>
      '(fs, q) ← FIFOSequencer.sequenceAndPublish (ss_sequencer s) (ss_queue s);
      Ok (mkSeqState fs q (ss_accepted s) (ss_consumed s))
  | Consume =>
      '(r, q) ← try_pop (ss_queue s);
      Ok (mkSeqState (ss_sequencer s) q (ss_accepted s) (ss_consumed s ++ option_list r))
  end.

Definition seq_run (ops : list SeqOp) (s : SeqState) : res SeqState := res_fold seq_step ops s.

(** Arrival order: by time of reception. *)
Definition recv_le (a b : RecvTimeClientRequest) : Prop := recv_time a <= recv_time b.

Definition received_at (t : Z) (l : list RecvTimeClientRequest) : list RecvTimeClientRequest :=
  filter (λ x, recv_time x = t) l.

(** ** The sort *)
Lemma insert_stable_perm x l : insert_stable x l ≡ₚ x :: l.
Proof.
  induction l as [|y l IH]; [done|]. cbn. destruct (recv_lt y x); [|done].
  rewrite IH. apply perm_swap.
Qed.

Lemma stable_sort_perm l : stable_sort l ≡ₚ l.
Proof. induction l as [|x l IH]; [done|]. cbn. by rewrite insert_stable_perm, IH. Qed.

Lemma insert_stable_sorted x l :
  Sorted recv_le l -> Sorted recv_le (insert_stable x l).
Proof.
  induction l as [|y l IH]; intros Hs; cbn; [repeat constructor|].
  unfold recv_lt. destruct (Z.ltb_spec (recv_time y) (recv_time x)) as [E|E].
  - apply Sorted_inv in Hs as [Hs Hhd]. constructor; [auto|].
    destruct l as [|z l]; cbn; [constructor; unfold recv_le; lia|].
    apply HdRel_inv in Hhd. unfold recv_lt. destruct (_ <? _); constructor; [done|].
    unfold recv_le; lia.
  - constructor; [done|]. constructor. unfold recv_le; lia.
Qed.

Lemma stable_sort_sorted l : Sorted recv_le (stable_sort l).
Proof. induction l as [|x l IH]; [constructor|]. by apply insert_stable_sorted. Qed.

Lemma insert_stable_filter t x l :
  received_at t (insert_stable x l) = received_at t (x :: l).
Proof.
  induction l as [|y l IH]; [done|]. cbn [insert_stable]. unfold recv_lt.
  destruct (Z.ltb_spec (recv_time y) (recv_time x)) as [E|E]; [|done].
  unfold received_at in *. rewrite filter_cons, IH, !filter_cons.
  destruct (decide (recv_time y = t)), (decide (recv_time x = t)); [lia|done..].
Qed.

Lemma stable_sort_stable t l : received_at t (stable_sort l) = received_at t l.
Proof.
  induction l as [|x l IH]; [done|]. cbn [stable_sort foldr].
  rewrite insert_stable_filter. unfold received_at in *.
  rewrite !filter_cons. fold (stable_sort l). by rewrite IH.
Qed.

Lemma short_sorted (s : FIFOSequencer) :
  (if bool_decide (1 < FIFOSequencer.pending s)%nat then stable_sort (pending_client_requests s)
   else pending_client_requests s) = stable_sort (pending_client_requests s).
Proof.
  unfold FIFOSequencer.pending. case_bool_decide as H; [done|].
  destruct (pending_client_requests s) as [|x [|y l]]; [done..|]. cbn in H. lia.
Qed.

(** ** The publication *)
Lemma publish_loop_ok l q ql :
  queue_ok q ql ->
  let n := Z.to_nat (capacity q - Z.of_nat (length ql)) in
  exists q', FIFOSequencer.publish_loop l q = Ok (drop n l, q') /\
    queue_ok q' (ql ++ map request (take n l)) /\ capacity q' = capacity q.
Proof.
  revert q ql. induction l as [|x l IH]; intros q ql Hq n.
  { exists q. unfold n. rewrite take_nil, drop_nil, app_nil_r. done. }
  cbn [FIFOSequencer.publish_loop]. pose proof (try_push_ok q ql (request x) Hq) as Hp.
  pose proof (qo_length _ _ Hq) as Hl.
  destruct (Z.eqb_spec (Z.of_nat (length ql)) (capacity q)) as [E|E].
  - destruct Hp as [Hp Hok]. rewrite Hp. cbn. exists (recordFull q).
    unfold n. rewrite <- E, Z.sub_diag, app_nil_r. done.
  - destruct Hp as (q1 & Hp & Hq1 & Hc). rewrite Hp. cbn [mbind res_bind].
    destruct (IH _ _ Hq1) as (q' & HL & Hq' & Hc').
    assert (Hn : n = S (Z.to_nat (capacity q1 - Z.of_nat (length (ql ++ [request x]))))).
    { unfold n. rewrite Hc, length_app. cbn [length]. lia. }
    rewrite Hn. exists q'. cbn [drop take map]. rewrite HL. split; [done|].
    rewrite <- app_assoc in Hq'. split; [done|congruence].
Qed.

Lemma sequenceAndPublish_ok s q ql :
  queue_ok q ql ->
  let sorted := stable_sort (pending_client_requests s) in
  let n := Z.to_nat (capacity q - Z.of_nat (length ql)) in
  exists q', FIFOSequencer.sequenceAndPublish s q = Ok (mkSequencer (drop n sorted), q') /\
    queue_ok q' (ql ++ map request (take n sorted)) /\ capacity q' = capacity q.
Proof.
  intros Hq sorted n. unfold FIFOSequencer.sequenceAndPublish. rewrite short_sorted.
  case_bool_decide as H.
  - unfold FIFOSequencer.pending in H. destruct s as [[|x l]]; [|done].
    exists q. unfold sorted. cbn. rewrite drop_nil, take_nil, app_nil_r. done.
  - destruct (publish_loop_ok sorted q ql Hq) as (q' & HL & Hq' & Hc).
    fold sorted. rewrite HL. cbn. eauto.
Qed.

(** ** Invariant of the rounds *)
Record seq_ok (s : SeqState) : Prop := {
  sq_queue : exists l, queue_ok (ss_queue s) l /\
    ss_accepted s ≡ₚ ss_consumed s ++ l ++ map request (pending_client_requests (ss_sequencer s));
  sq_bound : (FIFOSequencer.pending (ss_sequencer s) <= ME_MAX_PENDING_REQUESTS)%nat
}.

Lemma seq_step_ok s op :
  seq_ok s -> exists s', seq_step s op = Ok s' /\ seq_ok s'.
Proof.
  intros [(l & Hq & Hp) Hb]. destruct op as [t r| |]; cbn [seq_step].
  - unfold FIFOSequencer.addClientRequest. case_bool_decide as H; eexists; (split; [done|]).
    + split; [by exists l|done].
    + split; cbn [ss_sequencer ss_queue ss_accepted ss_consumed pending_client_requests].
      * exists l. split; [done|]. rewrite Hp, map_app. cbn. by rewrite <- !app_assoc.
      * unfold FIFOSequencer.pending in *. cbn. rewrite length_app. cbn [length]. lia.
  - destruct (sequenceAndPublish_ok (ss_sequencer s) _ _ Hq) as (q' & HL & Hq' & _).
    rewrite HL. cbn. eexists; split; [done|]. split; cbn [ss_sequencer ss_queue ss_accepted ss_consumed pending_client_requests].
    + eexists. split; [exact Hq'|]. rewrite Hp. rewrite <- app_assoc, <- map_app, take_drop.
      by rewrite stable_sort_perm.
    + unfold FIFOSequencer.pending in *. cbn. rewrite length_drop, stable_sort_perm. lia.
  - pose proof (try_pop_ok _ _ Hq) as H. destruct l as [|x l].
    + rewrite H. cbn. eexists; split; [done|]. split; [|done]. exists []. cbn.
      by rewrite app_nil_r.
    + destruct H as (q' & HL & Hq' & _). rewrite HL. cbn. eexists; split; [done|].
      split; [|done]. exists l. cbn. split; [done|]. by rewrite Hp, <- app_assoc.
Qed.

(** C28: one publication sorts the pending requests by receive time, keeping
    the arrival order of equal times, pushes the longest prefix for which the
    queue has room and keeps exactly the rest, in that order. *)
Theorem publish_is_stable_prefix s q ql :
  queue_ok q ql ->
  exists published kept q',
    FIFOSequencer.sequenceAndPublish s q = Ok (mkSequencer kept, q') /\
    queue_ok q' (ql ++ map request published) /\
    Sorted recv_le (published ++ kept) /\
    published ++ kept ≡ₚ pending_client_requests s /\
    (forall t, received_at t (published ++ kept) = received_at t (pending_client_requests s)) /\
    (kept = [] \/ Z.of_nat (length (ql ++ map request published)) = capacity q').
Proof.
  intros Hq. destruct (sequenceAndPublish_ok s q ql Hq) as (q' & HL & Hq' & Hc).
  eexists _, _, q'. split; [exact HL|]. split; [exact Hq'|]. rewrite take_drop.
  split_and!; [apply stable_sort_sorted|apply stable_sort_perm|intros; apply stable_sort_stable|].
  pose proof (qo_length _ _ Hq) as Hl.
  destruct (Nat.le_gt_cases (length (stable_sort (pending_client_requests s)))
    (Z.to_nat (capacity q - Z.of_nat (length ql)))) as [H|H].
  - left. by apply drop_ge.
  - right. rewrite length_app, length_map, length_take, Hc. lia.
Qed.

Definition seq_demo : list SeqOp :=
  [Receive 30 default_MEClientRequest; Receive 10 default_MEClientRequest; Publish; Consume;
   Publish].

Definition seq_start (q : LFQueue MEClientRequest) : SeqState :=
  mkSeqState FIFOSequencer.make q [] [].

Lemma publish_is_stable_prefix_witness :
  exists published kept q',
    FIFOSequencer.sequenceAndPublish
      (mkSequencer [mkRecv 30 default_MEClientRequest; mkRecv 10 default_MEClientRequest])
      (mkQueue [default_MEClientRequest] 0 1 0 0 0 0) = Ok (mkSequencer kept, q') /\
    Sorted recv_le (published ++ kept).
Proof.
  assert (Hq : queue_new default_MEClientRequest 1 =
    Some (mkQueue [default_MEClientRequest] 0 1 0 0 0 0)) by reflexivity.
  destruct (queue_new_ok _ _ _ Hq) as [Hok _].
  destruct (publish_is_stable_prefix
    (mkSequencer [mkRecv 30 default_MEClientRequest; mkRecv 10 default_MEClientRequest]) _ _ Hok)
    as (p & k & q' & H1 & _ & H2 & _).
  exists p, k, q'. split; [exact H1|exact H2].
Defined.

(** C27: over any sequence of receptions, publications and pops the sequencer
    never fails, and the accepted requests are exactly those consumed, queued
    and pending: none is lost, none duplicated; at most 1024 are pending. *)
Theorem sequencer_loses_nothing cap q ops :
  queue_new default_MEClientRequest cap = Some q ->
  exists s l, seq_run ops (seq_start q) = Ok s /\ queue_ok (ss_queue s) l /\
    ss_accepted s ≡ₚ ss_consumed s ++ l ++ map request (pending_client_requests (ss_sequencer s)) /\
    (FIFOSequencer.pending (ss_sequencer s) <= ME_MAX_PENDING_REQUESTS)%nat.
Proof.
  intros Hq. destruct (queue_new_ok _ _ _ Hq) as [Hok _].
  assert (H0 : seq_ok (seq_start q)).
  { split; [exists []; split; [exact Hok|done]|unfold FIFOSequencer.pending; cbn; lia]. }
  unfold seq_run. revert H0. generalize (seq_start q) as s. clear Hq Hok.
  induction ops as [|op ops IH]; intros s Hs; cbn [res_fold].
  - destruct Hs as [(l & ? & ?) ?]. eauto 10.
  - destruct (seq_step_ok s op Hs) as (s' & -> & Hs'). cbn. by apply IH.
Qed.

Lemma sequencer_loses_nothing_witness :
  exists q s l, queue_new default_MEClientRequest 1 = Some q /\
    seq_run seq_demo (seq_start q) = Ok s /\ queue_ok (ss_queue s) l /\
    length (ss_consumed s) = 1%nat.
Proof.
  eexists. assert (Hq : queue_new default_MEClientRequest 1 =
    Some (mkQueue [default_MEClientRequest] 0 1 0 0 0 0)) by reflexivity.
  destruct (sequencer_loses_nothing 1 _ seq_demo Hq) as (s & l & H1 & H2 & _).
  exists s, l. split; [exact Hq|]. split; [exact H1|]. split; [exact H2|].
  vm_compute in H1. injection H1 as <-. reflexivity.
Defined.
