(* ===== verification/TcpSocket.v ===== *)
(** Non-blocking TCP connection: common/tcp_socket.{h,cpp}.

    [outbound_data_] is the physical buffer, whose unsent region starts at
    [send_begin_] and is compacted by [send]; of [inbound_data_] the valid
    prefix is kept.  The kernel is a parameter: the answer to the k-th system
    call for a number of bytes.  [ts_wire] and [ts_stream] are ghosts: the
    bytes that the kernel has taken and delivered.  The receive callback may
    change the socket and the state of its owner. *)
From S2P Require Import Prelude.
From S2P Require Import Wire.
From stdpp Require Import base list.
From Stdlib Require Import ZArith Lia.

Local Open Scope Z_scope.

Inductive SendResult : Type := Accepted | Full | Invalid.
Inductive ConnectionState : Type := Connecting | Open | PeerClosed | Error.

#[export] Instance SendResult_eq_dec : EqDecision SendResult.
Proof. solve_decision. Defined.
#[export] Instance ConnectionState_eq_dec : EqDecision ConnectionState.
Proof. solve_decision. Defined.

(** Results of [::send] and of [recvmsg]; a time comes with received bytes. *)
Inductive SendAnswer : Type :=
  | Sent (n : nat)
  | SendIntr
  | SendWouldBlock
  | SendError (errno : Z).

Inductive RecvAnswer : Type :=
  | Received (bytes : list Z) (time : Z)
  | RecvEnd
  | RecvIntr
  | RecvWouldBlock
  | RecvError (errno : Z).

Record TcpKernel : Type := mkKernel {
  tk_send : nat -> nat -> SendAnswer;
  tk_recv : nat -> nat -> RecvAnswer
}.

(** The interface of the system calls: no more bytes than asked for. *)
Record kernel_ok (k : TcpKernel) : Prop := {
  ko_send i len n : tk_send k i len = Sent n -> (n <= len)%nat;
  ko_recv i space bytes t : tk_recv k i space = Received bytes t ->
    (0 < length bytes <= space)%nat /\ Forall is_byte bytes
}.

Record TCPSocket : Type := mkTcp {
  ts_fd : bool;                  (* socket_fd_ >= 0 *)
  ts_outbound : list Z;          (* outbound_data_ *)
  ts_begin : nat;                (* send_begin_ *)
  ts_valid : nat;                (* next_send_valid_index_ *)
  ts_inbound : list Z;           (* the first next_rcv_valid_index_ bytes of inbound_data_ *)
  ts_capacity : nat;             (* inbound_data_.size() *)
  ts_state : ConnectionState;
  ts_last_error : Z;
  ts_sent_bytes : Z;
  ts_received_bytes : Z;
  ts_would_block : Z;
  ts_last_receive : Z;
  ts_calls : nat;                (* system calls so far *)
  ts_wire : list Z;
  ts_stream : list Z
}.

Definition EPIPE : Z := 32.
Definition TCPBufferSize : nat := Z.to_nat (1024 * 1024).

(** [memcpy] into a buffer. *)
Definition write_at (i : nat) (data store : list Z) : res (list Z) :=
  if bool_decide (i + length data <= length store)%nat
  then Ok (take i store ++ data ++ drop (i + length data) store) else Err BadAccess.

Module TCPSocket.

Definition make (capacity : nat) : res TCPSocket :=
  _ ← ASSERT (bool_decide (0 < capacity)%nat);
  Ok (mkTcp false (replicate capacity 0) 0 0 [] capacity Open 0 0 0 0 0 0 [] []).

Definition healthy (s : TCPSocket) : bool := bool_decide (ts_state s = Open).
Definition pending_bytes (s : TCPSocket) : nat := ts_valid s.

(** The bytes not sent yet. *)
Definition unsent (s : TCPSocket) : list Z := take (ts_valid s) (drop (ts_begin s) (ts_outbound s)).

Definition with_fd (b : bool) (s : TCPSocket) : TCPSocket :=
  mkTcp b (ts_outbound s) (ts_begin s) (ts_valid s) (ts_inbound s) (ts_capacity s) (ts_state s)
    (ts_last_error s) (ts_sent_bytes s) (ts_received_bytes s) (ts_would_block s) (ts_last_receive s)
    (ts_calls s) (ts_wire s) (ts_stream s).
Definition with_outbound (store : list Z) (begin valid : nat) (s : TCPSocket) : TCPSocket :=
  mkTcp (ts_fd s) store begin valid (ts_inbound s) (ts_capacity s) (ts_state s)
    (ts_last_error s) (ts_sent_bytes s) (ts_received_bytes s) (ts_would_block s) (ts_last_receive s)
    (ts_calls s) (ts_wire s) (ts_stream s).
Definition with_state (state : ConnectionState) (error : Z) (s : TCPSocket) : TCPSocket :=
  mkTcp (ts_fd s) (ts_outbound s) (ts_begin s) (ts_valid s) (ts_inbound s) (ts_capacity s) state
    error (ts_sent_bytes s) (ts_received_bytes s) (ts_would_block s) (ts_last_receive s)
    (ts_calls s) (ts_wire s) (ts_stream s).
Definition called (s : TCPSocket) : TCPSocket :=
  mkTcp (ts_fd s) (ts_outbound s) (ts_begin s) (ts_valid s) (ts_inbound s) (ts_capacity s) (ts_state s)
    (ts_last_error s) (ts_sent_bytes s) (ts_received_bytes s) (ts_would_block s) (ts_last_receive s)
    (S (ts_calls s)) (ts_wire s) (ts_stream s).
Definition blocked (s : TCPSocket) : TCPSocket :=
  mkTcp (ts_fd s) (ts_outbound s) (ts_begin s) (ts_valid s) (ts_inbound s) (ts_capacity s) (ts_state s)
    (ts_last_error s) (ts_sent_bytes s) (ts_received_bytes s) (u64 (ts_would_block s + 1))
    (ts_last_receive s) (ts_calls s) (ts_wire s) (ts_stream s).

(** What a callback does with the bytes it has dealt with. *)
Definition consume (n : nat) (s : TCPSocket) : TCPSocket :=
  mkTcp (ts_fd s) (ts_outbound s) (ts_begin s) (ts_valid s) (drop n (ts_inbound s)) (ts_capacity s)
    (ts_state s) (ts_last_error s) (ts_sent_bytes s) (ts_received_bytes s) (ts_would_block s)
    (ts_last_receive s) (ts_calls s) (ts_wire s) (ts_stream s).

(** [n] bytes went out. *)
Definition advance (n : nat) (s : TCPSocket) : TCPSocket :=
  mkTcp (ts_fd s) (ts_outbound s) (ts_begin s + n) (ts_valid s - n) (ts_inbound s) (ts_capacity s)
    (ts_state s) (ts_last_error s) (u64 (ts_sent_bytes s + Z.of_nat n)) (ts_received_bytes s)
    (ts_would_block s) (ts_last_receive s) (ts_calls s) (ts_wire s ++ take n (unsent s)) (ts_stream s).

(** Bytes came in. *)
Definition received (bytes : list Z) (time : Z) (s : TCPSocket) : TCPSocket :=
  mkTcp (ts_fd s) (ts_outbound s) (ts_begin s) (ts_valid s) (ts_inbound s ++ bytes) (ts_capacity s)
    (ts_state s) (ts_last_error s) (ts_sent_bytes s) (u64 (ts_received_bytes s + Z.of_nat (length bytes)))
    (ts_would_block s) time (ts_calls s) (ts_wire s) (ts_stream s ++ bytes).

(** [connect]: whether the socket could be created. *)
Definition connect (created : bool) (errno : Z) (s : TCPSocket) : bool * TCPSocket :=
  let s := with_fd created s in
  (created, if created then with_state Open (ts_last_error s) s else with_state Error errno s).

(** The [memmove] of the unsent bytes to the start. *)
Definition compact (s : TCPSocket) : res TCPSocket :=
  if bool_decide (ts_begin s + ts_valid s <= length (ts_outbound s))%nat then
    store ← write_at 0 (unsent s) (ts_outbound s);
    Ok (with_outbound store 0 (ts_valid s) s)
  else Err BadAccess.

Definition send (data : list Z) (s : TCPSocket) : res (SendResult * TCPSocket) :=
  if negb (healthy s) || bool_decide (length data = 0)%nat then Ok (Invalid, s) else
  if bool_decide (length (ts_outbound s) - ts_valid s < length data)%nat then Ok (Full, s) else
  s ← (if bool_decide (length (ts_outbound s) < ts_begin s + ts_valid s + length data)%nat
       then compact s else Ok s);
  store ← write_at (ts_begin s + ts_valid s) data (ts_outbound s);
  Ok (Accepted, with_outbound store (ts_begin s) (ts_valid s + length data) s).

Section Io.
Context (kernel : TcpKernel).

(** The loop of [flushSend]; [false]: a failed call. *)
Fixpoint flush_loop (budget : nat) (s : TCPSocket) : bool * TCPSocket :=
  match budget with
  | O => (true, s)
  | S budget =>
      if bool_decide (ts_valid s = 0)%nat then (true, s) else
      match tk_send kernel (ts_calls s) (ts_valid s) with
      | Sent (S n) => flush_loop budget (advance (S n) (called s))
      | SendIntr => flush_loop budget (called s)
      | SendWouldBlock => (true, blocked (called s))
      | Sent O => (false, with_state Error EPIPE (called s))
      | SendError errno => (false, with_state Error errno (called s))
      end
  end.

Definition flushSend (s : TCPSocket) : bool * TCPSocket :=
  if negb (healthy s) || negb (ts_fd s) then (false, s) else
  let '(ok, s) := flush_loop 8 s in
  if negb ok then (false, s) else
  (healthy s, if bool_decide (ts_valid s = 0)%nat then with_outbound (ts_outbound s) 0 0 s else s).

Section Receive.
Context {O : Type} (recv_callback : Z -> TCPSocket * O -> res (TCPSocket * O)).

(** The loop of [sendAndRecv]. *)
Fixpoint recv_loop (budget : nat) (got : bool) (st : TCPSocket * O) : res (bool * (TCPSocket * O)) :=
  match budget with
  | Datatypes.O => Ok (got, st)
  | Datatypes.S budget =>
      let '(s, o) := st in
      if negb (healthy s) then Ok (got, st) else
      if bool_decide (length (ts_inbound s) = ts_capacity s) then Ok (got, st) else
      match tk_recv kernel (ts_calls s) (ts_capacity s - length (ts_inbound s)) with
      | Received [] _ | RecvEnd => Ok (got, (with_state PeerClosed (ts_last_error s) (called s), o))
      | Received bytes time =>
          st ← recv_callback time (received bytes time (called s), o);
          recv_loop budget true st
      | RecvIntr => recv_loop budget got (called s, o)
      | RecvWouldBlock => Ok (got, (called s, o))
      | RecvError errno => Ok (got, (with_state Error errno (called s), o))
      end
  end.

Definition sendAndRecv (st : TCPSocket * O) : res (bool * (TCPSocket * O)) :=
  let '(s, o) := st in
  let '(ok, s) := flushSend s in
  if negb ok then Ok (false, (s, o)) else
  st ← (if negb (bool_decide (length (ts_inbound s) = 0)%nat)
        then recv_callback (ts_last_receive s) (s, o) else Ok (s, o));
  recv_loop 8 false st.

End Receive.
End Io.
End TCPSocket.

(** ** Invariant *)
Record tcp_ok (s : TCPSocket) : Prop := {
  tk_outbound : (ts_begin s + ts_valid s <= length (ts_outbound s))%nat;
  tk_inbound : (length (ts_inbound s) <= ts_capacity s)%nat
}.

(** Every byte accepted so far: taken by the kernel, or waiting. *)
Definition accepted_bytes (s : TCPSocket) : list Z := ts_wire s ++ TCPSocket.unsent s.

(** Steps that neither accept nor consume bytes, nor reopen the connection. *)
Record quiet (s s' : TCPSocket) : Prop := {
  qu_inbound : ts_inbound s' = ts_inbound s;
  qu_stream : ts_stream s' = ts_stream s;
  qu_capacity : ts_capacity s' = ts_capacity s;
  qu_length : length (ts_outbound s') = length (ts_outbound s);
  qu_accepted : accepted_bytes s' = accepted_bytes s;
  qu_ok : tcp_ok s -> tcp_ok s';
  qu_healthy : TCPSocket.healthy s' = true -> TCPSocket.healthy s = true;
  qu_fd : ts_fd s' = ts_fd s
}.

Lemma quiet_refl s : quiet s s.
Proof. by constructor. Qed.

Lemma quiet_trans s1 s2 s3 : quiet s1 s2 -> quiet s2 s3 -> quiet s1 s3.
Proof. intros [????? H1 H2 ?] [????? H3 H4 ?]. constructor; try congruence; auto. Qed.

Lemma write_at_ok i data store :
  (i + length data <= length store)%nat ->
  exists store', write_at i data store = Ok store' /\ length store' = length store /\
    store' = take i store ++ data ++ drop (i + length data) store.
Proof.
  intros H. unfold write_at. rewrite bool_decide_eq_true_2 by done. eexists. split_and!; [done| |done].
  rewrite !length_app, length_take, length_drop. lia.
Qed.

Lemma length_unsent s : tcp_ok s -> length (TCPSocket.unsent s) = ts_valid s.
Proof. intros [H _]. unfold TCPSocket.unsent. rewrite length_take, length_drop. lia. Qed.

Lemma quiet_called s : quiet s (TCPSocket.called s).
Proof. constructor; try done. by intros []. Qed.

Lemma quiet_blocked s : quiet s (TCPSocket.blocked s).
Proof. constructor; try done. by intros []. Qed.

Lemma quiet_state s st e : st <> Open -> quiet s (TCPSocket.with_state st e s).
Proof.
  intros H. constructor; try done; [by intros []|]. unfold TCPSocket.healthy. cbn.
  by rewrite (bool_decide_eq_false_2 _ H).
Qed.

Lemma quiet_advance s n : tcp_ok s -> (n <= ts_valid s)%nat -> quiet s (TCPSocket.advance n s).
Proof.
  intros [Ho Hi] Hn. constructor; try done.
  - unfold accepted_bytes. cbn [TCPSocket.advance ts_wire]. rewrite <- app_assoc. f_equal.
    rewrite <- (take_drop n (TCPSocket.unsent s)) at 2. f_equal. unfold TCPSocket.unsent. cbn.
    rewrite skipn_firstn_comm, drop_drop. done.
  - intros _. constructor; cbn; lia.
Qed.

Lemma quiet_reset s : ts_valid s = 0%nat -> quiet s (TCPSocket.with_outbound (ts_outbound s) 0 0 s).
Proof.
  intros H. constructor; try done.
  - unfold accepted_bytes, TCPSocket.unsent. cbn. by rewrite H.
  - intros [_ Hi]. constructor; cbn; [lia|done].
Qed.

Section Kernel.
Context (kernel : TcpKernel) (Hk : kernel_ok kernel).

Lemma flush_loop_quiet budget s : tcp_ok s -> quiet s (TCPSocket.flush_loop kernel budget s).2.
Proof.
  revert s. induction budget as [|budget IH]; intros s Hok; cbn; [apply quiet_refl|].
  case_bool_decide; [apply quiet_refl|].
  pose proof (quiet_called s) as Hc. pose proof (qu_ok _ _ Hc Hok) as Hokc.
  destruct (tk_send kernel (ts_calls s) (ts_valid s)) as [[|n]| | |e] eqn:E; cbn [snd].
  - eapply quiet_trans; [exact Hc|by apply quiet_state].
  - assert (Ha : quiet (TCPSocket.called s) (TCPSocket.advance (S n) (TCPSocket.called s))).
    { apply quiet_advance; [done|]. by apply (ko_send _ Hk) in E. }
    eapply quiet_trans; [exact Hc|]. eapply quiet_trans; [exact Ha|]. apply IH. by apply (qu_ok _ _ Ha).
  - eapply quiet_trans; [exact Hc|by apply IH].
  - eapply quiet_trans; [exact Hc|apply quiet_blocked].
  - eapply quiet_trans; [exact Hc|by apply quiet_state].
Qed.

Lemma flushSend_quiet s : tcp_ok s -> quiet s (TCPSocket.flushSend kernel s).2.
Proof.
  intros Hok. unfold TCPSocket.flushSend. case_match; [apply quiet_refl|].
  pose proof (flush_loop_quiet 8 s Hok) as Hq.
  destruct (TCPSocket.flush_loop kernel 8 s) as [ok s1]. cbn [snd] in *.
  destruct ok; cbn [negb snd]; [|done]. case_bool_decide as Hv; cbn [snd]; [|done].
  eapply quiet_trans; [exact Hq|by apply quiet_reset].
Qed.

Lemma flush_loop_healthy budget s :
  (TCPSocket.flush_loop kernel budget s).1 = true ->
  TCPSocket.healthy (TCPSocket.flush_loop kernel budget s).2 = TCPSocket.healthy s.
Proof.
  revert s. induction budget as [|budget IH]; intros s; cbn; [done|].
  case_bool_decide; [done|].
  destruct (tk_send kernel (ts_calls s) (ts_valid s)) as [[|n]| | |e]; cbn; try done.
  - intros Hh. by rewrite IH.
  - intros Hh. by rewrite IH.
Qed.

Lemma flushSend_healthy s :
  (TCPSocket.flushSend kernel s).1 = true ->
  TCPSocket.healthy (TCPSocket.flushSend kernel s).2 = true /\ ts_fd s = true.
Proof.
  unfold TCPSocket.flushSend. destruct (TCPSocket.healthy s), (ts_fd s); cbn [negb orb fst]; try done.
  destruct (TCPSocket.flush_loop kernel 8 s) as [ok s1]. destruct ok; cbn [negb fst snd]; [|done].
  intros Hs. split; [|done]. by case_bool_decide.
Qed.

(** Induction over the polling of a socket: an invariant of the socket and
    of its owner's state. *)
Lemma sendAndRecv_rule {O} F (I : TCPSocket * O -> Prop) callback st :
  (forall s o, I (s, o) -> tcp_ok s) ->
  (forall s s' o, I (s, o) -> quiet s s' -> I (s', o)) ->
  (forall s o bytes t, I (s, o) -> Forall is_byte bytes -> (0 < length bytes)%nat ->
    (length (ts_inbound s) + length bytes <= ts_capacity s)%nat -> I (TCPSocket.received bytes t s, o)) ->
  (forall t s o, I (s, o) -> TCPSocket.healthy s = true -> ends F I (callback t (s, o))) ->
  I st -> ends F (λ r, I r.2) (TCPSocket.sendAndRecv kernel callback st).
Proof.
  intros Hok Hq Hr Hc HI.
  assert (Hloop : forall budget got st, I st ->
    ends F (λ r, I r.2) (TCPSocket.recv_loop kernel callback budget got st)).
  { induction budget as [|budget IH]; intros got [s o] Hst; [exact Hst|]. cbn [TCPSocket.recv_loop].
    destruct (TCPSocket.healthy s) eqn:Hh; cbn [negb]; [|exact Hst].
    case_bool_decide as Hfull; [exact Hst|].
    assert (Hst' : I (TCPSocket.called s, o)) by (eapply Hq; [exact Hst|apply quiet_called]).
    assert (Hend : forall st e, st <> Open -> I (TCPSocket.with_state st e (TCPSocket.called s), o)).
    { intros ???. eapply Hq; [exact Hst'|by apply quiet_state]. }
    destruct (tk_recv kernel (ts_calls s) (ts_capacity s - length (ts_inbound s))) as [[|b bytes] t| | | |e] eqn:E;
      cbn [ends snd]; try (by apply Hend); try done; [|by apply IH].
    apply (ko_recv _ Hk) in E as [[Hb1 Hb2] Hb3].
    apply (ends_bind I); [|intros; by apply IH]. apply Hc; [|exact Hh].
    apply Hr; [exact Hst'|done|done|]. cbn [TCPSocket.called ts_inbound ts_capacity].
    pose proof (tk_inbound _ (Hok _ _ Hst)). lia. }
  destruct st as [s o]. unfold TCPSocket.sendAndRecv.
  pose proof (flushSend_quiet s (Hok _ _ HI)) as Hf. pose proof (flushSend_healthy s) as Hh.
  destruct (TCPSocket.flushSend kernel s) as [ok s1]. cbn [fst snd] in *.
  assert (HI1 : I (s1, o)) by (eapply Hq; eauto).
  destruct ok; cbn [negb]; [|done].
  apply (ends_bind I); [|intros; by apply Hloop]. destruct (negb _); [|done].
  apply Hc; [done|by apply Hh].
Qed.

End Kernel.

(** Before it appends, [send] moves the unsent bytes to the front when the
    bytes at hand do not fit behind them. *)
Lemma make_room_ok (data : list Z) s :
  tcp_ok s -> (length (TCPSocket.unsent s) + length data <= length (ts_outbound s))%nat ->
  exists s1, (if bool_decide (length (ts_outbound s) < ts_begin s + ts_valid s + length data)%nat
      then TCPSocket.compact s else Ok s) = Ok s1 /\ ts_valid s1 = ts_valid s /\
    TCPSocket.unsent s1 = TCPSocket.unsent s /\ length (ts_outbound s1) = length (ts_outbound s) /\
    (ts_begin s1 + ts_valid s1 + length data <= length (ts_outbound s1))%nat /\
    s1 = TCPSocket.with_outbound (ts_outbound s1) (ts_begin s1) (ts_valid s1) s.
Proof.
  intros Hok Hfit. pose proof Hok as [Ho Hi]. pose proof (length_unsent s Hok) as Hu.
  case_bool_decide as Hb; [|exists s; split_and!; auto; [lia|by destruct s]].
  unfold TCPSocket.compact. rewrite bool_decide_eq_true_2 by done.
  destruct (write_at_ok 0 (TCPSocket.unsent s) (ts_outbound s)) as (st & -> & Hl & E); [lia|].
  cbn [mbind res_bind]. eexists. split; [done|]. cbn. split_and!; [done| |done|lia|done].
  rewrite E. change (take (ts_valid s) (TCPSocket.unsent s ++ drop (0 + length (TCPSocket.unsent s)) (ts_outbound s))
    = TCPSocket.unsent s). by apply take_app_length'.
Qed.

(** [send] appends all of its bytes or none. *)
Lemma tcp_send_ok data s :
  tcp_ok s -> exists r s', TCPSocket.send data s = Ok (r, s') /\ tcp_ok s' /\
    match r with
    | Accepted => accepted_bytes s' = accepted_bytes s ++ data /\ TCPSocket.healthy s = true /\
        (length (TCPSocket.unsent s) + length data <= length (ts_outbound s))%nat
    | Full => s' = s /\ TCPSocket.healthy s = true /\
        (length (ts_outbound s) < length (TCPSocket.unsent s) + length data)%nat
    | Invalid => s' = s /\ (TCPSocket.healthy s = false \/ data = [])
    end /\
    ts_inbound s' = ts_inbound s /\ ts_stream s' = ts_stream s /\ ts_state s' = ts_state s /\
    ts_capacity s' = ts_capacity s /\ length (ts_outbound s') = length (ts_outbound s).
Proof.
  intros Hok. pose proof Hok as [Ho Hi]. pose proof (length_unsent s Hok) as Hu. unfold TCPSocket.send.
  destruct (TCPSocket.healthy s) eqn:Hh; cbn [negb orb].
  2:{ exists Invalid, s. split_and!; auto. }
  case_bool_decide as Hd.
  { exists Invalid, s. split_and!; auto. right. by apply nil_length_inv. }
  case_bool_decide as Hf.
  { exists Full, s. split_and!; auto. lia. }
  destruct (make_room_ok data s) as (s1 & -> & Hv & Hun & Hl & Hroom & E1); [done|lia|].
  cbn [mbind res_bind].
  destruct (write_at_ok (ts_begin s1 + ts_valid s1) data (ts_outbound s1)) as (st & -> & Hls & E); [lia|].
  cbn [mbind res_bind]. exists Accepted. eexists. split; [done|].
  split_and!; try (rewrite E1; done); try done.
  - constructor; cbn; [lia|]. by rewrite E1.
  - unfold accepted_bytes. rewrite <- Hun. replace (ts_wire s) with (ts_wire s1) by (by rewrite E1).
    cbn [TCPSocket.with_outbound ts_wire]. rewrite <- app_assoc. f_equal.
    unfold TCPSocket.unsent. cbn. rewrite E, drop_app_le by (rewrite length_take; lia).
    rewrite skipn_firstn_comm. replace (ts_begin s1 + ts_valid s1 - ts_begin s1)%nat with (ts_valid s1) by lia.
    rewrite app_assoc. apply take_app_length'. rewrite length_app, length_take, length_drop. lia.
  - lia.
  - cbn. by rewrite Hls.
Qed.

(** ** Uses of a socket *)
Inductive TcpOp : Type :=
  | SendData (data : list Z)
  | FlushData
  | PollData (n : nat).   (* the callback deals with at most [n] bytes *)

Section Run.
Context (kernel : TcpKernel).

(** The socket, the bytes of the accepted sends, the bytes dealt with. *)
Definition tcp_step (st : TCPSocket * list Z * list Z) (op : TcpOp) : res (TCPSocket * list Z * list Z) :=
  let '(s, sent, dealt) := st in
  match op with
  | SendData data =>
      '(r, s) ← TCPSocket.send data s;
      Ok (s, if bool_decide (r = Accepted) then sent ++ data else sent, dealt)
  | FlushData => Ok ((TCPSocket.flushSend kernel s).2, sent, dealt)
  | PollData n =>
      '(_, (s, dealt)) ← TCPSocket.sendAndRecv kernel
        (λ _ '(s, dealt), Ok (TCPSocket.consume n s, dealt ++ take n (ts_inbound s))) (s, dealt);
      Ok (s, sent, dealt)
  end.

Record stream_ok (st : TCPSocket * list Z * list Z) : Prop := {
  so_ok : tcp_ok st.1.1;
  so_sent : accepted_bytes st.1.1 = st.1.2;
  so_received : ts_stream st.1.1 = st.2 ++ ts_inbound st.1.1
}.

Lemma stream_quiet s s' sent dealt : stream_ok (s, sent, dealt) -> quiet s s' -> stream_ok (s', sent, dealt).
Proof.
  intros [H1 H2 H3] Hq. cbn in *. destruct Hq as [Q1 Q2 Q3 Q4 Q5 Q6 Q7 Q8].
  constructor; cbn; [auto|congruence|congruence].
Qed.

Lemma tcp_step_ok st op : kernel_ok kernel -> stream_ok st -> always stream_ok (tcp_step st op).
Proof.
  intros Hk Hst. destruct st as [[s sent] dealt]. destruct op as [data| |n]; cbn [tcp_step].
  - destruct Hst as [H1 H2 H3]. cbn in *.
    destruct (tcp_send_ok data s H1) as (r & s' & -> & Hok & Hr & Hi & Hs & _). cbn.
    constructor; cbn; [done| |congruence]. destruct r; cbn.
    + destruct Hr as [-> _]. by rewrite H2.
    + by destruct Hr as [-> _].
    + by destruct Hr as [-> _].
  - cbn. eapply stream_quiet; [done|]. apply flushSend_quiet; [done|]. by destruct Hst.
  - apply (ends_bind (λ r, stream_ok (r.2.1, sent, r.2.2))); [|by intros (? & ? & ?)].
    eapply ends_mono; [apply (sendAndRecv_rule kernel Hk _ (λ p, stream_ok (p.1, sent, p.2)))|done].
    + by intros s1 o [].
    + intros s1 s2 o. apply stream_quiet.
    + intros s1 o bytes t [H1 H2 H3] _ _ Hl. cbn in *. constructor; cbn; [|done|].
      * destruct H1. constructor; cbn; [done|]. by rewrite length_app.
      * by rewrite H3, app_assoc.
    + intros t s1 o [H1 H2 H3] _. cbn in *. constructor; cbn; [|done|].
      * destruct H1. constructor; cbn; [done|]. rewrite length_drop. lia.
      * by rewrite H3, <- app_assoc, take_drop.
    + done.
Qed.
End Run.

(** C19: over any sequence of sends, flushes and polls, and any answers of the
    kernel (short writes, interruptions, full buffers, errors), no access is
    out of bounds; the bytes of the accepted sends are, in order, those that
    the kernel took followed by those still in the buffer; and the bytes that
    the kernel delivered are, in order, those that the callback dealt with
    followed by those kept. *)
Theorem tcp_stream_is_faithful kernel capacity s ops :
  kernel_ok kernel -> TCPSocket.make capacity = Ok s ->
  exists s' sent dealt,
    res_fold (tcp_step kernel) ops (TCPSocket.with_fd true s, [], []) = Ok (s', sent, dealt) /\
    sent = ts_wire s' ++ TCPSocket.unsent s' /\ ts_stream s' = dealt ++ ts_inbound s' /\
    (length (TCPSocket.unsent s') <= length (ts_outbound s'))%nat /\
    (length (ts_inbound s') <= ts_capacity s')%nat.
Proof.
  intros Hk Hm. apply bind_Ok in Hm as (? & Hc & [= <-]).
  destruct (proj1 (always_Ok stream_ok (res_fold (tcp_step kernel) ops
    (TCPSocket.with_fd true (mkTcp false (replicate capacity 0) 0 0 [] capacity Open 0 0 0 0 0 0 [] []), [], []))))
    as ([[s' sent] dealt] & E & [[Ho Hi] Hs Hr]).
  - apply ends_fold; [intros; by apply tcp_step_ok|]. constructor; [|done|done]. constructor; cbn; lia.
  - exists s', sent, dealt. cbn in *. split_and!; try done.
    rewrite length_unsent by done. lia.
Qed.

(** A kernel that takes three bytes at a time and delivers two. *)
Definition slow_kernel : TcpKernel := {|
  tk_send i len := if Nat.even i then Sent (Nat.min 3 len) else SendWouldBlock;
  tk_recv i space := if bool_decide (2 <= space)%nat then Received [7; 8] 100 else RecvWouldBlock
|}.

Lemma slow_kernel_ok : kernel_ok slow_kernel.
Proof.
  split; intros i n; cbn [slow_kernel tk_send tk_recv].
  - intros m. destruct (Nat.even i); [|done]. intros Hm. assert (m = Nat.min 3 n) by congruence. lia.
  - intros bytes t. case_bool_decide; intros [= <- <-]. cbn. split; [lia|].
    repeat constructor; lia.
Qed.

Lemma tcp_stream_is_faithful_witness :
  let ops := [SendData [1; 2; 3; 4]; FlushData; SendData [5; 6; 9; 9]; SendData [5]; PollData 1] in
  exists s s' sent dealt, TCPSocket.make 5 = Ok s /\
    res_fold (tcp_step slow_kernel) ops (TCPSocket.with_fd true s, [], []) = Ok (s', sent, dealt) /\
    sent = [1; 2; 3; 4; 5; 6; 9; 9] /\ ts_stream s' = dealt ++ ts_inbound s'.
Proof.
  cbv zeta. set (ops := [SendData [1; 2; 3; 4]; FlushData; SendData [5; 6; 9; 9]; SendData [5]; PollData 1]).
  destruct (TCPSocket.make 5) as [s|] eqn:Em; [|by vm_compute in Em].
  destruct (tcp_stream_is_faithful slow_kernel 5 s ops slow_kernel_ok Em) as (s' & sent & dealt & E & H1 & H2 & _).
  exists s, s', sent, dealt. split_and!; [done|done| |done].
  vm_compute in Em. injection Em as <-. vm_compute in E. injection E as _ <- _. reflexivity.
Defined.

(** A kernel that takes everything and delivers the given bytes at the given
    calls. *)
Definition scripted_kernel (script : list (nat * list Z)) : TcpKernel := {|
  tk_send i len := Sent len;
  tk_recv i space :=
    match snd <$> list_find (λ p, p.1 = i) script with
    | Some (_, bytes) =>
        if bool_decide (0 < length bytes <= space)%nat then Received bytes (Z.of_nat i) else RecvWouldBlock
    | None => RecvWouldBlock
    end
|}.

Lemma scripted_kernel_ok script : Forall (λ p, Forall is_byte p.2) script -> kernel_ok (scripted_kernel script).
Proof.
  intros H. split; intros i n; cbn [scripted_kernel tk_send tk_recv].
  - by intros m [= <-].
  - intros bytes t. destruct (list_find _ script) as [[j [k bs]]|] eqn:E; cbn; [|done].
    case_bool_decide as Hb; [|done]. intros [= <- _]. split; [done|].
    apply list_find_Some in E as [E _]. exact (Forall_lookup_1 _ _ _ _ H E).
Qed.
