(* ===== verification/OrderGateway.v ===== *)
(** The client's end of an order session: trading/order_gw/order_gateway.{h,cpp}.

    The state is the connection and the rest of the gateway, as the polling of
    the connection needs it.  The trade engine fills the request queue and
    drains the response queue between two iterations of the network thread;
    the monotonic clock is read once per iteration. *)
From S2P Require Import Prelude.
From S2P Require Import Types.
From S2P Require Import Wire.
From S2P Require Import LFQueue.
From S2P Require Import TcpSocket.
From stdpp Require Import base list.
From Stdlib Require Import ZArith Lia.

Local Open Scope Z_scope.

Record OrderGateway : Type := mkGateway {
  og_client_id : Z;
  og_session_epoch : Z;
  og_session_healthy : bool;
  og_requests : LFQueue MEClientRequest;      (* outgoing_requests_ *)
  og_responses : LFQueue MEClientResponse;    (* incoming_responses_ *)
  og_run : bool;
  og_next_outgoing : Z;
  og_next_exp : Z;
  og_pending : Z;
  og_last_receive : Z;
  og_stop_deadline : Z
}.

Module OrderGateway.

Definition with_requests (q : LFQueue MEClientRequest) (g : OrderGateway) : OrderGateway :=
  mkGateway (og_client_id g) (og_session_epoch g) (og_session_healthy g) q (og_responses g) (og_run g)
    (og_next_outgoing g) (og_next_exp g) (og_pending g) (og_last_receive g) (og_stop_deadline g).
Definition with_responses (q : LFQueue MEClientResponse) (g : OrderGateway) : OrderGateway :=
  mkGateway (og_client_id g) (og_session_epoch g) (og_session_healthy g) (og_requests g) q (og_run g)
    (og_next_outgoing g) (og_next_exp g) (og_pending g) (og_last_receive g) (og_stop_deadline g).
Definition with_health (b : bool) (g : OrderGateway) : OrderGateway :=
  mkGateway (og_client_id g) (og_session_epoch g) b (og_requests g) (og_responses g) (og_run g)
    (og_next_outgoing g) (og_next_exp g) (og_pending g) (og_last_receive g) (og_stop_deadline g).
Definition with_run (b : bool) (deadline : Z) (g : OrderGateway) : OrderGateway :=
  mkGateway (og_client_id g) (og_session_epoch g) (og_session_healthy g) (og_requests g)
    (og_responses g) b (og_next_outgoing g) (og_next_exp g) (og_pending g) (og_last_receive g) deadline.

Definition INT64_MAX : Z := 2 ^ 63 - 1.

(** The constructor; the epoch is the time of the start. *)
Definition make (client_id epoch : Z) (requests : LFQueue MEClientRequest)
    (responses : LFQueue MEClientResponse) : OrderGateway :=
  mkGateway client_id epoch true requests responses false 1 1 0 0 INT64_MAX.

(** [start]: the connection could be opened. *)
Definition start (created : bool) (errno : Z) (st : TCPSocket * OrderGateway) :
    res (TCPSocket * OrderGateway) :=
  let '(s, g) := st in
  let '(ok, s) := TCPSocket.connect created errno s in
  _ ← ASSERT ok;
  Ok (s, with_run true (og_stop_deadline g) g).

Definition stop (now : Z) (g : OrderGateway) : OrderGateway := with_run false (now + 5 * 1000000000) g.

(** The session is uncertain, the connection given up. *)
Definition broken (st : TCPSocket * OrderGateway) : TCPSocket * OrderGateway :=
  (TCPSocket.with_state Error (ts_last_error st.1) st.1, with_health false st.2).

Definition illegal (r : MEClientResponse) : bool :=
  (ClientResponseType_to_Z (rs_type r) <? ClientResponseType_to_Z ACCEPTED)
  || (ClientResponseType_to_Z STATE <? ClientResponseType_to_Z (rs_type r))
  || (bool_decide (rs_type r = FILLED)
      && ((ME_MAX_TICKERS <=? rs_ticker_id r) || negb (is_buy_or_sell (rs_side r))
          || (rs_exec_qty r =? 0) || (rs_response_id r =? 0) || (INT32_MAX <? rs_exec_qty r)
          || (rs_price r <=? 0) || (rs_price r =? Price_INVALID))).

(** Rejections that close the sending gate. *)
Definition session_reject (reason : RejectReason) : bool :=
  bool_decide (reason = IDENTITY) || bool_decide (reason = SEQUENCE) || bool_decide (reason = SESSION)
  || bool_decide (reason = VERSION).

(** A response was pushed. *)
Definition delivered (now : Z) (r : MEClientResponse) (g : OrderGateway) : OrderGateway :=
  mkGateway (og_client_id g) (og_session_epoch g)
    (og_session_healthy g && negb (session_reject (rs_reject_reason r))) (og_requests g)
    (og_responses g) (og_run g) (og_next_outgoing g) (u64 (og_next_exp g + 1))
    (if negb (bool_decide (rs_type r = FILLED)) && negb (og_pending g =? 0)
     then og_pending g - 1 else og_pending g) now (og_stop_deadline g).

(** The loop of [recvCallback]; the number of bytes dealt with. *)
Fixpoint recv_frames (fuel : nat) (now : Z) (consumed : nat) (bytes : list Z)
    (st : TCPSocket * OrderGateway) : res (nat * (TCPSocket * OrderGateway)) :=
  if bool_decide (length bytes < ResponseSize)%nat then Ok (consumed, st) else
  match fuel with
  | O => Err NoFuel
  | S fuel =>
      let '(s, g) := st in
      '(ok, response) ← decode_response bytes default_OMClientResponse;
      if negb ok || negb (omrs_session_epoch response =? og_session_epoch g)
         || negb (rs_client_id (omrs_response response) =? og_client_id g)
      then Ok (consumed, broken st) else
      if omrs_seq_num response <? og_next_exp g
      then recv_frames fuel now (consumed + ResponseSize) (drop ResponseSize bytes) st else
      if negb (omrs_seq_num response =? og_next_exp g) then Ok (consumed, broken st) else
      let r := omrs_response response in
      if illegal r then Ok (consumed, broken st) else
      '(pushed, q) ← try_push r (og_responses g);
      let g := with_responses q g in
      if pushed : bool then
        recv_frames fuel now (consumed + ResponseSize) (drop ResponseSize bytes) (s, delivered now r g)
      else Ok (consumed, (s, g))
  end.

Definition recvCallback (now rx_time : Z) (st : TCPSocket * OrderGateway) :
    res (TCPSocket * OrderGateway) :=
  let bytes := ts_inbound st.1 in
  '(consumed, (s, g)) ← recv_frames (length bytes) now 0 bytes st;
  Ok (TCPSocket.consume consumed s, g).

(** A request went into the send buffer. *)
Definition sent (q : LFQueue MEClientRequest) (g : OrderGateway) : OrderGateway :=
  mkGateway (og_client_id g) (og_session_epoch g) (og_session_healthy g) q (og_responses g) (og_run g)
    (u64 (og_next_outgoing g + 1)) (og_next_exp g) (u64 (og_pending g + 1)) (og_last_receive g)
    (og_stop_deadline g).

Definition frame (r : MEClientRequest) (g : OrderGateway) : list Z :=
  encode_request (mkOMRequest (og_next_outgoing g) r (og_session_epoch g)).

(** The loop over the request queue. *)
Fixpoint send_requests (fuel : nat) (st : TCPSocket * OrderGateway) : res (TCPSocket * OrderGateway) :=
  let '(s, g) := st in
  head ← peek (og_requests g);
  match head, fuel with
  | None, _ => Ok st
  | Some _, O => Err NoFuel
  | Some r, S fuel =>
      '(status, s) ← TCPSocket.send (frame r g) s;
      if bool_decide (status = Full) then Ok (s, g) else
      _ ← ASSERT (bool_decide (status = Accepted));
      q ← pop (og_requests g);
      send_requests fuel (s, sent q g)
  end.

(** The condition of the loop of [run]. *)
Definition goes_on (now : Z) (st : TCPSocket * OrderGateway) : res bool :=
  let '(s, g) := st in
  head ← peek (og_requests g);
  Ok (og_run g || bool_decide (is_Some head) || negb (bool_decide (TCPSocket.pending_bytes s = 0%nat))
      || negb (og_pending g =? 0) || (now - og_last_receive g <? 50 * 1000000)).

(** The body of the loop; [false]: the loop is left. *)
Definition run_iteration (kernel : TcpKernel) (now : Z) (st : TCPSocket * OrderGateway) :
    res (bool * (TCPSocket * OrderGateway)) :=
  let '(s, g) := st in
  if negb (og_run g) && (og_stop_deadline g <? now) then Ok (false, (s, with_health false g)) else
  '(_, (s, g)) ← TCPSocket.sendAndRecv kernel (recvCallback now) (s, g);
  if negb (TCPSocket.healthy s) || negb (og_session_healthy g)
  then Ok (false, (s, with_run false (og_stop_deadline g) (with_health false g))) else
  st ← send_requests (Z.to_nat (queue_size (og_requests g))) (s, g);
  Ok (true, st).

End OrderGateway.
