(* ===== verification/GatewayTheorems.v ===== *)
(** The session as the gateway keeps it: requests go out numbered, responses
    come in by number. *)
From S2P Require Import Prelude.
From S2P Require Import Types.
From S2P Require Import Wire.
From S2P Require Import LFQueue.
From S2P Require Import TcpSocket.
From S2P Require Import OrderGateway.
From stdpp Require Import base list.
From Stdlib Require Import ZArith Lia.

Local Open Scope Z_scope.

(** The frames with the numbers [next], [next + 1], ...: what is left of a
    stream when the others are skipped. *)
Fixpoint in_sequence (next : Z) (frames : list OMClientResponse) : list OMClientResponse :=
  match frames with
  | [] => []
  | f :: frames =>
      if omrs_seq_num f =? next then f :: in_sequence (u64 (next + 1)) frames
      else in_sequence next frames
  end.

Definition numbered (epoch : Z) (sent : list MEClientRequest) : list OMClientRequest :=
  imap (λ i r, mkOMRequest (u64 (Z.of_nat i + 1)) r epoch) sent.

Definition request_bytes (l : list OMClientRequest) : list Z := mjoin (encode_request <$> l).
Definition response_bytes (l : list OMClientResponse) : list Z := mjoin (encode_response <$> l).

Definition after (next : Z) (n : nat) : Z := u64 (next + Z.of_nat n).

Lemma is_u64_u64 z : is_u64 (u64 z).
Proof. unfold is_u64, u64. apply Z.mod_pos_bound. lia. Qed.

Lemma after_S next n : after (u64 (next + 1)) n = after next (S n).
Proof. unfold after, u64. rewrite Zplus_mod_idemp_l. f_equal. lia. Qed.

Lemma after_add next n : u64 (after next n + 1) = after next (S n).
Proof. unfold after, u64. rewrite Zplus_mod_idemp_l. f_equal. lia. Qed.

Lemma in_sequence_snoc frames f next :
  is_u64 next ->
  in_sequence next (frames ++ [f])
  = in_sequence next frames
    ++ (if omrs_seq_num f =? after next (length (in_sequence next frames)) then [f] else []).
Proof.
  revert next. induction frames as [|x frames IH]; intros next Hn; cbn [in_sequence app].
  - unfold after. cbn [length]. rewrite Z.add_0_r, u64_small by done. by case_match.
  - assert (Hu : is_u64 (u64 (next + 1))) by apply is_u64_u64.
    case_match; [|by apply IH]. cbn [app length]. f_equal. rewrite IH by done. by rewrite after_S.
Qed.

Lemma in_sequence_numbers frames next :
  is_u64 next ->
  omrs_seq_num <$> in_sequence next frames = (after next) <$> seq 0 (length (in_sequence next frames)).
Proof.
  revert next. induction frames as [|x frames IH]; intros next Hn; cbn [in_sequence]; [done|].
  destruct (Z.eqb_spec (omrs_seq_num x) next) as [E|]; [|by apply IH]. cbn [length seq fmap list_fmap].
  f_equal.
  - unfold after. by rewrite Z.add_0_r, u64_small.
  - rewrite IH by apply is_u64_u64. rewrite <- fmap_S_seq, <- list_fmap_compose.
    apply list_fmap_ext. intros ???. apply after_S.
Qed.

Lemma response_bytes_snoc l f : response_bytes (l ++ [f]) = response_bytes l ++ encode_response f.
Proof. unfold response_bytes. rewrite fmap_app. apply mjoin_snoc. Qed.

Lemma request_bytes_snoc l f : request_bytes (l ++ [f]) = request_bytes l ++ encode_request f.
Proof. unfold request_bytes. rewrite fmap_app. apply mjoin_snoc. Qed.

Lemma numbered_snoc epoch l r :
  numbered epoch (l ++ [r]) = numbered epoch l ++ [mkOMRequest (after 1 (length l)) r epoch].
Proof. unfold numbered, after. rewrite imap_app. cbn. do 2 f_equal. rewrite Nat.add_0_r. by rewrite Z.add_comm. Qed.

(** ** Reception *)
Definition own (g : OrderGateway) (f : OMClientResponse) : Prop :=
  omrs_session_epoch f = og_session_epoch g /\ rs_client_id (omrs_response f) = og_client_id g /\ om_response_wf f.

(** After the frames [frames]. *)
Record recv_ok (frames : list OMClientResponse) (popped : list MEClientResponse) (g : OrderGateway) : Prop := {
  ro_queue : exists l, queue_ok (og_responses g) l /\ popped ++ l = omrs_response <$> in_sequence 1 frames;
  ro_next : og_next_exp g = after 1 (length (in_sequence 1 frames));
  ro_own : Forall (own g) frames;
  ro_legal : Forall (λ f, OrderGateway.illegal (omrs_response f) = false) (in_sequence 1 frames)
}.

(** What reception leaves alone. *)
Record sending_same (g g' : OrderGateway) : Prop := {
  ss_client : og_client_id g' = og_client_id g;
  ss_epoch : og_session_epoch g' = og_session_epoch g;
  ss_requests : og_requests g' = og_requests g;
  ss_next : og_next_outgoing g' = og_next_outgoing g
}.

Lemma sending_refl g : sending_same g g.
Proof. done. Qed.

Lemma sending_trans g1 g2 g3 : sending_same g1 g2 -> sending_same g2 g3 -> sending_same g1 g3.
Proof. intros [] []. constructor; congruence. Qed.

Lemma recv_health frames popped g b : recv_ok frames popped g -> recv_ok frames popped (OrderGateway.with_health b g).
Proof. by intros []. Qed.

Lemma one_more frames popped g f :
  recv_ok frames popped g -> own g f -> omrs_seq_num f <> og_next_exp g ->
  recv_ok (frames ++ [f]) popped g.
Proof.
  intros [H1 H2 H3 H4] Hf Hn.
  assert (E : in_sequence 1 (frames ++ [f]) = in_sequence 1 frames).
  { rewrite in_sequence_snoc by done. rewrite <- H2. apply Z.eqb_neq in Hn. by rewrite Hn, app_nil_r. }
  constructor; rewrite ?E; try done. apply Forall_app. by split; [|apply Forall_singleton].
Qed.

Lemma one_delivered frames popped g f now q :
  recv_ok frames popped g -> own g f -> omrs_seq_num f = og_next_exp g ->
  OrderGateway.illegal (omrs_response f) = false ->
  (forall l, queue_ok (og_responses g) l -> queue_ok q (l ++ [omrs_response f])) ->
  recv_ok (frames ++ [f]) popped
    (OrderGateway.delivered now (omrs_response f) (OrderGateway.with_responses q g)).
Proof.
  intros [(l & Hl & Hp) H2 H3 H4] Hf Hn Hi Hq.
  assert (E : in_sequence 1 (frames ++ [f]) = in_sequence 1 frames ++ [f]).
  { rewrite in_sequence_snoc by done. rewrite <- H2. apply Z.eqb_eq in Hn. by rewrite Hn. }
  constructor; rewrite ?E; cbn.
  - exists (l ++ [omrs_response f]). split; [by apply Hq|]. by rewrite fmap_app, app_assoc, Hp.
  - rewrite H2, after_add, length_app. cbn. by rewrite Nat.add_comm.
  - apply Forall_app. by split; [|apply Forall_singleton].
  - apply Forall_app. by split; [|apply Forall_singleton].
Qed.

(** The socket after reception: possibly given up. *)
Definition same_socket (s s' : TCPSocket) : Prop :=
  s' = s \/ s' = TCPSocket.with_state Error (ts_last_error s) s.

Lemma recv_frames_ok fuel now frames popped consumed bytes s g :
  (length bytes <= fuel)%nat -> Forall is_byte bytes -> recv_ok frames popped g ->
  always (λ '(n, (s', g')), exists fs, bytes = response_bytes fs ++ drop (n - consumed) bytes /\
      (consumed <= n)%nat /\ recv_ok (frames ++ fs) popped g' /\ same_socket s s' /\ sending_same g g')
    (OrderGateway.recv_frames fuel now consumed bytes (s, g)).
Proof.
  revert frames consumed bytes g. induction fuel as [|fuel IH]; intros frames consumed bytes g Hlen Hb Hok;
    cbn [OrderGateway.recv_frames].
  { rewrite bool_decide_eq_true_2 by (unfold ResponseSize; lia). cbn. exists []. rewrite app_nil_r, Nat.sub_diag.
    split_and!; [done|lia|done|by left|done]. }
  assert (Hstop : forall s' g', recv_ok frames popped g' -> same_socket s s' -> sending_same g g' ->
    exists fs, bytes = response_bytes fs ++ drop (consumed - consumed) bytes /\
      (consumed <= consumed)%nat /\ recv_ok (frames ++ fs) popped g' /\ same_socket s s' /\ sending_same g g').
  { intros s' g' H1 H2 H3. exists []. rewrite app_nil_r, Nat.sub_diag. by split_and!. }
  case_bool_decide as Hsz; [cbn; apply Hstop; [done|by left|done]|].
  destruct (decode_response_total bytes default_OMClientResponse) as (ok & f & Hd); [lia|].
  rewrite Hd. cbn [mbind res_bind].
  assert (Hbroken : exists fs, bytes = response_bytes fs ++ drop (consumed - consumed) bytes /\
      (consumed <= consumed)%nat /\ recv_ok (frames ++ fs) popped (OrderGateway.with_health false g) /\
      same_socket s (TCPSocket.with_state Error (ts_last_error s) s) /\
      sending_same g (OrderGateway.with_health false g)).
  { apply Hstop; [by apply recv_health|by right|done]. }
  destruct (negb ok || _ || _) eqn:Eo; [exact Hbroken|].
  apply orb_false_iff in Eo as [[Eo1 Eo2]%orb_false_iff Eo3].
  apply negb_false_iff in Eo1 as ->. apply negb_false_iff, Z.eqb_eq in Eo2, Eo3.
  apply decode_response_inv in Hd as [Hwf Hbs]; [|done].
  assert (Hnext : forall g', recv_ok (frames ++ [f]) popped g' -> sending_same g g' ->
    always (λ '(n, (s', g'')), exists fs, bytes = response_bytes fs ++ drop (n - consumed) bytes /\
      (consumed <= n)%nat /\ recv_ok (frames ++ fs) popped g'' /\ same_socket s s' /\ sending_same g g'')
    (OrderGateway.recv_frames fuel now (consumed + ResponseSize) (drop ResponseSize bytes) (s, g'))).
  { intros g' Hok' Hs'. eapply ends_mono.
    - apply (IH (frames ++ [f])); [rewrite length_drop; unfold ResponseSize in *; lia|by apply Forall_drop|done].
    - intros [n [s' g'']] (fs & E & Hn & H1 & H2 & H3). exists (f :: fs).
      rewrite drop_drop in E. rewrite <- app_assoc in H1. cbn in H1.
      split_and!; [|lia|done|done|by eapply sending_trans].
      replace (n - consumed)%nat with (ResponseSize + (n - (consumed + ResponseSize)))%nat by lia.
      rewrite Hbs at 1. rewrite E at 1.
      change (response_bytes (f :: fs)) with (encode_response f ++ response_bytes fs). by rewrite <- app_assoc. }
  destruct (Z.ltb_spec (omrs_seq_num f) (og_next_exp g)).
  { apply Hnext; [|done]. apply one_more; [done|done|lia]. }
  destruct (Z.eqb_spec (omrs_seq_num f) (og_next_exp g)); cbn [negb]; [|exact Hbroken].
  destruct (OrderGateway.illegal (omrs_response f)) eqn:Ei; [exact Hbroken|].
  destruct (ro_queue _ _ _ Hok) as (l & Hl & Hp). pose proof (try_push_ok _ _ (omrs_response f) Hl) as Ht.
  destruct (_ =? _).
  - destruct Ht as [-> Hq]. cbn. apply Hstop; [|by left|done].
    destruct Hok as [_ H2 H3 H4]. constructor; cbn; try done. by exists l.
  - destruct Ht as (q & -> & Hq & _). cbn [mbind res_bind]. apply Hnext; [|done].
    apply one_delivered; try done. intros l' Hl'. by rewrite (queue_contents_unique _ _ _ Hl' Hl).
Qed.

(** ** The invariant of the gateway *)
Record gw_ok (client epoch : Z) (submitted : list MEClientRequest) (popped : list MEClientResponse)
    (st : TCPSocket * OrderGateway) : Prop := {
  gw_identity : og_client_id st.2 = client /\ og_session_epoch st.2 = epoch;
  gw_socket : tcp_ok st.1;
  gw_bytes : Forall is_byte (ts_inbound st.1);
  gw_sent : exists sent waiting, queue_ok (og_requests st.2) waiting /\ submitted = sent ++ waiting /\
    accepted_bytes st.1 = request_bytes (numbered epoch sent) /\
    og_next_outgoing st.2 = after 1 (length sent);
  gw_received : exists frames, ts_stream st.1 = response_bytes frames ++ ts_inbound st.1 /\
    recv_ok frames popped st.2
}.

Section Steps.
Context (kernel : TcpKernel) (Hk : kernel_ok kernel).
Context (client epoch : Z) (submitted : list MEClientRequest) (popped : list MEClientResponse).
Notation ok := (gw_ok client epoch submitted popped).

Lemma gw_quiet s s' g : ok (s, g) -> quiet s s' -> ok (s', g).
Proof.
  intros [H0 H1 H2 H3 H4] Hq. cbn in *. destruct Hq as [Q1 Q2 Q3 Q4 Q5 Q6 Q7 Q8]. constructor; cbn.
  - done.
  - auto.
  - by rewrite Q1.
  - by rewrite Q5.
  - by rewrite Q1, Q2.
Qed.

Lemma gw_same s g g' : ok (s, g) -> sending_same g g' ->
  (forall frames, recv_ok frames popped g -> recv_ok frames popped g') -> ok (s, g').
Proof.
  intros [H0 H1 H2 H3 (frames & H4 & H5)] [S1 S2 S3 S4] Hr. cbn in *. constructor; cbn; [by rewrite S1, S2|done|done| |eauto].
  by rewrite S3, S4.
Qed.

Lemma gw_health s g b : ok (s, g) -> ok (s, OrderGateway.with_health b g).
Proof. intros H. apply (gw_same s g); [done|done|]. intros. by apply recv_health. Qed.

Lemma gw_run s g b d : ok (s, g) -> ok (s, OrderGateway.with_run b d g).
Proof. intros H. apply (gw_same s g); [done|done|]. by intros ? []. Qed.

Lemma recvCallback_ok now t s g : ok (s, g) -> always ok (OrderGateway.recvCallback now t (s, g)).
Proof.
  intros [H0 H1 H2 H3 (frames & H4 & H5)]. unfold OrderGateway.recvCallback. cbn [fst snd] in *.
  eapply ends_bind; [by apply recv_frames_ok with (frames := frames) (popped := popped)|].
  intros [n [s' g']] (fs & E & _ & Hr & Hs & [S1 S2 S3 S4]). cbn. rewrite Nat.sub_0_r in E.
  assert (Hq : quiet s s') by (destruct Hs as [->| ->]; [apply quiet_refl|by apply quiet_state]).
  destruct Hq as [Q1 Q2 Q3 Q4 Q5 Q6 Q7 Q8]. constructor; cbn.
  - by rewrite S1, S2.
  - destruct (Q6 H1) as [A B]. constructor; cbn; [exact A|]. rewrite length_drop. lia.
  - rewrite Q1. by apply Forall_drop.
  - rewrite S3, S4. destruct H3 as (sent & waiting & ? & ? & Hb & ?). exists sent, waiting.
    split_and!; [done|done| |done]. etransitivity; [exact Q5|exact Hb].
  - exists (frames ++ fs). split; [|done]. rewrite Q1, Q2, H4. rewrite E at 1.
    unfold response_bytes. by rewrite fmap_app, join_app, app_assoc.
Qed.

Lemma poll_gateway_ok now st :
  ok st -> always (λ r, ok r.2) (TCPSocket.sendAndRecv kernel (OrderGateway.recvCallback now) st).
Proof.
  intros Hst. apply (sendAndRecv_rule kernel Hk); [| | | |done].
  - by intros s o [].
  - intros s s' o. apply gw_quiet.
  - intros s g bytes t [H0 H1 H2 H3 (frames & H4 & H5)] Hb _ Hl. cbn in *. constructor; cbn.
    + done.
    + destruct H1. constructor; cbn; [done|]. by rewrite length_app.
    + by apply Forall_app.
    + done.
    + exists frames. split; [|done]. by rewrite H4, app_assoc.
  - intros t s g Hok _. by apply recvCallback_ok.
Qed.

Lemma encode_request_length m : length (encode_request m) = 50%nat.
Proof. apply encode_request_size. Qed.

Lemma send_requests_ok fuel s g waiting :
  ok (s, g) -> TCPSocket.healthy s = true -> queue_ok (og_requests g) waiting ->
  (length waiting <= fuel)%nat ->
  always ok (OrderGateway.send_requests fuel (s, g)).
Proof.
  revert s g waiting. induction fuel as [|fuel IH]; intros s g waiting Hok Hh Hq Hf;
    cbn [OrderGateway.send_requests]; rewrite (peek_ok _ _ Hq); cbn [mbind res_bind].
  { destruct waiting; [done|cbn in Hf; lia]. }
  destruct waiting as [|r waiting]; cbn [head]; [done|].
  pose proof Hok as [[H0 H0'] H1 H2 (sent & w & Hw & Hsub & Hb & Hn) H4]. cbn [fst snd] in *.
  rewrite (queue_contents_unique _ _ _ Hw Hq) in *.
  destruct (tcp_send_ok (OrderGateway.frame r g) s H1) as (status & s' & -> & Hok' & Hs & Hi & Hst & Hstate & _).
  cbn [mbind res_bind]. destruct status.
  - cbn. destruct Hs as (Hs & _). pose proof (pop_ok _ _ Hq) as (q & -> & Hq' & _). cbn [mbind res_bind].
    apply (IH _ _ waiting); [| |exact Hq'|cbn in Hf; lia].
    + constructor; cbn; [done|done|by rewrite Hi| |].
      * exists (sent ++ [r]), waiting. split_and!; [done|by rewrite Hsub, <- app_assoc| |].
        -- rewrite Hs, Hb, numbered_snoc, request_bytes_snoc. unfold OrderGateway.frame. by rewrite Hn, H0'.
        -- rewrite Hn, after_add, length_app. cbn. by rewrite Nat.add_comm.
      * destruct H4 as (frames & Hf1 & [R1 R2 R3 R4]). exists frames. rewrite Hi, Hst. by split.
    + unfold TCPSocket.healthy in *. by rewrite Hstate.
  - cbn. destruct Hs as [-> _]. exact Hok.
  - destruct Hs as [_ [Hs|Hs]]; [congruence|]. apply (f_equal length) in Hs.
    unfold OrderGateway.frame in Hs. by rewrite encode_request_length in Hs.
Qed.

Lemma run_gateway_ok now st : ok st -> always (λ r, ok r.2) (OrderGateway.run_iteration kernel now st).
Proof.
  intros Hok. destruct st as [s g]. unfold OrderGateway.run_iteration. case_match; [by apply gw_health|].
  eapply ends_bind; [by apply poll_gateway_ok|]. intros [got [s1 g1]] Hok1. cbn [snd] in Hok1.
  destruct (TCPSocket.healthy s1) eqn:Hh; cbn [negb orb]; [|by apply gw_run, gw_health].
  destruct (og_session_healthy g1); cbn [negb]; [|by apply gw_run, gw_health].
  destruct (gw_sent _ _ _ _ _ Hok1) as (sent & waiting & Hw & _).
  eapply ends_bind; [|by intros st Hst]. apply (send_requests_ok _ _ _ waiting); [done..|].
  cbn in Hw. rewrite (queue_size_ok _ _ Hw). lia.
Qed.

End Steps.

(** ** Runs: the network thread, the trade engine, the request to stop *)
Inductive GatewayOp : Type :=
  | GatewayTurn (now : Z)
  | Submit (r : MEClientRequest)
  | TakeResponse
  | StopGateway (now : Z).

Record GatewayRun : Type := mkGatewayRun {
  gr_socket : TCPSocket;
  gr_gateway : OrderGateway;
  gr_running : bool;                       (* the thread is in its loop *)
  gr_submitted : list MEClientRequest;     (* pushed by the trade engine *)
  gr_popped : list MEClientResponse        (* popped by the trade engine *)
}.

Definition gateway_step (kernel : TcpKernel) (st : GatewayRun) (op : GatewayOp) : res GatewayRun :=
  let '(mkGatewayRun s g running submitted popped) := st in
  match op with
  | GatewayTurn now =>
      if negb running then Ok st else
      on ← OrderGateway.goes_on now (s, g);
      if negb on then Ok (mkGatewayRun s g false submitted popped) else
      '(on, (s, g)) ← OrderGateway.run_iteration kernel now (s, g);
      Ok (mkGatewayRun s g on submitted popped)
  | Submit r =>
      '(pushed, q) ← try_push r (og_requests g);
      Ok (mkGatewayRun s (OrderGateway.with_requests q g) running
            (if pushed : bool then submitted ++ [r] else submitted) popped)
  | TakeResponse =>
      '(r, q) ← try_pop (og_responses g);
      Ok (mkGatewayRun s (OrderGateway.with_responses q g) running submitted (popped ++ option_list r))
  | StopGateway now => Ok (mkGatewayRun s (OrderGateway.stop now g) running submitted popped)
  end.

Definition gr_ok (client epoch : Z) (st : GatewayRun) : Prop :=
  gw_ok client epoch (gr_submitted st) (gr_popped st) (gr_socket st, gr_gateway st).

Lemma gateway_step_ok kernel client epoch st op :
  kernel_ok kernel -> gr_ok client epoch st -> always (gr_ok client epoch) (gateway_step kernel st op).
Proof.
  intros Hk Hok. destruct st as [s g running submitted popped]. unfold gr_ok in Hok. cbn in Hok.
  pose proof Hok as [H0 H1 H2 (sent & waiting & Hw & Hsub & Hb & Hn) (frames & H4 & [(l & Hl & Hp) R2 R3 R4])].
  cbn [fst snd] in *. destruct op; cbn [gateway_step].
  - destruct running; cbn [negb]; [|exact Hok]. cbn [OrderGateway.goes_on]. rewrite (peek_ok _ _ Hw).
    cbn [mbind res_bind]. destruct (negb (_ || _)); [exact Hok|].
    eapply ends_bind; [by apply run_gateway_ok|]. intros [on [s' g']] Hst. exact Hst.
  - pose proof (try_push_ok _ _ r Hw) as Ht. destruct (_ =? _).
    + destruct Ht as [-> Hq]. unfold gr_ok. cbn. constructor; cbn; [done|done|done|eauto 10|].
      exists frames. split; [done|]. constructor; [eauto|done..].
    + destruct Ht as (q & -> & Hq & _). unfold gr_ok. cbn. constructor; cbn; [done|done|done| |].
      * exists sent, (waiting ++ [r]). rewrite Hsub, app_assoc. done.
      * exists frames. split; [done|]. constructor; [eauto|done..].
  - pose proof (try_pop_ok _ _ Hl) as Ht. destruct l as [|x l].
    + rewrite Ht. unfold gr_ok. cbn. rewrite app_nil_r. constructor; cbn; [done|done|done|eauto 10|].
      exists frames. split; [done|]. constructor; [eauto|done..].
    + destruct Ht as (q & -> & Hq & _). unfold gr_ok. cbn. constructor; cbn; [done|done|done|eauto 10|].
      exists frames. split; [done|]. constructor; cbn; [|done..]. exists l. by rewrite <- app_assoc.
  - unfold gr_ok. cbn. by apply gw_run.
Qed.

Definition gateway_start (capacity : nat) (client epoch : Z) (requests : LFQueue MEClientRequest)
    (responses : LFQueue MEClientResponse) : res GatewayRun :=
  s ← TCPSocket.make capacity;
  Ok (mkGatewayRun (TCPSocket.with_fd true s)
        (OrderGateway.with_run true OrderGateway.INT64_MAX (OrderGateway.make client epoch requests responses)) true [] []).

Lemma gateway_run_ok kernel ops st client epoch requests responses capacity :
  kernel_ok kernel -> gateway_start capacity client epoch requests responses = Ok st ->
  queue_ok requests [] -> queue_ok responses [] ->
  always (gr_ok client epoch) (res_fold (gateway_step kernel) ops st).
Proof.
  intros Hk Hm Hq1 Hq2. apply bind_Ok in Hm as (s & Hs & [= <-]). apply bind_Ok in Hs as (? & Hc & [= <-]).
  apply ends_fold; [intros; by apply gateway_step_ok|]. unfold gr_ok. cbn. constructor; cbn.
  - done.
  - constructor; cbn; lia.
  - constructor.
  - by exists [], [].
  - exists []. split; [done|]. constructor; cbn; [by exists []|done|constructor|constructor].
Qed.

(** C10: the gateway's side of an order session, for any bytes from the
    network and any interleaving with the trade engine.  It never fails; the
    requests go out in the order of their submission, encoded under the epoch
    with the numbers 1, 2, ... and the rest waits; and the responses handed
    to the trade engine are those of the frames received in sequence: the
    n-th has the number n, the client and the epoch of the session, and is
    legal. *)
Theorem gateway_keeps_session kernel ops s client epoch requests responses capacity :
  kernel_ok kernel -> TCPSocket.make capacity = Ok s -> queue_ok requests [] -> queue_ok responses [] ->
  let g := OrderGateway.with_run true OrderGateway.INT64_MAX
             (OrderGateway.make client epoch requests responses) in
  exists st sent waiting frames queued,
    res_fold (gateway_step kernel) ops (mkGatewayRun (TCPSocket.with_fd true s) g true [] []) = Ok st /\
    gr_submitted st = sent ++ waiting /\ queue_ok (og_requests (gr_gateway st)) waiting /\
    ts_wire (gr_socket st) ++ TCPSocket.unsent (gr_socket st) = request_bytes (numbered epoch sent) /\
    ts_stream (gr_socket st) = response_bytes frames ++ ts_inbound (gr_socket st) /\
    gr_popped st ++ queued = omrs_response <$> in_sequence 1 frames /\
    Forall (λ f, omrs_session_epoch f = epoch /\ rs_client_id (omrs_response f) = client) frames /\
    Forall (λ f, OrderGateway.illegal (omrs_response f) = false) (in_sequence 1 frames).
Proof.
  intros Hk Hm Hq1 Hq2 g.
  pose proof (gateway_run_ok kernel ops (mkGatewayRun (TCPSocket.with_fd true s) g true [] []) client epoch requests
    responses capacity Hk ltac:(unfold gateway_start; by rewrite Hm) Hq1 Hq2) as Hrun.
  destruct (proj1 (always_Ok (gr_ok client epoch) _) Hrun)
    as (st & E & [[Hcl He] H1 H2 (sent & waiting & Hw & Hs & Hb & _) (frames & Hf & [(l & Hl & Hp) _ R3 R4])]).
  cbn in *. exists st, sent, waiting, frames, l. split_and!; try done.
  eapply Forall_impl; [exact R3|]. unfold own. intros f (Ho1 & Ho2 & _). split; congruence.
Qed.

(** Two requests go out; the two responses arrive in three pieces, the first
    one twice. *)
Definition gateway_reply (n : Z) : list Z :=
  encode_response (mkOMResponse n (mkResponse ACCEPTED 3 0 n n BUY 100 0 5 NONE n 0) 77).
Definition gateway_demo_kernel : TcpKernel := scripted_kernel
  [(2%nat, gateway_reply 1 ++ gateway_reply 1); (3%nat, take 20 (gateway_reply 2)); (4%nat, drop 20 (gateway_reply 2))].
Definition gateway_demo_ops : list GatewayOp :=
  [Submit default_MEClientRequest; Submit default_MEClientRequest; GatewayTurn 5; GatewayTurn 6; TakeResponse].

Lemma gateway_keeps_session_witness :
  exists s q1 q2 st sent frames queued,
    TCPSocket.make 400 = Ok s /\ queue_new default_MEClientRequest 4 = Some q1 /\
    queue_new default_MEClientResponse 4 = Some q2 /\
    res_fold (gateway_step gateway_demo_kernel) gateway_demo_ops (mkGatewayRun (TCPSocket.with_fd true s)
      (OrderGateway.with_run true OrderGateway.INT64_MAX (OrderGateway.make 3 77 q1 q2)) true [] []) = Ok st /\
    ts_wire (gr_socket st) ++ TCPSocket.unsent (gr_socket st) = request_bytes (numbered 77 sent) /\
    og_next_outgoing (gr_gateway st) = 3 /\ og_next_exp (gr_gateway st) = 3 /\
    gr_popped st ++ queued = omrs_response <$> in_sequence 1 frames.
Proof.
  destruct (TCPSocket.make 400) as [s|] eqn:Em; [|by vm_compute in Em].
  destruct (queue_new default_MEClientRequest 4) as [q1|] eqn:E1; [|by vm_compute in E1].
  destruct (queue_new default_MEClientResponse 4) as [q2|] eqn:E2; [|by vm_compute in E2].
  destruct (gateway_keeps_session gateway_demo_kernel gateway_demo_ops s 3 77 q1 q2 400)
    as (st & sent & waiting & frames & queued & H1 & _ & _ & H2 & _ & H3 & _).
  - apply scripted_kernel_ok. unfold gateway_reply.
    apply Forall_cons; split; [|apply Forall_cons; split; [|apply Forall_cons; split; [|apply Forall_nil; exact I]]]; cbn [snd].
    + apply Forall_app; split; apply encode_response_bytes.
    + apply Forall_take, encode_response_bytes.
    + apply Forall_drop, encode_response_bytes.
  - exact Em.
  - by apply queue_new_ok in E1 as [? _].
  - by apply queue_new_ok in E2 as [? _].
  - exists s, q1, q2, st, sent, frames, queued. split_and!; try done;
      clear H2 H3; vm_compute in Em; injection Em as <-; vm_compute in E1; injection E1 as <-;
      vm_compute in E2; injection E2 as <-; vm_compute in H1; injection H1 as <-; reflexivity.
Defined.
