(* ===== verification/OrderServer.v ===== *)
(** The exchange's end of the order sessions: common/tcp_server.{h,cpp} and
    exchange/order_server/order_server.{h,cpp}.

    A connection is identified by its position in [receive_sockets_], from
    which nothing is ever removed.  The five arrays indexed by client are one
    list of [Session]s.  While a connection is polled its socket travels beside
    the server; the entry of the list is then out of date and not read.  The
    kernels of the connections, the results of [epoll_wait] and [accept] and the
    clocks are parameters. *)
From S2P Require Import Prelude.
From S2P Require Import Types.
From S2P Require Import Wire.
From S2P Require Import LFQueue.
From S2P Require Import Journal.
From S2P Require Import FIFOSequencer.
From S2P Require Import TcpSocket.
From stdpp Require Import base list gmap.
From Stdlib Require Import ZArith Lia.

Local Open Scope Z_scope.

(** What the arrays hold for one client. *)
Record Session : Type := mkSession {
  se_next_outgoing : Z;          (* cid_next_outgoing_seq_num_ *)
  se_next_exp : Z;               (* cid_next_exp_seq_num_ *)
  se_owner : option nat;         (* cid_tcp_socket_ *)
  se_epoch : Z;                  (* cid_session_epoch_ *)
  se_unknown : bool              (* cid_session_unknown_ *)
}.

Record OrderServer : Type := mkServer {
  os_sessions : list Session;
  os_anonymous : gmap nat Z;                 (* anonymous_sequences_ *)
  os_clients : gmap nat Z;                   (* socket_client_ *)
  os_accepted : Z;
  os_rejected : Z;
  os_sockets : list TCPSocket;               (* tcp_server_.receive_sockets_ *)
  os_sequencer : FIFOSequencer;
  os_requests : LFQueue MEClientRequest;     (* towards the matching engine *)
  os_responses : LFQueue MEClientResponse;   (* outgoing_responses_ *)
  os_audit : option CriticalJournal;
  os_accepting : bool;
  os_quiesced : bool;
  os_run : bool;
  os_stop_deadline : Z;
  os_listener : bool                         (* the listener is in receive_sockets_ *)
}.

(** What [epoll_wait] reports: the listener is readable, or has only failed
    ([EPOLLERR], [EPOLLHUP]); or something about a registered connection, which is
    in the list already and changes nothing. *)
Inductive PollEvent : Type :=
  | ListenerReady
  | ListenerFailed
  | ConnectionReady (id : nat).

Module OrderServer.

Definition with_sessions (l : list Session) (s : OrderServer) : OrderServer :=
  mkServer l (os_anonymous s) (os_clients s) (os_accepted s) (os_rejected s) (os_sockets s)
    (os_sequencer s) (os_requests s) (os_responses s) (os_audit s) (os_accepting s) (os_quiesced s)
    (os_run s) (os_stop_deadline s) (os_listener s).
Definition with_anonymous (m : gmap nat Z) (s : OrderServer) : OrderServer :=
  mkServer (os_sessions s) m (os_clients s) (os_accepted s) (os_rejected s) (os_sockets s)
    (os_sequencer s) (os_requests s) (os_responses s) (os_audit s) (os_accepting s) (os_quiesced s)
    (os_run s) (os_stop_deadline s) (os_listener s).
Definition with_clients (m : gmap nat Z) (s : OrderServer) : OrderServer :=
  mkServer (os_sessions s) (os_anonymous s) m (os_accepted s) (os_rejected s) (os_sockets s)
    (os_sequencer s) (os_requests s) (os_responses s) (os_audit s) (os_accepting s) (os_quiesced s)
    (os_run s) (os_stop_deadline s) (os_listener s).
Definition with_counts (accepted rejected : Z) (s : OrderServer) : OrderServer :=
  mkServer (os_sessions s) (os_anonymous s) (os_clients s) accepted rejected (os_sockets s)
    (os_sequencer s) (os_requests s) (os_responses s) (os_audit s) (os_accepting s) (os_quiesced s)
    (os_run s) (os_stop_deadline s) (os_listener s).
Definition with_sockets (l : list TCPSocket) (s : OrderServer) : OrderServer :=
  mkServer (os_sessions s) (os_anonymous s) (os_clients s) (os_accepted s) (os_rejected s) l
    (os_sequencer s) (os_requests s) (os_responses s) (os_audit s) (os_accepting s) (os_quiesced s)
    (os_run s) (os_stop_deadline s) (os_listener s).
Definition with_sequencer (f : FIFOSequencer) (q : LFQueue MEClientRequest) (s : OrderServer) : OrderServer :=
  mkServer (os_sessions s) (os_anonymous s) (os_clients s) (os_accepted s) (os_rejected s) (os_sockets s)
    f q (os_responses s) (os_audit s) (os_accepting s) (os_quiesced s) (os_run s) (os_stop_deadline s) (os_listener s).
Definition with_responses (q : LFQueue MEClientResponse) (s : OrderServer) : OrderServer :=
  mkServer (os_sessions s) (os_anonymous s) (os_clients s) (os_accepted s) (os_rejected s) (os_sockets s)
    (os_sequencer s) (os_requests s) q (os_audit s) (os_accepting s) (os_quiesced s) (os_run s)
    (os_stop_deadline s) (os_listener s).
Definition with_audit (a : option CriticalJournal) (s : OrderServer) : OrderServer :=
  mkServer (os_sessions s) (os_anonymous s) (os_clients s) (os_accepted s) (os_rejected s) (os_sockets s)
    (os_sequencer s) (os_requests s) (os_responses s) a (os_accepting s) (os_quiesced s) (os_run s)
    (os_stop_deadline s) (os_listener s).
Definition with_flags (accepting quiesced run : bool) (deadline : Z) (s : OrderServer) : OrderServer :=
  mkServer (os_sessions s) (os_anonymous s) (os_clients s) (os_accepted s) (os_rejected s) (os_sockets s)
    (os_sequencer s) (os_requests s) (os_responses s) (os_audit s) accepting quiesced run deadline
    (os_listener s).
Definition with_listener (listed : bool) (s : OrderServer) : OrderServer :=
  mkServer (os_sessions s) (os_anonymous s) (os_clients s) (os_accepted s) (os_rejected s) (os_sockets s)
    (os_sequencer s) (os_requests s) (os_responses s) (os_audit s) (os_accepting s) (os_quiesced s)
    (os_run s) (os_stop_deadline s) listed.

Definition fresh_session : Session := mkSession 1 1 None 0 false.

(** The constructor. *)
Definition make (requests : LFQueue MEClientRequest) (responses : LFQueue MEClientResponse)
    (audit : option CriticalJournal) : OrderServer :=
  mkServer (replicate (Z.to_nat ME_MAX_NUM_CLIENTS) fresh_session) ∅ ∅ 0 0 [] FIFOSequencer.make
    requests responses audit true false false (2 ^ 63 - 1) false.

(** The listener is up. *)
Definition start (s : OrderServer) : OrderServer :=
  with_flags (os_accepting s) (os_quiesced s) true (os_stop_deadline s) s.
Definition stop (now : Z) (s : OrderServer) : OrderServer :=
  with_flags false (os_quiesced s) false (now + 5 * 1000000000) s.

(** The flag that [quiesce] publishes before it waits. *)
Definition quiesce (s : OrderServer) : OrderServer :=
  with_flags false (os_quiesced s) (os_run s) (os_stop_deadline s) s.

(** ** Accesses to the arrays *)
Definition session (client : Z) (s : OrderServer) : res Session :=
  deref (os_sessions s !! Z.to_nat client).
Definition set_session (client : Z) (x : Session) (s : OrderServer) : OrderServer :=
  with_sessions (<[Z.to_nat client := x]> (os_sessions s)) s.

Definition healthy (id : nat) (s : OrderServer) : res bool :=
  x ← deref (os_sockets s !! id); Ok (TCPSocket.healthy x).

(** [anonymous_sequences_.try_emplace(socket, 1)]. *)
Definition anonymous (id : nat) (s : OrderServer) : Z * OrderServer :=
  match os_anonymous s !! id with
  | Some n => (n, s)
  | None => (1, with_anonymous (<[id := 1]> (os_anonymous s)) s)
  end.

(** The first request of a client on a connection. *)
Definition bind_client (id : nat) (client epoch : Z) (s : OrderServer) : res OrderServer :=
  x ← session client s;
  match se_owner x with
  | Some _ => Ok s
  | None =>
      let '(n, s) := anonymous id s in
      Ok (with_clients (<[id := client]> (os_clients s))
            (set_session client (mkSession n (se_next_exp x) (Some id) epoch (se_unknown x)) s))
  end.

(** A QUERY takes the session of a dead connection over. *)
Definition take_over (id : nat) (client seq : Z) (s : OrderServer) : res OrderServer :=
  x ← session client s;
  Ok (with_clients (<[id := client]> (os_clients s))
        (set_session client (mkSession 1 seq (Some id) (se_epoch x) true) s)).

Definition request_done (client : Z) (s : OrderServer) : res OrderServer :=
  x ← session client s;
  Ok (set_session client (mkSession (se_next_outgoing x) (u64 (se_next_exp x + 1)) (se_owner x)
        (se_epoch x) (se_unknown x)) s).

(** [reject]; [false]: the send buffer is full. *)
Definition reject (id : nat) (request : OMClientRequest) (reason : RejectReason)
    (st : TCPSocket * OrderServer) : res (bool * (TCPSocket * OrderServer)) :=
  let '(socket, s) := st in
  let r := omrq_request request in
  let owner := os_clients s !! id in
  '(sequence, s) ← match owner with
                   | Some c => x ← session c s; Ok (se_next_outgoing x, s)
                   | None => Ok (anonymous id s)
                   end;
  let response := mkResponse REJECTED (default (rq_client_id r) owner) (rq_ticker_id r) (rq_order_id r)
    OrderId_INVALID (rq_side r) (rq_price r) 0 0 reason 0 0 in
  '(result, socket) ← TCPSocket.send
    (encode_response (mkOMResponse sequence response (omrq_session_epoch request))) socket;
  if bool_decide (result = Full) then Ok (false, (socket, s)) else
  _ ← ASSERT (bool_decide (result = Accepted));
  let s := with_audit (journal_response response <$> os_audit s) s in
  s ← match owner with
      | Some c =>
          x ← session c s;
          Ok (set_session c (mkSession (u64 (sequence + 1)) (se_next_exp x) (se_owner x) (se_epoch x)
                (se_unknown x)) s)
      | None => Ok (with_anonymous (<[id := u64 (sequence + 1)]> (os_anonymous s)) s)
      end;
  Ok (true, (socket, with_counts (os_accepted s) (u64 (os_rejected s + 1)) s)).

(** The identity and session checks of a decoded frame. *)
Definition check_owner (id : nat) (request : OMClientRequest) (s : OrderServer) :
    res (RejectReason * OrderServer) :=
  let r := omrq_request request in
  let client := rq_client_id r in
  if match os_clients s !! id with Some c => negb (c =? client) | None => false end
  then Ok (IDENTITY, s) else
  x ← session client s;
  match se_owner x with
  | None => Ok (NONE, s)
  | Some owner =>
      if bool_decide (owner = id) then Ok (NONE, s) else
      alive ← healthy owner s;
      if negb alive && bool_decide (rq_type r = QUERY) && (omrq_session_epoch request =? se_epoch x)
      then s ← take_over id client (omrq_seq_num request) s; Ok (NONE, s)
      else Ok (IDENTITY, s)
  end.

Definition check_session (id : nat) (request : OMClientRequest) (s : OrderServer) :
    res (RejectReason * OrderServer) :=
  let r := omrq_request request in
  let client := rq_client_id r in
  if ME_MAX_NUM_CLIENTS <=? client then Ok (INVALID_ID, s) else
  '(reason, s) ← check_owner id request s;
  if negb (bool_decide (reason = NONE)) then Ok (reason, s) else
  x ← session client s;
  if bool_decide (is_Some (se_owner x)) && negb (omrq_session_epoch request =? se_epoch x)
  then Ok (SESSION, s) else
  if omrq_session_epoch request =? 0 then Ok (SESSION, s) else
  if negb (omrq_seq_num request =? se_next_exp x) then Ok (SEQUENCE, s) else
  if se_unknown x && negb (bool_decide (rq_type r = QUERY)) then Ok (SESSION, s) else
  Ok (NONE, s).

(** What follows the checks; [false]: the frame stays in the buffer. *)
Definition handle (id : nat) (rx_time : Z) (request : OMClientRequest) (reason : RejectReason)
    (st : TCPSocket * OrderServer) : res (bool * (TCPSocket * OrderServer)) :=
  let r := omrq_request request in
  let client := rq_client_id r in
  let invalid := validate r in
  if bool_decide (reason = NONE) && negb (bool_decide (invalid = NONE)) then
    s ← bind_client id client (omrq_session_epoch request) st.2;
    '(ok, (socket, s)) ← reject id request invalid (st.1, s);
    if ok : bool then s ← request_done client s; Ok (true, (socket, s)) else Ok (false, (socket, s))
  else if negb (bool_decide (reason = NONE)) then reject id request reason st
  else
  let '(socket, s) := st in
  if negb (FIFOSequencer.canAccept (os_sequencer s)) then Ok (false, st) else
  let s := with_audit (journal_request "RECEIVED" r <$> os_audit s) s in
  let '(ok, f) := FIFOSequencer.addClientRequest rx_time r (os_sequencer s) in
  _ ← ASSERT ok;
  s ← bind_client id client (omrq_session_epoch request) (with_sequencer f (os_requests s) s);
  s ← request_done client s;
  Ok (true, (socket, with_counts (u64 (os_accepted s + 1)) (os_rejected s) s)).

(** The loop of [recvCallback]; the number of bytes dealt with. *)
Fixpoint recv_frames (fuel : nat) (id : nat) (rx_time : Z) (consumed : nat) (bytes : list Z)
    (st : TCPSocket * OrderServer) : res (nat * (TCPSocket * OrderServer)) :=
  if bool_decide (length bytes < RequestSize)%nat then Ok (consumed, st) else
  match fuel with
  | O => Err NoFuel
  | S fuel =>
      let '(socket, s) := st in
      '(ok, request) ← decode_request bytes default_OMClientRequest;
      '(reason, s) ← (if ok : bool then check_session id request s else Ok (VERSION, s));
      '(go, st) ← handle id rx_time request reason (socket, s);
      if go : bool
      then recv_frames fuel id rx_time (consumed + RequestSize) (drop RequestSize bytes) st
      else Ok (consumed, st)
  end.

Definition recvCallback (id : nat) (rx_time : Z) (st : TCPSocket * OrderServer) :
    res (TCPSocket * OrderServer) :=
  let '(socket, s) := st in
  if negb (os_accepting s) then Ok st else
  let bytes := ts_inbound socket in
  '(consumed, (socket, s)) ← recv_frames (length bytes) id rx_time 0 bytes (socket, s);
  Ok (TCPSocket.consume consumed socket, s).

Definition recvFinishedCallback (s : OrderServer) : res OrderServer :=
  '(f, q) ← FIFOSequencer.sequenceAndPublish (os_sequencer s) (os_requests s);
  Ok (with_sequencer f q s).

(** ** [TCPServer] *)
Section Io.
Context (kernel : nat -> TcpKernel) (capacity : nat).

(** A new socket at the end of the list. *)
Definition push_socket (listed : bool) (s : OrderServer) : res OrderServer :=
  x ← TCPSocket.make capacity;
  Ok (with_listener listed (with_sockets (os_sockets s ++ [TCPSocket.with_fd true x]) s)).

(** One turn of the [accept] loop: whether the descriptor could be set up. *)
Definition accept_one (s : OrderServer) (configured : bool) : res OrderServer :=
  if ME_MAX_NUM_CLIENTS <=? Z.of_nat (length (os_sockets s)) then Ok s else
  _ ← ASSERT configured;
  push_socket (os_listener s) s.

(** A listener that has failed enters the list of sockets, once, as it was
    constructed.  (It occupies a place there; reading it gives what its kernel
    answers for a socket that is not connected.) *)
Definition poll (events : list PollEvent) (accepts : list bool) (s : OrderServer) : res OrderServer :=
  s ← (if existsb (λ e, match e with ListenerFailed => true | _ => false end) events && negb (os_listener s)
       then push_socket true s else Ok s);
  if existsb (λ e, match e with ListenerReady => true | _ => false end) events
  then res_fold accept_one accepts s else Ok s.

Definition poll_connection (s : OrderServer) (id : nat) : res OrderServer :=
  x ← deref (os_sockets s !! id);
  '(_, (x, s)) ← TCPSocket.sendAndRecv (kernel id) (recvCallback id) (x, s);
  Ok (with_sockets (<[id := x]> (os_sockets s)) s).

Definition sendAndRecv (s : OrderServer) : res OrderServer :=
  s ← res_fold poll_connection (seq 0 (length (os_sockets s))) s;
  recvFinishedCallback s.

Definition pendingBytes (s : OrderServer) : nat :=
  sum_list_with TCPSocket.pending_bytes (os_sockets s).

Definition flushSend (s : OrderServer) : OrderServer :=
  with_sockets (imap (λ id x, if bool_decide (TCPSocket.pending_bytes x = 0%nat) then x
                              else (TCPSocket.flushSend (kernel id) x).2) (os_sockets s)) s.

(** ** The thread *)

(** One response of the loop in [run]; [None]: the loop is left. *)
Definition send_response (r : MEClientResponse) (s : OrderServer) : res (bool * OrderServer) :=
  _ ← ASSERT (rs_client_id r <? ME_MAX_NUM_CLIENTS);
  x ← session (rs_client_id r) s;
  _ ← ASSERT (bool_decide (is_Some (se_owner x)));
  id ← deref (se_owner x);
  socket ← deref (os_sockets s !! id);
  '(status, socket) ← TCPSocket.send
    (encode_response (mkOMResponse (se_next_outgoing x) r (se_epoch x))) socket;
  let s := with_sockets (<[id := socket]> (os_sockets s)) s in
  if bool_decide (status = Full) then Ok (false, s) else
  _ ← ASSERT (bool_decide (status = Accepted));
  q ← pop (os_responses s);
  Ok (true, with_responses q (set_session (rs_client_id r)
        (mkSession (u64 (se_next_outgoing x + 1)) (se_next_exp x) (se_owner x) (se_epoch x) (se_unknown x)) s)).

Fixpoint send_responses (fuel : nat) (queued : bool) (s : OrderServer) : res (bool * OrderServer) :=
  head ← peek (os_responses s);
  match head, fuel with
  | None, _ => Ok (queued, s)
  | Some _, O => Err NoFuel
  | Some r, S fuel =>
      '(go, s) ← send_response r s;
      if go : bool then send_responses fuel true s else Ok (queued, s)
  end.

(** The condition of the loop of [run]. *)
Definition goes_on (s : OrderServer) : res bool :=
  head ← peek (os_responses s);
  Ok (os_run s || bool_decide (is_Some head) || negb (bool_decide (pendingBytes s = 0%nat))).

Definition run_iteration (now : Z) (events : list PollEvent) (accepts : list bool) (s : OrderServer) :
    res OrderServer :=
  _ ← ASSERT (os_run s || (now <=? os_stop_deadline s));
  s ← (if os_accepting s then poll events accepts s else Ok s);
  s ← sendAndRecv s;
  let s := if negb (os_accepting s) && bool_decide (FIFOSequencer.pending (os_sequencer s) = 0%nat)
           then with_flags (os_accepting s) true (os_run s) (os_stop_deadline s) s else s in
  '(queued, s) ← send_responses (Z.to_nat (queue_size (os_responses s))) false s;
  Ok (if queued : bool then flushSend s else s).

End Io.
End OrderServer.
