(* ===== verification/ServerTheorems.v ===== *)
(** The sessions as the order server keeps them: responses are numbered on
    every connection, and no order is admitted twice. *)
From S2P Require Import Prelude.
From S2P Require Import Types.
From S2P Require Import Wire.
From S2P Require Import LFQueue.
From S2P Require Import Journal.
From S2P Require Import FIFOSequencer.
From S2P Require Import TcpSocket.
From S2P Require Import OrderServer.
From S2P Require Import OrderGateway.
From S2P Require Import GatewayTheorems.
From stdpp Require Import base list gmap.
From Stdlib Require Import ZArith Lia.

Local Open Scope Z_scope.
Local Arguments encode_response : simpl never.

(** The numbers 1, 2, ..., of [a] responses, then of [k] more. *)
Definition first_numbers (n : nat) : list Z := after 1 <$> seq 0 n.
Definition numbers (a k : nat) : list Z := first_numbers a ++ first_numbers k.

Lemma first_numbers_S n : first_numbers (S n) = first_numbers n ++ [after 1 n].
Proof. unfold first_numbers. by rewrite seq_S, fmap_app. Qed.

Lemma after_0 : after 1 0 = 1.
Proof. reflexivity. Qed.

Lemma response_bytes_one f : response_bytes [f] = encode_response f.
Proof. apply app_nil_r. Qed.

(** ** The state of a connection *)
Record conn_ok (ses : list Session) (anon cl : gmap nat Z) (id : nat) (x : TCPSocket) : Prop := {
  cn_tcp : tcp_ok x;
  cn_bytes : Forall is_byte (ts_inbound x);
  cn_numbers : exists frames a k, accepted_bytes x = response_bytes frames /\
    omrs_seq_num <$> frames = numbers a k /\
    match cl !! id with
    | None => a = 0%nat /\ default 1 (anon !! id) = after 1 k
    | Some c =>
        (exists e, ses !! Z.to_nat c = Some e /\ se_owner e = Some id /\ se_next_outgoing e = after 1 k /\
           (a = 0%nat \/ se_unknown e = true))
        \/ TCPSocket.healthy x = false
    end
}.

Record core (ses : list Session) (anon cl : gmap nat Z) (socks : list TCPSocket) : Prop := {
  co_len : Z.of_nat (length ses) = ME_MAX_NUM_CLIENTS;
  co_clients id c : cl !! id = Some c -> 0 <= c < ME_MAX_NUM_CLIENTS /\ (id < length socks)%nat;
  co_anon id n : anon !! id = Some n -> (id < length socks)%nat;
  co_fresh c e : ses !! c = Some e -> se_owner e = None -> e = OrderServer.fresh_session;
  co_owner c e id : ses !! c = Some e -> se_owner e = Some id -> cl !! id = Some (Z.of_nat c);
  co_conns id x : socks !! id = Some x -> conn_ok ses anon cl id x
}.

(** ** Admission *)
Definition has_effect (r : MEClientRequest) : Prop := rq_type r <> QUERY.
#[export] Instance has_effect_dec r : Decision (has_effect r).
Proof. unfold has_effect. apply _. Defined.
Definition request_key (r : MEClientRequest) : Z * Z := (rq_client_id r, rq_request_seq r).

Definition bounded (socks : list TCPSocket) (adm : list MEClientRequest) : Prop :=
  Forall (λ x, Z.of_nat (length (accepted_bytes x) + length adm) < 2 ^ 64 - 2) socks.

Definition in_session (ses : list Session) (r : MEClientRequest) : Prop :=
  exists e, ses !! Z.to_nat (rq_client_id r) = Some e /\ 0 <= rq_client_id r /\ is_Some (se_owner e) /\
    rq_session_epoch r = se_epoch e /\ (se_unknown e = false -> rq_request_seq r < se_next_exp e).

Record once (ses : list Session) (socks : list TCPSocket) (adm : list MEClientRequest) : Prop := {
  on_nodup : NoDup (request_key <$> filter has_effect adm);
  on_session : Forall (in_session ses) (filter has_effect adm);
  on_bound c e id x : ses !! c = Some e -> se_owner e = Some id -> se_unknown e = false ->
    socks !! id = Some x ->
    1 <= se_next_exp e <= 1 + Z.of_nat (length (accepted_bytes x) + length adm)
}.

Definition guarded (ses : list Session) (socks : list TCPSocket) (adm : list MEClientRequest) : Prop :=
  bounded socks adm -> once ses socks adm.

(** The server, with the requests that the engine has taken. *)
Definition queues_ok (consumed adm : list MEClientRequest) (s : OrderServer) : Prop :=
  exists lq lr, queue_ok (os_requests s) lq /\ queue_ok (os_responses s) lr /\
    Forall (λ r, 0 <= rs_client_id r) lr /\
    adm ≡ₚ consumed ++ lq ++ map request (pending_client_requests (os_sequencer s)).

Definition state_ok (consumed : list MEClientRequest) (socks : list TCPSocket) (s : OrderServer) : Prop :=
  exists adm, queues_ok consumed adm s /\
    core (os_sessions s) (os_anonymous s) (os_clients s) socks /\ guarded (os_sessions s) socks adm.

Definition server_ok (consumed : list MEClientRequest) (s : OrderServer) : Prop :=
  state_ok consumed (os_sockets s) s.

(** While connection [id] is polled. *)
Definition polling_ok (n : nat) (consumed : list MEClientRequest) (id : nat)
    (st : TCPSocket * OrderServer) : Prop :=
  (length (os_sockets st.2) = n /\ (id < n)%nat) /\ state_ok consumed (<[id := st.1]> (os_sockets st.2)) st.2.

Lemma polling_start consumed id x s :
  server_ok consumed s -> os_sockets s !! id = Some x -> polling_ok (length (os_sockets s)) consumed id (x, s).
Proof.
  intros Hs Hx. split; cbn; [split; [done|by eapply lookup_lt_Some]|]. unfold server_ok in Hs. by rewrite list_insert_id.
Qed.

Lemma polling_end n consumed id x s :
  polling_ok n consumed id (x, s) -> server_ok consumed (OrderServer.with_sockets (<[id := x]> (os_sockets s)) s).
Proof. by intros [_ Hs]. Qed.

(** ** Steps that are quiet for a socket *)
Lemma conn_quiet ses anon cl id x x' : conn_ok ses anon cl id x -> quiet x x' -> conn_ok ses anon cl id x'.
Proof.
  intros [H1 H2 (frames & a & k & H3 & H4 & H5)] [Q1 Q2 Q3 Q4 Q5 Q6 Q7 Q8]. constructor; [auto|by rewrite Q1|].
  exists frames, a, k. rewrite Q5. split_and!; [done|done|]. destruct (cl !! id); [|done].
  destruct H5 as [H5|H5]; [by left|right]. destruct (TCPSocket.healthy x'); [|done]. rewrite Q7 in H5; done.
Qed.

Lemma core_socket ses anon cl socks id x' :
  core ses anon cl socks -> (id < length socks)%nat -> conn_ok ses anon cl id x' ->
  core ses anon cl (<[id := x']> socks).
Proof.
  intros [H1 H2 H3 H4 H5 H6] Hid Hx. constructor; rewrite ?length_insert; try done.
  intros j y Hy. apply list_lookup_insert_Some in Hy as [(<- & -> & _)|[_ Hy]]; auto.
Qed.

(** The socket of [id] sent more, or as much. *)
Lemma bounded_grow socks adm id x x' :
  bounded (<[id := x']> socks) adm -> socks !! id = Some x ->
  (length (accepted_bytes x) <= length (accepted_bytes x'))%nat -> bounded socks adm.
Proof.
  unfold bounded. rewrite !Forall_lookup. intros H Hx Hl j y Hj.
  destruct (decide (j = id)) as [->|Hne].
  - assert (y = x) as -> by congruence.
    pose proof (H id x') as H'. rewrite list_lookup_insert_eq in H' by (by eapply lookup_lt_Some).
    specialize (H' eq_refl). lia.
  - apply (H j). by rewrite list_lookup_insert_ne.
Qed.

Lemma guarded_grow ses socks adm id x x' :
  guarded ses socks adm -> socks !! id = Some x ->
  (length (accepted_bytes x) <= length (accepted_bytes x'))%nat -> guarded ses (<[id := x']> socks) adm.
Proof.
  intros Hg Hx Hl Hb. destruct (Hg (bounded_grow _ _ _ _ _ Hb Hx Hl)) as [H1 H2 H3]. constructor; [done|done|].
  intros c e j y He Ho Hu Hy. apply list_lookup_insert_Some in Hy as [(<- & <- & _)|[_ Hy]].
  - specialize (H3 c e id x He Ho Hu Hx). lia.
  - by eapply H3.
Qed.

Lemma polling_quiet n consumed id x x' s :
  polling_ok n consumed id (x, s) -> quiet x x' -> polling_ok n consumed id (x', s).
Proof.
  intros [[Hlen Hid] (adm & Hq & Hc & Hg)] Hqu. cbn in *. split; cbn; [done|]. exists adm. split; [done|].
  assert (Hx : <[id := x]> (os_sockets s) !! id = Some x) by (apply list_lookup_insert_eq; by rewrite Hlen).
  rewrite <- (list_insert_insert_eq (os_sockets s) id x' x). split.
  - apply core_socket; [done|by rewrite length_insert, Hlen|]. eapply conn_quiet; [|exact Hqu]. by apply (co_conns _ _ _ _ Hc).
  - eapply guarded_grow; [exact Hg|exact Hx|]. by rewrite (qu_accepted _ _ Hqu).
Qed.

(** ** Changes of the sessions *)
Section Core.
Context (ses : list Session) (anon cl : gmap nat Z) (socks : list TCPSocket).
Hypothesis Hc : core ses anon cl socks.

Lemma core_anonymous id : (id < length socks)%nat -> anon !! id = None -> core ses (<[id := 1]> anon) cl socks.
Proof.
  intros Hid Ha. destruct Hc as [H1 H2 H3 H4 H5 H6]. constructor; try done.
  - intros j n Hj. apply lookup_insert_Some in Hj as [[<- _]|[_ Hj]]; eauto.
  - intros j x Hx. destruct (H6 j x Hx) as [A B (fr & a & k & C & D & E)]. constructor; [done|done|].
    exists fr, a, k. split_and!; [done|done|]. destruct (cl !! j); [done|].
    destruct (decide (j = id)) as [->|Hne]; [|by rewrite lookup_insert_ne].
    by rewrite lookup_insert_eq, Ha in *.
Qed.

(** The session of [c] changes hands from a dead connection, or from none. *)
Lemma core_owned c e e' id x :
  ses !! c = Some e -> (id < length socks)%nat -> socks !! id = Some x -> cl !! id = None ->
  (forall o y, se_owner e = Some o -> socks !! o = Some y -> TCPSocket.healthy y = false) ->
  se_owner e' = Some id ->
  (se_next_outgoing e' = 1 /\ se_unknown e' = true \/ se_next_outgoing e' = default 1 (anon !! id)) ->
  core (<[c := e']> ses) anon (<[id := Z.of_nat c]> cl) socks.
Proof.
  intros He Hid Hx Hcl Hdead Ho' Hk. destruct Hc as [H1 H2 H3 H4 H5 H6].
  pose proof (lookup_lt_Some _ _ _ He) as Hlt. constructor; rewrite ?length_insert; try done.
  - intros j d Hd. apply lookup_insert_Some in Hd as [[<- <-]|[_ Hd]]; [split; [lia|done]|by apply H2].
  - intros d f Hf Hof. apply list_lookup_insert_Some in Hf as [(<- & -> & _)|[_ Hf]]; [congruence|eauto].
  - intros d f j Hf Hof. apply list_lookup_insert_Some in Hf as [(<- & <- & _)|[Hne Hf]].
    + assert (j = id) as -> by congruence. by rewrite lookup_insert_eq.
    + pose proof (H5 _ _ _ Hf Hof) as Hj. rewrite lookup_insert_ne; [done|]. intros <-. congruence.
  - intros j y Hy. destruct (H6 j y Hy) as [A B (fr & a & k0 & C & D & E)]. constructor; [done|done|].
    destruct (decide (j = id)) as [->|Hne].
    + rewrite lookup_insert_eq. rewrite Hcl in E. destruct E as [-> E]. rewrite Nat2Z.id.
      destruct Hk as [[Hn Hu]|Hn].
      * exists fr, k0, 0%nat. split_and!; [done|by rewrite D; unfold numbers; rewrite app_nil_r|]. left.
        exists e'. rewrite list_lookup_insert_eq by done. rewrite after_0. eauto.
      * exists fr, 0%nat, k0. split_and!; [done|done|]. left. exists e'. rewrite list_lookup_insert_eq by done.
        split_and!; [done|done|congruence|by left].
    + exists fr, a, k0. rewrite lookup_insert_ne by done. split_and!; [done|done|].
      destruct (cl !! j) as [d|] eqn:Ed; [|done]. destruct E as [(f & Hf & Hof & E)|E]; [|by right].
      destruct (decide (Z.to_nat d = c)) as [Edc|Hnc].
      * right. subst c. rewrite He in Hf. injection Hf as <-. by eapply Hdead.
      * left. exists f. by rewrite list_lookup_insert_ne.
Qed.

(** The owner's session changes, and its connection sends the frames [fs]. *)
Lemma core_session c e e' id x x' fs :
  ses !! c = Some e -> se_owner e = Some id -> socks !! id = Some x -> TCPSocket.healthy x = true ->
  tcp_ok x' -> ts_inbound x' = ts_inbound x -> accepted_bytes x' = accepted_bytes x ++ response_bytes fs ->
  (fs = [] /\ se_next_outgoing e' = se_next_outgoing e \/
   exists f, fs = [f] /\ omrs_seq_num f = se_next_outgoing e /\
     se_next_outgoing e' = u64 (se_next_outgoing e + 1)) ->
  se_owner e' = Some id -> se_unknown e' = se_unknown e ->
  core (<[c := e']> ses) anon cl (<[id := x']> socks).
Proof.
  intros He Ho Hx Hh Htcp Hin Hacc Hfs Ho' Hu'. destruct Hc as [H1 H2 H3 H4 H5 H6].
  pose proof (H5 _ _ _ He Ho) as Hcl. pose proof (lookup_lt_Some _ _ _ He) as Hlt.
  constructor; rewrite ?length_insert; try done.
  - intros d f Hf Hof. apply list_lookup_insert_Some in Hf as [(<- & -> & _)|[_ Hf]]; [congruence|eauto].
  - intros d f j Hf Hof. apply list_lookup_insert_Some in Hf as [(<- & <- & _)|[_ Hf]]; [congruence|eauto].
  - intros j y Hy. apply list_lookup_insert_Some in Hy as [(<- & -> & _)|[Hne Hy]].
    + destruct (H6 id x Hx) as [A B (fr & a & k & C & D & E)]. constructor; [done|by rewrite Hin|].
      rewrite Hcl in E |- *. rewrite Nat2Z.id in E |- *. rewrite list_lookup_insert_eq by done.
      destruct E as [(e1 & He1 & _ & E1 & E2)|E]; [|congruence].
      rewrite He in He1. injection He1 as <-. destruct Hfs as [[-> Hn]|(f & -> & Hf & Hn)].
      * exists fr, a, k. split_and!; [by rewrite Hacc, app_nil_r|done|]. left. exists e'. rewrite Hn, Hu'. done.
      * exists (fr ++ [f]), a, (S k). split_and!.
        -- by rewrite Hacc, C, response_bytes_snoc, response_bytes_one.
        -- rewrite fmap_app, D. cbn. unfold numbers. by rewrite first_numbers_S, app_assoc, Hf, E1.
        -- left. exists e'. rewrite Hn, Hu', E1, after_add. done.
    + destruct (H6 j y Hy) as [A B (fr & a & k & C & D & E)]. constructor; [done|done|].
      exists fr, a, k. split_and!; [done|done|]. destruct (cl !! j) as [d|] eqn:Ed; [|done].
      destruct E as [(f & Hf & Hof & E)|E]; [left|by right]. exists f. split; [|done].
      rewrite list_lookup_insert_ne; [done|]. intros ->. congruence.
Qed.

(** The owner's session changes without a frame. *)
Lemma core_next c e e' :
  ses !! c = Some e -> se_owner e' = se_owner e -> is_Some (se_owner e) ->
  se_next_outgoing e' = se_next_outgoing e -> se_unknown e' = se_unknown e ->
  core (<[c := e']> ses) anon cl socks.
Proof.
  intros He Ho' [id Ho] Hn Hu. destruct Hc as [H1 H2 H3 H4 H5 H6].
  pose proof (lookup_lt_Some _ _ _ He) as Hlt. constructor; rewrite ?length_insert; try done.
  - intros d f Hf Hof. apply list_lookup_insert_Some in Hf as [(<- & -> & _)|[_ Hf]]; [congruence|eauto].
  - intros d f j Hf Hof. apply list_lookup_insert_Some in Hf as [(<- & <- & _)|[_ Hf]]; [|eauto].
    apply (H5 _ _ _ He). congruence.
  - intros j y Hy. destruct (H6 j y Hy) as [A B (fr & a & k & C & D & E)]. constructor; [done|done|].
    exists fr, a, k. split_and!; [done|done|]. destruct (cl !! j) as [d|] eqn:Ed; [|done].
    destruct E as [(f & Hf & Hof & E1 & E2)|E]; [left|by right].
    destruct (decide (Z.to_nat d = c)) as [<-|Hne].
    + exists e'. rewrite list_lookup_insert_eq by done. rewrite He in Hf. injection Hf as <-.
      rewrite Ho', Hn, Hu. done.
    + exists f. by rewrite list_lookup_insert_ne.
Qed.

(** A connection without a client sends a frame. *)
Lemma core_anonymous_sent id x x' f :
  socks !! id = Some x -> cl !! id = None -> tcp_ok x' -> ts_inbound x' = ts_inbound x ->
  accepted_bytes x' = accepted_bytes x ++ encode_response f -> omrs_seq_num f = default 1 (anon !! id) ->
  core ses (<[id := u64 (default 1 (anon !! id) + 1)]> anon) cl (<[id := x']> socks).
Proof.
  intros Hx Hcl Htcp Hin Hacc Hf. destruct Hc as [H1 H2 H3 H4 H5 H6].
  pose proof (lookup_lt_Some _ _ _ Hx) as Hlt.
  constructor; rewrite ?length_insert; try done.
  - intros j n Hj. apply lookup_insert_Some in Hj as [[<- _]|[_ Hj]]; eauto.
  - intros j y Hy. apply list_lookup_insert_Some in Hy as [(<- & -> & _)|[Hne Hy]].
    + destruct (H6 id x Hx) as [A B (fr & a & k & C & D & E)]. constructor; [done|by rewrite Hin|].
      rewrite Hcl in E |- *. destruct E as [-> E]. exists (fr ++ [f]), 0%nat, (S k). split_and!.
      * by rewrite Hacc, C, response_bytes_snoc.
      * rewrite fmap_app, D. unfold numbers. rewrite first_numbers_S, app_assoc, <- E, <- Hf. done.
      * done.
      * rewrite lookup_insert_eq. cbn. by rewrite E, after_add.
    + destruct (H6 j y Hy) as [A B (fr & a & k & C & D & E)]. constructor; [done|done|].
      exists fr, a, k. split_and!; [done|done|]. destruct (cl !! j); [done|]. by rewrite lookup_insert_ne.
Qed.

End Core.

(** ** Admission and the sessions *)
Section Once.
Context (ses : list Session) (socks : list TCPSocket) (adm : list MEClientRequest).
Hypothesis Ho : once ses socks adm.

Definition session_le (e e' : Session) : Prop :=
  is_Some (se_owner e) -> is_Some (se_owner e') /\ se_epoch e' = se_epoch e /\
    (se_unknown e' = false -> se_unknown e = false /\ se_next_exp e <= se_next_exp e').

Definition session_bound (e : Session) (n : nat) : Prop :=
  forall id x, se_owner e = Some id -> se_unknown e = false -> socks !! id = Some x ->
    1 <= se_next_exp e <= 1 + Z.of_nat (length (accepted_bytes x) + n).

Lemma in_session_le c e e' r :
  ses !! c = Some e -> session_le e e' -> in_session ses r -> in_session (<[c := e']> ses) r.
Proof.
  intros He Hle (f & Hf & H0 & H1 & H2 & H3). unfold in_session.
  destruct (decide (Z.to_nat (rq_client_id r) = c)) as [<-|Hne].
  - rewrite He in Hf. injection Hf as <-. destruct (Hle H1) as (L1 & L2 & L3). exists e'.
    rewrite list_lookup_insert_eq by (by eapply lookup_lt_Some). split_and!; [done|done|done|congruence|].
    intros Hu. destruct (L3 Hu) as [L4 L5]. specialize (H3 L4). lia.
  - exists f. by rewrite list_lookup_insert_ne.
Qed.

Lemma once_session c e e' :
  ses !! c = Some e -> session_le e e' -> session_bound e' (length adm) ->
  once (<[c := e']> ses) socks adm.
Proof.
  intros He Hle Hb. destruct Ho as [H1 H2 H3]. constructor; [done| |].
  - eapply Forall_impl; [exact H2|]. intros r. by apply (in_session_le c e).
  - intros d f id x Hf Hof Hu Hx. apply list_lookup_insert_Some in Hf as [(<- & <- & _)|[_ Hf]]; eauto.
Qed.

(** The request that the session expected is admitted. *)
Lemma once_admit r e e' :
  bounded socks (adm ++ [r]) -> ses !! Z.to_nat (rq_client_id r) = Some e -> 0 <= rq_client_id r ->
  (exists id x, se_owner e = Some id /\ socks !! id = Some x) ->
  rq_session_epoch r = se_epoch e -> rq_request_seq r = se_next_exp e ->
  (se_unknown e = true -> rq_type r = QUERY) ->
  se_owner e' = se_owner e -> se_epoch e' = se_epoch e -> se_unknown e' = se_unknown e ->
  se_next_exp e' = u64 (se_next_exp e + 1) ->
  once (<[Z.to_nat (rq_client_id r) := e']> ses) socks (adm ++ [r]).
Proof.
  intros Hb He H0 (id & x & Hid & Hx) Hep Hseq Hun E1 E2 E3 E4. destruct Ho as [H1 H2 H3].
  assert (Hnext : se_unknown e = false -> 1 <= se_next_exp e <= 1 + Z.of_nat (length (accepted_bytes x) + length adm)
    /\ se_next_exp e' = se_next_exp e + 1).
  { intros Hu. pose proof (H3 _ _ _ _ He Hid Hu Hx) as Hn. split; [done|]. rewrite E4. apply u64_small.
    unfold bounded in Hb. rewrite Forall_lookup in Hb. specialize (Hb _ _ Hx). rewrite length_app in Hb.
    cbn in Hb. lia. }
  assert (Hle : session_le e e').
  { intros Hs. rewrite E1, E3. split_and!; [done|done|]. intros Hu. split; [done|]. destruct (Hnext Hu). lia. }
  constructor.
  - rewrite filter_app, fmap_app, filter_cons, filter_nil. case_decide as Hr; [|by rewrite app_nil_r].
    apply NoDup_app. split_and!; [done| |apply NoDup_singleton].
    intros k (r' & -> & Hin)%list_elem_of_fmap Hk%list_elem_of_singleton. unfold request_key in Hk.
    injection Hk as Hcl Hsq. rewrite Forall_forall in H2.
    destruct (H2 _ Hin) as (f & Hf & _ & _ & _ & Hlt). rewrite Hcl, He in Hf. injection Hf as <-.
    destruct (se_unknown e) eqn:Hu; [by specialize (Hun eq_refl)|]. specialize (Hlt eq_refl). lia.
  - rewrite filter_app. apply Forall_app. split.
    + eapply Forall_impl; [exact H2|]. intros r'. by apply (in_session_le _ e).
    + rewrite filter_cons, filter_nil. case_decide as Hr; [|constructor]. constructor; [|constructor].
      exists e'. rewrite list_lookup_insert_eq by (by eapply lookup_lt_Some). rewrite E1, E2.
      split_and!; [done|done|by rewrite Hid|done|]. intros Hu. rewrite E3 in Hu. destruct (Hnext Hu). lia.
  - intros d f id' y Hf Hof Hu Hy. rewrite length_app. cbn [length].
    apply list_lookup_insert_Some in Hf as [(<- & <- & _)|[_ Hf]].
    + rewrite E1, Hid in Hof. injection Hof as <-. rewrite E3 in Hu. destruct (Hnext Hu).
      assert (y = x) as -> by congruence. lia.
    + specialize (H3 _ _ _ _ Hf Hof Hu Hy). lia.
Qed.

End Once.

Lemma bounded_prefix socks adm r : bounded socks (adm ++ [r]) -> bounded socks adm.
Proof. unfold bounded. intros H. eapply Forall_impl; [exact H|]. intros x. rewrite length_app. cbn. lia. Qed.

(** ** What the checks establish *)
Definition client_of (q : OMClientRequest) : Z := rq_client_id (omrq_request q).

Record checked (id : nat) (q : OMClientRequest) (s : OrderServer) : Prop := {
  ck_range : 0 <= client_of q < ME_MAX_NUM_CLIENTS;
  ck_session : exists e, os_sessions s !! Z.to_nat (client_of q) = Some e /\
    se_next_exp e = omrq_seq_num q /\ (se_unknown e = true -> rq_type (omrq_request q) = QUERY) /\
    (se_owner e = Some id /\ se_epoch e = omrq_session_epoch q \/ se_owner e = None /\ os_clients s !! id = None)
}.

Record owned (id : nat) (q : OMClientRequest) (s : OrderServer) : Prop := {
  ow_range : 0 <= client_of q < ME_MAX_NUM_CLIENTS;
  ow_session : exists e, os_sessions s !! Z.to_nat (client_of q) = Some e /\
    se_next_exp e = omrq_seq_num q /\ (se_unknown e = true -> rq_type (omrq_request q) = QUERY) /\
    se_owner e = Some id /\ se_epoch e = omrq_session_epoch q
}.

(** The fields that the checks and [bind_client] leave alone. *)
Record same_queues (s s' : OrderServer) : Prop := {
  sq_sockets : os_sockets s' = os_sockets s;
  sq_sequencer : os_sequencer s' = os_sequencer s;
  sq_requests : os_requests s' = os_requests s;
  sq_responses : os_responses s' = os_responses s
}.

Lemma queues_same consumed adm s s' : queues_ok consumed adm s -> same_queues s s' -> queues_ok consumed adm s'.
Proof.
  intros (lq & lr & H1 & H2 & H3) [S1 S2 S3 S4]. exists lq, lr. by rewrite S2, S3, S4.
Qed.

Section Polling.
Context (size : nat) (consumed : list MEClientRequest) (id : nat).
Notation ok := (polling_ok size consumed id).

Lemma polling_lookup x s : ok (x, s) -> <[id := x]> (os_sockets s) !! id = Some x.
Proof. intros [[Hlen Hid] _]. cbn in *. apply list_lookup_insert_eq. by rewrite Hlen. Qed.

Lemma session_Some ses anon cl socks c :
  core ses anon cl socks -> 0 <= c < ME_MAX_NUM_CLIENTS -> exists e, ses !! Z.to_nat c = Some e.
Proof. intros Hc Hr. apply lookup_lt_is_Some_2. pose proof (co_len _ _ _ _ Hc). lia. Qed.

(** A healthy connection that has a client owns its session. *)
Lemma client_owns x s c :
  ok (x, s) -> TCPSocket.healthy x = true -> os_clients s !! id = Some c ->
  0 <= c < ME_MAX_NUM_CLIENTS /\ exists e, os_sessions s !! Z.to_nat c = Some e /\ se_owner e = Some id.
Proof.
  intros Hok Hh Hcl. pose proof (polling_lookup _ _ Hok) as Hx. destruct Hok as [[Hlen Hid] (adm & Hq & Hc & Hg)]. cbn in *.
  destruct (co_conns _ _ _ _ Hc _ _ Hx) as [_ _ (fr & a & k & _ & _ & E)]. rewrite Hcl in E.
  split; [by eapply (co_clients _ _ _ _ Hc)|]. destruct E as [(e & He & Ho & _)|E]; [eauto|congruence].
Qed.

Lemma anonymous_ok x s :
  ok (x, s) -> exists s', OrderServer.anonymous id s = (default 1 (os_anonymous s !! id), s') /\ ok (x, s') /\
    same_queues s s' /\ os_sessions s' = os_sessions s /\ os_clients s' = os_clients s /\
    default 1 (os_anonymous s' !! id) = default 1 (os_anonymous s !! id).
Proof.
  intros Hok. unfold OrderServer.anonymous. destruct (os_anonymous s !! id) as [n|] eqn:Ea; cbn.
  - exists s. by rewrite Ea.
  - eexists. split; [done|]. cbn. rewrite lookup_insert_eq. split_and!; try done.
    destruct Hok as [[Hlen Hid] (adm & Hq & Hc & Hg)]. cbn in *. split; [done|]. exists adm. cbn. split_and!; [done| |done].
    apply core_anonymous; [done|by rewrite length_insert, Hlen|done].
Qed.

Lemma bind_ok x s q :
  ok (x, s) -> checked id q s ->
  exists s', OrderServer.bind_client id (client_of q) (omrq_session_epoch q) s = Ok s' /\ ok (x, s') /\
    owned id q s' /\ same_queues s s'.
Proof.
  intros Hok [Hr (e & He & Hn & Hu & Hown)]. unfold OrderServer.bind_client, OrderServer.session. rewrite He. cbn.
  destruct Hown as [[Ho Hep]|[Ho Hcl]]; rewrite Ho.
  { exists s. split_and!; try done. constructor; eauto 10. }
  destruct (anonymous_ok x s Hok) as (s1 & -> & Hok1 & Hs1 & E1 & E2 & E3). eexists. split; [done|].
  pose proof (polling_lookup _ _ Hok1) as Hx.
  destruct Hok1 as [[Hlen Hid] (adm & Hq & Hc & Hg)]. cbn in Hlen, Hid, Hq, Hc, Hg, Hx. rewrite E1 in *. rewrite E2 in *.
  pose proof (lookup_lt_Some _ _ _ He) as Hlt. split; [|split; [|by destruct Hs1]].
  - split; [done|]. exists adm. cbn. split_and!; [done| |].
    + rewrite <- (Z2Nat.id (client_of q)) at 2 by lia. rewrite E1.
      eapply (core_owned _ _ _ _ Hc) with (x := x); try done.
      * by rewrite length_insert, Hlen.
      * by rewrite Ho.
      * right. cbn. by rewrite E3.
    + intros Hb. rewrite E1. apply (once_session _ _ _ (Hg Hb) _ e); [done| |].
      * intros Hs. by rewrite Ho in Hs.
      * intros j y Hj Huk Hy. cbn in *. rewrite (co_fresh _ _ _ _ Hc _ _ He Ho). cbn. lia.
  - constructor; [done|]. eexists. cbn. rewrite E1, list_lookup_insert_eq by done. cbn. split_and!; done.
Qed.

Lemma take_over_ok x s q e o y :
  ok (x, s) -> 0 <= client_of q < ME_MAX_NUM_CLIENTS -> os_sessions s !! Z.to_nat (client_of q) = Some e ->
  se_owner e = Some o -> o <> id -> os_sockets s !! o = Some y -> TCPSocket.healthy y = false ->
  os_clients s !! id = None ->
  exists s', OrderServer.take_over id (client_of q) (omrq_seq_num q) s = Ok s' /\ ok (x, s') /\
    same_queues s s' /\ os_sessions s' = <[Z.to_nat (client_of q) :=
      mkSession 1 (omrq_seq_num q) (Some id) (se_epoch e) true]> (os_sessions s).
Proof.
  intros Hok Hr He Ho Hne Hy Hdead Hcl. unfold OrderServer.take_over, OrderServer.session. rewrite He. cbn.
  eexists. split; [done|]. split; [|done]. pose proof (polling_lookup _ _ Hok) as Hx.
  destruct Hok as [[Hlen Hid] (adm & Hq & Hc & Hg)]. cbn in *. split; [done|]. exists adm. cbn. split_and!; [done| |].
  - rewrite <- (Z2Nat.id (client_of q)) at 2 by lia. eapply (core_owned _ _ _ _ Hc) with (x := x); try done.
    + by rewrite length_insert, Hlen.
    + intros o' y'. rewrite Ho. intros [= <-]. rewrite list_lookup_insert_ne by done. congruence.
    + by left.
  - intros Hb. apply (once_session _ _ _ (Hg Hb) _ e); [done| |].
    + intros _. cbn. split_and!; [done|done|]. done.
    + intros j z _ Hu. done.
Qed.

Lemma check_owner_ok x s q :
  ok (x, s) -> TCPSocket.healthy x = true -> 0 <= client_of q < ME_MAX_NUM_CLIENTS ->
  exists reason s', OrderServer.check_owner id q s = Ok (reason, s') /\ ok (x, s') /\ same_queues s s' /\
    (reason = NONE -> exists e, os_sessions s' !! Z.to_nat (client_of q) = Some e /\
       (se_owner e = Some id \/ se_owner e = None /\ os_clients s' !! id = None)).
Proof.
  intros Hok Hh Hr. unfold OrderServer.check_owner.
  destruct (match os_clients s !! id with Some c => negb (c =? rq_client_id (omrq_request q)) | None => false end) eqn:Eb.
  { exists IDENTITY, s. by split_and!. }
  destruct Hok as [[Hlen Hid] (adm & Hq & Hc & Hg)] eqn:Hok'. clear Hok'.
  destruct (session_Some _ _ _ _ _ Hc Hr) as [e He]. cbn in He, Hid, Hc.
  unfold OrderServer.session. unfold client_of in *. rewrite He. cbn [deref mbind res_bind].
  assert (Hfree : se_owner e <> Some id -> os_clients s !! id = None).
  { intros Hne. destruct (os_clients s !! id) as [c|] eqn:Ec; [|done]. exfalso.
    destruct (client_owns x s c Hok Hh Ec) as (_ & f & Hf & Hof).
    apply negb_false_iff, Z.eqb_eq in Eb as ->. congruence. }
  destruct (se_owner e) as [o|] eqn:Eo.
  2:{ exists NONE, s. split_and!; [done|done|done|]. intros _. exists e. rewrite Eo. auto. }
  case_bool_decide as Hoid; [subst o|].
  { exists NONE, s. split_and!; [done|done|done|]. intros _. exists e. auto. }
  assert (Hy : is_Some (os_sockets s !! o)).
  { apply lookup_lt_is_Some_2. pose proof (co_owner _ _ _ _ Hc _ _ _ He Eo) as Hcl.
    apply (co_clients _ _ _ _ Hc) in Hcl as [_ Hlt]. by rewrite length_insert in Hlt. }
  destruct Hy as [y Hy]. unfold OrderServer.healthy. rewrite Hy. cbn [deref mbind res_bind].
  destruct (negb (TCPSocket.healthy y) && _ && _) eqn:Et.
  2:{ exists IDENTITY, s. by split_and!. }
  apply andb_prop in Et as [[Hdead%negb_true_iff _]%andb_prop _].
  destruct (take_over_ok x s q e o y Hok Hr He Eo Hoid Hy Hdead) as (s' & Es & Hok' & Hs' & El).
  { apply Hfree. congruence. }
  unfold client_of in *. rewrite Es. cbn. exists NONE, s'. split_and!; [done|done|done|]. intros _. rewrite El.
  rewrite list_lookup_insert_eq by (by eapply lookup_lt_Some). eexists. split; [done|]. by left.
Qed.

Lemma check_session_ok x s q :
  ok (x, s) -> TCPSocket.healthy x = true -> 0 <= client_of q ->
  exists reason s', OrderServer.check_session id q s = Ok (reason, s') /\ ok (x, s') /\ same_queues s s' /\
    (reason = NONE -> checked id q s').
Proof.
  intros Hok Hh Hr0. unfold OrderServer.check_session. destruct (Z.leb_spec ME_MAX_NUM_CLIENTS (rq_client_id (omrq_request q))) as [|Hr].
  { exists INVALID_ID, s. by split_and!. }
  destruct (check_owner_ok x s q Hok Hh) as (reason & s' & -> & Hok' & Hs' & Hn); [unfold client_of in *; lia|].
  cbn [mbind res_bind]. case_bool_decide as Hreason; cbn [negb].
  2:{ exists reason, s'. by split_and!. }
  destruct (Hn Hreason) as (e & He & Hown). unfold OrderServer.session. unfold client_of in *. rewrite He.
  cbn [deref mbind res_bind].
  destruct (bool_decide (is_Some (se_owner e)) && negb (omrq_session_epoch q =? se_epoch e)) eqn:E1;
    [exists SESSION, s'; by split_and!|].
  destruct (omrq_session_epoch q =? 0) eqn:E2; [exists SESSION, s'; by split_and!|].
  destruct (Z.eqb_spec (omrq_seq_num q) (se_next_exp e)) as [E3|]; cbn [negb]; [|exists SEQUENCE, s'; by split_and!].
  destruct (se_unknown e && _) eqn:E4; [exists SESSION, s'; by split_and!|].
  exists NONE, s'. split_and!; [done|done|done|]. intros _. constructor; [unfold client_of; lia|].
  exists e. unfold client_of. split_and!; [done|done| |].
  - intros Hu. rewrite Hu in E4. cbn in E4. apply negb_false_iff in E4. by apply bool_decide_eq_true in E4.
  - destruct Hown as [Ho|?]; [left|by right]. split; [done|]. rewrite Ho in E1. cbn in E1.
    apply negb_false_iff in E1. symmetry. by apply Z.eqb_eq.
Qed.

(** ** Rejections *)
Record sends (x x' : TCPSocket) (f : OMClientResponse) : Prop := {
  sn_tcp : tcp_ok x';
  sn_bytes : accepted_bytes x' = accepted_bytes x ++ encode_response f;
  sn_inbound : ts_inbound x' = ts_inbound x;
  sn_healthy : TCPSocket.healthy x' = TCPSocket.healthy x
}.

Lemma response_frame_sent x f :
  tcp_ok x -> TCPSocket.healthy x = true ->
  TCPSocket.send (encode_response f) x = Ok (Full, x) \/
  exists x', TCPSocket.send (encode_response f) x = Ok (Accepted, x') /\ sends x x' f.
Proof.
  intros Hok Hh. destruct (tcp_send_ok (encode_response f) x Hok) as (r & x' & E & Hok' & Hr & Hi & _ & Hs & _).
  destruct r; rewrite E.
  - right. exists x'. destruct Hr as (Hr & _). split; [done|]. constructor; try done.
    unfold TCPSocket.healthy. by rewrite Hs.
  - left. by destruct Hr as [-> _].
  - destruct Hr as [_ [Hr|Hr]]; [congruence|]. apply (f_equal length) in Hr. by rewrite encode_response_size in Hr.
Qed.

(** The owner's session numbers a frame; it may expect the next request. *)
Lemma session_sent x s x' s' c e e' f :
  ok (x, s) -> TCPSocket.healthy x = true -> os_sessions s !! c = Some e -> se_owner e = Some id ->
  sends x x' f -> omrs_seq_num f = se_next_outgoing e -> same_queues s s' ->
  os_anonymous s' = os_anonymous s -> os_clients s' = os_clients s ->
  os_sessions s' = <[c := e']> (os_sessions s) -> se_owner e' = Some id -> se_epoch e' = se_epoch e ->
  se_unknown e' = se_unknown e -> se_next_outgoing e' = u64 (se_next_outgoing e + 1) ->
  (se_next_exp e' = se_next_exp e \/ se_next_exp e' = u64 (se_next_exp e + 1)) -> ok (x', s').
Proof.
  intros Hok Hh He Ho [S1 S2 S3 S4] Hf Hsq Ean Ecl Ese O1 O2 O3 O4 O5. pose proof (polling_lookup _ _ Hok) as Hx.
  destruct Hok as [[Hlen Hid] (adm & Hq & Hc & Hg)]. cbn in *. destruct (Hsq) as [Q1 Q2 Q3 Q4].
  split; cbn; [by rewrite Q1|]. exists adm. split; [by eapply queues_same|]. rewrite Ese, Ean, Ecl, Q1.
  rewrite <- (list_insert_insert_eq (os_sockets s) id x' x).
  set (l := <[id := x]> (os_sockets s)) in *. split.
  - eapply (core_session _ _ _ _ Hc) with (e := e) (x := x) (fs := [f]); try done.
    right. eauto.
  - intros Hb. assert (Hgrow : (length (accepted_bytes x) + 79 = length (accepted_bytes x'))%nat).
    { rewrite S2, length_app. by rewrite encode_response_size. }
    assert (Hb0 : bounded l adm) by (eapply bounded_grow; [exact Hb|exact Hx|lia]).
    pose proof (Hg Hb0) as Hon.
    assert (Hnx : se_unknown e = false ->
      1 <= se_next_exp e' <= 1 + Z.of_nat (length (accepted_bytes x') + length adm) /\ se_next_exp e <= se_next_exp e').
    { intros Hu. pose proof (on_bound _ _ _ Hon _ _ _ _ He Ho Hu Hx) as Hn. destruct O5 as [->| ->]; [lia|].
      rewrite u64_small; [lia|]. unfold bounded in Hb0. rewrite Forall_lookup in Hb0. specialize (Hb0 _ _ Hx). lia. }
    apply (once_session _ _ _) with (e := e); [|done| |].
    + assert (Hg' : guarded (os_sessions s) (<[id := x']> l) adm) by (eapply guarded_grow; [exact Hg|exact Hx|lia]).
      by apply Hg'.
    + intros _. rewrite O1, O2, O3. split_and!; [done|done|]. intros Hu. split; [done|]. by apply Hnx.
    + intros j y Hj Hu Hy. rewrite O1 in Hj. injection Hj as <-.
      rewrite list_lookup_insert_eq in Hy by (unfold l; by rewrite length_insert, Hlen). injection Hy as <-.
      rewrite O3 in Hu. by apply Hnx.
Qed.

Lemma anonymous_sent x s x' s' f :
  ok (x, s) -> os_clients s !! id = None -> sends x x' f ->
  omrs_seq_num f = default 1 (os_anonymous s !! id) -> same_queues s s' ->
  os_anonymous s' = <[id := u64 (default 1 (os_anonymous s !! id) + 1)]> (os_anonymous s) ->
  os_clients s' = os_clients s -> os_sessions s' = os_sessions s -> ok (x', s').
Proof.
  intros Hok Hcl [S1 S2 S3 S4] Hf Hsq Ean Ecl Ese. pose proof (polling_lookup _ _ Hok) as Hx.
  destruct Hok as [[Hlen Hid] (adm & Hq & Hc & Hg)]. cbn in *. destruct (Hsq) as [Q1 Q2 Q3 Q4].
  split; cbn; [by rewrite Q1|]. exists adm. split; [by eapply queues_same|]. rewrite Ese, Ean, Ecl, Q1.
  rewrite <- (list_insert_insert_eq (os_sockets s) id x' x). split.
  - by eapply (core_anonymous_sent _ _ _ _ Hc).
  - eapply guarded_grow; [exact Hg|exact Hx|]. rewrite S2, length_app. lia.
Qed.

Lemma tcp_polling x s : ok (x, s) -> tcp_ok x.
Proof.
  intros Hok. pose proof (polling_lookup _ _ Hok) as Hx. destruct Hok as [_ (adm & _ & Hc & _)].
  by destruct (co_conns _ _ _ _ Hc _ _ Hx).
Qed.

(** A rejection on a connection that has a client. *)
Lemma reject_owned x s q reason c e :
  ok (x, s) -> TCPSocket.healthy x = true -> os_clients s !! id = Some c ->
  os_sessions s !! Z.to_nat c = Some e ->
  OrderServer.reject id q reason (x, s) = Ok (false, (x, s)) \/
  exists x' s' f, OrderServer.reject id q reason (x, s) = Ok (true, (x', s')) /\ sends x x' f /\
    omrs_seq_num f = se_next_outgoing e /\ same_queues s s' /\ os_anonymous s' = os_anonymous s /\
    os_clients s' = os_clients s /\ os_sessions s' = <[Z.to_nat c := mkSession
      (u64 (se_next_outgoing e + 1)) (se_next_exp e) (se_owner e) (se_epoch e) (se_unknown e)]> (os_sessions s).
Proof.
  intros Hok Hh Hcl He. unfold OrderServer.reject. rewrite Hcl. unfold OrderServer.session. rewrite He.
  cbn [deref mbind res_bind default].
  match goal with |- context [TCPSocket.send (encode_response ?f) x] =>
    destruct (response_frame_sent x f (tcp_polling _ _ Hok) Hh) as [->|(x' & -> & Hs)]; [left; done|right; exists x'; eexists; exists f]
  end. cbn [mbind res_bind]. cbn. rewrite He. cbn. by split_and!.
Qed.

Lemma reject_ok x s q reason :
  ok (x, s) -> TCPSocket.healthy x = true ->
  exists b x' s', OrderServer.reject id q reason (x, s) = Ok (b, (x', s')) /\ ok (x', s') /\
    TCPSocket.healthy x' = true /\ same_queues s s'.
Proof.
  intros Hok Hh. destruct (os_clients s !! id) as [c|] eqn:Hcl.
  - destruct (client_owns x s c Hok Hh Hcl) as (_ & e & He & Ho).
    destruct (reject_owned x s q reason c e Hok Hh Hcl He) as [->|(x' & s' & f & -> & Hs & Hf & Hsq & E1 & E2 & E3)].
    + by exists false, x, s.
    + exists true, x', s'. split_and!; [done| |by rewrite (sn_healthy _ _ _ Hs)|done].
      eapply session_sent with (x := x) (s := s); eauto; by cbn.
  - unfold OrderServer.reject. rewrite Hcl. destruct (anonymous_ok x s Hok) as (s1 & -> & Hok1 & Hs1 & E1 & E2 & E3).
    cbn [mbind res_bind].
    match goal with |- context [TCPSocket.send (encode_response ?f) x] =>
      destruct (response_frame_sent x f (tcp_polling _ _ Hok) Hh) as [->|(x' & -> & Hs)]
    end; cbn.
    + by exists false, x, s1.
    + exists true, x'. eexists. split; [done|]. split_and!; [|by rewrite (sn_healthy _ _ _ Hs)|by destruct Hs1].
      eapply anonymous_sent with (x := x) (s := s1); [exact Hok1|by rewrite E2|exact Hs|by rewrite E3|done|by rewrite E3|done|done].
Qed.

Lemma reject_done_ok x s q reason :
  ok (x, s) -> TCPSocket.healthy x = true -> owned id q s ->
  exists b x' s', OrderServer.reject id q reason (x, s) = Ok (b, (x', s')) /\ TCPSocket.healthy x' = true /\
    (if b : bool then exists s'', OrderServer.request_done (client_of q) s' = Ok s'' /\ ok (x', s'')
     else ok (x', s')).
Proof.
  intros Hok Hh [Hr (e & He & Hn & Hu & Ho & Hep)].
  assert (Hcl : os_clients s !! id = Some (client_of q)).
  { destruct Hok as [_ (adm & _ & Hc & _)]. pose proof (co_owner _ _ _ _ Hc _ _ _ He Ho) as Hcl. cbn in Hcl.
    rewrite Hcl. f_equal. lia. }
  destruct (reject_owned x s q reason _ e Hok Hh Hcl He) as [->|(x' & s' & f & -> & Hs & Hf & Hsq & E1 & E2 & E3)].
  { by exists false, x, s. }
  exists true, x', s'. split_and!; [done|by rewrite (sn_healthy _ _ _ Hs)|].
  unfold OrderServer.request_done, OrderServer.session. rewrite E3, list_lookup_insert_eq by (by eapply lookup_lt_Some).
  cbn. eexists. split; [done|].
  eapply session_sent with (x := x) (s := s) (e := e) (f := f)
    (e' := mkSession (u64 (se_next_outgoing e + 1)) (u64 (se_next_exp e + 1)) (se_owner e) (se_epoch e) (se_unknown e)); eauto.
  - by destruct Hsq.
  - cbn. rewrite E3. apply list_insert_insert_eq.
Qed.

(** ** Admission of a request *)
Definition stamped (q : OMClientRequest) : Prop :=
  rq_request_seq (omrq_request q) = omrq_seq_num q /\
  rq_session_epoch (omrq_request q) = omrq_session_epoch q /\ 0 <= client_of q.

Lemma decode_stamped bs q0 q : Forall is_byte bs -> decode_request bs q0 = Ok (true, q) -> stamped q.
Proof.
  intros Hb Hd. pose proof (decode_request_inv bs q0 q Hb Hd) as [Hwf Hbs].
  rewrite Hbs, decode_encode_request in Hd by done. injection Hd as Hq. unfold stamped.
  destruct Hwf as (_ & _ & Hwf). rewrite <- Hq. cbn. split_and!; [done|done|].
  unfold client_of. cbn. unfold request_wf in Hwf. destruct Hwf as (_ & Hcl & _). apply Hcl.
Qed.

Lemma bind_sequencer c e f q s :
  OrderServer.bind_client id c e (OrderServer.with_sequencer f q s)
  = (s ← OrderServer.bind_client id c e s; Ok (OrderServer.with_sequencer f q s)).
Proof.
  unfold OrderServer.bind_client, OrderServer.session. cbn. destruct (os_sessions s !! Z.to_nat c) as [x|]; cbn; [|done].
  destruct (se_owner x); cbn; [done|]. unfold OrderServer.anonymous. cbn. by destruct (os_anonymous s !! id).
Qed.

Lemma admit_ok x s q t :
  ok (x, s) -> owned id q s -> stamped q ->
  exists s', OrderServer.request_done (client_of q) (OrderServer.with_sequencer
      (mkSequencer (pending_client_requests (os_sequencer s) ++ [mkRecv t (omrq_request q)])) (os_requests s) s)
    = Ok s' /\ ok (x, s').
Proof.
  intros Hok [Hr (e & He & Hn & Hu & Ho & Hep)] (Hq1 & Hq2 & Hq3). pose proof (polling_lookup _ _ Hok) as Hx.
  unfold OrderServer.request_done, OrderServer.session. cbn. rewrite He. cbn. eexists. split; [done|].
  destruct Hok as [[Hlen Hid] (adm & (lq & lr & Hlq & Hlr & Hcli & Hp) & Hc & Hg)]. cbn [fst snd] in *. split; cbn; [done|].
  exists (adm ++ [omrq_request q]). split_and!.
  - exists lq, lr. cbn. split_and!; [done|done|done|]. rewrite Hp, map_app. cbn. by rewrite <- !app_assoc.
  - apply (core_next _ _ _ _ Hc _ e); [done|done|by rewrite Ho|done|done].
  - cbn. intros Hb. apply (once_admit _ _ _ (Hg (bounded_prefix _ _ _ Hb))) with (e := e); try done; cbn; try congruence.
    eauto.
Qed.

Lemma can_accept f t r :
  FIFOSequencer.canAccept f = true ->
  FIFOSequencer.addClientRequest t r f = (true, mkSequencer (pending_client_requests f ++ [mkRecv t r])).
Proof.
  unfold FIFOSequencer.canAccept, FIFOSequencer.addClientRequest. intros H%bool_decide_eq_true.
  rewrite bool_decide_eq_false_2 by lia. done.
Qed.

Lemma handle_ok x s q t reason :
  ok (x, s) -> TCPSocket.healthy x = true -> stamped q -> (reason = NONE -> checked id q s) ->
  exists b x' s', OrderServer.handle id t q reason (x, s) = Ok (b, (x', s')) /\ ok (x', s') /\
    TCPSocket.healthy x' = true.
Proof.
  intros Hok Hh Hst Hck. unfold OrderServer.handle. cbn [fst snd].
  change (rq_client_id (omrq_request q)) with (client_of q).
  destruct (bool_decide_reflect (reason = NONE)) as [Hn|Hn]; cbn [andb negb].
  2:{ destruct (reject_ok x s q reason Hok Hh) as (b & x' & s' & -> & H1 & H2 & _). by exists b, x', s'. }
  specialize (Hck Hn). case_bool_decide as Hv; cbn [negb].
  - destruct (FIFOSequencer.canAccept (os_sequencer s)) eqn:Ec; cbn [negb]; [|by exists false, x, s].
    cbn [OrderServer.with_audit os_sequencer]. rewrite (can_accept _ _ _ Ec).
    cbn [ASSERT mbind res_bind]. rewrite bind_sequencer.
    set (s1 := OrderServer.with_audit _ s).
    destruct (bind_ok x s1 q) as (s2 & -> & Hok2 & Hown & Hsq); [exact Hok|by destruct Hck|].
    cbn [mbind res_bind].
    destruct (admit_ok x s2 q t Hok2 Hown Hst) as (s3 & E3 & Hok3). destruct Hsq as [Q1 Q2 Q3 Q4].
    rewrite Q2, Q3 in E3. match goal with |- context [OrderServer.request_done ?c ?y] =>
      replace (OrderServer.request_done c y) with (Ok s3) by (symmetry; exact E3) end.
    cbn. by exists true, x; eexists.
  - destruct (bind_ok x s q Hok Hck) as (s2 & -> & Hok2 & Hown & Hsq). cbn [mbind res_bind].
    destruct (reject_done_ok x s2 q (validate (omrq_request q)) Hok2 Hh Hown) as (b & x' & s' & -> & Hh' & Hb).
    cbn [mbind res_bind]. destruct b; [destruct Hb as (s3 & -> & Hok3); cbn; eauto 10|eauto 10].
Qed.

(** A change of the receive buffer only. *)
Lemma polling_inbound x x' s :
  ok (x, s) -> tcp_ok x' -> Forall is_byte (ts_inbound x') -> accepted_bytes x' = accepted_bytes x ->
  TCPSocket.healthy x' = TCPSocket.healthy x -> ok (x', s).
Proof.
  intros Hok Ht Hb Ha Hh. pose proof (polling_lookup _ _ Hok) as Hx. destruct Hok as [[Hlen Hid] (adm & Hq & Hc & Hg)].
  cbn [fst snd] in *. split; cbn; [done|]. exists adm. split; [done|].
  rewrite <- (list_insert_insert_eq (os_sockets s) id x' x). split.
  - apply core_socket; [done|by rewrite length_insert, Hlen|].
    destruct (co_conns _ _ _ _ Hc _ _ Hx) as [A B (fr & a & k & C & D & E)]. constructor; [done|done|].
    exists fr, a, k. rewrite Ha. split_and!; [done|done|]. destruct (os_clients s !! id); [|done]. by rewrite Hh.
  - eapply guarded_grow; [exact Hg|exact Hx|]. by rewrite Ha.
Qed.

Lemma server_frames_ok fuel t n bytes x s :
  (length bytes <= fuel)%nat -> Forall is_byte bytes -> ok (x, s) -> TCPSocket.healthy x = true ->
  exists n' x' s', OrderServer.recv_frames fuel id t n bytes (x, s) = Ok (n', (x', s')) /\ ok (x', s').
Proof.
  revert n bytes x s. induction fuel as [|fuel IH]; intros n bytes x s Hl Hb Hok Hh; cbn [OrderServer.recv_frames].
  { rewrite bool_decide_eq_true_2 by (unfold RequestSize; lia). eauto 10. }
  case_bool_decide as Hsz; [eauto 10|].
  destruct (decode_request_total bytes default_OMClientRequest) as (d & q & Hd); [lia|].
  rewrite Hd. cbn [mbind res_bind].
  assert (Hnext : forall reason s1, ok (x, s1) -> (reason = NONE -> checked id q s1) ->
    (reason = NONE -> stamped q) ->
    exists n' x' s', ('(go, st) ← OrderServer.handle id t q reason (x, s1);
      if go : bool then OrderServer.recv_frames fuel id t (n + RequestSize) (drop RequestSize bytes) st
      else Ok (n, st)) = Ok (n', (x', s')) /\ ok (x', s')).
  { intros reason s1 Hok1 Hck Hst.
    assert (Hx : exists b x' s', OrderServer.handle id t q reason (x, s1) = Ok (b, (x', s')) /\ ok (x', s') /\
      TCPSocket.healthy x' = true).
    { destruct (decide (reason = NONE)) as [Hn|Hn]; [apply handle_ok; auto|].
      unfold OrderServer.handle. rewrite (bool_decide_eq_false_2 _ Hn). cbn [andb negb].
      destruct (reject_ok x s1 q reason Hok1 Hh) as (b & x' & s' & -> & H1 & H2 & _). by exists b, x', s'. }
    destruct Hx as (b & x' & s' & -> & Hok' & Hh'). cbn [mbind res_bind]. destruct b; [|eauto 10].
    apply IH; [rewrite length_drop; unfold RequestSize in *; lia|by apply Forall_drop|done|done]. }
  destruct d.
  - pose proof (decode_stamped _ _ _ Hb Hd) as Hst.
    destruct (check_session_ok x s q Hok Hh) as (reason & s1 & -> & Hok1 & Hsq & Hck); [by apply Hst|].
    cbn [mbind res_bind]. apply Hnext; auto.
  - cbn [mbind res_bind]. by apply Hnext.
Qed.

Lemma server_callback_ok t x s :
  ok (x, s) -> TCPSocket.healthy x = true -> always ok (OrderServer.recvCallback id t (x, s)).
Proof.
  intros Hok Hh. unfold OrderServer.recvCallback. destruct (negb (os_accepting s)); [exact Hok|].
  assert (Hb : Forall is_byte (ts_inbound x)).
  { pose proof (polling_lookup _ _ Hok) as Hx. destruct Hok as [_ (adm & _ & Hc & _)].
    by destruct (co_conns _ _ _ _ Hc _ _ Hx). }
  destruct (server_frames_ok (length (ts_inbound x)) t 0 (ts_inbound x) x s) as (n & x' & s' & -> & Hok'); [done..|].
  cbn. pose proof (tcp_polling _ _ Hok') as Ht. apply (polling_inbound x'); [done| | |done|done].
  - destruct Ht as [A B]. constructor; cbn; [exact A|]. rewrite length_drop. lia.
  - cbn. apply Forall_drop. pose proof (polling_lookup _ _ Hok') as Hx. destruct Hok' as [_ (adm & _ & Hc & _)].
    by destruct (co_conns _ _ _ _ Hc _ _ Hx).
Qed.

End Polling.

(** ** The server between polls *)
Lemma core_accept ses anon cl socks x :
  core ses anon cl socks -> tcp_ok x -> ts_inbound x = [] -> accepted_bytes x = [] ->
  core ses anon cl (socks ++ [x]).
Proof.
  intros [H1 H2 H3 H4 H5 H6] Ht Hi Ha. constructor; rewrite ?length_app; cbn [length]; try done.
  - intros id c Hc. apply H2 in Hc as [? ?]. split; [done|lia].
  - intros id n Hn. apply H3 in Hn. lia.
  - intros id y Hy. apply lookup_app_Some in Hy as [Hy|[Hl Hy]]; [by apply H6|].
    apply list_lookup_singleton_Some in Hy as [Hid <-]. constructor; [done|by rewrite Hi|].
    exists [], 0%nat, 0%nat. split_and!; [done|done|].
    destruct (cl !! id) as [c|] eqn:Ec; [apply H2 in Ec; lia|]. split; [done|].
    destruct (anon !! id) as [n|] eqn:En; [apply H3 in En; lia|done].
Qed.

Lemma guarded_accept ses anon cl socks adm x :
  core ses anon cl socks -> guarded ses socks adm -> guarded ses (socks ++ [x]) adm.
Proof.
  intros Hc Hg Hb. unfold bounded in Hb. apply Forall_app in Hb as [Hb _].
  destruct (Hg Hb) as [H1 H2 H3]. constructor; [done|done|].
  intros c e id y He Ho Hu Hy. eapply H3; [done..|].
  apply (co_owner _ _ _ _ Hc _ _ _ He) in Ho. apply (co_clients _ _ _ _ Hc) in Ho as [_ Hlt].
  by rewrite lookup_app_l in Hy.
Qed.

Lemma core_quiet_all ses anon cl socks socks' :
  core ses anon cl socks -> Forall2 quiet socks socks' -> core ses anon cl socks'.
Proof.
  intros [H1 H2 H3 H4 H5 H6] Hq. pose proof (Forall2_length _ _ _ Hq) as Hl. constructor; rewrite <- ?Hl; try done.
  intros id y Hy. destruct (Forall2_lookup_r _ _ _ _ _ Hq Hy) as (x & Hx & Hxy). eapply conn_quiet; eauto.
Qed.

Lemma guarded_quiet_all ses socks socks' adm :
  guarded ses socks adm -> Forall2 quiet socks socks' -> guarded ses socks' adm.
Proof.
  intros Hg Hq Hb.
  assert (Hb0 : bounded socks adm).
  { unfold bounded in *. rewrite Forall_lookup in Hb |- *. intros i x Hx.
    destruct (Forall2_lookup_l _ _ _ _ _ Hq Hx) as (y & Hy & Hxy). rewrite <- (qu_accepted _ _ Hxy). eauto. }
  destruct (Hg Hb0) as [H1 H2 H3]. constructor; [done|done|]. intros c e id y He Ho Hu Hy.
  destruct (Forall2_lookup_r _ _ _ _ _ Hq Hy) as (x & Hx & Hxy). rewrite (qu_accepted _ _ Hxy). eauto.
Qed.

Section Server.
Context (kernel : nat -> TcpKernel) (capacity : nat) (Hk : forall id, kernel_ok (kernel id)).
Context (consumed : list MEClientRequest).
Notation ok := (server_ok consumed).

Lemma push_socket_ok s listed : ok s -> fatal_or ok (OrderServer.push_socket capacity listed s).
Proof.
  intros Hok. unfold OrderServer.push_socket, TCPSocket.make.
  destruct (bool_decide_reflect (0 < capacity)%nat); [|done]. cbn.
  destruct Hok as (adm & Hq & Hc & Hg). exists adm. cbn. split_and!; [done| |by eapply guarded_accept].
  apply core_accept; [done| |done|done]. constructor; cbn; lia.
Qed.

Lemma accept_one_ok s b : ok s -> fatal_or ok (OrderServer.accept_one capacity s b).
Proof.
  intros Hok. unfold OrderServer.accept_one. case_match; [exact Hok|].
  eapply ends_bind; [apply fatal_or_assert|]. intros _ _. by apply push_socket_ok.
Qed.

Lemma server_poll_ok events accepts s : ok s -> fatal_or ok (OrderServer.poll capacity events accepts s).
Proof.
  intros Hok. unfold OrderServer.poll. apply (ends_bind ok).
  { case_match; [by apply push_socket_ok|exact Hok]. }
  clear s Hok. intros s Hok. case_match; [|exact Hok].
  apply ends_fold; [|done]. intros s1 b _. apply accept_one_ok.
Qed.

Lemma poll_connection_ok n s id :
  ok s -> length (os_sockets s) = n -> (id < n)%nat ->
  always (λ s', ok s' /\ length (os_sockets s') = n) (OrderServer.poll_connection kernel s id).
Proof.
  intros Hok Hn Hid. unfold OrderServer.poll_connection.
  destruct (lookup_lt_is_Some_2 (os_sockets s) id) as [x Hx]; [lia|]. rewrite Hx. cbn [deref mbind res_bind].
  eapply ends_bind.
  - apply (sendAndRecv_rule (kernel id) (Hk id) _ (polling_ok n consumed id)).
    + intros. by eapply tcp_polling.
    + intros x1 x2 s1. apply polling_quiet.
    + intros x1 s1 bytes t Hp Hb _ Hl. pose proof (tcp_polling _ _ _ _ _ Hp) as [A B].
      apply (polling_inbound _ _ _ x1); [done| | |done|done].
      * constructor; cbn; [done|]. by rewrite length_app.
      * cbn. apply Forall_app. split; [|done]. pose proof (polling_lookup _ _ _ _ _ Hp) as Hx1.
        destruct Hp as [_ (adm & _ & Hc & _)]. by destruct (co_conns _ _ _ _ Hc _ _ Hx1).
    + intros t x1 s1. apply server_callback_ok.
    + rewrite <- Hn. by apply polling_start.
  - intros [got [x1 s1]] Hp. cbn in Hp. cbn. split; [by apply (polling_end n)|].
    destruct Hp as [[Hl _] _]. cbn in Hl. by rewrite length_insert.
Qed.

Lemma finished_ok s : ok s -> always ok (OrderServer.recvFinishedCallback s).
Proof.
  intros (adm & (lq & lr & Hlq & Hlr & Hcli & Hp) & Hc & Hg). unfold OrderServer.recvFinishedCallback.
  destruct (sequenceAndPublish_ok (os_sequencer s) _ _ Hlq) as (q' & -> & Hq' & _). cbn.
  exists adm. cbn. split_and!; [|done|done]. do 2 eexists. split_and!; [exact Hq'|exact Hlr|exact Hcli|]. cbn.
  rewrite Hp, <- app_assoc, <- map_app, take_drop. by rewrite stable_sort_perm.
Qed.

Lemma server_polls_ok s : ok s -> always ok (OrderServer.sendAndRecv kernel s).
Proof.
  intros Hok. unfold OrderServer.sendAndRecv.
  apply (ends_bind (λ s', ok s' /\ length (os_sockets s') = length (os_sockets s))).
  - apply ends_fold; [|done]. intros s1 id Hid [Hok1 Hl]. apply poll_connection_ok; [done|done|].
    apply elem_of_seq in Hid. lia.
  - intros s1 [Hok1 _]. by apply finished_ok.
Qed.

Lemma server_flush_ok s : ok s -> ok (OrderServer.flushSend kernel s).
Proof.
  intros (adm & Hq & Hc & Hg). unfold OrderServer.flushSend.
  assert (Hall : Forall2 quiet (os_sockets s) (imap (λ id x, if bool_decide (TCPSocket.pending_bytes x = 0%nat)
    then x else (TCPSocket.flushSend (kernel id) x).2) (os_sockets s))).
  { apply Forall2_same_length_lookup_2; [by rewrite length_imap|]. intros i x y Hx Hy.
    rewrite list_lookup_imap, Hx in Hy. cbn in Hy. injection Hy as <-. case_bool_decide; [apply quiet_refl|].
    apply flushSend_quiet; [done|]. by destruct (co_conns _ _ _ _ Hc _ _ Hx). }
  exists adm. cbn. split_and!; [done|by eapply core_quiet_all|by eapply guarded_quiet_all].
Qed.

Lemma responses_ok s q : ok s -> (forall lr, queue_ok (os_responses s) lr -> Forall (λ r, 0 <= rs_client_id r) lr ->
    exists lr', queue_ok q lr' /\ Forall (λ r, 0 <= rs_client_id r) lr') ->
  ok (OrderServer.with_responses q s).
Proof.
  intros (adm & (lq & lr & Hlq & Hlr & Hcli & Hp) & Hc & Hg) Hqr. destruct (Hqr _ Hlr Hcli) as (lr' & Hlr' & Hcli').
  exists adm. cbn. split_and!; [|done|done]. by exists lq, lr'.
Qed.

Lemma send_response_ok s r lr :
  ok s -> queue_ok (os_responses s) (r :: lr) ->
  fatal_or (λ '(go, s'), ok s' /\ (go = true -> queue_ok (os_responses s') lr)) (OrderServer.send_response r s).
Proof.
  intros Hok Hr. unfold OrderServer.send_response.
  assert (H0 : Forall (λ r, 0 <= rs_client_id r) (r :: lr)).
  { destruct Hok as (adm & (lq & l & _ & Hlr & Hcli & _) & _). by rewrite (queue_contents_unique _ _ _ Hr Hlr). }
  apply Forall_cons in H0 as [H0 H1].
  eapply ends_bind; [apply fatal_or_assert|]. intros _ Hlt%Z.ltb_lt. unfold OrderServer.session.
  destruct (Hok) as (adm & Hq & Hc & Hg).
  destruct (session_Some _ _ _ _ (rs_client_id r) Hc) as [e He]; [lia|]. rewrite He. cbn [deref mbind res_bind].
  eapply ends_bind; [apply fatal_or_assert|]. intros _ [id Ho]%bool_decide_eq_true. rewrite Ho. cbn [deref mbind res_bind].
  pose proof (co_owner _ _ _ _ Hc _ _ _ He Ho) as Hcl. apply (co_clients _ _ _ _ Hc) in Hcl as [_ Hid].
  destruct (lookup_lt_is_Some_2 _ _ Hid) as [x Hx]. rewrite Hx. cbn [deref mbind res_bind].
  pose proof (polling_start _ _ _ _ Hok Hx) as Hp.
  assert (Hsame : ok (OrderServer.with_sockets (<[id:=x]> (os_sockets s)) s)) by (by eapply polling_end).
  destruct (TCPSocket.healthy x) eqn:Hh.
  - match goal with |- context [TCPSocket.send (encode_response ?f) x] =>
      destruct (response_frame_sent x f (tcp_polling _ _ _ _ _ Hp) Hh) as [->|(x' & -> & Hs)] end; cbn.
    + by split.
    + destruct (pop_ok _ _ Hr) as (q & -> & Hq' & _). cbn. split; [|done].
      apply (responses_ok (OrderServer.with_sockets (<[id:=x']> (os_sockets s))
        (OrderServer.set_session (rs_client_id r) (mkSession (u64 (se_next_outgoing e + 1)) (se_next_exp e)
           (Some id) (se_epoch e) (se_unknown e)) s))); [|eauto].
      apply (polling_end (length (os_sockets s)) consumed id x' (OrderServer.set_session (rs_client_id r) _ s)).
      eapply session_sent with (x := x) (s := s); eauto; by cbn.
  - unfold TCPSocket.send. rewrite Hh. done.
Qed.

Lemma send_responses_ok fuel b s lr :
  ok s -> queue_ok (os_responses s) lr -> (length lr <= fuel)%nat ->
  fatal_or (λ r, ok r.2) (OrderServer.send_responses fuel b s).
Proof.
  revert b s lr. induction fuel as [|fuel IH]; intros b s lr Hok Hr Hl; cbn [OrderServer.send_responses];
    rewrite (peek_ok _ _ Hr); cbn [mbind res_bind].
  { destruct lr; [exact Hok|cbn in Hl; lia]. }
  destruct lr as [|r lr]; [exact Hok|]. cbn [head].
  eapply ends_bind; [by apply (send_response_ok s r lr)|]. intros [go s1] [Hok1 Hgo].
  destruct go; [|exact Hok1]. apply (IH _ _ lr); [done|by apply Hgo|cbn in Hl; lia].
Qed.

End Server.

Lemma run_server_ok kernel capacity now events accepts consumed s :
  (forall id, kernel_ok (kernel id)) -> server_ok consumed s ->
  fatal_or (server_ok consumed) (OrderServer.run_iteration kernel capacity now events accepts s).
Proof.
  intros Hk Hok. unfold OrderServer.run_iteration.
  eapply ends_bind; [apply fatal_or_assert|]. intros _ _.
  eapply ends_bind; [destruct (os_accepting s); [by apply server_poll_ok|exact Hok]|]. intros s1 Hok1. cbn beta in Hok1.
  eapply ends_bind.
  { destruct (proj1 (always_Ok _ _) (server_polls_ok kernel Hk consumed s1 Hok1)) as (s2 & -> & Hok2). exact Hok2. }
  intros s2 Hok2. cbv zeta.
  set (s3 := if negb (os_accepting s2) && _ then _ else s2).
  assert (Hok3 : server_ok consumed s3) by (unfold s3; case_match; exact Hok2).
  destruct (Hok3) as (adm & (lq & lr & _ & Hlr & _) & _).
  eapply ends_bind; [apply (send_responses_ok consumed _ _ _ lr); [done|done|]|].
  - rewrite (queue_size_ok _ _ Hlr). lia.
  - intros [queued s4] Hok4. destruct queued; [by apply server_flush_ok|exact Hok4].
Qed.

(** ** Runs: the network thread, the matching engine, the main thread *)
Inductive ServerOp : Type :=
  | ServerTurn (now : Z) (events : list PollEvent) (accepts : list bool)
  | TakeRequest
  | Answer (r : MEClientResponse)
  | QuiesceServer
  | StopServer (now : Z).

Definition answer_wf (op : ServerOp) : Prop :=
  match op with Answer r => is_u32 (rs_client_id r) | _ => True end.

Section Run.
Context (kernel : nat -> TcpKernel) (capacity : nat).

(** The server, and the requests that the engine took. *)
Definition server_step (st : OrderServer * list MEClientRequest) (op : ServerOp) :
    res (OrderServer * list MEClientRequest) :=
  let '(s, consumed) := st in
  match op with
  | ServerTurn now events accepts =>
      on ← OrderServer.goes_on s;
      if negb on then Ok st else
      s ← OrderServer.run_iteration kernel capacity now events accepts s;
      Ok (s, consumed)
  | TakeRequest =>
      '(r, q) ← try_pop (os_requests s);
      Ok (OrderServer.with_sequencer (os_sequencer s) q s, consumed ++ option_list r)
  | Answer r =>
      '(_, q) ← try_push r (os_responses s);
      Ok (OrderServer.with_responses q s, consumed)
  | QuiesceServer => Ok (OrderServer.quiesce s, consumed)
  | StopServer now => Ok (OrderServer.stop now s, consumed)
  end.

Lemma server_step_ok st op :
  (forall id, kernel_ok (kernel id)) -> answer_wf op -> server_ok st.2 st.1 ->
  fatal_or (λ st, server_ok st.2 st.1) (server_step st op).
Proof.
  intros Hk Hwf Hok. destruct st as [s consumed]. cbn [fst snd] in Hok.
  destruct (Hok) as (adm & (lq & lr & Hlq & Hlr & Hcli & Hp) & Hc & Hg). destruct op as [now ev ac| |r| |now]; cbn [server_step].
  - unfold OrderServer.goes_on. rewrite (peek_ok _ _ Hlr). cbn [mbind res_bind]. case_match; [exact Hok|].
    eapply ends_bind; [by apply run_server_ok|]. by intros s' Hs'.
  - pose proof (try_pop_ok _ _ Hlq) as Ht. destruct lq as [|x lq].
    + rewrite Ht. cbn. rewrite app_nil_r. exists adm. cbn. split_and!; [|done|done]. by exists [], lr.
    + destruct Ht as (q & -> & Hq & _). cbn. exists adm. cbn. split_and!; [|done|done]. exists lq, lr. cbn.
      split_and!; [done|done|done|]. by rewrite Hp, <- app_assoc.
  - pose proof (try_push_ok _ _ r Hlr) as Ht. destruct (_ =? _).
    + destruct Ht as [-> Hq]. cbn. apply responses_ok; [done|]. intros l Hl Hcl.
      rewrite (queue_contents_unique _ _ _ Hl Hlr) in *. eauto.
    + destruct Ht as (q & -> & Hq & _). cbn. apply responses_ok; [done|]. intros l Hl Hcl.
      rewrite (queue_contents_unique _ _ _ Hl Hlr) in *. exists (lr ++ [r]). split; [done|].
      apply Forall_app. split; [done|]. apply Forall_cons. split; [apply Hwf|constructor].
  - exact Hok.
  - exact Hok.
Qed.

Lemma start_server_ok requests responses audit :
  queue_ok requests [] -> queue_ok responses [] ->
  server_ok [] (OrderServer.start (OrderServer.make requests responses audit)).
Proof.
  intros Hq1 Hq2. exists []. split_and!.
  - exists [], []. by split_and!.
  - constructor; cbn; try done.
    + intros c e He Ho. by apply lookup_replicate in He as [-> _].
    + intros c e id He Ho. apply lookup_replicate in He as [-> _]. done.
  - intros _. constructor; cbn; [constructor|constructor|]. intros c e id x He Ho.
    apply lookup_replicate in He as [-> _]. done.
Qed.

Lemma server_run_ok ops requests responses audit :
  (forall id, kernel_ok (kernel id)) -> Forall answer_wf ops -> queue_ok requests [] -> queue_ok responses [] ->
  fatal_or (λ st, server_ok st.2 st.1)
    (res_fold server_step ops (OrderServer.start (OrderServer.make requests responses audit), [])).
Proof.
  intros Hk Hwf Hq1 Hq2. apply ends_fold; [|by apply start_server_ok].
  intros st op Hop. apply server_step_ok; [done|]. rewrite Forall_forall in Hwf. by apply Hwf.
Qed.

End Run.

(** C9: the responses on a connection are numbered.  Whatever the connections
    send, however the kernel cuts the streams, and however the matching engine
    and the shutdown interleave: the server can only stop by an [ASSERT] or
    [FATAL], and what it has accepted for a connection is a sequence of response
    frames with the numbers 1, 2, 3, ..., rejections included, before and
    after the connection is bound to a client.  The numbering starts again at
    most once, and only on a connection that took over an uncertain session
    or that is closed. *)
Theorem responses_are_numbered kernel capacity ops requests responses audit :
  (forall id, kernel_ok (kernel id)) -> Forall answer_wf ops ->
  queue_ok requests [] -> queue_ok responses [] ->
  fatal_or (λ '(s, _), forall id x, os_sockets s !! id = Some x ->
      exists frames a k,
        ts_wire x ++ TCPSocket.unsent x = response_bytes frames /\
        omrs_seq_num <$> frames = first_numbers a ++ first_numbers k /\
        (a = 0%nat \/ TCPSocket.healthy x = false \/
         exists c e, os_clients s !! id = Some c /\ os_sessions s !! Z.to_nat c = Some e /\
           se_owner e = Some id /\ se_unknown e = true))
    (res_fold (server_step kernel capacity) ops
      (OrderServer.start (OrderServer.make requests responses audit), [])).
Proof.
  intros Hk Hwf Hq1 Hq2. eapply ends_mono; [exact (server_run_ok kernel capacity ops requests responses audit Hk Hwf Hq1 Hq2)|].
  intros [s consumed] (adm & _ & Hc & _) id x Hx. cbn in *.
  destruct (co_conns _ _ _ _ Hc _ _ Hx) as [_ _ (fr & a & k & C & D & E)]. exists fr, a, k. split_and!; [done|done|].
  destruct (os_clients s !! id) as [c|]; [|left; apply E].
  destruct E as [(e & He & Ho & _ & [Ha|Hu])|E]; [by left|right; right; by exists c, e|by right; left].
Qed.

(** C8: no order is admitted twice.  In every such run: of the requests that
    the server admitted (those the engine took, those in its queue and those
    in the sequencer), the ones that change a book have distinct pairs of
    client and sequence number, and carry the epoch of their client's
    session.  (As long as the responses and the requests of a connection
    number less than 2^64.) *)
Theorem requests_admitted_once kernel capacity ops requests responses audit :
  (forall id, kernel_ok (kernel id)) -> Forall answer_wf ops ->
  queue_ok requests [] -> queue_ok responses [] ->
  fatal_or (λ '(s, consumed), exists queued,
      queue_ok (os_requests s) queued /\
      let admitted := consumed ++ queued ++ map request (pending_client_requests (os_sequencer s)) in
      let orders := filter has_effect admitted in
      (Forall (λ x, Z.of_nat (length (ts_wire x ++ TCPSocket.unsent x) + length admitted) < 2 ^ 64 - 2)
         (os_sockets s) ->
       NoDup (request_key <$> orders) /\
       Forall (λ r, exists e, os_sessions s !! Z.to_nat (rq_client_id r) = Some e /\
         is_Some (se_owner e) /\ rq_session_epoch r = se_epoch e) orders))
    (res_fold (server_step kernel capacity) ops
      (OrderServer.start (OrderServer.make requests responses audit), [])).
Proof.
  intros Hk Hwf Hq1 Hq2. eapply ends_mono; [exact (server_run_ok kernel capacity ops requests responses audit Hk Hwf Hq1 Hq2)|].
  intros [s consumed] (adm & (lq & lr & Hlq & _ & _ & Hp) & Hc & Hg). cbn in *. exists lq. split; [done|].
  intros Hb. destruct Hg as [H1 H2 _].
  { unfold bounded. eapply Forall_impl; [exact Hb|]. intros x. cbn. by rewrite Hp. }
  assert (Hf : filter has_effect adm ≡ₚ
    filter has_effect (consumed ++ lq ++ map request (pending_client_requests (os_sequencer s)))) by (by rewrite Hp).
  split; [by rewrite <- Hf|]. rewrite <- Hf. eapply Forall_impl; [exact H2|].
  intros r (e & He & _ & Ho & Hep & _). eauto.
Qed.

(** ** A run: the first connection sends garbage and an order, is answered and
    closes; the second sends garbage, takes the session over with a QUERY, and
    is refused an order. *)
Definition closing_kernel (script : list (nat * list Z)) (n : nat) : TcpKernel := {|
  tk_send := tk_send (scripted_kernel script);
  tk_recv i space := if bool_decide (n <= i)%nat then RecvEnd else tk_recv (scripted_kernel script) i space
|}.

Lemma closing_kernel_ok script n : Forall (λ p, Forall is_byte p.2) script -> kernel_ok (closing_kernel script n).
Proof.
  intros H. destruct (scripted_kernel_ok script H) as [H1 H2]. split; cbn; [exact H1|].
  intros i space bytes t. case_bool_decide; [done|]. apply H2.
Qed.

Definition garbage : list Z := replicate RequestSize 0.
Definition demo_request (type : ClientRequestType) (n id : Z) : list Z :=
  encode_request (mkOMRequest n (mkRequest type 3 0 id BUY 100 5 0 0) 77).
Definition demo_connections (id : nat) : TcpKernel :=
  match id with
  | 0%nat => closing_kernel [(0%nat, garbage ++ demo_request NEW 1 42)] 5
  | _ => closing_kernel [(0%nat, garbage ++ demo_request QUERY 9 42); (3%nat, demo_request NEW 10 43)] 9
  end.
Definition demo_answer (type : ClientResponseType) : MEClientResponse :=
  mkResponse type 3 0 42 1 BUY 100 0 5 NONE 1 0.
Definition server_demo_ops : list ServerOp :=
  [ServerTurn 0 [ListenerReady] [true]; TakeRequest; Answer (demo_answer ACCEPTED);
   ServerTurn 0 [] []; ServerTurn 0 [ListenerReady] [true]; TakeRequest; Answer (demo_answer STATE);
   ServerTurn 0 [] []].

Lemma demo_connections_ok id : kernel_ok (demo_connections id).
Proof.
  destruct id; apply closing_kernel_ok; apply (bool_decide_unpack _); vm_compute; exact I.
Qed.

Definition demo_server_run (q1 : LFQueue MEClientRequest) (q2 : LFQueue MEClientResponse) :
    res (OrderServer * list MEClientRequest) :=
  res_fold (server_step demo_connections 400) server_demo_ops
    (OrderServer.start (OrderServer.make q1 q2 None), []).

Definition demo_queue {A} (d : A) : LFQueue A := mkQueue (replicate 4 d) 3 7 0 0 0 0.

Lemma answer_queue_ok {A} (d : A) : queue_ok (demo_queue d) [].
Proof. assert (E : queue_new d 4 = Some (demo_queue d)) by reflexivity. by apply queue_new_ok in E as [? _]. Qed.

Lemma server_demo_answers : Forall answer_wf server_demo_ops.
Proof. unfold server_demo_ops. repeat constructor; done. Qed.

(** The numbers in the bytes of a connection. *)
Fixpoint response_numbers (n : nat) (bytes : list Z) : list Z :=
  match n with
  | O => []
  | S n =>
      match decode_response bytes default_OMClientResponse with
      | Ok (true, f) => omrs_seq_num f :: response_numbers n (drop ResponseSize bytes)
      | _ => []
      end
  end.

(** The second connection got the number 1 twice. *)
Lemma responses_are_numbered_witness :
  exists s consumed x frames a k,
    demo_server_run (demo_queue default_MEClientRequest) (demo_queue default_MEClientResponse) = Ok (s, consumed) /\
    os_sockets s !! 1%nat = Some x /\
    response_numbers 9 (ts_wire x ++ TCPSocket.unsent x) = [1; 1; 2] /\
    ts_wire x ++ TCPSocket.unsent x = response_bytes frames /\
    omrs_seq_num <$> frames = first_numbers a ++ first_numbers k.
Proof.
  pose proof (responses_are_numbered demo_connections 400 server_demo_ops (demo_queue default_MEClientRequest)
    (demo_queue default_MEClientResponse) None demo_connections_ok server_demo_answers (answer_queue_ok _)
    (answer_queue_ok _)) as H.
  fold (demo_server_run (demo_queue default_MEClientRequest) (demo_queue default_MEClientResponse)) in H.
  assert (Hn : match demo_server_run (demo_queue default_MEClientRequest) (demo_queue default_MEClientResponse) with
    | Ok (s, _) => match os_sockets s !! 1%nat with
        | Some x => response_numbers 9 (ts_wire x ++ TCPSocket.unsent x) | None => [] end
    | Err _ => [] end = [1; 1; 2]) by (vm_compute; reflexivity).
  destruct (demo_server_run _ _) as [[s consumed]|f]; [|done]. destruct (os_sockets s !! 1%nat) as [x|] eqn:Hx; [|done].
  destruct (H 1%nat x Hx) as (frames & a & k & H1 & H2 & _).
  exists s, consumed, x, frames, a, k. by split_and!.
Defined.

Lemma requests_admitted_once_witness :
  exists s consumed queued,
    demo_server_run (demo_queue default_MEClientRequest) (demo_queue default_MEClientResponse) = Ok (s, consumed) /\
    request_key <$> consumed = [(3, 1); (3, 9)] /\
    NoDup (request_key <$> filter has_effect
      (consumed ++ queued ++ map request (pending_client_requests (os_sequencer s)))).
Proof.
  pose proof (requests_admitted_once demo_connections 400 server_demo_ops (demo_queue default_MEClientRequest)
    (demo_queue default_MEClientResponse) None demo_connections_ok server_demo_answers (answer_queue_ok _)
    (answer_queue_ok _)) as H.
  fold (demo_server_run (demo_queue default_MEClientRequest) (demo_queue default_MEClientResponse)) in H.
  assert (Hn : match demo_server_run (demo_queue default_MEClientRequest) (demo_queue default_MEClientResponse) with
    | Ok (s, c) => (request_key <$> c, queue_size (os_requests s), pending_client_requests (os_sequencer s),
        (λ x, length (ts_wire x ++ TCPSocket.unsent x)) <$> os_sockets s)
    | Err _ => ([], 1, [], []) end = ([(3, 1); (3, 9)], 0, [], [158%nat; 237%nat])) by (vm_compute; reflexivity).
  destruct (demo_server_run _ _) as [[s consumed]|f]; [|done]. injection Hn as Hc Hq Hp Hl.
  destruct H as (queued & Hqueued & H). exists s, consumed, queued. split; [done|]. split; [done|].
  apply H. rewrite (queue_size_ok _ _ Hqueued) in Hq. destruct queued; [|cbn in Hq; lia].
  apply (f_equal length) in Hc. rewrite length_fmap in Hc. rewrite Hp. cbn. rewrite app_nil_r, Hc.
  apply Forall_fmap with (P := λ n, Z.of_nat (n + 2) < 2 ^ 64 - 2). rewrite Hl. repeat constructor.
Defined.
