(* ===== verification/ServerDelivery.v ===== *)
(** What one turn of the order server's thread leaves to the others: the
    requests it queues are well-formed, the responses it takes are in the
    stream of a connection, and once it accepts nothing more and its sequencer
    is empty the request queue does not change. *)
From S2P Require Import Prelude.
From S2P Require Import Types.
From S2P Require Import Wire.
From S2P Require Import LFQueue.
From S2P Require Import Journal.
From S2P Require Import FIFOSequencer.
From S2P Require Import TcpSocket.
From S2P Require Import OrderServer.
From S2P Require Import ServerTheorems.
From stdpp Require Import base list gmap.
From Stdlib Require Import ZArith Lia.

Local Open Scope Z_scope.
Local Arguments encode_response : simpl never.

(** The streams of the connections only grow. *)
Definition grown (socks socks' : list TCPSocket) : Prop :=
  forall id x, socks !! id = Some x ->
    exists x', socks' !! id = Some x' /\ accepted_bytes x `prefix_of` accepted_bytes x'.

(** A frame with the response is in a stream. *)
Definition delivered (socks : list TCPSocket) (r : MEClientResponse) : Prop :=
  exists id x before number epoch after, socks !! id = Some x /\
    accepted_bytes x = before ++ encode_response (mkOMResponse number r epoch) ++ after.

Definition pending_requests (s : OrderServer) : list MEClientRequest :=
  map request (pending_client_requests (os_sequencer s)).

Record turn (s s' : OrderServer) : Prop := {
  tn_grown : grown (os_sockets s) (os_sockets s');
  tn_accepting : os_accepting s' = os_accepting s;
  tn_run : os_run s' = os_run s;
  tn_stays : os_quiesced s = true -> os_quiesced s' = true;
  tn_quiesced : os_quiesced s' = true ->
    os_quiesced s = true \/ os_accepting s' = false /\ pending_requests s' = [];
  tn_requests lq : queue_ok (os_requests s) lq ->
    exists lq' new, queue_ok (os_requests s') lq' /\
      lq' ++ pending_requests s' ≡ₚ (lq ++ pending_requests s) ++ new /\ Forall request_wf new /\
      u64 (os_accepted s') = u64 (os_accepted s + Z.of_nat (length new));
  tn_closed : os_accepting s = false -> pending_requests s = [] ->
    os_requests s' = os_requests s /\ pending_requests s' = [];
  tn_responses lr : queue_ok (os_responses s) lr ->
    exists sent lr', lr = sent ++ lr' /\ queue_ok (os_responses s') lr' /\ Forall (delivered (os_sockets s')) sent
}.

Lemma grown_refl socks : grown socks socks.
Proof. intros id x Hx. by exists x. Qed.

Lemma grown_trans a b c : grown a b -> grown b c -> grown a c.
Proof.
  intros H1 H2 id x Hx. destruct (H1 id x Hx) as (y & Hy & Hxy). destruct (H2 id y Hy) as (z & Hz & Hyz).
  exists z. split; [done|]. by etrans.
Qed.

Lemma grown_insert socks id x x' :
  socks !! id = Some x -> accepted_bytes x `prefix_of` accepted_bytes x' -> grown socks (<[id := x']> socks).
Proof.
  intros Hx Hp j y Hj. destruct (decide (j = id)) as [->|Hne].
  - exists x'. rewrite list_lookup_insert_eq by (by eapply lookup_lt_Some). split; [done|]. congruence.
  - exists y. by rewrite list_lookup_insert_ne.
Qed.

Lemma delivered_grown a b r : grown a b -> delivered a r -> delivered b r.
Proof.
  intros H (id & x & before & n & e & after & Hx & E). destruct (H id x Hx) as (x' & Hx' & [more Hm]).
  exists id, x', before, n, e, (after ++ more). split; [done|]. by rewrite Hm, E, <- !app_assoc.
Qed.

Lemma u64_count a b c m n :
  u64 b = u64 (a + Z.of_nat m) -> u64 c = u64 (b + Z.of_nat n) -> u64 c = u64 (a + Z.of_nat (m + n)).
Proof.
  unfold u64. intros H1 ->. rewrite <- Zplus_mod_idemp_l, H1, Zplus_mod_idemp_l. f_equal. lia.
Qed.

(** A step that leaves the requests alone. *)
Lemma requests_same s s' lq :
  os_requests s' = os_requests s -> os_sequencer s' = os_sequencer s -> os_accepted s' = os_accepted s ->
  queue_ok (os_requests s) lq ->
  exists lq' new, queue_ok (os_requests s') lq' /\
    lq' ++ pending_requests s' ≡ₚ (lq ++ pending_requests s) ++ new /\ Forall request_wf new /\
    u64 (os_accepted s') = u64 (os_accepted s + Z.of_nat (length new)).
Proof.
  intros -> E -> Hq. exists lq, []. unfold pending_requests. rewrite E. split_and!; [done|by rewrite app_nil_r|constructor|].
  f_equal. cbn. lia.
Qed.

Lemma responses_same s s' lr :
  os_responses s' = os_responses s -> queue_ok (os_responses s) lr ->
  exists sent lr', lr = sent ++ lr' /\ queue_ok (os_responses s') lr' /\ Forall (delivered (os_sockets s')) sent.
Proof. intros ->. by exists [], lr. Qed.
#[local] Hint Resolve requests_same responses_same grown_refl : core.

Lemma turn_refl s : turn s s.
Proof. split; eauto. Qed.

Lemma turn_trans a b c : turn a b -> turn b c -> turn a c.
Proof.
  intros [G1 A1 R1 M1 Q1 Y1 C1 S1] [G2 A2 R2 M2 Q2 Y2 C2 S2].
  split; [by eapply grown_trans|congruence|congruence|by auto| | | |].
  - intros Hq. destruct (Q2 Hq) as [Hb|Hb]; [|by right]. destruct (Q1 Hb) as [Ha|[Ha Hp]]; [by left|right].
    split; [congruence|]. by apply C2.
  - intros lq Hlq. destruct (Y1 lq Hlq) as (lq1 & n1 & Hlq1 & P1 & W1 & U1).
    destruct (Y2 lq1 Hlq1) as (lq2 & n2 & Hlq2 & P2 & W2 & U2). exists lq2, (n1 ++ n2). split; [done|].
    split; [by rewrite P2, P1, <- !app_assoc|]. split; [by apply Forall_app|].
    rewrite length_app. by eapply u64_count.
  - intros Ha Hp. destruct (C1 Ha Hp) as [E P]. destruct (C2 ltac:(congruence) P) as [E' P']. split; [congruence|done].
  - intros lr Hlr. destruct (S1 lr Hlr) as (sent & lr1 & -> & Hlr1 & Hs).
    destruct (S2 lr1 Hlr1) as (sent' & lr2 & -> & Hlr2 & Hs'). exists (sent ++ sent'), lr2.
    split; [by rewrite app_assoc|]. split; [done|]. apply Forall_app. split; [|done].
    eapply Forall_impl; [exact Hs|]. intros r. by apply delivered_grown.
Qed.

(** ** One frame *)

(** Everything but the session tables, the counters and the audit. *)
Record same_rest (s s' : OrderServer) : Prop := {
  sr_queues : same_queues s s';
  sr_accepting : os_accepting s' = os_accepting s;
  sr_quiesced : os_quiesced s' = os_quiesced s;
  sr_run : os_run s' = os_run s;
  sr_accepted : os_accepted s' = os_accepted s
}.

Lemma same_rest_refl s : same_rest s s.
Proof. by repeat split. Qed.

Lemma same_rest_trans a b c : same_rest a b -> same_rest b c -> same_rest a c.
Proof. intros [[] ? ? ? ?] [[] ? ? ? ?]. repeat split; congruence. Qed.

Ltac rest_cases :=
  repeat match goal with
  | H : (_ ≫= _) = Ok _ |- _ => apply bind_Ok in H; destruct H as (? & ? & H)
  | H : context [match ?x with _ => _ end] |- _ => destruct x eqn:?; cbn [mbind res_bind] in H; try discriminate H
  | H : Ok _ = Ok _ |- _ => injection H as H; subst
  | H : (_, _) = (_, _) |- _ => injection H as H; subst
  end.

Lemma bind_client_rest id c e s s' : OrderServer.bind_client id c e s = Ok s' -> same_rest s s'.
Proof.
  unfold OrderServer.bind_client, OrderServer.anonymous. intros H. rest_cases; by repeat split.
Qed.

Lemma request_done_rest c s s' : OrderServer.request_done c s = Ok s' -> same_rest s s'.
Proof. unfold OrderServer.request_done. intros H. rest_cases; by repeat split. Qed.

Lemma check_owner_rest id q s reason s' : OrderServer.check_owner id q s = Ok (reason, s') -> same_rest s s'.
Proof.
  unfold OrderServer.check_owner, OrderServer.take_over. intros H. rest_cases; by repeat split.
Qed.

Lemma check_session_rest id q s reason s' : OrderServer.check_session id q s = Ok (reason, s') -> same_rest s s'.
Proof.
  unfold OrderServer.check_session. intros H.
  destruct (ME_MAX_NUM_CLIENTS <=? _); [injection H as <- <-; apply same_rest_refl|].
  apply bind_Ok in H as ([reason1 s1] & H1 & H). apply check_owner_rest in H1. rest_cases; done.
Qed.

(** What the handling of frames does to a connection and the server. *)
Record frame_effect (x : TCPSocket) (s : OrderServer) (x' : TCPSocket) (s' : OrderServer) : Prop := {
  fe_tcp : tcp_ok x';
  fe_inbound : ts_inbound x' = ts_inbound x;
  fe_stream : ts_stream x' = ts_stream x;
  fe_prefix : accepted_bytes x `prefix_of` accepted_bytes x';
  fe_sockets : os_sockets s' = os_sockets s;
  fe_requests : os_requests s' = os_requests s;
  fe_responses : os_responses s' = os_responses s;
  fe_accepting : os_accepting s' = os_accepting s;
  fe_quiesced : os_quiesced s' = os_quiesced s;
  fe_run : os_run s' = os_run s;
  fe_pending : exists new, pending_requests s' = pending_requests s ++ new /\ Forall request_wf new /\
    u64 (os_accepted s') = u64 (os_accepted s + Z.of_nat (length new))
}.

Lemma effect_rest x s x' s' :
  tcp_ok x' -> ts_inbound x' = ts_inbound x -> ts_stream x' = ts_stream x ->
  accepted_bytes x `prefix_of` accepted_bytes x' -> same_rest s s' -> frame_effect x s x' s'.
Proof.
  intros Ht Hi Hst Hp [[S1 S2 S3 S4] ? ? ? S5]. split; try done. exists []. unfold pending_requests.
  rewrite S2, S5, app_nil_r. split_and!; [done|constructor|]. f_equal. cbn. lia.
Qed.

Lemma effect_trans x s x1 s1 x2 s2 : frame_effect x s x1 s1 -> frame_effect x1 s1 x2 s2 -> frame_effect x s x2 s2.
Proof.
  intros [? ? ? P1 ? ? ? ? ? ? (n1 & E1 & W1 & U1)] [? ? ? P2 ? ? ? ? ? ? (n2 & E2 & W2 & U2)].
  split; try congruence; [by etrans|]. exists (n1 ++ n2).
  split; [by rewrite E2, E1, app_assoc|]. split; [by apply Forall_app|]. rewrite length_app. by eapply u64_count.
Qed.

Lemma reject_effect id q reason x s b x' s' :
  tcp_ok x -> OrderServer.reject id q reason (x, s) = Ok (b, (x', s')) -> frame_effect x s x' s'.
Proof.
  intros Hx H. unfold OrderServer.reject in H.
  apply bind_Ok in H as ([number s1] & H1 & H).
  assert (Hs1 : same_rest s s1).
  { unfold OrderServer.anonymous in H1. rest_cases; by repeat split. }
  match type of H with context [TCPSocket.send ?f x] =>
    destruct (tcp_send_ok f x Hx) as (result & y & E & Hy & Hr & Hi & Hst & _); rewrite E in H; cbn [mbind res_bind] in H
  end.
  assert (Hp : accepted_bytes x `prefix_of` accepted_bytes y).
  { destruct result; [destruct Hr as [-> _]; by eexists|destruct Hr as [-> _]; reflexivity..]. }
  case_bool_decide; [injection H as <- <- <-; by apply effect_rest|].
  apply bind_Ok in H as (? & _ & H). apply bind_Ok in H as (s2 & H2 & H). injection H as <- <- <-.
  apply effect_rest; [done..|]. eapply same_rest_trans; [exact Hs1|]. rest_cases; by repeat split.
Qed.

Lemma handle_effect id t q reason x s b x' s' :
  tcp_ok x -> (reason = NONE -> request_wf (omrq_request q)) ->
  OrderServer.handle id t q reason (x, s) = Ok (b, (x', s')) -> frame_effect x s x' s'.
Proof.
  intros Hx Hq H. unfold OrderServer.handle in H. cbn [fst snd] in H.
  destruct (bool_decide_reflect (reason = NONE)) as [Hn|Hn]; cbn [andb negb] in H; [|by eapply reject_effect].
  destruct (bool_decide_reflect (validate (omrq_request q) = NONE)) as [Hv|Hv]; cbn [negb] in H.
  - destruct (FIFOSequencer.canAccept (os_sequencer s)) eqn:Ec; cbn [negb] in H;
      [|injection H as <- <- <-; by apply effect_rest].
    cbn [OrderServer.with_audit os_sequencer] in H. rewrite (can_accept _ _ _ Ec) in H. cbn [ASSERT mbind res_bind] in H.
    apply bind_Ok in H as (s1 & H1 & H). apply bind_Ok in H as (s2 & H2 & H). injection H as <- <- <-.
    apply bind_client_rest in H1. apply request_done_rest in H2.
    destruct (same_rest_trans _ _ _ H1 H2) as [[S1 S2 S3 S4] S5 S6 S7 S8]. split; try done.
    exists [omrq_request q]. unfold pending_requests. cbn [OrderServer.with_counts os_sequencer os_accepted].
    rewrite S2, S8. split; [cbn; by rewrite map_app|]. split; [by apply Forall_singleton, Hq|].
    unfold u64. by rewrite Zmod_mod.
  - apply bind_Ok in H as (s1 & H1 & H). apply bind_Ok in H as ([ok [y s2]] & H2 & H).
    apply bind_client_rest in H1. apply reject_effect in H2; [|done].
    apply (effect_trans _ _ x s1); [by apply effect_rest|].
    destruct ok; [|by injection H as <- <- <-]. apply bind_Ok in H as (s3 & H3 & H). injection H as <- <- <-.
    apply request_done_rest in H3. apply (effect_trans _ _ _ _ _ _ H2). by apply effect_rest; [apply H2| | | |].
Qed.

Lemma recv_frames_effect fuel id t n bytes x s n' x' s' :
  tcp_ok x -> Forall is_byte bytes ->
  OrderServer.recv_frames fuel id t n bytes (x, s) = Ok (n', (x', s')) -> frame_effect x s x' s'.
Proof.
  revert n bytes x s. induction fuel as [|fuel IH]; intros n bytes x s Hx Hb H; cbn [OrderServer.recv_frames] in H;
    case_bool_decide; try discriminate H; try (injection H as <- <- <-; by apply effect_rest).
  apply bind_Ok in H as ([ok q] & Hd & H). apply bind_Ok in H as ([reason s1] & Hr & H).
  apply bind_Ok in H as ([go [y s2]] & Hh & H).
  assert (Hs1 : same_rest s s1 /\ (reason = NONE -> request_wf (omrq_request q))).
  { destruct ok; [|injection Hr as <- <-; split; [apply same_rest_refl|done]].
    split; [by eapply check_session_rest|]. intros _. by apply (decode_request_inv _ _ _ Hb) in Hd as [(_ & _ & ?) _]. }
  destruct Hs1 as [Hs1 Hq]. apply handle_effect in Hh; [|done|done].
  apply (effect_trans _ _ x s1); [by apply effect_rest|]. apply (effect_trans _ _ _ _ _ _ Hh).
  destruct go; [|injection H as <- <- <-; by apply effect_rest; [apply Hh| | | |apply same_rest_refl]].
  eapply IH; [apply Hh|by apply Forall_drop|exact H].
Qed.

(** ** Polling a connection *)
Definition at_socket (id : nat) (x : TCPSocket) (s : OrderServer) : OrderServer :=
  OrderServer.with_sockets (<[id := x]> (os_sockets s)) s.

Lemma at_socket_same id x s : os_sockets s !! id = Some x -> at_socket id x s = s.
Proof. intros Hx. unfold at_socket. rewrite (list_insert_id _ _ _ Hx). by destruct s. Qed.

Lemma grown_at socks id x x' :
  accepted_bytes x `prefix_of` accepted_bytes x' -> grown (<[id := x]> socks) (<[id := x']> socks).
Proof.
  intros Hp. rewrite <- (list_insert_insert_eq socks id x' x). destruct (decide (id < length socks)%nat) as [Hlt|Hge].
  - eapply grown_insert; [by apply list_lookup_insert_eq|done].
  - rewrite !list_insert_ge by (rewrite ?length_insert; lia). apply grown_refl.
Qed.

Lemma socket_turn id x x' s :
  accepted_bytes x `prefix_of` accepted_bytes x' -> turn (at_socket id x s) (at_socket id x' s).
Proof.
  intros Hp. split; eauto. by apply grown_at.
Qed.

Lemma effect_turn id x s x' s' :
  frame_effect x s x' s' -> os_accepting s = true -> turn (at_socket id x s) (at_socket id x' s').
Proof.
  intros [_ _ _ Hp E1 E2 E3 E4 E5 E6 (new & E7 & Hw & E8)] Ha. unfold at_socket. split; cbn.
  - rewrite E1. by apply grown_at.
  - done.
  - done.
  - by rewrite E5.
  - rewrite E5. by left.
  - intros lq Hlq. exists lq, new. rewrite E2. split; [done|]. split; [|done].
    unfold pending_requests in *. cbn. by rewrite E7, app_assoc.
  - congruence.
  - intros lr Hlr. exists [], lr. by rewrite E3.
Qed.

(** A connection as the kernel and the callback leave it. *)
Definition sane (x : TCPSocket) : Prop := tcp_ok x /\ Forall is_byte (ts_inbound x).

Lemma callback_turn id t x s x' s' :
  sane x -> OrderServer.recvCallback id t (x, s) = Ok (x', s') ->
  sane x' /\ os_sockets s' = os_sockets s /\ turn (at_socket id x s) (at_socket id x' s').
Proof.
  intros [Hx Hb] H. unfold OrderServer.recvCallback in H. destruct (os_accepting s) eqn:Ha; cbn [negb] in H.
  2:{ injection H as <- <-. split; [done|]. split; [done|apply turn_refl]. }
  apply bind_Ok in H as ([n [y s1]] & H1 & H). injection H as <- <-.
  apply recv_frames_effect in H1; [|done|done]. pose proof H1 as [[T1 T2] Hi _ _ E _ _ _ _ _ _]. split; [|split].
  - split; [|cbn; apply Forall_drop; by rewrite Hi]. constructor; cbn; [done|]. rewrite length_drop. lia.
  - exact E.
  - eapply turn_trans; [by apply (effect_turn id x s y s1)|]. by apply socket_turn.
Qed.

Section Server.
Context (kernel : nat -> TcpKernel) (capacity : nat) (Hk : forall id, kernel_ok (kernel id)).

Notation holds := (ends (λ _, True)).

Lemma poll_connection_turn s id :
  Forall sane (os_sockets s) ->
  holds (λ s', Forall sane (os_sockets s') /\ turn s s') (OrderServer.poll_connection kernel s id).
Proof.
  intros Hs. unfold OrderServer.poll_connection. destruct (os_sockets s !! id) as [x|] eqn:Hx; [|done].
  cbn [deref mbind res_bind]. set (I := λ st : TCPSocket * OrderServer, sane st.1 /\
    Forall sane (os_sockets st.2) /\ turn (at_socket id x s) (at_socket id st.1 st.2)).
  assert (Hend : holds (λ r, I r.2) (TCPSocket.sendAndRecv (kernel id) (OrderServer.recvCallback id) (x, s))).
  { apply (sendAndRecv_rule (kernel id) (Hk id)).
    - by intros y o [[? _] _].
    - intros y y' o ([Hy Hb] & Ho & Ht) Hq. split; [|split; [done|]].
      + split; [by apply (qu_ok _ _ Hq)|]. cbn. by rewrite (qu_inbound _ _ Hq).
      + eapply turn_trans; [exact Ht|]. apply socket_turn. cbn. by rewrite (qu_accepted _ _ Hq).
    - intros y o bytes t ([[Hy1 Hy2] Hb] & Ho & Ht) Hbytes _ Hl. split; [|split; [done|]].
      + split; cbn; [constructor; cbn; [done|by rewrite length_app]|by apply Forall_app].
      + eapply turn_trans; [exact Ht|]. by apply socket_turn.
    - intros t y o (Hy & Ho & Ht) _. destruct (OrderServer.recvCallback id t (y, o)) as [[y' o']|] eqn:E; [|done].
      destruct (callback_turn id t y o y' o' Hy E) as (Hy' & Eo & Ht'). split; [done|]. cbn [snd]. rewrite Eo.
      split; [done|]. by eapply turn_trans.
    - split; [by eapply Forall_lookup_1|]. split; [done|]. apply turn_refl. }
  eapply ends_bind; [exact Hend|]. intros [got [y o]] (Hy & Ho & Ht). cbn [snd fst] in Hy, Ho, Ht.
  cbn [ends OrderServer.with_sockets os_sockets]. split; [by apply Forall_insert|].
  by rewrite (at_socket_same id x s Hx) in Ht.
Qed.

Lemma polls_turn l s :
  Forall sane (os_sockets s) ->
  holds (λ s', Forall sane (os_sockets s') /\ turn s s') (res_fold (OrderServer.poll_connection kernel) l s).
Proof.
  intros Hs. apply ends_fold; [|split; [done|apply turn_refl]]. intros s1 id _ [H1 T1].
  eapply ends_mono; [by apply poll_connection_turn|]. intros s2 [H2 T2]. split; [done|by eapply turn_trans].
Qed.

(** ** The rest of a turn *)
Lemma finished_turn s : holds (turn s) (OrderServer.recvFinishedCallback s).
Proof.
  unfold OrderServer.recvFinishedCallback.
  destruct (FIFOSequencer.sequenceAndPublish (os_sequencer s) (os_requests s)) as [[f q]|] eqn:E; [|done].
  cbn [mbind res_bind ends]. split; eauto; cbn.
  - intros lq Hlq. destruct (sequenceAndPublish_ok (os_sequencer s) _ _ Hlq) as (q' & E' & Hq' & _).
    rewrite E in E'. injection E' as -> ->. set (n := Z.to_nat _) in *.
    eexists _, []. split; [exact Hq'|]. split; [|split; [constructor|f_equal; cbn; lia]].
    unfold pending_requests. cbn. rewrite app_nil_r, <- app_assoc, <- map_app, take_drop. by rewrite stable_sort_perm.
  - unfold pending_requests. intros _ Hp. apply map_eq_nil in Hp.
    unfold FIFOSequencer.sequenceAndPublish, FIFOSequencer.pending in E. rewrite Hp in E.
    rewrite bool_decide_true in E by done. injection E as <- <-. cbn. by rewrite Hp.
Qed.

Lemma push_turn s listed :
  Forall sane (os_sockets s) ->
  holds (λ s', Forall sane (os_sockets s') /\ turn s s') (OrderServer.push_socket capacity listed s).
Proof.
  intros Hs. unfold OrderServer.push_socket, TCPSocket.make.
  destruct (bool_decide (0 < capacity)%nat); [|done]. cbn. split.
  - apply Forall_app. split; [done|]. apply Forall_singleton. split; [|constructor]. constructor; cbn; lia.
  - split; eauto. intros id x Hx. exists x. split; [by apply lookup_app_l_Some|done].
Qed.

Lemma accept_turn s b :
  Forall sane (os_sockets s) ->
  holds (λ s', Forall sane (os_sockets s') /\ turn s s') (OrderServer.accept_one capacity s b).
Proof.
  intros Hs. unfold OrderServer.accept_one. case_match; [split; [done|apply turn_refl]|].
  destruct b; [|done]. cbn [ASSERT mbind res_bind]. by apply push_turn.
Qed.

Lemma poll_turn events accepts s :
  Forall sane (os_sockets s) ->
  holds (λ s', Forall sane (os_sockets s') /\ turn s s') (OrderServer.poll capacity events accepts s).
Proof.
  intros Hs. unfold OrderServer.poll. apply (ends_bind (λ s', Forall sane (os_sockets s') /\ turn s s')).
  { case_match; [by apply push_turn|split; [done|apply turn_refl]]. }
  intros s0 [H0 T0]. case_match; [|by split].
  apply ends_fold; [|by split]. intros s1 b _ [H1 T1].
  eapply ends_mono; [by apply accept_turn|]. intros s2 [H2 T2]. split; [done|by eapply turn_trans].
Qed.

Lemma flush_turn s :
  Forall sane (os_sockets s) ->
  Forall sane (os_sockets (OrderServer.flushSend kernel s)) /\ turn s (OrderServer.flushSend kernel s).
Proof.
  intros Hs. unfold OrderServer.flushSend. set (socks := imap _ _).
  assert (Hq : forall id x, os_sockets s !! id = Some x -> exists y, socks !! id = Some y /\ quiet x y).
  { intros id x Hx. unfold socks. rewrite list_lookup_imap, Hx. eexists. split; [done|]. case_bool_decide; [apply quiet_refl|].
    apply flushSend_quiet; [done|]. by apply (Forall_lookup_1 _ _ _ _ Hs Hx). }
  cbn [OrderServer.with_sockets os_sockets]. split.
  - apply Forall_lookup. intros id y Hy.
    destruct (lookup_lt_is_Some_2 (os_sockets s) id) as [x Hx].
    { apply lookup_lt_Some in Hy. unfold socks in Hy. by rewrite length_imap in Hy. }
    destruct (Hq id x Hx) as (y' & Hy' & Hxy). assert (y' = y) as -> by congruence.
    destruct (Forall_lookup_1 _ _ _ _ Hs Hx). split; [by apply (qu_ok _ _ Hxy)|]. by rewrite (qu_inbound _ _ Hxy).
  - split; eauto. intros id x Hx. destruct (Hq id x Hx) as (y & Hy & Hxy). exists y. by rewrite (qu_accepted _ _ Hxy).
Qed.

Lemma send_response_turn s r lr :
  Forall sane (os_sockets s) -> queue_ok (os_responses s) (r :: lr) ->
  holds (λ '(go, s'), Forall sane (os_sockets s') /\ turn s s' /\
    (go = true -> queue_ok (os_responses s') lr)) (OrderServer.send_response r s).
Proof.
  intros Hs Hr. unfold OrderServer.send_response.
  destruct (ASSERT _) as [[]|]; [|done]. cbn [mbind res_bind].
  destruct (OrderServer.session (rs_client_id r) s) as [e|]; [|done]. cbn [mbind res_bind].
  destruct (ASSERT _) as [[]|]; [|done]. cbn [mbind res_bind].
  destruct (se_owner e) as [id|]; [|done]. cbn [deref mbind res_bind].
  destruct (os_sockets s !! id) as [x|] eqn:Hx; [|done]. cbn [deref mbind res_bind].
  pose proof (Forall_lookup_1 _ _ _ _ Hs Hx) as [Ht Hb].
  match goal with |- context [TCPSocket.send (encode_response ?f) x] =>
    destruct (tcp_send_ok (encode_response f) x Ht) as (status & y & E & Hy & Hst & Hi & _); rewrite E end.
  cbn [mbind res_bind].
  assert (Hsane : Forall sane (<[id := y]> (os_sockets s))).
  { apply Forall_insert; [done|]. split; [done|]. by rewrite Hi. }
  destruct status; cbn [bool_decide].
  - rewrite bool_decide_false by done. rewrite bool_decide_true by done. cbn [ASSERT mbind res_bind].
    destruct (pop_ok _ _ Hr) as (q & Eq & Hq & _). cbn [OrderServer.with_sockets os_responses]. rewrite Eq.
    cbn [mbind res_bind ends]. split; [exact Hsane|]. destruct Hst as [Hacc _].
    assert (Hg : grown (os_sockets s) (<[id := y]> (os_sockets s))).
    { eapply grown_insert; [exact Hx|]. rewrite Hacc. by eexists. }
    split; [|by intros _]. split; eauto. cbn. intros lr0 Hlr0.
    rewrite (queue_contents_unique _ _ _ Hlr0 Hr). exists [r], lr. split; [done|]. split; [done|].
    apply Forall_singleton. exists id, y, (accepted_bytes x), (se_next_outgoing e), (se_epoch e), [].
    rewrite list_lookup_insert_eq by (by eapply lookup_lt_Some). split; [done|]. by rewrite app_nil_r.
  - rewrite bool_decide_true by done. cbn [ends]. destruct Hst as [-> _]. split; [exact Hsane|]. split; [|done].
    rewrite (list_insert_id _ _ _ Hx). destruct s. apply turn_refl.
  - rewrite bool_decide_false by done. rewrite bool_decide_false by done. done.
Qed.

Lemma send_responses_turn fuel b s lr :
  Forall sane (os_sockets s) -> queue_ok (os_responses s) lr ->
  holds (λ r, Forall sane (os_sockets r.2) /\ turn s r.2) (OrderServer.send_responses fuel b s).
Proof.
  revert b s lr. induction fuel as [|fuel IH]; intros b s lr Hs Hr; cbn [OrderServer.send_responses];
    rewrite (peek_ok _ _ Hr); cbn [mbind res_bind]; destruct lr as [|r lr]; cbn [head];
    try (split; [done|apply turn_refl]); [done|].
  eapply ends_bind; [by apply (send_response_turn s r lr)|]. intros [go s1] (H1 & T1 & Hgo).
  destruct go; [|by split]. eapply ends_mono; [apply (IH _ _ lr); auto|].
  intros [b' s2] [H2 T2]. split; [done|]. by eapply turn_trans.
Qed.

Lemma run_iteration_turn now events accepts s :
  Forall sane (os_sockets s) -> (exists lr, queue_ok (os_responses s) lr) ->
  holds (λ s', Forall sane (os_sockets s') /\ turn s s')
    (OrderServer.run_iteration kernel capacity now events accepts s).
Proof.
  intros Hs [lr Hlr]. unfold OrderServer.run_iteration.
  destruct (ASSERT _) as [[]|]; [|done]. cbn [mbind res_bind].
  apply (ends_bind (λ s', Forall sane (os_sockets s') /\ turn s s')).
  { destruct (os_accepting s); [by apply poll_turn|split; [done|apply turn_refl]]. }
  intros s1 [H1 T1]. unfold OrderServer.sendAndRecv.
  apply (ends_bind (λ s', Forall sane (os_sockets s') /\ turn s s')).
  { eapply ends_bind; [by apply (polls_turn _ s1)|]. intros s2 [H2 T2].
    pose proof (finished_turn s2) as Hf. unfold OrderServer.recvFinishedCallback in *.
    destruct (FIFOSequencer.sequenceAndPublish _ _) as [[f q]|]; [|done]. cbn [mbind res_bind ends] in *.
    split; [exact H2|]. eapply turn_trans; [exact T1|]. by eapply turn_trans. }
  intros s3 [H3 T3]. set (s4 := if negb (os_accepting s3) && _ then _ else s3).
  assert (T4 : Forall sane (os_sockets s4) /\ turn s s4).
  { unfold s4. destruct (os_accepting s3) eqn:Ea; cbn [negb andb]; [by split|]. case_bool_decide as Hp; [|by split].
    split; [done|]. eapply turn_trans; [exact T3|]. split; eauto.
    intros _. right. split; [done|]. unfold pending_requests, FIFOSequencer.pending in *. cbn.
    by destruct (pending_client_requests (os_sequencer s3)). }
  destruct T4 as [H4 T4]. destruct (tn_responses _ _ T4 lr Hlr) as (sent & lr4 & _ & Hlr4 & _).
  eapply ends_bind; [by apply (send_responses_turn _ _ s4 lr4)|]. intros [queued s5] [H5 T5]. cbn [snd] in *.
  destruct queued; cbn [ends].
  - destruct (flush_turn s5 H5) as [H6 T6]. split; [done|]. eapply turn_trans; [exact T4|]. by eapply turn_trans.
  - split; [done|by eapply turn_trans].
Qed.
End Server.
