(* ===== verification/OrderSession.v ===== *)
(** One order session between a client and the order server, of which the other
    connections know nothing: the server admits the requests of the client's
    frames one after the other, answers every frame, and numbers the answers.

    The hypothesis on the client is that its connection delivers a prefix of a
    list of frames, numbered from 1, of one client and one epoch; that on the
    others is that none of their frames carries the client's number. *)
From S2P Require Import Prelude.
From S2P Require Import Types.
From S2P Require Import Wire.
From S2P Require Import LFQueue.
From S2P Require Import Journal.
From S2P Require Import MatchBook.
From S2P Require Import MatchingEngine.
From S2P Require Import FIFOSequencer.
From S2P Require Import TcpSocket.
From S2P Require Import OrderServer.
From S2P Require Import OrderGateway.
From S2P Require Import GatewayTheorems.
From S2P Require Import ServerTheorems.
From S2P Require Import ServerDelivery.
From stdpp Require Import base list gmap.
From Stdlib Require Import ZArith Lia.

Local Open Scope Z_scope.
Local Arguments encode_response : simpl never.
Local Arguments encode_request : simpl never.

(** No frame of the stream carries the number of the client. *)
Definition foreign (c : Z) (stream : list Z) : Prop :=
  forall k q rest, om_request_wf q -> drop (k * RequestSize) stream = encode_request q ++ rest -> client_of q <> c.

Lemma foreign_prefix c l l' : l `prefix_of` l' -> foreign c l' -> foreign c l.
Proof.
  intros [more ->] H k q rest Hq E. apply (H k q (rest ++ more)); [done|].
  assert (Hl : (k * RequestSize <= length l)%nat).
  { apply (f_equal length) in E. rewrite length_drop, length_app, encode_request_size in E. unfold RequestSize in *. lia. }
  by rewrite drop_app_le, E, <- app_assoc.
Qed.

Lemma length_request_bytes l : length (request_bytes l) = (length l * RequestSize)%nat.
Proof.
  induction l as [|q l IH]; [done|]. change (request_bytes (q :: l)) with (encode_request q ++ request_bytes l).
  rewrite length_app, encode_request_size, IH. cbn. lia.
Qed.

Lemma request_bytes_app l l' : request_bytes (l ++ l') = request_bytes l ++ request_bytes l'.
Proof. unfold request_bytes. by rewrite fmap_app, join_app. Qed.

Lemma response_bytes_app l l' : response_bytes (l ++ l') = response_bytes l ++ response_bytes l'.
Proof. unfold response_bytes. by rewrite fmap_app, join_app. Qed.

(** The requests of the frames that the server admits, and the answer to the others. *)
Definition admitted (l : list OMClientRequest) : list MEClientRequest :=
  filter (λ r, validate r = NONE) (omrq_request <$> l).

Definition rejection (q : OMClientRequest) (f : OMClientResponse) : Prop :=
  rs_type (omrs_response f) = REJECTED /\ rs_client_order_id (omrs_response f) = rq_order_id (omrq_request q) /\
  rs_reject_reason (omrs_response f) = validate (omrq_request q).

Definition settled (rs : list OMClientResponse) (q : OMClientRequest) : Prop :=
  validate (omrq_request q) = NONE \/ exists f, f ∈ rs /\ rejection q f.

Lemma settled_more rs rs' q : settled rs q -> settled (rs ++ rs') q.
Proof. intros [H|(f & Hf & Hq)]; [by left|right]. exists f. split; [|done]. apply elem_of_app. by left. Qed.

Section Session.
Context (id : nat) (c epoch : Z) (G : list OMClientRequest).
Hypothesis Hc : 0 <= c < ME_MAX_NUM_CLIENTS.
Hypothesis Hepoch : epoch <> 0.
Hypothesis Hfits : is_u64 epoch.

(** A frame of the client, the [k]-th. *)
Record client_frame (k : nat) (q : OMClientRequest) : Prop := {
  cf_wf : om_request_wf q;
  cf_received : received_request q = q;
  cf_client : client_of q = c;
  cf_epoch : omrq_session_epoch q = epoch;
  cf_number : omrq_seq_num q = after 1 k
}.
Hypothesis Hframes : forall k q, G !! k = Some q -> client_frame k q.

(** The requests of the client. *)
Definition mine (l : list MEClientRequest) : list MEClientRequest := filter (λ r, rq_client_id r = c) l.

(** The tables after [k] frames of the client and [m] responses to it. *)
Record session_at (k m : nat) (s : OrderServer) : Prop := {
  sa_session : exists e, os_sessions s !! Z.to_nat c = Some e /\ se_next_exp e = after 1 k /\ se_unknown e = false /\
    match os_clients s !! id with
    | None => se_owner e = None /\ k = 0%nat /\ m = 0%nat /\ default 1 (os_anonymous s !! id) = 1
    | Some d => d = c /\ se_owner e = Some id /\ se_epoch e = epoch /\ se_next_outgoing e = after 1 m
    end;
  sa_only j d : os_clients s !! j = Some d -> j <> id -> d <> c;
  sa_mine d e : os_sessions s !! d = Some e -> se_owner e = Some id -> d = Z.to_nat c
}.

Record replies (x : TCPSocket) (rs : list OMClientResponse) : Prop := {
  rp_bytes : accepted_bytes x = response_bytes rs;
  rp_numbers : omrs_seq_num <$> rs = first_numbers (length rs);
  rp_wf : Forall (λ f, om_response_wf f /\ omrs_session_epoch f = epoch /\ rs_client_id (omrs_response f) = c) rs
}.

Lemma replies_more x x' rs f :
  replies x rs -> accepted_bytes x' = accepted_bytes x ++ encode_response f -> om_response_wf f ->
  omrs_seq_num f = after 1 (length rs) -> omrs_session_epoch f = epoch -> rs_client_id (omrs_response f) = c ->
  replies x' (rs ++ [f]).
Proof.
  intros [H1 H2 H3] Ha Hw Hn He Hf. split.
  - by rewrite Ha, H1, response_bytes_snoc.
  - rewrite fmap_app, H2, length_app. cbn. by rewrite Nat.add_1_r, first_numbers_S, Hn.
  - apply Forall_app. split; [done|]. by apply Forall_singleton.
Qed.

(** ** Steps for other clients *)
Record untouched (s s' : OrderServer) : Prop := {
  un_session : os_sessions s' !! Z.to_nat c = os_sessions s !! Z.to_nat c;
  un_client : os_clients s' !! id = os_clients s !! id;
  un_anonymous : os_anonymous s' !! id = os_anonymous s !! id;
  un_only j d : os_clients s' !! j = Some d -> j <> id -> os_clients s !! j = Some d \/ d <> c;
  un_mine d e : os_sessions s' !! d = Some e -> se_owner e = Some id ->
    exists e0, os_sessions s !! d = Some e0 /\ se_owner e0 = Some id
}.

Lemma untouched_refl s : untouched s s.
Proof. split; eauto. Qed.

Lemma untouched_trans s1 s2 s3 : untouched s1 s2 -> untouched s2 s3 -> untouched s1 s3.
Proof.
  intros [A1 A2 A3 A4 A5] [B1 B2 B3 B4 B5]. split; try congruence.
  - intros j d Hj Hne. destruct (B4 j d Hj Hne); [by apply A4|by right].
  - intros d e Hd Ho. destruct (B5 d e Hd Ho) as (e0 & H0 & Ho0). by eapply A5.
Qed.

Lemma session_untouched k m s s' : session_at k m s -> untouched s s' -> session_at k m s'.
Proof.
  intros [A1 A2 A3] [B1 B2 B3 B4 B5]. split.
  - by rewrite B1, B2, B3.
  - intros j d Hj Hne. destruct (B4 j d Hj Hne); [by eapply A2|done].
  - intros d e Hd Ho. destruct (B5 d e Hd Ho) as (e0 & H0 & Ho0). by eapply A3.
Qed.

(** The session of another client changes, not towards this connection. *)
Lemma untouched_session s d e e' :
  d <> Z.to_nat c -> os_sessions s !! d = Some e -> (se_owner e' = Some id -> se_owner e = Some id) ->
  untouched s (OrderServer.with_sessions (<[d := e']> (os_sessions s)) s).
Proof.
  intros Hd He Ho. split; cbn; eauto.
  - by rewrite list_lookup_insert_ne.
  - intros d1 e1 H1 Ho1. apply list_lookup_insert_Some in H1 as [(<- & <- & _)|[_ H1]]; eauto.
Qed.

Lemma untouched_client s j d :
  j <> id -> d <> c -> untouched s (OrderServer.with_clients (<[j := d]> (os_clients s)) s).
Proof.
  intros Hj Hd. split; cbn; eauto.
  - by rewrite lookup_insert_ne.
  - intros i d' Hi _. apply lookup_insert_Some in Hi as [[_ <-]|[_ Hi]]; auto.
Qed.

Lemma untouched_anonymous s j n :
  j <> id -> untouched s (OrderServer.with_anonymous (<[j := n]> (os_anonymous s)) s).
Proof. intros Hj. split; cbn; eauto. by rewrite lookup_insert_ne. Qed.

(** A change of the fields that the tables do not share. *)
Lemma untouched_tables s s' :
  os_sessions s' = os_sessions s -> os_clients s' = os_clients s -> os_anonymous s' = os_anonymous s -> untouched s s'.
Proof. intros E1 E2 E3. split; rewrite ?E1, ?E2, ?E3; eauto. Qed.

Lemma to_nat_ne d : 0 <= d -> d <> c -> Z.to_nat d <> Z.to_nat c.
Proof. intros H0 Hd E. apply Z2Nat.inj in E; lia. Qed.

Lemma bind_untouched j d e s s' :
  j <> id -> 0 <= d -> d <> c -> OrderServer.bind_client j d e s = Ok s' -> untouched s s'.
Proof.
  intros Hj H0 Hd H. unfold OrderServer.bind_client, OrderServer.session in H.
  destruct (os_sessions s !! Z.to_nat d) as [x|] eqn:Hx; [|done]. cbn [deref mbind res_bind] in H.
  destruct (se_owner x) eqn:Ho; [injection H as <-; apply untouched_refl|].
  destruct (OrderServer.anonymous j s) as [n s1] eqn:Ea. injection H as <-.
  assert (Hs1 : untouched s s1 /\ os_sessions s1 = os_sessions s).
  { unfold OrderServer.anonymous in Ea. destruct (os_anonymous s !! j); injection Ea as _ <-; [by split; [apply untouched_refl|]|].
    by split; [apply untouched_anonymous|]. }
  destruct Hs1 as [Hs1 E1]. apply (untouched_trans _ s1); [done|].
  set (y := mkSession _ _ _ _ _).
  apply (untouched_trans _ (OrderServer.set_session d y s1)).
  - apply (untouched_session _ _ x); [by apply to_nat_ne|by rewrite E1|]. unfold y. cbn. congruence.
  - by apply (untouched_client (OrderServer.set_session d y s1)).
Qed.

Lemma take_over_untouched j d seq s s' :
  j <> id -> 0 <= d -> d <> c -> OrderServer.take_over j d seq s = Ok s' -> untouched s s'.
Proof.
  intros Hj H0 Hd H. unfold OrderServer.take_over, OrderServer.session in H.
  destruct (os_sessions s !! Z.to_nat d) as [x|] eqn:Hx; [|done]. cbn [deref mbind res_bind] in H. injection H as <-.
  set (y := mkSession _ _ _ _ _). apply (untouched_trans _ (OrderServer.set_session d y s)).
  - apply (untouched_session _ _ x); [by apply to_nat_ne|done|]. unfold y. cbn. congruence.
  - by apply (untouched_client (OrderServer.set_session d y s)).
Qed.

Lemma request_done_untouched d s s' :
  0 <= d -> d <> c -> OrderServer.request_done d s = Ok s' -> untouched s s'.
Proof.
  intros H0 Hd H. unfold OrderServer.request_done, OrderServer.session in H.
  destruct (os_sessions s !! Z.to_nat d) as [x|] eqn:Hx; [|done]. cbn [deref mbind res_bind] in H. injection H as <-.
  apply (untouched_session _ _ x); [by apply to_nat_ne|done|done].
Qed.

Lemma anonymous_untouched j s : j <> id -> untouched s (OrderServer.anonymous j s).2.
Proof.
  intros Hj. unfold OrderServer.anonymous. destruct (os_anonymous s !! j); [apply untouched_refl|].
  by apply untouched_anonymous.
Qed.

(** The clients of the table are not negative. *)
Definition clients_ok (s : OrderServer) : Prop := forall j d, os_clients s !! j = Some d -> 0 <= d.

Lemma reject_untouched k m j q reason x s b x' s' :
  session_at k m s -> clients_ok s -> j <> id ->
  OrderServer.reject j q reason (x, s) = Ok (b, (x', s')) -> untouched s s' /\ os_clients s' = os_clients s.
Proof.
  intros Hs Hcl Hj H. unfold OrderServer.reject in H.
  destruct (os_clients s !! j) as [d|] eqn:Ed.
  - assert (Hd : d <> c) by (by eapply sa_only). pose proof (Hcl _ _ Ed) as H0.
    unfold OrderServer.session in H. destruct (os_sessions s !! Z.to_nat d) as [e|] eqn:He; [|done].
    cbn [deref mbind res_bind] in H. destruct (TCPSocket.send _ x) as [[result y]|]; [|done]. cbn [mbind res_bind] in H.
    case_bool_decide; [injection H as _ _ <-; by split; [apply untouched_refl|]|].
    destruct (ASSERT _); [|done]. cbn [mbind res_bind] in H. cbn in H. rewrite He in H. cbn in H. injection H as _ _ <-.
    split; [|done]. set (s1 := OrderServer.with_audit _ s).
    eapply (untouched_trans _ (OrderServer.set_session d _ s)); [|by apply untouched_tables].
    apply (untouched_session _ _ e); [by apply to_nat_ne|done|]. by cbn.
  - pose proof (anonymous_untouched j s Hj) as Ha. destruct (OrderServer.anonymous j s) as [n s1] eqn:En. cbn [snd] in Ha.
    assert (E1 : os_clients s1 = os_clients s) by (unfold OrderServer.anonymous in En; case_match; by injection En as _ <-).
    cbn [mbind res_bind] in H. destruct (TCPSocket.send _ x) as [[result y]|]; [|done]. cbn [mbind res_bind] in H.
    case_bool_decide; [by injection H as _ _ <-|].
    destruct (ASSERT _); [|done]. cbn [mbind res_bind] in H. injection H as _ _ <-. split; [|exact E1].
    apply (untouched_trans _ s1); [done|].
    apply (untouched_trans _ (OrderServer.with_anonymous (<[j := u64 (n + 1)]> (os_anonymous s1)) s1));
      [by apply untouched_anonymous|by apply untouched_tables].
Qed.

Lemma bind_clients j d e s s' : 0 <= d -> OrderServer.bind_client j d e s = Ok s' -> clients_ok s -> clients_ok s'.
Proof.
  intros H0 H Hcl. unfold OrderServer.bind_client, OrderServer.anonymous in H. rest_cases; [exact Hcl|..];
    intros i f Hi; cbn in Hi; apply lookup_insert_Some in Hi as [[_ <-]|[_ Hi]]; eauto.
Qed.

Lemma request_done_clients d s s' : OrderServer.request_done d s = Ok s' -> clients_ok s -> clients_ok s'.
Proof. unfold OrderServer.request_done. intros H Hcl. rest_cases; exact Hcl. Qed.

Lemma check_foreign j q s reason s' :
  j <> id -> 0 <= client_of q -> client_of q <> c -> OrderServer.check_session j q s = Ok (reason, s') ->
  untouched s s' /\ (clients_ok s -> clients_ok s').
Proof.
  intros Hj H0 Hq H. unfold OrderServer.check_session in H.
  destruct (ME_MAX_NUM_CLIENTS <=? _); [injection H as _ <-; by split; [apply untouched_refl|]|].
  apply bind_Ok in H as ([reason1 s1] & H1 & H).
  assert (Hs1 : untouched s s1 /\ (clients_ok s -> clients_ok s1)).
  { clear H. unfold OrderServer.check_owner in H1. cbv zeta in H1.
    destruct (match os_clients s !! j with Some _ => _ | None => _ end);
      [injection H1 as _ <-; by split; [apply untouched_refl|]|].
    apply bind_Ok in H1 as (e & _ & H1).
    destruct (se_owner e) as [o|]; [|injection H1 as _ <-; by split; [apply untouched_refl|]].
    case_bool_decide; [injection H1 as _ <-; by split; [apply untouched_refl|]|].
    apply bind_Ok in H1 as (alive & _ & H1). destruct (_ && _ && _); [|injection H1 as _ <-; by split; [apply untouched_refl|]].
    apply bind_Ok in H1 as (s2 & H2 & H1). injection H1 as _ <-. split; [by eapply take_over_untouched|].
    intros Hcl. unfold OrderServer.take_over in H2. apply bind_Ok in H2 as (y & _ & H2). injection H2 as <-.
    intros i f Hi. cbn in Hi. apply lookup_insert_Some in Hi as [[_ <-]|[_ Hi]]; eauto. }
  destruct (negb _); [by injection H as _ <-|]. apply bind_Ok in H as (e & _ & H).
  repeat match type of H with context [if ?b then _ else _] => destruct b; [by injection H as _ <-|] end.
  by injection H as _ <-.
Qed.

Lemma mine_app l l' : mine (l ++ l') = mine l ++ mine l'.
Proof. apply filter_app. Qed.

Lemma mine_other r : rq_client_id r <> c -> mine [r] = [].
Proof. intros H. unfold mine. rewrite filter_cons, filter_nil. by rewrite decide_False. Qed.

Lemma mine_self r : rq_client_id r = c -> mine [r] = [r].
Proof. intros H. unfold mine. rewrite filter_cons, filter_nil. by rewrite decide_True. Qed.

Lemma mine_all l : Forall (λ r, rq_client_id r = c) l -> mine l = l.
Proof.
  induction 1 as [|r l Hr Hl IH]; [done|]. change (r :: l) with ([r] ++ l). by rewrite mine_app, mine_self, IH.
Qed.

(** The state after frames of others. *)
Record passed (s s' : OrderServer) : Prop := {
  ps_untouched : untouched s s';
  ps_clients : clients_ok s -> clients_ok s';
  ps_pending : exists new, pending_requests s' = pending_requests s ++ new /\ mine new = []
}.

Lemma passed_refl s : passed s s.
Proof. split; [apply untouched_refl|done|]. exists []. by rewrite app_nil_r. Qed.

Lemma passed_trans s1 s2 s3 : passed s1 s2 -> passed s2 s3 -> passed s1 s3.
Proof.
  intros [A1 A2 (n1 & E1 & M1)] [B1 B2 (n2 & E2 & M2)]. split; [by eapply untouched_trans|auto|].
  exists (n1 ++ n2). rewrite E2, E1, mine_app, M1, M2, app_assoc. done.
Qed.

Lemma passed_rest s s' : untouched s s' -> (clients_ok s -> clients_ok s') -> same_rest s s' -> passed s s'.
Proof.
  intros H1 H2 [[_ E _ _] _ _ _ _]. split; [done|done|]. exists []. unfold pending_requests. by rewrite E, app_nil_r.
Qed.

Lemma reject_passed k m j q reason x s b x' s' :
  session_at k m s -> clients_ok s -> j <> id -> tcp_ok x ->
  OrderServer.reject j q reason (x, s) = Ok (b, (x', s')) -> passed s s'.
Proof.
  intros Hs Hcl Hj Hx H. pose proof (reject_effect _ _ _ _ _ _ _ _ Hx H) as Hf.
  destruct (reject_untouched _ _ _ _ _ _ _ _ _ _ Hs Hcl Hj H) as [Hu E]. split; [done|unfold clients_ok; by rewrite E|].
  unfold OrderServer.reject in H. exists []. rewrite app_nil_r. split; [|done]. unfold pending_requests.
  apply bind_Ok in H as ([n s1] & H1 & H).
  assert (E1 : os_sequencer s1 = os_sequencer s).
  { unfold OrderServer.anonymous in H1. rest_cases; done. }
  apply bind_Ok in H as ([result y] & _ & H). case_bool_decide; [injection H as _ _ <-; by rewrite E1|].
  apply bind_Ok in H as (? & _ & H). apply bind_Ok in H as (s2 & H2 & H). injection H as _ _ <-. cbn. rewrite <- E1.
  rest_cases; done.
Qed.

Lemma handle_foreign k m j t q reason x s b x' s' :
  session_at k m s -> clients_ok s -> j <> id -> tcp_ok x ->
  (reason = NONE -> 0 <= client_of q /\ client_of q <> c) ->
  OrderServer.handle j t q reason (x, s) = Ok (b, (x', s')) -> passed s s'.
Proof.
  intros Hs Hcl Hj Hx Hq H. unfold OrderServer.handle in H. cbn [fst snd] in H.
  change (rq_client_id (omrq_request q)) with (client_of q) in H.
  destruct (bool_decide_reflect (reason = NONE)) as [Hn|Hn]; cbn [andb negb] in H; [|by eapply reject_passed].
  destruct (Hq Hn) as [H0 Hne].
  destruct (bool_decide_reflect (validate (omrq_request q) = NONE)) as [Hv|Hv]; cbn [negb] in H.
  - destruct (FIFOSequencer.canAccept (os_sequencer s)) eqn:Ec; cbn [negb] in H;
      [|injection H as _ _ <-; apply passed_refl].
    cbn [OrderServer.with_audit os_sequencer] in H. rewrite (can_accept _ _ _ Ec) in H. cbn [ASSERT mbind res_bind] in H.
    apply bind_Ok in H as (s1 & H1 & H). apply bind_Ok in H as (s2 & H2 & H). injection H as _ _ <-.
    match type of H1 with OrderServer.bind_client _ _ _ ?s0 = _ => apply (passed_trans _ s0) end.
    + split; [by apply untouched_tables|done|]. exists [omrq_request q]. split; [|by apply mine_other].
      unfold pending_requests. cbn. by rewrite map_app.
    + apply (passed_trans _ s1); [|apply (passed_trans _ s2)].
      * apply passed_rest; [by eapply bind_untouched|by eapply bind_clients|by eapply bind_client_rest].
      * apply passed_rest; [by eapply request_done_untouched|by eapply request_done_clients|by eapply request_done_rest].
      * split; [by apply untouched_tables|done|]. exists []. by rewrite app_nil_r.
  - apply bind_Ok in H as (s1 & H1 & H). apply bind_Ok in H as ([ok [y s2]] & H2 & H).
    assert (P1 : passed s s1).
    { apply passed_rest; [by eapply bind_untouched|by eapply bind_clients|by eapply bind_client_rest]. }
    assert (P2 : passed s1 s2).
    { eapply reject_passed; [by eapply session_untouched, (ps_untouched _ _ P1)|by apply (ps_clients _ _ P1)|done|done|exact H2]. }
    apply (passed_trans _ s1); [done|]. apply (passed_trans _ s2); [done|].
    destruct ok; [|injection H as _ _ <-; apply passed_refl]. apply bind_Ok in H as (s3 & H3 & H). injection H as _ _ <-.
    apply passed_rest; [by eapply request_done_untouched|by eapply request_done_clients|by eapply request_done_rest].
Qed.

Lemma recv_foreign fuel k m j t n bytes x s n' x' s' :
  session_at k m s -> clients_ok s -> j <> id -> tcp_ok x -> Forall is_byte bytes -> foreign c bytes ->
  OrderServer.recv_frames fuel j t n bytes (x, s) = Ok (n', (x', s')) ->
  passed s s' /\ exists i, n' = (n + i * RequestSize)%nat /\ (i * RequestSize <= length bytes)%nat.
Proof.
  revert n bytes x s. induction fuel as [|fuel IH]; intros n bytes x s Hs Hcl Hj Hx Hb Hfo H;
    cbn [OrderServer.recv_frames] in H; case_bool_decide as Hsz; try discriminate H;
    try (injection H as <- _ <-; split; [apply passed_refl|exists 0%nat; cbn; lia]).
  apply bind_Ok in H as ([ok q] & Hd & H). apply bind_Ok in H as ([reason s1] & Hr & H).
  apply bind_Ok in H as ([go [y s2]] & Hh & H).
  assert (P1 : passed s s1 /\ (reason = NONE -> 0 <= client_of q /\ client_of q <> c)).
  { destruct ok; [|injection Hr as <- <-; split; [apply passed_refl|done]].
    destruct (decode_request_inv _ _ _ Hb Hd) as [Hwf E]. pose proof (Hfo 0%nat q _ Hwf E) as Hne.
    destruct Hwf as (_ & _ & _ & [H0 _] & _). change (rq_client_id (omrq_request q)) with (client_of q) in H0.
    split; [|done]. destruct (check_foreign _ _ _ _ _ Hj H0 Hne Hr). apply passed_rest; [done|done|by eapply check_session_rest]. }
  destruct P1 as [P1 Hq]. pose proof (session_untouched _ _ _ _ Hs (ps_untouched _ _ P1)) as Hs1.
  pose proof (ps_clients _ _ P1 Hcl) as Hcl1.
  pose proof (handle_foreign _ _ _ _ _ _ _ _ _ _ _ Hs1 Hcl1 Hj Hx Hq Hh) as P2.
  assert (Hwf : reason = NONE -> request_wf (omrq_request q)).
  { intros ->. destruct ok; [|by injection Hr]. by apply (decode_request_inv _ _ _ Hb) in Hd as [(_ & _ & ?) _]. }
  pose proof (handle_effect _ _ _ _ _ _ _ _ _ Hx Hwf Hh) as Hf.
  destruct go; [|injection H as <- _ <-; split; [by eapply passed_trans|exists 0%nat; cbn; lia]].
  apply IH in H as [P3 (i & -> & Hi)]; [|by eapply session_untouched, (ps_untouched _ _ P2)|by apply (ps_clients _ _ P2)|done|apply Hf|by apply Forall_drop|].
  - split; [by eapply passed_trans; [|eapply passed_trans]|]. exists (S i). rewrite length_drop in Hi. split; unfold RequestSize in *; lia.
  - intros i q' rest Hq' E. rewrite drop_drop in E. by apply (Hfo (S i) q' rest Hq').
Qed.

(** ** Frames of the client *)
Definition bound (s : OrderServer) : Prop := os_clients s !! id = Some c.

Lemma session_bound_entry k m s :
  session_at k m s -> bound s -> exists e, os_sessions s !! Z.to_nat c = Some e /\ se_next_exp e = after 1 k /\
    se_unknown e = false /\ se_owner e = Some id /\ se_epoch e = epoch /\ se_next_outgoing e = after 1 m.
Proof.
  intros [(e & He & Hn & Hu & Hm) _ _] Hb. unfold bound in Hb. rewrite Hb in Hm. destruct Hm as (_ & Ho & Hep & Hout).
  by exists e.
Qed.

Lemma session_update k m k' m' s e' :
  session_at k m s -> bound s -> se_next_exp e' = after 1 k' -> se_unknown e' = false -> se_owner e' = Some id ->
  se_epoch e' = epoch -> se_next_outgoing e' = after 1 m' ->
  session_at k' m' (OrderServer.set_session c e' s).
Proof.
  intros Hs Hb H1 H2 H3 H4 H5. destruct (session_bound_entry _ _ _ Hs Hb) as (e & He & _).
  destruct Hs as [_ A2 A3]. split; cbn.
  - exists e'. rewrite list_lookup_insert_eq by (by eapply lookup_lt_Some). unfold bound in Hb. rewrite Hb. done.
  - exact A2.
  - intros d f Hd Ho. apply list_lookup_insert_Some in Hd as [(<- & _ & _)|[_ Hd]]; [done|by eapply A3].
Qed.

Lemma session_tables k m s s' :
  session_at k m s -> os_sessions s' = os_sessions s -> os_clients s' = os_clients s ->
  os_anonymous s' = os_anonymous s -> session_at k m s'.
Proof. intros Hs E1 E2 E3. eapply session_untouched; [exact Hs|by apply untouched_tables]. Qed.

Lemma check_own k m q s reason s' :
  session_at k m s -> client_frame k q -> OrderServer.check_session id q s = Ok (reason, s') -> reason = NONE /\ s' = s.
Proof.
  intros [(e & He & Hn & Hu & Hm) _ _] [_ _ Hq Hqe Hqn] H. unfold OrderServer.check_session, client_of in *. rewrite Hq in H.
  rewrite (proj2 (Z.leb_gt _ _)) in H by lia. unfold OrderServer.check_owner, OrderServer.session in H. rewrite Hq, He in H.
  assert (Ho : (se_owner e = None \/ se_owner e = Some id /\ se_epoch e = epoch) /\
    match os_clients s !! id with Some c0 => negb (c0 =? c) | None => false end = false).
  { destruct (os_clients s !! id); [destruct Hm as (-> & ? & ? & _)|destruct Hm as (? & _)]; (split; [auto|]); [|done].
    by rewrite Z.eqb_refl. }
  destruct Ho as [Ho E]. rewrite E in H. cbn [deref mbind res_bind] in H.
  assert (H1 : match se_owner e with
    | None => Ok (NONE, s)
    | Some owner => if bool_decide (owner = id) then Ok (NONE, s) else
        alive ← OrderServer.healthy owner s;
        if negb alive && bool_decide (rq_type (omrq_request q) = QUERY) && (omrq_session_epoch q =? se_epoch e)
        then s0 ← OrderServer.take_over id c (omrq_seq_num q) s; Ok (NONE, s0) else Ok (IDENTITY, s) end = Ok (NONE, s)).
  { destruct Ho as [->|[-> _]]; [done|]. by rewrite bool_decide_true. }
  rewrite H1 in H. cbn [mbind res_bind] in H. rewrite (bool_decide_true (NONE = NONE)) in H by done. cbn [negb] in H.
  rewrite He in H. cbn [deref mbind res_bind] in H. rewrite Hqe, Hqn, Hn, Hu, Z.eqb_refl in H.
  apply Z.eqb_neq in Hepoch. rewrite Hepoch in H.
  destruct Ho as [Ho|[Ho Hep]]; rewrite Ho in H.
  - rewrite (bool_decide_false (is_Some None)) in H by (by intros []). by injection H.
  - rewrite Hep, Z.eqb_refl, andb_false_r in H. by injection H.
Qed.

Lemma bind_own k m s s' :
  session_at k m s -> OrderServer.bind_client id c epoch s = Ok s' -> session_at k m s' /\ bound s'.
Proof.
  intros Hs H. pose proof Hs as [(e & He & Hn & Hu & Hm) A2 A3]. unfold OrderServer.bind_client, OrderServer.session in H.
  rewrite He in H. cbn [deref mbind res_bind] in H. destruct (os_clients s !! id) as [d|] eqn:Ed.
  - destruct Hm as (-> & Ho & _). rewrite Ho in H. injection H as <-. by split.
  - destruct Hm as (Ho & -> & -> & Ha). rewrite Ho in H. destruct (OrderServer.anonymous id s) as [n s1] eqn:Ean.
    assert (En : n = 1 /\ os_sessions s1 = os_sessions s /\ os_clients s1 = os_clients s).
    { unfold OrderServer.anonymous in Ean. destruct (os_anonymous s !! id); cbn in Ha; by injection Ean as <- <-. }
    destruct En as (-> & E1 & E2). injection H as <-. split; [|unfold bound; cbn; by rewrite lookup_insert_eq].
    split; cbn; rewrite ?E1, ?E2.
    + eexists. rewrite list_lookup_insert_eq by (by eapply lookup_lt_Some). rewrite lookup_insert_eq. cbn.
      by split_and!.
    + intros j d Hj Hne. rewrite lookup_insert_ne in Hj by done. by eapply A2.
    + intros d f Hd Hof. apply list_lookup_insert_Some in Hd as [(<- & _ & _)|[_ Hd]]; [done|by eapply A3].
Qed.

Lemma request_done_own k m s s' :
  session_at k m s -> bound s -> OrderServer.request_done c s = Ok s' -> session_at (S k) m s' /\ bound s'.
Proof.
  intros Hs Hb H. destruct (session_bound_entry _ _ _ Hs Hb) as (e & He & Hn & Hu & Ho & Hep & Hout).
  unfold OrderServer.request_done, OrderServer.session in H. rewrite He in H. cbn [deref mbind res_bind] in H. injection H as <-.
  split; [|exact Hb]. apply (session_update k m); try done. cbn. by rewrite Hn, after_add.
Qed.

Lemma after_u64 a n : is_u64 (after a n).
Proof. unfold after. apply is_u64_u64. Qed.

Lemma reject_own k q reason x s b x' s' rs :
  session_at k (length rs) s -> bound s -> client_frame k q -> tcp_ok x -> replies x rs -> RejectReason_wf reason ->
  OrderServer.reject id q reason (x, s) = Ok (b, (x', s')) ->
  exists rs', session_at k (length (rs ++ rs')) s' /\ os_clients s' = os_clients s /\ replies x' (rs ++ rs') /\
    os_sequencer s' = os_sequencer s /\
    (b = true -> exists f, f ∈ rs' /\ rs_type (omrs_response f) = REJECTED /\
      rs_client_order_id (omrs_response f) = rq_order_id (omrq_request q) /\ rs_reject_reason (omrs_response f) = reason).
Proof.
  intros Hs Hb Hq Hx Hr Hreason H. destruct (session_bound_entry _ _ _ Hs Hb) as (e & He & Hn & Hu & Ho & Hep & Hout).
  unfold OrderServer.reject in H. unfold bound in Hb. rewrite Hb in H. unfold OrderServer.session in H. rewrite He in H.
  cbn [deref mbind res_bind default] in H.
  match type of H with context [TCPSocket.send (encode_response ?f0) x] => set (f := f0) in H end.
  destruct (tcp_send_ok (encode_response f) x Hx) as (result & y & E & Hy & Hres & _). rewrite E in H. cbn [mbind res_bind] in H.
  destruct result.
  - rewrite bool_decide_false in H by done. rewrite bool_decide_true in H by done. cbn [ASSERT mbind res_bind] in H.
    cbn in H. rewrite He in H. cbn in H. injection H as <- <- <-. exists [f]. destruct Hres as [Hacc _].
    assert (Hw : om_response_wf f).
    { destruct Hq as [(_ & Hqe & Ht & Hcl & Htk & Hoid & Hsd & Hp & Hqt) _ _ _ _]. unfold f.
      split; [cbn; rewrite Hout; apply after_u64|]. split; [exact Hqe|].
      assert (is_u32 c) by (unfold is_u32, ME_MAX_NUM_CLIENTS in *; lia). cbn [omrs_response].
      pose proof fits_0 as (?&?&?). pose proof fits_invalid as (?&_&_). unfold response_wf. cbn. by split_and!. }
    rewrite length_app. cbn [length]. rewrite Nat.add_1_r. split_and!.
    + eapply session_tables; [apply (session_update k (length rs) k (S (length rs)) s
        (mkSession (u64 (se_next_outgoing e + 1)) (se_next_exp e) (se_owner e) (se_epoch e) (se_unknown e)))|done..]; try done.
      cbn. by rewrite Hout, after_add.
    + done.
    + apply (replies_more x); try done. exact (cf_epoch _ _ Hq).
    + done.
    + intros _. exists f. split; [by left|done].
  - rewrite bool_decide_true in H by done. injection H as <- <- <-. exists []. rewrite app_nil_r. destruct Hres as [-> _].
    by split_and!.
  - rewrite bool_decide_false in H by done. by rewrite bool_decide_false in H by done.
Qed.

Lemma admitted_app l l' : admitted (l ++ l') = admitted l ++ admitted l'.
Proof. unfold admitted. by rewrite fmap_app, filter_app. Qed.

Lemma admitted_one q : admitted [q] = if bool_decide (validate (omrq_request q) = NONE) then [omrq_request q] else [].
Proof.
  unfold admitted. cbn [fmap list_fmap]. rewrite filter_cons, filter_nil. case_bool_decide; by case_decide.
Qed.

Lemma handle_own k q t x s b x' s' rs :
  session_at k (length rs) s -> client_frame k q -> tcp_ok x -> replies x rs ->
  OrderServer.handle id t q NONE (x, s) = Ok (b, (x', s')) ->
  exists rs', session_at (if b then S k else k) (length (rs ++ rs')) s' /\ replies x' (rs ++ rs') /\
    pending_requests s' = pending_requests s ++ (if b : bool then admitted [q] else []) /\
    (b = true -> settled rs' q) /\ (clients_ok s -> clients_ok s').
Proof.
  intros Hs Hq Hx Hr H. unfold OrderServer.handle in H. cbn [fst snd] in H. rewrite admitted_one.
  rewrite (bool_decide_true (NONE = NONE)) in H by done.
  pose proof (cf_client _ _ Hq) as Ec. unfold client_of in Ec. rewrite Ec, (cf_epoch _ _ Hq) in H.
  destruct (bool_decide_reflect (validate (omrq_request q) = NONE)) as [Hv|Hv]; cbn [andb negb] in H.
  - destruct (FIFOSequencer.canAccept (os_sequencer s)) eqn:Eca; cbn [negb] in H.
    2:{ injection H as <- <- <-. exists []. rewrite !app_nil_r. by split_and!. }
    cbn [OrderServer.with_audit os_sequencer] in H. rewrite (can_accept _ _ _ Eca) in H. cbn [ASSERT mbind res_bind] in H.
    apply bind_Ok in H as (s1 & H1 & H). apply bind_Ok in H as (s2 & H2 & H). injection H as <- <- <-.
    pose proof (bind_client_rest _ _ _ _ _ H1) as [[_ R1 _ _] _ _ _ _].
    pose proof (request_done_rest _ _ _ H2) as [[_ R2 _ _] _ _ _ _].
    assert (Hcl : clients_ok s -> clients_ok s2).
    { intros Hcl. eapply request_done_clients; [exact H2|]. eapply bind_clients; [apply Hc|exact H1|exact Hcl]. }
    apply (bind_own k (length rs)) in H1 as [Hs1 Hb1]; [|by eapply session_tables].
    apply (request_done_own k (length rs)) in H2 as [Hs2 Hb2]; [|done|done].
    exists []. rewrite app_nil_r. split; [by eapply session_tables|]. split; [done|]. split; [|split; [by left|exact Hcl]].
    unfold pending_requests. cbn. rewrite R2, R1. cbn. by rewrite map_app.
  - apply bind_Ok in H as (s1 & H1 & H). apply bind_Ok in H as ([ok [y s2]] & H2 & H).
    pose proof (bind_client_rest _ _ _ _ _ H1) as [[_ R1 _ _] _ _ _ _].
    assert (Hcl : clients_ok s -> clients_ok s1) by (by eapply bind_clients; [apply Hc|]).
    apply (bind_own k (length rs)) in H1 as [Hs1 Hb1]; [|done].
    apply (reject_own k q _ x s1 ok y s2 rs) in H2 as (rs' & Hs2 & E2 & Hr2 & R2 & Hf); [|done..|apply validate_wf].
    assert (Hb2 : bound s2) by (unfold bound; by rewrite E2).
    assert (Hcl2 : clients_ok s -> clients_ok s2) by (unfold clients_ok in *; by rewrite E2).
    exists rs'. destruct ok.
    + apply bind_Ok in H as (s3 & H3 & H). injection H as <- <- <-.
      pose proof (request_done_rest _ _ _ H3) as [[_ R3 _ _] _ _ _ _].
      assert (Hcl3 : clients_ok s -> clients_ok s3) by (intros; eapply request_done_clients; eauto).
      apply (request_done_own k (length (rs ++ rs'))) in H3 as [Hs3 Hb3]; [|done|done].
      split; [done|]. split; [done|]. split; [|split; [|done]].
      * unfold pending_requests. by rewrite R3, R2, R1, app_nil_r.
      * intros _. right. destruct (Hf eq_refl) as (f & Hin & Hty & Hoid & Hre). by exists f.
    + injection H as <- <- <-. split; [done|]. split; [done|]. split; [|by split].
      unfold pending_requests. by rewrite R2, R1, app_nil_r.
Qed.

Lemma prefix_bytes q l bytes :
  (RequestSize <= length bytes)%nat -> bytes `prefix_of` request_bytes (q :: l) ->
  bytes = encode_request q ++ drop RequestSize bytes /\ drop RequestSize bytes `prefix_of` request_bytes l.
Proof.
  intros Hl [more E]. change (request_bytes (q :: l)) with (encode_request q ++ request_bytes l) in E.
  pose proof (encode_request_size q) as Hq.
  assert (Et : take RequestSize bytes = encode_request q).
  { apply (f_equal (take RequestSize)) in E. rewrite take_app_length' in E by done.
    by rewrite take_app_le in E by done. }
  assert (Ed : request_bytes l = drop RequestSize bytes ++ more).
  { apply (f_equal (drop RequestSize)) in E. rewrite drop_app_length' in E by done.
    by rewrite drop_app_le in E by done. }
  split; [by rewrite <- Et, take_drop|]. by exists more.
Qed.

Lemma recv_own fuel t n bytes x s n' x' s' k rs :
  session_at k (length rs) s -> tcp_ok x -> replies x rs -> (k <= length G)%nat ->
  Forall is_byte bytes -> bytes `prefix_of` request_bytes (drop k G) ->
  OrderServer.recv_frames fuel id t n bytes (x, s) = Ok (n', (x', s')) ->
  exists i rs', n' = (n + i * RequestSize)%nat /\ (k + i <= length G)%nat /\
    bytes = request_bytes (take i (drop k G)) ++ drop (i * RequestSize) bytes /\
    session_at (k + i) (length (rs ++ rs')) s' /\ replies x' (rs ++ rs') /\
    pending_requests s' = pending_requests s ++ admitted (take i (drop k G)) /\
    Forall (settled (rs ++ rs')) (take i (drop k G)) /\ (clients_ok s -> clients_ok s').
Proof.
  revert n bytes x s k rs. induction fuel as [|fuel IH]; intros n bytes x s k rs Hs Hx Hr Hk Hby Hb H;
    cbn [OrderServer.recv_frames] in H; case_bool_decide as Hsz; try discriminate H;
    try (injection H as <- <- <-; exists 0%nat, []; cbn; rewrite !Nat.add_0_r, !app_nil_r;
      by split_and!).
  apply bind_Ok in H as ([ok q] & Hd & H). apply bind_Ok in H as ([reason s1] & Hre & H).
  apply bind_Ok in H as ([go [y s2]] & Hh & H).
  destruct (drop k G) as [|g rest] eqn:Eg.
  { destruct Hb as [more E]. apply (f_equal length) in E. rewrite length_app in E. cbn in E. unfold RequestSize in Hsz. lia. }
  assert (Hg : G !! k = Some g) by (rewrite <- (Nat.add_0_r k), <- lookup_drop, Eg; done).
  pose proof (Hframes k g Hg) as Hcf. apply prefix_bytes in Hb as [Eb Hb]; [|lia].
  rewrite Eb, decode_encode_request, (cf_received _ _ Hcf) in Hd by apply Hcf. injection Hd as <- <-.
  destruct (check_own k _ g s reason s1 Hs Hcf Hre) as [-> ->].
  destruct (handle_own k g t x s go y s2 rs Hs Hcf Hx Hr Hh) as (rs1 & Hs2 & Hr2 & Hp2 & Hset & Hcl2).
  assert (Hwf : NONE = NONE -> request_wf (omrq_request g)) by (intros _; apply Hcf).
  pose proof (handle_effect _ _ _ _ _ _ _ _ _ Hx Hwf Hh) as Hfe.
  pose proof (lookup_lt_Some _ _ _ Hg) as Hlt.
  assert (Erest : drop (S k) G = rest).
  { replace (S k) with (k + 1)%nat by lia. rewrite <- drop_drop, Eg. done. }
  destruct go.
  - apply IH with (k := S k) (rs := rs ++ rs1) in H as (i & rs' & -> & Hi & E & Hs3 & Hr3 & Hp3 & Hset3 & Hcl3);
      [|done|apply Hfe|done|lia|by apply Forall_drop|by rewrite Erest].
    rewrite Erest in E, Hp3, Hset3. exists (S i), (rs1 ++ rs'). rewrite <- !app_assoc in *. split_and!.
    + rewrite Nat.mul_succ_l. lia.
    + lia.
    + rewrite drop_drop in E. cbn [take]. change (request_bytes (g :: take i rest)) with (encode_request g ++ request_bytes (take i rest)).
      rewrite <- app_assoc. rewrite Eb at 1. f_equal. exact E.
    + by rewrite Nat.add_succ_r.
    + done.
    + rewrite Hp3, Hp2. cbn [take]. change (g :: take i rest) with ([g] ++ take i rest). by rewrite admitted_app, app_assoc.
    + cbn [take]. constructor; [|done]. rewrite app_assoc. apply settled_more.
      destruct (Hset eq_refl) as [Hv|(f & Hf & Hq)]; [by left|right]. exists f. split; [|done]. apply elem_of_app. by right.
    + auto.
  - injection H as <- <- <-. exists 0%nat, rs1. cbn. rewrite !Nat.add_0_r. split; [done|]. split; [lia|]. split; [done|].
    split; [done|]. split; [done|]. split; [by rewrite Hp2|]. by split.
Qed.

(** ** The server *)
Definition honest (socks : list TCPSocket) : Prop :=
  (forall x, socks !! id = Some x -> ts_stream x `prefix_of` request_bytes G) /\
  (forall j x, j <> id -> socks !! j = Some x -> foreign c (ts_stream x)).

(** The bytes handled, of a connection of this client and of the others. *)
Definition own_stream (k : nat) (x : TCPSocket) : Prop := ts_stream x = request_bytes (take k G) ++ ts_inbound x.
Definition framed (x : TCPSocket) : Prop :=
  exists n, (n * RequestSize <= length (ts_stream x))%nat /\ ts_inbound x = drop (n * RequestSize) (ts_stream x).

(** A request of the client has its answer. *)
Definition has_answer (lr : list MEClientResponse) (rs : list OMClientResponse) (r : MEClientRequest) : Prop :=
  rq_client_id r = c ->
  exists a, addressed (c, rq_order_id r) a /\ (a ∈ lr \/ a ∈ omrs_response <$> rs).

Record facts (consumed : list MEClientRequest) (k : nat) (rs : list OMClientResponse) (s : OrderServer) : Prop := {
  fa_session : session_at k (length rs) s;
  fa_count : (k <= length G)%nat;
  fa_clients : clients_ok s;
  fa_own x : os_sockets s !! id = Some x -> replies x rs /\ own_stream k x;
  fa_none : os_sockets s !! id = None -> k = 0%nat /\ rs = [];
  fa_other j x : j <> id -> os_sockets s !! j = Some x -> framed x;
  fa_admitted lq : queue_ok (os_requests s) lq ->
    mine (consumed ++ lq ++ pending_requests s) ≡ₚ admitted (take k G);
  fa_answered lr : queue_ok (os_responses s) lr -> Forall (has_answer lr rs) consumed;
  fa_settled : Forall (settled rs) (take k G)
}.

Definition session_ok (consumed : list MEClientRequest) (s : OrderServer) : Prop :=
  honest (os_sockets s) -> exists k rs, facts consumed k rs s.

(** The bytes received from the connections only grow. *)
Definition streams_grow (socks socks' : list TCPSocket) : Prop :=
  forall j x, socks !! j = Some x -> exists x', socks' !! j = Some x' /\ ts_stream x `prefix_of` ts_stream x'.

Lemma honest_before socks socks' : streams_grow socks socks' -> honest socks' -> honest socks.
Proof.
  intros Hg [H1 H2]. split.
  - intros x Hx. destruct (Hg _ _ Hx) as (x' & Hx' & Hp). etrans; [exact Hp|by apply H1].
  - intros j x Hj Hx. destruct (Hg _ _ Hx) as (x' & Hx' & Hp). eapply foreign_prefix; [exact Hp|by apply (H2 j)].
Qed.

Lemma grow_at j x x' s :
  (j < length (os_sockets s))%nat -> ts_stream x `prefix_of` ts_stream x' ->
  streams_grow (os_sockets (at_socket j x s)) (os_sockets (at_socket j x' s)).
Proof.
  intros Hj Hp i y Hy. unfold at_socket in *. cbn in *. destruct (decide (i = j)) as [->|Hne].
  - rewrite list_lookup_insert_eq in Hy by done. injection Hy as <-. exists x'. by rewrite list_lookup_insert_eq.
  - rewrite list_lookup_insert_ne in Hy by done. exists y. by rewrite list_lookup_insert_ne.
Qed.

(** A change of one socket. *)
Lemma facts_socket consumed k rs j x x' s :
  (j < length (os_sockets s))%nat -> facts consumed k rs (at_socket j x s) ->
  (j = id -> replies x rs -> own_stream k x -> replies x' rs /\ own_stream k x') ->
  (j <> id -> framed x -> framed x') -> facts consumed k rs (at_socket j x' s).
Proof.
  intros Hj [F1 F2 F3 F4 F5 F6 F7 F8 F9] Ho Hf. unfold at_socket in *. split; try done; cbn in *.
  - by eapply session_tables.
  - intros y Hy. apply list_lookup_insert_Some in Hy as [(<- & <- & _)|[Hne Hy]].
    + destruct (F4 x) as [R S]; [by apply list_lookup_insert_eq|]. by apply Ho.
    + apply F4. by rewrite list_lookup_insert_ne.
  - intros Hn. apply F5. apply lookup_ge_None in Hn. rewrite length_insert in Hn.
    apply lookup_ge_None. by rewrite length_insert.
  - intros i y Hi Hy. apply list_lookup_insert_Some in Hy as [(<- & <- & _)|[Hne Hy]].
    + apply Hf; [done|]. apply (F6 j); [done|]. by apply list_lookup_insert_eq.
    + apply (F6 i); [done|]. by rewrite list_lookup_insert_ne.
Qed.

Lemma replies_same x x' rs : accepted_bytes x' = accepted_bytes x -> replies x rs -> replies x' rs.
Proof. intros E [H1 H2 H3]. split; [by rewrite E|done|done]. Qed.

(** While a connection is polled. *)
Definition polled (consumed : list MEClientRequest) (j : nat) (st : TCPSocket * OrderServer) : Prop :=
  sane st.1 /\ (j < length (os_sockets st.2))%nat /\ session_ok consumed (at_socket j st.1 st.2).

Lemma polled_quiet consumed j x x' s : polled consumed j (x, s) -> quiet x x' -> polled consumed j (x', s).
Proof.
  intros ([Ht Hb] & Hj & Hs) [Q1 Q2 Q3 Q4 Q5 Q6 Q7 Q8]. cbn [fst snd] in *. split; [|split; [done|]]; cbn [fst snd].
  - split; [auto|by rewrite Q1].
  - intros Hh. destruct Hs as (k & rs & Hf).
    { eapply honest_before; [|exact Hh]. apply grow_at; [done|]. by rewrite Q2. }
    exists k, rs. eapply facts_socket; [done|exact Hf| |].
    + intros _ R S. split; [by eapply replies_same|]. unfold own_stream in *. by rewrite Q1, Q2.
    + intros _ (n & Hn & E). exists n. by rewrite Q1, Q2.
Qed.

Lemma polled_received consumed j x s bytes t :
  polled consumed j (x, s) -> Forall is_byte bytes -> (length (ts_inbound x) + length bytes <= ts_capacity x)%nat ->
  polled consumed j (TCPSocket.received bytes t x, s).
Proof.
  intros ([[Ht1 Ht2] Hb] & Hj & Hs) Hby Hl. cbn [fst snd] in *. split; [|split; [done|]]; cbn [fst snd].
  - split; [constructor; cbn; [done|by rewrite length_app]|cbn; by apply Forall_app].
  - intros Hh. destruct Hs as (k & rs & Hf).
    { eapply honest_before; [|exact Hh]. apply grow_at; [done|]. cbn. by exists bytes. }
    exists k, rs. eapply facts_socket; [done|exact Hf| |].
    + intros _ R S. split; [by apply (replies_same x)|]. unfold own_stream in *. cbn. by rewrite S, app_assoc.
    + intros _ (n & Hn & E). exists n. cbn. rewrite length_app, drop_app_le, E by done. split; [lia|done].
Qed.

(** The requests of a step that adds [new] to the sequencer. *)
Lemma admitted_step consumed s s' k i new :
  (forall lq, queue_ok (os_requests s) lq ->
     mine (consumed ++ lq ++ pending_requests s) ≡ₚ admitted (take k G)) ->
  os_requests s' = os_requests s -> pending_requests s' = pending_requests s ++ new ->
  mine new = admitted (take i (drop k G)) ->
  forall lq, queue_ok (os_requests s') lq ->
    mine (consumed ++ lq ++ pending_requests s') ≡ₚ admitted (take (k + i) G).
Proof.
  intros H Er Ep En lq Hlq. rewrite Er in Hlq. rewrite Ep, !app_assoc, mine_app, <- app_assoc, (H lq Hlq), En.
  rewrite <- admitted_app. by rewrite take_take_drop.
Qed.

Lemma mine_admitted i k : mine (admitted (take i (drop k G))) = admitted (take i (drop k G)).
Proof.
  apply mine_all. apply Forall_forall. intros r Hr. unfold admitted in Hr.
  apply list_elem_of_filter in Hr as [_ Hr]. apply list_elem_of_fmap in Hr as (q & -> & Hq).
  apply elem_of_take in Hq as (n & Hn & _). rewrite lookup_drop in Hn. apply (cf_client _ _ (Hframes _ _ Hn)).
Qed.

Lemma callback_own consumed t x s x' s' :
  polled consumed id (x, s) -> OrderServer.recvCallback id t (x, s) = Ok (x', s') -> polled consumed id (x', s').
Proof.
  intros ([Ht Hb] & Hj & Hs) H. cbn [fst snd] in *.
  destruct (callback_turn id t x s x' s' (conj Ht Hb) H) as (Hsane & Eo & _).
  split; [exact Hsane|]. cbn [fst snd]. split; [by rewrite Eo|].
  unfold OrderServer.recvCallback in H. destruct (os_accepting s); cbn [negb] in H; [|by injection H as <- <-].
  apply bind_Ok in H as ([n [y s1]] & H1 & H). injection H as <- <-.
  pose proof (recv_frames_effect _ _ _ _ _ _ _ _ _ _ Ht Hb H1) as Hfe.
  intros Hh. destruct Hs as (k & rs & Hf).
  { eapply honest_before; [|exact Hh]. unfold at_socket. cbn. rewrite (fe_sockets _ _ _ _ Hfe).
    apply (grow_at id x (TCPSocket.consume n y) s Hj). cbn. by rewrite (fe_stream _ _ _ _ Hfe). }
  pose proof (fa_own _ _ _ _ Hf x) as Hown. unfold at_socket in Hown. cbn in Hown.
  rewrite list_lookup_insert_eq in Hown by done. destruct (Hown eq_refl) as [Hr Hst].
  assert (Hpre : ts_inbound x `prefix_of` request_bytes (drop k G)).
  { destruct Hh as [Hh _]. specialize (Hh (TCPSocket.consume n y)). unfold at_socket in Hh. cbn in Hh.
    rewrite (fe_sockets _ _ _ _ Hfe), list_lookup_insert_eq in Hh by done. specialize (Hh eq_refl).
    rewrite (fe_stream _ _ _ _ Hfe), Hst in Hh. rewrite <- (take_drop k G) in Hh at 2.
    rewrite request_bytes_app in Hh. by apply prefix_app_inv in Hh. }
  assert (Hs0 : session_at k (length rs) s) by (eapply session_tables; [exact (fa_session _ _ _ _ Hf)|done..]).
  destruct (recv_own _ t 0 (ts_inbound x) x s n y s1 k rs Hs0 Ht Hr (fa_count _ _ _ _ Hf) Hb Hpre H1)
    as (i & rs' & -> & Hi & E & Hs1 & Hr1 & Hp1 & Hset & Hcl1).
  exists (k + i)%nat, (rs ++ rs').
  assert (Etake : take (k + i) G = take k G ++ take i (drop k G)) by (by rewrite take_take_drop).
  split; cbn [at_socket OrderServer.with_sockets os_sockets os_requests os_responses].
  - by eapply session_tables.
  - exact Hi.
  - apply Hcl1, (fa_clients _ _ _ _ Hf).
  - intros z Hz. rewrite (fe_sockets _ _ _ _ Hfe), list_lookup_insert_eq in Hz by done. injection Hz as <-.
    split; [by apply (replies_same y)|]. unfold own_stream. cbn [TCPSocket.consume ts_stream ts_inbound].
    rewrite (fe_stream _ _ _ _ Hfe), (fe_inbound _ _ _ _ Hfe), Hst, Etake, request_bytes_app, <- app_assoc.
    f_equal. exact E.
  - intros Hn. rewrite (fe_sockets _ _ _ _ Hfe), list_lookup_insert_eq in Hn by done. done.
  - intros j z Hne Hz. rewrite (fe_sockets _ _ _ _ Hfe), list_lookup_insert_ne in Hz by done.
    apply (fa_other _ _ _ _ Hf j); [done|]. unfold at_socket. cbn. by rewrite list_lookup_insert_ne.
  - exact (admitted_step consumed s s1 k i _ (fa_admitted _ _ _ _ Hf) (fe_requests _ _ _ _ Hfe) Hp1 (mine_admitted i k)).
  - intros lr Hlr. rewrite (fe_responses _ _ _ _ Hfe) in Hlr.
    eapply Forall_impl; [exact (fa_answered _ _ _ _ Hf lr Hlr)|]. intros r Hr0 Hcl.
    destruct (Hr0 Hcl) as (a & Ha & [Hin|Hin]); (exists a; split; [done|]); [by left|right].
    rewrite fmap_app. apply elem_of_app. by left.
  - rewrite Etake. apply Forall_app. split; [|exact Hset].
    eapply Forall_impl; [exact (fa_settled _ _ _ _ Hf)|]. intros q. apply settled_more.
Qed.

Lemma foreign_drop n stream : foreign c stream -> foreign c (drop (n * RequestSize) stream).
Proof.
  intros H i q rest Hq E. rewrite drop_drop, <- Nat.mul_add_distr_r in E. by apply (H (n + i)%nat q rest).
Qed.

Lemma callback_other consumed j t x s x' s' :
  j <> id -> polled consumed j (x, s) -> OrderServer.recvCallback j t (x, s) = Ok (x', s') -> polled consumed j (x', s').
Proof.
  intros Hne ([Ht Hb] & Hj & Hs) H. cbn [fst snd] in *.
  destruct (callback_turn j t x s x' s' (conj Ht Hb) H) as (Hsane & Eo & _).
  split; [exact Hsane|]. cbn [fst snd]. split; [by rewrite Eo|].
  unfold OrderServer.recvCallback in H. destruct (os_accepting s); cbn [negb] in H; [|by injection H as <- <-].
  apply bind_Ok in H as ([n [y s1]] & H1 & H). injection H as <- <-.
  pose proof (recv_frames_effect _ _ _ _ _ _ _ _ _ _ Ht Hb H1) as Hfe.
  intros Hh. destruct Hs as (k & rs & Hf).
  { eapply honest_before; [|exact Hh]. unfold at_socket. cbn. rewrite (fe_sockets _ _ _ _ Hfe).
    apply (grow_at j x (TCPSocket.consume n y) s Hj). cbn. by rewrite (fe_stream _ _ _ _ Hfe). }
  assert (Hx : os_sockets (at_socket j x s) !! j = Some x) by (by apply list_lookup_insert_eq).
  destruct (fa_other _ _ _ _ Hf j x Hne Hx) as (n0 & Hn0 & Ein).
  assert (Hfo : foreign c (ts_inbound x)).
  { rewrite Ein. apply foreign_drop. destruct Hh as [_ Hh]. specialize (Hh j (TCPSocket.consume n y) Hne).
    unfold at_socket in Hh. cbn in Hh. rewrite (fe_sockets _ _ _ _ Hfe), list_lookup_insert_eq in Hh by done.
    specialize (Hh eq_refl). by rewrite (fe_stream _ _ _ _ Hfe) in Hh. }
  assert (Hs0 : session_at k (length rs) s) by (eapply session_tables; [exact (fa_session _ _ _ _ Hf)|done..]).
  destruct (recv_foreign _ _ _ _ _ _ _ _ _ _ _ _ Hs0 (fa_clients _ _ _ _ Hf) Hne Ht Hb Hfo H1)
    as [[Pu Pc (new & Ep & En)] (i & -> & Hi)].
  exists k, rs.
  assert (Hsame : forall l : nat, l <> j -> os_sockets (at_socket j (TCPSocket.consume (0 + i * RequestSize) y) s1) !! l =
    os_sockets (at_socket j x s) !! l).
  { intros l Hl. unfold at_socket. cbn. by rewrite (fe_sockets _ _ _ _ Hfe), !list_lookup_insert_ne by done. }
  split.
  - eapply session_tables; [by eapply session_untouched|done..].
  - exact (fa_count _ _ _ _ Hf).
  - apply Pc, (fa_clients _ _ _ _ Hf).
  - intros z Hz. rewrite Hsame in Hz by done. by apply (fa_own _ _ _ _ Hf).
  - intros Hn. rewrite Hsame in Hn by done. by apply (fa_none _ _ _ _ Hf).
  - intros l z Hl Hz. destruct (decide (l = j)) as [->|Hlj]; [|rewrite Hsame in Hz by done; by apply (fa_other _ _ _ _ Hf l)].
    unfold at_socket in Hz. cbn in Hz. rewrite (fe_sockets _ _ _ _ Hfe), list_lookup_insert_eq in Hz by done.
    injection Hz as <-. exists (n0 + i)%nat. cbn [TCPSocket.consume ts_stream ts_inbound].
    rewrite (fe_stream _ _ _ _ Hfe), (fe_inbound _ _ _ _ Hfe). rewrite Ein in Hi |- *. rewrite length_drop in Hi.
    rewrite drop_drop. cbn [Nat.add]. rewrite <- Nat.mul_add_distr_r. split; [unfold RequestSize in *; lia|done].
  - assert (Enil : mine new = admitted (take 0 (drop k G))) by done.
    pose proof (admitted_step consumed s s1 k 0 new (fa_admitted _ _ _ _ Hf) (fe_requests _ _ _ _ Hfe) Ep Enil) as Ha.
    by rewrite Nat.add_0_r in Ha.
  - intros lr Hlr. cbn in Hlr. rewrite (fe_responses _ _ _ _ Hfe) in Hlr. exact (fa_answered _ _ _ _ Hf lr Hlr).
  - exact (fa_settled _ _ _ _ Hf).
Qed.

Section Io.
Context (kernel : nat -> TcpKernel) (capacity : nat) (Hk : forall i, kernel_ok (kernel i)).
Notation holds := (ends (λ _, True)).

Definition server_session (consumed : list MEClientRequest) (s : OrderServer) : Prop :=
  Forall sane (os_sockets s) /\ session_ok consumed s.

Lemma poll_connection_session consumed s j :
  server_session consumed s -> holds (server_session consumed) (OrderServer.poll_connection kernel s j).
Proof.
  intros [Hs Hok]. pose proof (poll_connection_turn kernel Hk s j Hs) as Hturn.
  unfold OrderServer.poll_connection in *. destruct (os_sockets s !! j) as [x|] eqn:Hx; [|done].
  cbn [deref mbind res_bind] in *.
  assert (Hend : holds (λ r, polled consumed j r.2) (TCPSocket.sendAndRecv (kernel j) (OrderServer.recvCallback j) (x, s))).
  { apply (sendAndRecv_rule (kernel j) (Hk j)).
    - by intros y o [[? _] _].
    - intros y y' o. apply polled_quiet.
    - intros y o bytes t Hp Hby _ Hl. by apply polled_received.
    - intros t y o Hp _. destruct (OrderServer.recvCallback j t (y, o)) as [[y' o']|] eqn:E; [|done].
      destruct (decide (j = id)) as [->|Hne]; [by eapply callback_own|by eapply callback_other].
    - split; [by eapply Forall_lookup_1|]. cbn [fst snd]. split; [by eapply lookup_lt_Some|].
      by rewrite (at_socket_same j x s Hx). }
  destruct (TCPSocket.sendAndRecv (kernel j) (OrderServer.recvCallback j) (x, s)) as [[got [y o]]|]; [|done].
  cbn [mbind res_bind ends snd] in *. destruct Hend as (_ & _ & Hend). split; [apply Hturn|exact Hend].
Qed.

Lemma session_finished consumed s :
  server_session consumed s -> (exists lq, queue_ok (os_requests s) lq) ->
  holds (server_session consumed) (OrderServer.recvFinishedCallback s).
Proof.
  intros [Hs Hok] [lq Hlq]. unfold OrderServer.recvFinishedCallback.
  destruct (sequenceAndPublish_ok (os_sequencer s) _ _ Hlq) as (q' & -> & Hq' & _). cbn [mbind res_bind ends].
  split; [exact Hs|]. intros Hh. destruct (Hok Hh) as (k & rs & [F1 F2 F3 F4 F5 F6 F7 F8 F9]).
  exists k, rs. split; try done; [by eapply session_tables|]. cbn. intros l Hl.
  rewrite (queue_contents_unique _ _ _ Hl Hq'). rewrite <- (F7 lq Hlq). unfold mine. apply filter_Permutation.
  unfold pending_requests. cbn. rewrite <- app_assoc, <- map_app, take_drop. by rewrite stable_sort_perm.
Qed.

Lemma session_push consumed s listed :
  server_session consumed s -> holds (server_session consumed) (OrderServer.push_socket capacity listed s).
Proof.
  intros [Hs Hok]. pose proof (push_turn capacity s listed Hs) as Hturn.
  unfold OrderServer.push_socket, TCPSocket.make in *.
  destruct (bool_decide (0 < capacity)%nat); [|done]. cbn [ASSERT mbind res_bind ends] in *. destruct Hturn as [Hs' _].
  set (x := TCPSocket.with_fd _ _) in *. split; [exact Hs'|]. intros Hh.
  destruct (Hok) as (k & rs & [F1 F2 F3 F4 F5 F6 F7 F8 F9]).
  { eapply honest_before; [|exact Hh]. intros j y Hy. exists y. split; [by apply lookup_app_l_Some|done]. }
  assert (Hnew : forall j y, (os_sockets s ++ [x]) !! j = Some y ->
    os_sockets s !! j = Some y \/ os_sockets s !! j = None /\ y = x).
  { intros j y Hy. apply lookup_app_Some in Hy as [Hy|[Hl Hy]]; [by left|right].
    apply list_lookup_singleton_Some in Hy as [_ <-]. split; [|done]. by apply lookup_ge_None. }
  exists k, rs. split; try done.
  - by eapply session_tables.
  - intros y Hy. destruct (Hnew _ _ Hy) as [Hy'|[Hn ->]]; [by apply F4|]. destruct (F5 Hn) as [-> ->]. by repeat split.
  - intros Hn. apply F5. apply lookup_ge_None in Hn. cbn in Hn. rewrite length_app in Hn. apply lookup_ge_None. lia.
  - intros j y Hj Hy. destruct (Hnew _ _ Hy) as [Hy'|[Hn ->]]; [by eapply F6|]. exists 0%nat. split; [cbn; lia|done].
Qed.

Lemma session_accept consumed s b :
  server_session consumed s -> holds (server_session consumed) (OrderServer.accept_one capacity s b).
Proof.
  intros Hs. unfold OrderServer.accept_one. case_match; [done|]. destruct b; [|done]. by apply session_push.
Qed.

Lemma session_poll consumed events accepts s :
  server_session consumed s -> holds (server_session consumed) (OrderServer.poll capacity events accepts s).
Proof.
  intros Hs. unfold OrderServer.poll. apply (ends_bind (server_session consumed)).
  { case_match; [by apply session_push|done]. }
  clear s Hs. intros s Hs. case_match; [|done].
  apply ends_fold; [|done]. intros s1 b _ H1. by apply session_accept.
Qed.

(** All sockets change quietly. *)
Lemma session_quiet_all consumed s socks :
  server_session consumed s -> Forall sane socks -> Forall2 quiet (os_sockets s) socks ->
  server_session consumed (OrderServer.with_sockets socks s).
Proof.
  intros [Hs Hok] Hs' Hq. split; [exact Hs'|]. intros Hh.
  assert (Hr : forall j y, socks !! j = Some y -> exists x, os_sockets s !! j = Some x /\ quiet x y).
  { intros j y Hy. by apply (Forall2_lookup_r _ _ _ _ _ Hq). }
  destruct Hok as (k & rs & [F1 F2 F3 F4 F5 F6 F7 F8 F9]).
  { eapply honest_before; [|exact Hh]. intros j x Hx. destruct (Forall2_lookup_l _ _ _ _ _ Hq Hx) as (y & Hy & Hxy).
    exists y. split; [done|]. by rewrite (qu_stream _ _ Hxy). }
  exists k, rs. split; try done.
  - by eapply session_tables.
  - intros y Hy. destruct (Hr _ _ Hy) as (x & Hx & Hxy). destruct (F4 x Hx) as [R S].
    split; [eapply replies_same; [apply (qu_accepted _ _ Hxy)|done]|]. unfold own_stream in *.
    by rewrite (qu_stream _ _ Hxy), (qu_inbound _ _ Hxy).
  - intros Hn. apply F5. apply lookup_ge_None in Hn. cbn in Hn. apply lookup_ge_None.
    by rewrite (Forall2_length _ _ _ Hq).
  - intros j y Hj Hy. destruct (Hr _ _ Hy) as (x & Hx & Hxy). destruct (F6 j x Hj Hx) as (n & Hn & E).
    exists n. by rewrite (qu_stream _ _ Hxy), (qu_inbound _ _ Hxy).
Qed.

Lemma session_flush consumed s :
  server_session consumed s -> server_session consumed (OrderServer.flushSend kernel s).
Proof.
  intros Hs. destruct (flush_turn kernel Hk s (proj1 Hs)) as [Hs' _].
  apply session_quiet_all; [done|exact Hs'|].
  apply Forall2_same_length_lookup_2; [by rewrite length_imap|]. intros i x y Hx Hy.
  rewrite list_lookup_imap, Hx in Hy. cbn in Hy. injection Hy as <-. case_bool_decide; [apply quiet_refl|].
  apply flushSend_quiet; [done|]. by apply (Forall_lookup_1 _ _ _ _ (proj1 Hs) Hx).
Qed.

(** A response leaves the queue for the stream of [j]. *)
Lemma facts_sent consumed k rs rs' s s' j x r lr :
  facts consumed k rs s -> queue_ok (os_responses s) (r :: lr) ->
  os_sockets s !! j = Some x ->
  (exists x', os_sockets s' = <[j := x']> (os_sockets s) /\ ts_stream x' = ts_stream x /\
     ts_inbound x' = ts_inbound x /\ (j = id -> replies x' rs')) ->
  os_sequencer s' = os_sequencer s -> os_requests s' = os_requests s -> queue_ok (os_responses s') lr ->
  os_clients s' = os_clients s -> session_at k (length rs') s' ->
  (j <> id -> rs' = rs) -> rs `prefix_of` rs' -> (rs_client_id r = c -> r ∈ omrs_response <$> rs') ->
  facts consumed k rs' s'.
Proof.
  intros [F1 F2 F3 F4 F5 F6 F7 F8 F9] Hlr Hx (x' & Eo & Est & Ein & Hrep) Eq Er Hlr' Ecl Hs Hne [more ->] Hin.
  pose proof (lookup_lt_Some _ _ _ Hx) as Hlt.
  split; try done.
  - unfold clients_ok. by rewrite Ecl.
  - intros y Hy. rewrite Eo in Hy. apply list_lookup_insert_Some in Hy as [(-> & <- & _)|[Hj Hy]].
    + split; [by apply Hrep|]. destruct (F4 x Hx) as [_ S]. unfold own_stream in *. by rewrite Est, Ein.
    + rewrite (Hne Hj). by apply F4.
  - intros Hn. rewrite Eo in Hn. apply lookup_ge_None in Hn. rewrite length_insert in Hn.
    destruct (decide (j = id)) as [->|Hj]; [lia|]. rewrite (Hne Hj). by apply F5, lookup_ge_None.
  - intros i y Hi Hy. rewrite Eo in Hy. apply list_lookup_insert_Some in Hy as [(<- & <- & _)|[_ Hy]]; [|by eapply F6].
    destruct (F6 j x Hi Hx) as (n & Hn & E). exists n. by rewrite Est, Ein.
  - intros lq Hlq. unfold pending_requests. rewrite Er in Hlq. rewrite Eq. by apply F7.
  - intros l Hl. rewrite (queue_contents_unique _ _ _ Hl Hlr').
    eapply Forall_impl; [exact (F8 _ Hlr)|]. intros q Hq Hcl. destruct (Hq Hcl) as (a & Ha & Hor). exists a. split; [done|].
    destruct Hor as [[->|Hor]%elem_of_cons|Hor]; [right|by left|right].
    + apply Hin, Ha.
    + rewrite fmap_app. apply elem_of_app. by left.
  - eapply Forall_impl; [exact F9|]. intros q. apply settled_more.
Qed.

Lemma session_send_response consumed s r lr :
  server_session consumed s -> queue_ok (os_responses s) (r :: lr) -> response_wf r ->
  holds (λ '(go, s'), server_session consumed s' /\ (go = true -> queue_ok (os_responses s') lr))
    (OrderServer.send_response r s).
Proof.
  intros [Hs Hok] Hr Hwf. pose proof (send_response_turn s r lr Hs Hr) as Hturn. unfold OrderServer.send_response in *.
  destruct (ASSERT _) as [[]|]; [|done]. cbn [mbind res_bind] in *. unfold OrderServer.session in *.
  destruct (os_sessions s !! Z.to_nat (rs_client_id r)) as [e|] eqn:He; [|done]. cbn [deref mbind res_bind] in *.
  destruct (ASSERT _) as [[]|]; [|done]. cbn [mbind res_bind] in *.
  destruct (se_owner e) as [j|] eqn:Ho; [|done]. cbn [deref mbind res_bind] in *.
  destruct (os_sockets s !! j) as [x|] eqn:Hx; [|done]. cbn [deref mbind res_bind] in *.
  pose proof (Forall_lookup_1 _ _ _ _ Hs Hx) as [Ht Hb].
  match type of Hturn with context [TCPSocket.send (encode_response ?f0) x] => set (f := f0) in * end.
  destruct (tcp_send_ok (encode_response f) x Ht) as (status & y & E & Hy & Hst & Hi & Hstr & _). rewrite E in *.
  cbn [mbind res_bind] in *. destruct status.
  - rewrite bool_decide_false in * by done. rewrite bool_decide_true in * by done. cbn [ASSERT mbind res_bind] in *.
    destruct (pop_ok _ _ Hr) as (q & Eq & Hq & _). cbn [OrderServer.with_sockets os_responses] in *. rewrite Eq in *.
    cbn [mbind res_bind ends] in *. destruct Hturn as (Hs' & _ & _). split; [|by intros _].
    split; [exact Hs'|]. intros Hh. destruct Hok as (k & rs & Hf).
    { eapply honest_before; [|exact Hh]. intros i z Hz. cbn. destruct (decide (i = j)) as [->|Hij].
      - exists y. rewrite list_lookup_insert_eq by (by eapply lookup_lt_Some). rewrite Hstr. split; [done|].
        assert (z = x) as -> by congruence. done.
      - exists z. by rewrite list_lookup_insert_ne. }
    pose proof (fa_session _ _ _ _ Hf) as Hses. destruct Hst as [Hacc _].
    destruct Hwf as (Hw1 & Hw2 & Hw3) eqn:Hwfe. clear Hwfe.
    destruct (decide (rs_client_id r = c)) as [Ec|Ec].
    + assert (Hj : j = id /\ bound s).
      { destruct (sa_session _ _ _ Hses) as (e1 & He1 & _ & _ & Hm). rewrite Ec, He1 in He. injection He as ->.
        unfold bound. destruct (os_clients s !! id) as [d|]; [destruct Hm as (-> & Ho' & _)|destruct Hm as (Ho' & _)]; [|congruence].
        split; [congruence|done]. }
      destruct Hj as [-> Hbound]. destruct (session_bound_entry _ _ _ Hses Hbound) as (e1 & He1 & Hn & Hu & Ho1 & Hep & Hout).
      rewrite Ec, He1 in He. injection He as ->. exists k, (rs ++ [f]).
      assert (Hfw : om_response_wf f).
      { unfold f. split; [cbn; rewrite Hout; apply after_u64|]. split; [|exact Hwf]. cbn. rewrite Hep.
        exact Hfits. }
      eapply (facts_sent consumed k rs (rs ++ [f]) s _ id x r lr Hf Hr Hx); try done.
      * exists y. split; [done|]. split; [done|]. split; [done|]. intros _.
        destruct (fa_own _ _ _ _ Hf x Hx) as [Hrep _]. by apply (replies_more x).
      * eapply session_tables; [apply (session_update k (length rs) k (length (rs ++ [f])) s
          (mkSession (u64 (se_next_outgoing e + 1)) (se_next_exp e) (Some id) (se_epoch e) (se_unknown e)))|..]; try done.
        -- cbn. rewrite Hout, after_add, length_app. cbn. by rewrite Nat.add_1_r.
        -- cbn. by rewrite Ec.
      * by exists [f].
      * intros _. rewrite fmap_app. apply elem_of_app. right. by left.
    + assert (Hj : j <> id).
      { intros ->. pose proof (sa_mine _ _ _ Hses _ _ He Ho) as Ed. apply Z2Nat.inj in Ed; [done|apply Hw2|lia]. }
      exists k, rs. eapply (facts_sent consumed k rs rs s _ j x r lr Hf Hr Hx); try done.
      * exists y. split; [done|]. split; [done|]. by split.
      * eapply session_untouched; [exact Hses|]. set (e' := mkSession _ _ _ _ _).
        apply (untouched_trans _ (OrderServer.set_session (rs_client_id r) e' s)); [|by apply untouched_tables].
        apply (untouched_session s (Z.to_nat (rs_client_id r)) e); [|done|].
        -- apply to_nat_ne; [apply Hw2|done].
        -- unfold e'. cbn. intros [= ->]. done.
  - rewrite bool_decide_true in * by done. cbn [ends] in *. destruct Hst as [-> _]. split; [|done].
    destruct Hturn as (Hs' & _). split; [exact Hs'|]. rewrite (list_insert_id _ _ _ Hx) in *. by destruct s.
  - rewrite bool_decide_false by done. by rewrite bool_decide_false by done.
Qed.

Lemma session_send_responses consumed fuel b s lr :
  server_session consumed s -> queue_ok (os_responses s) lr -> Forall response_wf lr ->
  holds (λ r, server_session consumed r.2) (OrderServer.send_responses fuel b s).
Proof.
  revert b s lr. induction fuel as [|fuel IH]; intros b s lr Hs Hr Hw; cbn [OrderServer.send_responses];
    rewrite (peek_ok _ _ Hr); cbn [mbind res_bind]; destruct lr as [|r lr]; cbn [head]; try exact Hs; [done|].
  apply Forall_cons in Hw as [Hw Hws].
  eapply ends_bind; [by apply (session_send_response consumed s r lr)|]. intros [go s1] [H1 Hgo].
  destruct go; [|exact H1]. apply (IH _ _ lr); auto.
Qed.

Lemma ends_both {A} F (P Q : A -> Prop) m :
  ends F P m -> ends F Q m -> ends F (λ a, P a /\ Q a) m.
Proof. by destruct m. Qed.

Lemma session_turn consumed now events accepts s :
  server_session consumed s -> (exists lq, queue_ok (os_requests s) lq) ->
  (exists lr, queue_ok (os_responses s) lr /\ Forall response_wf lr) ->
  holds (server_session consumed) (OrderServer.run_iteration kernel capacity now events accepts s).
Proof.
  intros Hs [lq Hlq] (lr & Hlr & Hw). unfold OrderServer.run_iteration.
  destruct (ASSERT _) as [[]|]; [|done]. cbn [mbind res_bind].
  apply (ends_bind (λ s', server_session consumed s' /\ turn s s')).
  { destruct (os_accepting s); [|split; [done|apply turn_refl]]. apply ends_both; [by apply session_poll|].
    eapply ends_mono; [by apply poll_turn, Hs|]. by intros s' [_ H]. }
  intros s1 [H1 T1]. unfold OrderServer.sendAndRecv.
  apply (ends_bind (λ s', server_session consumed s' /\ turn s s')).
  { apply (ends_bind (λ s', server_session consumed s' /\ turn s s')).
    { apply ends_both.
      - apply ends_fold; [|done]. intros s2 j _ H2. by apply poll_connection_session.
      - eapply ends_mono; [by apply (polls_turn kernel Hk _ s1), H1|]. intros s2 [_ T2]. by eapply turn_trans. }
    intros s2 [H2 T2]. destruct (tn_requests _ _ T2 lq Hlq) as (lq2 & _ & Hlq2 & _).
    apply ends_both; [by apply session_finished; [|exists lq2]|].
    eapply ends_mono; [apply finished_turn|]. intros s3 T3. by eapply turn_trans. }
  intros s3 [H3 T3]. cbv zeta. set (s4 := if negb (os_accepting s3) && _ then _ else s3).
  assert (H4 : server_session consumed s4 /\ os_responses s4 = os_responses s3).
  { unfold s4. case_match; [|done]. split; [|done]. destruct H3 as [Hsane Hok]. split; [exact Hsane|].
    intros Hh. destruct (Hok Hh) as (k & rs & [F1 F2 F3 F4 F5 F6 F7 F8 F9]). exists k, rs. split; try done.
    by eapply session_tables. }
  destruct H4 as [H4 E4]. destruct (tn_responses _ _ T3 lr Hlr) as (sent & lr3 & -> & Hlr3 & _).
  apply Forall_app in Hw as [_ Hw3]. rewrite <- E4 in Hlr3.
  eapply ends_bind; [by apply (session_send_responses consumed _ _ s4 lr3)|]. intros [queued s5] H5. cbn [snd] in *.
  destruct queued; [by apply session_flush|exact H5].
Qed.
End Io.
End Session.
