(* ===== verification/MarketView.v ===== *)
(** The public book.

    What a subscriber of the market data can know: the live orders by market
    order id.  [apply_update] is the contract between the matching engine,
    which publishes updates, and the components that follow them (the snapshot
    synthesizer, the order book of the trading side).  The first half of the
    contract is shown here: every update that the reference book publishes is
    applicable, and applying them all gives the live orders. *)
From S2P Require Import Prelude.
From S2P Require Import Types.
From S2P Require Import MemPool.
From S2P Require Import Ring.
From S2P Require Import PriceLevels.
From S2P Require Import LevelsView.
From S2P Require Import MatchBook.
From S2P Require Import BookSpec.
From S2P Require Import BookRefinement.
From S2P Require Import BookInvariant.
From S2P Require Import BookTheorems.
From stdpp Require Import functions base gmap list sorting.
From Stdlib Require Import ZArith Lia.

Local Open Scope Z_scope.

Notation View := (gmap Z MEMarketUpdate).

Definition valid_order_id (id : Z) : bool := (0 <? id) && (id <? ME_MAX_ORDER_IDS).

Definition valid_qty (q : Z) : bool := negb (q =? 0) && negb (q =? Qty_INVALID).

(** An order that may be added. *)
Definition valid_add (u : MEMarketUpdate) : bool :=
  valid_order_id (mu_order_id u) && is_buy_or_sell (mu_side u) && (0 <? mu_price u)
  && negb (mu_price u =? Price_INVALID) && valid_qty (mu_qty u).

(** An update that speaks of the order [x]. *)
Definition about (u x : MEMarketUpdate) : bool :=
  valid_order_id (mu_order_id u) && bool_decide (mu_side u = mu_side x)
  && (mu_price u =? mu_price x).

Definition apply_update (u : MEMarketUpdate) (m : View) : option View :=
  match mu_type u with
  | MD_ADD =>
      match m !! mu_order_id u with
      | Some _ => None
      | None => if valid_add u then Some (<[mu_order_id u := u]> m) else None
      end
  | MD_MODIFY =>
      x ← m !! mu_order_id u;
      if about u x && valid_qty (mu_qty u)
      then Some (<[mu_order_id u := set_mu_qty (mu_qty u) x]> m) else None
  | MD_CANCEL =>
      x ← m !! mu_order_id u;
      if about u x then Some (delete (mu_order_id u) m) else None
  | MD_TRADE => Some m
  | _ => None
  end.

Fixpoint apply_all (us : list MEMarketUpdate) (m : View) : option View :=
  match us with
  | [] => Some m
  | u :: us' => m' ← apply_update u m; apply_all us' m'
  end.

(** The public image of an order. *)
Definition order_update (x : MEOrder) : MEMarketUpdate :=
  mkUpdate MD_ADD (o_market_order_id x) (o_ticker_id x) (o_side x) (o_price x) (o_qty x)
    (o_priority x).

Definition view_of (l : list MEOrder) : View :=
  list_to_map ((λ x, (o_market_order_id x, order_update x)) <$> l).

Definition view (a : Book) : View := view_of (all_orders a).

(** ** Lemmas *)
Lemma apply_all_app us1 us2 m :
  apply_all (us1 ++ us2) m = (apply_all us1 m ≫= apply_all us2).
Proof.
  revert m. induction us1 as [|u us1 IH]; intros m; [done|]. cbn.
  destruct (apply_update u m); cbn; [apply IH|done].
Qed.

Lemma updates_of_app e1 e2 : updates_of (e1 ++ e2) = updates_of e1 ++ updates_of e2.
Proof. induction e1 as [|[r|u] e1 IH]; cbn; congruence. Qed.

Definition ids (l : list MEOrder) : list Z := o_market_order_id <$> l.

Lemma view_keys l : ((λ x, (o_market_order_id x, order_update x)) <$> l).*1 = ids l.
Proof. by rewrite <- list_fmap_compose. Qed.

Lemma view_of_perm l1 l2 : NoDup (ids l1) -> l1 ≡ₚ l2 -> view_of l1 = view_of l2.
Proof.
  intros Hnd Hp. apply list_to_map_proper; [by rewrite view_keys|]. by rewrite Hp.
Qed.

Lemma view_of_notin l i : i ∉ ids l -> view_of l !! i = None.
Proof. intros Hi. apply not_elem_of_list_to_map_1. by rewrite view_keys. Qed.

Lemma view_of_cons x l :
  view_of (x :: l) = <[o_market_order_id x := order_update x]> (view_of l).
Proof. done. Qed.

Lemma view_of_lookup l i u :
  NoDup (ids l) ->
  view_of l !! i = Some u <-> exists x, x ∈ l /\ o_market_order_id x = i /\ u = order_update x.
Proof.
  intros Hnd. etransitivity.
  { symmetry. apply (elem_of_list_to_map (M := gmap Z)). by rewrite view_keys. }
  rewrite list_elem_of_fmap. split.
  - intros (x & [= -> ->] & Hx). eauto.
  - intros (x & Hx & <- & ->). eauto.
Qed.

Record public_wf (x : MEOrder) : Prop := {
  pw_id : 0 < o_market_order_id x < ME_MAX_ORDER_IDS;
  pw_side : valid_side (o_side x);
  pw_price : 0 < o_price x /\ o_price x <> Price_INVALID;
  pw_qty : 0 < o_qty x <= INT32_MAX
}.

Lemma valid_id_true x : public_wf x -> valid_order_id (o_market_order_id x) = true.
Proof.
  intros [H _ _ _]. unfold valid_order_id.
  by rewrite andb_true_iff, !Z.ltb_lt.
Qed.

Lemma valid_qty_true q : 0 < q <= INT32_MAX -> valid_qty q = true.
Proof.
  intros H. unfold valid_qty, Qty_INVALID, INT32_MAX in *.
  rewrite andb_true_iff, !negb_true_iff, !Z.eqb_neq. lia.
Qed.

Lemma valid_add_true x : public_wf x -> valid_add (order_update x) = true.
Proof.
  intros H. unfold valid_add, order_update. cbn [mu_order_id mu_side mu_price mu_qty].
  rewrite valid_id_true, valid_qty_true by (try done; apply H).
  destruct H as [_ Hs [Hp1 Hp2] _].
  rewrite (proj2 (Z.ltb_lt _ _) Hp1), (proj2 (Z.eqb_neq _ _) Hp2).
  by destruct Hs as [-> | ->].
Qed.

Lemma about_true x q r p ty t :
  public_wf x -> about (mkUpdate ty (o_market_order_id x) t (o_side x) (o_price x) q r)
    (set_mu_qty p (order_update x)) = true /\
  about (mkUpdate ty (o_market_order_id x) t (o_side x) (o_price x) q r) (order_update x) = true.
Proof.
  intros H. unfold about, order_update, set_mu_qty.
  cbn [mu_order_id mu_side mu_price mu_qty]. rewrite valid_id_true by done.
  by rewrite bool_decide_true, Z.eqb_refl.
Qed.

Lemma apply_add x l :
  public_wf x -> o_market_order_id x ∉ ids l ->
  apply_update (order_update x) (view_of l) = Some (view_of (x :: l)).
Proof.
  intros Hx Hn. unfold apply_update. cbn [order_update mu_type mu_order_id].
  rewrite view_of_notin by done. fold (order_update x). by rewrite valid_add_true.
Qed.

Lemma apply_modify x l q r t :
  public_wf x -> 0 < q <= INT32_MAX ->
  apply_update (mkUpdate MD_MODIFY (o_market_order_id x) t (o_side x) (o_price x) q r)
    (view_of (x :: l)) = Some (view_of (set_o_qty q x :: l)).
Proof.
  intros Hx Hq. unfold apply_update. cbn [mu_type mu_order_id mu_qty].
  rewrite view_of_cons, lookup_insert_eq. cbn [mbind option_bind].
  rewrite (proj2 (about_true x q r 0 MD_MODIFY t Hx)), valid_qty_true by done.
  cbn [andb]. by rewrite insert_insert_eq.
Qed.

Lemma apply_cancel x l q r t :
  public_wf x -> o_market_order_id x ∉ ids l ->
  apply_update (mkUpdate MD_CANCEL (o_market_order_id x) t (o_side x) (o_price x) q r)
    (view_of (x :: l)) = Some (view_of l).
Proof.
  intros Hx Hn. unfold apply_update. cbn [mu_type mu_order_id].
  rewrite view_of_cons, lookup_insert_eq. cbn [mbind option_bind].
  rewrite (proj2 (about_true x q r 0 MD_CANCEL t Hx)).
  by rewrite delete_insert_id by (by apply view_of_notin).
Qed.

(** The fills of an incoming order. *)
Lemma fills_replay t c s o id p l others :
  Forall public_wf l -> NoDup (ids (l ++ others)) ->
  forall leaves leaves0 fs lv rest, 0 <= leaves ->
  fill s p leaves l = (fs, lv, rest) ->
  apply_all (updates_of (fills_events t c s o id leaves0 fs)) (view_of (l ++ others))
    = Some (view_of (rest ++ others)).
Proof.
  induction 1 as [|x l Hx Hl IH]; intros Hnd leaves leaves0 fs lv rest Hlv Hf; cbn [fill] in Hf.
  { by injection Hf as <- <- <-. }
  destruct ((leaves =? 0) || _) eqn:E0; [by injection Hf as <- <- <-|].
  apply orb_false_iff in E0 as [E0%Z.eqb_neq _].
  pose proof (pw_qty _ Hx) as Hxq. cbn [app ids fmap list_fmap] in Hnd.
  apply NoDup_cons in Hnd as [Hn Hnd].
  destruct (o_qty x - Z.min leaves (o_qty x) =? 0) eqn:Eq.
  - destruct (fill s p (leaves - Z.min leaves (o_qty x)) l) as [[fs' lv'] rest'] eqn:Ef.
    injection Hf as <- <- <-. cbn [fills_events]. rewrite updates_of_app. unfold fill_events.
    rewrite Eq. cbn [updates_of app apply_all].
    change (apply_update (mkUpdate MD_TRADE _ _ _ _ _ _) ?m) with (Some m). cbn [mbind option_bind].
    rewrite apply_cancel by done. cbn [mbind option_bind]. eapply IH; [done| |done]. lia.
  - apply Z.eqb_neq in Eq. injection Hf as <- <- <-. cbn [fills_events]. rewrite updates_of_app.
    unfold fill_events. rewrite (proj2 (Z.eqb_neq _ _) Eq). cbn [updates_of app apply_all].
    change (apply_update (mkUpdate MD_TRADE _ _ _ _ _ _) ?m) with (Some m). cbn [mbind option_bind].
    rewrite apply_modify by (try done; lia). done.
Qed.

Lemma order_wf_public a s x : book_wf a -> order_wf a s x -> valid_side s -> public_wf x.
Proof.
  intros W [Hs _ _ _ _ Hp Hq Hid _] Hv. pose proof (bw_next _ W). split; try done; [lia|congruence].
Qed.

Lemma book_public a s : book_wf a -> valid_side s -> Forall public_wf (side_of s a).
Proof.
  intros W Hs. apply Forall_forall. intros x Hx.
  eapply order_wf_public; [done| |done]. by apply W.
Qed.

Lemma trade_replay c o t s p q a :
  book_wf a -> is_u32 q -> spec_reason c o t s p q a = NONE ->
  apply_all (updates_of (snd (spec_trade c o t s p q a))) (view a)
    = Some (view (fst (spec_trade c o t s p q a))).
Proof.
  intros W Hq Hr. pose proof (spec_trade_wf c o t s p q a W Hq Hr) as W'. revert W'.
  destruct (spec_reason_NONE _ _ _ _ _ _ _ Hr) as (Hc & Ht & Hs & Hp & Hqty & Hu & Hoc & Hn & Hlc).
  unfold spec_trade. cbv zeta.
  change (side_of (opposite s) (accept c o a)) with (side_of (opposite s) a).
  destruct (fill s p q (side_of (opposite s) a)) as [[fs lv] rest] eqn:Ef.
  assert (Hq0 : 0 <= q) by apply Hq. pose proof (valid_opposite _ Hs) as Hso.
  pose proof (wf_positive _ _ W Hso) as Hpos. pose proof (bw_ids _ W) as Hids.
  pose proof (bw_next _ W) as Hnext. rewrite set_side_accept.
  set (a2 := set_side (opposite s) rest a).
  assert (Hp1 : all_orders a ≡ₚ side_of (opposite s) a ++ side_of s a).
  { rewrite (all_orders_split s a Hs). apply Permutation_app_comm. }
  assert (Hp2 : all_orders a2 ≡ₚ rest ++ side_of s a).
  { unfold a2. rewrite (all_orders_set_side _ _ _ Hso). by destruct Hs as [-> | ->]. }
  destruct (filled_wf c o _ _ _ _ _ _ _ W Hs Hq0 Hn Ef) as [W2 Hold]. fold a2 in W2, Hold.
  assert (Hfill : apply_all (updates_of (fills_events t c s o (a_next_id a) q fs)) (view a)
      = Some (view (accept c o a2))).
  { unfold view. rewrite (view_of_perm _ _ Hids Hp1).
    pose proof (view_of_perm _ _ (bw_ids _ W2) Hp2) as E2.
    change (view_of (all_orders (accept c o a2)) = view_of (rest ++ side_of s a)) in E2. rewrite E2.
    eapply fills_replay; [by apply book_public| |exact Hq0|exact Ef].
    unfold ids. by rewrite <- Hp1. }
  destruct (lv =? 0) eqn:Elv; cbn [fst snd]; intros W'.
  - exact Hfill.
  - rewrite updates_of_app, apply_all_app. cbn [updates_of]. rewrite Hfill.
    cbn [mbind option_bind updates_of apply_all].
    set (x := mkOrder t c o (a_next_id a) s p lv _ None None) in *.
    change (mkUpdate MD_ADD _ _ _ _ _ _) with (order_update x).
    match type of W' with book_wf (publish _ ?a3) => set (a3' := a3) in * end.
    assert (Hp3 : all_orders a3' ≡ₚ x :: all_orders a2).
    { unfold a3'. rewrite all_orders_set_side by done. rewrite enqueue_perm.
      apply Permutation_skip.
      exact (Permutation_sym (all_orders_split s (accept c o a2) Hs)). }
    transitivity (Some (view_of (x :: all_orders a2)));
      [|f_equal; symmetry; exact (view_of_perm _ _ (bw_ids _ W') Hp3)].
    pose proof (bw_ids _ W') as Hids'. change (all_orders (publish _ a3')) with (all_orders a3') in Hids'.
    rewrite Hp3 in Hids'. apply NoDup_cons in Hids' as [Hx Hids'].
    change (view (accept c o a2)) with (view_of (all_orders a2)).
    rewrite apply_add; [done| |done].
    assert (Hin : x ∈ side_of s a3').
    { unfold a3'. rewrite side_of_set_side, decide_True, enqueue_perm by done. by left. }
    eapply (order_wf_public _ s x W'); [|done]. by apply (bw_orders _ W').
Qed.

Lemma find_order_split k a x :
  NoDup (okey <$> all_orders a) -> find_order k a = Some x ->
  x ∈ all_orders a /\ okey x = k /\
  forall l, (forall y, y ∈ l -> y ∈ all_orders a) -> NoDup l -> x ∈ l -> l ≡ₚ x :: drop_order k l.
Proof.
  intros Hnd Hf. unfold find_order in Hf.
  assert (Hx : x ∈ List.filter (λ y, bool_decide (okey y = k)) (all_orders a)).
  { destruct (List.filter _ _); [done|]. injection Hf as ->. by left. }
  apply list_elem_of_In, filter_In in Hx as [Hx Hk].
  apply list_elem_of_In in Hx. apply bool_decide_eq_true in Hk.
  split; [done|]. split; [done|]. intros l Hsub Hl Hin.
  assert (Hone : forall y, y ∈ l -> okey y = k -> y = x).
  { intros y Hy Hyk. apply Hsub in Hy. rewrite <- Hk in Hyk.
    apply list_elem_of_lookup in Hy as [i Hi]. apply list_elem_of_lookup in Hx as [j Hj].
    assert (i = j).
    { eapply NoDup_lookup; [exact Hnd|..]; rewrite list_lookup_fmap.
      - by rewrite Hi.
      - rewrite Hj. cbn. by rewrite Hyk. }
    congruence. }
  clear -Hl Hin Hk Hone. induction Hl as [|y l Hy Hl IH]; [set_solver|].
  unfold drop_order in *. cbn [List.filter]. case_bool_decide as E; cbn [negb].
  - assert (y = x) as -> by (apply Hone; [by left|done]). apply Permutation_skip.
    clear IH Hin. induction l as [|z l IHl]; [done|]. cbn [List.filter].
    case_bool_decide as Ez; [|cbn; apply Permutation_skip, IHl].
    + exfalso. apply Hy. rewrite (Hone z) by (try done; right; by left). by left.
    + set_solver.
    + by apply NoDup_cons in Hl as [_ ?].
    + intros w Hw. apply Hone. set_solver.
  - apply elem_of_cons in Hin as [->|Hin]; [done|].
    etransitivity; [|apply perm_swap]. apply Permutation_skip, IH; [done|].
    intros w Hw. apply Hone. by right.
Qed.

Lemma cancel_replay c o t a :
  book_wf a ->
  apply_all (updates_of (snd (spec_cancel c o t a))) (view a)
    = Some (view (fst (spec_cancel c o t a))).
Proof.
  intros W. pose proof (spec_cancel_wf c o t a W) as W'. revert W'. unfold spec_cancel.
  destruct (if (c <? ME_MAX_NUM_CLIENTS) && (t =? a_ticker_id a)
            then find_order (c, o) a else None) as [x|] eqn:Ef; [|done]. cbn [fst snd updates_of apply_all].
  assert (Hf : find_order (c, o) a = Some x) by (by destruct (_ && _)). clear Ef. intros W'.
  destruct (find_order_split _ _ _ (bw_keys _ W) Hf) as (Hx & Hk & Hsplit).
  apply elem_of_all_orders in Hx as (s & Hs & Hx).
  pose proof (bw_orders _ W s x Hs Hx) as Hwf. pose proof (order_wf_public _ _ _ W Hwf Hs) as Hpub.
  pose proof (ow_side _ _ _ Hwf) as Es. rewrite Es in W' |- *.
  assert (Hids : NoDup (ids (side_of s a ++ side_of (opposite s) a)))
    by (unfold ids; rewrite <- (all_orders_split s a Hs); apply W).
  assert (Hp : side_of s a ++ side_of (opposite s) a
      ≡ₚ x :: drop_order (c, o) (side_of s a) ++ side_of (opposite s) a).
  { rewrite app_comm_cons. apply Permutation_app_tail, Hsplit; [|..|done].
    - intros y Hy. apply elem_of_all_orders. eauto.
    - apply (NoDup_fmap_1 o_market_order_id). unfold ids in Hids. rewrite fmap_app in Hids.
      by apply NoDup_app in Hids as [? _]. }
  assert (Hp1 : all_orders a ≡ₚ x :: drop_order (c, o) (side_of s a) ++ side_of (opposite s) a)
    by (rewrite (all_orders_split s a Hs); exact Hp).
  unfold view at 1. rewrite (view_of_perm _ _ (bw_ids _ W) Hp1).
  pose proof (bw_ids _ W) as Hnd. rewrite Hp1 in Hnd. cbn [fmap list_fmap] in Hnd.
  apply NoDup_cons in Hnd as [Hn Hnd].
  pose proof (apply_cancel x _ 0 (o_priority x) t Hpub Hn) as Hap. rewrite Es in Hap.
  rewrite Hap. cbn [mbind option_bind]. f_equal.
  symmetry. change (view (publish ?e ?b)) with (view_of (all_orders b)).
  apply view_of_perm; [apply W'|]. by rewrite all_orders_set_side.
Qed.

(** Every published update applies, and together they take the public book
    from the live orders before the request to those after it. *)
Lemma step_replay op a :
  book_wf a -> op_wf op ->
  apply_all (updates_of (snd (spec_step op a))) (view a) = Some (view (fst (spec_step op a))).
Proof.
  intros W Hop. destruct op as [c o t s p q|c o t|c o]; cbn [spec_step].
  - unfold spec_add. cbv zeta. case_bool_decide; [by apply trade_replay|done].
  - by apply cancel_replay.
  - unfold spec_query. repeat case_match; done.
Qed.

Lemma run_replay ops a :
  book_wf a -> Forall op_wf ops ->
  apply_all (updates_of (snd (spec_run ops a))) (view a) = Some (view (fst (spec_run ops a))).
Proof.
  intros W Hops. revert a W. induction Hops as [|op ops Hop Hops IH]; intros a W; [done|].
  cbn [spec_run]. pose proof (step_replay op a W Hop) as H. pose proof (spec_step_wf op a W Hop) as W1.
  destruct (spec_step op a) as [a1 e1]. cbn [fst snd] in *.
  specialize (IH a1 W1). destruct (spec_run ops a1) as [a2 e2]. cbn [fst snd] in *.
  rewrite updates_of_app, apply_all_app, H. exact IH.
Qed.

(** The view that a list of live orders stands for. *)
Definition view_of_live (us : list MEMarketUpdate) : View :=
  list_to_map ((λ u, (mu_order_id u, u)) <$> us).

Lemma view_live b a G :
  refines b a G -> book_wf a ->
  exists us, MEOrderBook.liveOrders b = Ok us /\ view a = view_of_live us /\
    StronglySorted (λ u v, mu_order_id u < mu_order_id v) us.
Proof.
  intros R W. destruct (liveOrders_collect b a G R W) as (us & Hus & Hmem & Hnd).
  exists (merge_sort MEOrderBook.by_order_id us). unfold MEOrderBook.liveOrders. rewrite Hus.
  split; [done|]. split.
  2:{ apply sorted_by_id_strict; [apply (StronglySorted_merge_sort _)|].
      by rewrite merge_sort_Permutation. }
  apply map_eq. intros i. apply option_eq. intros u.
  rewrite (view_of_lookup _ _ _ (bw_ids _ W)).
  assert (Hl : view_of_live (merge_sort MEOrderBook.by_order_id us) !! i = Some u
      <-> u ∈ us /\ mu_order_id u = i).
  { unfold view_of_live. rewrite <- elem_of_list_to_map.
    - rewrite merge_sort_Permutation, list_elem_of_fmap. naive_solver.
    - by rewrite <- list_fmap_compose, merge_sort_Permutation. }
  rewrite Hl, Hmem. split.
  - intros (x & (s & Hs & Hx)%elem_of_all_orders & <- & ->).
    pose proof (bw_orders _ W s x Hs Hx) as Hwf.
    apply (refines_live _ _ _ _ _ R Hs) in Hx as (p & y & Hy & _ & <-).
    split; [|done]. exists p, y. split; [done|]. unfold order_update, live_update.
    rewrite (ow_ticker _ _ _ Hwf), <- (rf_ticker _ _ _ R). done.
  - intros [(p & x & Hx & ->) <-]. pose proof (refines_order _ _ _ _ _ R Hx) as Hin.
    exists (strip x). split; [done|]. split; [done|].
    apply elem_of_all_orders in Hin as (s & Hs & Hin).
    pose proof (ow_ticker _ _ _ (bw_orders _ W s _ Hs Hin)) as Ht.
    unfold order_update, live_update. rewrite Ht, <- (rf_ticker _ _ _ R). done.
Qed.

(** following the published updates from the empty view never fails, and
    gives exactly the live orders of the book. *)
Theorem updates_reconstruct_book t orders levels ops b0 b :
  MEOrderBook.make_sized t orders levels = Some b0 -> 0 <= orders -> 0 <= levels ->
  Forall op_wf ops -> book_run ops b0 = Ok b ->
  exists us, MEOrderBook.liveOrders b = Ok us /\
    apply_all (updates_of (bk_events b)) ∅ = Some (view_of_live us).
Proof.
  intros Hm Ho Hl Hops Hr. destruct (make_refines _ _ _ _ Ho Hl Hm) as [R E].
  pose proof (empty_book_wf t orders levels Ho Hl) as W.
  pose proof (run_refines ops b0 _ _ R W Hops) as H.
  pose proof (spec_run_wf ops _ W Hops) as W'. pose proof (run_replay ops _ W Hops) as Hrep.
  destruct (spec_run ops _) as [a evs]. destruct H as (b' & G' & Hb' & R' & Ev).
  rewrite Hr in Hb'. injection Hb' as <-. cbn [fst snd] in *. rewrite E in Ev. cbn in Ev.
  destruct (view_live b a G' R' W') as (us & Hus & Hv & _). exists us. split; [done|].
  rewrite Ev, <- Hv. exact Hrep.
Qed.

Lemma updates_reconstruct_book_witness :
  exists b us, demo_book = Some b /\ MEOrderBook.liveOrders b = Ok us /\
    apply_all (updates_of (bk_events b)) ∅ = Some (view_of_live us).
Proof.
  assert (H : exists b0 b, MEOrderBook.make_sized 0 4 2 = Some b0 /\ book_run demo_ops b0 = Ok b /\
    demo_book = Some b).
  { eexists _, _. split; [vm_compute; reflexivity|]. split; vm_compute; reflexivity. }
  destruct H as (b0 & b & Hm & Hr & Hd).
  destruct (updates_reconstruct_book 0 4 2 demo_ops b0 b Hm ltac:(lia) ltac:(lia) demo_ops_wf Hr)
    as (us & H & Hs).
  exists b, us. split; [exact Hd|]. split; [exact H|exact Hs].
Defined.
