(* ===== verification/BookHash.v ===== *)
(** Checksum of a book: common/book_hash.h.

    FNV-1a over the fields that identify a resting order, the orders sorted
    by ticker and order id.  The event type is not hashed. *)
From S2P Require Import Prelude.
From S2P Require Import Types.
From stdpp Require Import base list sorting.
From Stdlib Require Import ZArith Lia.

Local Open Scope Z_scope.

(** The order of [std::tie(ticker_id_, order_id_)]. *)
Definition tie (u : MEMarketUpdate) : Z * Z := (mu_ticker_id u, mu_order_id u).

Definition tie_le (a b : MEMarketUpdate) : Prop :=
  mu_ticker_id a < mu_ticker_id b \/
  (mu_ticker_id a = mu_ticker_id b /\ mu_order_id a <= mu_order_id b).

#[export] Instance tie_le_dec a b : Decision (tie_le a b).
Proof. unfold tie_le. apply _. Defined.

Definition FNV_OFFSET : Z := 14695981039346656037.
Definition FNV_PRIME : Z := 1099511628211.

Definition mix_byte (hash byte : Z) : Z := u64 (Z.lxor hash byte * FNV_PRIME).

(** Shifts 56, 48, ..., 0. *)
Definition mix (value hash : Z) : Z :=
  foldl (λ h shift, mix_byte h (Z.land (Z.shiftr value shift) 255)) hash
    [56; 48; 40; 32; 24; 16; 8; 0].

Definition mix_order (hash : Z) (o : MEMarketUpdate) : Z :=
  mix (mu_priority o) (mix (mu_qty o) (mix (u64 (mu_price o)) (mix (u64 (Side_to_Z (mu_side o)))
    (mix (mu_order_id o) (mix (mu_ticker_id o) hash))))).

Definition bookHash (orders : list MEMarketUpdate) : Z :=
  foldl mix_order FNV_OFFSET (merge_sort tie_le orders).

(** ** The checksum depends on the set of orders only *)
Lemma tie_le_total a b : tie_le a b \/ tie_le b a.
Proof. unfold tie_le. lia. Qed.

#[export] Instance tie_le_Total : Total tie_le.
Proof. intros a b. apply tie_le_total. Qed.

#[export] Instance tie_le_trans : Transitive tie_le.
Proof. intros a b c. unfold tie_le. lia. Qed.

Lemma tie_le_antisym a b : tie_le a b -> tie_le b a -> tie a = tie b.
Proof. unfold tie_le, tie. intros H1 H2. f_equal; lia. Qed.

(** Sorted lists with the same elements are equal when no two elements have
    the same key. *)
Lemma sorted_unique_keys (l1 l2 : list MEMarketUpdate) :
  StronglySorted tie_le l1 -> StronglySorted tie_le l2 -> NoDup (tie <$> l1) -> l1 ≡ₚ l2 ->
  l1 = l2.
Proof.
  intros H1. revert l2. induction H1 as [|x l1 H1 IH Hx]; intros l2 H2 Hnd Hp.
  { by apply Permutation_nil in Hp. }
  cbn in Hnd. apply NoDup_cons in Hnd as [Hn Hnd].
  destruct H2 as [|y l2 H2 Hy]; [by apply Permutation_nil_r in Hp|].
  rewrite Forall_forall in Hx, Hy.
  assert (x = y) as ->.
  { assert (Hxin : x ∈ y :: l2) by (rewrite <- Hp; by left).
    assert (Hyin : y ∈ x :: l1) by (rewrite Hp; by left).
    apply elem_of_cons in Hxin as [->|Hxin]; [done|].
    apply elem_of_cons in Hyin as [->|Hyin]; [done|].
    exfalso. apply Hn. rewrite (tie_le_antisym x y (Hx y Hyin) (Hy x Hxin)).
    by apply list_elem_of_fmap_2. }
  f_equal. apply IH; [done|done|]. by apply Permutation_cons_inv in Hp.
Qed.

Lemma bookHash_perm l1 l2 : NoDup (tie <$> l1) -> l1 ≡ₚ l2 -> bookHash l1 = bookHash l2.
Proof.
  intros Hnd Hp. unfold bookHash. f_equal. apply sorted_unique_keys.
  - apply (StronglySorted_merge_sort _).
  - apply (StronglySorted_merge_sort _).
  - by rewrite merge_sort_Permutation.
  - by rewrite !merge_sort_Permutation.
Qed.

Lemma mix_byte_range h b : is_u64 (mix_byte h b).
Proof. unfold mix_byte, u64, is_u64. apply Z.mod_pos_bound. lia. Qed.

Lemma mix_range v h : is_u64 (mix v h).
Proof. apply mix_byte_range. Qed.

Lemma bookHash_range l : is_u64 (bookHash l).
Proof.
  unfold bookHash. generalize (merge_sort tie_le l). clear l. intros l.
  assert (H : is_u64 FNV_OFFSET) by (unfold is_u64, FNV_OFFSET; lia). revert H.
  generalize FNV_OFFSET. induction l as [|x l IH]; intros h H; [done|]. apply IH, mix_range.
Qed.

(** the checksum is a 64-bit value that two books share whenever they
    hold the same orders, in whatever order and under whatever event types
    they are listed. *)
Theorem book_hash_of_set (l1 l2 : list MEMarketUpdate) (f : MEMarketUpdate -> MarketUpdateType) :
  NoDup (tie <$> l1) ->
  l2 ≡ₚ ((λ u, mkUpdate (f u) (mu_order_id u) (mu_ticker_id u) (mu_side u) (mu_price u) (mu_qty u)
                 (mu_priority u)) <$> l1) ->
  bookHash l1 = bookHash l2 /\ is_u64 (bookHash l1).
Proof.
  intros Hnd Hp. split; [|apply bookHash_range]. set (g := λ u, mkUpdate _ _ _ _ _ _ _) in Hp.
  assert (Hnd' : NoDup (tie <$> (g <$> l1))) by (by rewrite <- list_fmap_compose).
  rewrite <- (bookHash_perm _ _ Hnd' (Permutation_sym Hp)). unfold bookHash.
  assert (E : merge_sort tie_le (g <$> l1) = g <$> merge_sort tie_le l1).
  { apply sorted_unique_keys.
    - apply (StronglySorted_merge_sort _).
    - pose proof (StronglySorted_merge_sort tie_le l1) as Hs.
      induction Hs as [|x l Hs IH Hx]; [constructor|]. cbn. constructor; [done|].
      apply Forall_fmap. eapply Forall_impl; [exact Hx|done].
    - by rewrite merge_sort_Permutation.
    - by rewrite !merge_sort_Permutation. }
  rewrite E. generalize (merge_sort tie_le l1) FNV_OFFSET. clear.
  intros l. induction l as [|x l IH]; intros h; [done|]. cbn. by rewrite <- IH.
Qed.

Lemma book_hash_of_set_witness :
  bookHash [mkUpdate MD_ADD 1 0 BUY 100 5 1; mkUpdate MD_ADD 2 0 SELL 101 6 1]
  = bookHash [mkUpdate MD_MODIFY 2 0 SELL 101 6 1; mkUpdate MD_MODIFY 1 0 BUY 100 5 1].
Proof.
  apply (book_hash_of_set _ _ (λ _, MD_MODIFY)).
  - apply NoDup_cons; split; [set_solver|]. apply NoDup_singleton.
  - apply perm_swap.
Defined.
