(* ===== verification/McastSocket.v ===== *)
(** Multicast socket: common/mcast_socket.{h,cpp}.

    The kernel is a parameter: its answer to the k-th pair of system calls.
    [mc_wire] records the datagrams that it accepted.  A partial or failed
    send ends the process.  The receive callback runs when [sendAndRecv]
    returns true; the caller's model applies it there. *)
From S2P Require Import Prelude.
From stdpp Require Import base list.
From Stdlib Require Import ZArith Lia.

Local Open Scope Z_scope.

Definition McastBufferSize : nat := Z.to_nat 65536.
Definition MaxMcastDatagram : nat := Z.to_nat 1400.

(** Result of [::send]: the number of bytes taken, a retryable or another
    error. *)
Inductive SendOutcome : Type :=
  | SentBytes (n : nat)
  | SendAgain
  | SendFailed.

(** Result of [recvmsg]: the datagram waiting, and whether the kernel marked
    it as truncated. *)
Inductive RecvOutcome : Type :=
  | NoDatagram
  | Datagram (bytes : list Z) (trunc : bool).

(** The bytes of consecutive frames. *)
Notation bytes_of := (@List.concat Z).
Notation frames_of := (@List.concat (list Z)).

Definition Kernel : Type := nat -> SendOutcome * RecvOutcome.

Record McastSocket : Type := mkMcast {
  mc_open : bool;                (* socket_fd_ >= 0 *)
  mc_outbound : list Z;          (* the first next_send_valid_index_ bytes *)
  mc_inbound : list Z;           (* the first next_rcv_valid_index_ bytes *)
  mc_receive_fault : bool;
  mc_truncated : Z;
  mc_retries : Z;
  mc_sent_bytes : Z;
  mc_received_bytes : Z;
  mc_calls : nat;                (* calls of the kernel so far *)
  mc_wire : list (list Z)        (* datagrams accepted by the kernel *)
}.

Module McastSocket.

(** After a successful [init]. *)
Definition opened : McastSocket := mkMcast true [] [] false 0 0 0 0 0 [].

Definition leave (s : McastSocket) : McastSocket :=
  mkMcast false (mc_outbound s) (mc_inbound s) (mc_receive_fault s) (mc_truncated s) (mc_retries s)
    (mc_sent_bytes s) (mc_received_bytes s) (mc_calls s) (mc_wire s).

Section Socket.
Context (kernel : Kernel).

Definition flush (s : McastSocket) : res McastSocket :=
  match mc_outbound s with
  | [] => Ok s
  | out =>
      match fst (kernel (mc_calls s)) with
      | SentBytes n =>
          if bool_decide (n = length out)
          then Ok (mkMcast (mc_open s) [] (mc_inbound s) (mc_receive_fault s) (mc_truncated s)
                     (mc_retries s) (u64 (mc_sent_bytes s + Z.of_nat n)) (mc_received_bytes s)
                     (mc_calls s) (mc_wire s ++ [out]))
          else Err AssertFailed
      | SendAgain =>
          Ok (mkMcast (mc_open s) (mc_outbound s) (mc_inbound s) (mc_receive_fault s)
                (mc_truncated s) (u64 (mc_retries s + 1)) (mc_sent_bytes s) (mc_received_bytes s)
                (mc_calls s) (mc_wire s))
      | SendFailed => Err AssertFailed
      end
  end.

Definition receive (s : McastSocket) : bool * McastSocket :=
  let calls := S (mc_calls s) in
  match snd (kernel (mc_calls s)) with
  | NoDatagram | Datagram [] _ =>
      (false, mkMcast (mc_open s) (mc_outbound s) (mc_inbound s) (mc_receive_fault s)
                (mc_truncated s) (mc_retries s) (mc_sent_bytes s) (mc_received_bytes s) calls
                (mc_wire s))
  | Datagram bytes trunc =>
      let fault := trunc || bool_decide (McastBufferSize < length bytes)%nat in
      (true, mkMcast (mc_open s) (mc_outbound s) (if fault then [] else bytes) fault
               (if fault then u64 (mc_truncated s + 1) else mc_truncated s) (mc_retries s)
               (mc_sent_bytes s)
               (if fault then mc_received_bytes s
                else u64 (mc_received_bytes s + Z.of_nat (length bytes)))
               calls (mc_wire s))
  end.

Definition sendAndRecv (s : McastSocket) : res (bool * McastSocket) :=
  if negb (mc_open s) then Ok (false, s) else
  s ← flush s;
  Ok (receive s).

Definition send (data : list Z) (s : McastSocket) : res (bool * McastSocket) :=
  if bool_decide (length data = 0)%nat || bool_decide (MaxMcastDatagram < length data)%nat
  then Ok (false, s) else
  s ← (if bool_decide (MaxMcastDatagram < length (mc_outbound s) + length data)%nat
       then '(_, s) ← sendAndRecv s; Ok s else Ok s);
  if bool_decide (MaxMcastDatagram < length (mc_outbound s) + length data)%nat
  then Ok (false, s) else
  Ok (true, mkMcast (mc_open s) (mc_outbound s ++ data) (mc_inbound s) (mc_receive_fault s)
              (mc_truncated s) (mc_retries s) (mc_sent_bytes s) (mc_received_bytes s) (mc_calls s)
              (mc_wire s)).

(** Uses of the socket, with the frames whose [send] returned true. *)
Inductive McOp : Type :=
  | SendFrame (data : list Z)
  | Poll.

Definition mc_step (st : McastSocket * list (list Z)) (op : McOp) :
    res (McastSocket * list (list Z)) :=
  let '(s, accepted) := st in
  match op with
  | SendFrame data =>
      '(ok, s) ← send data s;
      Ok (s, if ok : bool then accepted ++ [data] else accepted)
  | Poll => '(_, s) ← sendAndRecv s; Ok (s, accepted)
  end.

Definition mc_run (ops : list McOp) (st : McastSocket * list (list Z)) :
    res (McastSocket * list (list Z)) := res_fold mc_step ops st.

(** The accepted frames, grouped in datagrams: those on the wire and the one
    being filled. *)
Record mc_ok (s : McastSocket) (accepted : list (list Z)) : Prop := {
  mok_frames : exists groups last,
    mc_wire s = bytes_of <$> groups /\ mc_outbound s = bytes_of last /\
    accepted = frames_of groups ++ last;
  mok_small : (length (mc_outbound s) <= MaxMcastDatagram)%nat;
  mok_wire : Forall (λ d, 0 < length d <= MaxMcastDatagram)%nat (mc_wire s)
}.

(** ** Lemmas *)
Lemma flush_ok s acc s' :
  mc_ok s acc -> flush s = Ok s' ->
  mc_ok s' acc /\ (mc_outbound s' = [] \/ mc_outbound s' = mc_outbound s).
Proof.
  intros Hok Hf. unfold flush in Hf. destruct Hok as [(gs & last & Hw & Ho & Ha) Hsm Hwire].
  destruct (mc_outbound s) as [|b out] eqn:Eo.
  { injection Hf as <-. split; [|by left].
    split; rewrite ?Eo; [exists gs, last; auto|cbn; lia|done]. }
  destruct (fst (kernel (mc_calls s))) as [n| |]; [|injection Hf as <-|done].
  - case_bool_decide as En; [|done]. injection Hf as <-. split; [|by left]. split; cbn [mc_wire mc_outbound].
    + exists (gs ++ [last]), []. rewrite fmap_app, Hw. cbn. rewrite Ho. split; [done|].
      split; [done|]. rewrite concat_app, Ha. cbn. by rewrite !app_nil_r.
    + cbn. lia.
    + apply Forall_app. split; [done|]. constructor; [|constructor]. cbn in Hsm |- *. lia.
  - split; [|by right; rewrite <- Eo]. split; cbn [mc_wire mc_outbound]; rewrite ?Eo; [|done..].
    by exists gs, last.
Qed.

Lemma receive_ok s acc : mc_ok s acc -> mc_ok (snd (receive s)) acc.
Proof.
  intros [H1 H2 H3]. unfold receive. destruct (snd (kernel (mc_calls s))) as [|[|b bs] tr]; by split.
Qed.

Lemma receive_outbound s :
  mc_outbound (snd (receive s)) = mc_outbound s /\ mc_open (snd (receive s)) = mc_open s /\
  mc_wire (snd (receive s)) = mc_wire s.
Proof. unfold receive. by destruct (snd (kernel (mc_calls s))) as [|[|b bs] tr]. Qed.

Lemma sendAndRecv_ok s acc r s' :
  mc_ok s acc -> sendAndRecv s = Ok (r, s') -> mc_ok s' acc.
Proof.
  intros Hok H. unfold sendAndRecv in H. destruct (mc_open s); cbn in H; [|by injection H as <- <-].
  res_inv. destruct (flush_ok _ _ _ Hok H0) as [Hok' _].
  pose proof (receive_ok _ _ Hok') as Hr. by rewrite H in Hr.
Qed.

Lemma mcast_send_ok data s acc r s' :
  mc_ok s acc -> send data s = Ok (r, s') ->
  mc_ok s' (if r then acc ++ [data] else acc).
Proof.
  intros Hok H. unfold send in H.
  destruct (bool_decide _ || bool_decide _) eqn:E; [by injection H as <- <-|].
  res_inv. assert (Hx : mc_ok x acc).
  { destruct (bool_decide (MaxMcastDatagram < length (mc_outbound s) + _)%nat) in H0; res_inv; [|done].
    destruct x0 as [r0 s0]. res_inv.
    by eapply sendAndRecv_ok. }
  case_bool_decide as E2; [by injection H as <- <-|]. injection H as <- <-.
  destruct Hx as [(gs & last & Hw & Ho & Ha) Hsm Hwire]. split; cbn [mc_wire mc_outbound]; [|..|done].
  - exists gs, (last ++ [data]). rewrite concat_app, Ho, Ha. cbn. by rewrite app_nil_r, app_assoc.
  - rewrite length_app. lia.
Qed.

Lemma mc_run_ok ops s acc s' acc' :
  mc_ok s acc -> mc_run ops (s, acc) = Ok (s', acc') -> mc_ok s' acc'.
Proof.
  unfold mc_run. revert s acc. induction ops as [|op ops IH]; intros s acc Hok H.
  { by injection H as <- <-. }
  cbn [res_fold] in H. res_inv. destruct x as [s1 acc1]. apply (IH s1 acc1); [|done].
  destruct op as [data|]; cbn [mc_step] in H0; res_inv; destruct x as [r s2]; simplify_eq.
  - by eapply mcast_send_ok.
  - by eapply sendAndRecv_ok.
Qed.
(** The only failures are those of the process's own checks. *)
Lemma sendAndRecv_err s f : sendAndRecv s = Err f -> f = AssertFailed.
Proof.
  unfold sendAndRecv, flush. destruct (negb (mc_open s)); [done|].
  destruct (mc_outbound s); [done|]. destruct (fst (kernel (mc_calls s))); cbn; [|done|congruence].
  case_bool_decide; cbn; congruence.
Qed.

Lemma send_err data s f : send data s = Err f -> f = AssertFailed.
Proof.
  unfold send. destruct (bool_decide _ || bool_decide _); [done|].
  destruct (bool_decide (MaxMcastDatagram < length (mc_outbound s) + _)%nat).
  - destruct (sendAndRecv s) as [[r s']|e] eqn:E; cbn; [by case_bool_decide|].
    intros [= <-]. by eapply sendAndRecv_err.
  - cbn. by case_bool_decide.
Qed.

(** A frame alone in the buffer that the kernel takes at once. *)
Lemma send_and_flush data s :
  mc_open s = true -> mc_outbound s = [] -> (0 < length data <= MaxMcastDatagram)%nat ->
  fst (kernel (mc_calls s)) = SentBytes (length data) ->
  exists s1 r s2, send data s = Ok (true, s1) /\ sendAndRecv s1 = Ok (r, s2) /\
    mc_open s2 = true /\ mc_outbound s2 = [].
Proof.
  intros Ho Hb Hl Hk. unfold send. rewrite Hb, !bool_decide_false by lia. cbn [orb length app].
  rewrite bool_decide_false by lia. cbn [mbind res_bind]. rewrite Hb, bool_decide_false by (cbn; lia).
  eexists _, _, _. split; [done|]. unfold sendAndRecv, flush. cbn [mc_open mc_outbound mc_calls].
  rewrite Ho. cbn [negb]. destruct data as [|b data]; [cbn in Hl; lia|].
  cbn [app]. rewrite Hk, bool_decide_true by done. cbn [mbind res_bind].
  split; [apply f_equal, surjective_pairing|].
  pose proof (receive_outbound) as Hr. match goal with |- context [receive ?x] => specialize (Hr x) end.
  destruct Hr as (-> & -> & _). done.
Qed.
End Socket.
End McastSocket.

(** whatever the kernel answers, the datagrams on the wire and the bytes
    still buffered are the accepted frames in order, none split between two
    datagrams, none lost, none repeated; every datagram has at most 1400
    bytes. *)
Theorem mcast_preserves_frames kernel ops s accepted :
  McastSocket.mc_run kernel ops (McastSocket.opened, []) = Ok (s, accepted) ->
  (exists groups last, mc_wire s = bytes_of <$> groups /\ mc_outbound s = bytes_of last /\
     accepted = frames_of groups ++ last) /\
  Forall (λ d, 0 < length d <= MaxMcastDatagram)%nat (mc_wire s).
Proof.
  intros H. apply McastSocket.mc_run_ok in H as [H1 H2 H3]; [done|].
  split; cbn; [by exists [], []|lia|constructor].
Qed.

(** A kernel that is busy once. *)
Definition mcast_demo_kernel : Kernel :=
  λ k, match k with 0%nat => (SendAgain, NoDatagram) | _ => (SentBytes 3, NoDatagram) end.

Definition mcast_demo_ops : list McastSocket.McOp :=
  [McastSocket.SendFrame [1; 2]; McastSocket.Poll; McastSocket.SendFrame [3]; McastSocket.Poll].

Lemma mcast_preserves_frames_witness :
  let s := mkMcast true [] [] false 0 1 3 0 2 [[1; 2; 3]] in
  McastSocket.mc_run mcast_demo_kernel mcast_demo_ops (McastSocket.opened, []) = Ok (s, [[1; 2]; [3]]) /\
  exists groups last, mc_wire s = bytes_of <$> groups /\ [[1; 2]; [3]] = frames_of groups ++ last.
Proof.
  assert (H : McastSocket.mc_run mcast_demo_kernel mcast_demo_ops (McastSocket.opened, [])
    = Ok (mkMcast true [] [] false 0 1 3 0 2 [[1; 2; 3]], [[1; 2]; [3]])) by (vm_compute; reflexivity).
  split; [exact H|]. destruct (mcast_preserves_frames _ _ _ _ H) as [(g & l & H1 & _ & H2) _].
  exists g, l. split; [exact H1|exact H2].
Defined.
