(* ===== verification/Snapshot.v ===== *)
(** Snapshot synthesis: exchange/market_data/snapshot_synthesizer.{h,cpp}.

    The array of order pointers of a ticker is a map from order ids to blocks
    of the pool; it is scanned by increasing id.  The constructor takes the
    capacity of the pool; the code uses [ME_MAX_ORDER_IDS].  The clock is an
    argument of [run_iteration]. *)
From S2P Require Import Prelude.
From S2P Require Import Types.
From S2P Require Import Wire.
From S2P Require Import MemPool.
From S2P Require Import MatchBook.
From S2P Require Import BookSpec.
From S2P Require Import BookRefinement.
From S2P Require Import BookInvariant.
From S2P Require Import BookTheorems.
From S2P Require Import LFQueue.
From S2P Require Import MarketView.
From S2P Require Import BookHash.
From S2P Require Import McastSocket.
From stdpp Require Import functions base gmap list sorting.
From Stdlib Require Import ZArith Lia.

Local Open Scope Z_scope.

Record SnapshotSynthesizer : Type := mkSynth {
  sn_updates : LFQueue MDPMarketUpdate;      (* snapshot_md_updates_ *)
  sn_socket : McastSocket;
  sn_orders : list (gmap Z Z);               (* ticker_orders_, non-null entries *)
  sn_last_inc_seq_num : Z;
  sn_snapshot_cycle : Z;
  sn_last_snapshot_time : Z;
  sn_pool : MemPool MEMarketUpdate
}.

Definition id_le (a b : Z * Z) : Prop := a.1 <= b.1.
#[export] Instance id_le_dec a b : Decision (id_le a b).
Proof. unfold id_le. apply _. Defined.

Module SnapshotSynthesizer.

(** The constructor; [cycle]: the time of construction. *)
Definition make_sized (cap : Z) (q : LFQueue MDPMarketUpdate) (cycle : Z) :
    option SnapshotSynthesizer :=
  p ← pool_new cap;
  Some (mkSynth q McastSocket.opened (replicate (Z.to_nat ME_MAX_TICKERS) ∅) 0 cycle 0 p).
Definition make := make_sized ME_MAX_ORDER_IDS.

Definition with_state (orders : list (gmap Z Z)) (pool : MemPool MEMarketUpdate)
    (s : SnapshotSynthesizer) : SnapshotSynthesizer :=
  mkSynth (sn_updates s) (sn_socket s) orders (sn_last_inc_seq_num s) (sn_snapshot_cycle s)
    (sn_last_snapshot_time s) pool.

Definition names_order (t : MarketUpdateType) : bool :=
  match t with
  | MD_ADD | MD_MODIFY | MD_CANCEL => true
  | _ => false
  end.

(** The order that MODIFY and CANCEL refer to. *)
Definition existing_order (u : MEMarketUpdate) (orders : gmap Z Z) (pool : MemPool MEMarketUpdate) :
    res Z :=
  match orders !! mu_order_id u with
  | None => Err AssertFailed
  | Some order =>
      x ← load pool order;
      _ ← ASSERT (mu_order_id x =? mu_order_id u);
      _ ← ASSERT (bool_decide (mu_side x = mu_side u));
      Ok order
  end.

Definition apply_to_orders (u : MEMarketUpdate) (orders : gmap Z Z) (pool : MemPool MEMarketUpdate) :
    res (gmap Z Z * MemPool MEMarketUpdate) :=
  match mu_type u with
  | MD_ADD =>
      _ ← ASSERT (bool_decide (orders !! mu_order_id u = None));
      match allocate u pool with
      | (None, _) => Err AssertFailed
      | (Some order, pool) => Ok (<[mu_order_id u := order]> orders, pool)
      end
  | MD_MODIFY =>
      order ← existing_order u orders pool;
      pool ← store order (λ x, set_mu_price (mu_price u) (set_mu_qty (mu_qty u) x)) pool;
      Ok (orders, pool)
  | MD_CANCEL =>
      order ← existing_order u orders pool;
      pool ← deallocate order pool;
      Ok (delete (mu_order_id u) orders, pool)
  | _ => Ok (orders, pool)
  end.

Definition addToSnapshot (market_update : MDPMarketUpdate) (s : SnapshotSynthesizer) :
    res SnapshotSynthesizer :=
  let u := mdp_update market_update in
  _ ← ASSERT (mu_ticker_id u <? ME_MAX_TICKERS);
  _ ← (if names_order (mu_type u)
       then ASSERT ((0 <? mu_order_id u) && (mu_order_id u <? ME_MAX_ORDER_IDS)) else Ok ());
  orders ← deref (sn_orders s !! Z.to_nat (mu_ticker_id u));
  '(orders, pool) ← apply_to_orders u orders (sn_pool s);
  _ ← ASSERT (mdp_seq_num market_update =? u64 (sn_last_inc_seq_num s + 1));
  Ok (mkSynth (sn_updates s) (sn_socket s) (<[Z.to_nat (mu_ticker_id u) := orders]> (sn_orders s))
        (mdp_seq_num market_update) (sn_snapshot_cycle s) (sn_last_snapshot_time s) pool).

(** The live orders of a ticker, by increasing id. *)
Definition scan (orders : gmap Z Z) : list Z := (merge_sort id_le (map_to_list orders)).*2.

Definition live_of (orders : gmap Z Z) (s : SnapshotSynthesizer) : res (list MEMarketUpdate) :=
  res_fold (λ live order, x ← load (sn_pool s) order; Ok (live ++ [x])) (scan orders) [].

Definition live (s : SnapshotSynthesizer) : res (list MEMarketUpdate) :=
  res_fold (λ live orders, l ← live_of orders s; Ok (live ++ l)) (sn_orders s) [].

(** An event with only a type and an order id. *)
Definition marker (type : MarketUpdateType) (order_id : Z) : MEMarketUpdate :=
  mkUpdate type order_id TickerId_INVALID Side_INVALID Price_INVALID Qty_INVALID Priority_INVALID.

Definition clear (ticker : Z) : MEMarketUpdate :=
  mkUpdate MD_CLEAR OrderId_INVALID ticker Side_INVALID Price_INVALID Qty_INVALID Priority_INVALID.

Definition events_of_ticker (s : SnapshotSynthesizer) (events : list MEMarketUpdate) (ticker : Z) :
    res (list MEMarketUpdate) :=
  orders ← deref (sn_orders s !! Z.to_nat ticker);
  l ← live_of orders s;
  Ok (events ++ clear ticker :: l).

(** The events of a cycle, in the order of publication. *)
Definition snapshot_events (s : SnapshotSynthesizer) : res (list MEMarketUpdate) :=
  events ← res_fold (events_of_ticker s) (seqZ 0 ME_MAX_TICKERS)
    [marker MD_SNAPSHOT_START (sn_last_inc_seq_num s)];
  Ok (events ++ [marker MD_SNAPSHOT_END (sn_last_inc_seq_num s)]).

Section Network.
Context (kernel : Kernel).

(** [publish]: the next sequence number and the socket. *)
Definition publish_event (cycle watermark hash : Z) (st : Z * McastSocket) (event : MEMarketUpdate) :
    res (Z * McastSocket) :=
  let '(sequence, socket) := st in
  let bytes := encode_market (mkMDP sequence event cycle watermark hash) in
  '(ok, socket) ← McastSocket.send kernel bytes socket;
  _ ← ASSERT ok;
  '(_, socket) ← McastSocket.sendAndRecv kernel socket;
  Ok (u64 (sequence + 1), socket).

Definition publishSnapshot (s : SnapshotSynthesizer) : res SnapshotSynthesizer :=
  live ← live s;
  let hash := bookHash live in
  let cycle := u64 (sn_snapshot_cycle s + 1) in
  events ← snapshot_events s;
  '(_, socket) ← res_fold (publish_event cycle (sn_last_inc_seq_num s) hash) events (0, sn_socket s);
  '(_, socket) ← McastSocket.sendAndRecv kernel socket;
  Ok (mkSynth (sn_updates s) socket (sn_orders s) (sn_last_inc_seq_num s) cycle
        (sn_last_snapshot_time s) (sn_pool s)).

(** The inner loop of [run]: the updates waiting in the queue. *)
Fixpoint consume (fuel : nat) (s : SnapshotSynthesizer) : res SnapshotSynthesizer :=
  req ← peek (sn_updates s);
  match req, fuel with
  | None, _ => Ok s
  | Some _, O => Err NoFuel
  | Some u, S fuel =>
      s ← addToSnapshot u s;
      q ← pop (sn_updates s);
      consume fuel (mkSynth q (sn_socket s) (sn_orders s) (sn_last_inc_seq_num s)
        (sn_snapshot_cycle s) (sn_last_snapshot_time s) (sn_pool s))
  end.

(** One iteration of [run]; the clock is read twice. *)
Definition run_iteration (period now now' : Z) (s : SnapshotSynthesizer) : res SnapshotSynthesizer :=
  s ← consume (Z.to_nat (queue_size (sn_updates s))) s;
  if period <? i64 (now - sn_last_snapshot_time s) then
    publishSnapshot (mkSynth (sn_updates s) (sn_socket s) (sn_orders s) (sn_last_inc_seq_num s)
      (sn_snapshot_cycle s) now' (sn_pool s))
  else Ok s.

(** [run] after [stop]: the queue is drained, then a last cycle. *)
Definition run_stopped (s : SnapshotSynthesizer) : res SnapshotSynthesizer :=
  s ← consume (Z.to_nat (queue_size (sn_updates s))) s;
  publishSnapshot s.

End Network.
End SnapshotSynthesizer.

(** ** The synthesizer follows the public books *)

(** Entry [id] of table [t]. *)
Definition at2 {A} (l : list (gmap Z A)) (t : nat) (id : Z) : option A := l !! t ≫= (.!! id).

Fixpoint view_total (views : list View) : Z :=
  match views with
  | [] => 0
  | m :: views' => Z.of_nat (size m) + view_total views'
  end.

(** [views]: the public book of each ticker. *)
Record synth_ok (s : SnapshotSynthesizer) (views : list View) : Prop := {
  so_orders_length : length (sn_orders s) = Z.to_nat ME_MAX_TICKERS;
  so_views_length : length views = Z.to_nat ME_MAX_TICKERS;
  so_pool : pool_ok (sn_pool s);
  so_entry t id :
    match at2 (sn_orders s) t id with
    | None => at2 views t id = None
    | Some a => exists u, pool_blocks (sn_pool s) !! a = Some u /\ at2 views t id = Some u
    end;
  so_inj t id t' id' a : at2 (sn_orders s) t id = Some a -> at2 (sn_orders s) t' id' = Some a ->
    t = t' /\ id = id';
  so_ids t id u : at2 views t id = Some u -> mu_order_id u = id /\ 0 < id < ME_MAX_ORDER_IDS;
  so_available : pool_available (sn_pool s) + view_total views = pool_capacity (sn_pool s)
}.

(** An update for its ticker's book. *)
Definition apply_ticker (u : MEMarketUpdate) (views : list View) : option (list View) :=
  m ← views !! Z.to_nat (mu_ticker_id u);
  m' ← apply_update u m;
  Some (<[Z.to_nat (mu_ticker_id u) := m']> views).

(** ** Lemmas *)
Lemma at2_insert {A} (l : list (gmap Z A)) t o id v t' id' :
  l !! t = Some o ->
  at2 (<[t := <[id := v]> o]> l) t' id'
    = if decide (t = t' /\ id = id') then Some v else at2 l t' id'.
Proof.
  intros Hl. unfold at2. pose proof (lookup_lt_Some _ _ _ Hl) as Hlt.
  destruct (decide (t = t')) as [<-|Ht].
  - rewrite list_lookup_insert_eq by done. cbn. rewrite lookup_insert, Hl. cbn.
    destruct (decide (id = id')); case_decide; naive_solver.
  - rewrite list_lookup_insert_ne by done. rewrite decide_False by naive_solver. done.
Qed.

Lemma at2_delete {A} (l : list (gmap Z A)) t o id t' id' :
  l !! t = Some o ->
  at2 (<[t := delete id o]> l) t' id' = if decide (t = t' /\ id = id') then None else at2 l t' id'.
Proof.
  intros Hl. unfold at2. pose proof (lookup_lt_Some _ _ _ Hl) as Hlt.
  destruct (decide (t = t')) as [<-|Ht].
  - rewrite list_lookup_insert_eq by done. cbn. rewrite lookup_delete, Hl. cbn.
    destruct (decide (id = id')); case_decide; naive_solver.
  - rewrite list_lookup_insert_ne by done. rewrite decide_False by naive_solver. done.
Qed.

Lemma at2_here {A} (l : list (gmap Z A)) t o id : l !! t = Some o -> at2 l t id = o !! id.
Proof. intros H. unfold at2. by rewrite H. Qed.

Lemma view_total_insert views t m m' :
  views !! t = Some m ->
  view_total (<[t := m']> views) = view_total views - Z.of_nat (size m) + Z.of_nat (size m').
Proof.
  revert t. induction views as [|x views IH]; intros [|t] H; [done..| |]; cbn in H.
  - injection H as ->. cbn. lia.
  - specialize (IH t H). change (<[S t := m']> (x :: views)) with (x :: <[t := m']> views).
    cbn [view_total]. rewrite IH. lia.
Qed.

Lemma synth_entry_None s views t id :
  synth_ok s views -> at2 views t id = None -> at2 (sn_orders s) t id = None.
Proof.
  intros Hok H. pose proof (so_entry _ _ Hok t id) as E.
  destruct (at2 (sn_orders s) t id); [|done]. destruct E as (u & _ & E). congruence.
Qed.

Lemma synth_entry_Some s views t id u :
  synth_ok s views -> at2 views t id = Some u ->
  exists a, at2 (sn_orders s) t id = Some a /\ pool_blocks (sn_pool s) !! a = Some u.
Proof.
  intros Hok H. pose proof (so_entry _ _ Hok t id) as E.
  destruct (at2 (sn_orders s) t id) as [a|]; [|congruence]. destruct E as (u' & E1 & E2).
  exists a. split; [done|congruence].
Qed.

(** The three changes of the book of a ticker. *)
Lemma synth_add s views t o m u orders a pool' :
  synth_ok s views -> sn_orders s !! t = Some o -> views !! t = Some m ->
  m !! mu_order_id u = None -> valid_order_id (mu_order_id u) = true ->
  allocate u (sn_pool s) = (Some a, pool') -> orders = <[mu_order_id u := a]> o ->
  pool_blocks (sn_pool s) !! a = None -> pool_blocks pool' = <[a := u]> (pool_blocks (sn_pool s)) ->
  pool_ok pool' -> pool_available pool' = pool_available (sn_pool s) - 1 ->
  pool_capacity pool' = pool_capacity (sn_pool s) ->
  synth_ok (SnapshotSynthesizer.with_state (<[t := orders]> (sn_orders s)) pool' s)
    (<[t := <[mu_order_id u := u]> m]> views).
Proof.
  intros Hok Ho Hm Hn Hid _ -> Ha Hb Hpool Hav Hcap.
  apply andb_true_iff in Hid as [Hid1%Z.ltb_lt Hid2%Z.ltb_lt].
  split; cbn [SnapshotSynthesizer.with_state sn_orders sn_pool].
  - rewrite length_insert. apply Hok.
  - rewrite length_insert. apply Hok.
  - done.
  - intros t' id'. rewrite (at2_insert _ _ o), (at2_insert _ _ m) by done.
    case_decide as E; [exists u; by rewrite Hb, lookup_insert_eq|].
    pose proof (so_entry _ _ Hok t' id') as He. destruct (at2 (sn_orders s) t' id') as [a'|]; [|done].
    destruct He as (u' & Hu' & Hv). exists u'. split; [|done].
    rewrite Hb, lookup_insert_ne; [done|]. intros ->. congruence.
  - intros t1 id1 t2 id2 b. rewrite !(at2_insert _ _ o) by done.
    assert (Hfresh : forall t3 id3, at2 (sn_orders s) t3 id3 <> Some a).
    { intros t3 id3 E. pose proof (so_entry _ _ Hok t3 id3) as He. rewrite E in He.
      destruct He as (? & ? & _). congruence. }
    destruct (decide (t = t1 /\ _)) as [E1|E1]; intros H1;
      destruct (decide (t = t2 /\ _)) as [E2|E2]; intros H2.
    + destruct E1, E2. by split; subst.
    + injection H1 as ->. by apply Hfresh in H2.
    + injection H2 as ->. by apply Hfresh in H1.
    + by apply (so_inj _ _ Hok t1 id1 t2 id2 b).
  - intros t' id' u'. rewrite (at2_insert _ _ m) by done. case_decide as E; [|apply Hok].
    intros [= <-]. destruct E as [_ <-]. done.
  - rewrite (view_total_insert _ _ m) by done. rewrite map_size_insert_None by done.
    rewrite Hav, Hcap, <- (so_available _ _ Hok). lia.
Qed.

Lemma synth_modify s views t o m id a x y :
  synth_ok s views -> sn_orders s !! t = Some o -> views !! t = Some m ->
  o !! id = Some a -> m !! id = Some x -> pool_blocks (sn_pool s) !! a = Some x ->
  mu_order_id y = mu_order_id x ->
  synth_ok (SnapshotSynthesizer.with_state (sn_orders s)
      {| pool_capacity := pool_capacity (sn_pool s);
         pool_blocks := <[a := y]> (pool_blocks (sn_pool s));
         pool_free := pool_free (sn_pool s) |} s)
    (<[t := <[id := y]> m]> views).
Proof.
  intros Hok Ho Hm Hoa Hmx Hax Hy. split; cbn [SnapshotSynthesizer.with_state sn_orders sn_pool pool_blocks].
  - apply Hok.
  - rewrite length_insert. apply Hok.
  - eapply pool_ok_update; [done|apply Hok].
  - intros t' id'. rewrite (at2_insert _ _ m) by done. pose proof (so_entry _ _ Hok t' id') as He.
    case_decide as E.
    + destruct E as [<- <-]. rewrite (at2_here _ _ o), Hoa by done. exists y.
      by rewrite lookup_insert_eq.
    + destruct (at2 (sn_orders s) t' id') as [a'|] eqn:Ea; [|done].
      destruct He as (u' & Hu' & Hv). exists u'. split; [|done].
      rewrite lookup_insert_ne; [done|]. intros <-. apply E.
      apply (so_inj _ _ Hok t id t' id' a); [|done]. by rewrite (at2_here _ _ o).
  - apply Hok.
  - intros t' id' u'. rewrite (at2_insert _ _ m) by done. case_decide as E; [|apply Hok].
    intros [= <-]. destruct E as [<- <-]. rewrite Hy. apply (so_ids _ _ Hok t id).
    by rewrite (at2_here _ _ m).
  - rewrite (view_total_insert _ _ m) by done. rewrite map_size_insert_Some by eauto.
    unfold pool_available. cbn. rewrite <- (so_available _ _ Hok). unfold pool_available. lia.
Qed.

Lemma synth_cancel s views t o m id a x pool' :
  synth_ok s views -> sn_orders s !! t = Some o -> views !! t = Some m ->
  o !! id = Some a -> m !! id = Some x ->
  pool_blocks pool' = delete a (pool_blocks (sn_pool s)) ->
  pool_ok pool' -> pool_available pool' = pool_available (sn_pool s) + 1 ->
  pool_capacity pool' = pool_capacity (sn_pool s) ->
  synth_ok (SnapshotSynthesizer.with_state (<[t := delete id o]> (sn_orders s)) pool' s)
    (<[t := delete id m]> views).
Proof.
  intros Hok Ho Hm Hoa Hmx Hb Hpool Hav Hcap.
  split; cbn [SnapshotSynthesizer.with_state sn_orders sn_pool].
  - rewrite length_insert. apply Hok.
  - rewrite length_insert. apply Hok.
  - done.
  - intros t' id'. rewrite (at2_delete _ _ o), (at2_delete _ _ m) by done.
    case_decide as E; [done|]. pose proof (so_entry _ _ Hok t' id') as He.
    destruct (at2 (sn_orders s) t' id') as [a'|] eqn:Ea; [|done].
    destruct He as (u' & Hu' & Hv). exists u'. split; [|done].
    rewrite Hb, lookup_delete_ne; [done|]. intros <-. apply E.
    apply (so_inj _ _ Hok t id t' id' a); [|done]. by rewrite (at2_here _ _ o).
  - intros t1 id1 t2 id2 b. rewrite !(at2_delete _ _ o) by done.
    repeat case_decide; try done. apply (so_inj _ _ Hok).
  - intros t' id' u'. rewrite (at2_delete _ _ m) by done. case_decide; [done|apply Hok].
  - rewrite (view_total_insert _ _ m) by done. rewrite map_size_delete_Some by eauto.
    assert (size m <> 0%nat). { apply map_size_ne_0_lookup. eauto. }
    rewrite Hav, Hcap, <- (so_available _ _ Hok). lia.
Qed.

(** The state reached has the tables and the pool of [s1]. *)
Lemma synth_ok_transport s s1 views :
  synth_ok s1 views -> sn_orders s = sn_orders s1 -> sn_pool s = sn_pool s1 -> synth_ok s views.
Proof. intros [] E1 E2. split; rewrite ?E1, ?E2; try done; by setoid_rewrite E1. Qed.

Lemma existing_order_ok u o pool a x :
  o !! mu_order_id u = Some a -> pool_blocks pool !! a = Some x -> mu_order_id x = mu_order_id u ->
  mu_side x = mu_side u -> SnapshotSynthesizer.existing_order u o pool = Ok a.
Proof.
  intros Ho Hx Hid Hs. unfold SnapshotSynthesizer.existing_order. rewrite Ho, (load_Some _ _ _ Hx).
  cbn [mbind res_bind]. by rewrite Hid, Hs, Z.eqb_refl, bool_decide_true.
Qed.

Lemma about_inv u x :
  about u x = true ->
  valid_order_id (mu_order_id u) = true /\ mu_side x = mu_side u /\ mu_price x = mu_price u.
Proof.
  unfold about. rewrite !andb_true_iff, bool_decide_eq_true, Z.eqb_eq. naive_solver.
Qed.

Lemma apply_to_orders_ok s views t o m u m' :
  synth_ok s views -> sn_orders s !! t = Some o -> views !! t = Some m ->
  apply_update u m = Some m' ->
  (mu_type u = MD_ADD -> view_total views < pool_capacity (sn_pool s)) ->
  exists o' pool', SnapshotSynthesizer.apply_to_orders u o (sn_pool s) = Ok (o', pool') /\
    synth_ok (SnapshotSynthesizer.with_state (<[t := o']> (sn_orders s)) pool' s)
      (<[t := m']> views) /\ pool_capacity pool' = pool_capacity (sn_pool s) /\
    (SnapshotSynthesizer.names_order (mu_type u) = true -> valid_order_id (mu_order_id u) = true).
Proof.
  intros Hok Ho Hm Hap Hroom. unfold apply_update in Hap.
  unfold SnapshotSynthesizer.apply_to_orders. destruct (mu_type u) eqn:Ety; try done.
  - destruct (m !! mu_order_id u) eqn:Em; [done|].
    destruct (valid_add u) eqn:Ev; [|done]. injection Hap as <-.
    assert (Hid : valid_order_id (mu_order_id u) = true).
    { unfold valid_add in Ev. by rewrite !andb_true_iff in Ev; destruct_and?. }
    pose proof (synth_entry_None s views t _ Hok ltac:(by rewrite (at2_here _ _ m))) as Hn.
    rewrite (at2_here _ _ o) in Hn by done. rewrite bool_decide_true by done.
    destruct (allocate_some u (sn_pool s) (so_pool _ _ Hok)) as (a & pool' & Hal & Ha & _ & Hb & Hp & Hav & Hcap).
    { pose proof (so_available _ _ Hok). specialize (Hroom eq_refl). lia. }
    cbn [ASSERT mbind res_bind]. rewrite Hal. eexists _, _. split; [done|]. split; [|by split].
    by eapply synth_add.
  - destruct (m !! mu_order_id u) as [x|] eqn:Em; [|done]. cbn [mbind option_bind] in Hap.
    destruct (about u x && _) eqn:Ev; [|done]. injection Hap as <-.
    apply andb_true_iff in Ev as [Ev _]. apply about_inv in Ev as (Hid & Hs & Hpr).
    destruct (synth_entry_Some s views t _ x Hok ltac:(by rewrite (at2_here _ _ m))) as (a & Ha & Hx).
    rewrite (at2_here _ _ o) in Ha by done.
    destruct (so_ids _ _ Hok t (mu_order_id u) x ltac:(by rewrite (at2_here _ _ m))) as [Hxid _].
    rewrite (existing_order_ok _ _ _ _ _ Ha Hx Hxid Hs). cbn [mbind res_bind].
    rewrite (store_Some _ _ _ _ Hx). eexists _, _. split; [done|]. split; [|by split].
    assert (E : set_mu_price (mu_price u) (set_mu_qty (mu_qty u) x) = set_mu_qty (mu_qty u) x).
    { destruct x. cbn in Hpr |- *. by rewrite <- Hpr. }
    rewrite E, list_insert_id by done.
    eapply (synth_modify s views t o m _ a x _ Hok Ho Hm Ha Em Hx). done.
  - destruct (m !! mu_order_id u) as [x|] eqn:Em; [|done]. cbn [mbind option_bind] in Hap.
    destruct (about u x) eqn:Ev; [|done]. injection Hap as <-.
    apply about_inv in Ev as (Hid & Hs & _).
    destruct (synth_entry_Some s views t _ x Hok ltac:(by rewrite (at2_here _ _ m))) as (a & Ha & Hx).
    rewrite (at2_here _ _ o) in Ha by done.
    destruct (so_ids _ _ Hok t (mu_order_id u) x ltac:(by rewrite (at2_here _ _ m))) as [Hxid _].
    rewrite (existing_order_ok _ _ _ _ _ Ha Hx Hxid Hs). cbn [mbind res_bind].
    destruct (deallocate_live a x (sn_pool s) (so_pool _ _ Hok) Hx) as (pool' & -> & Hb & Hp & Hav & Hcap).
    eexists _, _. split; [done|]. split; [|by split]. by eapply synth_cancel.
  - injection Hap as <-. eexists _, _. split; [done|]. split; [|by split].
    rewrite !list_insert_id by done. by eapply synth_ok_transport.
Qed.

Lemma addToSnapshot_ok s views u seq cycle watermark hash views' :
  synth_ok s views -> apply_ticker u views = Some views' ->
  (mu_type u = MD_ADD -> view_total views < pool_capacity (sn_pool s)) ->
  seq = u64 (sn_last_inc_seq_num s + 1) ->
  exists s', SnapshotSynthesizer.addToSnapshot (mkMDP seq u cycle watermark hash) s = Ok s' /\
    synth_ok s' views' /\ sn_last_inc_seq_num s' = seq /\ sn_updates s' = sn_updates s /\
    sn_socket s' = sn_socket s /\ sn_snapshot_cycle s' = sn_snapshot_cycle s /\
    pool_capacity (sn_pool s') = pool_capacity (sn_pool s).
Proof.
  intros Hok Hap Hroom ->. unfold apply_ticker in Hap.
  destruct (views !! Z.to_nat (mu_ticker_id u)) as [m|] eqn:Em; [|done]. cbn in Hap.
  destruct (apply_update u m) as [m'|] eqn:Ea; [|done]. injection Hap as <-.
  pose proof (lookup_lt_Some _ _ _ Em) as Hlt. rewrite (so_views_length _ _ Hok) in Hlt.
  destruct (lookup_lt_is_Some_2 (sn_orders s) (Z.to_nat (mu_ticker_id u))) as [o Ho].
  { by rewrite (so_orders_length _ _ Hok). }
  destruct (apply_to_orders_ok _ _ _ _ _ _ _ Hok Ho Em Ea Hroom) as (o' & pool' & Hto & Hok' & Hcap & Hid).
  unfold SnapshotSynthesizer.addToSnapshot. cbn [mdp_update mdp_seq_num].
  rewrite (proj2 (Z.ltb_lt (mu_ticker_id u) _)) by lia. cbn [ASSERT mbind res_bind].
  assert (Hg : (if SnapshotSynthesizer.names_order (mu_type u)
    then ASSERT ((0 <? mu_order_id u) && (mu_order_id u <? ME_MAX_ORDER_IDS)) else Ok ()) = Ok ()).
  { destruct (SnapshotSynthesizer.names_order (mu_type u)) eqn:E; [|done]. specialize (Hid eq_refl).
    unfold valid_order_id in Hid. by rewrite Hid. }
  rewrite Hg. cbn [mbind res_bind]. rewrite Ho. cbn [deref mbind res_bind]. rewrite Hto.
  cbn [mbind res_bind]. rewrite Z.eqb_refl. cbn [ASSERT mbind res_bind].
  eexists. split; [done|]. split; [by eapply synth_ok_transport|]. by do 4 (split; [done|]).
Qed.

(** ** The list of live orders *)
Definition id_lt (u v : MEMarketUpdate) : Prop := mu_order_id u < mu_order_id v.

Lemma id_sorted_unique l1 l2 :
  StronglySorted id_lt l1 -> StronglySorted id_lt l2 -> (forall u, u ∈ l1 <-> u ∈ l2) -> l1 = l2.
Proof.
  intros H1. revert l2. induction H1 as [|x l1 H1 IH Hx]; intros l2 H2 Hin.
  { destruct l2 as [|y l2]; [done|]. by specialize (proj2 (Hin y) ltac:(by left)) as ?%not_elem_of_nil. }
  destruct H2 as [|y l2 H2 Hy].
  { by specialize (proj1 (Hin x) ltac:(by left)) as ?%not_elem_of_nil. }
  rewrite Forall_forall in Hx, Hy. unfold id_lt in Hx, Hy.
  assert (x = y) as ->.
  { pose proof (proj1 (Hin x) ltac:(by left)) as [->|Hxin]%elem_of_cons; [done|].
    pose proof (proj2 (Hin y) ltac:(by left)) as [->|Hyin]%elem_of_cons; [done|].
    specialize (Hx _ Hyin). specialize (Hy _ Hxin). lia. }
  f_equal. apply IH; [done|]. intros u. specialize (Hin u). rewrite !elem_of_cons in Hin. split.
  - intros Hu. destruct (proj1 Hin (or_intror Hu)) as [->|?]; [|done]. specialize (Hx _ Hu). lia.
  - intros Hu. destruct (proj2 Hin (or_intror Hu)) as [->|?]; [|done]. specialize (Hy _ Hu). lia.
Qed.

(** The orders of a view by increasing id. *)
Definition sorted_view (m : View) : list MEMarketUpdate :=
  merge_sort MEOrderBook.by_order_id (map_to_list m).*2.

Definition keyed (m : View) : Prop := forall id u, m !! id = Some u -> mu_order_id u = id.

Lemma sorted_view_elem m u : u ∈ sorted_view m <-> exists id, m !! id = Some u.
Proof.
  unfold sorted_view. rewrite merge_sort_Permutation, list_elem_of_fmap. split.
  - intros ([id u'] & -> & H%elem_of_map_to_list). eauto.
  - intros [id H]. exists (id, u). by rewrite elem_of_map_to_list.
Qed.

Lemma sorted_view_strict m : keyed m -> StronglySorted id_lt (sorted_view m).
Proof.
  intros Hk. apply sorted_by_id_strict; [apply (StronglySorted_merge_sort _)|].
  unfold sorted_view. rewrite merge_sort_Permutation, <- list_fmap_compose.
  replace ((mu_order_id ∘ snd) <$> map_to_list m) with (map_to_list m).*1;
    [apply NoDup_fst_map_to_list|].
  apply list_fmap_ext. intros i [id u] H%list_elem_of_lookup_2%elem_of_map_to_list. symmetry.
  exact (Hk _ _ H).
Qed.

Lemma id_le_total a b : id_le a b \/ id_le b a.
Proof. unfold id_le. lia. Qed.
#[export] Instance id_le_Total : Total id_le.
Proof. intros a b. apply id_le_total. Qed.
#[export] Instance id_le_trans : Transitive id_le.
Proof. intros a b c. unfold id_le. lia. Qed.

Lemma fmap_sorted (g : Z * Z -> MEMarketUpdate) (l : list (Z * Z)) :
  StronglySorted id_le l -> NoDup l.*1 -> (forall p, p ∈ l -> mu_order_id (g p) = p.1) ->
  StronglySorted id_lt (g <$> l).
Proof.
  induction 1 as [|p l Hs IH Hall]; intros Hnd Hg; [constructor|]. cbn in Hnd.
  apply NoDup_cons in Hnd as [Hp Hnd]. cbn. constructor; [by apply IH; [|intros; apply Hg; right]|].
  apply Forall_fmap, Forall_forall. intros q Hq. unfold id_lt. cbn.
  rewrite (Hg p) by left. rewrite (Hg q) by (by right). rewrite Forall_forall in Hall. specialize (Hall q Hq).
  unfold id_le in Hall. assert (p.1 <> q.1); [|lia]. intros E. apply Hp. rewrite E.
  by apply list_elem_of_fmap_2.
Qed.

Lemma live_of_ok s views t o m :
  synth_ok s views -> sn_orders s !! t = Some o -> views !! t = Some m ->
  SnapshotSynthesizer.live_of o s = Ok (sorted_view m).
Proof.
  intros Hok Ho Hm. unfold SnapshotSynthesizer.live_of, SnapshotSynthesizer.scan.
  set (l := merge_sort id_le (map_to_list o)).
  set (g := λ a, default default_MEMarketUpdate (pool_blocks (sn_pool s) !! a)).
  assert (Hl : forall id a, (id, a) ∈ l -> o !! id = Some a /\ m !! id = Some (g a) /\
    mu_order_id (g a) = id).
  { intros id a Hin. unfold l in Hin. rewrite merge_sort_Permutation, elem_of_map_to_list in Hin.
    pose proof (so_entry _ _ Hok t id) as He. rewrite (at2_here _ _ o), Hin in He by done.
    destruct He as (u & Hu & Hv). unfold g. rewrite Hu. cbn.
    split; [done|]. rewrite (at2_here _ _ m) in Hv by done. split; [done|].
    apply (so_ids _ _ Hok t). by rewrite (at2_here _ _ m). }
  rewrite (res_fold_collect _ g).
  2:{ intros a ([id a'] & -> & Hin)%list_elem_of_fmap. destruct (Hl _ _ Hin) as (H1 & H2 & _).
      cbn. pose proof (so_entry _ _ Hok t id) as He. rewrite (at2_here _ _ o), H1 in He by done.
      destruct He as (u & Hu & _). unfold g. by rewrite (load_Some _ _ _ Hu), Hu. }
  cbn [app]. f_equal. rewrite <- list_fmap_compose. apply id_sorted_unique.
  - apply fmap_sorted; [apply (StronglySorted_merge_sort _)| |].
    + unfold l. rewrite merge_sort_Permutation. apply NoDup_fst_map_to_list.
    + intros [id a] Hin. by apply Hl in Hin as (_ & _ & ?).
  - apply sorted_view_strict. intros id u Hu. apply (so_ids _ _ Hok t).
    by rewrite (at2_here _ _ m).
  - intros u. rewrite sorted_view_elem, list_elem_of_fmap. split.
    + intros ([id a] & -> & Hin). destruct (Hl _ _ Hin) as (_ & ? & _). eauto.
    + intros [id Hu]. pose proof (synth_entry_Some s views t id u Hok ltac:(by rewrite (at2_here _ _ m)))
        as (a & Ha & Hx). rewrite (at2_here _ _ o) in Ha by done. exists (id, a). unfold g. cbn.
      rewrite Hx. split; [done|]. unfold l. by rewrite merge_sort_Permutation, elem_of_map_to_list.
Qed.

(** ** A published cycle *)
Fixpoint numbered (sequence cycle watermark hash : Z) (events : list MEMarketUpdate) :
    list (list Z) :=
  match events with
  | [] => []
  | e :: events' => encode_market (mkMDP sequence e cycle watermark hash)
                    :: numbered (u64 (sequence + 1)) cycle watermark hash events'
  end.

Definition live_view (views : list View) : list MEMarketUpdate :=
  mjoin (sorted_view <$> views).

(** The events of one cycle for the books [views] after update [watermark]. *)
Definition cycle_events (views : list View) (watermark : Z) : list MEMarketUpdate :=
  SnapshotSynthesizer.marker MD_SNAPSHOT_START watermark ::
  mjoin ((λ t, SnapshotSynthesizer.clear t :: sorted_view (default ∅ (views !! Z.to_nat t)))
           <$> seqZ 0 ME_MAX_TICKERS)
  ++ [SnapshotSynthesizer.marker MD_SNAPSHOT_END watermark].

Lemma live_ok s views : synth_ok s views -> SnapshotSynthesizer.live s = Ok (live_view views).
Proof.
  intros Hok. unfold SnapshotSynthesizer.live, live_view.
  assert (H : Forall2 (λ o m, SnapshotSynthesizer.live_of o s = Ok (sorted_view m))
    (sn_orders s) views).
  { apply Forall2_same_length_lookup_2.
    - by rewrite (so_orders_length _ _ Hok), (so_views_length _ _ Hok).
    - intros t o m Ho Hm. by eapply live_of_ok. }
  revert H. generalize (sn_orders s). clear Hok.
  assert (Hgen : forall l acc, Forall2 (λ o m, SnapshotSynthesizer.live_of o s = Ok (sorted_view m)) l views ->
    res_fold (λ live orders, l ← SnapshotSynthesizer.live_of orders s; Ok (live ++ l)) l acc
    = Ok (acc ++ mjoin (sorted_view <$> views))).
  { intros l acc H. revert acc. induction H as [|o m l views Ho H IH]; intros acc; cbn [res_fold].
    - by rewrite app_nil_r.
    - rewrite Ho. cbn [mbind res_bind]. rewrite IH, <- app_assoc. done. }
  intros l H. by rewrite Hgen.
Qed.

Lemma events_of_ticker_ok s views t acc :
  synth_ok s views -> 0 <= t < ME_MAX_TICKERS ->
  SnapshotSynthesizer.events_of_ticker s acc t
    = Ok (acc ++ SnapshotSynthesizer.clear t :: sorted_view (default ∅ (views !! Z.to_nat t))).
Proof.
  intros Hok Ht. unfold SnapshotSynthesizer.events_of_ticker.
  destruct (lookup_lt_is_Some_2 (sn_orders s) (Z.to_nat t)) as [o Ho];
    [rewrite (so_orders_length _ _ Hok); lia|].
  destruct (lookup_lt_is_Some_2 views (Z.to_nat t)) as [m Hm];
    [rewrite (so_views_length _ _ Hok); lia|].
  rewrite Ho, Hm. cbn [deref mbind res_bind]. by rewrite (live_of_ok _ _ _ _ _ Hok Ho Hm).
Qed.

Lemma snapshot_events_ok s views :
  synth_ok s views ->
  SnapshotSynthesizer.snapshot_events s = Ok (cycle_events views (sn_last_inc_seq_num s)).
Proof.
  intros Hok. unfold SnapshotSynthesizer.snapshot_events, cycle_events.
  assert (Hgen : forall ts acc, Forall (λ t, 0 <= t < ME_MAX_TICKERS) ts ->
    res_fold (SnapshotSynthesizer.events_of_ticker s) ts acc
    = Ok (acc ++ mjoin ((λ t, SnapshotSynthesizer.clear t
        :: sorted_view (default ∅ (views !! Z.to_nat t))) <$> ts))).
  { intros ts acc H. revert acc. induction H as [|t ts Ht H IH]; intros acc; cbn [res_fold].
    - by rewrite app_nil_r.
    - rewrite (events_of_ticker_ok _ _ _ _ Hok Ht). cbn [mbind res_bind].
      rewrite IH, <- app_assoc. done. }
  rewrite Hgen; [done|]. apply Forall_forall. intros t Ht%elem_of_seqZ. lia.
Qed.

Lemma publish_events_ok kernel c w h evs sq sock acc sq' sock' :
  McastSocket.mc_ok sock acc ->
  res_fold (SnapshotSynthesizer.publish_event kernel c w h) evs (sq, sock) = Ok (sq', sock') ->
  McastSocket.mc_ok sock' (acc ++ numbered sq c w h evs).
Proof.
  revert sq sock acc. induction evs as [|e evs IH]; intros sq sock acc Hok H; cbn [res_fold] in H.
  { injection H as _ <-. by rewrite app_nil_r. }
  res_inv. destruct x as [sq1 sock1]. unfold SnapshotSynthesizer.publish_event in H0. res_inv.
  destruct x as [ok s1]. res_inv. destruct x0 as [r s2]. injection H0 as <- <-. subst ok.
  pose proof (McastSocket.mcast_send_ok _ _ _ _ _ _ Hok H1) as Hok1.
  pose proof (McastSocket.sendAndRecv_ok _ _ _ _ _ Hok1 H3) as Hok2.
  specialize (IH _ _ _ Hok2 H). by rewrite <- app_assoc in IH.
Qed.

Lemma publish_event_err kernel c w h st e f :
  SnapshotSynthesizer.publish_event kernel c w h st e = Err f -> f = AssertFailed.
Proof.
  destruct st as [sq sock]. unfold SnapshotSynthesizer.publish_event.
  destruct (McastSocket.send _ _ _) as [[ok s1]|e1] eqn:E1; cbn.
  2:{ intros [= <-]. by eapply McastSocket.send_err. }
  destruct ok; cbn; [|congruence].
  destruct (McastSocket.sendAndRecv _ _) as [[r s2]|e2] eqn:E2; cbn; [done|].
  intros [= <-]. by eapply McastSocket.sendAndRecv_err.
Qed.

Lemma publish_events_err kernel c w h evs st f :
  res_fold (SnapshotSynthesizer.publish_event kernel c w h) evs st = Err f -> f = AssertFailed.
Proof.
  revert st. induction evs as [|e evs IH]; intros st; cbn [res_fold]; [done|].
  destruct (SnapshotSynthesizer.publish_event _ _ _ _ _ _) as [st'|e1] eqn:E; cbn; [apply IH|].
  intros [= <-]. by eapply publish_event_err.
Qed.

Lemma publish_event_live kernel c w h e sq sock :
  (forall k, fst (kernel k) = SentBytes MarketSize) ->
  mc_open sock = true -> mc_outbound sock = [] ->
  exists sock', SnapshotSynthesizer.publish_event kernel c w h (sq, sock) e
    = Ok (u64 (sq + 1), sock') /\ mc_open sock' = true /\ mc_outbound sock' = [].
Proof.
  intros Hk Ho Hb. unfold SnapshotSynthesizer.publish_event.
  pose proof (encode_market_size (mkMDP sq e c w h)) as Hl.
  set (bytes := encode_market (mkMDP sq e c w h)) in *.
  destruct (McastSocket.send_and_flush kernel bytes sock Ho Hb) as (s1 & r & s2 & E1 & E2 & Ho2 & Hb2).
  { rewrite Hl. unfold MarketSize, MaxMcastDatagram. lia. }
  { by rewrite Hl. }
  rewrite E1. cbn [mbind res_bind ASSERT]. rewrite E2. cbn [mbind res_bind]. eauto.
Qed.

Lemma publish_events_live kernel c w h evs sq sock :
  (forall k, fst (kernel k) = SentBytes MarketSize) ->
  mc_open sock = true -> mc_outbound sock = [] ->
  exists sq' sock', res_fold (SnapshotSynthesizer.publish_event kernel c w h) evs (sq, sock)
    = Ok (sq', sock') /\ mc_open sock' = true /\ mc_outbound sock' = [].
Proof.
  intros Hk. revert sq sock. induction evs as [|e evs IH]; intros sq sock Ho Hb; [cbn; eauto|].
  cbn [res_fold].
  destruct (publish_event_live kernel c w h e sq sock Hk Ho Hb) as (s1 & -> & Ho1 & Hb1).
  cbn [mbind res_bind]. by apply IH.
Qed.

(** One cycle. *)
Lemma publishSnapshot_ok kernel s views acc :
  synth_ok s views -> McastSocket.mc_ok (sn_socket s) acc ->
  match SnapshotSynthesizer.publishSnapshot kernel s with
  | Ok s' =>
      McastSocket.mc_ok (sn_socket s')
        (acc ++ numbered 0 (u64 (sn_snapshot_cycle s + 1)) (sn_last_inc_seq_num s)
                  (bookHash (live_view views)) (cycle_events views (sn_last_inc_seq_num s))) /\
      synth_ok s' views /\ sn_snapshot_cycle s' = u64 (sn_snapshot_cycle s + 1) /\
      sn_last_inc_seq_num s' = sn_last_inc_seq_num s
  | Err f => f = AssertFailed /\
      ~ ((forall k, fst (kernel k) = SentBytes MarketSize) /\ mc_open (sn_socket s) = true /\
         mc_outbound (sn_socket s) = [])
  end.
Proof.
  intros Hok Hmc. unfold SnapshotSynthesizer.publishSnapshot.
  rewrite (live_ok _ _ Hok), (snapshot_events_ok _ _ Hok). cbn [mbind res_bind].
  set (c := u64 _). set (w := sn_last_inc_seq_num s). set (h := bookHash _).
  set (evs := cycle_events views w).
  destruct (res_fold _ evs _) as [[sq sock]|e] eqn:Ef; cbn [mbind res_bind].
  2:{ split; [by eapply publish_events_err|]. intros (Hk & Ho & Hb).
      destruct (publish_events_live kernel c w h evs 0 (sn_socket s) Hk Ho Hb) as (? & ? & E & _).
      congruence. }
  pose proof (publish_events_ok _ _ _ _ _ _ _ _ _ _ Hmc Ef) as Hmc1.
  destruct (McastSocket.sendAndRecv kernel sock) as [[r sock']|e] eqn:Es; cbn [mbind res_bind].
  - split; [by eapply McastSocket.sendAndRecv_ok|]. split; [by eapply synth_ok_transport|done].
  - split; [by eapply McastSocket.sendAndRecv_err|]. intros (Hk & Ho & Hb).
    destruct (publish_events_live kernel c w h evs 0 (sn_socket s) Hk Ho Hb) as (? & ? & E & Ho' & Hb').
    rewrite Ef in E. injection E as <- <-. unfold McastSocket.sendAndRecv, McastSocket.flush in Es.
    by rewrite Ho', Hb' in Es.
Qed.

(** C17: a synthesizer that holds the public books [views] publishes one
    complete cycle: a start marker, for each ticker a CLEAR and the live
    orders by id, an end marker, numbered from 0 and carrying one new cycle
    number, the watermark and the checksum of exactly these orders.  If the
    network does not take the frames the process stops; if it takes each frame
    at once the cycle is published. *)
Theorem snapshot_cycle_is_complete kernel s views acc :
  synth_ok s views -> McastSocket.mc_ok (sn_socket s) acc ->
  match SnapshotSynthesizer.publishSnapshot kernel s with
  | Ok s' =>
      McastSocket.mc_ok (sn_socket s')
        (acc ++ numbered 0 (u64 (sn_snapshot_cycle s + 1)) (sn_last_inc_seq_num s)
                  (bookHash (live_view views)) (cycle_events views (sn_last_inc_seq_num s))) /\
      synth_ok s' views /\ sn_snapshot_cycle s' = u64 (sn_snapshot_cycle s + 1) /\
      sn_last_inc_seq_num s' = sn_last_inc_seq_num s
  | Err f => f = AssertFailed /\
      ~ ((forall k, fst (kernel k) = SentBytes MarketSize) /\ mc_open (sn_socket s) = true /\
         mc_outbound (sn_socket s) = [])
  end.
Proof. apply publishSnapshot_ok. Qed.

Lemma view_total_empty n : view_total (replicate n ∅) = 0.
Proof. induction n as [|n IH]; [done|]. cbn [replicate view_total]. rewrite IH. done. Qed.

(** A new synthesizer. *)
Lemma synth_make_ok cap q cycle s :
  SnapshotSynthesizer.make_sized cap q cycle = Some s -> 0 <= cap ->
  synth_ok s (replicate (Z.to_nat ME_MAX_TICKERS) ∅) /\
  McastSocket.mc_ok (sn_socket s) [] /\ mc_open (sn_socket s) = true /\
  mc_outbound (sn_socket s) = [] /\ sn_last_inc_seq_num s = 0 /\
  pool_capacity (sn_pool s) = cap /\ sn_updates s = q.
Proof.
  unfold SnapshotSynthesizer.make_sized. intros Hm Hcap.
  destruct (@pool_new MEMarketUpdate cap) as [p|] eqn:Ep; [|done]. injection Hm as <-.
  pose proof (pool_new_available _ _ Hcap Ep) as Hav. pose proof (pool_new_ok _ _ Ep) as Hok.
  assert (Hc : pool_capacity p = cap) by (unfold pool_new in Ep; case_match; [done|by injection Ep as <-]).
  assert (Hnone : forall A t id, at2 (replicate (Z.to_nat ME_MAX_TICKERS) (∅ : gmap Z A)) t id = None).
  { intros A t id. unfold at2. destruct (replicate _ _ !! t) as [m|] eqn:E; [|done].
    apply lookup_replicate in E as [-> _]. apply lookup_empty. }
  split; [split|]; cbn [sn_orders sn_pool]; try done.
  - intros t id. by rewrite !Hnone.
  - intros t id t' id' a. by rewrite Hnone.
  - intros t id u. by rewrite Hnone.
  - rewrite view_total_empty. lia.
  - split; [|done]. split; cbn; [by exists [], []|lia|constructor].
Qed.

Lemma make_some cap q cycle :
  0 < cap < 2 ^ 32 -> exists s, SnapshotSynthesizer.make_sized cap q cycle = Some s.
Proof.
  intros Hc. unfold SnapshotSynthesizer.make_sized, pool_new.
  rewrite (proj2 (Z.eqb_neq cap 0)), (proj2 (Z.ltb_ge _ cap)) by lia. cbn. eauto.
Qed.

Definition idle_kernel : Kernel := λ _, (SentBytes MarketSize, NoDatagram).

Definition demo_md_queue : LFQueue MDPMarketUpdate := mkQueue [default_MDPMarketUpdate] 0 1 0 0 0 0.

Lemma snapshot_cycle_is_complete_witness :
  exists s s', SnapshotSynthesizer.make 
      demo_md_queue 5 = Some s /\
    SnapshotSynthesizer.publishSnapshot idle_kernel s = Ok s' /\ sn_snapshot_cycle s' = 6.
Proof.
  destruct (make_some ME_MAX_ORDER_IDS demo_md_queue 5) as [s Hs]; [unfold ME_MAX_ORDER_IDS; lia|].
  destruct (synth_make_ok _ _ _ _ Hs) as (Hok & Hmc & Ho & Hb & Hw & _);
    [unfold ME_MAX_ORDER_IDS; lia|].
  pose proof (snapshot_cycle_is_complete idle_kernel s _ _ Hok Hmc) as H.
  assert (Hc : sn_snapshot_cycle s = 5).
  { revert Hs. unfold SnapshotSynthesizer.make_sized. destruct (pool_new _); [|done].
    intros [= <-]. reflexivity. }
  exists s. destruct (SnapshotSynthesizer.publishSnapshot idle_kernel s) as [s'|f].
  - exists s'. split; [exact Hs|]. split; [reflexivity|]. destruct H as (_ & _ & H & _).
    rewrite H, Hc. reflexivity.
  - destruct H as [_ []]. done.
Defined.

(** ** Following the updates of a book *)
Fixpoint numbered_updates (sequence : Z) (us : list MEMarketUpdate) : list MDPMarketUpdate :=
  match us with
  | [] => []
  | u :: us' => mkMDP sequence u 0 0 0 :: numbered_updates (u64 (sequence + 1)) us'
  end.

Definition follow (us : list MDPMarketUpdate) (s : SnapshotSynthesizer) : res SnapshotSynthesizer :=
  res_fold (λ s u, SnapshotSynthesizer.addToSnapshot u s) us s.

Lemma view_bound (m : View) :
  (forall id, is_Some (m !! id) -> 0 < id < ME_MAX_ORDER_IDS) ->
  Z.of_nat (size m) <= ME_MAX_ORDER_IDS - 1.
Proof.
  intros H. rewrite <- size_dom.
  assert (Hsub : dom m ⊆ list_to_set (seqZ 1 (ME_MAX_ORDER_IDS - 1))).
  { intros id Hid%elem_of_dom. apply elem_of_list_to_set, elem_of_seqZ. specialize (H id Hid). lia. }
  apply subseteq_size in Hsub. rewrite size_list_to_set in Hsub by apply NoDup_seqZ.
  rewrite length_seqZ in Hsub. unfold ME_MAX_ORDER_IDS in *. lia.
Qed.

Lemma follow_ok us s views t m m' :
  synth_ok s views -> views !! t = Some m -> apply_all us m = Some m' ->
  Forall (λ u, mu_ticker_id u = Z.of_nat t) us ->
  view_total views = Z.of_nat (size m) -> ME_MAX_ORDER_IDS <= pool_capacity (sn_pool s) ->
  exists s', follow (numbered_updates (u64 (sn_last_inc_seq_num s + 1)) us) s = Ok s' /\
    synth_ok s' (<[t := m']> views).
Proof.
  intros Hok Hm Hap Ht Htot Hcap. revert s views m Hok Hm Hap Htot Hcap.
  induction Ht as [|u us Hu Ht IH]; intros s views m Hok Hm Hap Htot Hcap.
  { injection Hap as <-. exists s. rewrite list_insert_id by done. done. }
  cbn [apply_all] in Hap. destruct (apply_update u m) as [m1|] eqn:Ea; [|done].
  cbn [mbind option_bind] in Hap.
  assert (Hat : apply_ticker u views = Some (<[t := m1]> views)).
  { unfold apply_ticker. rewrite Hu, Nat2Z.id, Hm. cbn. by rewrite Ea. }
  assert (Hroom : view_total views < pool_capacity (sn_pool s)).
  { pose proof (view_bound m) as Hb. rewrite Htot. enough (Z.of_nat (size m) <= ME_MAX_ORDER_IDS - 1) by lia.
    apply Hb. intros id [x Hx]. apply (so_ids _ _ Hok t id x). by rewrite (at2_here _ _ m). }
  destruct (addToSnapshot_ok s views u _ 0 0 0 _ Hok Hat (λ _, Hroom) eq_refl)
    as (s1 & E1 & Hok1 & Hs1 & _ & _ & _ & Hc1).
  cbn [numbered_updates]. unfold follow in IH |- *. cbn [res_fold]. rewrite E1. cbn [mbind res_bind].
  pose proof (lookup_lt_Some _ _ _ Hm) as Hlt. rewrite <- Hs1.
  destruct (IH s1 _ m1 Hok1 ltac:(by apply list_lookup_insert_eq) Hap) as (s' & -> & Hok').
  - rewrite (view_total_insert _ _ m) by done. lia.
  - by rewrite Hc1.
  - exists s'. rewrite list_insert_insert_eq in Hok'. done.
Qed.

Lemma fills_ticker t c s o id leaves fs :
  Forall (λ u, mu_ticker_id u = t) (updates_of (fills_events t c s o id leaves fs)).
Proof.
  revert leaves. induction fs as [|[x q] fs IH]; intros leaves; [constructor|].
  cbn [fills_events]. rewrite updates_of_app. apply Forall_app. split; [|apply IH].
  unfold fill_events. cbn [updates_of]. repeat constructor. by case_match.
Qed.

Lemma step_ticker op a :
  a_ticker_id (fst (spec_step op a)) = a_ticker_id a /\
  Forall (λ u, mu_ticker_id u = a_ticker_id a) (updates_of (snd (spec_step op a))).
Proof.
  destruct op as [c o t s p q|c o t|c o]; cbn [spec_step].
  - unfold spec_add. cbv zeta. case_bool_decide as Hr; [|by split; [|constructor]].
    destruct (spec_reason_NONE _ _ _ _ _ _ _ Hr) as (_ & -> & _). unfold spec_trade. cbv zeta.
    destruct (fill _ _ _ _) as [[fs lv] rest]. destruct (lv =? 0); cbn [fst snd].
    + split; [by unfold publish, set_last, set_side; case_decide|]. apply fills_ticker.
    + split; [by unfold publish, set_last, set_side; repeat case_decide|].
      rewrite updates_of_app. apply Forall_app. split; [apply fills_ticker|]. by repeat constructor.
  - unfold spec_cancel. destruct (_ && _) eqn:E; [|by split; [|constructor]].
    apply andb_true_iff in E as [_ E%Z.eqb_eq]. destruct (find_order _ _); [|by split; [|constructor]].
    cbn [fst snd updates_of]. split; [by unfold publish, set_last, set_side; case_decide|].
    by repeat constructor.
  - unfold spec_query. repeat case_match; by split; [|constructor].
Qed.

Lemma run_ticker ops a :
  Forall (λ u, mu_ticker_id u = a_ticker_id a) (updates_of (snd (spec_run ops a))).
Proof.
  revert a. induction ops as [|op ops IH]; intros a; [constructor|]. cbn [spec_run].
  pose proof (step_ticker op a) as [Ha Hu]. destruct (spec_step op a) as [a1 e1]. cbn [fst snd] in *.
  specialize (IH a1). destruct (spec_run ops a1) as [a2 e2]. cbn [snd] in *.
  rewrite updates_of_app. apply Forall_app. split; [done|]. by rewrite <- Ha.
Qed.

Lemma sorted_view_of_live us :
  StronglySorted id_lt us -> sorted_view (view_of_live us) = us.
Proof.
  intros Hs.
  assert (Hnd : NoDup (mu_order_id <$> us)).
  { induction Hs as [|u us Hs IH Hall]; [constructor|]. cbn. apply NoDup_cons. split; [|done].
    intros (v & E & Hv)%list_elem_of_fmap. rewrite Forall_forall in Hall. specialize (Hall v Hv).
    unfold id_lt in Hall. lia. }
  assert (Hl : forall id u, view_of_live us !! id = Some u <-> u ∈ us /\ mu_order_id u = id).
  { intros id u. unfold view_of_live. rewrite <- elem_of_list_to_map.
    - rewrite list_elem_of_fmap. naive_solver.
    - by rewrite <- list_fmap_compose. }
  apply id_sorted_unique; [apply sorted_view_strict; intros id u [_ ?]%Hl; done|done|].
  intros u. rewrite sorted_view_elem. setoid_rewrite Hl. naive_solver.
Qed.

Lemma live_view_cons m views : live_view (m :: views) = sorted_view m ++ live_view views.
Proof. done. Qed.

Lemma live_view_single t m n :
  (t < n)%nat -> live_view (<[t := m]> (replicate n ∅)) = sorted_view m.
Proof.
  assert (Hempty : forall k, live_view (replicate k ∅) = []).
  { intros k. induction k as [|k IH]; [done|]. cbn [replicate]. by rewrite live_view_cons, IH. }
  revert n. induction t as [|t IH]; intros [|n] Hn; [lia| |lia|].
  - change (live_view (m :: replicate n ∅) = sorted_view m).
    by rewrite live_view_cons, Hempty, app_nil_r.
  - change (live_view (∅ :: <[t := m]> (replicate n ∅)) = sorted_view m).
    rewrite live_view_cons, IH by lia. done.
Qed.

(** fed with the updates that a book publishes, numbered in order, the
    synthesizer never stops and lists exactly the live orders of the book:
    two components that share no state agree. *)
Theorem synthesizer_tracks_book t orders levels ops b0 b q cycle s0 :
  MEOrderBook.make_sized (Z.of_nat t) orders levels = Some b0 -> 0 <= orders -> 0 <= levels ->
  Forall op_wf ops -> book_run ops b0 = Ok b -> (t < Z.to_nat ME_MAX_TICKERS)%nat ->
  SnapshotSynthesizer.make q cycle = Some s0 ->
  exists s us, follow (numbered_updates 1 (updates_of (bk_events b))) s0 = Ok s /\
    SnapshotSynthesizer.live s = Ok us /\ MEOrderBook.liveOrders b = Ok us.
Proof.
  intros Hm Ho Hl Hops Hr Ht Hs0. destruct (make_refines _ _ _ _ Ho Hl Hm) as [R E].
  pose proof (empty_book_wf (Z.of_nat t) orders levels Ho Hl) as W.
  pose proof (run_refines ops b0 _ _ R W Hops) as H. pose proof (run_ticker ops (empty_book (Z.of_nat t) orders levels)) as Htk.
  pose proof (spec_run_wf ops _ W Hops) as W'. pose proof (run_replay ops _ W Hops) as Hrep.
  destruct (spec_run ops _) as [a evs]. destruct H as (b' & G' & Hb' & R' & Ev).
  rewrite Hr in Hb'. injection Hb' as <-. cbn [fst snd] in *. rewrite E in Ev. cbn in Ev. rewrite Ev.
  destruct (view_live b a G' R' W') as (us & Hus & Hv & Hsort).
  destruct (synth_make_ok _ _ _ _ Hs0) as (Hok & _ & _ & _ & Hseq & Hcap & _);
    [unfold ME_MAX_ORDER_IDS; lia|].
  destruct (follow_ok (updates_of evs) s0 _ t ∅ (view a) Hok) as (s & Hf & Hok').
  - by apply lookup_replicate_2.
  - exact Hrep.
  - exact Htk.
  - by rewrite view_total_empty.
  - by rewrite Hcap.
  - rewrite Hseq in Hf. exists s, us. split; [exact Hf|]. split; [|done].
    rewrite (live_ok _ _ Hok'), live_view_single, Hv, sorted_view_of_live by done. done.
Qed.

Lemma synthesizer_tracks_book_witness :
  exists b s0 s us, BookTheorems.demo_book = Some b /\
    SnapshotSynthesizer.make demo_md_queue 5 = Some s0 /\
    follow (numbered_updates 1 (updates_of (bk_events b))) s0 = Ok s /\
    SnapshotSynthesizer.live s = Ok us /\ MEOrderBook.liveOrders b = Ok us.
Proof.
  assert (H : exists b0 b, MEOrderBook.make_sized 0 4 2 = Some b0 /\
    book_run BookTheorems.demo_ops b0 = Ok b /\ BookTheorems.demo_book = Some b).
  { eexists _, _. split; [vm_compute; reflexivity|]. split; vm_compute; reflexivity. }
  destruct H as (b0 & b & Hm & Hr & Hd).
  destruct (make_some ME_MAX_ORDER_IDS demo_md_queue 5) as [s0 Hs0]; [unfold ME_MAX_ORDER_IDS; lia|].
  destruct (synthesizer_tracks_book 0 4 2 BookTheorems.demo_ops b0 b demo_md_queue 5 s0
    Hm ltac:(lia) ltac:(lia) demo_ops_wf Hr ltac:(vm_compute; lia) Hs0) as (s & us & H1 & H2 & H3).
  exists b, s0, s, us. split; [exact Hd|]. split; [exact Hs0|]. split; [exact H1|].
  split; [exact H2|exact H3].
Defined.
