(* ===== verification/Publisher.v ===== *)
(** Incremental market data: exchange/market_data/market_data_publisher.{h,cpp}.

    The inner loop of [run] sends the updates waiting in the matching engine's
    queue to the multicast group, each numbered, and hands the same numbered
    update to the snapshot synthesizer.  Logging and the measurement macros
    have no effect on the state. *)
From S2P Require Import Prelude.
From S2P Require Import Types.
From S2P Require Import Wire.
From S2P Require Import LFQueue.
From S2P Require Import McastSocket.
From stdpp Require Import base list.
From Stdlib Require Import ZArith Lia.

Local Open Scope Z_scope.

Record MarketDataPublisher : Type := mkPublisher {
  pb_next_inc_seq_num : Z;
  pb_outgoing : LFQueue MEMarketUpdate;            (* outgoing_md_updates_ *)
  pb_snapshot_updates : LFQueue MDPMarketUpdate;   (* snapshot_md_updates_ *)
  pb_socket : McastSocket                          (* incremental_socket_ *)
}.

Module MarketDataPublisher.

Definition make_sized (cap : Z) (q : LFQueue MEMarketUpdate) : option MarketDataPublisher :=
  sq ← queue_new default_MDPMarketUpdate cap;
  Some (mkPublisher 1 q sq McastSocket.opened).
Definition make := make_sized ME_MAX_MARKET_UPDATES.

Section Network.
Context (kernel : Kernel).

(** The inner loop of [run]: one round per waiting update; a frame that the
    socket does not take stays in the queue and ends the loop. *)
Fixpoint publish_loop (fuel : nat) (p : MarketDataPublisher) : res MarketDataPublisher :=
  req ← peek (pb_outgoing p);
  match req, fuel with
  | None, _ => Ok p
  | Some _, O => Err NoFuel
  | Some market_update, S fuel =>
      let update := mkMDP (pb_next_inc_seq_num p) market_update 0 0 0 in
      '(ok, socket) ← McastSocket.send kernel (encode_market update) (pb_socket p);
      if negb ok then
        Ok (mkPublisher (pb_next_inc_seq_num p) (pb_outgoing p) (pb_snapshot_updates p) socket)
      else
      q ← pop (pb_outgoing p);
      '(pushed, sq) ← try_push update (pb_snapshot_updates p);
      _ ← ASSERT pushed;
      publish_loop fuel (mkPublisher (u64 (pb_next_inc_seq_num p + 1)) q sq socket)
  end.

(** One iteration of [run]. *)
Definition run_iteration (p : MarketDataPublisher) : res MarketDataPublisher :=
  p ← publish_loop (Z.to_nat (queue_size (pb_outgoing p))) p;
  '(_, socket) ← McastSocket.sendAndRecv kernel (pb_socket p);
  Ok (mkPublisher (pb_next_inc_seq_num p) (pb_outgoing p) (pb_snapshot_updates p) socket).

(** The end of [run]: at most [attempts] flushes before the deadline. *)
Fixpoint flush_at_exit (attempts : nat) (p : MarketDataPublisher) : res MarketDataPublisher :=
  match mc_outbound (pb_socket p), attempts with
  | [], _ => Ok p
  | _, O => Err AssertFailed
  | _, S attempts =>
      '(_, socket) ← McastSocket.sendAndRecv kernel (pb_socket p);
      flush_at_exit attempts
        (mkPublisher (pb_next_inc_seq_num p) (pb_outgoing p) (pb_snapshot_updates p) socket)
  end.

End Network.
End MarketDataPublisher.

(** The updates numbered from [sequence]. *)
Fixpoint inc_updates (sequence : Z) (us : list MEMarketUpdate) : list MDPMarketUpdate :=
  match us with
  | [] => []
  | u :: us' => mkMDP sequence u 0 0 0 :: inc_updates (u64 (sequence + 1)) us'
  end.

(** What the publisher holds: waiting updates, numbered updates not yet
    consumed by the synthesizer, frames accepted by the socket. *)
Record publisher_ok (p : MarketDataPublisher) (waiting : list MEMarketUpdate)
    (forwarded : list MDPMarketUpdate) (frames : list (list Z)) : Prop := {
  po_outgoing : queue_ok (pb_outgoing p) waiting;
  po_snapshot : queue_ok (pb_snapshot_updates p) forwarded;
  po_socket : McastSocket.mc_ok (pb_socket p) frames
}.

Lemma publisher_loop_ok kernel fuel p waiting forwarded frames :
  publisher_ok p waiting forwarded frames -> (length waiting <= fuel)%nat ->
  match MarketDataPublisher.publish_loop kernel fuel p with
  | Ok p' => exists sent rest, waiting = sent ++ rest /\
      let us := inc_updates (pb_next_inc_seq_num p) sent in
      publisher_ok p' rest (forwarded ++ us) (frames ++ (encode_market <$> us)) /\
      forall more, inc_updates (pb_next_inc_seq_num p) (sent ++ more)
        = us ++ inc_updates (pb_next_inc_seq_num p') more
  | Err f => f = AssertFailed
  end.
Proof.
  revert p waiting forwarded frames. induction fuel as [|fuel IH];
    intros p waiting forwarded frames [Hq Hs Hm] Hfuel;
    cbn [MarketDataPublisher.publish_loop];
    rewrite (peek_ok _ _ Hq); destruct waiting as [|u waiting]; cbn [head mbind res_bind].
  1,3: exists [], []; rewrite !app_nil_r; by split_and!.
  { cbn in Hfuel. lia. }
  set (update := mkMDP _ u 0 0 0).
  destruct (McastSocket.send kernel (encode_market update) (pb_socket p)) as [[ok sock]|e] eqn:Es;
    cbn [mbind res_bind]; [|by eapply McastSocket.send_err].
  pose proof (McastSocket.mcast_send_ok _ _ _ _ _ _ Hm Es) as Hm'.
  destruct ok; cbn [negb].
  2:{ exists [], (u :: waiting). cbn. rewrite !app_nil_r. by split_and!. }
  pose proof (pop_ok _ _ Hq) as (q & -> & Hq' & _). cbn [mbind res_bind].
  pose proof (try_push_ok _ _ update Hs) as Hp.
  destruct (Z.of_nat (length forwarded) =? _); [by destruct Hp as [-> _]|].
  destruct Hp as (sq & -> & Hs' & _). cbn [mbind res_bind ASSERT].
  match goal with |- context [MarketDataPublisher.publish_loop kernel fuel ?p1] =>
    specialize (IH p1 waiting (forwarded ++ [update]) (frames ++ [encode_market update]))
  end. destruct (MarketDataPublisher.publish_loop _ _ _) as [p'|e].
  2:{ apply IH; [done|]. cbn in Hfuel. lia. }
  destruct IH as (sent & rest & -> & Hok & Hmore); [done|cbn in Hfuel; lia|].
  exists (u :: sent), rest. split; [done|]. cbn [inc_updates fmap list_fmap app].
  cbn [pb_next_inc_seq_num] in Hok, Hmore. rewrite <- !app_assoc in Hok. split; [exact Hok|].
  intros more. by rewrite Hmore.
Qed.

(** One iteration of [run]. *)
Lemma publisher_iteration_ok kernel p waiting forwarded frames :
  publisher_ok p waiting forwarded frames ->
  match MarketDataPublisher.run_iteration kernel p with
  | Ok p' => exists sent rest, waiting = sent ++ rest /\
      let us := inc_updates (pb_next_inc_seq_num p) sent in
      publisher_ok p' rest (forwarded ++ us) (frames ++ (encode_market <$> us)) /\
      forall more, inc_updates (pb_next_inc_seq_num p) (sent ++ more)
        = us ++ inc_updates (pb_next_inc_seq_num p') more
  | Err f => f = AssertFailed
  end.
Proof.
  intros Hok. unfold MarketDataPublisher.run_iteration.
  pose proof (queue_size_ok _ _ (po_outgoing _ _ _ _ Hok)) as Hsz.
  pose proof (publisher_loop_ok kernel (Z.to_nat (queue_size (pb_outgoing p))) p _ _ _ Hok) as H.
  destruct (MarketDataPublisher.publish_loop _ _ p) as [p1|e]; cbn [mbind res_bind].
  - destruct H as (sent & rest & Hw & [H1 H2 H3] & Hmore); [rewrite Hsz; lia|].
    destruct (McastSocket.sendAndRecv kernel (pb_socket p1)) as [[r sock]|e] eqn:Es;
      cbn [mbind res_bind]; [|by eapply McastSocket.sendAndRecv_err].
    exists sent, rest. split; [done|]. split; [|done]. split; [done|done|].
    by eapply McastSocket.sendAndRecv_ok.
  - apply H. rewrite Hsz. lia.
Qed.

(** one iteration takes a prefix of the waiting updates, numbers them
    consecutively, the next iteration going on with the next number, and gives
    exactly the same numbered updates to the multicast socket and to the snapshot synthesizer; an update that the
    socket refuses stays in the queue.  It stops the process only when the
    snapshot queue is full or the network fails. *)
Theorem publisher_forwards_same_sequence kernel p waiting forwarded frames :
  publisher_ok p waiting forwarded frames ->
  match MarketDataPublisher.run_iteration kernel p with
  | Ok p' => exists sent rest, waiting = sent ++ rest /\
      let us := inc_updates (pb_next_inc_seq_num p) sent in
      publisher_ok p' rest (forwarded ++ us) (frames ++ (encode_market <$> us)) /\
      forall more, inc_updates (pb_next_inc_seq_num p) (sent ++ more)
        = us ++ inc_updates (pb_next_inc_seq_num p') more
  | Err f => f = AssertFailed
  end.
Proof. apply publisher_iteration_ok. Qed.

Definition demo_publisher : MarketDataPublisher :=
  mkPublisher 1 (mkQueue [default_MEMarketUpdate; default_MEMarketUpdate] 1 3 0 2 0 2)
    (mkQueue [default_MDPMarketUpdate; default_MDPMarketUpdate] 1 3 0 0 0 0) McastSocket.opened.

Definition demo_network : Kernel := λ _, (SentBytes (2 * MarketSize), NoDatagram).

Lemma publisher_forwards_same_sequence_witness :
  exists p' sent rest, MarketDataPublisher.run_iteration demo_network demo_publisher = Ok p' /\
    [default_MEMarketUpdate; default_MEMarketUpdate] = sent ++ rest /\
    publisher_ok p' rest (inc_updates 1 sent) (encode_market <$> inc_updates 1 sent) /\
    length (mc_wire (pb_socket p')) = 1%nat.
Proof.
  assert (Hok : publisher_ok demo_publisher [default_MEMarketUpdate; default_MEMarketUpdate] [] []).
  { split; cbn [demo_publisher pb_outgoing pb_snapshot_updates pb_socket].
    - split; [by exists 1|done|done|unfold capacity; cbn; lia|done|unfold capacity; cbn; lia|].
      intros [|[|i]] x; cbn; [by intros [= <-]..|done].
    - by apply (queue_new_ok default_MDPMarketUpdate 2).
    - split; cbn; [by exists [], []|lia|constructor]. }
  pose proof (publisher_forwards_same_sequence demo_network _ _ _ _ Hok) as H.
  destruct (MarketDataPublisher.run_iteration demo_network demo_publisher) as [p'|f] eqn:E.
  - destruct H as (sent & rest & Hw & Hok' & _). exists p', sent, rest.
    split; [reflexivity|]. split; [exact Hw|]. split; [exact Hok'|].
    vm_compute in E. injection E as <-. reflexivity.
  - vm_compute in E. discriminate E.
Defined.
