(* ===== verification/TradingTypes.v ===== *)
(** Data of the trading side: common/types.h (configuration),
    trading/strategy/market_order.h (BBO), trading/strategy/om_order.h.

    A [double] is an IEEE 754 binary64 value of the Standard Library's
    executable specification, rounded to nearest even. *)
From S2P Require Import Prelude.
From S2P Require Import Types.
From stdpp Require Import base strings pretty list.
From Stdlib Require Import ZArith Lia SpecFloat.

Local Open Scope Z_scope.

(** ** Doubles *)
Notation double := spec_float.

Definition d_of_Z (z : Z) : double := binary_normalize 53 1024 z 0 false.
Definition d_add : double -> double -> double := SFadd 53 1024.
Definition d_sub : double -> double -> double := SFsub 53 1024.
Definition d_mul : double -> double -> double := SFmul 53 1024.
Definition d_div : double -> double -> double := SFdiv 53 1024.
Definition d_lt : double -> double -> bool := SFltb.
Definition d_ge (a b : double) : bool := SFleb b a.
Definition d_half : double := d_div (d_of_Z 1) (d_of_Z 2).
Definition d_nan : double := S754_nan.

(** [std::isfinite]. *)
Definition isfinite (x : double) : bool :=
  match x with
  | S754_zero _ | S754_finite _ _ _ => true
  | _ => false
  end.

(** ** Configuration of a ticker *)
Record RiskCfg : Type := mkRiskCfg {
  max_order_size : Z;
  max_position : Z;
  max_loss : double
}.

Record TradeEngineCfg : Type := mkCfg {
  clip : Z;
  threshold : double;
  risk_cfg : RiskCfg
}.

(** ** Best bid and offer *)
Definition BookQty_INVALID : Z := 2 ^ 64 - 1.

Record BBO : Type := mkBBO {
  bid_price : Z;
  ask_price : Z;
  bid_qty : Z;
  ask_qty : Z
}.

Definition default_BBO : BBO := mkBBO Price_INVALID Price_INVALID BookQty_INVALID BookQty_INVALID.

(** ** Orders of a strategy *)
Inductive OMOrderState : Type :=
  | OM_INVALID
  | PENDING_NEW
  | LIVE
  | PENDING_CANCEL
  | DEAD.

#[export] Instance OMOrderState_eq_dec : EqDecision OMOrderState.
Proof. solve_decision. Defined.

Definition OMOrderStateToString (s : OMOrderState) : string :=
  match s with
  | PENDING_NEW => "PENDING_NEW"
  | LIVE => "LIVE"
  | PENDING_CANCEL => "PENDING_CANCEL"
  | DEAD => "DEAD"
  | OM_INVALID => "INVALID"
  end.

Record OMOrder : Type := mkOMOrder {
  om_ticker_id : Z;
  om_order_id : Z;
  om_side : Side;
  om_price : Z;
  om_qty : Z;
  om_state : OMOrderState
}.

Definition default_OMOrder : OMOrder :=
  mkOMOrder TickerId_INVALID OrderId_INVALID Side_INVALID Price_INVALID Qty_INVALID OM_INVALID.

Definition set_om_qty (q : Z) (o : OMOrder) : OMOrder :=
  mkOMOrder (om_ticker_id o) (om_order_id o) (om_side o) (om_price o) q (om_state o).

Definition set_om_state (s : OMOrderState) (o : OMOrder) : OMOrder :=
  mkOMOrder (om_ticker_id o) (om_order_id o) (om_side o) (om_price o) (om_qty o) s.

Definition OMOrder_toString (o : OMOrder) : string :=
  String.concat EmptyString
    ["OMOrder["; "tid:"; tickerIdToString (om_ticker_id o); " ";
     "oid:"; orderIdToString (om_order_id o); " ";
     "side:"; sideToString (om_side o); " ";
     "price:"; priceToString (om_price o); " ";
     "qty:"; qtyToString (om_qty o); " ";
     "state:"; OMOrderStateToString (om_state o); "]"].

(** Length of the arrays indexed by side. *)
Definition side_slots : nat := 4.

(** ** Result of the risk checks *)
Inductive RiskCheckResult : Type :=
  | Risk_INVALID
  | ORDER_TOO_LARGE
  | POSITION_TOO_LARGE
  | LOSS_TOO_LARGE
  | ALLOWED.

#[export] Instance RiskCheckResult_eq_dec : EqDecision RiskCheckResult.
Proof. solve_decision. Defined.

Definition riskCheckResultToString (r : RiskCheckResult) : string :=
  match r with
  | Risk_INVALID => "INVALID"
  | ORDER_TOO_LARGE => "ORDER_TOO_LARGE"
  | POSITION_TOO_LARGE => "POSITION_TOO_LARGE"
  | LOSS_TOO_LARGE => "LOSS_TOO_LARGE"
  | ALLOWED => "ALLOWED"
  end.
