(* ===== verification/PositionKeeper.v ===== *)
(** Positions and profit of a client: trading/strategy/position_keeper.h.

    Quantities are 64-bit integers, profits doubles.  [bbo_] is a pointer that
    only the log text reads; it is left out.  The sums of vwap are an array
    indexed by side; an index outside it is undefined behaviour. *)
From S2P Require Import Prelude.
From S2P Require Import Types.
From S2P Require Import TradingTypes.
From stdpp Require Import base list.
From Stdlib Require Import ZArith Lia SpecFloat.

Local Open Scope Z_scope.

Record PositionInfo : Type := mkPosition {
  position : Z;
  real_pnl : double;
  unreal_pnl : double;
  total_pnl : double;
  open_vwap : list double;
  volume : Z
}.

Definition d_zero : double := d_of_Z 0.

Definition default_PositionInfo : PositionInfo :=
  mkPosition 0 d_zero d_zero d_zero (replicate side_slots d_zero) 0.

Module PositionInfo.

Definition vwap_at (s : Side) (l : list double) : res double := deref (l !! Z.to_nat (sideToIndex s)).
Definition set_vwap (s : Side) (v : double) (l : list double) : res (list double) :=
  _ ← vwap_at s l;
  Ok (<[Z.to_nat (sideToIndex s) := v]> l).

(** Cost of the open quantity and realised profit after a fill. *)
Definition fill_vwap (r : MEClientResponse) (old new : Z) (vwap : list double) (real : double) :
    res (list double * double) :=
  let side := rs_side r in
  let opp := if bool_decide (side = BUY) then SELL else BUY in
  let price := d_of_Z (rs_price r) in
  if 0 <=? i64 (old * sideToValue side) then
    v ← vwap_at side vwap;
    vwap ← set_vwap side (d_add v (d_mul price (d_of_Z (rs_exec_qty r)))) vwap;
    Ok (vwap, real)
  else
    v ← vwap_at opp vwap;
    let opp_side_vwap := d_div v (d_of_Z (i64 (Z.abs old))) in
    vwap ← set_vwap opp (d_mul opp_side_vwap (d_of_Z (i64 (Z.abs new)))) vwap;
    let real := d_add real
      (d_mul (d_mul (d_of_Z (Z.min (rs_exec_qty r) (i64 (Z.abs old)))) (d_sub opp_side_vwap price))
         (d_of_Z (sideToValue side))) in
    if i64 (new * old) <? 0 then
      vwap ← set_vwap side (d_mul price (d_of_Z (i64 (Z.abs new)))) vwap;
      vwap ← set_vwap opp d_zero vwap;
      Ok (vwap, real)
    else Ok (vwap, real).

(** Profit of the open position at a price. *)
Definition unrealised (pos : Z) (price : double) (vwap : list double) : res double :=
  let abs_position := d_of_Z (i64 (Z.abs pos)) in
  if 0 <? pos then
    v ← vwap_at BUY vwap;
    Ok (d_mul (d_sub price (d_div v abs_position)) abs_position)
  else
    v ← vwap_at SELL vwap;
    Ok (d_mul (d_sub (d_div v abs_position) price) abs_position).

Definition addFill (r : MEClientResponse) (p : PositionInfo) : res PositionInfo :=
  let old_position := position p in
  let position' := i64 (position p + rs_exec_qty r * sideToValue (rs_side r)) in
  let volume' := u64 (volume p + rs_exec_qty r) in
  '(vwap, real) ← fill_vwap r old_position position' (open_vwap p) (real_pnl p);
  '(vwap, unreal) ←
    (if position' =? 0 then
       vwap ← set_vwap SELL d_zero vwap;
       vwap ← set_vwap BUY d_zero vwap;
       Ok (vwap, d_zero)
     else
       unreal ← unrealised position' (d_of_Z (rs_price r)) vwap;
       Ok (vwap, unreal));
  Ok (mkPosition position' real unreal (d_add unreal real) vwap volume').

Definition updateBBO (b : BBO) (p : PositionInfo) : res PositionInfo :=
  if negb (position p =? 0) && negb (bid_price b =? Price_INVALID)
     && negb (ask_price b =? Price_INVALID) then
    let mid_price := d_mul (d_add (d_of_Z (bid_price b)) (d_of_Z (ask_price b))) d_half in
    unreal ← unrealised (position p) mid_price (open_vwap p);
    Ok (mkPosition (position p) (real_pnl p) unreal (d_add unreal (real_pnl p)) (open_vwap p)
          (volume p))
  else Ok p.

End PositionInfo.

(** [class PositionKeeper]: one position per ticker; [at] outside the array
    ends the process ([noexcept]). *)
Notation PositionKeeper := (list PositionInfo).

Module PositionKeeper.

Definition make : PositionKeeper := replicate (Z.to_nat ME_MAX_TICKERS) default_PositionInfo.

Definition at_ticker (t : Z) (k : PositionKeeper) : res PositionInfo :=
  match k !! Z.to_nat t with
  | Some p => Ok p
  | None => Err AssertFailed
  end.

Definition addFill (r : MEClientResponse) (k : PositionKeeper) : res PositionKeeper :=
  p ← at_ticker (rs_ticker_id r) k;
  p ← PositionInfo.addFill r p;
  Ok (<[Z.to_nat (rs_ticker_id r) := p]> k).

Definition updateBBO (ticker_id : Z) (b : BBO) (k : PositionKeeper) : res PositionKeeper :=
  p ← at_ticker ticker_id k;
  p ← PositionInfo.updateBBO b p;
  Ok (<[Z.to_nat ticker_id := p]> k).

Definition getPositionInfo (ticker_id : Z) (k : PositionKeeper) : res PositionInfo :=
  at_ticker ticker_id k.

End PositionKeeper.

(** ** Lemmas *)
Definition tradable_side (s : Side) : Prop := s = BUY \/ s = SELL.

(** The signed quantity of a fill. *)
Definition signed_qty (r : MEClientResponse) : Z := rs_exec_qty r * sideToValue (rs_side r).

Lemma vwap_at_ok s l :
  length l = side_slots -> tradable_side s -> exists v, PositionInfo.vwap_at s l = Ok v.
Proof.
  intros Hl Hs. unfold PositionInfo.vwap_at.
  destruct (lookup_lt_is_Some_2 l (Z.to_nat (sideToIndex s))) as [v ->]; [|by exists v].
  rewrite Hl. destruct Hs as [-> | ->]; vm_compute; lia.
Qed.

Lemma set_vwap_ok s v l :
  length l = side_slots -> tradable_side s ->
  PositionInfo.set_vwap s v l = Ok (<[Z.to_nat (sideToIndex s) := v]> l) /\
  length (<[Z.to_nat (sideToIndex s) := v]> l) = side_slots.
Proof.
  intros Hl Hs. unfold PositionInfo.set_vwap. destruct (vwap_at_ok s l Hl Hs) as [w ->].
  by rewrite length_insert.
Qed.

(** Run the next access to the sums. *)
Ltac vwap_step :=
  match goal with
  | |- context [PositionInfo.vwap_at ?s ?l ≫= _] =>
      let v := fresh "v" in
      destruct (vwap_at_ok s l) as [v ->]; [assumption|assumption|]
  | |- context [PositionInfo.set_vwap ?s ?v ?l ≫= _] =>
      let H := fresh "Hlen" in
      destruct (set_vwap_ok s v l) as [-> H]; [assumption|assumption|]
  end; cbn [mbind res_bind].

Lemma fill_vwap_ok r old new vwap real :
  length vwap = side_slots -> tradable_side (rs_side r) ->
  exists vwap' real', PositionInfo.fill_vwap r old new vwap real = Ok (vwap', real') /\
    length vwap' = side_slots.
Proof.
  intros Hl Hs. unfold PositionInfo.fill_vwap. cbv zeta.
  set (opp := if bool_decide _ then SELL else BUY).
  assert (Ho : tradable_side opp) by (unfold opp; case_bool_decide; [by right|by left]).
  destruct (_ <=? _); repeat vwap_step; [eauto|]. destruct (_ <? _); repeat vwap_step; eauto.
Qed.

Lemma unrealised_ok pos price vwap :
  length vwap = side_slots -> exists u, PositionInfo.unrealised pos price vwap = Ok u.
Proof.
  intros Hl. unfold PositionInfo.unrealised.
  destruct (vwap_at_ok BUY vwap Hl) as [v ->]; [by left|].
  destruct (vwap_at_ok SELL vwap Hl) as [w ->]; [by right|]. destruct (0 <? pos); cbn; eauto.
Qed.

Lemma PositionInfo_addFill_ok r p :
  length (open_vwap p) = side_slots -> tradable_side (rs_side r) ->
  exists p', PositionInfo.addFill r p = Ok p' /\ length (open_vwap p') = side_slots /\
    position p' = i64 (position p + signed_qty r) /\ volume p' = u64 (volume p + rs_exec_qty r) /\
    total_pnl p' = d_add (unreal_pnl p') (real_pnl p') /\
    (position p' = 0 -> unreal_pnl p' = d_zero /\
       PositionInfo.vwap_at BUY (open_vwap p') = Ok d_zero /\
       PositionInfo.vwap_at SELL (open_vwap p') = Ok d_zero).
Proof.
  intros Hl Hs. unfold PositionInfo.addFill. cbv zeta.
  change (rs_exec_qty r * sideToValue (rs_side r)) with (signed_qty r).
  set (pos := i64 _). set (vol := u64 _).
  destruct (fill_vwap_ok r (position p) pos (open_vwap p) (real_pnl p) Hl Hs) as (vw & real & -> & Hl1).
  cbn [mbind res_bind]. destruct (Z.eqb_spec pos 0) as [E|E].
  - destruct (set_vwap_ok SELL d_zero vw Hl1) as [-> Hl2]; [by right|]. cbn [mbind res_bind].
    match type of Hl2 with length ?l = _ =>
      destruct (set_vwap_ok BUY d_zero l Hl2) as [-> Hl3] end; [by left|].
    cbn [mbind res_bind]. eexists. split; [done|]. do 4 (split; [done|]). intros _.
    cbn [unreal_pnl open_vwap]. split; [done|]. unfold PositionInfo.vwap_at. split.
    + rewrite list_lookup_insert_eq; [done|]. rewrite Hl2. vm_compute. lia.
    + rewrite list_lookup_insert_ne by (vm_compute; lia).
      rewrite list_lookup_insert_eq; [done|]. rewrite Hl1. vm_compute. lia.
  - destruct (unrealised_ok pos (d_of_Z (rs_price r)) vw Hl1) as [u ->]. cbn [mbind res_bind].
    eexists. split; [done|]. do 4 (split; [done|]). done.
Qed.

(** Every position has its four sums. *)
Record keeper_ok (k : PositionKeeper) : Prop := {
  ko_length : length k = Z.to_nat ME_MAX_TICKERS;
  ko_vwap p : p ∈ k -> length (open_vwap p) = side_slots
}.

Lemma keeper_make_ok : keeper_ok PositionKeeper.make.
Proof. split; [done|]. intros p Hp%elem_of_replicate. destruct Hp as [-> _]. done. Qed.

Definition ticker_position (k : PositionKeeper) (t : Z) : Z :=
  default 0 (position <$> k !! Z.to_nat t).

Lemma at_ticker_ok k t :
  keeper_ok k -> 0 <= t < ME_MAX_TICKERS ->
  exists p, PositionKeeper.at_ticker t k = Ok p /\ k !! Z.to_nat t = Some p /\
    length (open_vwap p) = side_slots /\ ticker_position k t = position p.
Proof.
  intros [Hl Hv] Ht. unfold PositionKeeper.at_ticker, ticker_position.
  destruct (lookup_lt_is_Some_2 k (Z.to_nat t)) as [p Hp]; [lia|]. exists p. rewrite Hp.
  split; [done|]. split; [done|]. split; [|done]. by apply Hv, (list_elem_of_lookup_2 _ (Z.to_nat t)).
Qed.

Lemma keeper_insert_ok k t p :
  keeper_ok k -> length (open_vwap p) = side_slots -> keeper_ok (<[Z.to_nat t := p]> k).
Proof.
  intros [Hl Hv] Hp. split; [by rewrite length_insert|].
  intros q Hq. apply list_elem_of_lookup in Hq as [i Hi].
  apply list_lookup_insert_Some in Hi as [(_ & <- & _)|[_ Hi]]; [done|].
  by apply Hv, (list_elem_of_lookup_2 _ i).
Qed.

Lemma ticker_position_insert k t t' p :
  keeper_ok k -> 0 <= t < ME_MAX_TICKERS -> 0 <= t' < ME_MAX_TICKERS ->
  ticker_position (<[Z.to_nat t := p]> k) t' = if decide (t = t') then position p else ticker_position k t'.
Proof.
  intros [Hl _] Ht Ht'. unfold ticker_position. case_decide as E.
  - subst. rewrite list_lookup_insert_eq; [done|lia].
  - rewrite list_lookup_insert_ne by lia. done.
Qed.

Lemma keeper_addFill_ok r k :
  keeper_ok k -> tradable_side (rs_side r) -> 0 <= rs_ticker_id r < ME_MAX_TICKERS ->
  exists k', PositionKeeper.addFill r k = Ok k' /\ keeper_ok k' /\
    forall t, 0 <= t < ME_MAX_TICKERS ->
      ticker_position k' t = if decide (rs_ticker_id r = t) then i64 (ticker_position k t + signed_qty r)
                             else ticker_position k t.
Proof.
  intros Hk Hs Ht. unfold PositionKeeper.addFill.
  destruct (at_ticker_ok k _ Hk Ht) as (p & -> & Hp & Hl & Hpos). cbn [mbind res_bind].
  destruct (PositionInfo_addFill_ok r p Hl Hs) as (p' & -> & Hl' & Hpos' & _).
  cbn [mbind res_bind]. eexists. split; [done|]. split; [by apply keeper_insert_ok|].
  intros t Hr. rewrite ticker_position_insert by done. case_decide as E; [|done].
  subst t. by rewrite Hpos, Hpos'.
Qed.

Lemma i64_add_l a b : i64 (i64 a + b) = i64 (a + b).
Proof.
  unfold i64. replace ((a + 2 ^ 63) mod 2 ^ 64 - 2 ^ 63 + b + 2 ^ 63) with ((a + 2 ^ 63) mod 2 ^ 64 + b) by lia.
  rewrite Zplus_mod_idemp_l. do 2 f_equal. lia.
Qed.

(** Signed quantity of the fills of a ticker. *)
Fixpoint net_qty (t : Z) (rs : list MEClientResponse) : Z :=
  match rs with
  | [] => 0
  | r :: rs' => (if rs_ticker_id r =? t then signed_qty r else 0) + net_qty t rs'
  end.

Definition addFills (rs : list MEClientResponse) (k : PositionKeeper) : res PositionKeeper :=
  res_fold (λ k r, PositionKeeper.addFill r k) rs k.

Lemma addFills_ok rs k :
  keeper_ok k ->
  Forall (λ r, tradable_side (rs_side r) /\ 0 <= rs_ticker_id r < ME_MAX_TICKERS) rs ->
  exists k', addFills rs k = Ok k' /\ keeper_ok k' /\
    forall t, 0 <= t < ME_MAX_TICKERS ->
      i64 (ticker_position k' t) = i64 (ticker_position k t + net_qty t rs).
Proof.
  intros Hk Hrs. revert k Hk. unfold addFills.
  induction Hrs as [|r rs [Hs Ht] Hrs IH]; intros k Hk; cbn [res_fold net_qty].
  { exists k. split; [done|]. split; [done|]. intros t _. by rewrite Z.add_0_r. }
  destruct (keeper_addFill_ok r k Hk Hs Ht) as (k1 & -> & Hk1 & H1). cbn [mbind res_bind].
  destruct (IH k1 Hk1) as (k' & -> & Hk' & H'). exists k'. split; [done|]. split; [done|].
  intros t Hr. rewrite H' by done. rewrite H1 by done.
  case_decide as E.
  - rewrite (proj2 (Z.eqb_eq _ _) E), i64_add_l. f_equal; lia.
  - rewrite (proj2 (Z.eqb_neq _ _) E). f_equal; lia.
Qed.

(** for any sequence of fills of known tickers the keeper never fails;
    the position of a ticker is the sum of its signed fills (as a 64-bit
    integer), whatever reversals the position went through. *)
Theorem position_is_sum_of_fills rs :
  Forall (λ r, tradable_side (rs_side r) /\ 0 <= rs_ticker_id r < ME_MAX_TICKERS) rs ->
  exists k, addFills rs PositionKeeper.make = Ok k /\ length k = Z.to_nat ME_MAX_TICKERS /\
    forall t, 0 <= t < ME_MAX_TICKERS -> i64 (ticker_position k t) = i64 (net_qty t rs).
Proof.
  intros Hrs. destruct (addFills_ok rs _ keeper_make_ok Hrs) as (k & Hk & Hok & H).
  exists k. split; [done|]. split; [apply Hok|]. intros t Ht. rewrite (H t Ht).
  replace (ticker_position PositionKeeper.make t) with 0; [done|].
  unfold ticker_position. destruct (PositionKeeper.make !! Z.to_nat t) as [p|] eqn:E; [|done].
  apply lookup_replicate in E as [-> _]. done.
Qed.

Definition demo_fill (s : Side) (price qty : Z) : MEClientResponse :=
  mkResponse FILLED 1 0 1 1 s price qty 0 NONE 0 0.

Lemma position_is_sum_of_fills_witness :
  exists k, addFills [demo_fill BUY 100 10; demo_fill SELL 110 15] PositionKeeper.make = Ok k /\
    i64 (ticker_position k 0) = -5 /\
    (real_pnl <$> k !! 0%nat) = Some (d_of_Z 100).
Proof.
  destruct (position_is_sum_of_fills [demo_fill BUY 100 10; demo_fill SELL 110 15])
    as (k & H1 & H2 & H3).
  - constructor; [|constructor; [|constructor]];
      (split; [unfold tradable_side; cbn; auto|cbn; unfold ME_MAX_TICKERS; lia]).
  - exists k. split; [exact H1|]. split; [by rewrite H3 by (unfold ME_MAX_TICKERS; lia)|].
    vm_compute in H1. injection H1 as <-. vm_compute. reflexivity.
Defined.

(** a fill that closes the position leaves no open cost and no
    unrealised profit; the total is always realised plus unrealised. *)
Theorem flat_position_has_no_open_cost r p :
  length (open_vwap p) = side_slots -> tradable_side (rs_side r) ->
  exists p', PositionInfo.addFill r p = Ok p' /\
    position p' = i64 (position p + signed_qty r) /\ volume p' = u64 (volume p + rs_exec_qty r) /\
    total_pnl p' = d_add (unreal_pnl p') (real_pnl p') /\
    (position p' = 0 -> unreal_pnl p' = d_zero /\
       PositionInfo.vwap_at BUY (open_vwap p') = Ok d_zero /\
       PositionInfo.vwap_at SELL (open_vwap p') = Ok d_zero).
Proof.
  intros Hl Hs. destruct (PositionInfo_addFill_ok r p Hl Hs) as (p' & H & _ & H').
  exists p'. split; [done|exact H'].
Qed.

Lemma flat_position_has_no_open_cost_witness :
  exists p p', PositionInfo.addFill (demo_fill BUY 100 10) default_PositionInfo = Ok p /\
    PositionInfo.addFill (demo_fill SELL 110 10) p = Ok p' /\
    PositionInfo.vwap_at BUY (open_vwap p') = Ok d_zero.
Proof.
  destruct (PositionInfo_addFill_ok (demo_fill BUY 100 10) default_PositionInfo eq_refl)
    as (p & H1 & Hl & Hp & _); [by left|].
  destruct (flat_position_has_no_open_cost (demo_fill SELL 110 10) p Hl) as (p' & H2 & Hp' & _ & _ & H3);
    [by right|].
  exists p, p'. split; [exact H1|]. split; [exact H2|]. apply H3. rewrite Hp', Hp. reflexivity.
Defined.
