(* ===== verification/MapSum.v ===== *)
(** Sums over finite maps: the totals that the risk and queue invariants
    speak of. *)
From S2P Require Import Prelude.
From stdpp Require Import base gmap fin_maps.
From Stdlib Require Import ZArith Lia.

Local Open Scope Z_scope.

Section Sum.
Context {K A : Type} `{Countable K}.

Definition sum_of (f : K -> A -> Z) (m : gmap K A) : Z := map_fold (λ k a n, f k a + n) 0 m.

Lemma sum_of_empty f : sum_of f ∅ = 0.
Proof. apply map_fold_empty. Qed.

Lemma sum_of_insert f (k : K) (a : A) (m : gmap K A) :
  m !! k = None -> sum_of f (<[k := a]> m) = f k a + sum_of f m.
Proof.
  intros Hk. unfold sum_of. apply (map_fold_insert_L (λ k a n, f k a + n)); [|done]. intros. lia.
Qed.

Lemma sum_of_delete f (k : K) (a : A) (m : gmap K A) :
  m !! k = Some a -> sum_of f m = f k a + sum_of f (delete k m).
Proof.
  intros Hk. rewrite <- (insert_delete_id m k a Hk) at 1.
  apply sum_of_insert, lookup_delete_eq.
Qed.

Lemma sum_of_update f (k : K) (a b : A) (m : gmap K A) :
  m !! k = Some a -> sum_of f (<[k := b]> m) = sum_of f m - f k a + f k b.
Proof.
  intros Hk. rewrite (sum_of_delete f k a m Hk), <- insert_delete_eq, sum_of_insert.
  - lia.
  - apply lookup_delete_eq.
Qed.

Lemma sum_of_nonneg f (m : gmap K A) :
  (forall k a, m !! k = Some a -> 0 <= f k a) -> 0 <= sum_of f m.
Proof.
  induction m as [|k a m Hk IH] using map_ind; intros Hf; [by rewrite sum_of_empty|].
  rewrite sum_of_insert by done. assert (0 <= f k a) by (apply Hf, lookup_insert_eq).
  enough (0 <= sum_of f m) by lia. apply IH. intros k' a' Hk'. apply Hf.
  rewrite lookup_insert_ne; [done|]. congruence.
Qed.
End Sum.
