(* ===== verification/RiskManager.v ===== *)
(** Pre-trade risk: trading/strategy/risk_manager.{h,cpp}.

    A NEW request reserves its quantity; the exchange's responses turn the
    reservation into position or release it.  The risk manager reads the
    positions of the position keeper through pointers: the keeper is an
    argument.  [std::map] is iterated by increasing key. *)
From S2P Require Import Prelude.
From S2P Require Import Types.
From S2P Require Import TradingTypes.
From S2P Require Import PositionKeeper.
From S2P Require Import MapSum.
From stdpp Require Import base gmap list sorting.
From Stdlib Require Import ZArith Lia SpecFloat.

Local Open Scope Z_scope.

Record Reservation : Type := mkReservation {
  rv_side : Side;
  rv_qty : Z;
  rv_price : Z
}.

Record RiskManager : Type := mkRisk {
  rk_cfg : list RiskCfg;                         (* ticker_risk_, the limits *)
  rk_reservations : gmap (Z * Z) Reservation;    (* by ticker and order id *)
  rk_buy : list Z;                               (* pending_buy_ *)
  rk_sell : list Z                               (* pending_sell_ *)
}.

Definition key_le (a b : (Z * Z) * Reservation) : Prop :=
  a.1.1 < b.1.1 \/ (a.1.1 = b.1.1 /\ a.1.2 <= b.1.2).
#[export] Instance key_le_dec a b : Decision (key_le a b).
Proof. unfold key_le. apply _. Defined.

(** [RiskInfo::checkPreTradeRisk]. *)
Definition RiskInfo_checkPreTradeRisk (side : Side) (qty : Z) (p : PositionInfo) (cfg : RiskCfg) :
    RiskCheckResult :=
  if negb (is_buy_or_sell side) || (qty =? 0) || (INT32_MAX <? qty) then Risk_INVALID
  else if max_order_size cfg <? qty then ORDER_TOO_LARGE
  else if max_position cfg <? i64 (Z.abs (i64 (position p + sideToValue side * qty)))
  then POSITION_TOO_LARGE
  else if d_lt (total_pnl p) (max_loss cfg) then LOSS_TOO_LARGE
  else ALLOWED.

Module RiskManager.

(** The constructor. *)
Definition make (cfg : list TradeEngineCfg) : RiskManager :=
  mkRisk (risk_cfg <$> cfg) ∅ (replicate (Z.to_nat ME_MAX_TICKERS) 0)
    (replicate (Z.to_nat ME_MAX_TICKERS) 0).

Definition pending_array (s : Side) (m : RiskManager) : list Z :=
  if bool_decide (s = BUY) then rk_buy m else rk_sell m.

(** [(side == BUY ? pending_buy_ : pending_sell_)[ticker] += delta]. *)
Definition add_pending (s : Side) (ticker delta : Z) (m : RiskManager) : res RiskManager :=
  v ← deref (pending_array s m !! Z.to_nat ticker);
  let l := <[Z.to_nat ticker := u64 (v + delta)]> (pending_array s m) in
  Ok (if bool_decide (s = BUY) then mkRisk (rk_cfg m) (rk_reservations m) l (rk_sell m)
      else mkRisk (rk_cfg m) (rk_reservations m) (rk_buy m) l).

Definition with_reservations (r : gmap (Z * Z) Reservation) (m : RiskManager) : RiskManager :=
  mkRisk (rk_cfg m) r (rk_buy m) (rk_sell m).

Definition checkPreTradeRisk (ticker_id : Z) (side : Side) (qty : Z) (k : PositionKeeper)
    (m : RiskManager) : res RiskCheckResult :=
  if ME_MAX_TICKERS <=? ticker_id then Ok Risk_INVALID else
  cfg ← deref (rk_cfg m !! Z.to_nat ticker_id);
  p ← PositionKeeper.getPositionInfo ticker_id k;
  let result := RiskInfo_checkPreTradeRisk side qty p cfg in
  if negb (bool_decide (result = ALLOWED)) then Ok result else
  b ← deref (rk_buy m !! Z.to_nat ticker_id);
  s ← deref (rk_sell m !! Z.to_nat ticker_id);
  let buys := u64 (b + (if bool_decide (side = BUY) then qty else 0)) in
  let sells := u64 (s + (if bool_decide (side = SELL) then qty else 0)) in
  if (max_position cfg <? i64 (position p + i64 buys))
     || (i64 (position p - i64 sells) <? - max_position cfg) then Ok POSITION_TOO_LARGE
  else if negb (isfinite (total_pnl p)) then Ok LOSS_TOO_LARGE
  else Ok ALLOWED.

Definition request_key (r : MEClientRequest) : Z * Z := (rq_ticker_id r, rq_order_id r).

Definition reserve (r : MEClientRequest) (k : PositionKeeper) (m : RiskManager) :
    res (RiskCheckResult * RiskManager) :=
  if negb (bool_decide (rq_type r = NEW)) then Ok (ALLOWED, m) else
  if bool_decide (is_Some (rk_reservations m !! request_key r)) then Ok (Risk_INVALID, m) else
  result ← checkPreTradeRisk (rq_ticker_id r) (rq_side r) (rq_qty r) k m;
  if negb (bool_decide (result = ALLOWED)) then Ok (result, m) else
  let m := with_reservations
    (<[request_key r := mkReservation (rq_side r) (rq_qty r) (rq_price r)]> (rk_reservations m)) m in
  m ← add_pending (rq_side r) (rq_ticker_id r) (rq_qty r) m;
  Ok (result, m).

Definition rollback (r : MEClientRequest) (m : RiskManager) : res RiskManager :=
  if negb (bool_decide (rq_type r = NEW)) then Ok m else
  match rk_reservations m !! request_key r with
  | None => Ok m
  | Some found =>
      m ← add_pending (rv_side found) (rq_ticker_id r) (- rv_qty found) m;
      Ok (with_reservations (delete (request_key r) (rk_reservations m)) m)
  end.

Definition onResponse (r : MEClientResponse) (m : RiskManager) : res (bool * RiskManager) :=
  if ME_MAX_TICKERS <=? rs_ticker_id r then Ok (false, m) else
  let key := (rs_ticker_id r, rs_client_order_id r) in
  match rk_reservations m !! key with
  | None => Ok (negb (bool_decide (rs_type r = FILLED)), m)
  | Some reservation =>
      let side := rv_side reservation in
      match rs_type r with
      | FILLED =>
          if negb (bool_decide (rs_side r = side)) || (rs_exec_qty r =? 0)
             || (rv_qty reservation <? rs_exec_qty r)
             || negb (u64 (rs_exec_qty r + rs_leaves_qty r) =? rv_qty reservation)
          then Ok (false, m) else
          m ← add_pending side (rs_ticker_id r) (- rs_exec_qty r) m;
          Ok (true, with_reservations
            (if rs_leaves_qty r =? 0 then delete key (rk_reservations m)
             else <[key := mkReservation side (rs_leaves_qty r) (rv_price reservation)]>
                    (rk_reservations m)) m)
      | CANCEL_REJECTED => Ok (rs_leaves_qty r =? rv_qty reservation, m)
      | REJECTED =>
          if bool_decide (rs_reject_reason r = DUPLICATE_ID) then Ok (false, m) else
          m ← add_pending side (rs_ticker_id r) (- rv_qty reservation) m;
          Ok (true, with_reservations (delete key (rk_reservations m)) m)
      | CANCELED =>
          m ← add_pending side (rs_ticker_id r) (- rv_qty reservation) m;
          Ok (true, with_reservations (delete key (rk_reservations m)) m)
      | _ => Ok (true, m)
      end
  end.

Definition pending (ticker : Z) (s : Side) (m : RiskManager) : res Z :=
  match pending_array s m !! Z.to_nat ticker with
  | Some v => Ok v
  | None => Err AssertFailed
  end.

Definition cancellations (client : Z) (m : RiskManager) : list MEClientRequest :=
  (λ '((ticker, order), v),
     mkRequest CANCEL client ticker order (rv_side v) (rv_price v) (rv_qty v) 0 0)
  <$> merge_sort key_le (map_to_list (rk_reservations m)).

End RiskManager.

(** ** The invariant *)

(** Reserved quantity of one reservation for a ticker and a side. *)
Definition share (t : Z) (s : Side) (key : Z * Z) (v : Reservation) : Z :=
  if (key.1 =? t) && bool_decide (rv_side v = s) then rv_qty v else 0.

Definition reserved (t : Z) (s : Side) (m : RiskManager) : Z :=
  sum_of (share t s) (rk_reservations m).

Definition pend (s : Side) (t : Z) (m : RiskManager) : Z :=
  default 0 (RiskManager.pending_array s m !! Z.to_nat t).

Definition limit (t : Z) (m : RiskManager) : Z :=
  default 0 (max_position <$> rk_cfg m !! Z.to_nat t).

Definition known_ticker (t : Z) : Prop := 0 <= t < ME_MAX_TICKERS.

Record risk_ok (m : RiskManager) (k : PositionKeeper) : Prop := {
  ro_keeper : keeper_ok k;
  ro_cfg : length (rk_cfg m) = Z.to_nat ME_MAX_TICKERS;
  ro_arrays s : length (RiskManager.pending_array s m) = Z.to_nat ME_MAX_TICKERS;
  ro_limit t : known_ticker t -> 0 <= limit t m < 2 ^ 32;
  ro_reservation key v : rk_reservations m !! key = Some v ->
    tradable_side (rv_side v) /\ 0 < rv_qty v <= INT32_MAX /\ known_ticker key.1;
  ro_pending s t : tradable_side s -> known_ticker t -> pend s t m = reserved t s m;
  ro_long t : known_ticker t -> ticker_position k t + pend BUY t m <= limit t m;
  ro_short t : known_ticker t -> - limit t m <= ticker_position k t - pend SELL t m
}.

(** ** Lemmas *)
Lemma share_nonneg m k t s key v :
  risk_ok m k -> rk_reservations m !! key = Some v -> 0 <= share t s key v.
Proof.
  intros Hok Hv. destruct (ro_reservation _ _ Hok _ _ Hv) as (_ & Hq & _).
  unfold share. destruct (_ && _); lia.
Qed.

Lemma reserved_nonneg m k t s : risk_ok m k -> 0 <= reserved t s m.
Proof. intros Hok. apply sum_of_nonneg. intros key v Hv. by eapply share_nonneg. Qed.

Lemma pend_nonneg m k s t : risk_ok m k -> tradable_side s -> known_ticker t -> 0 <= pend s t m.
Proof. intros Hok Hs Ht. rewrite (ro_pending _ _ Hok) by done. by eapply reserved_nonneg. Qed.

(** Positions stay within the limit; reservations within twice the limit. *)
Lemma risk_bounds m k t :
  risk_ok m k -> known_ticker t ->
  - limit t m <= ticker_position k t <= limit t m /\
  0 <= pend BUY t m < 2 ^ 33 /\ 0 <= pend SELL t m < 2 ^ 33.
Proof.
  intros Hok Ht. pose proof (ro_long _ _ Hok t Ht). pose proof (ro_short _ _ Hok t Ht).
  pose proof (ro_limit _ _ Hok t Ht).
  pose proof (pend_nonneg _ _ BUY t Hok (or_introl eq_refl) Ht).
  pose proof (pend_nonneg _ _ SELL t Hok (or_intror eq_refl) Ht). lia.
Qed.

Lemma pend_bound m k s t :
  risk_ok m k -> tradable_side s -> known_ticker t -> 0 <= pend s t m < 2 ^ 33.
Proof. intros Hok Hs Ht. pose proof (risk_bounds _ _ t Hok Ht). destruct Hs as [-> | ->]; tauto. Qed.

(** A reservation is part of the pending quantity of its side. *)
Lemma reservation_pending m k key v :
  risk_ok m k -> rk_reservations m !! key = Some v -> rv_qty v <= pend (rv_side v) key.1 m.
Proof.
  intros Hok Hv. destruct (ro_reservation _ _ Hok _ _ Hv) as (Hs & Hq & Ht).
  rewrite (ro_pending _ _ Hok) by done. unfold reserved. rewrite (sum_of_delete _ key v) by done.
  unfold share at 1. rewrite Z.eqb_refl, bool_decide_true by done. cbn [andb].
  enough (0 <= sum_of (share key.1 (rv_side v)) (delete key (rk_reservations m))) by lia.
  apply sum_of_nonneg. intros key' v' Hv'. apply lookup_delete_Some in Hv' as [_ Hv'].
  by eapply share_nonneg.
Qed.

Lemma pend_insert s t d m l :
  tradable_side s -> known_ticker t ->
  length (RiskManager.pending_array s m) = Z.to_nat ME_MAX_TICKERS ->
  l = <[Z.to_nat t := d]> (RiskManager.pending_array s m) ->
  let m' := if bool_decide (s = BUY) then mkRisk (rk_cfg m) (rk_reservations m) l (rk_sell m)
            else mkRisk (rk_cfg m) (rk_reservations m) (rk_buy m) l in
  forall s' t', tradable_side s' -> known_ticker t' ->
    pend s' t' m' = if decide (s' = s /\ t' = t) then d else pend s' t' m.
Proof.
  intros Hs Ht Hlen -> m' s' t' Hs' Ht'. unfold pend.
  assert (E : RiskManager.pending_array s' m' =
    if decide (s' = s) then <[Z.to_nat t := d]> (RiskManager.pending_array s m)
    else RiskManager.pending_array s' m).
  { unfold m', RiskManager.pending_array. by destruct Hs as [-> | ->], Hs' as [-> | ->]. }
  rewrite E. unfold known_ticker in *. destruct (decide (s' = s)) as [->|Hne].
  - destruct (decide (t' = t)) as [->|Hne'].
    + rewrite decide_True by done. rewrite list_lookup_insert_eq; [done|lia].
    + rewrite decide_False by naive_solver. rewrite list_lookup_insert_ne by lia. done.
  - by rewrite decide_False by naive_solver.
Qed.

Lemma add_pending_ok s t d m k :
  risk_ok m k -> tradable_side s -> known_ticker t -> 0 <= pend s t m + d < 2 ^ 64 ->
  exists m', RiskManager.add_pending s t d m = Ok m' /\
    rk_cfg m' = rk_cfg m /\ rk_reservations m' = rk_reservations m /\
    (forall s', length (RiskManager.pending_array s' m') = Z.to_nat ME_MAX_TICKERS) /\
    forall s' t', tradable_side s' -> known_ticker t' ->
      pend s' t' m' = pend s' t' m + if decide (s' = s /\ t' = t) then d else 0.
Proof.
  intros Hok Hs Ht Hd. unfold RiskManager.add_pending.
  pose proof (ro_arrays _ _ Hok s) as Hlen. unfold known_ticker in Ht.
  destruct (lookup_lt_is_Some_2 (RiskManager.pending_array s m) (Z.to_nat t)) as [v Hv]; [lia|].
  rewrite Hv. cbn [deref mbind res_bind].
  assert (Ev : pend s t m = v) by (unfold pend; by rewrite Hv).
  rewrite u64_small by (rewrite <- Ev; done). eexists. split; [done|].
  split; [by case_bool_decide|]. split; [by case_bool_decide|]. split.
  - intros s'. pose proof (ro_arrays _ _ Hok s') as Hlen'.
    unfold RiskManager.pending_array in *. repeat case_bool_decide; cbn; rewrite ?length_insert; done.
  - intros s' t' Hs' Ht'.
    pose proof (pend_insert s t (v + d) m _ Hs Ht Hlen eq_refl s' t' Hs' Ht') as E. cbv zeta in E.
    rewrite E. case_decide as Ed; [destruct Ed as [-> ->]; lia|lia].
Qed.

(** A change of one reservation and of the pending quantity of its side, with
    the position of its ticker moving by [e]. *)
Lemma risk_ok_change m k m' k' key v r' s d e :
  risk_ok m k -> keeper_ok k' -> tradable_side s -> known_ticker key.1 ->
  rk_cfg m' = rk_cfg m ->
  (forall s', length (RiskManager.pending_array s' m') = Z.to_nat ME_MAX_TICKERS) ->
  (forall s' t', tradable_side s' -> known_ticker t' ->
     pend s' t' m' = pend s' t' m + if decide (s' = s /\ t' = key.1) then d else 0) ->
  rk_reservations m' = r' ->
  (r' = delete key (rk_reservations m) \/
   r' = <[key := v]> (rk_reservations m) /\ tradable_side (rv_side v) /\ 0 < rv_qty v <= INT32_MAX) ->
  (forall s' t', sum_of (share t' s') r'
     = reserved t' s' m + if decide (s' = s /\ t' = key.1) then d else 0) ->
  (forall t', known_ticker t' ->
     ticker_position k' t' = ticker_position k t' + if decide (t' = key.1) then e else 0) ->
  (s = BUY -> ticker_position k key.1 + e + pend BUY key.1 m + d <= limit key.1 m /\ 0 <= e) ->
  (s = SELL -> - limit key.1 m <= ticker_position k key.1 + e - (pend SELL key.1 m + d) /\ e <= 0) ->
  risk_ok m' k'.
Proof.
  intros Hok Hk' Hs Ht Hcfg Hlen Hpend Hr Hcase Hsum Hpos Hbuy Hsell.
  assert (Hlim : forall t', limit t' m' = limit t' m) by (intros; unfold limit; by rewrite Hcfg).
  split; [done|by rewrite Hcfg; apply Hok|done| | | | |].
  - intros t' Ht'. rewrite Hlim. by apply (ro_limit _ _ Hok).
  - intros key' v' Hv'. rewrite Hr in Hv'. destruct Hcase as [-> |(-> & Hv1 & Hv2)].
    + apply lookup_delete_Some in Hv' as [_ Hv']. by apply (ro_reservation _ _ Hok).
    + apply lookup_insert_Some in Hv' as [[<- <-]|[_ Hv']]; [done|].
      by apply (ro_reservation _ _ Hok).
  - intros s' t' Hs' Ht'. rewrite Hpend, (ro_pending _ _ Hok) by done. unfold reserved at 2.
    by rewrite Hr, Hsum.
  - intros t' Ht'. rewrite Hlim, Hpos, Hpend by (try done; by left).
    pose proof (ro_long _ _ Hok t' Ht'). destruct (decide (t' = key.1)) as [->|Hne].
    + destruct Hs as [-> | ->].
      * rewrite decide_True by done. destruct (Hbuy eq_refl). lia.
      * rewrite decide_False by naive_solver. destruct (Hsell eq_refl). lia.
    + rewrite decide_False by naive_solver. lia.
  - intros t' Ht'. rewrite Hlim, Hpos, Hpend by (try done; by right).
    pose proof (ro_short _ _ Hok t' Ht'). destruct (decide (t' = key.1)) as [->|Hne].
    + destruct Hs as [-> | ->].
      * rewrite decide_False by naive_solver. destruct (Hbuy eq_refl). lia.
      * rewrite decide_True by done. destruct (Hsell eq_refl). lia.
    + rewrite decide_False by naive_solver. lia.
Qed.

(** ** The operations *)
Lemma lookup_pend m k s t :
  risk_ok m k -> known_ticker t ->
  RiskManager.pending_array s m !! Z.to_nat t = Some (pend s t m).
Proof.
  intros Hok Ht. pose proof (ro_arrays _ _ Hok s). unfold known_ticker in Ht. unfold pend.
  destruct (lookup_lt_is_Some_2 (RiskManager.pending_array s m) (Z.to_nat t)) as [v ->]; [lia|done].
Qed.

Lemma lookup_limit m k t :
  risk_ok m k -> known_ticker t ->
  exists cfg, rk_cfg m !! Z.to_nat t = Some cfg /\ limit t m = max_position cfg.
Proof.
  intros Hok Ht. pose proof (ro_cfg _ _ Hok). unfold known_ticker in Ht. unfold limit.
  destruct (lookup_lt_is_Some_2 (rk_cfg m) (Z.to_nat t)) as [c ->]; [lia|]. by exists c.
Qed.

Lemma if_qty (b : bool) q : is_u32 q -> 0 <= (if b then q else 0) < 2 ^ 32.
Proof. unfold is_u32. destruct b; lia. Qed.

Lemma check_ok m k t s q :
  risk_ok m k -> 0 <= t -> is_u32 q ->
  exists r, RiskManager.checkPreTradeRisk t s q k m = Ok r /\
    (r = ALLOWED -> known_ticker t /\ tradable_side s /\ 0 < q <= INT32_MAX /\
       ticker_position k t + pend BUY t m + (if bool_decide (s = BUY) then q else 0) <= limit t m /\
       - limit t m <= ticker_position k t - (pend SELL t m + (if bool_decide (s = SELL) then q else 0)) /\
       exists p, k !! Z.to_nat t = Some p /\ isfinite (total_pnl p) = true).
Proof.
  intros Hok Ht0 Hq. unfold RiskManager.checkPreTradeRisk.
  destruct (Z.leb_spec ME_MAX_TICKERS t) as [E|E]; [by exists Risk_INVALID|].
  assert (Ht : known_ticker t) by done.
  destruct (lookup_limit _ _ _ Hok Ht) as (cfg & Hc & Hlim). rewrite Hc. cbn [deref mbind res_bind].
  destruct (at_ticker_ok k t (ro_keeper _ _ Hok) Ht) as (p & Hp & Hkp & _ & Hpos).
  unfold PositionKeeper.getPositionInfo. rewrite Hp. cbn [mbind res_bind].
  destruct (bool_decide_reflect (RiskInfo_checkPreTradeRisk s q p cfg = ALLOWED)) as [Hr|Hr];
    cbn [negb]; [|by eexists].
  change (rk_buy m) with (RiskManager.pending_array BUY m).
  change (rk_sell m) with (RiskManager.pending_array SELL m).
  rewrite !(lookup_pend m k) by done. cbn [deref mbind res_bind].
  destruct (risk_bounds _ _ t Hok Ht) as (Hpb & Hb & Hs'). pose proof (ro_limit _ _ Hok t Ht).
  pose proof (if_qty (bool_decide (s = BUY)) q Hq). pose proof (if_qty (bool_decide (s = SELL)) q Hq).
  rewrite !u64_small by lia. rewrite (i64_small (pend BUY t m + _)), (i64_small (pend SELL t m + _)) by lia.
  rewrite !i64_small by lia.
  destruct (max_position cfg <? _) eqn:E1; [by eexists|].
  destruct (_ <? - max_position cfg) eqn:E2; [by eexists|]. cbn [orb].
  destruct (isfinite (total_pnl p)) eqn:E3; cbn [negb]; [|by eexists].
  exists ALLOWED. split; [done|]. intros _. unfold RiskInfo_checkPreTradeRisk in Hr.
  destruct (negb (is_buy_or_sell s) || (q =? 0) || (INT32_MAX <? q)) eqn:E4; [done|].
  rewrite !orb_false_iff, negb_false_iff in E4. destruct E4 as [[Hsd Hq0] Hqm].
  split; [done|]. split.
  { unfold is_buy_or_sell in Hsd. destruct (bool_decide_reflect (s = BUY)); [by left|].
    destruct (bool_decide_reflect (s = SELL)); [by right|done]. }
  unfold is_u32 in Hq. split; [lia|]. split; [lia|]. split; [lia|]. eauto.
Qed.

Lemma sum_delete_share t' s' m key v :
  rk_reservations m !! key = Some v ->
  sum_of (share t' s') (delete key (rk_reservations m))
  = reserved t' s' m + if decide (s' = rv_side v /\ t' = key.1) then - rv_qty v else 0.
Proof.
  intros Hv. unfold reserved. rewrite (sum_of_delete _ key v _ Hv). unfold share at 2.
  destruct (Z.eqb_spec key.1 t') as [E|E], (bool_decide_reflect (rv_side v = s')) as [E'|E'];
    cbn [andb]; case_decide; naive_solver lia.
Qed.

Lemma sum_insert_share t' s' m key v w :
  rk_reservations m !! key = Some v -> rv_side w = rv_side v ->
  sum_of (share t' s') (<[key := w]> (rk_reservations m))
  = reserved t' s' m + if decide (s' = rv_side v /\ t' = key.1) then rv_qty w - rv_qty v else 0.
Proof.
  intros Hv Hs. unfold reserved. rewrite (sum_of_update _ key v w _ Hv). unfold share at 2 3.
  rewrite Hs.
  destruct (Z.eqb_spec key.1 t') as [E|E], (bool_decide_reflect (rv_side v = s')) as [E'|E'];
    cbn [andb]; case_decide; naive_solver lia.
Qed.

Lemma sum_fresh_share t' s' m key w :
  rk_reservations m !! key = None ->
  sum_of (share t' s') (<[key := w]> (rk_reservations m))
  = reserved t' s' m + if decide (s' = rv_side w /\ t' = key.1) then rv_qty w else 0.
Proof.
  intros Hv. unfold reserved. rewrite (sum_of_insert _ key w _ Hv). unfold share at 1.
  destruct (Z.eqb_spec key.1 t') as [E|E], (bool_decide_reflect (rv_side w = s')) as [E'|E'];
    cbn [andb]; case_decide; naive_solver lia.
Qed.

Lemma pend_with_reservations s t r m : pend s t (RiskManager.with_reservations r m) = pend s t m.
Proof. done. Qed.

Lemma add_pending_reservations s t d m rv :
  RiskManager.add_pending s t d (RiskManager.with_reservations rv m)
  = (m' ← RiskManager.add_pending s t d m; Ok (RiskManager.with_reservations rv m')).
Proof.
  unfold RiskManager.add_pending.
  change (RiskManager.pending_array s (RiskManager.with_reservations rv m))
    with (RiskManager.pending_array s m).
  destruct (RiskManager.pending_array s m !! Z.to_nat t); [|done]. cbn. by case_bool_decide.
Qed.

Lemma reserve_ok r m k :
  risk_ok m k -> 0 <= rq_ticker_id r -> is_u32 (rq_qty r) ->
  exists res m', RiskManager.reserve r k m = Ok (res, m') /\ risk_ok m' k /\
    (res <> ALLOWED -> m' = m) /\
    (rq_type r = NEW -> res = ALLOWED ->
       rk_reservations m !! RiskManager.request_key r = None /\
       rk_reservations m' = <[RiskManager.request_key r :=
         mkReservation (rq_side r) (rq_qty r) (rq_price r)]> (rk_reservations m)).
Proof.
  intros Hok Ht Hq. unfold RiskManager.reserve.
  case_bool_decide as Hn; cbn [negb]; [|by exists ALLOWED, m].
  case_bool_decide as Hd; [by exists Risk_INVALID, m|].
  assert (Hfresh : rk_reservations m !! RiskManager.request_key r = None)
    by (by apply eq_None_not_Some).
  destruct (check_ok m k (rq_ticker_id r) (rq_side r) (rq_qty r) Hok Ht Hq) as (chk & -> & Hal).
  cbn [mbind res_bind]. destruct (bool_decide_reflect (chk = ALLOWED)) as [Hr|Hr]; cbn [negb].
  2:{ exists chk, m. split; [done|]. split; [done|]. split; [done|]. intros _ HA. destruct (Hr HA). }
  destruct (Hal Hr) as (Hkt & Hs & Hqr & Hlong & Hshort & _).
  set (v := mkReservation _ _ _). set (rv' := <[_ := v]> _).
  destruct (add_pending_ok (rq_side r) (rq_ticker_id r) (rq_qty r) m k Hok Hs Hkt)
    as (m1 & Ha & Hc & Hrv & Hlen & Hp).
  { pose proof (pend_bound _ _ _ _ Hok Hs Hkt). unfold INT32_MAX in Hqr. lia. }
  assert (Ha' : RiskManager.add_pending (rq_side r) (rq_ticker_id r) (rq_qty r)
      (RiskManager.with_reservations rv' m) = Ok (RiskManager.with_reservations rv' m1)).
  { by rewrite add_pending_reservations, Ha. }
  rewrite Ha'. cbn [mbind res_bind]. eexists _, _. split; [done|]. split; [|by split].
  eapply (risk_ok_change m k _ k (RiskManager.request_key r) v rv' (rq_side r) (rq_qty r) 0);
    try done; [by apply Hok|by right|..].
  - intros s' t'. by apply sum_fresh_share.
  - intros t' _. destruct (decide (t' = _)); rewrite Z.add_0_r; done.
  - intros Es. rewrite bool_decide_true in Hlong by done. cbn. lia.
  - intros Es. rewrite bool_decide_true in Hshort by done. cbn. lia.
Qed.

(** Release of a whole reservation. *)
Lemma release_ok m k key v :
  risk_ok m k -> rk_reservations m !! key = Some v ->
  exists m', RiskManager.add_pending (rv_side v) key.1 (- rv_qty v) m = Ok m' /\
    risk_ok (RiskManager.with_reservations (delete key (rk_reservations m')) m') k /\
    rk_reservations m' = rk_reservations m.
Proof.
  intros Hok Hv. destruct (ro_reservation _ _ Hok _ _ Hv) as (Hs & Hq & Ht).
  pose proof (reservation_pending _ _ _ _ Hok Hv) as Hle.
  pose proof (pend_bound _ _ _ _ Hok Hs Ht) as Hb.
  destruct (add_pending_ok (rv_side v) key.1 (- rv_qty v) m k Hok Hs Ht) as (m1 & Ha & Hc & Hrv & Hlen & Hp);
    [lia|].
  exists m1. split; [done|]. split; [|done]. rewrite Hrv.
  eapply (risk_ok_change m k _ k key v _ (rv_side v) (- rv_qty v) 0); try done;
    [by apply Hok|by left|..].
  - intros s' t'. by apply sum_delete_share.
  - intros t' _. destruct (decide (t' = key.1)); by rewrite Z.add_0_r.
  - intros Es. pose proof (ro_long _ _ Hok _ Ht). rewrite Es in *. lia.
  - intros Es. pose proof (ro_short _ _ Hok _ Ht). rewrite Es in *. lia.
Qed.

Lemma rollback_ok r m k :
  risk_ok m k -> exists m', RiskManager.rollback r m = Ok m' /\ risk_ok m' k.
Proof.
  intros Hok. unfold RiskManager.rollback. destruct (negb _); [by exists m|].
  destruct (rk_reservations m !! RiskManager.request_key r) as [v|] eqn:Hv; [|by exists m].
  destruct (release_ok _ _ _ _ Hok Hv) as (m1 & Ha & Hok1 & Hrv).
  change (rq_ticker_id r) with (RiskManager.request_key r).1.
  rewrite Ha. cbn [mbind res_bind]. eauto.
Qed.

(** The position that a matched fill leads to. *)
Lemma fill_ok r m k v :
  risk_ok m k -> rk_reservations m !! (rs_ticker_id r, rs_client_order_id r) = Some v ->
  rs_side r = rv_side v -> 0 < rs_exec_qty r <= rv_qty v ->
  rs_leaves_qty r = rv_qty v - rs_exec_qty r ->
  exists m' k', RiskManager.add_pending (rv_side v) (rs_ticker_id r) (- rs_exec_qty r) m = Ok m' /\
    PositionKeeper.addFill r k = Ok k' /\
    risk_ok (RiskManager.with_reservations
      (if rs_leaves_qty r =? 0 then delete (rs_ticker_id r, rs_client_order_id r) (rk_reservations m')
       else <[(rs_ticker_id r, rs_client_order_id r) := mkReservation (rv_side v) (rs_leaves_qty r) (rv_price v)]>
              (rk_reservations m')) m') k'.
Proof.
  intros Hok Hv Hside Hex Hlv. set (key := (rs_ticker_id r, rs_client_order_id r)) in *.
  destruct (ro_reservation _ _ Hok _ _ Hv) as (Hs & Hq & Ht).
  pose proof (reservation_pending _ _ _ _ Hok Hv) as Hle.
  pose proof (pend_bound _ _ _ _ Hok Hs Ht) as Hb. pose proof (risk_bounds _ _ _ Hok Ht) as (Hpos & _).
  pose proof (ro_limit _ _ Hok _ Ht) as Hlim.
  destruct (add_pending_ok (rv_side v) key.1 (- rs_exec_qty r) m k Hok Hs Ht)
    as (m1 & Ha & Hc & Hrv & Hlen & Hp); [lia|].
  destruct (keeper_addFill_ok r k (ro_keeper _ _ Hok)) as (k1 & Hk & Hk1 & Hpk);
    [by rewrite Hside|exact Ht|].
  exists m1, k1. split; [exact Ha|]. split; [done|]. rewrite Hrv.
  assert (He : signed_qty r = rs_exec_qty r /\ rv_side v = BUY \/
               signed_qty r = - rs_exec_qty r /\ rv_side v = SELL).
  { unfold signed_qty. rewrite Hside. destruct Hs as [-> | ->]; [left|right]; (split; [cbn; lia|done]). }
  set (w := mkReservation (rv_side v) (rs_leaves_qty r) (rv_price v)).
  eapply (risk_ok_change m k _ k1 key w _ (rv_side v) (- rs_exec_qty r) (signed_qty r)); try done.
  - destruct (Z.eqb_spec (rs_leaves_qty r) 0); [by left|right]. split; [done|]. split; [done|].
    cbn. lia.
  - intros s' t'. destruct (Z.eqb_spec (rs_leaves_qty r) 0) as [E|E].
    + rewrite (sum_delete_share _ _ _ _ _ Hv). replace (rs_exec_qty r) with (rv_qty v) by lia. done.
    + rewrite (sum_insert_share _ _ _ _ _ w Hv) by done. cbn [w rv_qty].
      replace (rs_leaves_qty r - rv_qty v) with (- rs_exec_qty r) by lia. done.
  - intros t' Ht'. rewrite Hpk by exact Ht'. change (rs_ticker_id r) with key.1.
    destruct (decide (key.1 = t')) as [<-|Hne]; [rewrite decide_True by done|rewrite decide_False by congruence; lia].
    unfold INT32_MAX in Hq. rewrite i64_small by lia. lia.
  - intros Es. pose proof (ro_long _ _ Hok _ Ht). destruct He as [[-> _]|[_ E]]; [lia|congruence].
  - intros Es. pose proof (ro_short _ _ Hok _ Ht). destruct He as [[_ E]|[-> _]]; [congruence|lia].
Qed.

(** [TradeEngine::onOrderUpdate] adds the fill after [onResponse]. *)
Definition fill_of (r : MEClientResponse) (k : PositionKeeper) : res PositionKeeper :=
  if bool_decide (rs_type r = FILLED) then PositionKeeper.addFill r k else Ok k.

Lemma fill_of_other r k : rs_type r <> FILLED -> fill_of r k = Ok k.
Proof. intros H. unfold fill_of. by rewrite bool_decide_false. Qed.

Lemma response_ok r m k :
  risk_ok m k -> 0 <= rs_ticker_id r -> is_u32 (rs_exec_qty r) -> is_u32 (rs_leaves_qty r) ->
  exists b m', RiskManager.onResponse r m = Ok (b, m') /\
    (b = false -> m' = m) /\
    (b = true -> exists k', fill_of r k = Ok k' /\ risk_ok m' k').
Proof.
  intros Hok Ht Hex Hlv. unfold RiskManager.onResponse.
  destruct (Z.leb_spec ME_MAX_TICKERS (rs_ticker_id r)); [by exists false, m|].
  destruct (rk_reservations m !! _) as [v|] eqn:Hv.
  2:{ destruct (bool_decide_reflect (rs_type r = FILLED)) as [E|E]; [by exists false, m|].
      exists true, m. rewrite fill_of_other by done. eauto. }
  pose proof (release_ok _ _ _ _ Hok Hv) as (m1 & Ha & Hok1 & _). cbn [fst] in Ha.
  destruct (rs_type r) eqn:Ety; try (rewrite fill_of_other by congruence; exists true, m; by eauto).
  - rewrite fill_of_other by congruence. rewrite Ha. cbn [mbind res_bind]. eexists _, _. split; [done|]. split; [done|]. eauto.
  - destruct (negb (bool_decide (rs_side r = rv_side v)) || _ || _ || _) eqn:E; [by exists false, m|].
    rewrite !orb_false_iff, !negb_false_iff in E. destruct E as [[[E1 E2] E3] E4].
    apply bool_decide_eq_true in E1. unfold is_u32 in *. rewrite u64_small in E4 by lia.
    destruct (fill_ok r m k v Hok Hv E1) as (m2 & k2 & Ha2 & Hk2 & Hok2); [lia..|].
    rewrite Ha2. cbn [mbind res_bind]. eexists _, _. split; [done|]. split; [done|]. intros _.
    exists k2. unfold fill_of. rewrite bool_decide_true by done. split; [done|].
    exact Hok2.
  - rewrite fill_of_other by congruence. eexists _, m. split; [done|]. split; [done|]. eauto.
  - rewrite fill_of_other by congruence. case_bool_decide; [by exists false, m|]. rewrite Ha. cbn [mbind res_bind].
    eexists _, _. split; [done|]. split; [done|]. eauto.
Qed.

(** ** The trading loop as seen by the risk manager *)
Definition RiskState : Type := RiskManager * PositionKeeper.

Inductive risk_step : RiskState -> RiskState -> Prop :=
  | rs_reserve r chk m k m' :
      0 <= rq_ticker_id r -> is_u32 (rq_qty r) ->
      RiskManager.reserve r k m = Ok (chk, m') -> risk_step (m, k) (m', k)
  | rs_rollback r m k m' : RiskManager.rollback r m = Ok m' -> risk_step (m, k) (m', k)
  | rs_matched r m k m' k' :
      0 <= rs_ticker_id r -> is_u32 (rs_exec_qty r) -> is_u32 (rs_leaves_qty r) ->
      RiskManager.onResponse r m = Ok (true, m') -> fill_of r k = Ok k' ->
      risk_step (m, k) (m', k')
  | rs_mismatch r m k m' :
      0 <= rs_ticker_id r -> is_u32 (rs_exec_qty r) -> is_u32 (rs_leaves_qty r) ->
      RiskManager.onResponse r m = Ok (false, m') -> risk_step (m, k) (m', k)
  | rs_quote t b m k k' :
      0 <= t -> PositionKeeper.updateBBO t b k = Ok k' -> risk_step (m, k) (m, k').

Inductive risk_reachable (st0 : RiskState) : RiskState -> Prop :=
  | rr_refl : risk_reachable st0 st0
  | rr_step st st' : risk_reachable st0 st -> risk_step st st' -> risk_reachable st0 st'.

Lemma updateBBO_ok t b k k' :
  keeper_ok k -> 0 <= t -> PositionKeeper.updateBBO t b k = Ok k' ->
  keeper_ok k' /\ forall t', known_ticker t' -> ticker_position k' t' = ticker_position k t'.
Proof.
  intros Hk Ht H. unfold PositionKeeper.updateBBO in H. res_inv.
  unfold PositionKeeper.at_ticker in H0. destruct (k !! Z.to_nat t) as [p|] eqn:Ep; [|done].
  injection H0 as <-.
  assert (Hr : known_ticker t).
  { apply lookup_lt_Some in Ep. rewrite (ko_length _ Hk) in Ep. unfold known_ticker. lia. }
  assert (Hsame : position x0 = position p /\ open_vwap x0 = open_vwap p).
  { unfold PositionInfo.updateBBO in H1. case_match; [|by injection H1 as <-]. by res_inv. }
  destruct Hsame as [Hsp Hsv]. split.
  - apply keeper_insert_ok; [done|]. rewrite Hsv. by apply Hk, (list_elem_of_lookup_2 _ (Z.to_nat t)).
  - intros t' Ht'. rewrite ticker_position_insert by done. case_decide as E; [|done].
    subst t'. unfold ticker_position. by rewrite Ep.
Qed.

Lemma risk_step_ok st st' :
  risk_step st st' -> risk_ok st.1 st.2 -> risk_ok st'.1 st'.2.
Proof.
  intros Hstep Hok. destruct Hstep as [r chk m k m' Ht Hq H|r m k m' H|r m k m' k' Ht Hx Hl H Hf
    |r m k m' Ht Hx Hl H|t b m k k' Ht H]; cbn [fst snd] in *.
  - destruct (reserve_ok r m k Hok Ht Hq) as (c & m1 & E & H1 & _). congruence.
  - destruct (rollback_ok r m k Hok) as (m1 & E & H1). congruence.
  - destruct (response_ok r m k Hok Ht Hx Hl) as (b & m1 & E & _ & H1).
    rewrite H in E. injection E as <- <-. destruct (H1 eq_refl) as (k1 & E & H2). congruence.
  - destruct (response_ok r m k Hok Ht Hx Hl) as (b & m1 & E & H1 & _).
    rewrite H in E. injection E as <- <-. by rewrite (H1 eq_refl).
  - destruct (updateBBO_ok t b k k' (ro_keeper _ _ Hok) Ht H) as [Hk Hp].
    destruct Hok. split; try done; intros t' Ht'; rewrite Hp by done; auto.
Qed.

(** The limits never change. *)
Lemma add_pending_cfg s t d m m' : RiskManager.add_pending s t d m = Ok m' -> rk_cfg m' = rk_cfg m.
Proof. intros H. unfold RiskManager.add_pending in H. res_inv. by case_bool_decide. Qed.

Ltac same_cfg :=
  repeat (case_match; res_inv; simplify_eq/=; try done);
  cbn [RiskManager.with_reservations rk_cfg];
  repeat match goal with H : RiskManager.add_pending _ _ _ _ = Ok _ |- _ =>
    apply add_pending_cfg in H; cbn [RiskManager.with_reservations rk_cfg] in H end;
  congruence.

Lemma risk_step_cfg st st' : risk_step st st' -> rk_cfg st'.1 = rk_cfg st.1.
Proof.
  intros Hstep. destruct Hstep as [r chk m k m' _ _ H|r m k m' H|r m k m' k' _ _ _ H _
    |r m k m' _ _ _ H|t b m k k' _ _]; cbn [fst]; [| | | |done].
  - unfold RiskManager.reserve in H. same_cfg.
  - unfold RiskManager.rollback in H. same_cfg.
  - unfold RiskManager.onResponse in H. same_cfg.
  - unfold RiskManager.onResponse in H. same_cfg.
Qed.

(** Limits of a configuration. *)
Definition cfg_ok (cfg : list TradeEngineCfg) : Prop :=
  length cfg = Z.to_nat ME_MAX_TICKERS /\ Forall (λ c, is_u32 (max_position (risk_cfg c))) cfg.

Lemma risk_make_ok cfg : cfg_ok cfg -> risk_ok (RiskManager.make cfg) PositionKeeper.make.
Proof.
  intros [Hl Hc].
  assert (Hpend : forall s t, pend s t (RiskManager.make cfg) = 0).
  { intros s t. unfold pend.
    replace (RiskManager.pending_array s (RiskManager.make cfg))
      with (replicate (Z.to_nat ME_MAX_TICKERS) 0)
      by (unfold RiskManager.pending_array; by case_bool_decide).
    destruct (replicate _ _ !! _) as [v|] eqn:Ev; [|done].
    by apply lookup_replicate in Ev as [-> _]. }
  assert (Hpos : forall t, ticker_position PositionKeeper.make t = 0).
  { intros t. unfold ticker_position. destruct (PositionKeeper.make !! Z.to_nat t) as [p|] eqn:Ep; [|done].
    by apply lookup_replicate in Ep as [-> _]. }
  assert (Hlim : forall t, known_ticker t -> 0 <= limit t (RiskManager.make cfg) < 2 ^ 32).
  { intros t Ht. unfold limit. cbn [RiskManager.make rk_cfg]. rewrite list_lookup_fmap.
    destruct (cfg !! Z.to_nat t) as [c|] eqn:Ec; [|cbn; lia]. cbn.
    rewrite Forall_forall in Hc. apply (Hc c). by apply (list_elem_of_lookup_2 _ (Z.to_nat t)). }
  split; try done.
  - apply keeper_make_ok.
  - cbn. by rewrite length_fmap.
  - intros s. unfold RiskManager.pending_array. by case_bool_decide.
  - intros t Ht. rewrite Hpend, Hpos. specialize (Hlim t Ht). lia.
  - intros t Ht. rewrite Hpend, Hpos. specialize (Hlim t Ht). lia.
Qed.

Lemma risk_reachable_ok cfg st :
  cfg_ok cfg -> risk_reachable (RiskManager.make cfg, PositionKeeper.make) st ->
  risk_ok st.1 st.2 /\ rk_cfg st.1 = rk_cfg (RiskManager.make cfg).
Proof.
  intros Hcfg. induction 1 as [|st st' _ [IH1 IH2] Hstep]; [split; [by apply risk_make_ok|done]|].
  split; [by eapply risk_step_ok|]. by rewrite (risk_step_cfg _ _ Hstep).
Qed.

(** C13: whatever requests are reserved or rolled back and whatever the
    exchange answers, in any order, the position of every ticker stays within
    its configured limit, and would stay there if every pending order of
    either side were filled. *)
Theorem positions_within_limits cfg m k t :
  cfg_ok cfg -> risk_reachable (RiskManager.make cfg, PositionKeeper.make) (m, k) ->
  known_ticker t ->
  let max := limit t m in
  limit t m = limit t (RiskManager.make cfg) /\
  - max <= ticker_position k t <= max /\
  ticker_position k t + pend BUY t m <= max /\ - max <= ticker_position k t - pend SELL t m /\
  pend BUY t m = reserved t BUY m /\ pend SELL t m = reserved t SELL m.
Proof.
  intros Hcfg Hreach Ht max.
  pose proof (risk_reachable_ok cfg (m, k) Hcfg Hreach) as Hinv. cbn [fst snd] in Hinv.
  destruct Hinv as [Hok Hc]. split; [unfold limit; by rewrite Hc|].
  destruct (risk_bounds _ _ t Hok Ht) as (Hp & _). split; [exact Hp|].
  split; [by apply (ro_long _ _ Hok)|]. split; [by apply (ro_short _ _ Hok)|].
  split; apply (ro_pending _ _ Hok); try done; [by left|by right].
Qed.

Definition demo_cfg : list TradeEngineCfg :=
  replicate (Z.to_nat ME_MAX_TICKERS) (mkCfg 10 (d_of_Z 0) (mkRiskCfg 100 15 (d_of_Z (-1000)))).

Definition demo_new (id qty : Z) : MEClientRequest := mkRequest NEW 1 0 id BUY 100 qty 0 0.

(** The second order of 10 would exceed the limit of 15 and is refused; the
    first is filled. *)
Lemma positions_within_limits_witness :
  exists m k, risk_reachable (RiskManager.make demo_cfg, PositionKeeper.make) (m, k) /\
    ticker_position k 0 = 10 /\ - limit 0 m <= ticker_position k 0 <= limit 0 m.
Proof.
  assert (H : exists m1 m2 k2,
    RiskManager.reserve (demo_new 1 10) PositionKeeper.make (RiskManager.make demo_cfg) = Ok (ALLOWED, m1) /\
    RiskManager.reserve (demo_new 2 10) PositionKeeper.make m1 = Ok (POSITION_TOO_LARGE, m1) /\
    RiskManager.onResponse (demo_fill BUY 100 10) m1 = Ok (true, m2) /\
    fill_of (demo_fill BUY 100 10) PositionKeeper.make = Ok k2 /\ ticker_position k2 0 = 10).
  { eexists _, _, _. split; [vm_compute; reflexivity|]. split; [vm_compute; reflexivity|].
    split; [vm_compute; reflexivity|]. split; vm_compute; reflexivity. }
  destruct H as (m1 & m2 & k2 & H1 & H2 & H3 & H4 & Hp).
  assert (Hr : risk_reachable (RiskManager.make demo_cfg, PositionKeeper.make) (m2, k2)).
  { eapply rr_step; [eapply rr_step; [apply rr_refl|]|].
    - eapply rs_reserve; [| |exact H1]; cbn; unfold is_u32; lia.
    - eapply rs_matched; [| | |exact H3|exact H4]; cbn; unfold is_u32; lia. }
  exists m2, k2. split; [exact Hr|]. split; [exact Hp|].
  eapply (positions_within_limits demo_cfg m2 k2 0); [|exact Hr|unfold known_ticker, ME_MAX_TICKERS; lia].
  split; [reflexivity|]. apply Forall_forall. intros c Hc. apply elem_of_replicate in Hc as [-> _].
  unfold is_u32. cbn. lia.
Defined.
