(* ===== verification/ClientBook.v ===== *)
(** The order book of the trading side: trading/strategy/market_order.h and
    trading/strategy/market_order_book.{h,cpp}.

    The pointer structures are those of [PriceLevels].  The array of order
    pointers is a map from order ids to blocks of the order pool.  The calls
    back into the trade engine are returned as a value: which callback
    [onMarketUpdate] makes before it returns true. *)
From S2P Require Import Prelude.
From S2P Require Import Types.
From S2P Require Import MemPool.
From S2P Require Import Ring.
From S2P Require Import PriceLevels.
From S2P Require Import LevelsView.
From S2P Require Import TradingTypes.
From S2P Require Import Snapshot.
From stdpp Require Import functions base gmap list sorting.
From Stdlib Require Import ZArith Lia.

Local Open Scope Z_scope.

(** [struct MarketOrder]. *)
Record MarketOrder : Type := mkMarketOrder {
  mo_order_id : Z;
  mo_side : Side;
  mo_price : Z;
  mo_qty : Z;
  mo_priority : Z;
  mo_prev : option Z;
  mo_next : option Z
}.

Definition set_mo_qty (q : Z) (o : MarketOrder) : MarketOrder :=
  mkMarketOrder (mo_order_id o) (mo_side o) (mo_price o) q (mo_priority o) (mo_prev o) (mo_next o).
Definition set_mo_links (p n : option Z) (o : MarketOrder) : MarketOrder :=
  mkMarketOrder (mo_order_id o) (mo_side o) (mo_price o) (mo_qty o) (mo_priority o) p n.

#[export] Instance market_order_linked : Linked MarketOrder.
Proof.
  refine {|
    nprev := mo_prev;
    nnext := mo_next;
    set_nprev p o := set_mo_links p (mo_next o) o;
    set_nnext n o := set_mo_links (mo_prev o) n o
  |}; reflexivity.
Defined.

#[export] Instance market_book_order : BookOrder MarketOrder.
Proof. refine {| bo_side := mo_side; bo_price := mo_price |}; reflexivity. Defined.

(** [class MarketOrderBook]. *)
Record MarketOrderBook : Type := mkClientBook {
  cb_ticker_id : Z;
  cb_levels : Levels MarketOrder;
  cb_orders : gmap Z Z;            (* oid_to_order_, non-null entries *)
  cb_live : gset Z;                (* live_order_ids_ *)
  cb_bbo : BBO
}.

(** The callback made by [onMarketUpdate]. *)
Inductive BookCallback : Type :=
  | NoCallback
  | CallTradeUpdate
  | CallBookUpdate.

(** Order of the keys of the price index. *)
Definition price_key_le (a b : (Side * Z) * Z) : Prop :=
  Side_to_Z a.1.1 < Side_to_Z b.1.1 \/ (Side_to_Z a.1.1 = Side_to_Z b.1.1 /\ a.1.2 <= b.1.2).
#[export] Instance price_key_le_dec a b : Decision (price_key_le a b).
Proof. unfold price_key_le. apply _. Defined.

Module MarketOrderBook.

Definition with_levels (l : Levels MarketOrder) (b : MarketOrderBook) : MarketOrderBook :=
  mkClientBook (cb_ticker_id b) l (cb_orders b) (cb_live b) (cb_bbo b).
Definition with_orders (m : gmap Z Z) (live : gset Z) (b : MarketOrderBook) : MarketOrderBook :=
  mkClientBook (cb_ticker_id b) (cb_levels b) m live (cb_bbo b).
Definition with_bbo (q : BBO) (b : MarketOrderBook) : MarketOrderBook :=
  mkClientBook (cb_ticker_id b) (cb_levels b) (cb_orders b) (cb_live b) q.

Definition make_sized (ticker_id orders levels : Z) : option MarketOrderBook :=
  order_pool ← @pool_new MarketOrder orders;
  orders_at_price_pool ← @pool_new Level levels;
  Some (mkClientBook ticker_id (mkLevels order_pool orders_at_price_pool ∅ None None) ∅ ∅ default_BBO).
Definition make (ticker_id : Z) : option MarketOrderBook :=
  make_sized ticker_id ME_MAX_ORDER_IDS ME_MAX_PRICE_LEVELS.

(** [oid_to_order_.at(id)]. *)
Definition at_id (id : Z) : res () := ASSERT ((0 <=? id) && (id <? ME_MAX_ORDER_IDS)).

(** The price levels: the pointer code of [PriceLevels] on the members of this
    book. *)
Definition getOrdersAtPrice (price : Z) (side : Side) (b : MarketOrderBook) : option Z :=
  PriceLevels.getOrdersAtPrice price side (cb_levels b).

Definition addOrdersAtPrice (level : Z) (b : MarketOrderBook) : res MarketOrderBook :=
  l ← PriceLevels.addOrdersAtPrice level (cb_levels b);
  Ok (with_levels l b).

Definition removeOrdersAtPrice (side : Side) (price : Z) (b : MarketOrderBook) : res MarketOrderBook :=
  l ← PriceLevels.removeOrdersAtPrice side price (cb_levels b);
  Ok (with_levels l b).

(** The removal of an order from the queue of its level. *)
Definition remove_from_level (order : Z) (b : MarketOrderBook) : res MarketOrderBook :=
  x ← load (lv_orders (cb_levels b)) order;
  let orders_at_price := getOrdersAtPrice (mo_price x) (mo_side x) b in
  if bool_decide (mo_prev x = Some order) then removeOrdersAtPrice (mo_side x) (mo_price x) b else
  let order_after := mo_next x in
  p ← unlink order (lv_orders (cb_levels b));
  let l := set_orders p (cb_levels b) in
  level ← deref orders_at_price;
  v ← load (lv_levels l) level;
  l ← (if bool_decide (lv_first v = Some order)
       then q ← store level (set_lv_first order_after) (lv_levels l); Ok (set_levels q l)
       else Ok l);
  p ← clear_links order (lv_orders l);
  Ok (with_levels (set_orders p l) b).

Definition removeOrder (order : Z) (b : MarketOrderBook) : res MarketOrderBook :=
  b ← remove_from_level order b;
  x ← load (lv_orders (cb_levels b)) order;
  _ ← at_id (mo_order_id x);
  p ← deallocate order (lv_orders (cb_levels b));
  Ok (with_orders (delete (mo_order_id x) (cb_orders b)) (cb_live b ∖ {[mo_order_id x]})
        (with_levels (set_orders p (cb_levels b)) b)).

(** The insertion of an order into a level, a new one if need be. *)
Definition add_to_level (order : Z) (b : MarketOrderBook) : res MarketOrderBook :=
  x ← load (lv_orders (cb_levels b)) order;
  match getOrdersAtPrice (mo_price x) (mo_side x) b with
  | None =>
      p ← store order (set_nprev (Some order)) (lv_orders (cb_levels b));
      p ← store order (set_nnext (Some order)) p;
      let '(new_orders_at_price, q) :=
        allocate (mkLevel (mo_side x) (mo_price x) (Some order) None None) (lv_levels (cb_levels b)) in
      level ← deref new_orders_at_price;
      addOrdersAtPrice level (with_levels (set_levels q (set_orders p (cb_levels b))) b)
  | Some orders_at_price =>
      v ← load (lv_levels (cb_levels b)) orders_at_price;
      first_order ← deref (lv_first v);
      p ← push_order first_order order (lv_orders (cb_levels b));
      Ok (with_levels (set_orders p (cb_levels b)) b)
  end.

Definition addOrder (order : Z) (b : MarketOrderBook) : res MarketOrderBook :=
  b ← add_to_level order b;
  x ← load (lv_orders (cb_levels b)) order;
  _ ← at_id (mo_order_id x);
  Ok (with_orders (<[mo_order_id x := order]> (cb_orders b)) (cb_live b ∪ {[mo_order_id x]}) b).

(** The loop over the ring of the best level, from the second order on. *)
Fixpoint ring_qty (fuel : nat) (pool : MemPool MarketOrder) (first order : Z) (qty : Z) : res Z :=
  match fuel with
  | O => Err NoFuel
  | S fuel =>
      if bool_decide (order = first) then Ok qty else
      x ← load pool order;
      next ← deref (mo_next x);
      ring_qty fuel pool first next (u64 (qty + mo_qty x))
  end.

Definition best_quote (s : Side) (l : Levels MarketOrder) : res (Z * Z) :=
  match best s l with
  | None => Ok (Price_INVALID, BookQty_INVALID)
  | Some level =>
      v ← load (lv_levels l) level;
      first ← deref (lv_first v);
      x ← load (lv_orders l) first;
      next ← deref (mo_next x);
      qty ← ring_qty (S (size (pool_blocks (lv_orders l)))) (lv_orders l) first next (mo_qty x);
      Ok (lv_price v, qty)
  end.

Definition updateBBO (update_bid update_ask : bool) (b : MarketOrderBook) : res MarketOrderBook :=
  b ← (if update_bid then
         '(p, q) ← best_quote BUY (cb_levels b);
         Ok (with_bbo (mkBBO p (ask_price (cb_bbo b)) q (ask_qty (cb_bbo b))) b)
       else Ok b);
  if update_ask then
    '(p, q) ← best_quote SELL (cb_levels b);
    Ok (with_bbo (mkBBO (bid_price (cb_bbo b)) p (bid_qty (cb_bbo b)) q) b)
  else Ok b.

(** The checks at the head of [onMarketUpdate]; [false]: the update is refused. *)
Definition check_update (u : MEMarketUpdate) (b : MarketOrderBook) : res bool :=
  if negb (mu_ticker_id u =? cb_ticker_id b) then Ok false else
  if negb (SnapshotSynthesizer.names_order (mu_type u)) then Ok true else
  if (mu_order_id u =? 0) || (ME_MAX_ORDER_IDS <=? mu_order_id u) then Ok false else
  let existing := cb_orders b !! mu_order_id u in
  if bool_decide (mu_type u = MD_ADD) then
    Ok (negb (bool_decide (is_Some existing)
        || (pool_available (lv_orders (cb_levels b)) =? 0)
        || negb (is_buy_or_sell (mu_side u))
        || (mu_price u <=? 0) || (mu_price u =? Price_INVALID)
        || (mu_qty u =? 0) || (mu_qty u =? Qty_INVALID)
        || (bool_decide (getOrdersAtPrice (mu_price u) (mu_side u) b = None)
            && (pool_available (lv_levels (cb_levels b)) =? 0))))
  else
    match existing with
    | None => Ok false
    | Some order =>
        x ← load (lv_orders (cb_levels b)) order;
        Ok (negb (negb (bool_decide (mo_side x = mu_side u)) || negb (mo_price x =? mu_price u)
            || (bool_decide (mu_type u = MD_MODIFY)
                && ((mu_qty u =? 0) || (mu_qty u =? Qty_INVALID)))))
    end.

(** CLEAR: every order, then every level, goes back to its pool. *)
Definition clear (b : MarketOrderBook) : res MarketOrderBook :=
  let l := cb_levels b in
  p ← res_fold (λ p order, deallocate order p) (merge_sort id_le (map_to_list (cb_orders b))).*2
        (lv_orders l);
  q ← res_fold (λ q level, deallocate level q) (merge_sort price_key_le (map_to_list (lv_index l))).*2
        (lv_levels l);
  Ok (mkClientBook (cb_ticker_id b) (mkLevels p q ∅ None None) ∅ ∅ (cb_bbo b)).

(** The switch of [onMarketUpdate], TRADE excepted. *)
Definition apply (u : MEMarketUpdate) (b : MarketOrderBook) : res MarketOrderBook :=
  match mu_type u with
  | MD_ADD =>
      let '(order, p) := allocate (mkMarketOrder (mu_order_id u) (mu_side u) (mu_price u) (mu_qty u)
        (mu_priority u) None None) (lv_orders (cb_levels b)) in
      order ← deref order;
      addOrder order (with_levels (set_orders p (cb_levels b)) b)
  | MD_MODIFY =>
      order ← deref (cb_orders b !! mu_order_id u);
      p ← store order (set_mo_qty (mu_qty u)) (lv_orders (cb_levels b));
      Ok (with_levels (set_orders p (cb_levels b)) b)
  | MD_CANCEL =>
      order ← deref (cb_orders b !! mu_order_id u);
      removeOrder order b
  | MD_CLEAR => clear b
  | _ => Ok b
  end.

Definition onMarketUpdate (u : MEMarketUpdate) (b : MarketOrderBook) :
    res (bool * BookCallback * MarketOrderBook) :=
  ok ← check_update u b;
  if negb ok then Ok (false, NoCallback, b) else
  if bool_decide (mu_type u = MD_TRADE) then Ok (true, CallTradeUpdate, b) else
  b ← apply u b;
  b ← updateBBO true true b;
  Ok (true, CallBookUpdate, b).

Definition live_order (b : MarketOrderBook) (id : Z) : res MEMarketUpdate :=
  order ← deref (cb_orders b !! id);
  x ← load (lv_orders (cb_levels b)) order;
  Ok (mkUpdate MD_ADD (mo_order_id x) (cb_ticker_id b) (mo_side x) (mo_price x) (mo_qty x)
        (mo_priority x)).

Definition liveOrders (b : MarketOrderBook) : res (list MEMarketUpdate) :=
  res_fold (λ result id, u ← live_order b id; Ok (result ++ [u]))
    (merge_sort Z.le (elements (cb_live b))) [].

Definition getBBO (b : MarketOrderBook) : BBO := cb_bbo b.

End MarketOrderBook.
