(* ===== verification/ClientBookSpec.v ===== *)
(** The client's order book implements the public book.

    [client_ok b m G]: the book [b] is well-formed (its levels are those of
    [G]) and holds exactly the orders of the view [m].  The theorems at the end
    compose the book with the exchange: following the published updates gives
    the exchange's live orders and the checksum of its snapshots. *)
From S2P Require Import Prelude.
From S2P Require Import Types.
From S2P Require Import MemPool.
From S2P Require Import Ring.
From S2P Require Import PriceLevels.
From S2P Require Import LevelsView.
From S2P Require Import MatchBook.
From S2P Require Import BookSpec.
From S2P Require Import BookRefinement.
From S2P Require Import BookInvariant.
From S2P Require Import BookTheorems.
From S2P Require Import MarketView.
From S2P Require Import MapSum.
From S2P Require Import TradingTypes.
From S2P Require Import McastSocket.
From S2P Require Import Snapshot.
From S2P Require Import ClientBook.
From stdpp Require Import functions base gmap list sorting.
From Stdlib Require Import ZArith Lia.

Local Open Scope Z_scope.

Abbreviation cblocks b := (pool_blocks (lv_orders (cb_levels b))).

(** The public image of an order of the book of ticker [t]. *)
Definition order_of (t : Z) (x : MarketOrder) : MEMarketUpdate :=
  mkUpdate MD_ADD (mo_order_id x) t (mo_side x) (mo_price x) (mo_qty x) (mo_priority x).

Definition image (b : MarketOrderBook) (id : Z) : option MEMarketUpdate :=
  p ← cb_orders b !! id; x ← data (cblocks b) p; Some (order_of (cb_ticker_id b) x).

Section Client.
(** The ticker and the capacities of the two pools. *)
Context (tk orders levels : Z).

Record client_ok (b : MarketOrderBook) (m : View) (G : Side -> list GLevel) : Prop := {
  co_levels : levels_ok (cb_levels b) G None;
  co_index id p : cb_orders b !! id = Some p <->
    exists x, data (cblocks b) p = Some x /\ mo_order_id x = id;
  co_live id : id ∈ cb_live b <-> is_Some (cb_orders b !! id);
  co_view id : m !! id = image b id;
  co_ids id : is_Some (cb_orders b !! id) -> 0 < id < ME_MAX_ORDER_IDS;
  co_qty p x : data (cblocks b) p = Some x -> is_u32 (mo_qty x);
  co_ticker : cb_ticker_id b = tk;
  co_order_capacity : pool_capacity (lv_orders (cb_levels b)) = orders;
  co_level_capacity : pool_capacity (lv_levels (cb_levels b)) = levels
}.

(** What an update does to a subscriber's view, snapshot events included. *)
Definition client_update (u : MEMarketUpdate) (m : View) : option View :=
  match mu_type u with
  | MD_ADD | MD_MODIFY | MD_CANCEL => apply_update u m
  | MD_CLEAR => Some ∅
  | _ => Some m
  end.

(** The pools can hold the order that an ADD brings. *)
Definition has_room (u : MEMarketUpdate) (b : MarketOrderBook) : Prop :=
  0 < pool_available (lv_orders (cb_levels b)) /\
  (getOrdersAtPrice (mu_price u) (mu_side u) (cb_levels b) = None ->
   0 < pool_available (lv_levels (cb_levels b))).

(** ** Lemmas *)
Lemma strip_fields (x y : MarketOrder) :
  strip x = strip y -> mo_order_id x = mo_order_id y /\ mo_side x = mo_side y /\
    mo_price x = mo_price y /\ mo_qty x = mo_qty y /\ mo_priority x = mo_priority y.
Proof. destruct x, y. cbn. by intros [= -> -> -> -> ->]. Qed.

Lemma strip_id (x : MarketOrder) : mo_order_id (strip x) = mo_order_id x.
Proof. done. Qed.

(** The order under an id, and what the book says of it. *)
Lemma client_lookup b m G id u :
  client_ok b m G -> m !! id = Some u ->
  exists p x, cb_orders b !! id = Some p /\ cblocks b !! p = Some x /\
    u = order_of (cb_ticker_id b) x /\ mo_order_id x = id.
Proof.
  intros Hok Hm. rewrite (co_view _ _ _ Hok) in Hm. unfold image in Hm.
  destruct (cb_orders b !! id) as [p|] eqn:Ep; [|done]. cbn in Hm.
  destruct (data (cblocks b) p) as [d|] eqn:Ed; [|done]. injection Hm as <-.
  pose proof Ep as (d' & Hd' & Hid)%(co_index _ _ _ Hok). rewrite Ed in Hd'. injection Hd' as <-.
  apply data_lookup in Ed as (x & Hx & <-). exists p, x. by rewrite <- Hid.
Qed.

Lemma client_absent b m G id :
  client_ok b m G -> m !! id = None -> cb_orders b !! id = None.
Proof.
  intros Hok Hm. rewrite (co_view _ _ _ Hok) in Hm. unfold image in Hm.
  destruct (cb_orders b !! id) as [p|] eqn:Ep; [|done]. cbn in Hm.
  pose proof Ep as (d' & Hd' & Hid)%(co_index _ _ _ Hok). by rewrite Hd' in Hm.
Qed.

(** A change of the book that acts on [data] and on the index at one id. *)
Lemma client_ok_intro b b' m m' G' :
  levels_ok (cb_levels b') G' None -> cb_ticker_id b' = cb_ticker_id b ->
  (forall id p, cb_orders b' !! id = Some p <-> exists x, data (cblocks b') p = Some x /\ mo_order_id x = id) ->
  (forall id, id ∈ cb_live b' <-> is_Some (cb_orders b' !! id)) ->
  (forall id, m' !! id = image b' id) ->
  (forall id, is_Some (cb_orders b' !! id) -> 0 < id < ME_MAX_ORDER_IDS) ->
  (forall p x, data (cblocks b') p = Some x -> is_u32 (mo_qty x)) ->
  pool_capacity (lv_orders (cb_levels b')) = pool_capacity (lv_orders (cb_levels b)) ->
  pool_capacity (lv_levels (cb_levels b')) = pool_capacity (lv_levels (cb_levels b)) ->
  forall G, client_ok b m G -> client_ok b' m' G'.
Proof.
  intros H1 H2 H3 H4 H5 H6 H7 H8 H9 G Hok. split; try done; [rewrite H2|rewrite H8|rewrite H9]; apply Hok.
Qed.

Lemma at_id_ok id : 0 < id < ME_MAX_ORDER_IDS -> MarketOrderBook.at_id id = Ok ().
Proof.
  intros H. unfold MarketOrderBook.at_id.
  by rewrite (proj2 (Z.leb_le 0 id)), (proj2 (Z.ltb_lt id _)) by lia.
Qed.

Lemma valid_order_id_range id : valid_order_id id = true <-> 0 < id < ME_MAX_ORDER_IDS.
Proof. unfold valid_order_id. rewrite andb_true_iff, !Z.ltb_lt. done. Qed.

Lemma valid_add_inv u :
  valid_add u = true ->
  0 < mu_order_id u < ME_MAX_ORDER_IDS /\ valid_side (mu_side u).
Proof.
  unfold valid_add. rewrite !andb_true_iff. intros [[[[Hid Hs] _] _] _].
  apply valid_order_id_range in Hid. split; [done|].
  unfold is_buy_or_sell in Hs. apply orb_true_iff in Hs. by rewrite !bool_decide_eq_true in Hs.
Qed.

Lemma with_bbo_ok b m G q :
  client_ok b m G -> client_ok (MarketOrderBook.with_bbo q b) m G.
Proof. intros []. by split. Qed.

(** The client's text is the shared one, on its own members. *)
Lemma remove_from_level_detach order b :
  MarketOrderBook.remove_from_level order b
  = (l ← detachOrder order (cb_levels b); Ok (MarketOrderBook.with_levels l b)).
Proof.
  unfold MarketOrderBook.remove_from_level, detachOrder, MarketOrderBook.removeOrdersAtPrice.
  destruct (load _ order) as [x|]; [|done]. cbn [mbind res_bind].
  change (nprev x) with (mo_prev x). case_bool_decide; [done|].
  destruct (unlink _ _) as [p|]; [|done]. cbn [mbind res_bind].
  change (MarketOrderBook.getOrdersAtPrice (mo_price x) (mo_side x) b)
    with (getOrdersAtPrice (bo_price x) (bo_side x) (cb_levels b)).
  destruct (deref _) as [level|]; [|done]. cbn [mbind res_bind].
  destruct (load _ level) as [v|]; [|done]. cbn [mbind res_bind].
  case_bool_decide; cbn [mbind res_bind].
  - change (mo_next x) with (nnext x). destruct (store _ _ _) as [q|]; [|done]. cbn [mbind res_bind].
    by destruct (clear_links _ _).
  - by destruct (clear_links _ _).
Qed.

Lemma add_to_level_attach order b :
  MarketOrderBook.add_to_level order b
  = (l ← attachOrder order (cb_levels b); Ok (MarketOrderBook.with_levels l b)).
Proof.
  unfold MarketOrderBook.add_to_level, attachOrder, MarketOrderBook.addOrdersAtPrice.
  destruct (load _ order) as [x|]; [|done]. cbn [mbind res_bind].
  change (MarketOrderBook.getOrdersAtPrice (mo_price x) (mo_side x) b)
    with (getOrdersAtPrice (bo_price x) (bo_side x) (cb_levels b)).
  destruct (getOrdersAtPrice _ _ _) as [level|].
  - destruct (load _ level) as [v|]; [|done]. cbn [mbind res_bind].
    destruct (deref _) as [first|]; [|done]. cbn [mbind res_bind]. by destruct (push_order _ _ _).
  - destruct (store _ _ _) as [p|]; [|done]. cbn [mbind res_bind].
    destruct (store _ _ p) as [p'|]; [|done]. cbn [mbind res_bind]. cbn [lv_levels set_orders].
    change (bo_side x) with (mo_side x). change (bo_price x) with (mo_price x).
    destruct (allocate _ _) as [new q]. destruct (deref new) as [level|]; [|done]. cbn [mbind res_bind]. done.
Qed.

Lemma apply_add_ok b m G u :
  client_ok b m G -> mu_type u = MD_ADD -> mu_ticker_id u = cb_ticker_id b ->
  m !! mu_order_id u = None -> valid_add u = true -> is_u32 (mu_qty u) -> has_room u b ->
  exists b' G', MarketOrderBook.apply u b = Ok b' /\
    client_ok b' (<[mu_order_id u := u]> m) G' /\
    forall s, resting (cblocks b') (G' s) =
      if decide (s = mu_side u)
      then enqueue s (mkMarketOrder (mu_order_id u) (mu_side u) (mu_price u) (mu_qty u) (mu_priority u) None None)
             (resting (cblocks b) (G s))
      else resting (cblocks b) (G s).
Proof.
  intros Hok Hty Htk Hn Hv Hq [Hav Hlv]. destruct (valid_add_inv u Hv) as [Hid Hs].
  unfold MarketOrderBook.apply. rewrite Hty.
  set (x := mkMarketOrder _ _ _ _ _ _ _).
  destruct (levels_ok_alloc _ _ x (co_levels _ _ _ Hok) Hav)
    as (a & p' & Ha & Hna & Hb & Hlk & _ & Hcap).
  rewrite Ha. cbn [deref mbind res_bind]. unfold MarketOrderBook.addOrder.
  rewrite add_to_level_attach. cbn [MarketOrderBook.with_levels cb_levels].
  destruct (attach_content (set_orders p' (cb_levels b)) G a x Hlk Hs) as (l & G' & Hat & [A1 A2 A3 A4 A5]);
    [by cbn; rewrite Hb, lookup_insert_eq|done|].
  rewrite Hat. cbn [mbind res_bind MarketOrderBook.with_levels cb_levels].
  assert (Hd : forall q, data (pool_blocks (lv_orders l)) q = if decide (q = a) then Some x else data (cblocks b) q).
  { intros q. rewrite A3. cbn [set_orders lv_orders]. rewrite Hb. unfold data. rewrite lookup_insert.
    destruct (decide (a = q)); case_decide; try congruence; done. }
  pose proof (Hd a) as Hda. rewrite decide_True in Hda by done.
  apply data_lookup in Hda as (x1 & Hx1 & Hst). apply (f_equal mo_order_id) in Hst as Hidx.
  rewrite strip_id in Hidx. cbn in Hidx.
  rewrite (load_Some _ _ _ Hx1). cbn [mbind res_bind]. rewrite Hidx, at_id_ok by done.
  cbn [mbind res_bind]. eexists _, G'. split; [done|].
  cbn [MarketOrderBook.with_levels MarketOrderBook.with_orders cb_levels cb_orders cb_live cb_ticker_id].
  pose proof (client_absent _ _ _ _ Hok Hn) as Hno.
  assert (Hda0 : data (cblocks b) a = None) by (unfold data; by rewrite Hna).
  split.
  2:{ intros s. rewrite A2. cbn [set_orders lv_orders]. rewrite Hb.
      assert (E : resting (<[a := x]> (cblocks b)) (G s) = resting (cblocks b) (G s)).
      { apply resting_ext. intros o Ho. unfold data. rewrite lookup_insert_ne; [done|]. intros <-.
        destruct (ptrs_order _ _ _ (co_levels _ _ _ Hok) a s Ho) as (y & Hy & _). congruence. }
      by rewrite E. }
  eapply (client_ok_intro b); cbn [MarketOrderBook.with_levels MarketOrderBook.with_orders cb_levels cb_orders cb_live cb_ticker_id];
    [done|done| | | | | | | |exact Hok].
  - intros id q. rewrite lookup_insert_Some, (co_index _ _ _ Hok). setoid_rewrite Hd. split.
    + intros [[<- <-]|[Hne (y & Hy & Hyid)]].
      * rewrite decide_True by done. by exists x.
      * exists y. rewrite decide_False; [done|]. intros ->. congruence.
    + intros (y & Hy & Hyid). case_decide as E; [left|right].
      * injection Hy as <-. by subst.
      * assert (Eq : cb_orders b !! id = Some q) by (apply (co_index _ _ _ Hok); eauto).
        split; [|eauto]. intros <-. congruence.
  - intros id. rewrite elem_of_union, elem_of_singleton, (co_live _ _ _ Hok), lookup_insert_is_Some'.
    naive_solver.
  - intros id. unfold image. cbn [MarketOrderBook.with_levels MarketOrderBook.with_orders cb_orders cb_levels cb_ticker_id].
    destruct (decide (id = mu_order_id u)) as [->|Hne].
    + rewrite !lookup_insert_eq. cbn [mbind option_bind]. rewrite Hd, decide_True by done. cbn.
      f_equal. unfold order_of. cbn. rewrite <- Htk. destruct u. cbn in *. by subst.
    + rewrite !lookup_insert_ne by done. rewrite (co_view _ _ _ Hok). unfold image.
      destruct (cb_orders b !! id) as [q|] eqn:Eq; [|done]. cbn [mbind option_bind]. rewrite Hd.
      rewrite decide_False; [done|]. intros ->.
      apply (co_index _ _ _ Hok) in Eq as (y & Hy & _). congruence.
  - intros id. rewrite lookup_insert_is_Some'. intros [<-|H]; [done|]. by apply (co_ids _ _ _ Hok).
  - intros q y. rewrite Hd. case_decide; [by intros [= <-]|]. apply (co_qty _ _ _ Hok).
  - rewrite A4. exact Hcap.
  - exact A5.
Qed.

Lemma apply_modify_ok b m G u y :
  client_ok b m G -> mu_type u = MD_MODIFY -> m !! mu_order_id u = Some y -> is_u32 (mu_qty u) ->
  exists b', MarketOrderBook.apply u b = Ok b' /\
    client_ok b' (<[mu_order_id u := set_mu_qty (mu_qty u) y]> m) G.
Proof.
  intros Hok Hty Hy Hq. unfold MarketOrderBook.apply. rewrite Hty.
  destruct (client_lookup _ _ _ _ _ Hok Hy) as (p & x & Hp & Hx & -> & Hid).
  rewrite Hp. cbn [deref mbind res_bind].
  destruct (levels_ok_store _ G p x (set_mo_qty (mu_qty u)) (co_levels _ _ _ Hok) Hx)
    as (p' & -> & Hb & Hlk & Hcap); [done..|]. cbn [mbind res_bind].
  eexists. split; [done|].
  assert (Hd : forall q, data (pool_blocks p') q =
    if decide (q = p) then Some (strip (set_mo_qty (mu_qty u) x)) else data (cblocks b) q).
  { intros q. rewrite Hb. unfold data. rewrite lookup_insert.
    destruct (decide (p = q)); case_decide; try congruence; done. }
  assert (Hdp : data (cblocks b) p = Some (strip x)) by (by apply data_lookup_eq).
  eapply (client_ok_intro b); cbn [MarketOrderBook.with_levels cb_levels cb_orders cb_live cb_ticker_id
    set_orders lv_orders lv_levels]; [done|done| | | | | |exact Hcap|done|exact Hok].
  - intros id q. rewrite (co_index _ _ _ Hok). setoid_rewrite Hd. case_decide as E; [|done].
    subst q. rewrite Hdp. split; intros (z & [= <-] & Hz); eexists; (split; [done|]); exact Hz.
  - apply Hok.
  - intros id. unfold image. cbn [MarketOrderBook.with_levels MarketOrderBook.with_orders cb_orders cb_levels cb_ticker_id set_orders lv_orders].
    destruct (decide (id = mu_order_id u)) as [->|Hne].
    + rewrite lookup_insert_eq, Hp. cbn [mbind option_bind]. rewrite Hd, decide_True by done. done.
    + rewrite lookup_insert_ne by done. rewrite (co_view _ _ _ Hok). unfold image.
      destruct (cb_orders b !! id) as [q|] eqn:Eq; [|done]. cbn [mbind option_bind]. rewrite Hd.
      rewrite decide_False; [done|]. intros ->.
      apply (co_index _ _ _ Hok) in Eq as (z & Hz & Hzid). rewrite Hdp in Hz. injection Hz as Hz.
      rewrite <- Hz in Hzid. change (mo_order_id x = id) in Hzid. congruence.
  - apply Hok.
  - intros q z. rewrite Hd. case_decide; [by intros [= <-]|]. apply (co_qty _ _ _ Hok).
Qed.

Lemma apply_cancel_ok b m G u y :
  client_ok b m G -> mu_type u = MD_CANCEL -> m !! mu_order_id u = Some y ->
  exists b' G', MarketOrderBook.apply u b = Ok b' /\ client_ok b' (delete (mu_order_id u) m) G'.
Proof.
  intros Hok Hty Hy. unfold MarketOrderBook.apply. rewrite Hty.
  destruct (client_lookup _ _ _ _ _ Hok Hy) as (p & x & Hp & Hx & _ & Hid).
  rewrite Hp. cbn [deref mbind res_bind]. unfold MarketOrderBook.removeOrder.
  rewrite remove_from_level_detach.
  destruct (remove_content _ G p x (co_levels _ _ _ Hok) Hx)
    as (l & x1 & p2 & G' & Hdet & Hx1 & Hst & Hdl & [R1 R2 R3 R4 R5]).
  rewrite Hdet. cbn [mbind res_bind MarketOrderBook.with_levels cb_levels]. rewrite (load_Some _ _ _ Hx1). cbn [mbind res_bind].
  apply (f_equal mo_order_id) in Hst as Hidx. rewrite !strip_id in Hidx. rewrite Hidx, Hid.
  rewrite at_id_ok by (apply (co_ids _ _ _ Hok); eauto). cbn [mbind res_bind]. rewrite Hdl.
  cbn [mbind res_bind]. eexists _, G'. split; [done|].
  assert (Hdp : data (cblocks b) p = Some (strip x)) by (by apply data_lookup_eq).
  eapply (client_ok_intro b); cbn [MarketOrderBook.with_levels MarketOrderBook.with_orders cb_levels
    cb_orders cb_live cb_ticker_id]; [done|done| | | | | |exact R4|exact R5|exact Hok].
  - intros id q. rewrite lookup_delete_Some, (co_index _ _ _ Hok). setoid_rewrite R3. split.
    + intros [Hne (z & Hz & Hzid)]. exists z. rewrite decide_False; [done|]. intros ->.
      rewrite Hdp in Hz. injection Hz as Hz.
      rewrite <- Hz in Hzid. change (mo_order_id x = id) in Hzid. congruence.
    + intros (z & Hz & Hzid). case_decide as E; [done|]. split; [|eauto]. intros <-.
      assert (Eq : cb_orders b !! mu_order_id u = Some q) by (apply (co_index _ _ _ Hok); eauto).
      congruence.
  - intros id. rewrite elem_of_difference, elem_of_singleton, (co_live _ _ _ Hok), lookup_delete_is_Some.
    naive_solver.
  - intros id. unfold image. cbn [MarketOrderBook.with_levels MarketOrderBook.with_orders cb_orders cb_levels cb_ticker_id].
    destruct (decide (id = mu_order_id u)) as [->|Hne]; [by rewrite !lookup_delete_eq|].
    rewrite !lookup_delete_ne by done. rewrite (co_view _ _ _ Hok). unfold image.
    destruct (cb_orders b !! id) as [q|] eqn:Eq; [|done]. cbn [mbind option_bind]. rewrite R3.
    rewrite decide_False; [done|]. intros ->.
    apply (co_index _ _ _ Hok) in Eq as (z & Hz & Hzid). rewrite Hdp in Hz. injection Hz as Hz.
      rewrite <- Hz in Hzid. change (mo_order_id x = id) in Hzid. congruence.
  - intros id. rewrite lookup_delete_is_Some. intros [_ H]. by apply (co_ids _ _ _ Hok).
  - intros q z. rewrite R3. case_decide; [done|]. apply (co_qty _ _ _ Hok).
Qed.

(** ** CLEAR *)
Lemma deallocate_all {T} (ps : list Z) (p : MemPool T) :
  pool_ok p -> NoDup ps -> (forall a, a ∈ ps <-> is_Some (pool_blocks p !! a)) ->
  exists p', res_fold (λ p a, deallocate a p) ps p = Ok p' /\ pool_blocks p' = ∅ /\ pool_ok p' /\
    pool_capacity p' = pool_capacity p.
Proof.
  intros Hok Hnd Hin. revert p Hok Hin. induction Hnd as [|a ps Ha Hnd IH]; intros p Hok Hin.
  - exists p. split; [done|]. split; [|done]. apply map_eq. intros a. rewrite lookup_empty.
    destruct (pool_blocks p !! a) eqn:E; [|done].
    by destruct (not_elem_of_nil a (proj2 (Hin a) (ex_intro _ _ E))).
  - destruct (proj1 (Hin a) ltac:(by left)) as [x Hx].
    destruct (deallocate_live a x p Hok Hx) as (p1 & H1 & Hb & Hok1 & _ & Hc). cbn [res_fold].
    rewrite H1. cbn [mbind res_bind]. destruct (IH p1 Hok1) as (p' & -> & Hb' & Hok' & Hc').
    + intros c. rewrite Hb, lookup_delete_is_Some, <- Hin, elem_of_cons. split.
      * intros Hc'. split; [|by right]. intros <-. done.
      * naive_solver.
    + exists p'. rewrite <- Hc. done.
Qed.

Lemma values_NoDup {K A} `{Countable K} (m : gmap K A) :
  (forall k1 k2 a, m !! k1 = Some a -> m !! k2 = Some a -> k1 = k2) -> NoDup (map_to_list m).*2.
Proof.
  intros Hinj. apply NoDup_fmap_2_strong; [|apply NoDup_map_to_list].
  intros [k1 a] [k2 a'] H1%elem_of_map_to_list H2%elem_of_map_to_list E. cbn in E. subst a'.
  by rewrite (Hinj _ _ _ H1 H2).
Qed.

Lemma sorted_values {K A} `{Countable K} (R : relation (K * A)) `{!forall x y, Decision (R x y)} (m : gmap K A) a :
  a ∈ (merge_sort R (map_to_list m)).*2 <-> exists k, m !! k = Some a.
Proof.
  rewrite merge_sort_Permutation, list_elem_of_fmap. split.
  - intros ([k x] & -> & Hx%elem_of_map_to_list). eauto.
  - intros [k Hk]. exists (k, a). by rewrite elem_of_map_to_list.
Qed.

Lemma levels_ok_empty (p : MemPool MarketOrder) (q : MemPool Level) :
  pool_ok p -> pool_ok q -> pool_blocks p = ∅ -> pool_blocks q = ∅ ->
  levels_ok (mkLevels p q ∅ None None) (λ _, []) None.
Proof.
  intros Hp Hq Hbp Hbq. split; cbn; try done.
  - intros s Hs. split; [by unfold best; case_decide|by left|constructor|set_solver].
  - intros s c a. rewrite lookup_empty. set_solver.
  - intros o x. by rewrite Hbp.
  - intros a v. by rewrite Hbq.
Qed.

Lemma apply_clear_ok b m G u :
  client_ok b m G -> mu_type u = MD_CLEAR ->
  exists b', MarketOrderBook.apply u b = Ok b' /\ client_ok b' ∅ (λ _, []).
Proof.
  intros Hok Hty. unfold MarketOrderBook.apply. rewrite Hty. unfold MarketOrderBook.clear.
  pose proof (co_levels _ _ _ Hok) as Hlk. set (l := cb_levels b) in *.
  set (ps := (merge_sort id_le (map_to_list (cb_orders b))).*2).
  set (qs := (merge_sort price_key_le (map_to_list (lv_index l))).*2).
  destruct (deallocate_all ps (lv_orders l) (lk_pool_orders _ _ _ Hlk)) as (p' & -> & Hb & Hp & Hc).
  { unfold ps. rewrite merge_sort_Permutation. apply values_NoDup. intros id1 id2 a H1 H2.
    apply (co_index _ _ _ Hok) in H1 as (x & Hx & <-), H2 as (y & Hy & <-). congruence. }
  { intros a. unfold ps. rewrite sorted_values. split.
    - intros [id Hid]. apply (co_index _ _ _ Hok) in Hid as (x & (y & Hy & _)%data_lookup & _). eauto.
    - intros [x Hx]. exists (mo_order_id x). apply (co_index _ _ _ Hok). exists (strip x).
      split; [by apply data_lookup_eq|done]. }
  cbn [mbind res_bind].
  assert (Hidx : forall s c a, lv_index l !! (s, c) = Some a ->
    exists v, pool_blocks (lv_levels l) !! a = Some v /\ lv_side v = s /\ lv_price v = c).
  { intros s c a (g & Hg & <- & <-)%(lk_index _ _ _ Hlk).
    destruct (lo_level _ _ _ (ghost_level_ok _ _ _ Hlk _ _ Hg)) as (v & Hv & Hs & Hpr & _). eauto. }
  destruct (deallocate_all qs (lv_levels l) (lk_pool_levels _ _ _ Hlk)) as (q' & -> & Hbq & Hq & Hcq).
  { unfold qs. rewrite merge_sort_Permutation. apply values_NoDup. intros [s1 c1] [s2 c2] a H1 H2.
    apply Hidx in H1 as (v & Hv & <- & <-), H2 as (w & Hw & <- & <-). congruence. }
  { intros a. unfold qs. rewrite sorted_values. split.
    - intros [[s c] H]. apply Hidx in H as (v & Hv & _). eauto.
    - intros [v Hv]. destruct (lk_levels _ _ _ Hlk a v Hv) as (g & Hg & <-).
      exists (lv_side v, g_price g). apply (lk_index _ _ _ Hlk). eauto. }
  cbn [mbind res_bind]. eexists. split; [done|].
  split; cbn [cb_levels cb_orders cb_live cb_ticker_id lv_orders lv_levels].
  - by apply levels_ok_empty.
  - intros id a. rewrite lookup_empty. unfold data. rewrite Hb, lookup_empty. cbn. naive_solver.
  - intros id. rewrite lookup_empty. split; [set_solver|]. by intros [? ?].
  - intros id. unfold image. cbn. by rewrite !lookup_empty.
  - intros id [? Hx]. by rewrite lookup_empty in Hx.
  - intros a x. unfold data. by rewrite Hb, lookup_empty.
  - apply Hok.
  - rewrite Hc. apply Hok.
  - rewrite Hcq. apply Hok.
Qed.

(** ** The checks *)
Lemma check_update_ok b m G u :
  client_ok b m G -> 0 <= mu_order_id u ->
  exists ok, MarketOrderBook.check_update u b = Ok ok /\
    (ok = true -> mu_ticker_id u = cb_ticker_id b /\
       (SnapshotSynthesizer.names_order (mu_type u) = true -> is_Some (apply_update u m)) /\
       (mu_type u = MD_ADD -> has_room u b)) /\
    (mu_ticker_id u = cb_ticker_id b ->
       (SnapshotSynthesizer.names_order (mu_type u) = true -> is_Some (apply_update u m)) ->
       (mu_type u = MD_ADD -> has_room u b) -> ok = true).
Proof.
  intros Hok Hid0. unfold MarketOrderBook.check_update, MarketOrderBook.getOrdersAtPrice.
  destruct (Z.eqb_spec (mu_ticker_id u) (cb_ticker_id b)) as [Et|Et]; cbn [negb].
  2:{ exists false. by split_and!. }
  destruct (SnapshotSynthesizer.names_order (mu_type u)) eqn:En; cbn [negb].
  2:{ exists true. split_and!; [done| |done]. intros _. split; [done|]. split; [done|].
      intros E. by rewrite E in En. }
  destruct ((mu_order_id u =? 0) || (ME_MAX_ORDER_IDS <=? mu_order_id u)) eqn:Ei.
  { exists false. split_and!; [done|done|]. intros _ H _. destruct (H eq_refl) as [m' Hm']. exfalso.
    apply orb_true_iff in Ei. assert (Hv : valid_order_id (mu_order_id u) = true).
    { unfold apply_update in Hm'. destruct (mu_type u); try done.
      - destruct (m !! _); [done|]. unfold valid_add in Hm'. by destruct (valid_order_id _).
      - destruct (m !! _); [|done]. cbn in Hm'. unfold about in Hm'. by destruct (valid_order_id _).
      - destruct (m !! _); [|done]. cbn in Hm'. unfold about in Hm'. by destruct (valid_order_id _). }
    apply valid_order_id_range in Hv. lia. }
  apply orb_false_iff in Ei as [Ei1%Z.eqb_neq Ei2%Z.leb_gt].
  assert (Hv : valid_order_id (mu_order_id u) = true) by (apply valid_order_id_range; lia).
  destruct (bool_decide_reflect (mu_type u = MD_ADD)) as [Ea|Ea].
  - eexists. split; [done|].
    assert (Hav : forall (T : Type) (p : MemPool T), (pool_available p =? 0) = false <-> 0 < pool_available p).
    { intros T p. rewrite Z.eqb_neq. unfold pool_available. lia. }
    assert (Hroom : has_room u b <-> (pool_available (lv_orders (cb_levels b)) =? 0) = false /\
      bool_decide (getOrdersAtPrice (mu_price u) (mu_side u) (cb_levels b) = None) &&
        (pool_available (lv_levels (cb_levels b)) =? 0) = false).
    { unfold has_room. rewrite Hav, andb_false_iff, Hav, bool_decide_eq_false.
      destruct (getOrdersAtPrice _ _ _); intuition congruence. }
    assert (Hap : is_Some (apply_update u m) <-> cb_orders b !! mu_order_id u = None /\ valid_add u = true).
    { unfold apply_update. rewrite Ea, (co_view _ _ _ Hok). unfold image.
      destruct (cb_orders b !! mu_order_id u) as [p|] eqn:Ep.
      - cbn. pose proof Ep as (x & Hx & _)%(co_index _ _ _ Hok). rewrite Hx. cbn.
        split; [by intros [? ?]|by intros [? ?]].
      - cbn. destruct (valid_add u); split; [done|by eauto|by intros [? ?]|by intros [_ ?]]. }
    set (ok := negb _).
    assert (Heq : ok = true <-> (cb_orders b !! mu_order_id u = None /\ valid_add u = true) /\ has_room u b).
    { rewrite Hroom. unfold ok, valid_add, valid_qty. rewrite Hv.
      rewrite negb_true_iff, !orb_false_iff, !andb_true_iff, !negb_true_iff, negb_false_iff.
      rewrite bool_decide_eq_false, Z.leb_gt, Z.ltb_lt, <- eq_None_not_Some. tauto. }
    rewrite Heq, <- Hap. split; [intros [H1 H2]; by split_and!|]. intros _ H1 H2. split; auto.
  - assert (Htyp : mu_type u = MD_MODIFY \/ mu_type u = MD_CANCEL)
      by (destruct (mu_type u); try done; auto).
    destruct (cb_orders b !! mu_order_id u) as [p|] eqn:Ep.
    2:{ exists false. split_and!; [done|done|]. intros _ H _. destruct (H eq_refl) as [m' Hm'].
        assert (Hn : m !! mu_order_id u = None)
          by (rewrite (co_view _ _ _ Hok); unfold image; by rewrite Ep).
        unfold apply_update in Hm'. destruct Htyp as [E|E]; by rewrite E, Hn in Hm'. }
    pose proof Ep as (x & Hx & Hxid)%(co_index _ _ _ Hok).
    pose proof Hx as (y & Hy & Hst)%data_lookup. rewrite (load_Some _ _ _ Hy). cbn [mbind res_bind].
    assert (Hm : m !! mu_order_id u = Some (order_of (cb_ticker_id b) y)).
    { rewrite (co_view _ _ _ Hok). unfold image. rewrite Ep. cbn. rewrite Hx. cbn. by rewrite <- Hst. }
    eexists. split; [done|]. set (ok := negb _).
    assert (Heq : ok = true <-> is_Some (apply_update u m)).
    { unfold ok, apply_update. rewrite Hm. cbn [mbind option_bind]. unfold about, valid_qty. rewrite Hv.
      cbn [order_of mu_side mu_price andb].
      destruct (bool_decide_reflect (mo_side y = mu_side u)) as [Es|Es].
      2:{ rewrite (bool_decide_false (mu_side u = mo_side y)) by congruence. cbn. destruct Htyp as [-> | ->]; cbn;
          split; try done; by intros [? ?]. }
      rewrite (bool_decide_true (mu_side u = mo_side y)) by done.
      rewrite (Z.eqb_sym (mo_price y)). destruct (mu_price u =? mo_price y); cbn [negb orb andb].
      2:{ destruct Htyp as [-> | ->]; split; try done; by intros [? ?]. }
      destruct Htyp as [-> | ->].
      - rewrite bool_decide_true by done. cbn [andb].
        destruct (mu_qty u =? 0), (mu_qty u =? Qty_INVALID); cbn; split; try done; by (intros [? ?] || eauto).
      - rewrite bool_decide_false by done. cbn. split; eauto. }
    rewrite Heq. split; [intros H; by split_and!|]. intros _ H _. by apply H.
Qed.

(** ** Best bid and offer *)
Fixpoint mo_total (l : list MarketOrder) : Z :=
  match l with
  | [] => 0
  | x :: l' => mo_qty x + mo_total l'
  end.

(** Price and total quantity of the first price of a side. *)
Definition quote_of (l : list MarketOrder) : Z * Z :=
  match l with
  | [] => (Price_INVALID, BookQty_INVALID)
  | x :: _ => (mo_price x, u64 (mo_total (List.filter (λ y, mo_price y =? mo_price x) l)))
  end.

Lemma mo_total_app l1 l2 : mo_total (l1 ++ l2) = mo_total l1 + mo_total l2.
Proof. induction l1 as [|x l1 IH]; cbn; lia. Qed.

Lemma u64_add_l a b : u64 (u64 a + b) = u64 (a + b).
Proof. unfold u64. by rewrite Zplus_mod_idemp_l. Qed.

Lemma u64_idem a : u64 (u64 a) = u64 a.
Proof. unfold u64. apply Z.mod_mod. lia. Qed.

Lemma ring_qty_ok (pool : MemPool MarketOrder) first os prev fuel q :
  seg (links (pool_blocks pool)) prev os first -> first ∉ os ->
  (length os < fuel)%nat -> u64 q = q ->
  MarketOrderBook.ring_qty fuel pool first (hd first os) q
    = Ok (u64 (q + mo_total (omap (data (pool_blocks pool)) os))).
Proof.
  revert prev fuel q. induction os as [|o os IH]; intros prev fuel q Hseg Hf Hfuel Hq.
  - destruct fuel; [lia|]. cbn [MarketOrderBook.ring_qty hd]. rewrite bool_decide_true by done.
    cbn. by rewrite Z.add_0_r, Hq.
  - destruct fuel as [|fuel]; [lia|]. destruct Hseg as [Hl Hseg]. cbn [MarketOrderBook.ring_qty hd].
    apply not_elem_of_cons in Hf as [Hne Hf]. rewrite bool_decide_false by congruence.
    apply links_lookup in Hl as (x & Hx & _ & Hn). rewrite (load_Some _ _ _ Hx). cbn [mbind res_bind].
    change (mo_next x = Some (hd first os)) in Hn. rewrite Hn. cbn [deref mbind res_bind].
    rewrite (IH o fuel _ Hseg Hf); [|cbn in Hfuel; lia|apply u64_idem].
    rewrite u64_add_l. cbn [omap list_omap]. rewrite (data_lookup_eq _ _ _ Hx). cbn [mo_total].
    f_equal. f_equal. change (mo_qty (strip x)) with (mo_qty x). lia.
Qed.

Lemma best_quote_ok b m G s :
  client_ok b m G -> valid_side s ->
  MarketOrderBook.best_quote s (cb_levels b) = Ok (quote_of (resting (cblocks b) (G s))).
Proof.
  intros Hok Hs. pose proof (co_levels _ _ _ Hok) as Hlk.
  unfold MarketOrderBook.best_quote. rewrite (so_best _ _ _ (lk_sides _ _ _ Hlk s Hs)).
  destruct (G s) as [|g gs] eqn:EG; [done|]. cbn [head fmap option_fmap option_map].
  assert (Hg : g ∈ G s) by (rewrite EG; by left).
  destruct (ghost_level_ok _ _ _ Hlk _ _ Hg) as [(v & Hv & _ & Hvp & Hvf) Hring Hord].
  rewrite (load_Some _ _ _ Hv). cbn [mbind res_bind]. rewrite Hvf.
  destruct (g_orders g) as [|o os] eqn:Eo; [done|]. cbn [head deref mbind res_bind].
  destruct (Hord o ltac:(by left)) as (x & Hx & _ & Hxp). rewrite (load_Some _ _ _ Hx).
  cbn [mbind res_bind]. pose proof (ring_head _ _ _ Hring) as Hl.
  apply links_lookup in Hl as (x' & Hx' & _ & Hn). rewrite Hx in Hx'. injection Hx' as <-.
  change (mo_next x = Some (hd o os)) in Hn. rewrite Hn. cbn [deref mbind res_bind].
  pose proof (ring_NoDup _ _ Hring) as Hnd. apply NoDup_cons in Hnd as [Hno Hnd].
  destruct Hring as [_ [_ Hseg]].
  pose proof (data_lookup_eq _ _ _ Hx) as Hdx.
  assert (Hlen : (length os < S (size (pool_blocks (lv_orders (cb_levels b)))))%nat).
  { rewrite (orders_count _ _ Hlk).
    assert (length (o :: os) <= length (ptrs (G s)))%nat.
    { rewrite EG, ptrs_cons, length_app, Eo. lia. }
    cbn in *. destruct Hs as [-> | ->]; lia. }
  pose proof (co_qty _ _ _ Hok o _ Hdx) as Hq. change (is_u32 (mo_qty x)) in Hq. unfold is_u32 in Hq.
  rewrite (ring_qty_ok _ o os o _ _ Hseg Hno Hlen) by (apply u64_small; lia).
  cbn [mbind res_bind]. pose proof (levels_priced _ _ _ Hlk s) as Hpr. rewrite EG in Hpr.
  rewrite resting_cons.
  change (omap (@data _ (@bo_linked _ market_book_order) (cblocks b)) (g_orders g))
    with (omap (data (cblocks b)) (g_orders g)).
  assert (E0 : omap (data (cblocks b)) (g_orders g)
    = strip x :: omap (data (cblocks b)) os) by (rewrite Eo; cbn; by rewrite Hdx).
  change (bo_price x) with (mo_price x) in Hxp.
  assert (Hfilter : List.filter (λ y, mo_price y =? g_price g)
      (omap (data (cblocks b)) (g_orders g) ++ resting (cblocks b) gs)
    = omap (data (cblocks b)) (g_orders g)).
  { rewrite List.filter_app. change (λ y, mo_price y =? g_price g) with (λ y, bo_price y =? g_price g).
    rewrite filter_price_other, app_nil_r.
    - exact (filter_price_same (cblocks b) g (proj2 (Hpr g ltac:(by left)))).
    - by eapply priced_tail.
    - intros h Hh Eh. pose proof (levels_sorted _ _ _ Hlk s) as Hsort. rewrite EG in Hsort.
      apply StronglySorted_inv in Hsort as [_ Hall]. rewrite Forall_forall in Hall.
      specialize (Hall h Hh). by rewrite Eh, better_irrefl in Hall. }
  rewrite E0 in Hfilter |- *. cbn [app] in Hfilter |- *. unfold quote_of.
  change (mo_price (strip x)) with (mo_price x). by rewrite Hxp, Hvp, Hfilter.
Qed.

Lemma book_updateBBO_ok b m G :
  client_ok b m G ->
  let '(bp, bq) := quote_of (resting (cblocks b) (G BUY)) in
  let '(ap, aq) := quote_of (resting (cblocks b) (G SELL)) in
  MarketOrderBook.updateBBO true true b = Ok (MarketOrderBook.with_bbo (mkBBO bp ap bq aq) b).
Proof.
  intros Hok. unfold MarketOrderBook.updateBBO.
  rewrite (best_quote_ok b m G BUY Hok) by (by left).
  destruct (quote_of (resting _ (G BUY))) as [bp bq]. cbn [mbind res_bind].
  change (cb_levels (MarketOrderBook.with_bbo _ b)) with (cb_levels b).
  rewrite (best_quote_ok b m G SELL Hok) by (by right).
  by destruct (quote_of (resting _ (G SELL))) as [ap aq].
Qed.

(** ** The quotes in terms of the view *)
Definition at_price (s : Side) (p : Z) (u : MEMarketUpdate) : bool :=
  bool_decide (mu_side u = s) && (mu_price u =? p).

(** [p] is the best price of side [s] in the view, [q] the quantity there. *)
Definition best_of (s : Side) (m : View) (p q : Z) : Prop :=
  ((forall id u, m !! id = Some u -> mu_side u <> s) /\ p = Price_INVALID /\ q = BookQty_INVALID) \/
  ((exists id u, m !! id = Some u /\ mu_side u = s /\ mu_price u = p) /\
   (forall id u, m !! id = Some u -> mu_side u = s -> better s (mu_price u) p = false) /\
   q = u64 (sum_of (λ _ u, if at_price s p u then mu_qty u else 0) m)).

Fixpoint sum_list {A} (f : A -> Z) (l : list A) : Z :=
  match l with
  | [] => 0
  | x :: l' => f x + sum_list f l'
  end.

Lemma sum_list_perm {A} (f : A -> Z) l1 l2 : l1 ≡ₚ l2 -> sum_list f l1 = sum_list f l2.
Proof. induction 1; cbn; lia. Qed.

Lemma sum_list_app {A} (f : A -> Z) l1 l2 : sum_list f (l1 ++ l2) = sum_list f l1 + sum_list f l2.
Proof. induction l1; cbn; lia. Qed.

Lemma sum_of_list (f : Z -> MEMarketUpdate -> Z) (m : View) :
  sum_of f m = sum_list (λ x, f x.1 x.2) (map_to_list m).
Proof.
  unfold sum_of. rewrite map_fold_foldr. induction (map_to_list m) as [|[k a] l IH]; [done|].
  cbn. by rewrite <- IH.
Qed.

Definition pair_of (t : Z) (x : MarketOrder) : Z * MEMarketUpdate := (mo_order_id x, order_of t x).

(** An order rests on its side. *)
Lemma client_resting b m G s x :
  client_ok b m G -> x ∈ resting (cblocks b) (G s) ->
  mo_side x = s /\ m !! mo_order_id x = Some (order_of (cb_ticker_id b) x).
Proof.
  intros Hok (p & Hp & Hd)%elem_of_resting.
  destruct (ptrs_order _ _ _ (co_levels _ _ _ Hok) p s Hp) as (y & Hy & Hys).
  pose proof Hd as (y' & Hy' & Hst)%data_lookup. rewrite Hy in Hy'. injection Hy' as <-.
  split; [rewrite <- Hst; exact Hys|].
  rewrite (co_view _ _ _ Hok). unfold image.
  rewrite (proj2 (co_index _ _ _ Hok (mo_order_id x) p)) by eauto.
  cbn [mbind option_bind].
  change (data (cblocks b) p = Some x) in Hd. by rewrite Hd.
Qed.

Lemma view_resting b m G id u :
  client_ok b m G -> m !! id = Some u ->
  valid_side (mu_side u) /\
  exists x, x ∈ resting (cblocks b) (G (mu_side u)) /\ mo_order_id x = id /\
    u = order_of (cb_ticker_id b) x.
Proof.
  intros Hok Hm. destruct (client_lookup _ _ _ _ _ Hok Hm) as (p & x & _ & Hx & -> & Hid).
  destruct (order_ptrs _ _ _ (co_levels _ _ _ Hok) p x Hx) as [?|Hin]; [done|].
  change (bo_side x) with (mo_side x) in Hin. cbn [order_of mu_side].
  split; [apply elem_of_ptrs in Hin as (g & Hg & _); exact (ghost_valid _ _ _ (co_levels _ _ _ Hok) _ _ Hg)|].
  exists (strip x). split; [|done]. apply elem_of_resting. exists p. split; [done|].
  exact (data_lookup_eq _ _ _ Hx).
Qed.

Lemma client_ids_NoDup b m G s :
  client_ok b m G -> NoDup (mo_order_id <$> resting (cblocks b) (G s)).
Proof.
  intros Hok. pose proof (ptrs_NoDup _ _ _ (co_levels _ _ _ Hok) s) as Hnd. unfold resting.
  induction Hnd as [|p ps Hp Hnd IH]; [constructor|]. cbn [omap list_omap].
  destruct (data (cblocks b) p) as [x|] eqn:Ex; [|exact IH]. cbn [fmap list_fmap].
  apply NoDup_cons. split; [|exact IH].
  intros (y & Hid & (q & Hq & Hy)%list_elem_of_omap)%list_elem_of_fmap.
  assert (E1 : cb_orders b !! mo_order_id x = Some p) by (apply (co_index _ _ _ Hok); eauto).
  assert (E2 : cb_orders b !! mo_order_id y = Some q) by (apply (co_index _ _ _ Hok); eauto).
  rewrite Hid in E1. congruence.
Qed.

Definition all_resting (b : MarketOrderBook) (G : Side -> list GLevel) : list MarketOrder :=
  resting (cblocks b) (G BUY) ++ resting (cblocks b) (G SELL).

Lemma view_as_list b m G :
  client_ok b m G -> map_to_list m ≡ₚ pair_of (cb_ticker_id b) <$> all_resting b G.
Proof.
  intros Hok.
  assert (Hids : NoDup (mo_order_id <$> all_resting b G)).
  { unfold all_resting. rewrite fmap_app. apply NoDup_app.
    split_and!; [by eapply client_ids_NoDup| |by eapply client_ids_NoDup].
    intros id (x & -> & Hx)%list_elem_of_fmap (y & Hid & Hy)%list_elem_of_fmap.
    destruct (client_resting _ _ _ _ _ Hok Hx) as [Hxs Hxm].
    destruct (client_resting _ _ _ _ _ Hok Hy) as [Hys Hym].
    rewrite Hid, Hym in Hxm. injection Hxm as _ E _ _ _. congruence. }
  apply NoDup_Permutation; [apply NoDup_map_to_list| |].
  - apply (NoDup_fmap_1 fst). rewrite <- list_fmap_compose. exact Hids.
  - intros [id u]. rewrite elem_of_map_to_list, list_elem_of_fmap. split.
    + intros Hm. destruct (view_resting _ _ _ _ _ Hok Hm) as (Hv & x & Hx & Hid & Hu).
      exists x. split; [by unfold pair_of; rewrite Hid, Hu|]. unfold all_resting.
      apply elem_of_app. destruct Hv as [E|E]; rewrite E in Hx; tauto.
    + intros (x & [= -> ->] & Hx). unfold all_resting in Hx. apply elem_of_app in Hx as [Hx|Hx];
        by destruct (client_resting _ _ _ _ _ Hok Hx).
Qed.

Lemma sum_at_price s p t l :
  Forall (λ x, mo_side x = s) l ->
  sum_list (λ x, if at_price s p (snd x) then mu_qty (snd x) else 0) (pair_of t <$> l)
  = mo_total (List.filter (λ y, mo_price y =? p) l).
Proof.
  induction 1 as [|x l Hx Hl IH]; [done|]. cbn [fmap list_fmap sum_list List.filter].
  unfold at_price at 1. cbn [pair_of snd order_of mu_side mu_price mu_qty].
  rewrite bool_decide_true by done. cbn [andb]. destruct (mo_price x =? p); cbn [mo_total];
    unfold list_fmap in IH |- *; rewrite <- IH; lia.
Qed.

Lemma sum_other_side s s' p t l :
  Forall (λ x, mo_side x = s') l -> s' <> s ->
  sum_list (λ x, if at_price s p (snd x) then mu_qty (snd x) else 0) (pair_of t <$> l) = 0.
Proof.
  intros Hl Hne. induction Hl as [|x l Hx Hl IH]; [done|]. cbn [fmap list_fmap sum_list].
  unfold at_price at 1. cbn [pair_of snd order_of mu_side]. rewrite bool_decide_false by congruence.
  cbn [andb]. exact IH.
Qed.

Lemma resting_sides b m G s :
  client_ok b m G -> Forall (λ x, mo_side x = s) (resting (cblocks b) (G s)).
Proof. intros Hok. apply Forall_forall. intros x Hx. by destruct (client_resting _ _ _ _ _ Hok Hx). Qed.

Lemma view_sum b m G s p :
  client_ok b m G -> valid_side s ->
  sum_of (λ _ u, if at_price s p u then mu_qty u else 0) m
  = mo_total (List.filter (λ y, mo_price y =? p) (resting (cblocks b) (G s))).
Proof.
  intros Hok Hs. rewrite sum_of_list, (sum_list_perm _ _ _ (view_as_list _ _ _ Hok)).
  unfold all_resting. rewrite fmap_app, sum_list_app.
  pose proof (resting_sides _ _ _ BUY Hok) as HB. pose proof (resting_sides _ _ _ SELL Hok) as HS.
  destruct Hs as [-> | ->].
  - rewrite (sum_at_price BUY p _ _ HB), (sum_other_side BUY SELL p _ _ HS) by done. lia.
  - rewrite (sum_at_price SELL p _ _ HS), (sum_other_side SELL BUY p _ _ HB) by done. lia.
Qed.

Lemma head_is_best b m G s x y :
  client_ok b m G -> head (resting (cblocks b) (G s)) = Some x -> y ∈ resting (cblocks b) (G s) ->
  better s (mo_price y) (mo_price x) = false.
Proof.
  intros Hok Hx Hy. pose proof (co_levels _ _ _ Hok) as Hlk.
  pose proof (levels_priced _ _ _ Hlk s) as Hpr. pose proof (levels_sorted _ _ _ Hlk s) as Hsort.
  assert (Hyg : exists h, h ∈ G s /\ mo_price y = g_price h).
  { apply elem_of_resting in Hy as (q & (h & Hh & Hq)%elem_of_ptrs & Hd). exists h. split; [done|].
    destruct (proj2 (Hpr h Hh) q Hq) as (z & Hz & Hzp). rewrite Hd in Hz. by injection Hz as <-. }
  destruct Hyg as (h & Hh & ->). destruct (G s) as [|g gs]; [done|].
  rewrite (resting_head _ _ _ _ Hpr Hx : mo_price x = g_price g).
  apply elem_of_cons in Hh as [->|Hh]; [apply better_irrefl|].
  apply StronglySorted_inv in Hsort as [_ Hall]. rewrite Forall_forall in Hall.
  by apply better_asym, Hall.
Qed.

Lemma quote_view b m G s :
  client_ok b m G -> valid_side s ->
  let '(p, q) := quote_of (resting (cblocks b) (G s)) in best_of s m p q.
Proof.
  intros Hok Hs. destruct (quote_of _) as [p q] eqn:Eq. unfold best_of.
  destruct (resting (cblocks b) (G s)) as [|x l] eqn:El; cbn [quote_of] in Eq.
  - injection Eq as <- <-. left. split; [|done]. intros id u Hm Hside.
    destruct (view_resting _ _ _ _ _ Hok Hm) as (_ & y & Hy & _). rewrite Hside, El in Hy.
    by apply not_elem_of_nil in Hy.
  - right. pose proof (view_sum b m G s p Hok Hs) as Hsum. rewrite El in Hsum.
    injection Eq as <- <-. rewrite Hsum.
    assert (Hx : x ∈ resting (cblocks b) (G s)) by (rewrite El; by left).
    destruct (client_resting _ _ _ _ _ Hok Hx) as [Hxs Hxm].
    split; [by exists (mo_order_id x), (order_of (cb_ticker_id b) x)|]. split; [|done].
    intros id u Hm Hside. destruct (view_resting _ _ _ _ _ Hok Hm) as (_ & y & Hy & _ & ->).
    cbn [order_of mu_side mu_price] in Hside, Hy |- *. rewrite Hside in Hy.
    apply (head_is_best b m G s x y Hok); [by rewrite El|done].
Qed.

(** ** [onMarketUpdate] *)
Definition quotes_ok (b : MarketOrderBook) (m : View) : Prop :=
  best_of BUY m (bid_price (cb_bbo b)) (bid_qty (cb_bbo b)) /\
  best_of SELL m (ask_price (cb_bbo b)) (ask_qty (cb_bbo b)).

Lemma apply_ok b m G u m' :
  client_ok b m G -> mu_ticker_id u = cb_ticker_id b -> client_update u m = Some m' ->
  is_u32 (mu_qty u) -> (mu_type u = MD_ADD -> has_room u b) ->
  exists b' G', MarketOrderBook.apply u b = Ok b' /\ client_ok b' m' G'.
Proof.
  intros Hok Ht Hu Hq Hroom. unfold client_update, apply_update in Hu.
  destruct (mu_type u) eqn:Ety;
    try (injection Hu as <-; exists b, G; unfold MarketOrderBook.apply; by rewrite Ety).
  - injection Hu as <-. destruct (apply_clear_ok b m G u Hok Ety) as (b' & H1 & H2). eauto.
  - destruct (m !! mu_order_id u) eqn:Em; [done|]. destruct (valid_add u) eqn:Ev; [|done].
    injection Hu as <-.
    destruct (apply_add_ok b m G u Hok Ety Ht Em Ev Hq (Hroom eq_refl)) as (b' & G' & H1 & H2 & _). eauto.
  - destruct (m !! mu_order_id u) as [y|] eqn:Em; [|done]. cbn in Hu. destruct (_ && _); [|done].
    injection Hu as <-. destruct (apply_modify_ok b m G u y Hok Ety Em Hq) as (b' & H1 & H2). eauto.
  - destruct (m !! mu_order_id u) as [y|] eqn:Em; [|done]. cbn in Hu. destruct (about _ _); [|done].
    injection Hu as <-. apply (apply_cancel_ok b m G u y Hok Ety Em).
Qed.

Lemma onMarketUpdate_ok b m G u :
  client_ok b m G -> quotes_ok b m -> 0 <= mu_order_id u -> is_u32 (mu_qty u) ->
  exists ok cb b', MarketOrderBook.onMarketUpdate u b = Ok (ok, cb, b') /\
    (ok = false -> b' = b /\ cb = NoCallback) /\
    (ok = true -> mu_ticker_id u = cb_ticker_id b /\
       exists m' G', client_update u m = Some m' /\ client_ok b' m' G' /\ quotes_ok b' m') /\
    (ok = true <-> mu_ticker_id u = cb_ticker_id b /\ is_Some (client_update u m) /\
       (mu_type u = MD_ADD -> has_room u b)).
Proof.
  intros Hok Hq Hid Hqty. unfold MarketOrderBook.onMarketUpdate.
  destruct (check_update_ok b m G u Hok Hid) as (ok & -> & Ht & Hf). cbn [mbind res_bind].
  assert (Hsome : (SnapshotSynthesizer.names_order (mu_type u) = true -> is_Some (apply_update u m)) <->
    is_Some (client_update u m)).
  { unfold client_update. destruct (mu_type u); cbn; (split; intros H; [|intros E]);
      first [discriminate | by apply H | exact H | eauto]. }
  destruct ok; cbn [negb].
  2:{ exists false, NoCallback, b. split; [done|]. split; [done|]. split; [done|].
      split; [done|]. intros (H1 & H2 & H3). rewrite <- Hsome in H2. by apply Hf. }
  destruct (Ht eq_refl) as (Htk & Hap%Hsome & Hroom).
  destruct Hap as [m' Hm'].
  assert (Hiff : forall P Q : Prop, P -> Q -> (true = true <-> P /\ Q)) by tauto.
  destruct (bool_decide_reflect (mu_type u = MD_TRADE)) as [E|E].
  - exists true, CallTradeUpdate, b. split; [done|]. split; [done|].
    split; [|apply Hiff; [done|split; [by eexists|done]]]. intros _. split; [done|]. exists m, G. unfold client_update. by rewrite E.
  - destruct (apply_ok b m G u m' Hok Htk Hm' Hqty Hroom) as (b1 & G1 & -> & Hok1).
    cbn [mbind res_bind]. pose proof (book_updateBBO_ok b1 m' G1 Hok1) as Hb.
    pose proof (quote_view b1 m' G1 BUY Hok1 (or_introl eq_refl)) as HB.
    pose proof (quote_view b1 m' G1 SELL Hok1 (or_intror eq_refl)) as HS.
    destruct (quote_of (resting _ (G1 BUY))) as [bp bq].
    destruct (quote_of (resting _ (G1 SELL))) as [ap aq]. rewrite Hb. cbn [mbind res_bind].
    eexists true, CallBookUpdate, _. split; [done|]. split; [done|].
    split; [|apply Hiff; [done|split; [by eexists|done]]]. intros _. split; [done|]. exists m', G1. split; [done|]. split; [by apply with_bbo_ok|by split].
Qed.

(** ** [liveOrders] *)
Lemma client_liveOrders b m G :
  client_ok b m G -> MarketOrderBook.liveOrders b = Ok (sorted_view m).
Proof.
  intros Hok. unfold MarketOrderBook.liveOrders.
  set (g := λ id, default default_MEMarketUpdate (m !! id)).
  set (l := merge_sort Z.le (elements (cb_live b))).
  assert (Hl : forall id, id ∈ l <-> is_Some (m !! id)).
  { intros id. unfold l. rewrite merge_sort_Permutation, elem_of_elements, (co_live _ _ _ Hok). split.
    - intros [p Hp]. pose proof Hp as (x & Hx & _)%(co_index _ _ _ Hok).
      rewrite (co_view _ _ _ Hok). unfold image. rewrite Hp. cbn. rewrite Hx. cbn. eauto.
    - intros [v Hu]. destruct (client_lookup _ _ _ _ _ Hok Hu) as (p & x & Hp & _). eauto. }
  assert (Hkey : keyed m).
  { intros id u Hu. destruct (client_lookup _ _ _ _ _ Hok Hu) as (p & x & _ & _ & -> & Hid). done. }
  rewrite (res_fold_collect _ g).
  - cbn [app]. f_equal. apply id_sorted_unique; [|by apply sorted_view_strict|].
    + assert (Hs : StronglySorted Z.lt l).
      { assert (Hs : StronglySorted Z.le l) by (apply (StronglySorted_merge_sort _)).
        assert (Hnd : NoDup l) by (unfold l; rewrite merge_sort_Permutation; apply NoDup_elements).
        clear -Hs Hnd. induction Hs as [|x l Hs IH Hx]; [constructor|].
        apply NoDup_cons in Hnd as [Hn Hnd]. constructor; [by apply IH|].
        rewrite Forall_forall in Hx |- *. intros y Hy. specialize (Hx y Hy).
        assert (x <> y) by (intros ->; done). lia. }
      assert (Hg : forall id, id ∈ l -> mu_order_id (g id) = id).
      { intros id [u Hu]%Hl. unfold g. rewrite Hu. by apply (Hkey id u). }
      clearbody l. clear -Hs Hg. induction Hs as [|x l Hs IH Hx]; [constructor|].
      cbn. constructor; [apply IH; intros; apply Hg; by right|].
      apply Forall_fmap, Forall_forall. intros y Hy. unfold id_lt. cbn.
      rewrite (Hg x) by (by left). rewrite (Hg y) by (by right).
      rewrite Forall_forall in Hx. by apply Hx.
    + intros u. rewrite sorted_view_elem, list_elem_of_fmap. split.
      * intros (id & -> & [v Hv]%Hl). exists id. unfold g. by rewrite Hv.
      * intros [id Hu]. exists id. unfold g. rewrite Hu. split; [done|]. apply Hl. eauto.
  - intros id [u Hu]%Hl. unfold MarketOrderBook.live_order, g. rewrite Hu.
    destruct (client_lookup _ _ _ _ _ Hok Hu) as (p & x & Hp & Hx & -> & _).
    rewrite Hp. cbn [deref mbind res_bind]. by rewrite (load_Some _ _ _ Hx).
Qed.

End Client.

Lemma client_make_ok t orders levels b :
  MarketOrderBook.make_sized t orders levels = Some b -> 0 <= orders -> 0 <= levels ->
  client_ok t orders levels b ∅ (λ _, []) /\ quotes_ok b ∅.
Proof.
  intros Hm Ho Hl. unfold MarketOrderBook.make_sized in Hm.
  destruct (@pool_new MarketOrder orders) as [p|] eqn:Ep; [|done].
  destruct (@pool_new Level levels) as [q|] eqn:Eq; [|done]. injection Hm as <-.
  pose proof (pool_new_ok _ _ Ep). pose proof (pool_new_ok _ _ Eq).
  unfold pool_new in Ep, Eq. destruct ((orders =? 0) || _); [done|]. injection Ep as <-.
  destruct ((levels =? 0) || _); [done|]. injection Eq as <-.
  split; [|split; left; by split_and!].
  split; cbn [cb_levels cb_orders cb_live cb_ticker_id lv_orders lv_levels pool_blocks pool_capacity].
  - by apply levels_ok_empty.
  - intros id a. unfold data. rewrite !lookup_empty. cbn. naive_solver.
  - intros id. rewrite lookup_empty. split; [set_solver|]. by intros [? ?].
  - intros id. unfold image. cbn. by rewrite !lookup_empty.
  - intros id [? Hx]. by rewrite lookup_empty in Hx.
  - intros a x. unfold data. by rewrite lookup_empty.
  - done.
  - done.
  - done.
Qed.

(** Any sequence of updates, those refused included. *)
Definition client_feed (us : list MEMarketUpdate) (b : MarketOrderBook) : res MarketOrderBook :=
  res_fold (λ b u, '(_, _, b) ← MarketOrderBook.onMarketUpdate u b; Ok b) us b.

(** C30: whatever updates arrive, valid or not, the book never fails; it
    always holds some set of orders, lists it by id, and quotes its best
    prices with their total quantities. *)
Theorem client_book_is_robust t orders levels b0 us :
  MarketOrderBook.make_sized t orders levels = Some b0 -> 0 <= orders -> 0 <= levels ->
  Forall update_wf us ->
  exists b m, client_feed us b0 = Ok b /\ MarketOrderBook.liveOrders b = Ok (sorted_view m) /\
    best_of BUY m (bid_price (cb_bbo b)) (bid_qty (cb_bbo b)) /\
    best_of SELL m (ask_price (cb_bbo b)) (ask_qty (cb_bbo b)).
Proof.
  intros Hm Ho Hl Hus. destruct (client_make_ok _ _ _ _ Hm Ho Hl) as (Hok & Hq).
  revert Hok Hq. generalize (∅ : View), (λ _ : Side, [] : list GLevel), b0. clear Hm.
  unfold client_feed. induction Hus as [|u us Hu Hus IH]; intros m G b Hok Hq; cbn [res_fold].
  - exists b, m. split; [done|]. split; [by eapply client_liveOrders|exact Hq].
  - destruct Hu as (_ & Hid & _ & _ & _ & Hqty & _).
    destruct (onMarketUpdate_ok t orders levels b m G u Hok Hq) as (ok & cb & b' & -> & Hf & Ht & _);
      [apply Hid|done|]. cbn [mbind res_bind]. destruct ok.
    + destruct (Ht eq_refl) as (_ & m' & G' & _ & Hok' & Hq'). by apply (IH m' G').
    + destruct (Hf eq_refl) as [-> _]. by apply (IH m G).
Qed.

(** Updates of the witness: an unknown order is canceled, an order is added
    twice, the book is cleared. *)
Definition demo_updates : list MEMarketUpdate :=
  [ mkUpdate MD_CANCEL 9 0 BUY 100 5 1; mkUpdate MD_ADD 1 0 BUY 100 5 1;
    mkUpdate MD_ADD 1 0 BUY 100 5 1; mkUpdate MD_TRADE OrderId_INVALID 0 SELL 100 2 0;
    mkUpdate MD_MODIFY 1 0 BUY 100 3 1; mkUpdate MD_ADD 2 0 SELL 101 4 1;
    mkUpdate MD_ADD 3 7 SELL 101 4 1 ].

Lemma client_book_is_robust_witness :
  exists b0 b m, MarketOrderBook.make_sized 0 4 2 = Some b0 /\ client_feed demo_updates b0 = Ok b /\
    MarketOrderBook.liveOrders b = Ok (sorted_view m) /\
    best_of BUY m (bid_price (cb_bbo b)) (bid_qty (cb_bbo b)).
Proof.
  assert (H : exists b0, MarketOrderBook.make_sized 0 4 2 = Some b0).
  { eexists. vm_compute. reflexivity. }
  destruct H as [b0 Hm].
  assert (Hwf : Forall update_wf demo_updates).
  { unfold demo_updates. rewrite !Forall_cons, Forall_nil.
    unfold update_wf, is_u64, is_u32, is_i64, MarketUpdateType_wf, Side_wf, is_u8, is_i8.
    split_and!; by vm_compute. }
  destruct (client_book_is_robust 0 4 2 b0 demo_updates Hm ltac:(lia) ltac:(lia) Hwf)
    as (b & m & H1 & H2 & H3 & _).
  exists b0, b, m. split; [exact Hm|]. split; [exact H1|]. split; [exact H2|exact H3].
Defined.
