(* ===== verification/ClientFollows.v ===== *)
(** The client follows the exchange.

    The order book of the trading side is fed with the updates that the
    exchange's book publishes.  The pools of the two books have the same
    sizes, so the client always has room for the order of an ADD: an ADD is
    the last update of its request, and the book after the request fits the
    pools of the exchange. *)
From S2P Require Import Prelude.
From S2P Require Import Types.
From S2P Require Import MemPool.
From S2P Require Import Ring.
From S2P Require Import PriceLevels.
From S2P Require Import LevelsView.
From S2P Require Import MatchBook.
From S2P Require Import BookSpec.
From S2P Require Import BookRefinement.
From S2P Require Import BookInvariant.
From S2P Require Import BookTheorems.
From S2P Require Import MarketView.
From S2P Require Import BookHash.
From S2P Require Import TradingTypes.
From S2P Require Import Snapshot.
From S2P Require Import ClientBook.
From S2P Require Import ClientBookSpec.
From stdpp Require Import functions base gmap list sorting.
From Stdlib Require Import ZArith Lia.

Local Open Scope Z_scope.

(** Feeding updates, with the answers of the book. *)
Fixpoint client_run (us : list MEMarketUpdate) (b : MarketOrderBook) :
    res (list bool * MarketOrderBook) :=
  match us with
  | [] => Ok ([], b)
  | u :: us' =>
      '(ok, _, b) ← MarketOrderBook.onMarketUpdate u b;
      '(oks, b) ← client_run us' b;
      Ok (ok :: oks, b)
  end.

(** Prices of the orders of one side of a view. *)
Definition view_prices (s : Side) (m : View) : gset Z :=
  list_to_set (mu_price <$> List.filter (λ u, bool_decide (mu_side u = s)) (map_to_list m).*2).

(** The view fits pools of the given sizes. *)
Definition fits (orders levels : Z) (m : View) : Prop :=
  Z.of_nat (size m) <= orders /\
  Z.of_nat (size (view_prices BUY m) + size (view_prices SELL m)) <= levels.

(** Every ADD of the updates leads to a view that fits. *)
Fixpoint adds_fit (orders levels : Z) (us : list MEMarketUpdate) (m : View) : Prop :=
  match us with
  | [] => True
  | u :: us' =>
      exists m', apply_update u m = Some m' /\ (mu_type u = MD_ADD -> fits orders levels m') /\
        adds_fit orders levels us' m'
  end.

(** ** Prices of a view *)
Lemma elem_of_view_prices s m p :
  p ∈ view_prices s m <-> exists id u, m !! id = Some u /\ mu_side u = s /\ mu_price u = p.
Proof.
  unfold view_prices. rewrite elem_of_list_to_set, list_elem_of_fmap. split.
  - intros (u & -> & Hu). apply list_elem_of_In, filter_In in Hu as [Hu Hs].
    apply list_elem_of_In, list_elem_of_fmap in Hu as ([id v] & -> & Hm%elem_of_map_to_list).
    apply bool_decide_eq_true in Hs. eauto.
  - intros (id & u & Hm & Hs & <-). exists u. split; [done|].
    apply list_elem_of_In, filter_In. split; [|by apply bool_decide_eq_true].
    apply list_elem_of_In, list_elem_of_fmap. exists (id, u). split; [done|].
    by apply elem_of_map_to_list.
Qed.

Lemma view_prices_book a s :
  book_wf a -> valid_side s -> view_prices s (view a) = prices (side_of s a).
Proof.
  intros W Hs. apply set_eq. intros p. rewrite elem_of_view_prices, elem_of_prices. split.
  - intros (id & u & (x & Hx & _ & ->)%(view_of_lookup _ _ _ (bw_ids _ W)) & Hside & <-).
    exists x. split; [|done]. apply elem_of_all_orders in Hx as (s' & Hs' & Hx).
    pose proof (ow_side _ _ _ (bw_orders _ W s' x Hs' Hx)) as E. cbn in Hside. congruence.
  - intros (x & Hx & <-). exists (o_market_order_id x), (order_update x).
    pose proof (ow_side _ _ _ (bw_orders _ W s x Hs Hx)) as E.
    split; [|by cbn]. apply (view_of_lookup _ _ _ (bw_ids _ W)). exists x.
    split; [|done]. apply elem_of_all_orders. eauto.
Qed.

Lemma view_prices_client t A L b m G s :
  client_ok t A L b m G -> valid_side s ->
  view_prices s m = prices (resting (pool_blocks (lv_orders (cb_levels b))) (G s)).
Proof.
  intros Hok Hs. apply set_eq. intros p. rewrite elem_of_view_prices, elem_of_prices. split.
  - intros (id & u & Hm & Hside & <-).
    destruct (view_resting _ _ _ _ _ _ _ _ Hok Hm) as (_ & x & Hx & _ & ->).
    cbn in Hside. rewrite <- Hside. exists x. split; [|done]. exact Hx.
  - intros (x & Hx & <-). destruct (client_resting _ _ _ _ _ _ _ _ Hok Hx) as [E Hm].
    exists (mo_order_id x), (order_of (cb_ticker_id b) x). by split_and!.
Qed.

Lemma view_size a : book_wf a -> size (view a) = length (all_orders a).
Proof.
  intros W. rewrite <- (size_dom (D := gset Z)). unfold view, view_of.
  rewrite dom_list_to_map_L, view_keys, size_list_to_set by apply W. apply length_fmap.
Qed.

Lemma view_fits a : book_wf a -> fits (a_order_capacity a) (a_level_capacity a) (view a).
Proof.
  intros W. unfold fits. rewrite view_size, !view_prices_book by (done || by (left + right)).
  split; apply W.
Qed.

(** ** What the exchange publishes *)
Definition published (t : Z) (u : MEMarketUpdate) : Prop :=
  mu_ticker_id u = t /\ 0 <= mu_order_id u /\ is_u32 (mu_qty u) /\ mu_type u <> MD_CLEAR.

Lemma updates_app_Forall (P : MEMarketUpdate -> Prop) e1 e2 :
  Forall P (updates_of e1) -> Forall P (updates_of e2) -> Forall P (updates_of (e1 ++ e2)).
Proof. intros H1 H2. rewrite updates_of_app. by apply Forall_app. Qed.

Lemma fills_published t c s o id p l :
  Forall public_wf l -> forall leaves leaves0 fs lv rest, is_u32 leaves ->
  fill s p leaves l = (fs, lv, rest) ->
  Forall (λ u, published t u /\ mu_type u <> MD_ADD) (updates_of (fills_events t c s o id leaves0 fs))
  /\ is_u32 lv.
Proof.
  induction 1 as [|x l Hx Hl IH]; intros leaves leaves0 fs lv rest Hlv Hf; cbn [fill] in Hf.
  { injection Hf as <- <- <-. by split. }
  destruct ((leaves =? 0) || _) eqn:E0; [injection Hf as <- <- <-; by split|].
  pose proof (pw_qty _ Hx) as Hq. pose proof (pw_id _ Hx) as Hid.
  assert (Hfill : forall q lv0, 0 <= q <= Z.min leaves (o_qty x) ->
    Forall (λ u, published t u /\ mu_type u <> MD_ADD) (updates_of (fill_events t c s o id lv0 x q))).
  { intros q lv0 Hqr. unfold fill_events, published, is_u32, OrderId_INVALID, INT32_MAX in *. cbn [updates_of].
    repeat (apply Forall_cons; split; [|]); [..|constructor];
      destruct (o_qty x - q =? 0) eqn:Eq; cbn; split_and!; try done; try lia. }
  unfold is_u32 in *. destruct (o_qty x - Z.min leaves (o_qty x) =? 0) eqn:Eq.
  - destruct (fill s p (leaves - Z.min leaves (o_qty x)) l) as [[fs' lv'] rest'] eqn:Ef.
    injection Hf as <- <- <-. cbn [fills_events].
    destruct (IH (leaves - Z.min leaves (o_qty x)) (leaves0 - Z.min leaves (o_qty x)) _ _ _ ltac:(lia) Ef) as [H1 H2].
    split; [|done]. apply updates_app_Forall; [apply Hfill; lia|done].
  - injection Hf as <- <- <-. cbn [fills_events]. split; [|lia].
    apply updates_app_Forall; [apply Hfill; lia|constructor].
Qed.

(** The updates of an accepted order: fills, then possibly its ADD. *)
Lemma trade_updates c o t s p q a :
  book_wf a -> is_u32 q -> spec_reason c o t s p q a = NONE ->
  exists us0 us1 : list MEMarketUpdate,
    updates_of (snd (spec_trade c o t s p q a)) = us0 ++ us1 /\
    Forall (λ u, published t u /\ mu_type u <> MD_ADD) us0 /\ Forall (published t) us1 /\
    (length us1 <= 1)%nat.
Proof.
  intros W Hq Hr. destruct (spec_reason_NONE _ _ _ _ _ _ _ Hr) as (_ & _ & Hs & _ & _ & _ & _ & Hn & _).
  pose proof (valid_opposite _ Hs) as Hso. unfold spec_trade. cbv zeta.
  change (side_of (opposite s) (accept c o a)) with (side_of (opposite s) a).
  destruct (fill s p q (side_of (opposite s) a)) as [[fs lv] rest] eqn:Ef.
  destruct (fills_published t c s o (a_next_id a) p _ (book_public _ _ W Hso) _ q _ _ _ Hq Ef)
    as [Hfs Hlv].
  destruct (lv =? 0); cbn [snd].
  - exists (updates_of (fills_events t c s o (a_next_id a) q fs)), []. rewrite app_nil_r.
    split_and!; [done|done|constructor|cbn; lia].
  - eexists _, [_]. rewrite updates_of_app. split; [reflexivity|]. split; [exact Hfs|].
    split; [|done]. apply Forall_singleton. pose proof (bw_next _ W). split_and!; [done|cbn; lia|done|done].
Qed.

(** ** Room for every ADD *)
Lemma adds_fit_none A L us m m' :
  apply_all us m = Some m' -> Forall (λ u, mu_type u <> MD_ADD) us -> adds_fit A L us m.
Proof.
  intros Hap Hus. revert m Hap. induction Hus as [|u us Hu Hus IH]; intros m Hap; [done|].
  cbn in Hap |- *. destruct (apply_update u m) as [m1|]; [|done].
  exists m1. split; [done|]. split; [done|]. by apply IH.
Qed.

Lemma adds_fit_app A L us1 us2 m m1 :
  adds_fit A L us1 m -> apply_all us1 m = Some m1 -> adds_fit A L us2 m1 ->
  adds_fit A L (us1 ++ us2) m.
Proof.
  revert m. induction us1 as [|u us1 IH]; intros m H1 Hap H2; [by injection Hap as ->|].
  destruct H1 as (m' & Hu & Hfit & H1). cbn in Hap |- *. rewrite Hu in Hap.
  exists m'. split; [done|]. split; [done|]. by apply IH.
Qed.

Lemma spec_step_capacity op a :
  a_order_capacity (fst (spec_step op a)) = a_order_capacity a /\
  a_level_capacity (fst (spec_step op a)) = a_level_capacity a /\
  a_ticker_id (fst (spec_step op a)) = a_ticker_id a.
Proof.
  destruct op as [c o t s p q|c o t|c o]; cbn [spec_step].
  - unfold spec_add, spec_trade, set_side. cbv zeta. case_bool_decide; [|done].
    destruct (fill _ _ _ _) as [[fs lv] rest]. destruct (lv =? 0); by repeat case_decide.
  - unfold spec_cancel, set_side. by repeat case_match.
  - unfold spec_query. by repeat case_match.
Qed.

(** The updates of one request. *)
Lemma step_follows op a :
  book_wf a -> op_wf op ->
  Forall (published (a_ticker_id a)) (updates_of (snd (spec_step op a))) /\
  adds_fit (a_order_capacity a) (a_level_capacity a) (updates_of (snd (spec_step op a))) (view a).
Proof.
  intros W Hop. pose proof (step_replay op a W Hop) as Hrep. pose proof (spec_step_wf op a W Hop) as W'.
  destruct (spec_step_capacity op a) as (EA & EL & _).
  pose proof (view_fits _ W') as Hfit. rewrite EA, EL in Hfit. clear EA EL W'. revert Hrep Hfit.
  destruct op as [c o t s p q|c o t|c o]; cbn [spec_step].
  - unfold spec_add. cbv zeta. case_bool_decide as Hr; [|by cbn].
    destruct (spec_reason_NONE _ _ _ _ _ _ _ Hr) as (_ & <- & _).
    destruct (trade_updates c o t s p q a W Hop Hr) as (us0 & us1 & -> & H0 & H1 & Hlen).
    intros Hrep Hfit. split; [apply Forall_app; split; [|done]; eapply Forall_impl; [exact H0|by intros ? [? ?]]|].
    rewrite apply_all_app in Hrep. destruct (apply_all us0 (view a)) as [m1|] eqn:E0; [|done].
    eapply adds_fit_app; [|exact E0|].
    + eapply adds_fit_none; [exact E0|]. eapply Forall_impl; [exact H0|by intros ? [? ?]].
    + cbn in Hrep. destruct us1 as [|u [|]]; cbn in Hrep, Hlen; [done| |lia].
      destruct (apply_update u m1) as [m2|] eqn:E1; [|done]. injection Hrep as ->. cbn. eauto.
  - unfold spec_cancel.
    destruct (if (c <? ME_MAX_NUM_CLIENTS) && (t =? a_ticker_id a) then find_order (c, o) a else None)
      as [x|] eqn:Ef; [|by cbn]. intros Hrep _.
    destruct ((c <? ME_MAX_NUM_CLIENTS) && (t =? a_ticker_id a)) eqn:Eg; [|done].
    apply andb_true_iff in Eg as [_ ->%Z.eqb_eq].
    destruct (find_order_split _ _ _ (bw_keys _ W) Ef) as (Hx & _ & _).
    apply elem_of_all_orders in Hx as (s & Hs & Hx).
    pose proof (pw_id _ (order_wf_public _ _ _ W (bw_orders _ W s x Hs Hx) Hs)) as Hid.
    split; [|by eapply adds_fit_none; [exact Hrep|apply Forall_singleton]].
    apply Forall_singleton. split_and!; cbn; [done|lia|done|done].
  - unfold spec_query. intros _ _. repeat case_match; done.
Qed.

Lemma run_follows ops a :
  book_wf a -> Forall op_wf ops ->
  Forall (published (a_ticker_id a)) (updates_of (snd (spec_run ops a))) /\
  adds_fit (a_order_capacity a) (a_level_capacity a) (updates_of (snd (spec_run ops a))) (view a).
Proof.
  intros W Hops. revert a W. induction Hops as [|op ops Hop Hops IH]; intros a W; [done|].
  cbn [spec_run]. destruct (step_follows op a W Hop) as [H1 H2]. pose proof (step_replay op a W Hop) as Hrep.
  pose proof (spec_step_wf op a W Hop) as W1. destruct (spec_step_capacity op a) as (EA & EL & ET).
  destruct (spec_step op a) as [a1 e1]. cbn [fst snd] in *.
  destruct (IH a1 W1) as [H3 H4]. rewrite EA, EL in H4. rewrite ET in H3.
  destruct (spec_run ops a1) as [a2 e2]. cbn [fst snd] in *.
  split; [by apply updates_app_Forall|]. rewrite updates_of_app. by eapply adds_fit_app.
Qed.

(** ** The client's book accepts them all *)
Lemma client_room t A L b m G u :
  client_ok t A L b m G -> 0 <= A -> 0 <= L -> mu_type u = MD_ADD ->
  forall m', apply_update u m = Some m' -> fits A L m' -> has_room u b.
Proof.
  intros Hok HA HL Ety m' Hu Hfit. unfold apply_update in Hu. rewrite Ety in Hu.
  destruct (m !! mu_order_id u) eqn:Em; [done|]. destruct (valid_add u) eqn:Ev; [|done].
  injection Hu as <-. destruct Hfit as [HsA HsL].
  destruct (valid_add_inv u Ev) as [_ Hside].
  pose proof (co_levels _ _ _ _ _ _ Hok) as Hlk.
  pose proof (co_order_capacity _ _ _ _ _ _ Hok) as EA. pose proof (co_level_capacity _ _ _ _ _ _ Hok) as EL.
  unfold has_room. rewrite (pool_available_size (lv_orders (cb_levels b))) by (lia || exact (lk_pool_orders _ _ _ Hlk)).
  rewrite (pool_available_size (lv_levels (cb_levels b))) by (lia || exact (lk_pool_levels _ _ _ Hlk)). rewrite EA, EL.
  split.
  - assert (size (pool_blocks (lv_orders (cb_levels b))) = size m) as ->; [|].
    { rewrite (orders_count _ _ Hlk), <- !(resting_length _ _ _ Hlk), <- length_app.
      rewrite <- (length_map_to_list m), (view_as_list _ _ _ _ _ _ Hok), length_fmap. done. }
    rewrite map_size_insert_None in HsA by done. lia.
  - intros Hnone. rewrite (levels_count _ _ _ Hlk), <- !(prices_size _ _ _ _ Hlk).
    rewrite <- !(view_prices_client _ _ _ _ _ _ _ Hok) by (by (left + right)).
    assert (Hgrow : forall s, view_prices s m ⊆ view_prices s (<[mu_order_id u := u]> m)).
    { intros s p (id & v & Hv & Hrest)%elem_of_view_prices. apply elem_of_view_prices. exists id, v.
      split; [|done]. rewrite lookup_insert_ne; [done|]. intros <-. congruence. }
    assert (Hnew : view_prices (mu_side u) m ⊂ view_prices (mu_side u) (<[mu_order_id u := u]> m)).
    { split; [apply Hgrow|]. intros Hsub.
      assert (Hp : mu_price u ∈ view_prices (mu_side u) m).
      { apply Hsub, elem_of_view_prices. exists (mu_order_id u), u. by rewrite lookup_insert_eq. }
      rewrite (view_prices_client _ _ _ _ _ _ _ Hok Hside) in Hp.
      apply (index_prices _ _ _ _ _ Hlk) in Hp as [lp Hlp]. by rewrite Hnone in Hlp. }
    apply subset_size in Hnew. pose proof (subseteq_size _ _ (Hgrow BUY)).
    pose proof (subseteq_size _ _ (Hgrow SELL)).
    destruct Hside as [E|E]; rewrite E in Hnew; lia.
Qed.

Lemma client_run_ok t A L us b m G :
  client_ok t A L b m G -> quotes_ok b m -> 0 <= A -> 0 <= L ->
  Forall (published t) us -> adds_fit A L us m ->
  exists b' m' G', client_run us b = Ok (replicate (length us) true, b') /\
    apply_all us m = Some m' /\ client_ok t A L b' m' G' /\ quotes_ok b' m'.
Proof.
  intros Hok Hq HA HL Hus. revert b m G Hok Hq.
  induction Hus as [|u us (Ht & Hid & Hqty & Hcl) Hus IH]; intros b m G Hok Hq Hfit.
  { exists b, m, G. by split_and!. }
  destruct Hfit as (m1 & Hu & Hfit & Hrest).
  destruct (onMarketUpdate_ok t A L b m G u Hok Hq Hid Hqty) as (ok & cb & b1 & Hon & _ & Htrue & Hiff).
  assert (Hcu : client_update u m = Some m1).
  { unfold client_update. unfold apply_update in Hu |- *. destruct (mu_type u); try done; congruence. }
  assert (ok = true) as ->.
  { apply Hiff. split; [by rewrite (co_ticker _ _ _ _ _ _ Hok)|]. split; [eauto|]. intros Ety.
    eapply client_room; eauto. }
  destruct (Htrue eq_refl) as (_ & m1' & G1 & Hcu' & Hok1 & Hq1). rewrite Hcu in Hcu'.
  injection Hcu' as <-.
  destruct (IH b1 m1 G1 Hok1 Hq1 Hrest) as (b' & m' & G' & Hrun & Hap & Hok' & Hq').
  exists b', m', G'. cbn. rewrite Hon. cbn. rewrite Hrun. cbn. rewrite Hu. by split_and!.
Qed.

(** C5: whatever requests the exchange's book has served, a new client book
    with pools of the same sizes accepts every published update; it then lists
    the same live orders as the exchange (so their checksums agree), and quotes
    the best prices of these orders with their total quantities. *)
Theorem client_follows_exchange t orders levels ops b0 b c0 :
  MEOrderBook.make_sized t orders levels = Some b0 ->
  MarketOrderBook.make_sized t orders levels = Some c0 -> 0 <= orders -> 0 <= levels ->
  Forall op_wf ops -> book_run ops b0 = Ok b ->
  exists c us,
    client_run (updates_of (bk_events b)) c0
      = Ok (replicate (length (updates_of (bk_events b))) true, c) /\
    MEOrderBook.liveOrders b = Ok us /\ MarketOrderBook.liveOrders c = Ok us /\
    best_of BUY (view_of_live us) (bid_price (cb_bbo c)) (bid_qty (cb_bbo c)) /\
    best_of SELL (view_of_live us) (ask_price (cb_bbo c)) (ask_qty (cb_bbo c)).
Proof.
  intros Hm Hc Ho Hl Hops Hr. destruct (make_refines _ _ _ _ Ho Hl Hm) as [R E].
  pose proof (empty_book_wf t orders levels Ho Hl) as W.
  pose proof (run_refines ops b0 _ _ R W Hops) as H.
  pose proof (spec_run_wf ops _ W Hops) as W'. pose proof (run_replay ops _ W Hops) as Hrep.
  destruct (run_follows ops _ W Hops) as [Hpub Hfit]. cbn [empty_book a_ticker_id] in Hpub.
  change (a_order_capacity _) with orders in Hfit. change (a_level_capacity _) with levels in Hfit.
  destruct (spec_run ops _) as [a evs]. destruct H as (b' & G' & Hb' & R' & Ev).
  rewrite Hr in Hb'. injection Hb' as <-. cbn [fst snd] in *. rewrite E in Ev. cbn in Ev.
  destruct (view_live b a G' R' W') as (us & Hus & Hv & Hsort).
  destruct (client_make_ok t orders levels c0 Hc Ho Hl) as [Hok Hq].
  rewrite Ev. destruct (client_run_ok t orders levels _ c0 ∅ _ Hok Hq Ho Hl Hpub Hfit)
    as (c & m & G & Hrun & Hap & Hokc & [HB HS]).
  change (view (empty_book t orders levels)) with (∅ : View) in Hrep. rewrite Hap in Hrep. injection Hrep as ->.
  exists c, us. split; [exact Hrun|]. split; [exact Hus|]. rewrite <- Hv.
  split; [|by split]. rewrite (client_liveOrders _ _ _ _ _ _ Hokc), Hv. f_equal.
  by apply sorted_view_of_live.
Qed.

Lemma client_follows_exchange_witness :
  exists b c us, demo_book = Some b /\ MEOrderBook.liveOrders b = Ok us /\
    MarketOrderBook.liveOrders c = Ok us.
Proof.
  assert (H : exists b0 b c0, MEOrderBook.make_sized 0 4 2 = Some b0 /\ book_run demo_ops b0 = Ok b /\
    demo_book = Some b /\ MarketOrderBook.make_sized 0 4 2 = Some c0).
  { eexists _, _, _. split; [vm_compute; reflexivity|]. split; [vm_compute; reflexivity|].
    split; vm_compute; reflexivity. }
  destruct H as (b0 & b & c0 & Hm & Hr & Hd & Hc).
  destruct (client_follows_exchange 0 4 2 demo_ops b0 b c0 Hm Hc ltac:(lia) ltac:(lia) demo_ops_wf Hr)
    as (c & us & _ & H1 & H2 & _).
  exists b, c, us. split; [exact Hd|]. split; [exact H1|exact H2].
Defined.
