(* ===== verification/MarketRecovery.v ===== *)
(** Recovery of the market data: trading/market_data/market_recovery.h.

    The two caches are maps from sequence numbers to frames, read in the
    order of their keys, as the code iterates over its [std::map]s. *)
From S2P Require Import Prelude.
From S2P Require Import Types.
From S2P Require Import MarketView.
From S2P Require Import BookHash.
From stdpp Require Import functions base gmap list sorting.
From Stdlib Require Import ZArith Lia.

Local Open Scope Z_scope.

(** ** Maps read in the order of their keys *)
Section Entries.
Context {A : Type}.

Definition entry_le (a b : Z * A) : Prop := a.1 <= b.1.
#[export] Instance entry_le_dec a b : Decision (entry_le a b).
Proof. unfold entry_le. apply _. Defined.
#[export] Instance entry_le_total : Total entry_le.
Proof. intros a b. unfold entry_le. lia. Qed.
#[export] Instance entry_le_trans : Transitive entry_le.
Proof. intros a b c. unfold entry_le. lia. Qed.

Definition entries (m : gmap Z A) : list (Z * A) := merge_sort entry_le (map_to_list m).

(** The entries behind [upper_bound(k)]. *)
Definition above (k : Z) (m : gmap Z A) : gmap Z A := filter (λ p, k < p.1) m.

End Entries.

(** ** The recovery state machine *)
Record Counters : Type := mkCounters {
  c_gaps : Z;
  c_duplicates : Z;
  c_overflows : Z;
  c_invalid : Z;
  c_hash_failures : Z;
  c_recoveries : Z
}.

Record MarketRecovery : Type := mkRecovery {
  mr_limit : Z;
  mr_recovering : bool;
  mr_invalid_cycle : bool;
  mr_cycle : Z;
  mr_expected : Z;
  mr_snapshot : gmap Z MDPMarketUpdate;
  mr_incremental : gmap Z MDPMarketUpdate;
  mr_counters : Counters
}.

(** [struct Batch]. *)
Record Batch : Type := mkBatch {
  ba_events : list MEMarketUpdate;
  ba_watermark : Z
}.

(** [State]: the orders of each ticker by id. *)
Notation RecoveryState := (list View).

Module MarketRecovery.

Definition with_counters (f : Counters -> Counters) (r : MarketRecovery) : MarketRecovery :=
  mkRecovery (mr_limit r) (mr_recovering r) (mr_invalid_cycle r) (mr_cycle r) (mr_expected r)
    (mr_snapshot r) (mr_incremental r) (f (mr_counters r)).

Definition gap (c : Counters) : Counters :=
  mkCounters (u64 (c_gaps c + 1)) (c_duplicates c) (c_overflows c) (c_invalid c)
    (c_hash_failures c) (c_recoveries c).
Definition duplicate (c : Counters) : Counters :=
  mkCounters (c_gaps c) (u64 (c_duplicates c + 1)) (c_overflows c) (c_invalid c)
    (c_hash_failures c) (c_recoveries c).
Definition overflow (c : Counters) : Counters :=
  mkCounters (c_gaps c) (c_duplicates c) (u64 (c_overflows c + 1)) (c_invalid c)
    (c_hash_failures c) (c_recoveries c).
Definition invalid (c : Counters) : Counters :=
  mkCounters (c_gaps c) (c_duplicates c) (c_overflows c) (u64 (c_invalid c + 1))
    (c_hash_failures c) (c_recoveries c).
Definition hash_failure (c : Counters) : Counters :=
  mkCounters (c_gaps c) (c_duplicates c) (c_overflows c) (c_invalid c)
    (u64 (c_hash_failures c + 1)) (c_recoveries c).
Definition recovery (c : Counters) : Counters :=
  mkCounters (c_gaps c) (c_duplicates c) (c_overflows c) (c_invalid c) (c_hash_failures c)
    (u64 (c_recoveries c + 1)).

(** The constructor. *)
Definition make (limit : Z) : res MarketRecovery :=
  _ ← ASSERT (ME_MAX_TICKERS + 2 <=? limit);
  Ok (mkRecovery limit true false 0 1 ∅ ∅ (mkCounters 0 0 0 0 0 0)).

Definition restart (r : MarketRecovery) : MarketRecovery :=
  mkRecovery (mr_limit r) true true (mr_cycle r) (mr_expected r) ∅ ∅ (mr_counters r).

(** The snapshot cycle is given up, the increments are kept. *)
Definition invalidate (drop : bool) (r : MarketRecovery) : MarketRecovery :=
  mkRecovery (mr_limit r) (mr_recovering r) true (mr_cycle r) (mr_expected r)
    (if drop then ∅ else mr_snapshot r) (mr_incremental r) (mr_counters r).

Definition recovering (r : MarketRecovery) : bool := mr_recovering r.
Definition expected (r : MarketRecovery) : Z := mr_expected r.
Definition cached (r : MarketRecovery) : Z :=
  Z.of_nat (size (mr_snapshot r)) + Z.of_nat (size (mr_incremental r)).

Definition liveCandidate (update : MDPMarketUpdate) (r : MarketRecovery) : bool * MarketRecovery :=
  if mr_recovering r then (false, r) else
  if mdp_seq_num update =? mr_expected r then (true, r) else
  if mdp_seq_num update <? mr_expected r then (false, with_counters duplicate r) else
  (false, restart (with_counters gap r)).

Definition commitLive (r : MarketRecovery) : MarketRecovery :=
  mkRecovery (mr_limit r) (mr_recovering r) (mr_invalid_cycle r) (mr_cycle r)
    (u64 (mr_expected r + 1)) (mr_snapshot r) (mr_incremental r) (mr_counters r).

(** [sameEvent] compares every field. *)
Definition sameEvent (a b : MEMarketUpdate) : bool := bool_decide (a = b).

(** A frame of a later cycle drops the cycle in progress and the increments
    that it covers. *)
Definition newer_cycle (update : MDPMarketUpdate) (r : MarketRecovery) : MarketRecovery :=
  if mr_cycle r <? mdp_snapshot_cycle update then
    mkRecovery (mr_limit r) (mr_recovering r) false (mdp_snapshot_cycle update) (mr_expected r) ∅
      (above (mdp_watermark update) (mr_incremental r)) (mr_counters r)
  else r.

(** [cached() > limit_]. *)
Definition check_limit (r : MarketRecovery) : bool * MarketRecovery :=
  if mr_limit r <? cached r then (false, with_counters overflow (restart r)) else (true, r).

Definition store_frame (snapshot : bool) (update : MDPMarketUpdate) (r : MarketRecovery) :
    MarketRecovery :=
  let seq := mdp_seq_num update in
  mkRecovery (mr_limit r) (mr_recovering r) (mr_invalid_cycle r) (mr_cycle r) (mr_expected r)
    (if snapshot then <[seq := update]> (mr_snapshot r) else mr_snapshot r)
    (if snapshot then mr_incremental r else <[seq := update]> (mr_incremental r)) (mr_counters r).

(** [try_emplace] and what follows. *)
Definition emplace (snapshot : bool) (update : MDPMarketUpdate) (r : MarketRecovery) :
    bool * MarketRecovery :=
  match (if snapshot then mr_snapshot r else mr_incremental r) !! mdp_seq_num update with
  | None => check_limit (store_frame snapshot update r)
  | Some old =>
      let same := sameEvent (mdp_update old) (mdp_update update)
        && (negb snapshot || ((mdp_watermark old =? mdp_watermark update)
                              && (mdp_state_hash old =? mdp_state_hash update))) in
      let r := if snapshot then r else with_counters duplicate r in
      if negb same then
        (false, with_counters invalid (if snapshot then invalidate true r else restart r))
      else if snapshot then (false, with_counters duplicate r)
      else check_limit r
  end.

Definition ingest (snapshot : bool) (update : MDPMarketUpdate) (r : MarketRecovery) :
    bool * MarketRecovery :=
  if negb (mr_recovering r) then (false, r) else
  if snapshot then
    if (mdp_snapshot_cycle update =? 0) || (mdp_snapshot_cycle update <? mr_cycle r)
    then (false, r) else
    let r := newer_cycle update r in
    if mr_invalid_cycle r then (false, r) else emplace true update r
  else emplace false update r.

(** [flatten]: ticker by ticker, by order id. *)
Definition flatten (state : RecoveryState) : list MEMarketUpdate :=
  mjoin ((λ m, (entries m).*2) <$> state).

(** A trade does not change the books. *)
Definition valid_trade (e : MEMarketUpdate) : bool :=
  valid_qty (mu_qty e) && (0 <? mu_price e) && negb (mu_price e =? Price_INVALID)
  && is_buy_or_sell (mu_side e).

(** Its part that looks at one ticker. *)
Definition apply_to (event : MEMarketUpdate) (orders : View) : option View :=
  if bool_decide (mu_type event = MD_CLEAR) then Some ∅ else
  if bool_decide (mu_type event = MD_TRADE) then
    if valid_trade event then Some orders else None
  else
  if (mu_order_id event =? 0) || (ME_MAX_ORDER_IDS <=? mu_order_id event) then None else
  let found := orders !! mu_order_id event in
  if bool_decide (mu_type event = MD_ADD) then
    if bool_decide (is_Some found) || (mu_price event <=? 0) || (mu_price event =? Price_INVALID)
       || negb (valid_qty (mu_qty event)) || (mu_priority event =? 0)
       || (mu_priority event =? Priority_INVALID) || negb (is_buy_or_sell (mu_side event))
    then None else Some (<[mu_order_id event := event]> orders)
  else
  match found with
  | None => None
  | Some x =>
      if negb (bool_decide (mu_side x = mu_side event)) || negb (mu_price x =? mu_price event)
      then None else
      if bool_decide (mu_type event = MD_CANCEL)
      then Some (delete (mu_order_id event) orders) else
      if bool_decide (mu_type event = MD_MODIFY) && valid_qty (mu_qty event)
      then Some (<[mu_order_id event := set_mu_qty (mu_qty event) x]> orders) else None
  end.

Definition apply (state : RecoveryState) (event : MEMarketUpdate) : option RecoveryState :=
  if ME_MAX_TICKERS <=? mu_ticker_id event then None else
  orders ← state !! Z.to_nat (mu_ticker_id event);
  orders ← apply_to event orders;
  Some (<[Z.to_nat (mu_ticker_id event) := orders]> state).

(** One iteration of the loop over the cached snapshot. *)
Definition take_frame (cycle watermark hash last_seq : Z)
    (st : list bool * RecoveryState * list MEMarketUpdate) (p : Z * MDPMarketUpdate) :
    option (list bool * RecoveryState * list MEMarketUpdate) :=
  let '(cleared, state, events) := st in
  let '(id, wrapped) := p in
  if negb (mdp_watermark wrapped =? watermark) || negb (mdp_snapshot_cycle wrapped =? cycle)
     || negb (mdp_state_hash wrapped =? hash) then None else
  let event := mdp_update wrapped in
  if id =? 0 then Some st else
  if bool_decide (mu_type event = MD_SNAPSHOT_END) then
    if negb (id =? last_seq) then None else Some st
  else
  if ME_MAX_TICKERS <=? mu_ticker_id event then None else
  done ← cleared !! Z.to_nat (mu_ticker_id event);
  cleared ← (if bool_decide (mu_type event = MD_CLEAR) then
               if done : bool then None else Some (<[Z.to_nat (mu_ticker_id event) := true]> cleared)
             else if bool_decide (mu_type event = MD_ADD) && done then Some cleared else None);
  state ← apply state event;
  Some (cleared, state, events ++ [event]).

Fixpoint take_frames (cycle watermark hash last_seq : Z) (l : list (Z * MDPMarketUpdate))
    (st : list bool * RecoveryState * list MEMarketUpdate) :
    option (list bool * RecoveryState * list MEMarketUpdate) :=
  match l with
  | [] => Some st
  | p :: l => st ← take_frame cycle watermark hash last_seq st p;
              take_frames cycle watermark hash last_seq l st
  end.

(** The loop over the increments behind the watermark. *)
Fixpoint take_increments (next : Z) (l : list (Z * MDPMarketUpdate)) (state : RecoveryState)
    (events : list MEMarketUpdate) : option (Z * list MEMarketUpdate) :=
  match l with
  | [] => Some (next, events)
  | (id, u) :: l =>
      if negb (id =? next) then None else
      state ← apply state (mdp_update u);
      take_increments (u64 (next + 1)) l state (events ++ [mdp_update u])
  end.

Definition no_orders : RecoveryState := replicate (Z.to_nat ME_MAX_TICKERS) ∅.
Definition none_cleared : list bool := replicate (Z.to_nat ME_MAX_TICKERS) false.

Definition build (r : MarketRecovery) : option Batch * MarketRecovery :=
  if mr_invalid_cycle r then (None, r) else
  let frames := entries (mr_snapshot r) in
  match head frames, last frames with
  | Some (_, first), Some (_, last) =>
      if negb (mdp_seq_num first =? 0)
         || negb (bool_decide (mu_type (mdp_update first) = MD_SNAPSHOT_START))
         || negb (bool_decide (mu_type (mdp_update last) = MD_SNAPSHOT_END)) then (None, r) else
      let watermark := mdp_watermark first in
      if negb (mdp_watermark last =? watermark)
         || negb (mu_order_id (mdp_update first) =? watermark)
         || negb (mu_order_id (mdp_update last) =? watermark)
         || negb (mdp_state_hash first =? mdp_state_hash last)
      then (None, with_counters invalid (invalidate false r)) else
      if negb (mdp_seq_num last =? u64 (Z.of_nat (size (mr_snapshot r)) - 1)) then (None, r) else
      let pending := entries (above watermark (mr_incremental r)) in
      if (match head pending with Some (k, _) => negb (k =? u64 (watermark + 1)) | None => false end)
      then (None, r) else
      match take_frames (mr_cycle r) watermark (mdp_state_hash first) (mdp_seq_num last) frames
              (none_cleared, no_orders, []) with
      | None => (None, r)
      | Some (cleared, state, events) =>
          if negb (forallb id cleared) then (None, r) else
          if negb (bookHash (flatten state) =? mdp_state_hash first)
          then (None, with_counters hash_failure (invalidate false r)) else
          match take_increments (u64 (watermark + 1)) pending state events with
          | None => (None, r)
          | Some (next, events) => (Some (mkBatch events (u64 (next - 1))), r)
          end
      end
  | _, _ => (None, r)
  end.

Definition commit (batch : Batch) (r : MarketRecovery) : MarketRecovery :=
  with_counters recovery
    (mkRecovery (mr_limit r) false (mr_invalid_cycle r) (mr_cycle r) (u64 (ba_watermark batch + 1))
       ∅ ∅ (mr_counters r)).

End MarketRecovery.
