(* ===== verification/RecoveryTheorems.v ===== *)
(** What a recovery delivers.

    Safety: a batch that [build] returns is one complete snapshot cycle whose
    checksum holds, followed by consecutive increments, all as received.
    Progress: from all the frames of a cycle and the increments that follow
    it, in any order and with repetitions, [build] returns the batch that
    brings any book to the publisher's books. *)
From S2P Require Import Prelude.
From S2P Require Import Types.
From S2P Require Import Wire.
From S2P Require Import MarketView.
From S2P Require Import BookHash.
From S2P Require Import Snapshot.
From S2P Require Import MarketRecovery.
From stdpp Require Import functions base gmap list sorting.
From Stdlib Require Import ZArith Lia.

Local Open Scope Z_scope.

(** ** Following a batch *)

(** The effect of an event on the public books: CLEAR empties a ticker. *)
Definition replay_event (views : list View) (u : MEMarketUpdate) : option (list View) :=
  if bool_decide (mu_type u = MD_CLEAR) then
    _ ← views !! Z.to_nat (mu_ticker_id u);
    Some (<[Z.to_nat (mu_ticker_id u) := ∅]> views)
  else apply_ticker u views.

Fixpoint replay_all (us : list MEMarketUpdate) (views : list View) : option (list View) :=
  match us with
  | [] => Some views
  | u :: us => views ← replay_event views u; replay_all us views
  end.

Lemma replay_app us us' views :
  replay_all (us ++ us') views = (replay_all us views ≫= replay_all us').
Proof.
  revert views. induction us as [|u us IH]; intros views; [done|]. cbn.
  destruct (replay_event views u); cbn; [apply IH|done].
Qed.

(** ** Maps read in the order of their keys *)
Section Sorted.
Context {A : Type}.
Implicit Types (m : gmap Z A) (l : list (Z * A)).

Lemma elem_of_entries m k x : (k, x) ∈ entries m <-> m !! k = Some x.
Proof. unfold entries. by rewrite merge_sort_Permutation, elem_of_map_to_list. Qed.

Lemma length_entries m : length (entries m) = size m.
Proof. unfold entries. rewrite merge_sort_Permutation. apply length_map_to_list. Qed.

Lemma entries_keys_NoDup m : NoDup (entries m).*1.
Proof. unfold entries. rewrite merge_sort_Permutation. apply NoDup_fst_map_to_list. Qed.

Lemma entries_strict m : StronglySorted Z.lt (entries m).*1.
Proof.
  pose proof (StronglySorted_merge_sort entry_le (map_to_list m)) as Hs.
  pose proof (entries_keys_NoDup m) as Hnd. fold (entries m) in Hs.
  revert Hs Hnd. generalize (entries m). intros l0 Hs Hnd.
  induction Hs as [|p l Hs IH Hp]; [constructor|]. cbn in Hnd |- *.
  apply NoDup_cons in Hnd as [Hn Hnd]. constructor; [by apply IH|].
  rewrite Forall_forall in Hp. apply Forall_forall. intros k (q & -> & Hq)%list_elem_of_fmap.
  pose proof (Hp q Hq) as Hle. unfold entry_le in Hle.
  assert (p.1 <> q.1) by (intros E; apply Hn; rewrite E; by apply list_elem_of_fmap_2). lia.
Qed.

(** Strictly sorted keys determine the list. *)
Lemma strict_unique l1 l2 :
  StronglySorted Z.lt l1.*1 -> StronglySorted Z.lt l2.*1 -> (forall p, p ∈ l1 <-> p ∈ l2) -> l1 = l2.
Proof.
  revert l2. induction l1 as [|p l1 IH]; intros [|q l2] H1 H2 He; [done| | |].
  - exfalso. by apply (not_elem_of_nil q), He, elem_of_cons; left.
  - exfalso. by apply (not_elem_of_nil p), He, elem_of_cons; left.
  - cbn in H1, H2. inversion H1 as [|? ? H1' Hp]; subst. inversion H2 as [|? ? H2' Hq]; subst.
    rewrite Forall_forall in Hp, Hq.
    assert (p = q) as ->.
    { assert (Hpq : p ∈ q :: l2) by (apply He; by left).
      assert (Hqp : q ∈ p :: l1) by (apply He; by left).
      apply elem_of_cons in Hpq as [->|Hpq]; [done|].
      apply elem_of_cons in Hqp as [->|Hqp]; [done|].
      pose proof (Hp q.1 ltac:(by apply list_elem_of_fmap_2)).
      pose proof (Hq p.1 ltac:(by apply list_elem_of_fmap_2)). lia. }
    f_equal. apply IH; [done|done|]. intros r. specialize (He r). rewrite !elem_of_cons in He.
    split; intros Hr.
    + destruct (proj1 He (or_intror Hr)) as [->|]; [|done].
      pose proof (Hp q.1 ltac:(by apply list_elem_of_fmap_2)). lia.
    + destruct (proj2 He (or_intror Hr)) as [->|]; [|done].
      pose proof (Hq q.1 ltac:(by apply list_elem_of_fmap_2)). lia.
Qed.

Lemma entries_unique m l :
  StronglySorted Z.lt l.*1 -> (forall k x, (k, x) ∈ l <-> m !! k = Some x) -> entries m = l.
Proof.
  intros Hl He. apply strict_unique; [apply entries_strict|done|].
  intros [k x]. by rewrite elem_of_entries, He.
Qed.

Lemma lookup_above k m i x : above k m !! i = Some x <-> m !! i = Some x /\ k < i.
Proof. apply map_lookup_filter_Some. Qed.

End Sorted.

(** A strictly increasing list between its first element and a last one that
    leaves no room is a range. *)
Lemma strict_range (l : list Z) (a : Z) :
  StronglySorted Z.lt l -> (forall k, k ∈ l -> a <= k) ->
  (forall k, last l = Some k -> k = a + Z.of_nat (length l) - 1) -> l = seqZ a (Z.of_nat (length l)).
Proof.
  intros Hs. revert a. induction Hs as [|x l Hs IH Hx]; intros a Hge Hlast; [done|].
  rewrite Forall_forall in Hx.
  pose proof (Hge x ltac:(by left)) as Hxa. cbn [length].
  destruct l as [|y l].
  { specialize (Hlast x eq_refl). cbn in Hlast. assert (x = a) as -> by lia.
    rewrite seqZ_cons by lia. done. }
  assert (Htail : y :: l = seqZ (a + 1) (Z.of_nat (length (y :: l)))).
  { apply IH.
    - intros k Hk. specialize (Hx k Hk). lia.
    - intros k Hk. specialize (Hlast k Hk). cbn [length] in Hlast |- *. lia. }
  assert (y = a + 1).
  { cbn [length] in Htail. rewrite seqZ_cons in Htail by lia. by injection Htail. }
  specialize (Hx y ltac:(by left)). assert (x = a) as -> by lia.
  rewrite seqZ_cons by lia. f_equal. rewrite Htail at 1. f_equal; cbn [length]; lia.
Qed.

(** ** Events: the checks of [apply] imply the public ones *)
Lemma apply_to_public e m m' :
  is_u64 (mu_order_id e) -> mu_type e <> MD_CLEAR -> MarketRecovery.apply_to e m = Some m' ->
  apply_update e m = Some m'.
Proof.
  intros Hid Hc. unfold MarketRecovery.apply_to.
  rewrite bool_decide_false by done.
  case_bool_decide as Ht.
  { case_match; [|done]. intros [= ->]. unfold apply_update. by rewrite Ht. }
  destruct (Z.eqb_spec (mu_order_id e) 0) as [|Hne]; [done|].
  destruct (Z.leb_spec ME_MAX_ORDER_IDS (mu_order_id e)) as [|Hlt]; [done|]. cbn [orb].
  assert (Hvid : valid_order_id (mu_order_id e) = true).
  { unfold valid_order_id, is_u64 in *. rewrite andb_true_iff, !Z.ltb_lt. lia. }
  case_bool_decide as Ha.
  { destruct (m !! mu_order_id e) as [x|] eqn:E; [done|].
    destruct (Z.leb_spec (mu_price e) 0) as [|Hp]; [done|].
    destruct (mu_price e =? Price_INVALID) eqn:Ep; [done|].
    destruct (valid_qty (mu_qty e)) eqn:Eq; [|done].
    destruct (mu_priority e =? 0); [done|]. destruct (mu_priority e =? Priority_INVALID); [done|].
    destruct (is_buy_or_sell (mu_side e)) eqn:Es; [|done]. cbn. intros [= <-].
    unfold apply_update, valid_add. rewrite Ha, E, Hvid, Es, Ep, Eq.
    by rewrite (proj2 (Z.ltb_lt _ _) Hp). }
  destruct (m !! mu_order_id e) as [x|] eqn:E; [|done].
  case_bool_decide as Hs; [|done]. destruct (mu_price x =? mu_price e) eqn:Ep; [|done]. cbn [negb orb].
  assert (Hab : about e x = true).
  { unfold about. rewrite Hvid, bool_decide_true by done. by rewrite Z.eqb_sym, Ep. }
  case_bool_decide as Hca.
  { intros [= <-]. unfold apply_update. rewrite Hca, E. cbn. by rewrite Hab. }
  case_bool_decide as Hmo; [|done]. destruct (valid_qty (mu_qty e)) eqn:Eq; [|done].
  intros [= <-]. unfold apply_update. rewrite Hmo, E. cbn. by rewrite Hab, Eq.
Qed.

Lemma apply_inv state e state' :
  MarketRecovery.apply state e = Some state' ->
  mu_ticker_id e < ME_MAX_TICKERS /\
  exists m m', state !! Z.to_nat (mu_ticker_id e) = Some m /\ MarketRecovery.apply_to e m = Some m' /\
    state' = <[Z.to_nat (mu_ticker_id e) := m']> state.
Proof.
  unfold MarketRecovery.apply. destruct (Z.leb_spec ME_MAX_TICKERS (mu_ticker_id e)); [done|].
  destruct (state !! Z.to_nat (mu_ticker_id e)) as [m|] eqn:Em; [|done]. cbn.
  destruct (MarketRecovery.apply_to e m) as [m'|] eqn:Ea; [|done]. cbn. intros [= <-]. eauto 10.
Qed.

(** An event that the recovery applies acts in the same way on any books that
    agree on its ticker. *)
Lemma replay_event_at e views m m' :
  is_u64 (mu_order_id e) -> views !! Z.to_nat (mu_ticker_id e) = Some m ->
  (mu_type e = MD_CLEAR /\ m' = ∅ \/ mu_type e <> MD_CLEAR /\ MarketRecovery.apply_to e m = Some m') ->
  replay_event views e = Some (<[Z.to_nat (mu_ticker_id e) := m']> views).
Proof.
  intros Hid Hv [[Hc ->]|[Hc Ha]]; unfold replay_event.
  - rewrite bool_decide_true by done. by rewrite Hv.
  - rewrite bool_decide_false by done. unfold apply_ticker. rewrite Hv. cbn.
    by rewrite (apply_to_public _ _ _ Hid Hc Ha).
Qed.

Lemma apply_replays state e state' :
  is_u64 (mu_order_id e) -> MarketRecovery.apply state e = Some state' ->
  replay_event state e = Some state'.
Proof.
  intros Hid (_ & m & m' & Hm & Ha & ->)%apply_inv. apply (replay_event_at _ _ m); [done|done|].
  destruct (decide (mu_type e = MD_CLEAR)) as [Hc|Hc]; [left|by right].
  unfold MarketRecovery.apply_to in Ha. rewrite bool_decide_true in Ha by done.
  by injection Ha as <-.
Qed.

(** ** The loop over the snapshot *)

(** The books that follow the events agree with the recovery's state on the
    cleared tickers; on the others the state is still empty. *)
Record taking (views0 : list View) (st : list bool * RecoveryState * list MEMarketUpdate)
    (v : list View) : Prop := {
  tk_replay : replay_all st.2 views0 = Some v;
  tk_cleared : length st.1.1 = Z.to_nat ME_MAX_TICKERS;
  tk_state : length st.1.2 = Z.to_nat ME_MAX_TICKERS;
  tk_views : length v = Z.to_nat ME_MAX_TICKERS;
  tk_agree : forall t, st.1.1 !! t = Some true -> v !! t = st.1.2 !! t
}.

Lemma replay_event_length views e v : replay_event views e = Some v -> length v = length views.
Proof.
  unfold replay_event, apply_ticker. case_bool_decide.
  - destruct (views !! _); [|done]. cbn. intros [= <-]. apply length_insert.
  - destruct (views !! _) as [m|]; [|done]. cbn. destruct (apply_update e m); [|done]. cbn.
    intros [= <-]. apply length_insert.
Qed.

Lemma taking_event views0 cleared state events v e state' cleared' :
  taking views0 (cleared, state, events) v -> is_u64 (mu_order_id e) ->
  MarketRecovery.apply state e = Some state' ->
  (mu_type e = MD_CLEAR /\ cleared' = <[Z.to_nat (mu_ticker_id e) := true]> cleared \/
   mu_type e <> MD_CLEAR /\ cleared !! Z.to_nat (mu_ticker_id e) = Some true /\ cleared' = cleared) ->
  exists v', taking views0 (cleared', state', events ++ [e]) v'.
Proof.
  intros [Hr Hc Hs Hv Ha] Hid (Hlt & m & m' & Hm & Hap & ->)%apply_inv Hcl.
  cbn [fst snd] in *. set (t := Z.to_nat (mu_ticker_id e)) in *.
  pose proof (lookup_lt_Some _ _ _ Hm) as Ht.
  assert (exists w, v !! t = Some w /\
    (mu_type e = MD_CLEAR /\ m' = ∅ \/ mu_type e <> MD_CLEAR /\ MarketRecovery.apply_to e w = Some m'))
    as (w & Hw & Hcase).
  { destruct Hcl as [[Hct _]|(Hct & Hdone & _)].
    - destruct (lookup_lt_is_Some_2 v t) as [w Hw]; [lia|]. exists w. split; [done|]. left.
      split; [done|]. unfold MarketRecovery.apply_to in Hap. rewrite bool_decide_true in Hap by done.
      by injection Hap as <-.
    - exists m. rewrite (Ha _ Hdone). split; [done|]. by right. }
  exists (<[t := m']> v). split; cbn [fst snd].
  - rewrite replay_app, Hr. cbn. by rewrite (replay_event_at _ _ w m' Hid Hw Hcase).
  - destruct Hcl as [[_ ->]|(_ & _ & ->)]; [by rewrite length_insert|done].
  - by rewrite length_insert.
  - by rewrite length_insert.
  - intros t' Ht'. destruct (decide (t' = t)) as [->|Hne].
    + rewrite !list_lookup_insert_eq by lia. done.
    + rewrite !list_lookup_insert_ne by done. apply Ha.
      destruct Hcl as [[_ ->]|(_ & _ & ->)]; [|done]. by rewrite list_lookup_insert_ne in Ht' by done.
Qed.

(** A frame of the snapshot [cycle], with its watermark and checksum. *)
Definition of_cycle (cycle watermark hash : Z) (u : MDPMarketUpdate) : Prop :=
  mdp_snapshot_cycle u = cycle /\ mdp_watermark u = watermark /\ mdp_state_hash u = hash.

Section Frames.
Context (cycle watermark hash last_seq : Z).

Let take_frame := MarketRecovery.take_frame cycle watermark hash last_seq.
Let take_frames := MarketRecovery.take_frames cycle watermark hash last_seq.

Lemma take_frame_inv cleared state events id u st' :
  take_frame (cleared, state, events) (id, u) = Some st' ->
  of_cycle cycle watermark hash u /\
  (id = 0 /\ st' = (cleared, state, events) \/
   id <> 0 /\ mu_type (mdp_update u) = MD_SNAPSHOT_END /\ id = last_seq /\ st' = (cleared, state, events) \/
   id <> 0 /\ exists cleared' state', st' = (cleared', state', events ++ [mdp_update u]) /\
     MarketRecovery.apply state (mdp_update u) = Some state' /\
     (mu_type (mdp_update u) = MD_CLEAR /\
        cleared' = <[Z.to_nat (mu_ticker_id (mdp_update u)) := true]> cleared \/
      mu_type (mdp_update u) <> MD_CLEAR /\
        cleared !! Z.to_nat (mu_ticker_id (mdp_update u)) = Some true /\ cleared' = cleared)).
Proof.
  unfold take_frame, MarketRecovery.take_frame.
  destruct (Z.eqb_spec (mdp_watermark u) watermark) as [Hw|]; [|done].
  destruct (Z.eqb_spec (mdp_snapshot_cycle u) cycle) as [Hc|]; [|done].
  destruct (Z.eqb_spec (mdp_state_hash u) hash) as [Hh|]; [|done]. cbn [negb orb].
  intros H. split; [done|]. revert H.
  destruct (Z.eqb_spec id 0) as [Hid|Hid]; [intros [= <-]; by left|].
  case_bool_decide as Hend.
  { destruct (Z.eqb_spec id last_seq) as [Hl|]; [|done]. intros [= <-]. right; left. done. }
  destruct (ME_MAX_TICKERS <=? mu_ticker_id (mdp_update u)); [done|].
  destruct (cleared !! _) as [done_|] eqn:Ed; [|done]. cbn [mbind option_bind].
  case_bool_decide as Hc'.
  - destruct done_; [done|]. cbn [mbind option_bind]. destruct (MarketRecovery.apply state _) as [state'|]; [|done].
    cbn [mbind option_bind]. intros [= <-]. right; right. split; [done|]. eexists _, _. eauto.
  - destruct (bool_decide (mu_type (mdp_update u) = MD_ADD) && done_) eqn:E; [|done]. cbn [mbind option_bind].
    apply andb_true_iff in E as [_ ->].
    destruct (MarketRecovery.apply state _) as [state'|]; [|done]. cbn [mbind option_bind].
    intros [= <-]. right; right. split; [done|]. eexists _, _. split; [done|]. split; [done|]. by right.
Qed.

Lemma take_frames_app l1 l2 st : take_frames (l1 ++ l2) st = (take_frames l1 st ≫= take_frames l2).
Proof.
  revert st. induction l1 as [|p l1 IH]; intros st; [done|].
  change (take_frames ((p :: l1) ++ l2) st) with (take_frame st p ≫= take_frames (l1 ++ l2)).
  change (take_frames (p :: l1) st) with (take_frame st p ≫= take_frames l1).
  destruct (take_frame st p) as [st'|]; cbn; [apply IH|done].
Qed.

Lemma take_frames_middle views0 l st v st' :
  taking views0 st v -> Forall (λ p, is_u64 (mu_order_id (mdp_update p.2))) l ->
  Forall (λ p, p.1 <> 0 /\ p.1 <> last_seq) l -> take_frames l st = Some st' ->
  Forall (λ p, of_cycle cycle watermark hash p.2) l /\
  st'.2 = st.2 ++ ((λ p, mdp_update p.2) <$> l) /\ exists v', taking views0 st' v'.
Proof.
  intros Ht Hu Hl. revert st v Ht. induction Hl as [|[id u] l [Hid Hlast] Hl IH]; intros st v Ht H.
  { injection H as <-. rewrite app_nil_r. split; [constructor|]. eauto. }
  change (take_frames ((id, u) :: l) st) with (take_frame st (id, u) ≫= take_frames l) in H.
  destruct st as [[cleared state] events].
  destruct (take_frame _ (id, u)) as [st1|] eqn:E1; [|done]. cbn in H, Hid, Hlast.
  apply Forall_cons in Hu as [Hu1 Hu]. cbn in Hu1.
  apply take_frame_inv in E1 as [Hof [[? _]|[(_ & _ & ? & _)|(_ & c' & s' & -> & Ha & Hcl)]]]; [congruence|congruence|].
  destruct (taking_event _ _ _ _ _ _ _ _ Ht Hu1 Ha Hcl) as [v1 Hv1].
  destruct (IH Hu _ _ Hv1 H) as (Hf & E2 & Hv').
  split; [by constructor|]. split; [|done]. rewrite E2. cbn. by rewrite <- app_assoc.
Qed.

End Frames.

Lemma taking_start views0 :
  length views0 = Z.to_nat ME_MAX_TICKERS ->
  taking views0 (MarketRecovery.none_cleared, MarketRecovery.no_orders, []) views0.
Proof.
  intros H. split; cbn; try done. intros t Ht. by apply lookup_replicate in Ht as [? _].
Qed.

Lemma taking_end views0 cleared state events v :
  taking views0 (cleared, state, events) v -> forallb id cleared = true -> v = state.
Proof.
  intros [_ Hc Hs Hv Ha] Hall. cbn [fst snd] in *. apply list_eq_same_length with (n := length v); [lia|lia|].
  intros t x y Ht Hx Hy. enough (v !! t = state !! t) by congruence. apply Ha.
  destruct (lookup_lt_is_Some_2 cleared t) as [b Hb]; [lia|]. rewrite Hb. f_equal.
  rewrite forallb_forall in Hall. apply Hall. apply list_elem_of_In. by eapply list_elem_of_lookup_2.
Qed.

(** The increments taken are consecutive from [next]. *)
Lemma take_increments_ok l w state events next' events' :
  Forall (λ p : Z * MDPMarketUpdate, is_u64 (mu_order_id (mdp_update p.2)) /\ p.1 < 2 ^ 64) l ->
  StronglySorted Z.lt l.*1 -> Forall (λ p, w < p.1) l -> is_u64 w ->
  MarketRecovery.take_increments (u64 (w + 1)) l state events = Some (next', events') ->
  l.*1 = seqZ (w + 1) (Z.of_nat (length l)) /\ u64 (next' - 1) = w + Z.of_nat (length l) /\
  is_u64 (w + Z.of_nat (length l)) /\
  events' = events ++ ((λ p, mdp_update p.2) <$> l) /\
  exists v, replay_all ((λ p, mdp_update p.2) <$> l) state = Some v.
Proof.
  intros Hl Hs Hw Hu. revert w Hw Hu state events.
  induction l as [|[k u] l IH]; intros w Hw Hu state events H.
  { injection H as <- <-. cbn. rewrite app_nil_r, Z.add_0_r. split_and!; try done; [|by eexists].
    unfold u64, is_u64 in *. rewrite Zminus_mod_idemp_l. rewrite Z.mod_small; lia. }
  cbn [MarketRecovery.take_increments] in H.
  destruct (Z.eqb_spec k (u64 (w + 1))) as [->|]; [|done]. cbn [negb] in H.
  destruct (MarketRecovery.apply state (mdp_update u)) as [state1|] eqn:Ea; [|done]. cbn in H.
  apply Forall_cons in Hl as [[Hid Hlt] Hl]. apply Forall_cons in Hw as [Hw1 _].
  cbn in Hid, Hlt, Hw1, Hs. inversion Hs as [|? ? Hs' Hk]; subst.
  assert (E : u64 (w + 1) = w + 1).
  { apply u64_small. unfold is_u64 in Hu. destruct (decide (w + 1 = 2 ^ 64)) as [E|]; [|lia].
    rewrite E in Hw1. vm_compute (u64 (2 ^ 64)) in Hw1. lia. }
  rewrite E in *.
  destruct (IH Hl Hs' (w + 1)) with (state := state1) (events := events ++ [mdp_update u])
    as (E1 & E2 & E3 & E4 & v & E5).
  - rewrite Forall_fmap in Hk. exact Hk.
  - unfold is_u64 in *. lia.
  - exact H.
  - cbn [length fmap list_fmap]. rewrite Nat2Z.inj_succ. split_and!.
    + rewrite seqZ_cons by lia. f_equal. rewrite E1. f_equal; lia.
    + rewrite E2. lia.
    + replace (w + Z.succ (Z.of_nat (length l))) with (w + 1 + Z.of_nat (length l)) by lia. done.
    + by rewrite E4, <- app_assoc.
    + exists v. cbn. by rewrite (apply_replays _ _ _ Hid Ea).
Qed.

(** ** Safety *)

(** What has been received: on the snapshot channel ([true]) and on the
    incremental channel ([false]). *)
Notation History := (list (bool * MDPMarketUpdate)).
Notation Seen := (bool -> MDPMarketUpdate -> Prop).

Record caches_ok (seen : Seen) (r : MarketRecovery) : Prop := {
  ca_snapshot : forall k u, mr_snapshot r !! k = Some u -> seen true u /\ mdp_seq_num u = k;
  ca_incremental : forall k u, mr_incremental r !! k = Some u -> seen false u /\ mdp_seq_num u = k;
  ca_live : mr_recovering r = false -> mr_snapshot r = ∅ /\ mr_incremental r = ∅;
  ca_limit : MarketRecovery.cached r <= mr_limit r
}.

(** A batch: the inside of a complete snapshot cycle [first :: mid ++ [end_]]
    with watermark [w] and checksum [hash], and the increments that follow. *)
Record consistent_batch (seen : Seen) (b : Batch) : Prop := {
  cb_parts : exists w hash first mid end_ incs books,
    ba_events b = (mdp_update <$> mid) ++ (mdp_update <$> incs) /\
    (forall u, u ∈ first :: mid ++ [end_] -> seen true u) /\
    (forall u, u ∈ incs -> seen false u) /\
    (exists cycle, Forall (of_cycle cycle w hash) (first :: mid ++ [end_])) /\
    mdp_seq_num <$> first :: mid ++ [end_] = seqZ 0 (Z.of_nat (length mid) + 2) /\
    mu_type (mdp_update first) = MD_SNAPSHOT_START /\ mu_type (mdp_update end_) = MD_SNAPSHOT_END /\
    mdp_seq_num <$> incs = seqZ (w + 1) (Z.of_nat (length incs)) /\
    ba_watermark b = w + Z.of_nat (length incs) /\
    bookHash (MarketRecovery.flatten books) = hash /\
    (exists books', replay_all (mdp_update <$> incs) books = Some books') /\
    forall views, length views = Z.to_nat ME_MAX_TICKERS ->
      replay_all (mdp_update <$> mid) views = Some books
}.

Lemma head_last_split {A} (l : list A) x y :
  head l = Some x -> last l = Some y -> x <> y -> exists mid, l = x :: mid ++ [y].
Proof.
  intros Hx Hy Hne. apply head_Some in Hx as [l' ->].
  apply last_Some in Hy as [l'' E]. destruct l'' as [|z l'']; cbn in E.
  - injection E as -> ->. done.
  - injection E as -> ->. eauto.
Qed.

(** The frames of the snapshot cache are numbered without a hole. *)
Lemma cache_range (m : gmap Z MDPMarketUpdate) k f k' l :
  (forall i u, m !! i = Some u -> 0 <= i /\ mdp_seq_num u = i) ->
  head (entries m) = Some (k, f) -> last (entries m) = Some (k', l) ->
  mdp_seq_num l = u64 (Z.of_nat (size m) - 1) -> Z.of_nat (size m) < 2 ^ 64 ->
  (entries m).*1 = seqZ 0 (Z.of_nat (length (entries m))).
Proof.
  intros Hm Hh Hl Hlast Hsz.
  assert (Hpos : 0 < Z.of_nat (size m)).
  { rewrite <- length_entries. destruct (entries m); cbn in *; [done|lia]. }
  rewrite u64_small in Hlast by lia.
  rewrite <- (length_fmap fst). apply strict_range; [apply entries_strict| |].
  - intros i ([i' u] & -> & Hi%elem_of_entries)%list_elem_of_fmap. apply Hm in Hi as [Hi _]. exact Hi.
  - intros i Hi. rewrite fmap_last, Hl in Hi. injection Hi as <-. cbn.
    rewrite length_fmap, length_entries.
    assert (Hk : (k', l) ∈ entries m) by (apply last_Some in Hl as [l' ->]; set_solver).
    apply elem_of_entries, Hm in Hk as [_ Hk]. lia.
Qed.

Lemma entries_updates (m : gmap Z MDPMarketUpdate) (seen : Seen) c :
  (forall k u, m !! k = Some u -> seen c u /\ mdp_seq_num u = k) ->
  forall u, u ∈ (entries m).*2 -> seen c u.
Proof.
  intros Hm u ([k u'] & -> & Hu%elem_of_entries)%list_elem_of_fmap. apply Hm in Hu as [Hu _]. exact Hu.
Qed.

Lemma entries_seqs (m : gmap Z MDPMarketUpdate) :
  (forall k u, m !! k = Some u -> mdp_seq_num u = k) ->
  mdp_seq_num <$> (entries m).*2 = (entries m).*1.
Proof.
  intros Hm. rewrite <- list_fmap_compose. apply list_fmap_ext.
  intros i [k u] Hi%list_elem_of_lookup_2%elem_of_entries. cbn. by apply Hm.
Qed.

Definition history_wf (seen : Seen) : Prop := forall c u, seen c u -> mdp_wf u.

Lemma seen_wf seen c u :
  history_wf seen -> seen c u ->
  is_u64 (mdp_seq_num u) /\ is_u64 (mdp_watermark u) /\ is_u64 (mu_order_id (mdp_update u)).
Proof.
  intros H Hu. specialize (H _ _ Hu) as (H1 & _ & H2 & _ & H3 & _).
  destruct H3 as (_ & H3 & _). done.
Qed.

(** What it takes for [build] to return a batch. *)
Lemma build_inv r b r' :
  MarketRecovery.build r = (Some b, r') ->
  exists k first k' end_ state events,
    r' = r /\ head (entries (mr_snapshot r)) = Some (k, first) /\
    last (entries (mr_snapshot r)) = Some (k', end_) /\ mdp_seq_num first = 0 /\
    mu_type (mdp_update first) = MD_SNAPSHOT_START /\ mu_type (mdp_update end_) = MD_SNAPSHOT_END /\
    mdp_seq_num end_ = u64 (Z.of_nat (size (mr_snapshot r)) - 1) /\
    (exists cleared, MarketRecovery.take_frames (mr_cycle r) (mdp_watermark first) (mdp_state_hash first)
       (mdp_seq_num end_) (entries (mr_snapshot r))
       (MarketRecovery.none_cleared, MarketRecovery.no_orders, []) = Some (cleared, state, events) /\
       forallb id cleared = true) /\
    bookHash (MarketRecovery.flatten state) = mdp_state_hash first /\
    exists next events', MarketRecovery.take_increments (u64 (mdp_watermark first + 1))
       (entries (above (mdp_watermark first) (mr_incremental r))) state events = Some (next, events') /\
       b = mkBatch events' (u64 (next - 1)).
Proof.
  unfold MarketRecovery.build. destruct (mr_invalid_cycle r); [done|].
  destruct (head (entries (mr_snapshot r))) as [[k first]|] eqn:Eh; [|done].
  destruct (last (entries (mr_snapshot r))) as [[k' end_]|] eqn:El; [|done].
  destruct (Z.eqb_spec (mdp_seq_num first) 0) as [H0|]; [|done].
  case_bool_decide as Hs; [|done]. case_bool_decide as He; [|done]. cbn [negb orb].
  case_match; [done|].
  destruct (Z.eqb_spec (mdp_seq_num end_) (u64 (Z.of_nat (size (mr_snapshot r)) - 1))) as [Hl|]; [|done].
  cbn [negb]. case_match; [done|].
  destruct (MarketRecovery.take_frames _ _ _ _ _ _) as [[[cleared state] events]|] eqn:Ef; [|done].
  destruct (forallb id cleared) eqn:Ec; [|done]. cbn [negb].
  destruct (Z.eqb_spec (bookHash (MarketRecovery.flatten state)) (mdp_state_hash first)) as [Hh|]; [|done].
  cbn [negb].
  destruct (MarketRecovery.take_increments _ _ _ _) as [[next events']|] eqn:Ei; [|done].
  intros [= <- <-]. exists k, first, k', end_, state, events. split_and!; eauto.
Qed.

Lemma middle_events seen cycle w hash last_seq first mid end_ k k' views cleared state events :
  history_wf seen -> (forall p, p ∈ mid -> seen true p.2) ->
  k = 0 -> k' = last_seq -> mu_type (mdp_update end_) = MD_SNAPSHOT_END ->
  Forall (λ p, p.1 <> 0 /\ p.1 <> last_seq) mid -> last_seq <> 0 ->
  length views = Z.to_nat ME_MAX_TICKERS ->
  MarketRecovery.take_frames cycle w hash last_seq ((k, first) :: mid ++ [(k', end_)])
    (MarketRecovery.none_cleared, MarketRecovery.no_orders, []) = Some (cleared, state, events) ->
  forallb id cleared = true ->
  Forall (λ p, of_cycle cycle w hash p.2) ((k, first) :: mid ++ [(k', end_)]) /\
  events = (λ p, mdp_update p.2) <$> mid /\ replay_all events views = Some state.
Proof.
  intros Hwf Hseen -> -> Hend Hmid Hl0 Hlen H Hc.
  change ((0, first) :: mid ++ [(last_seq, end_)]) with ([(0, first)] ++ mid ++ [(last_seq, end_)]) in *.
  rewrite take_frames_app in H.
  set (st0 := (MarketRecovery.none_cleared, MarketRecovery.no_orders, [])) in *.
  destruct (MarketRecovery.take_frames cycle w hash last_seq [(0, first)] st0) as [st1|] eqn:E1; [|done].
  cbn [mbind option_bind] in H. cbn [MarketRecovery.take_frames] in E1.
  destruct (MarketRecovery.take_frame cycle w hash last_seq st0 (0, first)) as [st1'|] eqn:E1'; [|done].
  injection E1 as ->. apply take_frame_inv in E1' as [Hof1 [[_ ->]|[(? & _)|(? & _)]]]; [|done|done].
  rewrite take_frames_app in H. fold st0 in H.
  destruct (MarketRecovery.take_frames cycle w hash last_seq mid st0) as [st2|] eqn:E2; [|done].
  cbn [mbind option_bind] in H.
  assert (Hids : Forall (λ p, is_u64 (mu_order_id (mdp_update p.2))) mid).
  { apply Forall_forall. intros p Hp. by apply (seen_wf seen true), Hseen. }
  destruct (take_frames_middle cycle w hash last_seq views mid st0 views st2 (taking_start _ Hlen)
    Hids Hmid E2) as (Hf2 & Ev2 & v & Hv).
  cbn [MarketRecovery.take_frames] in H.
  destruct (MarketRecovery.take_frame cycle w hash last_seq st2 (last_seq, end_)) as [st3|] eqn:E3; [|done].
  injection H as ->. destruct st2 as [[cleared2 state2] events2].
  apply take_frame_inv in E3 as [Hof3 Hcase].
  assert (Est : (cleared, state, events) = (cleared2, state2, events2)).
  { destruct Hcase as [[? _]|[(_ & _ & _ & ->)|(_ & c & s & _ & Ha & _)]]; [done|done|].
    exfalso. destruct (apply_inv _ _ _ Ha) as (_ & m & m' & _ & Ha' & _).
    unfold MarketRecovery.apply_to in Ha'. rewrite Hend in Ha'. cbn in Ha'.
    repeat case_match; done. }
  injection Est as <- <- <-. cbn in Ev2. split.
  { apply Forall_app; split; [by constructor|]. apply Forall_app; split; [done|by constructor]. }
  split; [done|]. rewrite <- (taking_end _ _ _ _ _ Hv Hc). apply (tk_replay _ _ _ Hv).
Qed.

(** The cached snapshot, when its ends are as [build] wants them. *)
Lemma snapshot_split seen r k first k' end_ :
  history_wf seen -> caches_ok seen r -> mr_limit r < 2 ^ 64 ->
  head (entries (mr_snapshot r)) = Some (k, first) ->
  last (entries (mr_snapshot r)) = Some (k', end_) ->
  mu_type (mdp_update first) = MD_SNAPSHOT_START -> mu_type (mdp_update end_) = MD_SNAPSHOT_END ->
  mdp_seq_num end_ = u64 (Z.of_nat (size (mr_snapshot r)) - 1) ->
  exists mid, entries (mr_snapshot r) = (k, first) :: mid ++ [(k', end_)] /\
    (forall u, u ∈ (entries (mr_snapshot r)).*2 -> seen true u) /\
    mdp_seq_num <$> (entries (mr_snapshot r)).*2 = (entries (mr_snapshot r)).*1 /\
    (entries (mr_snapshot r)).*1 = seqZ 0 (Z.of_nat (length mid) + 2) /\
    k = 0 /\ k' = mdp_seq_num end_ /\ k' = Z.of_nat (length mid) + 1 /\
    Forall (λ p, p.1 <> 0 /\ p.1 <> mdp_seq_num end_) mid.
Proof.
  intros Hwf Hok Hlim Hh Hl Hs He Hlast.
  destruct (head_last_split _ _ _ Hh Hl ltac:(congruence)) as [mid Emid].
  assert (Hsz : Z.of_nat (size (mr_snapshot r)) = Z.of_nat (length mid) + 2).
  { rewrite <- length_entries, Emid. cbn. rewrite length_app. cbn. lia. }
  assert (Hm : forall i u, mr_snapshot r !! i = Some u -> 0 <= i /\ mdp_seq_num u = i).
  { intros i u Hu. apply (ca_snapshot _ _ Hok) in Hu as [Hu <-]. split; [|done].
    apply (seen_wf seen true u Hwf) in Hu as [[Hu _] _]. exact Hu. }
  assert (Hseq : mdp_seq_num <$> (entries (mr_snapshot r)).*2 = (entries (mr_snapshot r)).*1).
  { apply entries_seqs. intros i u Hu. by apply Hm in Hu as [_ Hu]. }
  assert (Hbound : Z.of_nat (size (mr_snapshot r)) < 2 ^ 64).
  { pose proof (ca_limit _ _ Hok). unfold MarketRecovery.cached in *. lia. }
  pose proof (cache_range _ _ _ _ _ Hm Hh Hl Hlast Hbound) as Hr.
  rewrite length_entries, Hsz in Hr.
  exists mid. split; [done|]. split; [eapply entries_updates; apply (ca_snapshot _ _ Hok)|].
  split; [done|]. split; [done|].
  rewrite Emid in Hr, Hseq.
  repeat (progress rewrite ?fmap_cons, ?fmap_app in Hr).
  repeat (progress rewrite ?fmap_cons, ?fmap_app in Hseq). cbn in Hr, Hseq.
  injection Hseq as _ Hseq. apply app_inj_2 in Hseq as [_ Hseq]; [|done].
  injection Hseq as Hk'. rewrite Hsz, u64_small in Hlast by lia.
  rewrite seqZ_cons in Hr by lia. injection Hr as Hk Hr.
  split; [done|]. split; [done|]. split; [lia|].
  assert (Hmidk : mid.*1 = seqZ 1 (Z.of_nat (length mid))).
  { replace (Z.pred (Z.of_nat (length mid) + 2)) with (Z.of_nat (length mid) + 1) in Hr by lia.
    rewrite seqZ_app in Hr by lia. apply app_inj_1 in Hr as [Hr _]; [exact Hr|].
    rewrite length_seqZ, length_fmap. lia. }
  apply Forall_forall. intros p Hp.
  assert (Hin : p.1 ∈ mid.*1) by (by apply list_elem_of_fmap_2).
  rewrite Hmidk in Hin. apply elem_of_seqZ in Hin. lia.
Qed.

Lemma pending_ok seen r w :
  history_wf seen -> caches_ok seen r ->
  let pending := entries (above w (mr_incremental r)) in
  (forall u, u ∈ pending.*2 -> seen false u) /\
  mdp_seq_num <$> pending.*2 = pending.*1 /\
  Forall (λ p : Z * MDPMarketUpdate, is_u64 (mu_order_id (mdp_update p.2)) /\ p.1 < 2 ^ 64) pending /\
  StronglySorted Z.lt pending.*1 /\ Forall (λ p, w < p.1) pending.
Proof.
  intros Hwf Hok. cbv zeta. set (m := above w (mr_incremental r)).
  assert (Hm : forall k u, m !! k = Some u -> (seen false u /\ mdp_seq_num u = k) /\ w < k).
  { intros k u [Hu Hw]%lookup_above. split; [|done]. by apply (ca_incremental _ _ Hok). }
  split; [eapply entries_updates; intros k u Hu; by apply Hm|].
  split; [apply entries_seqs; intros k u Hu; by apply Hm|].
  split; [|split; [apply entries_strict|]]; apply Forall_forall; intros [k u] Hu%elem_of_entries;
    apply Hm in Hu as [[Hu Hk] Hw]; cbn; [|done].
  apply (seen_wf seen false u Hwf) in Hu as ([_ H1] & _ & H2). split; [done|lia].
Qed.

Lemma build_ok seen r b r' :
  history_wf seen -> caches_ok seen r -> mr_limit r < 2 ^ 64 ->
  MarketRecovery.build r = (Some b, r') -> r' = r /\ consistent_batch seen b.
Proof.
  intros Hwf Hok Hlim (k & first & k' & end_ & state & events & -> & Hh & Hl & _ & Hs & He & Hlast &
    (cleared & Hf & Hc) & Hhash & next & events' & Hi & ->)%build_inv. split; [done|].
  destruct (snapshot_split _ _ _ _ _ _ Hwf Hok Hlim Hh Hl Hs He Hlast)
    as (mid & Emid & Hseen & Hseq & Hr & Hk & Hk' & Hn & Hmid).
  set (w := mdp_watermark first) in *. set (pending := entries (above w (mr_incremental r))) in *.
  destruct (pending_ok seen r w Hwf Hok) as (Hps & Hpq & Hpw & Hpl & Hpg).
  rewrite Emid in Hf, Hseen, Hseq, Hr.
  assert (Hin : forall p, p ∈ mid -> seen true p.2).
  { intros p Hp. apply Hseen. apply (list_elem_of_fmap_2 snd). set_solver. }
  assert (Hw : is_u64 w).
  { apply (seen_wf seen true first Hwf). apply Hseen. by left. }
  pose proof (λ views Hlen, middle_events seen _ _ _ _ first mid end_ k k' views _ _ _ Hwf Hin Hk Hk' He Hmid
    ltac:(lia) Hlen Hf Hc) as Hm.
  destruct (Hm MarketRecovery.no_orders eq_refl) as (Hof & Ev & _).
  destruct (take_increments_ok pending w state events next events' Hpw Hpl Hpg Hw Hi)
    as (Hp1 & Hp2 & _ & Hp3 & v & Hp4).
  constructor. exists w, (mdp_state_hash first), first, mid.*2, end_, pending.*2, state.
  cbn [ba_events ba_watermark]. rewrite <- !list_fmap_compose, !length_fmap. split_and!.
  - rewrite Hp3, Ev. done.
  - intros u Hu. apply Hseen. cbn. rewrite fmap_app. exact Hu.
  - exact Hps.
  - exists (mr_cycle r).
    assert (Hof' : Forall (of_cycle (mr_cycle r) w (mdp_state_hash first))
      ((k, first) :: mid ++ [(k', end_)]).*2) by (by apply Forall_fmap).
    by rewrite fmap_cons, fmap_app in Hof'.
  - rewrite <- Hr, <- Hseq. cbn. by rewrite !fmap_app.
  - done.
  - done.
  - transitivity (pending.*1); [|exact Hp1].
    rewrite <- (Hpq : mdp_seq_num <$> pending.*2 = pending.*1), <- ?list_fmap_compose. done.
  - exact Hp2.
  - exact Hhash.
  - exists v. exact Hp4.
  - intros views Hlen. destruct (Hm views Hlen) as (_ & _ & Hrep).
    rewrite Ev in Hrep. exact Hrep.
Qed.

Lemma check_limit_recovering r :
  mr_recovering r = true -> mr_recovering (MarketRecovery.check_limit r).2 = true.
Proof. intros H. unfold MarketRecovery.check_limit. by case_match. Qed.

Lemma emplace_recovering c u r :
  mr_recovering r = true -> mr_recovering (MarketRecovery.emplace c u r).2 = true.
Proof.
  intros H. unfold MarketRecovery.emplace. destruct (_ !! _) as [old|].
  - destruct (negb (_ && _)), c; cbn; try done; by apply check_limit_recovering.
  - by apply check_limit_recovering.
Qed.

Lemma ingest_recovering c u r :
  mr_recovering (MarketRecovery.ingest c u r).2 = mr_recovering r.
Proof.
  unfold MarketRecovery.ingest. destruct (mr_recovering r) eqn:H; cbn [negb snd]; [|done].
  assert (mr_recovering (MarketRecovery.newer_cycle u r) = true) as Hn.
  { unfold MarketRecovery.newer_cycle. by case_match. }
  repeat case_match; cbn [snd]; auto using emplace_recovering.
Qed.

Lemma build_recovering r : mr_recovering (MarketRecovery.build r).2 = mr_recovering r.
Proof. unfold MarketRecovery.build. repeat (case_match; cbn [snd]; try done). Qed.

(** ** Runs *)
Inductive RecOp : Type :=
  | Ingest (snapshot : bool) (u : MDPMarketUpdate)
  | LiveCandidate (u : MDPMarketUpdate)
  | CommitLive
  | Restart
  | Build
  | Commit (b : Batch).

Definition rec_step (r : MarketRecovery) (op : RecOp) : MarketRecovery :=
  match op with
  | Ingest snapshot u => (MarketRecovery.ingest snapshot u r).2
  | LiveCandidate u => (MarketRecovery.liveCandidate u r).2
  | CommitLive => MarketRecovery.commitLive r
  | Restart => MarketRecovery.restart r
  | Build => (MarketRecovery.build r).2
  | Commit b => MarketRecovery.commit b r
  end.

Definition rec_run (ops : list RecOp) (r : MarketRecovery) : MarketRecovery := foldl rec_step r ops.

Definition received (ops : list RecOp) : History :=
  omap (λ op, match op with Ingest snapshot u => Some (snapshot, u) | _ => None end) ops.

(** The caches of the recovery did not grow. *)
Lemma caches_shrink seen r r' :
  caches_ok seen r -> mr_snapshot r' ⊆ mr_snapshot r -> mr_incremental r' ⊆ mr_incremental r ->
  mr_limit r' = mr_limit r -> (mr_recovering r' = false -> mr_recovering r = false) ->
  caches_ok seen r'.
Proof.
  intros [H1 H2 H3 H4] Hs Hi Hl Hr. constructor.
  - intros k u Hu. eapply H1. by eapply lookup_weaken.
  - intros k u Hu. eapply H2. by eapply lookup_weaken.
  - intros Hf. destruct (H3 (Hr Hf)) as [E1 E2]. rewrite E1 in Hs. rewrite E2 in Hi.
    split; (apply (anti_symm (⊆)); [done|apply map_empty_subseteq]).
  - unfold MarketRecovery.cached in *. apply map_subseteq_size in Hs, Hi. lia.
Qed.

Lemma caches_empty seen r :
  mr_snapshot r = ∅ -> mr_incremental r = ∅ -> 0 <= mr_limit r -> caches_ok seen r.
Proof.
  intros E1 E2 Hl. constructor; rewrite ?E1, ?E2; try done.
  unfold MarketRecovery.cached. rewrite E1, E2. exact Hl.
Qed.

Lemma caches_check seen r :
  (forall k u, mr_snapshot r !! k = Some u -> seen true u /\ mdp_seq_num u = k) ->
  (forall k u, mr_incremental r !! k = Some u -> seen false u /\ mdp_seq_num u = k) ->
  mr_recovering r = true -> 0 <= mr_limit r ->
  caches_ok seen (MarketRecovery.check_limit r).2.
Proof.
  intros H1 H2 H3 H4. unfold MarketRecovery.check_limit.
  destruct (Z.ltb_spec (mr_limit r) (MarketRecovery.cached r)); cbn.
  - by apply caches_empty.
  - constructor; [done|done|congruence|lia].
Qed.

Lemma caches_emplace seen c u r :
  caches_ok seen r -> seen c u -> mr_recovering r = true -> 0 <= mr_limit r ->
  caches_ok seen (MarketRecovery.emplace c u r).2.
Proof.
  intros Hok Hu Hrec Hlim. pose proof Hok as [H1 H2 _ _]. unfold MarketRecovery.emplace.
  destruct ((if c then mr_snapshot r else mr_incremental r) !! mdp_seq_num u) as [old|] eqn:E.
  - destruct c; case_match; cbn.
    + apply (caches_shrink _ r); [done|apply map_empty_subseteq|done|done|done].
    + apply (caches_shrink _ r); done.
    + by apply caches_empty.
    + by apply caches_check.
  - apply caches_check; [| |done|done]; destruct c; cbn; try done; intros k x Hx;
      (apply lookup_insert_Some in Hx as [[<- <-]|[_ Hx]]; [by split|]); auto.
Qed.

Lemma caches_ingest seen c u r :
  caches_ok seen r -> seen c u -> 0 <= mr_limit r ->
  caches_ok seen (MarketRecovery.ingest c u r).2.
Proof.
  intros Hok Hu Hlim. unfold MarketRecovery.ingest.
  destruct (mr_recovering r) eqn:Hrec; [|done]. cbn [negb].
  destruct c; [|by apply caches_emplace].
  case_match; [done|].
  assert (Hn : caches_ok seen (MarketRecovery.newer_cycle u r) /\
    mr_recovering (MarketRecovery.newer_cycle u r) = true /\
    mr_limit (MarketRecovery.newer_cycle u r) = mr_limit r).
  { unfold MarketRecovery.newer_cycle. case_match; [|done]. cbn. split; [|done].
    apply (caches_shrink _ r); cbn; [done|apply map_empty_subseteq|apply map_filter_subseteq|done|congruence]. }
  destruct Hn as (Hn1 & Hn2 & Hn3). case_match; [done|]. apply caches_emplace; [done..|lia].
Qed.

Lemma caches_build seen r : caches_ok seen r -> caches_ok seen (MarketRecovery.build r).2.
Proof.
  intros Hok. assert (Hi : caches_ok seen (MarketRecovery.invalidate false r)).
  { apply (caches_shrink _ r); done. }
  assert (Hc : forall f, caches_ok seen (MarketRecovery.with_counters f (MarketRecovery.invalidate false r))).
  { intros f. apply (caches_shrink _ r); done. }
  unfold MarketRecovery.build. repeat (case_match; cbn [snd]; try done).
Qed.

Lemma rec_step_ok seen r op :
  caches_ok seen r -> 0 <= mr_limit r -> (forall c u, op = Ingest c u -> seen c u) ->
  caches_ok seen (rec_step r op) /\ mr_limit (rec_step r op) = mr_limit r.
Proof.
  intros Hok Hlim Hop. destruct op as [c u|u| | | |b]; cbn [rec_step].
  - split; [apply caches_ingest; [done|by apply Hop|done]|].
    unfold MarketRecovery.ingest, MarketRecovery.newer_cycle, MarketRecovery.emplace,
      MarketRecovery.check_limit. repeat (case_match; try done).
  - unfold MarketRecovery.liveCandidate. repeat (case_match; cbn [snd]; try done);
      (split; [|done]); first [by apply caches_empty|by apply (caches_shrink _ r)].
  - split; [|done]. by apply (caches_shrink _ r).
  - split; [|done]. by apply caches_empty.
  - split; [by apply caches_build|]. unfold MarketRecovery.build. repeat (case_match; cbn [snd]; try done).
  - split; [|done]. by apply caches_empty.
Qed.

Lemma rec_run_ok seen ops r :
  caches_ok seen r -> 0 <= mr_limit r -> (forall c u, (c, u) ∈ received ops -> seen c u) ->
  caches_ok seen (rec_run ops r) /\ mr_limit (rec_run ops r) = mr_limit r.
Proof.
  revert r. induction ops as [|op ops IH]; intros r Hok Hlim Hr; [done|].
  assert (Hr1 : forall c u, op = Ingest c u -> seen c u).
  { intros c u ->. apply Hr. by left. }
  assert (Hr2 : forall c u, (c, u) ∈ received ops -> seen c u).
  { intros c u Hu. apply Hr. unfold received in *. cbn. case_match; [by right|done]. }
  destruct (rec_step_ok seen r op Hok Hlim Hr1) as [H1 H2].
  destruct (IH (rec_step r op) H1) as [H3 H4]; [lia|done|].
  change (rec_run (op :: ops) r) with (rec_run ops (rec_step r op)). rewrite H4. done.
Qed.

Lemma make_caches seen limit r : MarketRecovery.make limit = Ok r -> caches_ok seen r /\ mr_limit r = limit /\ 10 <= limit.
Proof.
  unfold MarketRecovery.make. intros Hm. apply bind_Ok in Hm as (? & Hl%ASSERT_Ok%Z.leb_le & [= <-]).
  unfold ME_MAX_TICKERS in Hl. split; [|done]. apply caches_empty; cbn; [done|done|lia].
Qed.

(** C20: whatever frames arrive on the two channels, in any order, lost,
    repeated or contradictory, and however the recovery is restarted: a batch
    that [build] returns consists of one complete cycle as received, whose
    checksum holds, and of consecutive increments from its watermark; it
    brings every set of books to the same books. *)
Theorem recovery_batch_is_consistent limit ops r0 b r' :
  let seen c u := (c, u) ∈ received ops in
  MarketRecovery.make limit = Ok r0 -> limit < 2 ^ 64 -> (forall c u, seen c u -> mdp_wf u) ->
  MarketRecovery.build (rec_run ops r0) = (Some b, r') ->
  r' = rec_run ops r0 /\ consistent_batch seen b.
Proof.
  cbv zeta. set (seen := λ c u, (c, u) ∈ received ops). intros Hm Hlim Hwf Hb.
  destruct (make_caches seen _ _ Hm) as (Hok & E & Hl).
  destruct (rec_run_ok seen ops r0 Hok) as [Hok' E']; [lia|done|].
  apply (build_ok _ _ _ _ Hwf Hok'); [|done]. rewrite E', E. exact Hlim.
Qed.
