(* ===== verification/RecoveryProgress.v ===== *)
(** Recovery makes progress: see [RecoveryTheorems].

    The publisher holds the books [views] after [w] updates and publishes one
    snapshot cycle of them; further updates follow.  However the frames
    arrive, the batch that [build] returns when all of them are there brings
    any set of books to the publisher's. *)
From S2P Require Import Prelude.
From S2P Require Import Types.
From S2P Require Import Wire.
From S2P Require Import MatchBook.
From S2P Require Import MarketView.
From S2P Require Import BookHash.
From S2P Require Import Snapshot.
From S2P Require Import MarketRecovery.
From S2P Require Import RecoveryTheorems.
From stdpp Require Import functions base gmap list sorting.
From Stdlib Require Import ZArith Lia.

Local Open Scope Z_scope.

(** The order [u] as a synthesizer lists it in ticker [t]. *)
Record listed (t : nat) (id : Z) (u : MEMarketUpdate) : Prop := {
  ls_id : mu_order_id u = id;
  ls_ticker : mu_ticker_id u = Z.of_nat t;
  ls_type : mu_type u = MD_ADD;
  ls_valid : valid_add u = true;
  ls_priority : 0 < mu_priority u < Priority_INVALID
}.

Record public_books (views : list View) : Prop := {
  pb_length : length views = Z.to_nat ME_MAX_TICKERS;
  pb_listed t m id u : views !! t = Some m -> m !! id = Some u -> listed t id u
}.

(** Events numbered from [a]: the frames of a cycle, and the increments behind
    update [w]. *)
Definition frames_from (a cycle w hash : Z) (events : list MEMarketUpdate) : list MDPMarketUpdate :=
  imap (λ i e, mkMDP (a + Z.of_nat i) e cycle w hash) events.

Definition cycle_frames (cycle w hash : Z) (events : list MEMarketUpdate) : list MDPMarketUpdate :=
  frames_from 0 cycle w hash events.

Definition increments (w : Z) (us : list MEMarketUpdate) : list MDPMarketUpdate :=
  frames_from (w + 1) 0 0 0 us.

Section FramesFrom.
Context (cycle w hash : Z).

Lemma frames_from_cons a e es :
  frames_from a cycle w hash (e :: es)
  = mkMDP a e cycle w hash :: frames_from (a + 1) cycle w hash es.
Proof.
  unfold frames_from. cbn [imap]. rewrite Z.add_0_r. f_equal. apply imap_ext. intros i x _. cbn.
  f_equal. lia.
Qed.

Lemma frames_from_app a es es' :
  frames_from a cycle w hash (es ++ es')
  = frames_from a cycle w hash es ++ frames_from (a + Z.of_nat (length es)) cycle w hash es'.
Proof.
  revert a. induction es as [|e es IH]; intros a; cbn [app length].
  - by rewrite Z.add_0_r.
  - rewrite !frames_from_cons, IH. rewrite <- app_comm_cons. do 3 f_equal. lia.
Qed.

Lemma length_frames_from a es : length (frames_from a cycle w hash es) = length es.
Proof. apply length_imap. Qed.

Lemma frames_from_seqs a es :
  mdp_seq_num <$> frames_from a cycle w hash es = seqZ a (Z.of_nat (length es)).
Proof.
  revert a. induction es as [|e es IH]; intros a; [done|].
  rewrite frames_from_cons, fmap_cons, IH. cbn [length]. rewrite (seqZ_cons a) by lia.
  f_equal. f_equal; lia.
Qed.

Lemma frames_from_updates a es : mdp_update <$> frames_from a cycle w hash es = es.
Proof.
  revert a. induction es as [|e es IH]; intros a; [done|]. by rewrite frames_from_cons, fmap_cons, IH.
Qed.

Lemma frames_from_meta a es : Forall (of_cycle cycle w hash) (frames_from a cycle w hash es).
Proof.
  revert a. induction es as [|e es IH]; intros a; [constructor|]. rewrite frames_from_cons. by constructor.
Qed.

Lemma frames_from_inj a es f g :
  f ∈ frames_from a cycle w hash es -> g ∈ frames_from a cycle w hash es ->
  mdp_seq_num f = mdp_seq_num g -> f = g.
Proof.
  intros [i Hf]%list_elem_of_lookup [j Hg]%list_elem_of_lookup.
  unfold frames_from in *. rewrite list_lookup_imap in Hf, Hg.
  destruct (es !! i) as [e|] eqn:Ei; [|done]. destruct (es !! j) as [e'|] eqn:Ej; [|done].
  cbn in Hf, Hg. injection Hf as <-. injection Hg as <-. cbn. intros E.
  assert (i = j) as -> by lia. congruence.
Qed.

(** These are the frames on the wire. *)
Lemma frames_from_wire a es :
  0 <= a -> a + Z.of_nat (length es) < 2 ^ 64 ->
  encode_market <$> frames_from a cycle w hash es = numbered a cycle w hash es.
Proof.
  revert a. induction es as [|e es IH]; intros a Ha Hb; [done|]. cbn [length] in Hb.
  rewrite frames_from_cons, fmap_cons. cbn [numbered]. rewrite IH, u64_small by lia. done.
Qed.

End FramesFrom.

(** ** The loop over the snapshot, event by event *)
Definition take_event (st : list bool * RecoveryState * list MEMarketUpdate) (e : MEMarketUpdate) :
    option (list bool * RecoveryState * list MEMarketUpdate) :=
  let '(cleared, state, events) := st in
  if ME_MAX_TICKERS <=? mu_ticker_id e then None else
  done ← cleared !! Z.to_nat (mu_ticker_id e);
  cleared ← (if bool_decide (mu_type e = MD_CLEAR) then
               if done : bool then None else Some (<[Z.to_nat (mu_ticker_id e) := true]> cleared)
             else if bool_decide (mu_type e = MD_ADD) && done then Some cleared else None);
  state ← MarketRecovery.apply state e;
  Some (cleared, state, events ++ [e]).

Fixpoint take_events (es : list MEMarketUpdate) (st : list bool * RecoveryState * list MEMarketUpdate) :
    option (list bool * RecoveryState * list MEMarketUpdate) :=
  match es with
  | [] => Some st
  | e :: es => st ← take_event st e; take_events es st
  end.

Lemma take_events_app l1 l2 st : take_events (l1 ++ l2) st = (take_events l1 st ≫= take_events l2).
Proof.
  revert st. induction l1 as [|p l1 IH]; intros st; [done|]. cbn.
  destruct (take_event st p); cbn; [apply IH|done].
Qed.

Lemma take_frames_events cycle w hash last_seq l st :
  Forall (λ p : Z * MDPMarketUpdate, p.1 <> 0 /\ of_cycle cycle w hash p.2 /\
    mu_type (mdp_update p.2) <> MD_SNAPSHOT_END) l ->
  MarketRecovery.take_frames cycle w hash last_seq l st
  = take_events ((λ p, mdp_update p.2) <$> l) st.
Proof.
  intros Hl. revert st. induction Hl as [|[id u] l (Hid & (Hc & Hw & Hh) & Ht) Hl IH]; intros st; [done|].
  cbn [MarketRecovery.take_frames take_events fmap list_fmap fst snd] in *.
  replace (MarketRecovery.take_frame cycle w hash last_seq st (id, u)) with (take_event st (mdp_update u)).
  { destruct (take_event st (mdp_update u)); cbn; [apply IH|done]. }
  unfold MarketRecovery.take_frame, take_event. destruct st as [[cleared state] events].
  rewrite Hc, Hw, Hh, !Z.eqb_refl. cbn [negb orb].
  rewrite (proj2 (Z.eqb_neq _ _) Hid). by rewrite (bool_decide_false (mu_type _ = MD_SNAPSHOT_END)).
Qed.

Lemma valid_add_inv' u :
  valid_add u = true -> 0 < mu_order_id u < ME_MAX_ORDER_IDS /\ is_buy_or_sell (mu_side u) = true /\
  0 < mu_price u /\ mu_price u <> Price_INVALID /\ valid_qty (mu_qty u) = true.
Proof.
  unfold valid_add, valid_order_id. rewrite !andb_true_iff, !Z.ltb_lt, negb_true_iff, Z.eqb_neq. lia || tauto.
Qed.

Lemma apply_add_listed t id u (state : RecoveryState) m :
  listed t id u -> state !! t = Some m -> m !! id = None -> (t < Z.to_nat ME_MAX_TICKERS)%nat ->
  MarketRecovery.apply state u = Some (<[t := <[id := u]> m]> state).
Proof.
  intros [Hid Ht Hty Hv Hp] Hm Hn Hlt. unfold MarketRecovery.apply.
  rewrite Ht, (proj2 (Z.leb_gt _ _)), Nat2Z.id, Hm by (unfold ME_MAX_TICKERS in *; lia).
  cbn [mbind option_bind].
  apply valid_add_inv' in Hv as (H1 & H2 & H3 & H4 & H5).
  unfold MarketRecovery.apply_to. rewrite Hty. cbn [bool_decide decide].
  rewrite Hid in H1 |- *. rewrite (proj2 (Z.eqb_neq id 0)), (proj2 (Z.leb_gt _ _)) by lia.
  cbn [orb]. rewrite Hn, H2, H5, (proj2 (Z.leb_gt _ _)), (proj2 (Z.eqb_neq _ _) H4) by lia.
  rewrite (proj2 (Z.eqb_neq (mu_priority u) 0)), (proj2 (Z.eqb_neq (mu_priority u) Priority_INVALID)) by lia.
  done.
Qed.

(** The ADDs of a cleared ticker. *)
Definition by_id (l : list MEMarketUpdate) : View := list_to_map ((λ u, (mu_order_id u, u)) <$> l).

Lemma adds_taken t l cleared state m events :
  cleared !! t = Some true -> state !! t = Some m -> (t < Z.to_nat ME_MAX_TICKERS)%nat ->
  Forall (λ u, listed t (mu_order_id u) u) l -> NoDup (mu_order_id <$> l) ->
  (forall u, u ∈ l -> m !! mu_order_id u = None) ->
  take_events l (cleared, state, events) = Some (cleared, <[t := by_id l ∪ m]> state, events ++ l).
Proof.
  intros Hc Hm Ht Hl. revert state m events Hm. induction Hl as [|u l Hu Hl IH]; intros state m events Hm Hnd Hfr.
  { unfold by_id. cbn. rewrite map_empty_union, list_insert_id, app_nil_r by done. done. }
  cbn in Hnd. apply NoDup_cons in Hnd as [Hn Hnd].
  cbn [take_events]. unfold take_event at 1.
  pose proof (apply_add_listed _ _ _ _ _ Hu Hm (Hfr u ltac:(by left)) Ht) as Ha.
  destruct Hu as [_ Hut Hty _ _].
  rewrite Hut, (proj2 (Z.leb_gt _ _)), Nat2Z.id, Hc by (unfold ME_MAX_TICKERS in *; lia).
  cbn [mbind option_bind]. rewrite Hty. cbn [bool_decide decide]. rewrite Ha.
  change (bool_decide (MD_ADD = MD_CLEAR)) with false.
  change (bool_decide (MD_ADD = MD_ADD) && true) with true. cbn [mbind option_bind].
  rewrite (IH _ (<[mu_order_id u := u]> m)).
  - rewrite <- app_assoc. do 3 f_equal. rewrite list_insert_insert_eq. f_equal.
    unfold by_id. cbn. rewrite <- insert_union_l. symmetry. apply insert_union_r.
    apply not_elem_of_list_to_map_1. rewrite <- list_fmap_compose. exact Hn.
  - by rewrite list_lookup_insert_eq by (by eapply lookup_lt_Some).
  - done.
  - intros v Hv. rewrite lookup_insert_ne; [apply Hfr; by right|].
    intros E. apply Hn. rewrite E. by apply list_elem_of_fmap_2.
Qed.

Lemma by_id_sorted_view m : keyed m -> by_id (sorted_view m) = m.
Proof.
  intros Hk. unfold by_id, sorted_view.
  rewrite <- (list_to_map_to_list m) at 2. apply list_to_map_proper.
  - rewrite <- list_fmap_compose. change (fst ∘ (λ u : MEMarketUpdate, (mu_order_id u, u))) with mu_order_id.
    rewrite merge_sort_Permutation, <- list_fmap_compose.
    rewrite (list_fmap_ext _ fst); [apply NoDup_fst_map_to_list|].
    intros i [k u] Hi%list_elem_of_lookup_2%elem_of_map_to_list. cbn. by apply Hk.
  - rewrite merge_sort_Permutation, <- list_fmap_compose.
    rewrite (list_fmap_ext _ id); [by rewrite list_fmap_id|].
    intros i [k u] Hi%list_elem_of_lookup_2%elem_of_map_to_list. cbn. by rewrite (Hk k u).
Qed.

Definition ticker_block (views : list View) (t : Z) : list MEMarketUpdate :=
  SnapshotSynthesizer.clear t :: sorted_view (default ∅ (views !! Z.to_nat t)).

Lemma public_keyed views t m : public_books views -> views !! t = Some m -> keyed m.
Proof. intros Hp Hm id u Hu. apply (pb_listed _ Hp _ _ _ _ Hm Hu). Qed.

Lemma block_taken views t m cleared state events :
  public_books views -> views !! t = Some m -> cleared !! t = Some false ->
  length state = Z.to_nat ME_MAX_TICKERS ->
  take_events (ticker_block views (Z.of_nat t)) (cleared, state, events)
  = Some (<[t := true]> cleared, <[t := m]> state, events ++ ticker_block views (Z.of_nat t)).
Proof.
  intros Hp Hm Hc Hs. unfold ticker_block. rewrite Nat2Z.id, Hm. cbn [default from_option].
  pose proof (lookup_lt_Some _ _ _ Hm) as Ht. rewrite (pb_length _ Hp) in Ht.
  destruct (lookup_lt_is_Some_2 state t) as [m0 Hm0]; [lia|].
  cbn [take_events]. unfold take_event at 1, SnapshotSynthesizer.clear, MarketRecovery.apply, MarketRecovery.apply_to.
  cbn [mu_ticker_id mu_type].
  rewrite (proj2 (Z.leb_gt _ _)), Nat2Z.id, Hc, Hm0 by (unfold ME_MAX_TICKERS in *; lia).
  change (bool_decide (MD_CLEAR = MD_CLEAR)) with true. cbn [mbind option_bind id].
  rewrite (adds_taken t _ _ _ ∅).
  - rewrite map_union_empty, by_id_sorted_view, list_insert_insert_eq by (by eapply public_keyed).
    by rewrite <- app_assoc.
  - apply list_lookup_insert_eq. by eapply lookup_lt_Some.
  - apply list_lookup_insert_eq. lia.
  - done.
  - apply Forall_forall. intros u [id Hu]%sorted_view_elem.
    pose proof (pb_listed _ Hp _ _ _ _ Hm Hu) as Hl. by rewrite (ls_id _ _ _ Hl).
  - pose proof (sorted_view_strict m (public_keyed _ _ _ Hp Hm)) as Hst.
    clear -Hst. induction Hst as [|u l Hst IH Hu]; [constructor|]. cbn. apply NoDup_cons. split; [|done].
    intros (v & E & Hv)%list_elem_of_fmap. rewrite Forall_forall in Hu. specialize (Hu v Hv).
    unfold id_lt in Hu. lia.
  - intros u _. apply lookup_empty.
Qed.

(** All tickers, one block after the other. *)
Lemma blocks_taken views ts cleared state events :
  public_books views -> length cleared = Z.to_nat ME_MAX_TICKERS ->
  length state = Z.to_nat ME_MAX_TICKERS ->
  NoDup ts -> (forall t, t ∈ ts -> cleared !! t = Some false) ->
  exists cleared' state',
    take_events (mjoin (ticker_block views ∘ Z.of_nat <$> ts)) (cleared, state, events)
      = Some (cleared', state', events ++ mjoin (ticker_block views ∘ Z.of_nat <$> ts)) /\
    length cleared' = Z.to_nat ME_MAX_TICKERS /\ length state' = Z.to_nat ME_MAX_TICKERS /\
    (forall t, t ∈ ts -> cleared' !! t = Some true /\ state' !! t = views !! t) /\
    (forall t, t ∉ ts -> cleared' !! t = cleared !! t /\ state' !! t = state !! t).
Proof.
  intros Hp Hcl Hsl Hnd. revert cleared state events Hcl Hsl.
  induction Hnd as [|t ts Hn Hnd IH]; intros cleared state events Hcl Hsl Hf.
  { exists cleared, state. cbn. rewrite app_nil_r. split_and!; try done. intros t Ht. by apply not_elem_of_nil in Ht. }
  pose proof (Hf t ltac:(by left)) as Hct. pose proof (lookup_lt_Some _ _ _ Hct) as Hlt.
  destruct (lookup_lt_is_Some_2 views t) as [m Hm]; [rewrite (pb_length _ Hp); lia|].
  destruct (IH (<[t := true]> cleared) (<[t := m]> state) (events ++ ticker_block views (Z.of_nat t)))
    as (c' & s' & E & Hc' & Hs' & Hin & Hout).
  - by rewrite length_insert.
  - by rewrite length_insert.
  - intros t' Ht'. rewrite list_lookup_insert_ne by (intros ->; done). apply Hf. by right.
  - exists c', s'.
    change (mjoin (ticker_block views ∘ Z.of_nat <$> t :: ts))
      with (ticker_block views (Z.of_nat t) ++ mjoin (ticker_block views ∘ Z.of_nat <$> ts)).
    rewrite take_events_app, (block_taken views t m) by done. cbn [mbind option_bind].
    rewrite E, <- app_assoc. split_and!; try done.
    + intros t' [->|Ht']%elem_of_cons; [|by apply Hin]. destruct (Hout t Hn) as [-> ->].
      rewrite !list_lookup_insert_eq by lia. by rewrite Hm.
    + intros t' Ht'. rewrite not_elem_of_cons in Ht'. destruct Ht' as [Hne Ht'].
      destruct (Hout t' Ht') as [-> ->]. by rewrite !list_lookup_insert_ne by done.
Qed.

(** The events between the markers of a cycle. *)
Definition inner_events (views : list View) : list MEMarketUpdate :=
  mjoin (ticker_block views <$> seqZ 0 ME_MAX_TICKERS).

Lemma cycle_events_split views w :
  cycle_events views w = SnapshotSynthesizer.marker MD_SNAPSHOT_START w :: inner_events views
    ++ [SnapshotSynthesizer.marker MD_SNAPSHOT_END w].
Proof. done. Qed.

Lemma inner_taken views :
  public_books views ->
  exists cleared, take_events (inner_events views)
      (MarketRecovery.none_cleared, MarketRecovery.no_orders, []) = Some (cleared, views, inner_events views) /\
    forallb id cleared = true.
Proof.
  intros Hp.
  assert (E : inner_events views = mjoin (ticker_block views ∘ Z.of_nat <$> seq 0 (Z.to_nat ME_MAX_TICKERS))) by done.
  rewrite E.
  destruct (blocks_taken views (seq 0 (Z.to_nat ME_MAX_TICKERS)) MarketRecovery.none_cleared
    MarketRecovery.no_orders [] Hp eq_refl eq_refl) as (c & s & -> & Hc & Hs & Hin & _).
  - apply NoDup_seq.
  - intros t Ht%elem_of_seq. apply lookup_replicate. lia || (split; [done|lia]).
  - assert (s = views) as ->.
    { apply list_eq_same_length with (n := Z.to_nat ME_MAX_TICKERS); [apply Hp|done|].
      intros t x y Ht Hx Hy. destruct (Hin t) as [_ Ht']; [apply elem_of_seq; lia|]. congruence. }
    exists c. split; [done|]. apply forallb_forall. intros b Hb%list_elem_of_In%list_elem_of_lookup.
    destruct Hb as [t Hb]. pose proof (lookup_lt_Some _ _ _ Hb).
    destruct (Hin t) as [Ht _]; [apply elem_of_seq; lia|]. rewrite Ht in Hb. by injection Hb as <-.
Qed.

Lemma flatten_live views : public_books views -> MarketRecovery.flatten views = live_view views.
Proof.
  intros Hp. unfold MarketRecovery.flatten, live_view. f_equal. apply list_fmap_ext. intros t m Hm.
  pose proof (public_keyed _ _ _ Hp Hm) as Hk.
  apply id_sorted_unique; [|by apply sorted_view_strict|].
  - pose proof (entries_strict m) as Hs.
    assert (Hid : Forall (λ p : Z * MEMarketUpdate, mu_order_id p.2 = p.1) (entries m)).
    { apply Forall_forall. intros [k u] Hu%elem_of_entries. by apply Hk. }
    revert Hs Hid. generalize (entries m). intros l. induction l as [|p l IH]; intros Hs Hid; [constructor|].
    cbn in Hs |- *. inversion Hs as [|? ? Hs' Hp']; subst. apply Forall_cons in Hid as [Hp1 Hid].
    constructor; [by apply IH|]. apply Forall_forall. intros u (q & -> & Hq)%list_elem_of_fmap.
    rewrite Forall_forall in Hp'. rewrite Forall_forall in Hid. unfold id_lt. rewrite Hp1, (Hid q Hq). apply Hp'.
    by apply list_elem_of_fmap_2.
  - intros u. rewrite sorted_view_elem, list_elem_of_fmap. split.
    + intros ([k u'] & -> & Hu%elem_of_entries). eauto.
    + intros [k Hu]. exists (k, u). by rewrite elem_of_entries.
Qed.

(** ** Reception *)
Definition ingest_all (arrivals : History) (r : MarketRecovery) : MarketRecovery :=
  foldl (λ r a, (MarketRecovery.ingest a.1 a.2 r).2) r arrivals.

Lemma cache_size (m : gmap Z MDPMarketUpdate) (L : list MDPMarketUpdate) :
  (forall k u, m !! k = Some u -> u ∈ L /\ mdp_seq_num u = k) -> (size m <= length L)%nat.
Proof.
  intros Hm. rewrite <- length_entries, <- (length_fmap snd). apply submseteq_length, NoDup_submseteq.
  - apply (NoDup_fmap_1 mdp_seq_num). rewrite entries_seqs; [apply entries_keys_NoDup|].
    intros k u Hu. apply (Hm k u Hu).
  - intros u ([k v] & -> & Hv%elem_of_entries)%list_elem_of_fmap. apply (Hm k v Hv).
Qed.

Section Arrivals.
Context (cycle w limit : Z) (frames stream : list MDPMarketUpdate).
Hypothesis Hcycle : 0 < cycle.
Hypothesis Hframes : forall f, f ∈ frames -> mdp_snapshot_cycle f = cycle /\ mdp_watermark f = w.
Hypothesis Hframes_inj : forall f g, f ∈ frames -> g ∈ frames -> mdp_seq_num f = mdp_seq_num g -> f = g.
Hypothesis Hstream_inj : forall f g, f ∈ stream -> g ∈ stream -> mdp_seq_num f = mdp_seq_num g -> f = g.
Hypothesis Hlimit : Z.of_nat (length frames) + Z.of_nat (length stream) <= limit.

Definition from_publisher (a : bool * MDPMarketUpdate) : Prop :=
  a.2 ∈ (if a.1 then frames else stream).

#[export] Instance from_publisher_dec a : Decision (from_publisher a).
Proof. unfold from_publisher. apply _. Defined.

Record arrived (l : History) (r : MarketRecovery) : Prop := {
  ar_recovering : mr_recovering r = true;
  ar_limit : mr_limit r = limit;
  ar_cycle : (exists f, (true, f) ∈ l) -> mr_cycle r = cycle /\ mr_invalid_cycle r = false;
  ar_before : (forall f, (true, f) ∉ l) -> mr_cycle r < cycle /\ mr_snapshot r = ∅;
  ar_snapshot : forall k f, mr_snapshot r !! k = Some f <-> (true, f) ∈ l /\ mdp_seq_num f = k;
  ar_stream : forall k u, mr_incremental r !! k = Some u -> (false, u) ∈ l /\ mdp_seq_num u = k;
  ar_kept : forall u, (false, u) ∈ l -> w < mdp_seq_num u ->
    mr_incremental r !! mdp_seq_num u = Some u
}.

Lemma arrived_room l r :
  Forall from_publisher l -> arrived l r -> MarketRecovery.check_limit r = (true, r).
Proof.
  intros Hl Ha. unfold MarketRecovery.check_limit.
  rewrite (proj2 (Z.ltb_ge _ _)); [done|]. rewrite (ar_limit _ _ Ha). unfold MarketRecovery.cached.
  rewrite Forall_forall in Hl.
  pose proof (cache_size (mr_snapshot r) frames) as H1.
  pose proof (cache_size (mr_incremental r) stream) as H2.
  enough (size (mr_snapshot r) <= length frames /\ size (mr_incremental r) <= length stream)%nat by lia.
  split.
  - apply H1. intros k u Hu. apply (ar_snapshot _ _ Ha) in Hu as [Hu ?]. split; [|done].
    exact (Hl _ Hu).
  - apply H2. intros k u Hu. apply (ar_stream _ _ Ha) in Hu as [Hu ?]. split; [|done].
    exact (Hl _ Hu).
Qed.

(** A frame that is not in the cache yet. *)
Lemma arrived_store l r (c : bool) u :
  arrived l r -> (c = true -> mr_cycle r = cycle /\ mr_invalid_cycle r = false) ->
  (if c then mr_snapshot r else mr_incremental r) !! mdp_seq_num u = None ->
  (c = false -> (exists f, (true, f) ∈ l) \/ forall f, (true, f) ∉ l) ->
  arrived (l ++ [(c, u)]) (MarketRecovery.store_frame c u r).
Proof.
  intros [H1 H2 H3 H4 H5 H6 H7] Hc Hn Hd.
  assert (Hel : forall a, a ∈ l ++ [(c, u)] <-> a ∈ l \/ a = (c, u)).
  { intros a. by rewrite elem_of_app, list_elem_of_singleton. }
  constructor; cbn; try done.
  - intros [f Hf]. destruct c; [by apply Hc|]. apply H3. exists f. apply Hel in Hf as [?|?]; done.
  - intros Hno. destruct c; [exfalso; apply (Hno u), Hel; by right|].
    apply H4. intros f Hf. apply (Hno f), Hel. by left.
  - intros k f. rewrite Hel. destruct c.
    + rewrite lookup_insert_Some, H5. split; [naive_solver|].
      intros [[Hf|[= ->]] <-]; [|by left]. right. split; [|done].
      intros E. assert (Hs : mr_snapshot r !! mdp_seq_num u = Some f) by (by apply H5). congruence.
    + rewrite H5. naive_solver.
  - intros k x. rewrite Hel. destruct c; [intros Hx; apply H6 in Hx; naive_solver|].
    rewrite lookup_insert_Some. intros [[<- <-]|[_ Hx]]; [by eauto|]. apply H6 in Hx. naive_solver.
  - intros x [Hx|[= <- <-]]%Hel Hw; cbn.
    + destruct c; [by apply H7|]. rewrite lookup_insert_ne; [by apply H7|].
      intros E. rewrite E, H7 in Hn by done. done.
    + apply lookup_insert_eq.
Qed.

(** A frame that is there already. *)
Lemma arrived_again l r (c : bool) u f :
  arrived l r -> (c, u) ∈ l -> arrived (l ++ [(c, u)]) (MarketRecovery.with_counters f r).
Proof.
  intros [H1 H2 H3 H4 H5 H6 H7] Hu.
  assert (Hel : forall a, a ∈ l ++ [(c, u)] <-> a ∈ l).
  { intros a. rewrite elem_of_app, list_elem_of_singleton. split; [intros [?| ->]; done|by left]. }
  constructor; cbn; try done; setoid_rewrite Hel; done.
Qed.

Lemma emplace_arrived l r (c : bool) u :
  arrived l r -> Forall from_publisher (l ++ [(c, u)]) ->
  (c = true -> mr_cycle r = cycle /\ mr_invalid_cycle r = false) ->
  (c = false -> (exists f, (true, f) ∈ l) \/ forall f, (true, f) ∉ l) ->
  arrived (l ++ [(c, u)]) (MarketRecovery.emplace c u r).2.
Proof.
  intros Ha Hl Hc Hd. unfold MarketRecovery.emplace.
  destruct ((if c then mr_snapshot r else mr_incremental r) !! mdp_seq_num u) as [old|] eqn:E.
  - assert (Hold : (c, old) ∈ l /\ mdp_seq_num old = mdp_seq_num u).
    { destruct c; [by apply (ar_snapshot _ _ Ha)|by apply (ar_stream _ _ Ha)]. }
    destruct Hold as [Hold Hs].
    assert (old = u) as ->.
    { rewrite Forall_app, Forall_singleton, Forall_forall in Hl. destruct Hl as [Hl Hu].
      specialize (Hl _ Hold). destruct c; [by apply Hframes_inj|by apply Hstream_inj]. }
    unfold MarketRecovery.sameEvent. rewrite bool_decide_true, !Z.eqb_refl, orb_true_r by done.
    cbn [andb negb]. destruct c; [by apply arrived_again|].
    pose proof (arrived_again _ _ false u MarketRecovery.duplicate Ha Hold) as Ha'.
    by rewrite (arrived_room _ _ Hl Ha').
  - pose proof (arrived_store _ _ _ _ Ha Hc E Hd) as Ha'. by rewrite (arrived_room _ _ Hl Ha').
Qed.

(** The first frame of the cycle drops what was cached before. *)
Lemma arrived_first l r u :
  arrived l r -> Forall from_publisher (l ++ [(true, u)]) -> (forall f, (true, f) ∉ l) ->
  arrived (l ++ [(true, u)]) (MarketRecovery.emplace true u (MarketRecovery.newer_cycle u r)).2.
Proof.
  intros [H1 H2 H3 H4 H5 H6 H7] Hl Hno.
  assert (Hu : mdp_snapshot_cycle u = cycle /\ mdp_watermark u = w).
  { apply Hframes. rewrite Forall_forall in Hl. apply (Hl (true, u)). set_solver. }
  destruct Hu as [Hu1 Hu2]. unfold MarketRecovery.newer_cycle.
  destruct (H4 Hno) as [Hlt _]. rewrite Hu1, Hu2, (proj2 (Z.ltb_lt _ _) Hlt).
  unfold MarketRecovery.emplace. cbn [mr_snapshot]. rewrite lookup_empty.
  assert (Ha : arrived (l ++ [(true, u)]) (MarketRecovery.store_frame true u
    (mkRecovery (mr_limit r) (mr_recovering r) false cycle (mr_expected r) ∅
       (above w (mr_incremental r)) (mr_counters r)))).
  { assert (Hel : forall a, a ∈ l ++ [(true, u)] <-> a ∈ l \/ a = (true, u)).
    { intros a. by rewrite elem_of_app, list_elem_of_singleton. }
    constructor; cbn; try done.
    - intros Hn. exfalso. apply (Hn u), Hel. by right.
    - intros k f. rewrite Hel, lookup_insert_Some, lookup_empty. split; [naive_solver|].
      intros [[Hf|[= ->]] <-]; [by apply Hno in Hf|by left].
    - intros k x [Hx _]%lookup_above. rewrite Hel. apply H6 in Hx. naive_solver.
    - intros x [Hx|[=]]%Hel Hw. apply lookup_above. auto. }
  by rewrite (arrived_room _ _ Hl Ha).
Qed.

Lemma ingest_arrived l r c u :
  arrived l r -> Forall from_publisher (l ++ [(c, u)]) ->
  arrived (l ++ [(c, u)]) (MarketRecovery.ingest c u r).2.
Proof.
  intros Ha Hl. unfold MarketRecovery.ingest. rewrite (ar_recovering _ _ Ha). cbn [negb].
  assert (Hex : (exists f, (true, f) ∈ l) \/ forall f, (true, f) ∉ l).
  { destruct (decide (Exists (λ a, a.1 = true) l)) as [Hex|Hno].
    - left. apply Exists_exists in Hex as ([b f] & Hf & Hb). cbn in Hb. subst b. by exists f.
    - right. intros f Hf. apply Hno, Exists_exists. by exists (true, f). }
  destruct c.
  - assert (Hu : mdp_snapshot_cycle u = cycle).
    { apply Hframes. rewrite Forall_forall in Hl. apply (Hl (true, u)). set_solver. }
    rewrite Hu, (proj2 (Z.eqb_neq cycle 0)) by lia. cbn [orb].
    destruct Hex as [Hex|Hno].
    + destruct (ar_cycle _ _ Ha Hex) as [Hc Hi]. rewrite Hc, Z.ltb_irrefl.
      unfold MarketRecovery.newer_cycle. rewrite Hu, Hc, Z.ltb_irrefl, Hi.
      apply emplace_arrived; [done|done|done|done].
    + destruct (ar_before _ _ Ha Hno) as [Hc _]. rewrite (proj2 (Z.ltb_ge _ _)) by lia.
      pose proof (arrived_first _ _ _ Ha Hl Hno) as Ha'. revert Ha'.
      unfold MarketRecovery.newer_cycle. rewrite Hu, (proj2 (Z.ltb_lt _ _) Hc). done.
  - apply emplace_arrived; done.
Qed.

Lemma ingest_all_arrived arrivals l r :
  arrived l r -> Forall from_publisher (l ++ arrivals) ->
  arrived (l ++ arrivals) (ingest_all arrivals r).
Proof.
  revert l r. induction arrivals as [|[c u] arrivals IH]; intros l r Ha Hl.
  { by rewrite app_nil_r. }
  cbn. replace (l ++ (c, u) :: arrivals) with ((l ++ [(c, u)]) ++ arrivals) in * by (by rewrite <- app_assoc).
  apply IH; [|done]. apply ingest_arrived; [done|]. by apply Forall_app in Hl as [? _].
Qed.

Lemma arrived_start r :
  mr_recovering r = true -> mr_limit r = limit -> mr_snapshot r = ∅ -> mr_incremental r = ∅ ->
  mr_cycle r < cycle -> arrived [] r.
Proof.
  intros H1 H2 H3 H4 H5. constructor; rewrite ?H3, ?H4; try done.
  - intros [f Hf%not_elem_of_nil]. done.
  - intros k f. rewrite lookup_empty. split; [done|]. by intros [?%not_elem_of_nil _].
  - intros u Hu%not_elem_of_nil. done.
Qed.

End Arrivals.

(** ** The batch *)
Definition keyed_list (l : list MDPMarketUpdate) : list (Z * MDPMarketUpdate) :=
  (λ u, (mdp_seq_num u, u)) <$> l.

Fixpoint apply_events (es : list MEMarketUpdate) (state : RecoveryState) : option RecoveryState :=
  match es with
  | [] => Some state
  | e :: es => state ← MarketRecovery.apply state e; apply_events es state
  end.

Lemma seqZ_strict a n : StronglySorted Z.lt (seqZ a n).
Proof.
  destruct (decide (0 <= n)) as [Hn|Hn]; [|rewrite seqZ_nil by lia; constructor].
  revert a. revert n Hn. apply (natlike_ind (λ n, forall a, StronglySorted Z.lt (seqZ a n))).
  - intros a. rewrite seqZ_nil by done. constructor.
  - intros n Hn IH a. rewrite seqZ_cons by lia. rewrite Z.pred_succ. constructor; [apply IH|].
    apply Forall_forall. intros k Hk%elem_of_seqZ. lia.
Qed.

Lemma keyed_list_entries (m : gmap Z MDPMarketUpdate) l a n :
  mdp_seq_num <$> l = seqZ a n ->
  (forall k u, m !! k = Some u <-> u ∈ l /\ mdp_seq_num u = k) -> entries m = keyed_list l.
Proof.
  intros Hs Hm. apply entries_unique.
  - unfold keyed_list. rewrite <- list_fmap_compose.
    change (fst ∘ (λ u : MDPMarketUpdate, (mdp_seq_num u, u))) with mdp_seq_num.
    rewrite Hs. apply seqZ_strict.
  - intros k u. rewrite Hm. unfold keyed_list. rewrite list_elem_of_fmap. split.
    + by intros (u' & [= -> ->] & Hu).
    + intros [Hu <-]. eauto.
Qed.

Lemma take_increments_all P w state events books' :
  mdp_seq_num <$> P = seqZ (w + 1) (Z.of_nat (length P)) ->
  apply_events (mdp_update <$> P) state = Some books' -> 0 <= w -> w + Z.of_nat (length P) < 2 ^ 64 ->
  MarketRecovery.take_increments (u64 (w + 1)) (keyed_list P) state events
  = Some (u64 (w + Z.of_nat (length P) + 1), events ++ (mdp_update <$> P)).
Proof.
  revert w state events. induction P as [|u P IH]; intros w state events Hs Ha Hw Hb.
  { cbn. rewrite app_nil_r, Z.add_0_r. done. }
  cbn [length fmap list_fmap] in *. rewrite Nat2Z.inj_succ in *. rewrite seqZ_cons in Hs by lia.
  rewrite Z.pred_succ in Hs. injection Hs as Hu Hs.
  unfold keyed_list. cbn [fmap list_fmap MarketRecovery.take_increments].
  rewrite (u64_small (w + 1)), Hu, Z.eqb_refl by lia. cbn [negb].
  cbn [apply_events] in Ha.
  destruct (MarketRecovery.apply state (mdp_update u)) as [state1|]; [|done].
  cbn [mbind option_bind] in Ha |- *. fold (keyed_list P).
  replace (Z.succ (w + 1)) with (w + 1 + 1) in Hs by lia.
  rewrite (IH (w + 1) state1 _ Hs Ha) by lia. rewrite <- app_assoc. do 3 f_equal. lia.
Qed.

Lemma keyed_seq l i p a n :
  mdp_seq_num <$> l = seqZ a n -> keyed_list l !! i = Some p ->
  p.1 = mdp_seq_num p.2 /\ p.2 ∈ l /\ a <= p.1.
Proof.
  intros Hs Hp%list_elem_of_lookup_2. apply list_elem_of_fmap in Hp as (u & -> & Hu). cbn.
  split; [done|]. split; [done|].
  assert (Hin : mdp_seq_num u ∈ mdp_seq_num <$> l) by (by apply list_elem_of_fmap_2).
  rewrite Hs in Hin. apply elem_of_seqZ in Hin. lia.
Qed.

Section Complete.
Context (r : MarketRecovery) (first end_ : MDPMarketUpdate) (mid P : list MDPMarketUpdate).
Context (w cycle hash : Z) (cleared : list bool) (books books' : list View).
Let frames := first :: mid ++ [end_].

Hypothesis Hvalid : mr_invalid_cycle r = false.
Hypothesis Hcycle : mr_cycle r = cycle.
Hypothesis Hsnapshot : entries (mr_snapshot r) = keyed_list frames.
Hypothesis Hpending : entries (above w (mr_incremental r)) = keyed_list P.
Hypothesis Hseq : mdp_seq_num <$> frames = seqZ 0 (Z.of_nat (length mid) + 2).
Hypothesis Hof : Forall (of_cycle cycle w hash) frames.
Hypothesis Hfirst : mdp_update first = SnapshotSynthesizer.marker MD_SNAPSHOT_START w.
Hypothesis Hend : mdp_update end_ = SnapshotSynthesizer.marker MD_SNAPSHOT_END w.
Hypothesis Hmid : Forall (λ u, mu_type (mdp_update u) <> MD_SNAPSHOT_END) mid.
Hypothesis Htaken : take_events (mdp_update <$> mid)
  (MarketRecovery.none_cleared, MarketRecovery.no_orders, []) = Some (cleared, books, mdp_update <$> mid).
Hypothesis Hcleared : forallb id cleared = true.
Hypothesis Hhash : bookHash (MarketRecovery.flatten books) = hash.
Hypothesis Hincs : mdp_seq_num <$> P = seqZ (w + 1) (Z.of_nat (length P)).
Hypothesis Happly : apply_events (mdp_update <$> P) books = Some books'.
Hypothesis Hw : 0 <= w.
Hypothesis Hbound : w + Z.of_nat (length P) < 2 ^ 64.
Hypothesis Hsize : Z.of_nat (length mid) + 2 < 2 ^ 64.

Lemma frame_numbers :
  mdp_seq_num first = 0 /\ mdp_seq_num end_ = Z.of_nat (length mid) + 1 /\
  mdp_seq_num <$> mid = seqZ 1 (Z.of_nat (length mid)).
Proof.
  unfold frames in Hseq. rewrite fmap_cons, fmap_app in Hseq. cbn [fmap list_fmap] in Hseq.
  rewrite seqZ_cons in Hseq by lia. injection Hseq as H0 H1.
  replace (Z.pred (Z.of_nat (length mid) + 2)) with (Z.of_nat (length mid) + 1) in H1 by lia.
  rewrite seqZ_app in H1 by lia. apply app_inj_1 in H1 as [H1 H2]; [|rewrite length_seqZ, length_fmap; lia].
  rewrite seqZ_cons in H2 by lia. injection H2 as H2. split; [done|]. split; [lia|done].
Qed.

Lemma middle_taken :
  MarketRecovery.take_frames cycle w hash (mdp_seq_num end_) (keyed_list mid)
    (MarketRecovery.none_cleared, MarketRecovery.no_orders, []) = Some (cleared, books, mdp_update <$> mid).
Proof.
  destruct frame_numbers as (H0 & Hn & Hm). unfold keyed_list.
  unfold frames in Hof. rewrite Forall_cons, Forall_app, Forall_singleton in Hof.
  destruct Hof as (_ & Hofm & _). rewrite take_frames_events.
  - rewrite <- list_fmap_compose. exact Htaken.
  - apply Forall_fmap, Forall_forall. intros u Hu. cbn. rewrite Forall_forall in Hmid.
    rewrite Forall_forall in Hofm. split_and!; [|by apply Hofm|by apply Hmid].
    assert (Hin : mdp_seq_num u ∈ mdp_seq_num <$> mid) by (by apply list_elem_of_fmap_2).
    rewrite Hm in Hin. apply elem_of_seqZ in Hin. lia.
Qed.

Lemma frames_taken :
  MarketRecovery.take_frames cycle w hash (mdp_seq_num end_) (keyed_list frames)
    (MarketRecovery.none_cleared, MarketRecovery.no_orders, []) = Some (cleared, books, mdp_update <$> mid).
Proof.
  destruct frame_numbers as (H0 & Hn & Hm). pose proof middle_taken as Hmt.
  unfold frames, keyed_list. rewrite fmap_cons, fmap_app. fold (keyed_list mid).
  cbn [MarketRecovery.take_frames].
  unfold frames in Hof. rewrite Forall_cons, Forall_app, Forall_singleton in Hof.
  destruct Hof as ((F1 & F2 & F3) & _ & (E1 & E2 & E3)).
  unfold MarketRecovery.take_frame at 1. rewrite F1, F2, F3, !Z.eqb_refl, H0. cbn [negb orb mbind option_bind Z.eqb].
  rewrite take_frames_app, Hmt. cbn [mbind option_bind fmap list_fmap MarketRecovery.take_frames].
  unfold MarketRecovery.take_frame. rewrite E1, E2, E3, !Z.eqb_refl, Hend. cbn [negb orb].
  by rewrite (proj2 (Z.eqb_neq _ _)) by lia.
Qed.

(** Any books that follow the batch end up as the publisher's. *)
Lemma batch_replays views0 :
  Forall (λ u, is_u64 (mu_order_id (mdp_update u))) (mid ++ P) ->
  length views0 = Z.to_nat ME_MAX_TICKERS ->
  replay_all ((mdp_update <$> mid) ++ (mdp_update <$> P)) views0 = Some books'.
Proof.
  intros [Hid1 Hid2]%Forall_app Hlen. destruct frame_numbers as (H0 & Hn & Hm).
  assert (Hk1 : Forall (λ p, is_u64 (mu_order_id (mdp_update p.2))) (keyed_list mid)) by (by apply Forall_fmap).
  assert (Hk2 : Forall (λ p, p.1 <> 0 /\ p.1 <> mdp_seq_num end_) (keyed_list mid)).
  { apply Forall_forall. intros p [i Hp]%list_elem_of_lookup.
    destruct (keyed_seq _ _ _ _ _ Hm Hp) as (E & Hin & Hge).
    assert (Hk : mdp_seq_num p.2 ∈ mdp_seq_num <$> mid) by (by apply list_elem_of_fmap_2).
    rewrite Hm in Hk. apply elem_of_seqZ in Hk. lia. }
  destruct (take_frames_middle cycle w hash (mdp_seq_num end_) views0 (keyed_list mid)
    (MarketRecovery.none_cleared, MarketRecovery.no_orders, []) views0
    (cleared, books, mdp_update <$> mid) (taking_start _ Hlen) Hk1 Hk2 middle_taken) as (_ & _ & v & Hv).
  rewrite replay_app. pose proof (tk_replay _ _ _ Hv) as Hr. cbn [snd] in Hr. rewrite Hr.
  rewrite (taking_end _ _ _ _ _ Hv Hcleared). cbn [mbind option_bind].
  clear -Happly Hid2. revert books Happly. induction Hid2 as [|u P Hu Hid IH]; intros books Ha; [done|].
  cbn [fmap list_fmap apply_events replay_all] in *.
  destruct (MarketRecovery.apply books (mdp_update u)) as [books1|] eqn:E; [|done].
  rewrite (apply_replays _ _ _ Hu E). cbn [mbind option_bind] in *. by apply IH.
Qed.

Lemma build_complete :
  MarketRecovery.build r
  = (Some (mkBatch ((mdp_update <$> mid) ++ (mdp_update <$> P)) (w + Z.of_nat (length P))), r).
Proof.
  destruct frame_numbers as (H0 & Hn & Hm). pose proof frames_taken as Hft.
  unfold frames in Hof. rewrite Forall_cons, Forall_app, Forall_singleton in Hof.
  destruct Hof as ((F1 & F2 & F3) & _ & (E1 & E2 & E3)).
  assert (Hsz : Z.of_nat (size (mr_snapshot r)) = Z.of_nat (length mid) + 2).
  { rewrite <- length_entries, Hsnapshot. unfold keyed_list, frames. rewrite length_fmap. cbn.
    rewrite length_app. cbn. lia. }
  unfold MarketRecovery.build. rewrite Hvalid, Hsnapshot.
  assert (Hh : head (keyed_list frames) = Some (0, first)) by (cbn; by rewrite H0).
  assert (Hl : last (keyed_list frames) = Some (mdp_seq_num end_, end_)).
  { unfold keyed_list, frames. rewrite fmap_cons, fmap_app, app_comm_cons. apply last_snoc. }
  rewrite Hh, Hl, H0, Hfirst, Hend, F2, F3, E2, E3, Hsz. cbn [mu_type mu_order_id SnapshotSynthesizer.marker].
  rewrite !Z.eqb_refl, Hcycle. rewrite u64_small by lia.
  rewrite (proj2 (Z.eqb_eq (mdp_seq_num end_) _)) by lia.
  change (bool_decide (MD_SNAPSHOT_START = MD_SNAPSHOT_START)) with true.
  change (bool_decide (MD_SNAPSHOT_END = MD_SNAPSHOT_END)) with true. cbn [negb orb].
  rewrite Hpending.
  assert (Hg : match head (keyed_list P) with Some (k, _) => negb (k =? u64 (w + 1)) | None => false end = false).
  { destruct P as [|u P']; [done|]. cbn [length] in *. rewrite Nat2Z.inj_succ, seqZ_cons in Hincs by lia.
    injection Hincs as Hu _. cbn. rewrite Hu, u64_small, Z.eqb_refl by lia. done. }
  rewrite Hg, Hft, Hcleared, Hhash, Z.eqb_refl. cbn [negb].
  rewrite (take_increments_all _ _ _ _ _ Hincs Happly Hw Hbound). do 3 f_equal.
  unfold u64. rewrite Zminus_mod_idemp_l, Z.mod_small; lia.
Qed.

End Complete.

(** ** The end of the recovery *)
Lemma inner_listed views e :
  public_books views -> e ∈ inner_events views ->
  mu_type e <> MD_SNAPSHOT_END /\ is_u64 (mu_order_id e).
Proof.
  intros Hp He. unfold inner_events in He. apply list_elem_of_join in He as (l & He & Hl).
  apply list_elem_of_fmap in Hl as (t & -> & Ht). unfold ticker_block in He.
  apply elem_of_cons in He as [->|He]; [by vm_compute|].
  destruct (views !! Z.to_nat t) as [m|] eqn:Em; [|by apply not_elem_of_nil in He].
  apply sorted_view_elem in He as [id He]. destruct (pb_listed _ Hp _ _ _ _ Em He) as [Hid _ -> Hv _].
  split; [done|]. apply valid_add_inv' in Hv as (H & _). unfold is_u64, ME_MAX_ORDER_IDS in *. lia.
Qed.

Lemma cycle_frames_split views cycle w hash :
  cycle_frames cycle w hash (cycle_events views w)
  = mkMDP 0 (SnapshotSynthesizer.marker MD_SNAPSHOT_START w) cycle w hash
      :: frames_from 1 cycle w hash (inner_events views)
      ++ [mkMDP (Z.of_nat (length (inner_events views)) + 1)
            (SnapshotSynthesizer.marker MD_SNAPSHOT_END w) cycle w hash].
Proof.
  rewrite cycle_events_split. unfold cycle_frames. rewrite frames_from_cons, frames_from_app.
  do 2 f_equal. rewrite frames_from_cons. do 2 f_equal. lia.
Qed.

Section Restore.
Context (cycle : Z) (views : list View) (old news : list MEMarketUpdate) (arrivals : History).
Context (r : MarketRecovery).
Let w := Z.of_nat (length old).
Let hash := bookHash (live_view views).
Let frames := cycle_frames cycle w hash (cycle_events views w).
Let stream := increments 0 (old ++ news).
Let inner := frames_from 1 cycle w hash (inner_events views).
Let start := mkMDP 0 (SnapshotSynthesizer.marker MD_SNAPSHOT_START w) cycle w hash.
Let finish := mkMDP (Z.of_nat (length (inner_events views)) + 1)
  (SnapshotSynthesizer.marker MD_SNAPSHOT_END w) cycle w hash.

Hypothesis Hfrom : Forall (from_publisher frames stream) arrivals.
Hypothesis Hall : forall f, f ∈ frames -> (true, f) ∈ arrivals.
Hypothesis Hnew : forall u, u ∈ increments w news -> (false, u) ∈ arrivals.

Lemma stream_split : stream = increments 0 old ++ increments w news.
Proof. unfold stream, increments. rewrite frames_from_app. do 2 f_equal. lia. Qed.

Lemma frames_split : frames = start :: inner ++ [finish].
Proof. apply cycle_frames_split. Qed.

Lemma all_arrived :
  0 < cycle -> Z.of_nat (length frames) + Z.of_nat (length stream) <= mr_limit r ->
  mr_recovering r = true -> mr_snapshot r = ∅ -> mr_incremental r = ∅ -> mr_cycle r < cycle ->
  arrived cycle w (mr_limit r) arrivals (ingest_all arrivals r).
Proof.
  intros. apply (ingest_all_arrived cycle w (mr_limit r) frames stream) with (l := []); try done.
  - intros f Hf. pose proof (frames_from_meta cycle w hash 0 (cycle_events views w)) as Hm.
    rewrite Forall_forall in Hm. destruct (Hm f Hf) as (? & ? & _). done.
  - apply frames_from_inj.
  - apply frames_from_inj.
  - by apply arrived_start.
Qed.

Context (r' : MarketRecovery).
Hypothesis Ha : arrived cycle w (mr_limit r) arrivals r'.

Lemma final_cycle : mr_cycle r' = cycle /\ mr_invalid_cycle r' = false.
Proof.
  apply (ar_cycle _ _ _ _ _ Ha). exists start. apply Hall. rewrite frames_split. by left.
Qed.

Lemma final_snapshot : entries (mr_snapshot r') = keyed_list (start :: inner ++ [finish]).
Proof.
  rewrite <- frames_split. eapply keyed_list_entries; [apply frames_from_seqs|]. intros k u.
  rewrite (ar_snapshot _ _ _ _ _ Ha).
  split; intros [Hu Hk]; (split; [|done]); [|by apply Hall].
  rewrite Forall_forall in Hfrom. exact (Hfrom _ Hu).
Qed.

Lemma final_pending : entries (above w (mr_incremental r')) = keyed_list (increments w news).
Proof.
  assert (Hseq : forall a us u, u ∈ increments a us -> a < mdp_seq_num u <= a + Z.of_nat (length us)).
  { intros a us u Hu. apply (list_elem_of_fmap_2 mdp_seq_num) in Hu. unfold increments in Hu.
    rewrite frames_from_seqs in Hu. apply elem_of_seqZ in Hu. lia. }
  eapply keyed_list_entries; [apply frames_from_seqs|]. intros k u. rewrite lookup_above. split.
  - intros [Hu Hk]. apply (ar_stream _ _ _ _ _ Ha) in Hu as [Hu <-]. split; [|done].
    rewrite Forall_forall in Hfrom. pose proof (Hfrom _ Hu) as Hs. unfold from_publisher in Hs. cbn in Hs.
    rewrite stream_split in Hs. apply elem_of_app in Hs as [Hs%Hseq|Hs]; [lia|done].
  - intros [Hu <-]. pose proof (Hseq _ _ _ Hu). split; [|lia].
    apply (ar_kept _ _ _ _ _ Ha); [by apply Hnew|lia].
Qed.

Lemma inner_types :
  public_books views ->
  Forall (λ u, mu_type (mdp_update u) <> MD_SNAPSHOT_END) inner /\
  Forall (λ u, is_u64 (mu_order_id (mdp_update u))) inner.
Proof.
  intros Hp.
  assert (Hin : forall u, u ∈ inner -> mdp_update u ∈ inner_events views).
  { intros u Hu. apply (list_elem_of_fmap_2 mdp_update) in Hu. unfold inner in Hu.
    by rewrite frames_from_updates in Hu. }
  split; apply Forall_forall; intros u Hu%Hin; by apply (inner_listed _ _ Hp).
Qed.

End Restore.

(** C6: recovery restores the publisher's books.  The publisher holds the
    books [views] after the updates [old], publishes one snapshot cycle of
    them, and goes on with the updates [news], which lead to [views'].  The
    recovery, waiting for a cycle newer than those it knows, receives frames
    of this cycle and of the stream in any order, late, early or several
    times.  When the whole cycle and the new updates are there, [build]
    returns a batch that ends at the last update and brings any set of books
    to [views']. *)
Theorem recovery_restores_books cycle views old news views' arrivals r :
  let w := Z.of_nat (length old) in
  let hash := bookHash (live_view views) in
  let frames := cycle_frames cycle w hash (cycle_events views w) in
  let stream := increments 0 (old ++ news) in
  public_books views -> 0 < cycle -> apply_events news views = Some views' ->
  Forall (λ u, is_u64 (mu_order_id u)) news ->
  Z.of_nat (length frames) + Z.of_nat (length stream) <= mr_limit r < 2 ^ 64 ->
  mr_recovering r = true -> mr_snapshot r = ∅ -> mr_incremental r = ∅ -> mr_cycle r < cycle ->
  Forall (from_publisher frames stream) arrivals ->
  (forall f, f ∈ frames -> (true, f) ∈ arrivals) ->
  (forall u, u ∈ increments w news -> (false, u) ∈ arrivals) ->
  exists b, MarketRecovery.build (ingest_all arrivals r) = (Some b, ingest_all arrivals r) /\
    ba_watermark b = Z.of_nat (length (old ++ news)) /\
    forall views0, length views0 = Z.to_nat ME_MAX_TICKERS ->
      replay_all (ba_events b) views0 = Some views'.
Proof.
  cbv zeta. set (w := Z.of_nat (length old)). set (hash := bookHash (live_view views)).
  intros Hp Hcy Hap Hids [Hlim Hlim64] Hrec Hsn Hin Hmc Hfrom Hall Hnew.
  pose proof (all_arrived cycle views old news arrivals r Hfrom Hcy Hlim Hrec Hsn Hin Hmc) as Ha.
  set (r' := ingest_all arrivals r) in *.
  destruct (final_cycle cycle views old arrivals r Hall r' Ha) as [Hc Hv].
  pose proof (final_snapshot cycle views old news arrivals r Hfrom Hall r' Ha) as Hsnap.
  pose proof (final_pending cycle views old news arrivals r Hfrom Hnew r' Ha) as Hpend.
  destruct (inner_types cycle views old Hp) as [Hty Hidi].
  destruct (inner_taken views Hp) as (cleared & Htk & Hcl).
  rewrite cycle_frames_split, length_cons, length_app, length_frames_from in Hlim.
  unfold increments at 1 in Hlim. rewrite length_frames_from, length_app in Hlim. cbn [length] in Hlim.
  fold w hash in Hsnap, Hpend, Hty, Hidi.
  set (inner := frames_from 1 cycle w hash (inner_events views)) in *.
  assert (Hupd : mdp_update <$> inner = inner_events views) by apply frames_from_updates.
  assert (Hupn : mdp_update <$> increments w news = news) by apply frames_from_updates.
  assert (Hli : length inner = length (inner_events views)) by apply length_frames_from.
  assert (Hln : length (increments w news) = length news) by apply length_frames_from.
  pose proof (frames_from_meta cycle w hash 0 (cycle_events views w)) as Hof.
  pose proof (frames_from_seqs cycle w hash 0 (cycle_events views w)) as Hsq.
  pose proof (frames_from_seqs 0 0 0 (w + 1) news) as Hsn'. rewrite <- Hln in Hsn'.
  fold (cycle_frames cycle w hash (cycle_events views w)) in Hof, Hsq.
  rewrite cycle_events_split, length_cons, length_app in Hsq. cbn [length] in Hsq.
  rewrite <- cycle_events_split, cycle_frames_split in Hsq. rewrite cycle_frames_split in Hof.
  fold inner in Hof, Hsq.
  replace (Z.of_nat (S (length (inner_events views) + 1))) with (Z.of_nat (length inner) + 2) in Hsq by lia.
  rewrite <- Hupd in Htk. rewrite <- Hupn in Hap.
  eexists. split; [|split].
  - eapply (build_complete r' _ _ inner (increments w news) w cycle hash cleared views views'); try done; try lia.
    by rewrite flatten_live.
  - cbn [ba_watermark]. rewrite Hln, length_app. lia.
  - intros views0 Hlen. cbn [ba_events].
    eapply (batch_replays _ _ inner (increments w news) w cycle hash cleared views views'); try done; try lia.
    apply Forall_app. split; [done|]. rewrite <- Hupn, Forall_fmap in Hids. exact Hids.
Qed.

(** A cycle that arrives backwards, then the stream, then the cycle again. *)
Definition demo_add : MEMarketUpdate := mkUpdate MD_ADD 5 0 BUY 100 7 1.
Definition demo_modify : MEMarketUpdate := mkUpdate MD_MODIFY 5 0 BUY 100 3 1.
Definition demo_books (u : MEMarketUpdate) : list View := {[5 := u]} :: replicate 7 ∅.
Definition demo_frames : list MDPMarketUpdate :=
  cycle_frames 9 1 (bookHash (live_view (demo_books demo_add))) (cycle_events (demo_books demo_add) 1).
Definition demo_stream : list MDPMarketUpdate := increments 0 [demo_add; demo_modify].
Definition demo_arrivals : History :=
  (pair true <$> reverse demo_frames) ++ (pair false <$> demo_stream) ++ (pair true <$> demo_frames).
Definition demo_recovery : MarketRecovery := mkRecovery 40 true false 0 1 ∅ ∅ (mkCounters 0 0 0 0 0 0).

Lemma demo_public : public_books (demo_books demo_add).
Proof.
  constructor; [done|]. intros t m id u Hm Hu. destruct t as [|t].
  - injection Hm as <-. apply lookup_singleton_Some in Hu as [<- <-]. by constructor.
  - cbn in Hm. change (replicate 7 (∅ : View) !! t = Some m) in Hm.
    apply lookup_replicate in Hm as [-> _]. by rewrite lookup_empty in Hu.
Qed.

Lemma recovery_restores_books_witness :
  exists b, MarketRecovery.build (ingest_all demo_arrivals demo_recovery)
      = (Some b, ingest_all demo_arrivals demo_recovery) /\
    ba_watermark b = 2 /\
    replay_all (ba_events b) (replicate 8 ∅) = Some (demo_books (set_mu_qty 3 demo_add)).
Proof.
  destruct (recovery_restores_books 9 (demo_books demo_add) [demo_add] [demo_modify]
    (demo_books (set_mu_qty 3 demo_add)) demo_arrivals demo_recovery) as (b & H1 & H2 & H3).
  - apply demo_public.
  - lia.
  - vm_compute. reflexivity.
  - repeat (constructor; [by vm_compute|]). constructor.
  - split; by vm_compute.
  - reflexivity.
  - reflexivity.
  - reflexivity.
  - by vm_compute.
  - apply (bool_decide_unpack _). vm_compute. exact I.
  - apply Forall_forall. apply (bool_decide_unpack _). vm_compute. exact I.
  - apply Forall_forall. apply (bool_decide_unpack _). vm_compute. exact I.
  - exists b. split; [exact H1|]. split; [exact H2|]. by apply H3.
Defined.

#[export] Instance mdp_wf_dec u : Decision (mdp_wf u).
Proof.
  unfold mdp_wf, update_wf, MarketUpdateType_wf, Side_wf, is_u8, is_u32, is_u64, is_i8, is_i64. apply _.
Defined.

Definition demo_rec_ops : list RecOp :=
  ((λ a, Ingest a.1 a.2) <$> demo_arrivals) ++ [Build].

Lemma recovery_batch_is_consistent_witness :
  exists b, MarketRecovery.build (rec_run demo_rec_ops demo_recovery) = (Some b, rec_run demo_rec_ops demo_recovery) /\
    consistent_batch (λ c u, (c, u) ∈ received demo_rec_ops) b.
Proof.
  assert (H : exists b, MarketRecovery.build (rec_run demo_rec_ops demo_recovery)
    = (Some b, rec_run demo_rec_ops demo_recovery)) by (eexists; vm_compute; reflexivity).
  destruct H as [b H]. exists b. split; [exact H|].
  apply (recovery_batch_is_consistent 40 demo_rec_ops demo_recovery b _ eq_refl ltac:(lia)) in H as [_ H];
    [exact H|].
  assert (Hall : Forall (λ p, mdp_wf p.2) (received demo_rec_ops)).
  { apply (bool_decide_unpack _). vm_compute. exact I. }
  intros c u Hu. rewrite Forall_forall in Hall. exact (Hall _ Hu).
Defined.
