(* ===== verification/MarketDataConsumer.v ===== *)
(** The market data thread of the trading side:
    trading/market_data/market_data_consumer.{h,cpp}.

    The two sockets have kernels of their own.  [mdc_generation] is the shared
    atomic counter, which the trade engine may advance between any two
    iterations; the output queue is the one that the trade engine drains. *)
From S2P Require Import Prelude.
From S2P Require Import Types.
From S2P Require Import Wire.
From S2P Require Import LFQueue.
From S2P Require Import McastSocket.
From S2P Require Import MarketView.
From S2P Require Import MarketRecovery.
From S2P Require Import RecoveryTheorems.
From stdpp Require Import functions base gmap list.
From Stdlib Require Import ZArith Lia.

Local Open Scope Z_scope.

Record MarketDataConsumer : Type := mkConsumer {
  mdc_output : LFQueue MEMarketUpdate;
  mdc_incremental : McastSocket;
  mdc_snapshot : McastSocket;
  mdc_recovery : MarketRecovery;
  mdc_candidate : option Batch;
  mdc_generation : Z;
  mdc_observed : Z
}.

Module MarketDataConsumer.

Definition with_output (q : LFQueue MEMarketUpdate) (c : MarketDataConsumer) : MarketDataConsumer :=
  mkConsumer q (mdc_incremental c) (mdc_snapshot c) (mdc_recovery c) (mdc_candidate c)
    (mdc_generation c) (mdc_observed c).
Definition with_recovery (r : MarketRecovery) (c : MarketDataConsumer) : MarketDataConsumer :=
  mkConsumer (mdc_output c) (mdc_incremental c) (mdc_snapshot c) r (mdc_candidate c)
    (mdc_generation c) (mdc_observed c).
Definition with_candidate (b : option Batch) (c : MarketDataConsumer) : MarketDataConsumer :=
  mkConsumer (mdc_output c) (mdc_incremental c) (mdc_snapshot c) (mdc_recovery c) b
    (mdc_generation c) (mdc_observed c).
Definition with_generation (g o : Z) (c : MarketDataConsumer) : MarketDataConsumer :=
  mkConsumer (mdc_output c) (mdc_incremental c) (mdc_snapshot c) (mdc_recovery c) (mdc_candidate c) g o.
Definition with_socket (snapshot : bool) (s : McastSocket) (c : MarketDataConsumer) : MarketDataConsumer :=
  mkConsumer (mdc_output c) (if snapshot then mdc_incremental c else s)
    (if snapshot then s else mdc_snapshot c) (mdc_recovery c) (mdc_candidate c) (mdc_generation c)
    (mdc_observed c).
Definition socket (snapshot : bool) (c : MarketDataConsumer) : McastSocket :=
  if snapshot then mdc_snapshot c else mdc_incremental c.

(** [generation_->fetch_add(1) + 1]. *)
Definition new_generation (c : MarketDataConsumer) : MarketDataConsumer :=
  let g := u64 (mdc_generation c + 1) in with_generation g g c.

(** The constructor, both subscriptions done. *)
Definition make (limit generation : Z) (output : LFQueue MEMarketUpdate) : res MarketDataConsumer :=
  r ← MarketRecovery.make limit;
  Ok (new_generation (mkConsumer output McastSocket.opened McastSocket.opened r None generation 0)).

Definition stale (c : MarketDataConsumer) : MarketDataConsumer :=
  let c := new_generation c in
  with_candidate None (with_recovery (MarketRecovery.restart (mdc_recovery c)) c).

Definition publishRecovery (c : MarketDataConsumer) : res MarketDataConsumer :=
  match mdc_candidate c with
  | None => Ok c
  | Some b =>
      '(ok, q) ← try_push_batch (ba_events b) (mdc_output c);
      let c := with_output q c in
      if ok : bool then Ok (with_candidate None (with_recovery (MarketRecovery.commit b (mdc_recovery c)) c))
      else Ok c
  end.

(** The marker that ends a batch. *)
Definition marker (watermark generation : Z) : MEMarketUpdate :=
  mkUpdate MD_RECOVERY_COMMIT watermark TickerId_INVALID Side_INVALID Price_INVALID Qty_INVALID generation.

(** The live part of [process]; [true]: the frame is dealt with. *)
Definition process_live (update : MDPMarketUpdate) (c : MarketDataConsumer) : res (bool * MarketDataConsumer) :=
  let '(next, r) := MarketRecovery.liveCandidate update (mdc_recovery c) in
  let c := with_recovery r c in
  if next then
    '(ok, q) ← try_push (mdp_update update) (mdc_output c);
    let c := with_output q c in
    if ok : bool then Ok (true, with_recovery (MarketRecovery.commitLive (mdc_recovery c)) c)
    else Ok (false, stale c)
  else if negb (MarketRecovery.recovering r) then Ok (true, c)
  else Ok (false, with_candidate None (new_generation c)).

Definition process (snapshot : bool) (update : MDPMarketUpdate) (c : MarketDataConsumer) :
    res MarketDataConsumer :=
  let live := negb (MarketRecovery.recovering (mdc_recovery c)) in
  if snapshot && live then Ok c else
  '(done, c) ← (if negb snapshot && live then process_live update c else Ok (false, c));
  if done : bool then Ok c else
  let r := (MarketRecovery.ingest snapshot update (mdc_recovery c)).2 in
  let '(candidate, r) := MarketRecovery.build r in
  let c := with_candidate candidate (with_recovery r c) in
  match candidate with
  | None => Ok c
  | Some b =>
      publishRecovery (with_candidate
        (Some (mkBatch (ba_events b ++ [marker (ba_watermark b) (mdc_observed c)]) (ba_watermark b))) c)
  end.

(** What the incremental channel may carry. *)
Definition incremental_ok (update : MDPMarketUpdate) : bool :=
  let event := mdp_update update in
  (MarketUpdateType_to_Z MD_CLEAR <=? MarketUpdateType_to_Z (mu_type event))
  && (MarketUpdateType_to_Z (mu_type event) <=? MarketUpdateType_to_Z MD_TRADE)
  && (mu_ticker_id event <? ME_MAX_TICKERS) && (mdp_snapshot_cycle update =? 0)
  && (mdp_watermark update =? 0) && (mdp_state_hash update =? 0).

(** The loop over the frames of a datagram. *)
Fixpoint receive_frames (n : nat) (snapshot : bool) (bytes : list Z) (c : MarketDataConsumer) :
    res MarketDataConsumer :=
  match n with
  | O => Ok c
  | S n =>
      '(ok, update) ← decode_market bytes default_MDPMarketUpdate;
      if negb ok then Ok (stale c) else
      if negb snapshot && negb (incremental_ok update) then Ok (stale c) else
      c ← process snapshot update c;
      receive_frames n snapshot (drop MarketSize bytes) c
  end.

(** [next_rcv_valid_index_ = 0]. *)
Definition drained (s : McastSocket) : McastSocket :=
  mkMcast (mc_open s) (mc_outbound s) [] (mc_receive_fault s) (mc_truncated s) (mc_retries s)
    (mc_sent_bytes s) (mc_received_bytes s) (mc_calls s) (mc_wire s).

Definition receive (snapshot : bool) (c : MarketDataConsumer) : res MarketDataConsumer :=
  let s := socket snapshot c in
  let bytes := mc_inbound s in
  if snapshot && negb (MarketRecovery.recovering (mdc_recovery c)) then
    Ok (with_socket snapshot (drained s) c)
  else if mc_receive_fault s || negb (bool_decide (length bytes mod MarketSize = 0)%nat) then
    Ok (stale (with_socket snapshot (drained s) c))
  else
    c ← receive_frames (length bytes / MarketSize) snapshot bytes c;
    Ok (with_socket snapshot (drained s) c).

(** The callback of [sendAndRecv]. *)
Definition poll (snapshot : bool) (kernel : Kernel) (c : MarketDataConsumer) : res MarketDataConsumer :=
  '(received, s) ← McastSocket.sendAndRecv kernel (socket snapshot c);
  let c := with_socket snapshot s c in
  if received : bool then receive snapshot c else Ok c.

(** The generation was advanced from outside: start again. *)
Definition synchronise (c : MarketDataConsumer) : MarketDataConsumer :=
  if mdc_generation c =? mdc_observed c then c else
  with_candidate None (with_recovery (MarketRecovery.restart (mdc_recovery c))
    (with_generation (mdc_generation c) (mdc_generation c) c)).

(** One iteration of [run]. *)
Definition run_iteration (incremental snapshot : Kernel) (c : MarketDataConsumer) : res MarketDataConsumer :=
  let c := synchronise c in
  c ← poll false incremental c;
  c ← poll true snapshot c;
  publishRecovery c.

End MarketDataConsumer.
