(* ===== verification/ConsumerTheorems.v ===== *)
(** What the market data thread hands to the trade engine. *)
From S2P Require Import Prelude.
From S2P Require Import Types.
From S2P Require Import Wire.
From S2P Require Import LFQueue.
From S2P Require Import McastSocket.
From S2P Require Import MarketView.
From S2P Require Import MarketRecovery.
From S2P Require Import RecoveryTheorems.
From S2P Require Import RecoveryProgress.
From S2P Require Import MarketDataConsumer.
From stdpp Require Import functions base gmap list.
From Stdlib Require Import ZArith Lia.

Local Open Scope Z_scope.

(** One hand-over: an increment, or a batch with its marker. *)
Inductive Item : Type :=
  | Live (u : MDPMarketUpdate)
  | Recovered (b : Batch) (generation : Z).

Definition item_events (i : Item) : list MEMarketUpdate :=
  match i with
  | Live u => [mdp_update u]
  | Recovered b g => ba_events b ++ [MarketDataConsumer.marker (ba_watermark b) g]
  end.

(** The number of the increment that may follow. *)
Definition next_of (log : list Item) : option Z :=
  match last log with
  | None => None
  | Some (Live u) => Some (u64 (mdp_seq_num u + 1))
  | Some (Recovered b _) => Some (u64 (ba_watermark b + 1))
  end.

Section Consumer.
Context (incremental snapshot : Kernel).

(** The frames that the two channels deliver. *)
Definition arrives (c : bool) (u : MDPMarketUpdate) : Prop :=
  exists k bytes trunc n, snd ((if c then snapshot else incremental) k) = Datagram bytes trunc /\
    decode_market (drop (n * MarketSize) bytes) default_MDPMarketUpdate = Ok (true, u).

Definition delivers_bytes : Prop :=
  forall (c : bool) k bytes trunc, snd ((if c then snapshot else incremental) k) = Datagram bytes trunc ->
    Forall is_byte bytes.

(** Batches anywhere; increments only in sequence behind a batch. *)
Inductive log_ok : list Item -> Prop :=
  | log_nil : log_ok []
  | log_recovered log b g : log_ok log -> consistent_batch arrives b -> log_ok (log ++ [Recovered b g])
  | log_live log u : log_ok log -> next_of log = Some (mdp_seq_num u) -> arrives false u ->
      MarketDataConsumer.incremental_ok u = true -> log_ok (log ++ [Live u]).

Record consumer_ok (log : list Item) (popped : list MEMarketUpdate) (c : MarketDataConsumer) : Prop := {
  co_queue : exists l, queue_ok (mdc_output c) l /\ popped ++ l = mjoin (item_events <$> log);
  co_log : log_ok log;
  co_next : mr_recovering (mdc_recovery c) = false -> next_of log = Some (mr_expected (mdc_recovery c));
  co_caches : caches_ok arrives (mdc_recovery c);
  co_limit : 0 <= mr_limit (mdc_recovery c) < 2 ^ 64;
  co_candidate : forall b, mdc_candidate c = Some b -> exists b0 g, consistent_batch arrives b0 /\
    b = mkBatch (ba_events b0 ++ [MarketDataConsumer.marker (ba_watermark b0) g]) (ba_watermark b0);
  co_sockets : mc_outbound (mdc_incremental c) = [] /\ mc_outbound (mdc_snapshot c) = []
}.

Hypothesis Hbytes : delivers_bytes.

Lemma next_snoc log i : next_of (log ++ [i])
  = match i with Live u => Some (u64 (mdp_seq_num u + 1)) | Recovered b _ => Some (u64 (ba_watermark b + 1)) end.
Proof. unfold next_of. by rewrite last_snoc. Qed.

Lemma arrives_wf : history_wf arrives.
Proof.
  intros c u (k & bytes & trunc & n & Hk & Hd).
  apply decode_market_inv in Hd as [Hwf _]; [done|]. by eapply Forall_drop, (Hbytes c k bytes trunc).
Qed.

(** ** The steps *)
Lemma consumer_generation log popped c g o :
  consumer_ok log popped c -> consumer_ok log popped (MarketDataConsumer.with_generation g o c).
Proof. intros [H1 H2 H3 H4 H5 H6 H7]. by constructor. Qed.

Lemma consumer_restart log popped c :
  consumer_ok log popped c ->
  consumer_ok log popped (MarketDataConsumer.with_candidate None
    (MarketDataConsumer.with_recovery (MarketRecovery.restart (mdc_recovery c)) c)).
Proof.
  intros [H1 H2 H3 H4 H5 H6 H7]. constructor; cbn; try done. apply caches_empty; cbn; [done|done|lia].
Qed.

Lemma stale_ok log popped c : consumer_ok log popped c -> consumer_ok log popped (MarketDataConsumer.stale c).
Proof.
  intros H. apply (consumer_restart log popped (MarketDataConsumer.new_generation c)).
  by apply consumer_generation.
Qed.

(** Any other change of the recovery that keeps its invariant. *)
Lemma consumer_recovery log popped c r b :
  consumer_ok log popped c -> caches_ok arrives r -> mr_limit r = mr_limit (mdc_recovery c) ->
  (mr_recovering r = false -> next_of log = Some (mr_expected r)) ->
  (forall x, b = Some x -> exists b0 g, consistent_batch arrives b0 /\
     x = mkBatch (ba_events b0 ++ [MarketDataConsumer.marker (ba_watermark b0) g]) (ba_watermark b0)) ->
  consumer_ok log popped (MarketDataConsumer.with_candidate b (MarketDataConsumer.with_recovery r c)).
Proof. intros [H1 H2 H3 H4 H5 H6 H7] Hr Hl He Hb. constructor; cbn; try done. by rewrite Hl. Qed.

Lemma consumer_output log popped c q :
  consumer_ok log popped c -> (exists l, queue_ok q l /\ popped ++ l = mjoin (item_events <$> log)) ->
  consumer_ok log popped (MarketDataConsumer.with_output q c).
Proof. intros [H1 H2 H3 H4 H5 H6 H7] Hq. by constructor. Qed.

Lemma publishRecovery_ok log popped c :
  consumer_ok log popped c -> exists log' c', MarketDataConsumer.publishRecovery c = Ok c' /\
    consumer_ok (log ++ log') popped c'.
Proof.
  intros Hok. pose proof Hok as [(l & Hq & Hl) H2 H3 H4 H5 H6 H7]. unfold MarketDataConsumer.publishRecovery.
  destruct (mdc_candidate c) as [b|] eqn:Eb; [|exists [], c; by rewrite app_nil_r].
  destruct (H6 b eq_refl) as (b0 & g & Hb0 & ->). cbn [ba_events ba_watermark].
  pose proof (try_push_batch_ok _ _ (ba_events b0 ++ [MarketDataConsumer.marker (ba_watermark b0) g]) Hq) as Hp.
  case_match.
  - destruct Hp as (q & -> & Hq' & _). exists [Recovered b0 g]. eexists. split; [done|]. constructor; cbn.
    + eexists. split; [exact Hq'|]. rewrite fmap_app, app_assoc, Hl. cbn [fmap list_fmap]. by rewrite mjoin_snoc.
    + by constructor.
    + intros _. by rewrite next_snoc.
    + apply caches_empty; cbn; [done|done|lia].
    + done.
    + done.
    + done.
  - destruct Hp as [-> Hq']. exists []. eexists. split; [done|]. rewrite app_nil_r.
    apply consumer_output; [done|eauto].
Qed.

Lemma liveCandidate_cases u r :
  MarketRecovery.liveCandidate u r
  = (if mr_recovering r then (false, r)
     else if mdp_seq_num u =? mr_expected r then (true, r)
     else if mdp_seq_num u <? mr_expected r then (false, MarketRecovery.with_counters MarketRecovery.duplicate r)
     else (false, MarketRecovery.restart (MarketRecovery.with_counters MarketRecovery.gap r))).
Proof. done. Qed.

Lemma process_live_ok log popped c u :
  consumer_ok log popped c -> mr_recovering (mdc_recovery c) = false -> arrives false u ->
  MarketDataConsumer.incremental_ok u = true ->
  exists b log' c', MarketDataConsumer.process_live u c = Ok (b, c') /\
    consumer_ok (log ++ log') popped c' /\ (b = false -> mr_recovering (mdc_recovery c') = true).
Proof.
  intros Hok Hr Hu Hi. pose proof Hok as [(l & Hq & Hl) H2 H3 H4 H5 H6 H7].
  unfold MarketDataConsumer.process_live. rewrite liveCandidate_cases, Hr.
  destruct (Z.eqb_spec (mdp_seq_num u) (mr_expected (mdc_recovery c))) as [E|E].
  - pose proof (try_push_ok _ _ (mdp_update u) Hq) as Hp. cbn [mdc_output MarketDataConsumer.with_recovery].
    case_match.
    + destruct Hp as [-> Hq']. exists false, []. eexists. split; [done|]. rewrite app_nil_r. split; [|done].
      apply stale_ok. apply (consumer_output _ _ (MarketDataConsumer.with_recovery (mdc_recovery c) c));
        [exact (consumer_recovery log popped c _ (mdc_candidate c) Hok H4 eq_refl H3 H6)|eauto].
    + destruct Hp as (q & -> & Hq' & _). exists true, [Live u]. eexists. split; [done|]. split; [|done].
      constructor; cbn; try done.
      * eexists. split; [exact Hq'|]. rewrite fmap_app, app_assoc, Hl. cbn [fmap list_fmap]. by rewrite mjoin_snoc.
      * constructor; [done|by rewrite E; apply H3|done|done].
      * intros _. by rewrite next_snoc, E.
      * by apply (caches_shrink _ (mdc_recovery c)).
  - destruct (mdp_seq_num u <? mr_expected (mdc_recovery c)).
    + exists true, []. eexists. rewrite app_nil_r. cbn. unfold MarketRecovery.recovering. cbn. rewrite Hr. cbn. split; [done|]. split; [|done].
      apply (consumer_recovery log popped c _ (mdc_candidate c) Hok); [|done|exact H3|exact H6].
      by apply (caches_shrink _ (mdc_recovery c)).
    + exists false, []. eexists. rewrite app_nil_r. cbn. split; [done|]. split; [|done].
      apply (consumer_generation log popped (MarketDataConsumer.with_candidate None
        (MarketDataConsumer.with_recovery (MarketRecovery.restart (MarketRecovery.with_counters MarketRecovery.gap
          (mdc_recovery c))) c))).
      apply consumer_recovery; cbn; [done| |done|done|done]. apply caches_empty; cbn; [done|done|lia].
Qed.

Lemma process_ok log popped c (s : bool) u :
  consumer_ok log popped c -> arrives s u -> (s = false -> MarketDataConsumer.incremental_ok u = true) ->
  exists log' c', MarketDataConsumer.process s u c = Ok c' /\ consumer_ok (log ++ log') popped c'.
Proof.
  intros Hok Hu Hi. unfold MarketDataConsumer.process, MarketRecovery.recovering.
  assert (Hrec : forall log c, consumer_ok log popped c -> mr_recovering (mdc_recovery c) = true ->
    exists log' c', (let r := (MarketRecovery.ingest s u (mdc_recovery c)).2 in
      let '(candidate, r) := MarketRecovery.build r in
      let c := MarketDataConsumer.with_candidate candidate (MarketDataConsumer.with_recovery r c) in
      match candidate with
      | None => Ok c
      | Some b => MarketDataConsumer.publishRecovery (MarketDataConsumer.with_candidate
          (Some (mkBatch (ba_events b ++ [MarketDataConsumer.marker (ba_watermark b) (mdc_observed c)])
                   (ba_watermark b))) c)
      end) = Ok c' /\ consumer_ok (log ++ log') popped c').
  { clear c Hok log. intros log c Hok Hr. cbv zeta.
    destruct (rec_step_ok arrives (mdc_recovery c) (Ingest s u) (co_caches _ _ _ Hok)) as [Hc1 Hl1].
    { apply Hok. } { by intros ? ? [= <- <-]. }
    cbn [rec_step] in Hc1, Hl1. set (r := (MarketRecovery.ingest s u (mdc_recovery c)).2) in *.
    assert (Hr' : mr_recovering r = true).
    { unfold r. rewrite ingest_recovering. exact Hr. }
    destruct (rec_step_ok arrives r Build Hc1) as [Hc2 Hl2]; [rewrite Hl1; apply Hok|done|].
    cbn [rec_step] in Hc2, Hl2.
    assert (Hr2 : mr_recovering (MarketRecovery.build r).2 = true) by (by rewrite build_recovering).
    destruct (MarketRecovery.build r) as [candidate r2] eqn:Eb. cbn [snd] in Hc2, Hl2, Hr2.
    destruct candidate as [b|].
    - apply build_ok with (seen := arrives) in Eb as [-> Hb]; [|apply arrives_wf|done|rewrite Hl1; apply Hok].
      apply publishRecovery_ok.
      apply (consumer_recovery log popped c r _ Hok); [done|by rewrite <- Hl1|by rewrite Hr'|].
      intros x [= <-]. eauto.
    - exists []. eexists. split; [done|]. rewrite app_nil_r.
      apply (consumer_recovery log popped c r2 None Hok); [done|by rewrite Hl2, Hl1|by rewrite Hr2|done]. }
  destruct (mr_recovering (mdc_recovery c)) eqn:Er; cbn [negb].
  - rewrite !andb_false_r. cbn [mbind res_bind]. by apply Hrec.
  - destruct s; cbn [andb negb].
    + exists [], c. by rewrite app_nil_r.
    + destruct (process_live_ok _ _ _ _ Hok Er Hu (Hi eq_refl)) as (b & log1 & c1 & -> & Hok1 & Hb).
      cbn [mbind res_bind]. destruct b; [eauto|].
      destruct (Hrec _ _ Hok1 (Hb eq_refl)) as (log2 & c2 & E & Hok2).
      exists (log1 ++ log2), c2. rewrite app_assoc. done.
Qed.

Definition kernel_of (s : bool) : Kernel := if s then snapshot else incremental.

Lemma arrives_frame (s : bool) k bytes trunc n u :
  snd (kernel_of s k) = Datagram bytes trunc ->
  decode_market (drop (n * MarketSize) bytes) default_MDPMarketUpdate = Ok (true, u) -> arrives s u.
Proof. intros. by exists k, bytes, trunc, n. Qed.

(** [run_ok f]: from a consumer in order, [f] ends with one in order. *)
Definition run_ok (popped : list MEMarketUpdate) (f : MarketDataConsumer -> res MarketDataConsumer) : Prop :=
  forall log c, consumer_ok log popped c ->
  exists log' c', f c = Ok c' /\ consumer_ok (log ++ log') popped c'.

Lemma run_ok_bind popped f g :
  run_ok popped f -> run_ok popped g -> run_ok popped (λ c, c ← f c; g c).
Proof.
  intros Hf Hg log c Hok. destruct (Hf log c Hok) as (log1 & c1 & -> & Hok1).
  destruct (Hg _ _ Hok1) as (log2 & c2 & E & Hok2). exists (log1 ++ log2), c2.
  rewrite app_assoc. by split.
Qed.

Lemma run_ok_pure popped f :
  (forall log c, consumer_ok log popped c -> consumer_ok log popped (f c)) ->
  run_ok popped (λ c, Ok (f c)).
Proof. intros Hf log c Hok. exists [], (f c). rewrite app_nil_r. split; [done|]. by apply Hf. Qed.

Lemma receive_frames_ok popped (s : bool) k orig trunc n :
  snd (kernel_of s k) = Datagram orig trunc ->
  forall m, length (drop (m * MarketSize) orig) = (n * MarketSize)%nat ->
  run_ok popped (MarketDataConsumer.receive_frames n s (drop (m * MarketSize) orig)).
Proof.
  intros Hk. induction n as [|n IH]; intros m Hlen.
  { by apply (run_ok_pure popped id). }
  cbn [MarketDataConsumer.receive_frames].
  destruct (decode_market_total (drop (m * MarketSize) orig) default_MDPMarketUpdate) as (ok & u & Hd).
  { rewrite Hlen. cbn [Nat.mul]. apply Nat.le_add_r. }
  rewrite Hd. cbn [mbind res_bind]. destruct ok; cbn [negb].
  2:{ apply run_ok_pure. intros. by apply stale_ok. }
  destruct (negb s && negb (MarketDataConsumer.incremental_ok u)) eqn:Ei.
  { apply run_ok_pure. intros. by apply stale_ok. }
  apply run_ok_bind.
  - intros log c Hok. apply process_ok; [done|by eapply arrives_frame|].
    intros ->. cbn in Ei. by destruct (MarketDataConsumer.incremental_ok u).
  - rewrite drop_drop. replace (m * MarketSize + MarketSize)%nat with (S m * MarketSize)%nat by lia.
    apply IH. rewrite length_drop in Hlen |- *. lia.
Qed.

(** ** The sockets *)
Lemma consumer_socket log popped c s sock :
  consumer_ok log popped c -> mc_outbound sock = [] ->
  consumer_ok log popped (MarketDataConsumer.with_socket s sock c).
Proof. intros [H1 H2 H3 H4 H5 H6 [H7 H8]] Hs. constructor; cbn; try done. by destruct s. Qed.

Lemma socket_outbound log popped c s :
  consumer_ok log popped c -> mc_outbound (MarketDataConsumer.socket s c) = [].
Proof. intros [_ _ _ _ _ _ [H1 H2]]. by destruct s. Qed.

(** What a poll leaves in the receive buffer: nothing after a fault, a
    datagram of the channel otherwise. *)
Lemma sendAndRecv_receives kernel sock :
  mc_outbound sock = [] ->
  exists received sock', McastSocket.sendAndRecv kernel sock = Ok (received, sock') /\
    mc_outbound sock' = [] /\
    (received = true -> mc_receive_fault sock' = true \/
       exists k trunc, snd (kernel k) = Datagram (mc_inbound sock') trunc).
Proof.
  intros Ho. unfold McastSocket.sendAndRecv, McastSocket.flush. rewrite Ho.
  destruct (mc_open sock); cbn [negb mbind res_bind]; [|by exists false, sock].
  unfold McastSocket.receive.
  destruct (snd (kernel (mc_calls sock))) as [|[|b bytes] trunc] eqn:Ek; do 2 eexists; (split; [done|]);
    (split; [exact Ho|]); try done.
  intros _. cbn [mc_receive_fault mc_inbound]. destruct (trunc || _); [by left|right; eauto].
Qed.

Lemma consumer_poll_ok popped (s : bool) :
  run_ok popped (MarketDataConsumer.poll s (kernel_of s)).
Proof.
  intros log c Hok. unfold MarketDataConsumer.poll.
  destruct (sendAndRecv_receives (kernel_of s) (MarketDataConsumer.socket s c)) as (received & sock & -> & Ho & Hr).
  { by eapply socket_outbound. }
  cbn [mbind res_bind].
  pose proof (consumer_socket log popped c s sock Hok Ho) as Hok1.
  destruct received.
  2:{ exists []. eexists. rewrite app_nil_r. split; [done|exact Hok1]. }
  unfold MarketDataConsumer.receive.
  replace (MarketDataConsumer.socket s (MarketDataConsumer.with_socket s sock c)) with sock
    by (by destruct s).
  revert Hok1. generalize (MarketDataConsumer.with_socket s sock c). clear c Hok. intros c Hok.
  case_match.
  { exists []. eexists. rewrite app_nil_r. split; [done|]. by apply consumer_socket. }
  destruct (mc_receive_fault sock || _) eqn:Ef.
  { exists []. eexists. rewrite app_nil_r. split; [done|]. apply stale_ok. by apply consumer_socket. }
  apply orb_false_iff in Ef as [Ef Em%negb_false_iff%bool_decide_eq_true].
  destruct (Hr eq_refl) as [Hf|(k & trunc & Hk)]; [congruence|].
  revert log c H Hok. assert (Hrun : run_ok popped (λ c, c ← MarketDataConsumer.receive_frames
      (length (mc_inbound sock) / MarketSize) s (mc_inbound sock) c;
      Ok (MarketDataConsumer.with_socket s (MarketDataConsumer.drained sock) c))).
  { apply run_ok_bind.
    - apply (receive_frames_ok popped s k _ trunc _ Hk 0). rewrite Nat.mul_0_l, drop_0.
      rewrite (Nat.div_mod_eq (length (mc_inbound sock)) MarketSize) at 1. rewrite Em. lia.
    - apply run_ok_pure. intros log c Hok. by apply consumer_socket. }
  intros log c _ Hok. by apply Hrun.
Qed.

Lemma consumer_iteration_ok popped : run_ok popped (MarketDataConsumer.run_iteration incremental snapshot).
Proof.
  intros log c Hok. unfold MarketDataConsumer.run_iteration.
  assert (Hs : consumer_ok log popped (MarketDataConsumer.synchronise c)).
  { unfold MarketDataConsumer.synchronise. case_match; [done|].
    apply (consumer_restart log popped (MarketDataConsumer.with_generation _ _ c)).
    by apply consumer_generation. }
  apply (run_ok_bind popped _ _ (consumer_poll_ok popped false)) with (log := log); [|done].
  apply (run_ok_bind popped _ _ (consumer_poll_ok popped true)).
  intros log' c' Hok'. by apply publishRecovery_ok.
Qed.

(** ** Runs: iterations of the thread, new generations asked for by the trade
    engine, and events taken by it *)
Inductive ConsumerOp : Type :=
  | Iterate
  | Invalidate
  | TakeEvent.

Definition consumer_step (st : list MEMarketUpdate * MarketDataConsumer) (op : ConsumerOp) :
    res (list MEMarketUpdate * MarketDataConsumer) :=
  let '(popped, c) := st in
  match op with
  | Iterate => c ← MarketDataConsumer.run_iteration incremental snapshot c; Ok (popped, c)
  | Invalidate =>
      Ok (popped, MarketDataConsumer.with_generation (u64 (mdc_generation c + 1)) (mdc_observed c) c)
  | TakeEvent =>
      '(x, q) ← try_pop (mdc_output c);
      Ok (popped ++ option_list x, MarketDataConsumer.with_output q c)
  end.

Fixpoint consumer_run (ops : list ConsumerOp) (st : list MEMarketUpdate * MarketDataConsumer) :
    res (list MEMarketUpdate * MarketDataConsumer) :=
  match ops with
  | [] => Ok st
  | op :: ops => st ← consumer_step st op; consumer_run ops st
  end.

Lemma consumer_step_ok log popped c op :
  consumer_ok log popped c ->
  exists log' popped' c', consumer_step (popped, c) op = Ok (popped', c') /\
    consumer_ok (log ++ log') popped' c'.
Proof.
  intros Hok. destruct op; cbn [consumer_step].
  - destruct (consumer_iteration_ok popped log c Hok) as (log' & c' & -> & Hok'). eauto.
  - exists [], popped. eexists. rewrite app_nil_r. split; [done|]. by apply consumer_generation.
  - pose proof Hok as [(l & Hq & Hl) H2 H3 H4 H5 H6 H7]. pose proof (try_pop_ok _ _ Hq) as Hp.
    destruct l as [|x l].
    + rewrite Hp. cbn. exists [], popped. eexists. rewrite !app_nil_r. split; [done|].
      apply consumer_output; eauto.
    + destruct Hp as (q & -> & Hq' & _). cbn. exists [], (popped ++ [x]). eexists. rewrite app_nil_r.
      split; [done|]. constructor; cbn; try done. exists l. by rewrite <- app_assoc.
Qed.

Lemma consumer_run_ok ops log popped c :
  consumer_ok log popped c ->
  exists log' popped' c', consumer_run ops (popped, c) = Ok (popped', c') /\
    consumer_ok (log ++ log') popped' c'.
Proof.
  revert log popped c. induction ops as [|op ops IH]; intros log popped c Hok.
  { exists [], popped, c. by rewrite app_nil_r. }
  destruct (consumer_step_ok log popped c op Hok) as (log1 & popped1 & c1 & E & Hok1).
  destruct (IH _ _ _ Hok1) as (log2 & popped2 & c2 & E2 & Hok2).
  exists (log1 ++ log2), popped2, c2. cbn [consumer_run]. rewrite E. cbn [mbind res_bind].
  rewrite app_assoc. by split.
Qed.

Lemma make_consumer_ok limit generation q c :
  MarketDataConsumer.make limit generation q = Ok c -> limit < 2 ^ 64 -> queue_ok q [] ->
  consumer_ok [] [] c.
Proof.
  intros Hm Hlim Hq. unfold MarketDataConsumer.make in Hm. apply bind_Ok in Hm as (r & Hr & [= <-]).
  destruct (make_caches arrives _ _ Hr) as (Hc & El & Hl).
  apply consumer_generation. constructor; cbn; try done.
  - by exists [].
  - constructor.
  - unfold MarketRecovery.make in Hr. apply bind_Ok in Hr as (? & _ & [= <-]). done.
  - rewrite El. lia.
Qed.

End Consumer.

(** C7: whatever datagrams the two channels deliver, and however iterations of
    the market data thread, requests for a new generation and the trade
    engine's reads interleave: the thread never fails, and the events handed
    over are recovery batches, each consistent and ended by its marker, and
    increments, each of which has the sequence number that follows the
    increment or the batch before it. *)
Theorem consumer_forwards_contiguous incremental snapshot limit generation q c ops :
  delivers_bytes incremental snapshot ->
  MarketDataConsumer.make limit generation q = Ok c -> limit < 2 ^ 64 -> queue_ok q [] ->
  exists popped c' log waiting,
    consumer_run incremental snapshot ops ([], c) = Ok (popped, c') /\
    queue_ok (mdc_output c') waiting /\ popped ++ waiting = mjoin (item_events <$> log) /\
    log_ok incremental snapshot log.
Proof.
  intros Hb Hm Hlim Hq.
  destruct (consumer_run_ok incremental snapshot Hb ops [] [] c) as (log & popped & c' & E & Hok).
  { by eapply make_consumer_ok. }
  destruct Hok as [(l & Hl & Ec) Hlog _ _ _ _ _]. exists popped, c', log, l. by split_and!.
Qed.

(** A kernel that delivers the given datagrams, one for each poll. *)
Definition datagrams (l : list (list Z)) : Kernel :=
  λ k, (SendAgain, match l !! k with Some d => Datagram d false | None => NoDatagram end).

Lemma datagrams_bytes inc snap :
  Forall (Forall is_byte) inc -> Forall (Forall is_byte) snap ->
  delivers_bytes (datagrams inc) (datagrams snap).
Proof.
  intros Hi Hs c k bytes trunc. unfold datagrams.
  destruct c; cbn; destruct (_ !! k) eqn:E; try done; intros [= <- <-];
    [exact (Forall_lookup_1 _ _ _ _ Hs E)|exact (Forall_lookup_1 _ _ _ _ Hi E)].
Qed.

(** The snapshot channel carries a cycle after the first update; the two
    updates after it come with the first poll and the second one. *)
Definition demo_live : MDPMarketUpdate := mkMDP 3 (mkUpdate MD_MODIFY 5 0 BUY 100 2 1) 0 0 0.
Definition demo_incremental : list (list Z) := [mjoin (encode_market <$> demo_stream); encode_market demo_live].
Definition demo_snapshot : list (list Z) := [mjoin (encode_market <$> demo_frames)].
Definition demo_consumer_ops : list ConsumerOp :=
  [Iterate; TakeEvent; Iterate; Invalidate; TakeEvent].

Lemma consumer_forwards_contiguous_witness :
  exists q c popped c' log waiting,
    queue_new default_MEMarketUpdate 64 = Some q /\ MarketDataConsumer.make 40 0 q = Ok c /\
    consumer_run (datagrams demo_incremental) (datagrams demo_snapshot) demo_consumer_ops ([], c)
      = Ok (popped, c') /\
    mr_expected (mdc_recovery c') = 4 /\
    popped ++ waiting = mjoin (item_events <$> log) /\
    log_ok (datagrams demo_incremental) (datagrams demo_snapshot) log.
Proof.
  destruct (queue_new default_MEMarketUpdate 64) as [q|] eqn:Eq; [|by vm_compute in Eq].
  destruct (MarketDataConsumer.make 40 0 q) as [c|] eqn:Ec; [|by vm_compute in Ec].
  destruct (queue_new_ok _ _ _ Eq) as [Hq _].
  assert (Hr : match consumer_run (datagrams demo_incremental) (datagrams demo_snapshot)
      demo_consumer_ops ([], c) with Ok (_, c') => mr_expected (mdc_recovery c') | Err _ => 0 end = 4).
  { vm_compute in Eq. injection Eq as <-. vm_compute in Ec. injection Ec as <-. vm_compute. reflexivity. }
  destruct (consumer_forwards_contiguous (datagrams demo_incremental) (datagrams demo_snapshot) 40 0 q c
    demo_consumer_ops) as (popped & c' & log & waiting & E & H1 & H2 & H3); [|done|lia|done|].
  { apply datagrams_bytes; apply (bool_decide_unpack _); vm_compute; exact I. }
  rewrite E in Hr. exists q, c, popped, c', log, waiting. by split_and!.
Defined.
