(* ===== verification/MarketHistory.v ===== *)
(** Histories of the market data.

    The exchange publishes one sequence of updates for all tickers.  A history
    relates such a sequence to the public books it leads to; every prefix of
    the sequence is a history of its own, so that the books after any number
    of updates are defined, list valid orders and fit pools of the exchange's
    size.  A request extends a history. *)
From S2P Require Import Prelude.
From S2P Require Import Types.
From S2P Require Import Wire.
From S2P Require Import MemPool.
From S2P Require Import PriceLevels.
From S2P Require Import MatchBook.
From S2P Require Import BookSpec.
From S2P Require Import BookRefinement.
From S2P Require Import BookInvariant.
From S2P Require Import BookTheorems.
From S2P Require Import MarketView.
From S2P Require Import Snapshot.
From S2P Require Import ClientFollows.
From S2P Require Import MarketRecovery.
From S2P Require Import RecoveryTheorems.
From S2P Require Import RecoveryProgress.
From stdpp Require Import functions base gmap list sorting.
From Stdlib Require Import ZArith Lia.

Local Open Scope Z_scope.

(** ** What an update of the exchange carries *)
Record update_ok (u : MEMarketUpdate) : Prop := {
  uk_wf : update_wf u;
  uk_type : mu_type u = MD_ADD \/ mu_type u = MD_MODIFY \/ mu_type u = MD_CANCEL \/ mu_type u = MD_TRADE;
  uk_ticker : 0 <= mu_ticker_id u < ME_MAX_TICKERS;
  uk_priority : mu_type u = MD_ADD -> 0 < mu_priority u < Priority_INVALID
}.

(** Prices that fit the wire; quantities and ids do by [book_wf]. *)
Definition typed_orders (l : list MEOrder) : Prop := Forall (λ x, is_i64 (o_price x)) l.
Definition op_typed (op : BookOp) : Prop :=
  match op with
  | OpAdd c o t s p q => is_i64 p
  | _ => True
  end.

Definition wf_view (m : View) : Prop := forall id u, m !! id = Some u -> update_wf u.

Lemma apply_update_wf u m m' :
  update_wf u -> wf_view m -> apply_update u m = Some m' -> wf_view m'.
Proof.
  intros Hu Hm H. unfold apply_update in H. destruct (mu_type u); try done.
  - destruct (m !! mu_order_id u); [done|]. destruct (valid_add u); [|done]. injection H as <-.
    intros id v [[_ <-]|[_ Hv]]%lookup_insert_Some; [done|by apply (Hm id)].
  - destruct (m !! mu_order_id u) as [x|] eqn:E; [|done]. cbn [mbind option_bind] in H.
    destruct (about u x && _); [|done]. injection H as <-.
    intros id v [[_ <-]|[_ Hv]]%lookup_insert_Some; [|by apply (Hm id)].
    destruct Hu as (_ & _ & _ & _ & _ & Hq & _). destruct (Hm _ _ E) as (? & ? & ? & ? & ? & _ & ?).
    by split_and!.
  - destruct (m !! mu_order_id u) as [x|]; [|done]. cbn [mbind option_bind] in H.
    destruct (about u x); [|done]. injection H as <-.
    intros id v [_ Hv]%lookup_delete_Some. by apply (Hm id).
  - by injection H as <-.
Qed.

Lemma apply_all_wf us m m' :
  Forall update_wf us -> wf_view m -> apply_all us m = Some m' -> wf_view m'.
Proof.
  intros Hus. revert m. induction Hus as [|u us Hu Hus IH]; intros m Hm H; [by injection H as <-|].
  cbn in H. destruct (apply_update u m) as [m1|] eqn:E; [|done].
  eapply IH; [|exact H]. by eapply apply_update_wf.
Qed.

Lemma public_update_wf a s x :
  book_wf a -> order_wf a s x -> valid_side s -> 0 <= a_ticker_id a < ME_MAX_TICKERS ->
  is_i64 (o_price x) -> update_wf (order_update x).
Proof.
  intros W [Hs _ Ht _ _ _ Hq Hid Hp] Hv Htk Hi. pose proof (bw_next _ W).
  unfold order_update, update_wf, is_u64, is_u32, ME_MAX_ORDER_IDS, ME_MAX_TICKERS, INT32_MAX in *.
  cbn [mu_type mu_order_id mu_ticker_id mu_side mu_price mu_qty mu_priority].
  split; [done|]. split; [lia|]. split; [lia|]. split; [|split; [done|split; lia]].
  rewrite Hs. by destruct Hv as [-> | ->].
Qed.

Lemma view_typed a :
  book_wf a -> 0 <= a_ticker_id a < ME_MAX_TICKERS ->
  typed_orders (all_orders a) <-> wf_view (view a).
Proof.
  intros W Ht. unfold typed_orders. rewrite Forall_forall. split.
  - intros H id u (x & Hx & _ & ->)%(view_of_lookup _ _ _ (bw_ids _ W)). specialize (H x Hx).
    apply elem_of_all_orders in Hx as (s & Hs & Hx).
    eapply public_update_wf; [done|by apply (bw_orders _ W)|done..].
  - intros H x Hx. eapply (H (o_market_order_id x) (order_update x)).
    apply (view_of_lookup _ _ _ (bw_ids _ W)). eauto.
Qed.

(** ** The updates of one request *)
Lemma fills_update_ok a c s o id p l :
  book_wf a -> 0 <= a_ticker_id a < ME_MAX_TICKERS -> valid_side s ->
  Forall (λ x, order_wf a (opposite s) x /\ is_i64 (o_price x)) l ->
  forall leaves leaves0 fs lv rest, is_u32 leaves -> fill s p leaves l = (fs, lv, rest) ->
  Forall update_ok (updates_of (fills_events (a_ticker_id a) c s o id leaves0 fs)) /\
  (length (updates_of (fills_events (a_ticker_id a) c s o id leaves0 fs)) <= 2 * length l)%nat.
Proof.
  intros W Ht Hs. induction 1 as [|x l [Hx Hi] Hl IH]; intros leaves leaves0 fs lv rest Hlv Hf;
    cbn [fill] in Hf.
  { injection Hf as <- <- <-. split; [constructor|cbn; lia]. }
  destruct ((leaves =? 0) || _); [injection Hf as <- <- <-; split; [constructor|cbn; lia]|].
  pose proof (public_update_wf a _ x W Hx (valid_opposite _ Hs) Ht Hi) as Hwf.
  pose proof (ow_qty _ _ _ Hx) as Hq.
  assert (Hfill : forall q lv0, 0 <= q <= Z.min leaves (o_qty x) ->
    Forall update_ok (updates_of (fill_events (a_ticker_id a) c s o id lv0 x q))).
  { intros q lv0 Hqr. destruct Hwf as (_ & H2 & _ & H4 & H5 & H6 & H7).
    cbn [order_update mu_order_id mu_side mu_price mu_qty mu_priority] in *.
    unfold fill_events. cbn [updates_of]. apply Forall_cons_2; [|apply Forall_singleton; destruct (o_qty x - q =? 0)];
      (split; [|cbn; tauto|done|done]);
      unfold update_wf, is_u64, is_u32, is_i64, OrderId_INVALID, Priority_INVALID, ME_MAX_TICKERS in *; cbn;
      (split; [done|]); repeat (split; [lia || done || by destruct Hs as [-> | ->]|]); lia. }
  destruct (o_qty x - Z.min leaves (o_qty x) =? 0).
  - destruct (fill s p (leaves - Z.min leaves (o_qty x)) l) as [[fs' lv'] rest'] eqn:Ef.
    injection Hf as <- <- <-. cbn [fills_events].
    assert (Hlv' : is_u32 (leaves - Z.min leaves (o_qty x))) by (unfold is_u32 in *; lia).
    destruct (IH _ (leaves0 - Z.min leaves (o_qty x)) _ _ _ Hlv' Ef) as [H1 H2].
    split; [apply updates_app_Forall; [apply Hfill; unfold is_u32 in *; lia|done]|].
    rewrite updates_of_app, length_app. cbn [fill_events updates_of length]. lia.
  - injection Hf as <- <- <-. cbn [fills_events]. unfold is_u32 in Hlv. split.
    + apply updates_app_Forall; [apply Hfill; lia|constructor].
    + rewrite app_nil_r. cbn. lia.
Qed.

(** The updates of a request: what they carry, and how many they are. *)
Lemma step_updates_ok op a :
  book_wf a -> typed_orders (all_orders a) -> op_wf op -> op_typed op ->
  0 <= a_ticker_id a < ME_MAX_TICKERS ->
  Forall update_ok (updates_of (snd (spec_step op a))) /\
  Z.of_nat (length (updates_of (snd (spec_step op a)))) <= 2 * a_order_capacity a + 1.
Proof.
  intros W Hty Hop Htop Ht. pose proof (bw_orders_capacity _ W) as Hcap.
  destruct op as [c o t s p q|c o t|c o]; cbn [spec_step].
  - unfold spec_add. cbv zeta. case_bool_decide as Hr; [|cbn; split; [constructor|lia]].
    destruct (spec_reason_NONE _ _ _ _ _ _ _ Hr) as (_ & -> & Hs & _ & _ & _ & _ & Hn & _).
    pose proof (valid_opposite _ Hs) as Hso. pose proof (bw_next _ W) as Hnext.
    destruct (next_priority_spec a s p W Hs) as [Hprio _].
    unfold spec_trade. cbv zeta.
    change (side_of (opposite s) (accept c o a)) with (side_of (opposite s) a).
    destruct (fill s p q (side_of (opposite s) a)) as [[fs lv] rest] eqn:Ef.
    destruct (fills_update_ok a c s o (a_next_id a) p (side_of (opposite s) a) W Ht Hs) with (3 := Ef) (leaves0 := q)
      as [Hfs Hlen]; [|done|].
    { apply Forall_forall. intros x Hx. split; [by apply (bw_orders _ W)|].
      unfold typed_orders in Hty. rewrite Forall_forall in Hty. apply Hty, elem_of_all_orders. eauto. }
    destruct (fill_rest _ _ _ _ _ _ _ Ef) as [Hlv _]; [apply Hop|by apply wf_positive|].
    assert (Hlen' : (length (side_of (opposite s) a) <= length (all_orders a))%nat).
    { rewrite (all_orders_split s a Hs), length_app. lia. }
    destruct (lv =? 0); cbn [snd updates_of]; [split; [done|lia]|].
    rewrite updates_of_app, length_app. cbn [updates_of length]. split; [|lia].
    apply Forall_app. split; [done|]. apply Forall_singleton.
    assert (Hown : side_of s (set_side (opposite s) rest (accept c o a)) = side_of s a).
    { rewrite side_of_set_side, decide_False; auto. intros E. by apply (opposite_ne s Hs). }
    rewrite Hown.
    split; cbn; [|tauto|done|]; unfold update_wf, is_u64, is_u32, is_i64, ME_MAX_TICKERS, ME_MAX_ORDER_IDS,
      Priority_INVALID, op_wf, op_typed in *; [|lia].
    cbn. split; [done|]. repeat (split; [unfold is_i64, is_u32 in *; lia || by destruct Hs as [-> | ->]|]). lia.
  - unfold spec_cancel.
    destruct (if (c <? ME_MAX_NUM_CLIENTS) && (t =? a_ticker_id a) then find_order (c, o) a else None)
      as [x|] eqn:Ef; [|cbn; split; [constructor|lia]].
    destruct ((c <? ME_MAX_NUM_CLIENTS) && (t =? a_ticker_id a)) eqn:Eg; [|done].
    apply andb_true_iff in Eg as [_ ->%Z.eqb_eq].
    destruct (find_order_split _ _ _ (bw_keys _ W) Ef) as (Hx & _ & _).
    unfold typed_orders in Hty. rewrite Forall_forall in Hty. pose proof (Hty x Hx) as Hi.
    apply elem_of_all_orders in Hx as (s & Hs & Hx).
    pose proof (public_update_wf a s x W (bw_orders _ W s x Hs Hx) Hs Ht Hi) as (_ & H2 & H3 & H4 & H5 & H6 & H7).
    cbn [snd updates_of length]. split; [|lia]. apply Forall_singleton.
    split; cbn; [|tauto|done|done]. unfold update_wf, is_u32, ME_MAX_TICKERS in *.
    cbn in *. split; [done|]. split; [done|]. split; [lia|]. by split_and!.
  - unfold spec_query. repeat case_match; cbn; split; try constructor; lia.
Qed.

(** ** Histories *)
Section History.
Context (orders levels : Z).

Definition all_fit (views : list View) : Prop := Forall (fits orders levels) views.

Inductive history : list MEMarketUpdate -> list View -> Prop :=
  | history_start : history [] MarketRecovery.no_orders
  | history_update us views u views' :
      history us views -> update_ok u -> apply_ticker u views = Some views' -> all_fit views' ->
      history (us ++ [u]) views'.

Lemma history_snoc_inv us u views' :
  history (us ++ [u]) views' ->
  exists views, history us views /\ update_ok u /\ apply_ticker u views = Some views' /\ all_fit views'.
Proof.
  intros H. inversion H as [E|us0 views u0 views0 Hh Hu Ha Hf E]; subst.
  - by destruct us.
  - apply app_inj_tail in E as [-> ->]. eauto.
Qed.

(** Every prefix is a history. *)
Lemma history_prefix us us' views :
  history (us ++ us') views -> exists views0, history us views0.
Proof.
  revert views. induction us' as [|u us' IH] using rev_ind; intros views H.
  - rewrite app_nil_r in H. eauto.
  - rewrite app_assoc in H. apply history_snoc_inv in H as (views0 & H & _). by eapply IH.
Qed.

Lemma apply_ticker_inv u views views' :
  apply_ticker u views = Some views' ->
  exists m m', views !! Z.to_nat (mu_ticker_id u) = Some m /\ apply_update u m = Some m' /\
    views' = <[Z.to_nat (mu_ticker_id u) := m']> views.
Proof.
  unfold apply_ticker. destruct (views !! _) as [m|] eqn:Em; [|done]. cbn.
  destruct (apply_update u m) as [m'|] eqn:Ea; [|done]. intros [= <-]. eauto.
Qed.

Lemma apply_ticker_replay u views :
  update_ok u -> replay_event views u = apply_ticker u views.
Proof.
  intros Hu. unfold replay_event. rewrite bool_decide_false; [done|].
  destruct (uk_type _ Hu) as [E|[E|[E|E]]]; by rewrite E.
Qed.

Lemma history_replay us views : history us views -> replay_all us MarketRecovery.no_orders = Some views.
Proof.
  induction 1 as [|us views u views' H IH Hu Ha Hf]; [done|].
  rewrite replay_app, IH. cbn [mbind option_bind replay_all].
  by rewrite apply_ticker_replay, Ha by done.
Qed.

Lemma history_length us views : history us views -> length views = Z.to_nat ME_MAX_TICKERS.
Proof.
  induction 1 as [|us views u views' H IH Hu Ha Hf]; [done|].
  apply apply_ticker_inv in Ha as (m & m' & _ & _ & ->). by rewrite length_insert.
Qed.

Lemma history_unique us views1 views2 : history us views1 -> history us views2 -> views1 = views2.
Proof. intros H1%history_replay H2%history_replay. congruence. Qed.

Lemma no_orders_lookup t m : MarketRecovery.no_orders !! t = Some m -> m = ∅.
Proof. intros [-> _]%lookup_replicate. done. Qed.

Lemma fits_empty : 0 <= orders -> 0 <= levels -> fits orders levels ∅.
Proof. intros Ho Hl. split; [by rewrite map_size_empty|exact Hl]. Qed.

Lemma history_fits us views : 0 <= orders -> 0 <= levels -> history us views -> all_fit views.
Proof.
  intros Ho Hl H. destruct H; [|done]. apply Forall_forall. intros m [t Hm]%list_elem_of_lookup.
  rewrite (no_orders_lookup _ _ Hm). by apply fits_empty.
Qed.

Lemma history_wf us views t m : history us views -> views !! t = Some m -> wf_view m.
Proof.
  intros H. revert t m. induction H as [|us views u views' H IH Hu Ha Hf]; intros t m Hm.
  - rewrite (no_orders_lookup _ _ Hm). intros id u Hu. by rewrite lookup_empty in Hu.
  - apply apply_ticker_inv in Ha as (m0 & m1 & Hm0 & Ha & ->).
    apply list_lookup_insert_Some in Hm as [(<- & <- & _)|[_ Hm]]; [|by eapply IH].
    eapply apply_update_wf; [apply Hu|by eapply IH|done].
Qed.

Lemma apply_update_listed t u m m' :
  update_ok u -> mu_ticker_id u = Z.of_nat t -> (forall id x, m !! id = Some x -> listed t id x) ->
  apply_update u m = Some m' -> forall id x, m' !! id = Some x -> listed t id x.
Proof.
  intros Hu Ht Hm H. unfold apply_update in H. destruct (mu_type u) eqn:Ety; try done.
  - destruct (m !! mu_order_id u); [done|]. destruct (valid_add u) eqn:Ev; [|done]. injection H as <-.
    intros id x [[<- <-]|[_ Hx]]%lookup_insert_Some; [|by apply Hm].
    split; try done. by apply (uk_priority _ Hu).
  - destruct (m !! mu_order_id u) as [x0|] eqn:E; [|done]. cbn [mbind option_bind] in H.
    destruct (about u x0 && valid_qty (mu_qty u)) eqn:Ea; [|done]. injection H as <-.
    intros id x [[<- <-]|[_ Hx]]%lookup_insert_Some; [|by apply Hm].
    destruct (Hm _ _ E) as [H1 H2 H3 H4 H5]. split; try done.
    apply andb_true_iff in Ea as [_ Eq]. unfold valid_add in *. cbn.
    apply andb_true_iff in H4 as [H4 _]. by rewrite H4, Eq.
  - destruct (m !! mu_order_id u) as [x0|]; [|done]. cbn [mbind option_bind] in H.
    destruct (about u x0); [|done]. injection H as <-.
    intros id x [_ Hx]%lookup_delete_Some. by apply Hm.
  - by injection H as <-.
Qed.

Lemma history_public us views : history us views -> public_books views.
Proof.
  induction 1 as [|us views u views' H IH Hu Ha Hf].
  - split; [done|]. intros t m id u Hm Hu. rewrite (no_orders_lookup _ _ Hm) in Hu.
    by rewrite lookup_empty in Hu.
  - pose proof (apply_ticker_inv _ _ _ Ha) as (m0 & m1 & Hm0 & Ha1 & ->). destruct IH as [Hl IH].
    split; [by rewrite length_insert|]. intros t m id x Hm Hx.
    apply list_lookup_insert_Some in Hm as [(<- & <- & _)|[_ Hm]]; [|by eapply IH].
    pose proof (uk_ticker _ Hu). eapply apply_update_listed; [done| |by intros; eapply IH|done|done]. lia.
Qed.

(** A view with fewer orders, at the same prices, fits as well. *)
Lemma fits_smaller m m' :
  (forall id u', m' !! id = Some u' -> exists u, m !! id = Some u /\ mu_side u = mu_side u' /\ mu_price u = mu_price u') ->
  fits orders levels m -> fits orders levels m'.
Proof.
  intros H [Hs Hp].
  assert (Hsize : (size m' <= size m)%nat).
  { rewrite <- !(size_dom (D := gset Z)). apply subseteq_size. intros id [u Hu]%elem_of_dom.
    apply elem_of_dom. destruct (H _ _ Hu) as (x & Hx & _). eauto. }
  assert (Hsub : forall s, view_prices s m' ⊆ view_prices s m).
  { intros s p (id & u & Hu & Hside & <-)%elem_of_view_prices. apply elem_of_view_prices.
    destruct (H _ _ Hu) as (x & Hx & E1 & E2). exists id, x. by rewrite E1, E2. }
  pose proof (subseteq_size _ _ (Hsub BUY)). pose proof (subseteq_size _ _ (Hsub SELL)). split; lia.
Qed.

Lemma fits_apply u m m' :
  fits orders levels m -> apply_update u m = Some m' -> (mu_type u = MD_ADD -> fits orders levels m') ->
  fits orders levels m'.
Proof.
  intros Hf H Hadd. unfold apply_update in H. destruct (mu_type u); try done; [by apply Hadd|..].
  - destruct (m !! mu_order_id u) as [x|] eqn:E; [|done]. cbn [mbind option_bind] in H.
    destruct (about u x && _); [|done]. injection H as <-. eapply fits_smaller; [|exact Hf].
    intros id u' [[<- <-]|[_ Hu']]%lookup_insert_Some; eauto.
  - destruct (m !! mu_order_id u) as [x|]; [|done]. cbn [mbind option_bind] in H.
    destruct (about u x); [|done]. injection H as <-. eapply fits_smaller; [|exact Hf].
    intros id u' [_ Hu']%lookup_delete_Some. eauto.
  - by injection H as <-.
Qed.

(** The updates of one request extend a history. *)
Lemma history_extend us views new t m m' :
  0 <= orders -> 0 <= levels -> history us views -> views !! t = Some m ->
  Forall (λ u, update_ok u /\ mu_ticker_id u = Z.of_nat t) new -> apply_all new m = Some m' ->
  adds_fit orders levels new m -> history (us ++ new) (<[t := m']> views).
Proof.
  intros Ho Hl H Hm Hnew. revert us views m H Hm.
  induction Hnew as [|u new [Hu Ht] Hnew IH]; intros us views m H Hm Hap Hfit.
  { injection Hap as <-. by rewrite app_nil_r, list_insert_id. }
  destruct Hfit as (m1 & Hu1 & Hadd & Hfit). cbn in Hap. rewrite Hu1 in Hap. cbn in Hap.
  pose proof (history_fits _ _ Ho Hl H) as Hall. pose proof (lookup_lt_Some _ _ _ Hm) as Hlt.
  rewrite cons_middle, app_assoc, <- (list_insert_insert_eq views t m' m1).
  apply IH with (m := m1); [|by apply list_lookup_insert_eq|done|done].
  eapply history_update; [done|done| |].
  - unfold apply_ticker. rewrite Ht, Nat2Z.id, Hm. cbn. by rewrite Hu1.
  - apply Forall_insert; [done|]. eapply fits_apply; [|done|done].
    unfold all_fit in Hall. rewrite Forall_forall in Hall. apply Hall. by eapply list_elem_of_lookup_2.
Qed.

(** ** Room for a sequence of events, CLEARs included *)
Fixpoint room (us : list MEMarketUpdate) (views views' : list View) : Prop :=
  match us with
  | [] => views' = views
  | u :: us =>
      exists views1, replay_event views u = Some views1 /\ 0 <= mu_ticker_id u < ME_MAX_TICKERS /\
        0 <= mu_order_id u /\ is_u32 (mu_qty u) /\
        (mu_type u = MD_ADD -> fits orders levels (default ∅ (views1 !! Z.to_nat (mu_ticker_id u)))) /\
        room us views1 views'
  end.

Lemma room_app us us' views views1 views' :
  room us views views1 -> room us' views1 views' -> room (us ++ us') views views'.
Proof.
  revert views. induction us as [|u us IH]; intros views H1 H2; cbn in H1; [by subst|].
  destruct H1 as (v & H & Ht & Hid & Hq & Hf & H1). exists v. split_and!; try done; try apply Ht; try apply Hq.
  by apply IH.
Qed.

Lemma room_snoc us u views views1 views' :
  room us views views1 -> update_ok u -> apply_ticker u views1 = Some views' -> all_fit views' ->
  room (us ++ [u]) views views'.
Proof.
  intros H Hu Ha Hf. eapply room_app; [exact H|]. exists views'.
  rewrite apply_ticker_replay by done. split; [done|]. split; [apply Hu|].
  destruct (uk_wf _ Hu) as (_ & [Hid _] & _ & _ & _ & Hq & _). split; [done|]. split; [done|].
  split; [|done]. intros _. apply apply_ticker_inv in Ha as (m & m' & Hm & _ & ->).
  pose proof (lookup_lt_Some _ _ _ Hm) as Hlt. rewrite list_lookup_insert_eq by done. cbn.
  unfold all_fit in Hf. rewrite Forall_forall in Hf. apply Hf. eapply list_elem_of_lookup_2.
  by apply list_lookup_insert_eq.
Qed.

(** What follows a prefix of a history. *)
Lemma history_room us us' views views' :
  history us views -> history (us ++ us') views' -> room us' views views'.
Proof.
  intros H. revert views'. induction us' as [|u us' IH] using rev_ind; intros views' H'.
  - rewrite app_nil_r in H'. by eapply history_unique.
  - rewrite app_assoc in H'. apply history_snoc_inv in H' as (views1 & H1 & Hu & Ha & Hf).
    eapply room_snoc; [by apply IH|done..].
Qed.

(** ADDs only grow a view, so that the last one decides. *)
Lemma adds_room us t m m' views :
  Forall (λ u, mu_type u = MD_ADD /\ mu_ticker_id u = Z.of_nat t /\ 0 <= mu_order_id u /\ is_u32 (mu_qty u)) us ->
  (t < Z.to_nat ME_MAX_TICKERS)%nat ->
  views !! t = Some m -> apply_all us m = Some m' -> fits orders levels m' ->
  room us views (<[t := m']> views) /\ m ⊆ m'.
Proof.
  intros Hus Ht8. revert views m. induction Hus as [|u us (Hty & Ht & Hid & Hq) Hus IH]; intros views m Hm Hap Hf.
  { injection Hap as <-. cbn. by rewrite list_insert_id. }
  cbn in Hap. destruct (apply_update u m) as [m1|] eqn:E; [|done]. cbn in Hap.
  pose proof (lookup_lt_Some _ _ _ Hm) as Hlt.
  destruct (IH (<[t := m1]> views) m1) as [Hr Hsub]; [by apply list_lookup_insert_eq|done|done|].
  assert (Hsub1 : m ⊆ m1).
  { unfold apply_update in E. rewrite Hty in E. destruct (m !! mu_order_id u) eqn:En; [done|].
    destruct (valid_add u); [|done]. injection E as <-. by apply insert_subseteq. }
  split; [|by etrans]. exists (<[t := m1]> views). rewrite list_insert_insert_eq in Hr.
  split.
  { unfold replay_event, apply_ticker. rewrite Hty, Ht, Nat2Z.id, Hm. cbn. by rewrite E. }
  split; [rewrite Ht; lia|]. split; [done|]. split; [done|]. split; [|done]. intros _.
  rewrite Ht, Nat2Z.id, list_lookup_insert_eq by done. cbn.
  eapply fits_smaller; [|exact Hf]. intros id x Hx. exists x. split; [|done].
  by apply (lookup_weaken m1).
Qed.

(** The events of a snapshot, from any books. *)
Lemma apply_all_listed t l m :
  Forall (λ u, listed t (mu_order_id u) u) l -> NoDup (mu_order_id <$> l) ->
  (forall u, u ∈ l -> m !! mu_order_id u = None) -> apply_all l m = Some (by_id l ∪ m).
Proof.
  intros Hl. revert m. induction Hl as [|u l Hu Hl IH]; intros m Hnd Hfr;
    [unfold by_id; cbn; by rewrite map_empty_union|].
  cbn in Hnd. apply NoDup_cons in Hnd as [Hn Hnd]. cbn [apply_all]. unfold apply_update at 1.
  rewrite (ls_type _ _ _ Hu), (Hfr u) by left. rewrite (ls_valid _ _ _ Hu). cbn [mbind option_bind].
  rewrite IH; [|done|].
  - f_equal. unfold by_id. cbn. rewrite <- insert_union_l. symmetry. apply insert_union_r.
    apply not_elem_of_list_to_map_1. rewrite <- list_fmap_compose. exact Hn.
  - intros v Hv. rewrite lookup_insert_ne; [apply Hfr; by right|].
    intros E. apply Hn. rewrite E. by apply list_elem_of_fmap_2.
Qed.

Lemma sorted_ids m : keyed m -> NoDup (mu_order_id <$> sorted_view m).
Proof.
  intros Hk. pose proof (sorted_view_strict m Hk) as Hst. induction Hst as [|u l Hst IH Hu]; [constructor|].
  cbn. apply NoDup_cons. split; [|done]. intros (v & E & Hv)%list_elem_of_fmap.
  rewrite Forall_forall in Hu. specialize (Hu v Hv). unfold id_lt in Hu. lia.
Qed.

Lemma block_room views V t m :
  public_books V -> (forall t m, V !! t = Some m -> wf_view m) -> all_fit V -> V !! t = Some m ->
  length views = Z.to_nat ME_MAX_TICKERS -> room (ticker_block V (Z.of_nat t)) views (<[t := m]> views).
Proof.
  intros Hp Hwf Hf Hm Hlen. unfold ticker_block. rewrite Nat2Z.id, Hm. cbn [default from_option id].
  pose proof (lookup_lt_Some _ _ _ Hm) as Ht. rewrite (pb_length _ Hp) in Ht.
  exists (<[t := ∅]> views). cbn [SnapshotSynthesizer.clear mu_type mu_ticker_id mu_order_id mu_qty].
  split.
  { unfold replay_event. cbn [SnapshotSynthesizer.clear mu_type mu_ticker_id]. rewrite bool_decide_true by done.
    rewrite Nat2Z.id. destruct (lookup_lt_is_Some_2 views t) as [w ->]; [lia|done]. }
  split; [lia|]. split; [done|]. split; [done|]. split; [done|].
  rewrite <- (list_insert_insert_eq views t m ∅).
  assert (Hl : forall u, u ∈ sorted_view m -> listed t (mu_order_id u) u /\ update_wf u).
  { intros u [id Hu]%sorted_view_elem. split; [|by apply (Hwf t m Hm id)].
    pose proof (pb_listed _ Hp _ _ _ _ Hm Hu) as Hx. by rewrite (ls_id _ _ _ Hx). }
  pose proof (public_keyed _ _ _ Hp Hm) as Hk.
  apply (adds_room (sorted_view m) t ∅); [|done| | |].
  - apply Forall_forall. intros u Hu. destruct (Hl u Hu) as [Hls (_ & [Hid _] & _ & _ & _ & Hq & _)].
    by split; [apply Hls|split; [apply Hls|]].
  - apply list_lookup_insert_eq. lia.
  - rewrite (apply_all_listed t), map_union_empty, by_id_sorted_view; [done|done| |by apply sorted_ids|].
    + apply Forall_forall. intros u Hu. by apply Hl.
    + intros u _. apply lookup_empty.
  - unfold all_fit in Hf. rewrite Forall_forall in Hf. apply Hf. by eapply list_elem_of_lookup_2.
Qed.

(** A whole snapshot leads from any books to its own. *)
Lemma blocks_room V ts views :
  public_books V -> (forall t m, V !! t = Some m -> wf_view m) -> all_fit V ->
  length views = Z.to_nat ME_MAX_TICKERS -> NoDup ts ->
  Forall (λ t, (t < Z.to_nat ME_MAX_TICKERS)%nat) ts ->
  exists views', room (mjoin (ticker_block V ∘ Z.of_nat <$> ts)) views views' /\
    length views' = Z.to_nat ME_MAX_TICKERS /\
    (forall t, t ∈ ts -> views' !! t = V !! t) /\ (forall t, t ∉ ts -> views' !! t = views !! t).
Proof.
  intros Hp Hwf Hf Hlen Hnd Hts. revert views Hlen.
  induction Hnd as [|t ts Hn Hnd IH]; intros views Hlen.
  { exists views. split; [done|]. split; [done|]. split; [by intros t ?%elem_of_nil|done]. }
  apply Forall_cons in Hts as [Ht Hts].
  destruct (lookup_lt_is_Some_2 V t) as [m Hm]; [by rewrite (pb_length _ Hp)|].
  destruct (IH Hts (<[t := m]> views)) as (v & Hr & Hl & Hin & Hout); [by rewrite length_insert|].
  exists v. change (mjoin (ticker_block V ∘ Z.of_nat <$> t :: ts))
      with (ticker_block V (Z.of_nat t) ++ mjoin (ticker_block V ∘ Z.of_nat <$> ts)).
  split; [eapply room_app; [by apply block_room|exact Hr]|]. split; [done|]. split.
  - intros t' [->|Ht']%elem_of_cons; [|by apply Hin]. rewrite (Hout t Hn), Hm. apply list_lookup_insert_eq. lia.
  - intros t' Ht'. rewrite not_elem_of_cons in Ht'. destruct Ht' as [Hne Ht'].
    rewrite (Hout t' Ht'). by rewrite list_lookup_insert_ne.
Qed.

Lemma inner_room V views :
  public_books V -> (forall t m, V !! t = Some m -> wf_view m) -> all_fit V ->
  length views = Z.to_nat ME_MAX_TICKERS -> room (inner_events V) views V.
Proof.
  intros Hp Hwf Hf Hlen.
  destruct (blocks_room V (seq 0 (Z.to_nat ME_MAX_TICKERS)) views Hp Hwf Hf Hlen) as (v & Hr & Hl & Hin & _).
  - apply NoDup_seq.
  - apply Forall_forall. intros t Ht%elem_of_seq. lia.
  - replace V with v at 2; [exact Hr|].
    apply list_eq_same_length with (n := Z.to_nat ME_MAX_TICKERS); [by rewrite (pb_length _ Hp)|done|].
    intros t x y Ht Hx Hy. specialize (Hin t). rewrite elem_of_seq in Hin. rewrite Hin in Hx by lia. congruence.
Qed.
End History.
