(* ===== verification/BookText.v ===== *)
(** The text of an order book: [toString] of matcher/me_order_book.cpp,
    matcher/unordered_map_me_order_book.cpp and
    trading/strategy/market_order_book.cpp, which print the same price levels
    with the same code.

    With [validity_check] the code also stops the process when the levels of a
    side are not sorted; the destructors of the books call it so.  [sprintf]
    writes into a buffer of 4096 bytes, far more than a line needs. *)
From S2P Require Import Prelude.
From S2P Require Import Types.
From S2P Require Import MemPool.
From S2P Require Import Ring.
From S2P Require Import PriceLevels.
From S2P Require Import LevelsView.
From S2P Require Import MatchBook.
From S2P Require Import UnorderedBook.
From S2P Require Import BookSpec.
From S2P Require Import BookRefinement.
From S2P Require Import BookInvariant.
From S2P Require Import BookTheorems.
From S2P Require Import ClientBook.
From S2P Require Import ClientBookSpec.
From S2P Require Import MarketView.
From S2P Require Import ClientFollows.
From S2P Require Import MarketHistory.
From stdpp Require Import functions base gmap strings pretty list sorting.
From Stdlib Require Import Ascii ZArith Lia.

Local Open Scope Z_scope.

(** ** Formatting *)
Definition endl : string := String "010" EmptyString.

Fixpoint spaces (n : nat) : string :=
  match n with
  | O => EmptyString
  | S n => String " " (spaces n)
  end.

(** [%ns] and [%-ns]. *)
Definition pad_left (n : nat) (s : string) : string := (spaces (n - String.length s) +:+ s)%string.
Definition pad_right (n : nat) (s : string) : string := (s +:+ spaces (n - String.length s))%string.

(** The first [sprintf] of the lambda [printer]. *)
Definition level_format (price prev next qty num : Z) : string :=
  " <px:" +:+ pad_left 3 (priceToString price) +:+ " p:" +:+ pad_left 3 (priceToString prev) +:+
  " n:" +:+ pad_left 3 (priceToString next) +:+ "> " +:+ pad_right 3 (priceToString price) +:+
  " @ " +:+ pad_right 5 (qtyToString qty) +:+ "(" +:+ pad_right 4 (pretty num) +:+ ")".

(** The second one. *)
Definition order_format (id qty prev next : Z) : string :=
  "[oid:" +:+ orderIdToString id +:+ " q:" +:+ qtyToString qty +:+ " p:" +:+ orderIdToString prev +:+
  " n:" +:+ orderIdToString next +:+ "] ".

(** What is printed of an order. *)
Class PrintedOrder (Node : Type) `{BookOrder Node} : Type := {
  pr_id : Node -> Z;
  pr_qty : Node -> Z;
  pr_id_strip x : pr_id (strip x) = pr_id x;
  pr_qty_strip x : pr_qty (strip x) = pr_qty x
}.

#[export] Instance me_printed_order : PrintedOrder MEOrder := {|
  pr_id := o_market_order_id;
  pr_qty := o_qty;
  pr_id_strip x := eq_refl;
  pr_qty_strip x := eq_refl
|}.
#[export] Instance market_printed_order : PrintedOrder MarketOrder := {|
  pr_id := mo_order_id;
  pr_qty := mo_qty;
  pr_id_strip x := eq_refl;
  pr_qty_strip x := eq_refl
|}.

(** ** The code *)
Section Text.
Context {Node : Type} `{PrintedOrder Node}.

(** The first loop of [printer]: the quantity (an unsigned 32-bit sum) and the
    number of the orders of a level. *)
Fixpoint level_total (fuel : nat) (pool : MemPool Node) (first order qty num : Z) : res (Z * Z) :=
  match fuel with
  | O => Err NoFuel
  | S fuel =>
      x ← load pool order;
      let qty := u32 (qty + pr_qty x) in
      let num := u64 (num + 1) in
      next ← deref (nnext x);
      if bool_decide (next = first) then Ok (qty, num) else level_total fuel pool first next qty num
  end.

(** The identifier behind a link; the sentinel for a null pointer. *)
Definition link_id (pool : MemPool Node) (link : option Z) : res Z :=
  match link with
  | None => Ok OrderId_INVALID
  | Some p => x ← load pool p; Ok (pr_id x)
  end.

(** The second loop. *)
Fixpoint orders_text (fuel : nat) (pool : MemPool Node) (detailed : bool) (first order : Z) : res string :=
  match fuel with
  | O => Err NoFuel
  | S fuel =>
      x ← load pool order;
      text ← (if detailed then
                prev ← link_id pool (nprev x);
                next ← link_id pool (nnext x);
                Ok (order_format (pr_id x) (pr_qty x) prev next)
              else Ok EmptyString);
      next ← deref (nnext x);
      if bool_decide (next = first) then Ok text else
      rest ← orders_text fuel pool detailed first next;
      Ok (text +:+ rest)%string
  end.

(** The sanity check of [printer]. *)
Definition unsorted (side : Side) (last_price price : Z) : bool :=
  (bool_decide (side = SELL) && (price <=? last_price)) ||
  (bool_decide (side = BUY) && (last_price <=? price)).

(** [printer]: the line and the price that the next level is compared with. *)
Definition printer (detailed sanity_check : bool) (side : Side) (itr last_price : Z) (b : Levels Node) :
    res (string * Z) :=
  v ← load (lv_levels b) itr;
  first ← deref (lv_first v);
  let fuel := size (pool_blocks (lv_orders b)) in
  '(qty, num) ← level_total fuel (lv_orders b) first first 0 0;
  prev ← deref (lv_prev v);
  pv ← load (lv_levels b) prev;
  next ← deref (lv_next v);
  nv ← load (lv_levels b) next;
  text ← orders_text fuel (lv_orders b) detailed first first;
  let line := (level_format (lv_price v) (lv_price pv) (lv_price nv) qty num +:+ text +:+ endl)%string in
  if sanity_check then
    _ ← ASSERT (negb (unsorted side last_price (lv_price v)));
    Ok (line, lv_price v)
  else Ok (line, last_price).

(** The loop over the levels of a side. *)
Fixpoint side_text (fuel : nat) (label : string) (detailed check : bool) (side : Side) (bst : option Z)
    (itr : option Z) (count last_price : Z) (b : Levels Node) : res string :=
  match itr, fuel with
  | None, _ => Ok EmptyString
  | Some _, O => Err NoFuel
  | Some itr, S fuel =>
      v ← load (lv_levels b) itr;
      let next_itr := if bool_decide (lv_next v = bst) then None else lv_next v in
      '(line, last_price) ← printer detailed check side itr last_price b;
      rest ← side_text fuel label detailed check side bst next_itr (u64 (count + 1)) last_price b;
      Ok (label +:+ " L:" +:+ pretty count +:+ " => " +:+ line +:+ rest)%string
  end.

Definition levels_toString (ticker_id : Z) (detailed validity_check : bool) (b : Levels Node) : res string :=
  let fuel := size (pool_blocks (lv_levels b)) in
  asks ← side_text fuel "ASKS" detailed validity_check SELL (lv_asks b) (lv_asks b) 0 (- 2 ^ 63) b;
  bids ← side_text fuel "BIDS" detailed validity_check BUY (lv_bids b) (lv_bids b) 0 (2 ^ 63 - 1) b;
  Ok ("Ticker:" +:+ tickerIdToString ticker_id +:+ endl +:+ asks +:+ endl +:+
      "                          X" +:+ endl +:+ endl +:+ bids)%string.
End Text.

Definition MEOrderBook_toString (detailed validity_check : bool) (b : MEOrderBook) : res string :=
  levels_toString (bk_ticker_id b) detailed validity_check (bk_levels b).
(** The variant's text is the same, over its own members. *)
Definition UnorderedMapMEOrderBook_toString `{HashLibrary} (detailed validity_check : bool)
    (u : UnorderedMapMEOrderBook) : res string :=
  levels_toString (ub_ticker_id u) detailed validity_check (levels_of u).
Definition MarketOrderBook_toString (detailed validity_check : bool) (b : MarketOrderBook) : res string :=
  levels_toString (cb_ticker_id b) detailed validity_check (cb_levels b).

(** ** The reference text

    A side is a list of orders, best price first; its levels are the runs of
    orders with one price. *)
Section Reference.
Context {Node : Type} `{PrintedOrder Node}.

Fixpoint by_price (l : list Node) : list (Z * list Node) :=
  match l with
  | [] => []
  | x :: l =>
      match by_price l with
      | (p, xs) :: gs => if bo_price x =? p then (p, x :: xs) :: gs else (bo_price x, [x]) :: (p, xs) :: gs
      | [] => [(bo_price x, [x])]
      end
  end.

Fixpoint quantity (l : list Node) : Z :=
  match l with
  | [] => 0
  | x :: l => pr_qty x + quantity l
  end.

(** An order between its neighbours in the ring of the level. *)
Fixpoint orders_ref (first prev : Z) (l : list Node) : string :=
  match l with
  | [] => EmptyString
  | x :: l =>
      (order_format (pr_id x) (pr_qty x) prev (match l with [] => first | y :: _ => pr_id y end) +:+
       orders_ref first (pr_id x) l)%string
  end.

Definition ids_of (l : list Node) : list Z := pr_id <$> l.

Definition level_ref (detailed : bool) (price prev next : Z) (l : list Node) : string :=
  (level_format price prev next (u32 (quantity l)) (u64 (Z.of_nat (length l))) +:+
   (if detailed then orders_ref (hd 0 (ids_of l)) (List.last (ids_of l) 0) l else EmptyString) +:+ endl)%string.

(** A level between its neighbours in the ring of the side. *)
Fixpoint levels_ref (label : string) (detailed : bool) (count first prev : Z) (gs : list (Z * list Node)) : string :=
  match gs with
  | [] => EmptyString
  | (p, l) :: gs =>
      (label +:+ " L:" +:+ pretty count +:+ " => " +:+
       level_ref detailed p prev (match gs with [] => first | (p', _) :: _ => p' end) l +:+
       levels_ref label detailed (u64 (count + 1)) first p gs)%string
  end.

Definition side_ref (label : string) (detailed : bool) (l : list Node) : string :=
  let gs := by_price l in levels_ref label detailed 0 (hd 0 gs.*1) (List.last gs.*1 0) gs.

Definition book_ref (ticker_id : Z) (detailed : bool) (asks bids : list Node) : string :=
  ("Ticker:" +:+ tickerIdToString ticker_id +:+ endl +:+ side_ref "ASKS" detailed asks +:+ endl +:+
   "                          X" +:+ endl +:+ endl +:+ side_ref "BIDS" detailed bids)%string.
End Reference.

(** ** The code prints the reference *)
Lemma last_shift {A} (l : list A) a d : List.last (a :: l) d = List.last l a.
Proof.
  revert a d. induction l as [|b l IH]; intros a d; [done|].
  change (List.last (b :: l) d = List.last (b :: l) a). by rewrite (IH b d), (IH b a).
Qed.

Lemma last_member {A} (l : list A) a : List.last l a ∈ a :: l.
Proof.
  revert a. induction l as [|b l IH]; intros a; [by left|]. rewrite last_shift. right. apply IH.
Qed.

Lemma last_map {A B} (f : A -> B) (l : list A) a : List.last (f <$> l) (f a) = f (List.last l a).
Proof.
  revert a. induction l as [|b l IH]; intros a; [done|]. cbn [fmap list_fmap]. rewrite !last_shift. apply IH.
Qed.

Lemma text_nil s : (s +:+ EmptyString)%string = s.
Proof. induction s as [|c s IH]; [done|]. exact (f_equal (String c) IH). Qed.

Section Printing.
Context {Node : Type} `{PrintedOrder Node}.

(** The ring of a level. *)
Section Ring.
Context (pool : MemPool Node) (first : Z).

Notation blocks := (pool_blocks pool).

Lemma level_total_ok fuel prev o os q n :
  seg (links blocks) prev (o :: os) first -> first ∉ os -> (length os < fuel)%nat ->
  level_total fuel pool first o q n
    = Ok (u32 (q + quantity (omap (data blocks) (o :: os))), u64 (n + Z.of_nat (length (o :: os)))).
Proof.
  revert fuel prev o q n. induction os as [|o' os IH]; intros fuel prev o q n [Hl Hseg] Hf Hfuel;
    (destruct fuel as [|fuel]; [cbn in Hfuel; lia|]); cbn [level_total];
    apply links_lookup in Hl as (x & Hx & _ & Hn); rewrite (load_Some _ _ _ Hx);
    cbn [mbind res_bind]; rewrite Hn; cbn [mbind res_bind deref hd omap list_omap]; rewrite (data_lookup_eq _ _ _ Hx); cbn [quantity]; rewrite pr_qty_strip.
  - rewrite bool_decide_true by done. by rewrite Z.add_0_r.
  - apply not_elem_of_cons in Hf as [Hne Hf]. rewrite bool_decide_false by congruence.
    rewrite (IH fuel o o' _ _ Hseg Hf) by (cbn in Hfuel; lia). do 2 f_equal.
    + unfold u32. rewrite Zplus_mod_idemp_l. cbn [omap list_omap]. f_equal. lia.
    + unfold u64. rewrite Zplus_mod_idemp_l. f_equal. cbn [length]. lia.
Qed.

Lemma link_id_ok p x : blocks !! p = Some x -> link_id pool (Some p) = Ok (pr_id x).
Proof. intros Hx. cbn. by rewrite (load_Some _ _ _ Hx). Qed.

Lemma orders_text_ok fuel detailed prev pid o os fx :
  seg (links blocks) prev (o :: os) first -> first ∉ os -> (length os < fuel)%nat ->
  blocks !! first = Some fx -> (exists px, blocks !! prev = Some px /\ pr_id px = pid) ->
  orders_text fuel pool detailed first o
    = Ok (if detailed then orders_ref (pr_id fx) pid (omap (data blocks) (o :: os)) else EmptyString).
Proof.
  revert fuel prev pid o. induction os as [|o' os IH]; intros fuel prev pid o [Hl Hseg] Hf Hfuel Hfx (px & Hpx & <-);
    (destruct fuel as [|fuel]; [cbn in Hfuel; lia|]); cbn [orders_text];
    apply links_lookup in Hl as (x & Hx & Hp & Hn); rewrite (load_Some _ _ _ Hx);
    cbn [mbind res_bind]; rewrite Hp, Hn; cbn [mbind res_bind deref hd omap list_omap]; rewrite (data_lookup_eq _ _ _ Hx);
    rewrite (link_id_ok _ _ Hpx); cbn [mbind res_bind hd orders_ref]; rewrite pr_qty_strip, pr_id_strip.
  - rewrite (link_id_ok _ _ Hfx), bool_decide_true by done. cbn [mbind res_bind].
    destruct detailed; cbn [mbind res_bind]; [|done]. by rewrite text_nil.
  - apply not_elem_of_cons in Hf as [Hne Hf]. rewrite bool_decide_false by congruence.
    pose proof Hseg as [(y & Hy & _)%links_lookup _]. rewrite (link_id_ok _ _ Hy). cbn [mbind res_bind].
    rewrite (IH fuel o (pr_id x) o' Hseg Hf) by (done || (cbn in Hfuel; lia) || eauto).
    cbn [omap list_omap]. rewrite (data_lookup_eq _ _ _ Hy), pr_id_strip. by destruct detailed.
Qed.
End Ring.

(** The nodes behind pointers, and the last one. *)
Lemma last_data (m : gmap Z Node) (l : list Z) (d : Z) x :
  Forall (λ o, is_Some (m !! o)) (d :: l) -> m !! List.last l d = Some x ->
  pr_id x = List.last (ids_of (omap (data m) (d :: l))) 0.
Proof.
  revert d. induction l as [|o l IH]; intros d [[y Hy] Hl]%Forall_cons Hx.
  - cbn in *. rewrite (data_lookup_eq _ _ _ Hy). cbn. rewrite pr_id_strip. congruence.
  - rewrite last_cons_Z in Hx. rewrite (IH o Hl Hx).
    cbn [omap list_omap]. rewrite (data_lookup_eq _ _ _ Hy).
    apply Forall_cons in Hl as [[z Hz] _]. by rewrite (data_lookup_eq _ _ _ Hz).
Qed.

Section Levels.
Context (b : Levels Node) (G : Side -> list GLevel) (Hok : levels_ok b G None).

Notation orders := (pool_blocks (lv_orders b)).
Notation levels := (pool_blocks (lv_levels b)).

Lemma level_size s g : g ∈ G s -> (length (g_orders g) <= size orders)%nat.
Proof.
  intros Hg. rewrite (orders_count _ _ Hok).
  assert (length (g_orders g) <= length (ptrs (G s)))%nat.
  { apply list_elem_of_split in Hg as (g1 & g2 & ->). unfold ptrs. rewrite fmap_app, concat_app. cbn.
    rewrite !length_app. lia. }
  destruct (ghost_valid _ _ _ Hok _ _ Hg) as [-> | ->]; lia.
Qed.

Lemma unsorted_better s last price : valid_side s -> unsorted s last price = negb (better s last price).
Proof.
  intros [-> | ->]; unfold unsorted, better; repeat case_bool_decide; case_decide; try done; cbn;
    rewrite ?orb_false_r; apply Z.leb_antisym.
Qed.

Definition level_orders (g : GLevel) : list Node := omap (data orders) (g_orders g).

Lemma printer_ok detailed check s g prev next last gp gn :
  g ∈ G s -> gp ∈ G s -> gn ∈ G s -> prev = g_ptr gp -> next = g_ptr gn ->
  links levels (g_ptr g) = Some (Some prev, Some next) ->
  (check = true -> better s last (g_price g) = true) ->
  printer detailed check s (g_ptr g) last b
    = Ok (level_ref detailed (g_price g) (g_price gp) (g_price gn) (level_orders g),
          if check then g_price g else last).
Proof.
  intros Hg Hgp Hgn -> -> Hl Hlast. pose proof (ghost_valid _ _ _ Hok _ _ Hg) as Hs.
  destruct (ghost_level_ok _ _ _ Hok _ _ Hg) as [(v & Hv & _ & Hvp & Hvf) Hring Hord].
  destruct (side_level_load _ _ _ gp (lk_sides _ _ _ Hok s Hs) Hgp) as (pv & Hpv & Epv).
  destruct (side_level_load _ _ _ gn (lk_sides _ _ _ Hok s Hs) Hgn) as (nv & Hnv & Env).
  pose proof (level_size s g Hg) as Hsize.
  apply links_lookup in Hl as (v' & Hv' & Hp & Hn). rewrite Hv in Hv'. injection Hv' as <-.
  change (lv_prev v = Some (g_ptr gp)) in Hp. change (lv_next v = Some (g_ptr gn)) in Hn.
  unfold printer, level_orders. rewrite (load_Some _ _ _ Hv). cbn [mbind res_bind]. rewrite Hvf.
  assert (Hall : Forall (λ o, is_Some (orders !! o)) (g_orders g)).
  { apply Forall_forall. intros o Ho. destruct (Hord o Ho) as (x & Hx & _). eauto. }
  destruct (g_orders g) as [|o os]; [done|]. cbn [head deref mbind res_bind].
  pose proof (ring_NoDup _ _ Hring) as [Hno _]%NoDup_cons. destruct Hring as [_ Hseg].
  rewrite (level_total_ok _ o _ _ o os 0 0 Hseg Hno) by done. cbn [mbind res_bind].
  rewrite Hp, Hn. cbn [deref mbind res_bind]. rewrite (load_Some _ _ _ Hpv). cbn [mbind res_bind].
  rewrite (load_Some _ _ _ Hnv). cbn [mbind res_bind].
  destruct (Hord o ltac:(by left)) as (x & Hx & _).
  assert (Hq : exists px, orders !! List.last os o = Some px).
  { rewrite Forall_forall in Hall. apply Hall, last_in. }
  destruct Hq as (px & Hpx).
  rewrite (orders_text_ok _ o _ detailed _ (pr_id px) o os x Hseg Hno Hsize Hx) by eauto.
  cbn [mbind res_bind]. rewrite (last_data orders os o px Hall Hpx).
  assert (Hhd : hd 0 (ids_of (omap (data orders) (o :: os))) = pr_id x).
  { cbn [omap list_omap]. rewrite (data_lookup_eq _ _ _ Hx). cbn. apply pr_id_strip. }
  unfold level_ref. rewrite Hhd, Hvp, Epv, Env, !Z.add_0_l.
  assert (Hlen : length (omap (data orders) (o :: os)) = length (o :: os)).
  { apply (omap_data_same orders (g_price g)). intros o' Ho'. destruct (Hord o' Ho') as (y & Hy & _ & Hyp).
    exists (strip y). split; [by apply data_lookup_eq|by rewrite bo_price_strip]. }
  rewrite Hlen. destruct check; [|done]. rewrite unsorted_better, Hlast by done. done.
Qed.

Definition content (gs : list GLevel) : list (Z * list Node) := (λ g, (g_price g, level_orders g)) <$> gs.

Lemma side_text_ok label detailed check s gf gs : forall fuel g gp count last,
  (forall h, h ∈ g :: gs -> h ∈ G s) -> gp ∈ G s -> gf ∈ G s ->
  seg (links levels) (g_ptr gp) (g_ptr <$> g :: gs) (g_ptr gf) -> g_ptr gf ∉ g_ptr <$> gs ->
  (length gs < fuel)%nat ->
  StronglySorted (λ g1 g2, better s (g_price g1) (g_price g2) = true) (g :: gs) ->
  (check = true -> better s last (g_price g) = true) ->
  side_text fuel label detailed check s (Some (g_ptr gf)) (Some (g_ptr g)) count last b
    = Ok (levels_ref label detailed count (g_price gf) (g_price gp) (content (g :: gs))).
Proof.
  induction gs as [|h gs IH]; intros fuel g gp count last Hin Hgp Hgf [Hl Hseg] Hno Hfuel Hsort Hlast;
    (destruct fuel as [|fuel]; [cbn in Hfuel; lia|]); cbn [side_text].
  all: pose proof Hl as (v & Hv & _ & Hn)%links_lookup; change (nnext v) with (lv_next v) in Hn;
    rewrite (load_Some _ _ _ Hv); cbn [mbind res_bind]; rewrite Hn; cbn [fmap list_fmap hd] in Hl |- *.
  - rewrite bool_decide_true by done.
    rewrite (printer_ok detailed check s g (g_ptr gp) (g_ptr gf) last gp gf) by (done || apply Hin; by left).
    cbn [mbind res_bind]. destruct fuel; by cbn [side_text mbind res_bind content fmap list_fmap levels_ref].
  - cbn [fmap list_fmap] in Hno. apply not_elem_of_cons in Hno as [Hne Hno].
    rewrite bool_decide_false by (cbn; congruence).
    assert (Hh : h ∈ G s) by (apply Hin; right; by left).
    rewrite (printer_ok detailed check s g (g_ptr gp) (g_ptr h) last gp h) by (done || apply Hin; by left).
    cbn [mbind res_bind]. apply StronglySorted_inv in Hsort as [Hsort Hall].
    rewrite (IH fuel h g); [done|by intros k Hk; apply Hin; right|apply Hin; by left|done|done|done|cbn in Hfuel; lia|done|].
    intros ->. rewrite Forall_forall in Hall. apply Hall. by left.
Qed.
End Levels.

(** The runs of the orders of a side are its levels. *)
Lemma by_price_level p (l rest : list Node) :
  l <> [] -> Forall (λ x, bo_price x = p) l -> (forall q xs gs, by_price rest = (q, xs) :: gs -> q <> p) ->
  by_price (l ++ rest) = (p, l) :: by_price rest.
Proof.
  intros Hne Hl Hrest. induction Hl as [|x l Hx Hl IH]; [done|]. cbn [app by_price].
  destruct l as [|y l].
  - cbn [app]. destruct (by_price rest) as [|[q xs] gs]; [by rewrite Hx|].
    destruct (Z.eqb_spec (bo_price x) q) as [E|_]; [|by rewrite Hx].
    destruct (Hrest q xs gs); [done|congruence].
  - rewrite IH by done. by rewrite (proj2 (Z.eqb_eq _ _) Hx).
Qed.

Lemma by_price_resting s (m : gmap Z Node) gs :
  priced m gs -> StronglySorted (λ g1 g2, better s (g_price g1) (g_price g2) = true) gs ->
  by_price (resting m gs) = side_view m gs.
Proof.
  intros Hp Hsort. induction Hsort as [|g gs Hsort IH Hall]; [done|]. rewrite resting_cons.
  destruct (Hp g ltac:(by left)) as [Hne Ho].
  destruct (omap_data_same m (g_price g) (g_orders g) Ho) as [Hf Hlen].
  rewrite (by_price_level (g_price g)); [|by destruct (g_orders g), (omap _ _)|done|].
  - rewrite IH; [done|]. by eapply priced_tail.
  - rewrite IH by (by eapply priced_tail). intros q xs gs'. destruct gs as [|h gs]; [done|].
    intros [= <- _ _]. apply Forall_cons in Hall as [Hh _]. intros E. by rewrite E, better_irrefl in Hh.
Qed.

Lemma content_prices b gs : (content b gs).*1 = g_price <$> gs.
Proof. unfold content. rewrite <- list_fmap_compose. done. Qed.

(** Every book with its levels in order prints the reference text, and the
    sanity check passes. *)
Lemma side_printed b G label detailed check s last :
  levels_ok b G None -> valid_side s ->
  (check = true -> forall x, x ∈ resting (pool_blocks (lv_orders b)) (G s) -> better s last (bo_price x) = true) ->
  side_text (size (pool_blocks (lv_levels b))) label detailed check s (best s b) (best s b) 0 last b
    = Ok (side_ref label detailed (resting (pool_blocks (lv_orders b)) (G s))).
Proof.
  intros Hok Hs Hlast. destruct (lk_sides _ _ _ Hok s Hs) as [Hb Hr Hsort _]. unfold side_ref.
  rewrite (by_price_resting s _ _ (levels_priced _ _ _ Hok s) Hsort).
  pose proof (levels_count _ _ _ Hok) as Hcount.
  assert (Hsize : (length (G s) <= size (pool_blocks (lv_levels b)))%nat) by (destruct Hs as [-> | ->]; lia).
  destruct (G s) as [|g gs] eqn:EG; [by rewrite Hb; destruct (size _)|].
  destruct Hr as [?|Hr]; [done|]. cbn [fmap list_fmap] in Hr. pose proof (ring_NoDup _ _ Hr) as [Hno _]%NoDup_cons.
  destruct Hr as [_ Hseg]. rewrite Hb. cbn [head fmap option_fmap option_map].
  set (gp := List.last gs g).
  assert (Hgp : gp ∈ G s) by (rewrite EG; apply last_member).
  pose proof (last_map g_ptr gs g : List.last (g_ptr <$> gs) (g_ptr g) = g_ptr gp) as Ep.
  rewrite Ep in Hseg.
  rewrite (side_text_ok b G Hok label detailed check s g gs _ g gp 0 last);
    [|by rewrite EG|done|rewrite EG; by left|done|done|done|done|].
  - change (side_view (pool_blocks (lv_orders b)) (g :: gs)) with (content b (g :: gs)).
    rewrite content_prices. cbn [fmap list_fmap hd]. do 2 f_equal.
    rewrite last_cons_Z. symmetry. apply (last_map g_price).
  - intros Hc. specialize (Hlast Hc). destruct (levels_priced _ _ _ Hok s g) as [Hne Ho]; [rewrite EG; by left|].
    destruct (g_orders g) as [|o os] eqn:Eo; [done|]. destruct (Ho o ltac:(by left)) as (x & Hx & <-).
    apply Hlast. rewrite resting_cons, Eo. cbn [omap list_omap]. rewrite Hx. by left.
Qed.

Lemma levels_printed b G t detailed check :
  levels_ok b G None ->
  (check = true -> forall s x, valid_side s -> x ∈ resting (pool_blocks (lv_orders b)) (G s) ->
     - 2 ^ 63 < bo_price x < 2 ^ 63 - 1) ->
  levels_toString t detailed check b
    = Ok (book_ref t detailed (resting (pool_blocks (lv_orders b)) (G SELL))
            (resting (pool_blocks (lv_orders b)) (G BUY))).
Proof.
  intros Hok Hp. unfold levels_toString.
  pose proof (side_printed b G "ASKS" detailed check SELL (- 2 ^ 63) Hok) as Ha.
  pose proof (side_printed b G "BIDS" detailed check BUY (2 ^ 63 - 1) Hok) as Hb.
  unfold best in Ha, Hb. destruct (decide (SELL = BUY)) as [?|_]; [done|].
  destruct (decide (BUY = BUY)) as [_|?]; [|done].
  rewrite Ha, Hb; [done|by left| |by right|].
  - intros Hc x Hx. unfold better. rewrite decide_True by done. apply Z.ltb_lt.
    apply (Hp Hc BUY x); [by left|done].
  - intros Hc x Hx. unfold better. rewrite decide_False by done. apply Z.ltb_lt.
    apply (Hp Hc SELL x); [by right|done].
Qed.
End Printing.

(** ** The exchange's book *)
Lemma enqueue_elem s (x y : MEOrder) l : y ∈ enqueue s x l -> y = x \/ y ∈ l.
Proof.
  induction l as [|z l IH]; cbn [enqueue]; [intros ->%list_elem_of_singleton; by left|].
  case_match; rewrite !elem_of_cons; naive_solver.
Qed.

Lemma typed_side a : typed_orders (all_orders a) <-> forall s, valid_side s -> typed_orders (side_of s a).
Proof.
  unfold typed_orders, all_orders. rewrite Forall_app. split.
  - intros [Hb Ha] s [-> | ->]; [exact Hb|exact Ha].
  - intros H. split; [apply (H BUY); by left|apply (H SELL); by right].
Qed.

Lemma typed_set_side s l a :
  valid_side s -> typed_orders l -> typed_orders (all_orders a) -> typed_orders (all_orders (set_side s l a)).
Proof.
  intros Hs Hl Ha. apply typed_side. intros s' Hs'. rewrite side_of_set_side by done.
  case_decide; [done|]. by apply typed_side.
Qed.

Lemma trade_typed c o t s p q a :
  book_wf a -> valid_side s -> is_u32 q -> is_i64 p -> typed_orders (all_orders a) ->
  typed_orders (all_orders (spec_trade c o t s p q a).1).
Proof.
  intros W Hs [Hq _] Hp Ha. unfold spec_trade.
  change (side_of (opposite s) (accept c o a)) with (side_of (opposite s) a).
  assert (Ha0 : typed_orders (all_orders (accept c o a))) by done.
  pose proof (valid_opposite _ Hs) as Ho.
  destruct (fill s p q (side_of (opposite s) a)) as [[fs lv] rest] eqn:Ef.
  assert (Hrest : typed_orders rest).
  { apply Forall_forall. intros x Hx.
    destruct (fill_rest_elem _ _ _ _ _ _ _ x Ef Hq) as (y & k & Hy & -> & _); [|done|].
    - apply Forall_forall. intros y Hy. apply (bw_orders _ W (opposite s) y Ho Hy).
    - apply typed_side with (s := opposite s) in Ha; [|done]. unfold typed_orders in Ha.
      rewrite Forall_forall in Ha. exact (Ha y Hy). }
  pose proof (typed_set_side _ _ _ Ho Hrest Ha0) as H1.
  destruct (lv =? 0); [exact H1|]. cbn [fst]. apply (typed_set_side s); [done| |exact H1].
  apply Forall_forall. intros x [->|Hx]%enqueue_elem; [exact Hp|].
  apply typed_side with (s := s) in H1; [|done]. unfold typed_orders in H1. rewrite Forall_forall in H1.
  by apply H1.
Qed.

Lemma step_typed op a :
  book_wf a -> op_wf op -> op_typed op -> typed_orders (all_orders a) ->
  typed_orders (all_orders (spec_step op a).1).
Proof.
  intros W Hop Ht Ha. destruct op as [c o t s p q|c o t|c o]; cbn [spec_step].
  - unfold spec_add. case_bool_decide as E; [|done].
    destruct (spec_reason_NONE _ _ _ _ _ _ _ E) as (_ & _ & Hs & _). by apply trade_typed.
  - unfold spec_cancel. destruct (_ && _); [|done].
    destruct (find_order (c, o) a) as [x|] eqn:E; [|done].
    assert (Hx : x ∈ all_orders a).
    { unfold find_order in E. apply head_Some_elem_of in E.
      by apply list_elem_of_In, List.filter_In, proj1, list_elem_of_In in E. }
    apply elem_of_all_orders in Hx as (s & Hs & Hx). rewrite (ow_side _ _ _ (bw_orders _ W s x Hs Hx)).
    apply typed_set_side; [done| |done]. pose proof (proj1 (typed_side a) Ha s Hs) as Hside.
    unfold typed_orders in *. rewrite Forall_forall in Hside. apply Forall_forall. intros y Hy.
    apply list_elem_of_In, List.filter_In, proj1, list_elem_of_In in Hy. by apply Hside.
  - unfold spec_query. by repeat case_match.
Qed.

Lemma run_typed ops a :
  book_wf a -> Forall op_wf ops -> Forall op_typed ops -> typed_orders (all_orders a) ->
  typed_orders (all_orders (spec_run ops a).1).
Proof.
  intros W Hops. revert a W. induction Hops as [|op ops Hop Hops IH]; intros a W Ht Ha; [done|].
  apply Forall_cons in Ht as [Hop' Ht]. cbn [spec_run].
  pose proof (spec_step_wf op a W Hop) as W1. pose proof (step_typed op a W Hop Hop' Ha) as Ha1.
  destruct (spec_step op a) as [a1 evs1]. cbn [fst] in *. specialize (IH a1 W1 Ht Ha1).
  by destruct (spec_run ops a1).
Qed.

Lemma spec_run_ticker ops a : a_ticker_id (spec_run ops a).1 = a_ticker_id a.
Proof.
  revert a. induction ops as [|op ops IH]; intros a; [done|]. cbn [spec_run].
  destruct (spec_step_capacity op a) as (_ & _ & Et). destruct (spec_step op a) as [a1 evs1]. cbn [fst] in Et.
  specialize (IH a1). destruct (spec_run ops a1) as [a2 evs2]. cbn [fst] in *. congruence.
Qed.

Lemma typed_prices a s x :
  book_wf a -> typed_orders (all_orders a) -> valid_side s -> x ∈ side_of s a ->
  - 2 ^ 63 < o_price x < 2 ^ 63 - 1.
Proof.
  intros W Ha Hs Hx. destruct (ow_price _ _ _ (bw_orders _ W s x Hs Hx)) as [Hp Hne].
  apply typed_side with (s := s) in Ha; [|done]. unfold typed_orders in Ha. rewrite Forall_forall in Ha.
  specialize (Ha x Hx). unfold is_i64, Price_INVALID in *. lia.
Qed.

(** C39: the text of a book is that of the reference book, with every level
    and order between its neighbours, the quantities and the numbers of orders
    summed; and the sanity check, with which the destructors print the book,
    never stops the process.  The variant, from its own constructor and after
    the same requests, prints the same. *)
Theorem book_text_is_faithful `{HashLibrary} t orders levels ops b0 :
  0 <= orders -> 0 <= levels -> MEOrderBook.make_sized t orders levels = Some b0 ->
  Forall op_wf ops -> Forall op_typed ops ->
  let a := (spec_run ops (empty_book t orders levels)).1 in
  exists b u0 u, book_run ops b0 = Ok b /\
    UnorderedMapMEOrderBook.make_sized t orders levels = Some u0 /\ unordered_run ops u0 = Ok u /\
    forall detailed validity_check,
      MEOrderBook_toString detailed validity_check b = Ok (book_ref t detailed (a_asks a) (a_bids a)) /\
      UnorderedMapMEOrderBook_toString detailed validity_check u = Ok (book_ref t detailed (a_asks a) (a_bids a)).
Proof.
  intros Ho Hl Hm Hops Ht a. destruct (make_agrees _ _ _ _ Hm) as (u0 & Hu0 & Hmir0).
  pose proof (run_agrees ops u0 b0 Hmir0) as Hmir. destruct (make_refines _ _ _ _ Ho Hl Hm) as [R _].
  pose proof (empty_book_wf t orders levels Ho Hl) as W.
  pose proof (run_refines ops b0 _ _ R W Hops) as H0. pose proof (spec_run_wf ops _ W Hops) as W'.
  pose proof (run_typed ops _ W Hops Ht (Forall_nil_2 _)) as Ha. fold a in W', Ha.
  assert (Et : a_ticker_id a = t) by (apply (spec_run_ticker ops (empty_book t orders levels))).
  unfold a in *. destruct (spec_run ops (empty_book t orders levels)) as [a' evs]. cbn [fst] in *.
  destruct H0 as (b & G & E & R' & _). rewrite E in Hmir.
  destruct (unordered_run ops u0) as [u|] eqn:Eu; [|done]. cbn [agree] in Hmir.
  exists b, u0, u. split; [exact E|]. split; [exact Hu0|]. split; [done|]. intros detailed check.
  assert (Ebook : UnorderedMapMEOrderBook_toString detailed check u = MEOrderBook_toString detailed check b).
  { by rewrite (mi_book _ _ Hmir). }
  rewrite Ebook. match goal with |- ?P /\ _ => enough (Hp : P) by (by split) end.
  unfold MEOrderBook_toString. rewrite (levels_printed _ _ _ _ _ (rf_levels _ _ _ R')).
  - rewrite (rf_ticker _ _ _ R'), Et. pose proof (rf_side _ _ _ R') as Hs.
    change (pool_blocks (lv_orders (bk_levels b))) with (blocks b).
    rewrite <- (Hs SELL), <- (Hs BUY) by (by first [by left|by right]). done.
  - intros _ s x Hs Hx. change (pool_blocks (lv_orders (bk_levels b))) with (blocks b) in Hx.
    rewrite <- (rf_side _ _ _ R' s Hs) in Hx. by eapply (typed_prices a' s x).
Qed.

Lemma book_text_is_faithful_witness :
  exists b0 b, MEOrderBook.make_sized 0 4 2 = Some b0 /\ book_run demo_ops b0 = Ok b /\
    MEOrderBook_toString true true b
      = Ok (book_ref 0 true (a_asks (spec_run demo_ops (empty_book 0 4 2)).1)
              (a_bids (spec_run demo_ops (empty_book 0 4 2)).1)).
Proof.
  destruct (MEOrderBook.make_sized 0 4 2) as [b0|] eqn:E0; [|by vm_compute in E0].
  destruct (book_text_is_faithful (H := demo_library) 0 4 2 demo_ops b0 ltac:(lia) ltac:(lia) E0 demo_ops_wf)
    as (b & u0 & u & Eb & _ & _ & H).
  { unfold demo_ops. repeat constructor; cbn; unfold is_i64; lia. }
  exists b0, b. split; [done|]. split; [exact Eb|]. apply (H true true).
Defined.

(** What is printed of the order that remains. *)
Example demo_book_text :
  option_map (MEOrderBook_toString true true) demo_book
  = Some (Ok ("Ticker:0" +:+ endl +:+ endl +:+ "                          X" +:+ endl +:+ endl +:+
      "BIDS L:0 =>  <px:100 p:100 n:100> 100 @ 3    (1   )[oid:2 q:3 p:2 n:2] " +:+ endl)%string).
Proof. reflexivity. Qed.

(** ** The client's book *)
Definition priced_view (m : View) : Prop := forall id u, m !! id = Some u -> 0 < mu_price u < Price_INVALID.

Lemma client_update_priced u m m' :
  is_i64 (mu_price u) -> priced_view m -> client_update u m = Some m' -> priced_view m'.
Proof.
  intros Hi Hm. unfold client_update, apply_update. destruct (mu_type u); try (by intros [= <-]).
  - destruct (m !! mu_order_id u); [done|]. destruct (valid_add u) eqn:Ev; [|done]. intros [= <-] id v.
    intros [[_ <-]|[_ Hv]]%lookup_insert_Some; [|by eapply Hm].
    unfold valid_add in Ev. rewrite !andb_true_iff, !negb_true_iff in Ev. destruct_and?.
    unfold is_i64, Price_INVALID in *. lia.
  - destruct (m !! mu_order_id u) as [x|] eqn:E; [|done]. cbn [mbind option_bind].
    destruct (about u x && _); [|done]. intros [= <-] id v.
    intros [[_ <-]|[_ Hv]]%lookup_insert_Some; [exact (Hm _ _ E)|by eapply Hm].
  - destruct (m !! mu_order_id u) as [x|]; [|done]. cbn [mbind option_bind].
    destruct (about u x); [|done]. intros [= <-] id v [_ Hv]%lookup_delete_Some. by eapply Hm.
Qed.

(** The client's book prints a reference text as well, whatever updates it has
    received, and its sanity check never stops the process. *)
Lemma client_text_checked t orders levels b0 us :
  MarketOrderBook.make_sized t orders levels = Some b0 -> 0 <= orders -> 0 <= levels ->
  Forall update_wf us ->
  exists b asks bids, client_feed us b0 = Ok b /\
    forall detailed validity_check,
      MarketOrderBook_toString detailed validity_check b = Ok (book_ref t detailed asks bids).
Proof.
  intros Hm Ho Hl Hus. destruct (client_make_ok _ _ _ _ Hm Ho Hl) as (Hok & Hq).
  assert (Hp : priced_view ∅) by (intros id u; by rewrite lookup_empty).
  revert Hok Hq Hp. generalize (∅ : View), (λ _ : Side, [] : list GLevel), b0. clear Hm.
  unfold client_feed. induction Hus as [|u us Hu Hus IH]; intros m G b Hok Hq Hp; cbn [res_fold].
  - exists b, (resting (cblocks b) (G SELL)), (resting (cblocks b) (G BUY)). split; [done|].
    intros detailed check. unfold MarketOrderBook_toString.
    rewrite (levels_printed _ _ _ _ _ (co_levels _ _ _ _ _ _ Hok)), (co_ticker _ _ _ _ _ _ Hok); [done|].
    intros _ s x Hs Hx. apply list_elem_of_omap in Hx as (p & _ & Hx).
    pose proof (proj2 (co_index _ _ _ _ _ _ Hok (mo_order_id x) p) (ex_intro _ x (conj Hx eq_refl))) as Hi.
    assert (Hv : m !! mo_order_id x = Some (order_of (cb_ticker_id b) x)).
    { rewrite (co_view _ _ _ _ _ _ Hok). unfold image. rewrite Hi. cbn [mbind option_bind].
      change (data (cblocks b) p = Some x) in Hx. by rewrite Hx. }
    apply Hp in Hv. cbn in Hv |- *. unfold Price_INVALID in Hv. lia.
  - pose proof Hu as (_ & Hid & _ & _ & Hi & Hqty & _).
    destruct (onMarketUpdate_ok t orders levels b m G u Hok Hq) as (ok & cb & b' & -> & Hf & Ht & _);
      [apply Hid|done|]. cbn [mbind res_bind]. destruct ok.
    + destruct (Ht eq_refl) as (_ & m' & G' & Hu' & Hok' & Hq'). apply (IH m' G'); [done..|].
      by eapply client_update_priced.
    + destruct (Hf eq_refl) as [-> _]. by apply (IH m G).
Qed.
