(* ===== verification/MessageText.v ===== *)
(** The diagnostic texts of messages and orders: [toString] of
    order_server/client_request.h, client_response.h,
    market_data/market_update.h, matcher/me_order.{h,cpp},
    trading/strategy/market_order.{h,cpp} and om_order.h, and the names of the
    enumerations.

    The logs and the failed assertions show these texts one after the other;
    they are a prefix code: what a text shows can be read back. *)
From S2P Require Import Prelude.
From S2P Require Import Types.
From S2P Require Import MemPool.
From S2P Require Import PriceLevels.
From S2P Require Import MatchBook.
From S2P Require Import TradingTypes.
From S2P Require Import PositionKeeper.
From S2P Require Import ClientBook.
From S2P Require Import BookText.
From stdpp Require Import base strings pretty.
From Stdlib Require Import List Ascii ZArith Lia.

Local Open Scope Z_scope.
Local Open Scope string_scope.

(** ** The code *)

(** [default]-less switches; the value of the last [return]. *)
Definition clientRequestTypeToString (type : ClientRequestType) : string :=
  match type with
  | NEW => "NEW"
  | CANCEL => "CANCEL"
  | QUERY => "QUERY"
  | RequestType_INVALID => "INVALID"
  | RequestType_unnamed _ => "UNKNOWN"
  end.

Definition clientResponseTypeToString (type : ClientResponseType) : string :=
  match type with
  | ACCEPTED => "ACCEPTED"
  | CANCELED => "CANCELED"
  | FILLED => "FILLED"
  | CANCEL_REJECTED => "CANCEL_REJECTED"
  | REJECTED => "REJECTED"
  | STATE => "STATE"
  | ResponseType_INVALID => "INVALID"
  | ResponseType_unnamed _ => "UNKNOWN"
  end.

Definition marketUpdateTypeToString (type : MarketUpdateType) : string :=
  match type with
  | MD_CLEAR => "CLEAR"
  | MD_ADD => "ADD"
  | MD_MODIFY => "MODIFY"
  | MD_CANCEL => "CANCEL"
  | MD_TRADE => "TRADE"
  | MD_SNAPSHOT_START => "SNAPSHOT_START"
  | MD_SNAPSHOT_END => "SNAPSHOT_END"
  | UpdateType_INVALID => "INVALID"
  | MD_RECOVERY_COMMIT => "RECOVERY_COMMIT"
  | UpdateType_unnamed _ => "UNKNOWN"
  end.

Definition OMOrderStateToString (state : OMOrderState) : string :=
  match state with
  | PENDING_NEW => "PENDING_NEW"
  | LIVE => "LIVE"
  | PENDING_CANCEL => "PENDING_CANCEL"
  | DEAD => "DEAD"
  | OM_INVALID => "INVALID"
  end.

Definition MEClientRequest_toString (r : MEClientRequest) : string :=
  "MEClientRequest" +:+ " [" +:+ "type:" +:+ clientRequestTypeToString (rq_type r) +:+
  " client:" +:+ clientIdToString (rq_client_id r) +:+ " ticker:" +:+ tickerIdToString (rq_ticker_id r) +:+
  " oid:" +:+ orderIdToString (rq_order_id r) +:+ " side:" +:+ sideToString (rq_side r) +:+
  " qty:" +:+ qtyToString (rq_qty r) +:+ " price:" +:+ priceToString (rq_price r) +:+ "]".

Definition OMClientRequest_toString (m : OMClientRequest) : string :=
  "OMClientRequest" +:+ " [" +:+ "seq:" +:+ pretty (omrq_seq_num m) +:+ " " +:+
  MEClientRequest_toString (omrq_request m) +:+ "]".

Definition MEClientResponse_toString (r : MEClientResponse) : string :=
  "MEClientResponse" +:+ " [" +:+ "type:" +:+ clientResponseTypeToString (rs_type r) +:+
  " client:" +:+ clientIdToString (rs_client_id r) +:+ " ticker:" +:+ tickerIdToString (rs_ticker_id r) +:+
  " coid:" +:+ orderIdToString (rs_client_order_id r) +:+
  " moid:" +:+ orderIdToString (rs_market_order_id r) +:+ " side:" +:+ sideToString (rs_side r) +:+
  " exec_qty:" +:+ qtyToString (rs_exec_qty r) +:+ " leaves_qty:" +:+ qtyToString (rs_leaves_qty r) +:+
  " reason:" +:+ pretty (RejectReason_to_Z (rs_reject_reason r)) +:+
  " price:" +:+ priceToString (rs_price r) +:+ "]".

Definition OMClientResponse_toString (m : OMClientResponse) : string :=
  "OMClientResponse" +:+ " [" +:+ "seq:" +:+ pretty (omrs_seq_num m) +:+ " " +:+
  MEClientResponse_toString (omrs_response m) +:+ "]".

Definition MEMarketUpdate_toString (u : MEMarketUpdate) : string :=
  "MEMarketUpdate" +:+ " [" +:+ " type:" +:+ marketUpdateTypeToString (mu_type u) +:+
  " ticker:" +:+ tickerIdToString (mu_ticker_id u) +:+
  " oid:" +:+ orderIdToString (mu_order_id u) +:+ " side:" +:+ sideToString (mu_side u) +:+
  " qty:" +:+ qtyToString (mu_qty u) +:+ " price:" +:+ priceToString (mu_price u) +:+
  " priority:" +:+ priorityToString (mu_priority u) +:+ "]".

Definition MDPMarketUpdate_toString (m : MDPMarketUpdate) : string :=
  "MDPMarketUpdate" +:+ " [" +:+ " seq:" +:+ pretty (mdp_seq_num m) +:+ " " +:+
  MEMarketUpdate_toString (mdp_update m) +:+ "]".

Definition OMOrder_toString (o : OMOrder) : string :=
  "OMOrder" +:+ "[" +:+ "tid:" +:+ tickerIdToString (om_ticker_id o) +:+ " " +:+
  "oid:" +:+ orderIdToString (om_order_id o) +:+ " " +:+ "side:" +:+ sideToString (om_side o) +:+ " " +:+
  "price:" +:+ priceToString (om_price o) +:+ " " +:+ "qty:" +:+ qtyToString (om_qty o) +:+ " " +:+
  "state:" +:+ OMOrderStateToString (om_state o) +:+ "]".

(** The pointers lead into the pool of the book. *)
Definition MEOrder_toString (pool : MemPool MEOrder) (o : MEOrder) : res string :=
  prev ← link_id pool (o_prev o);
  next ← link_id pool (o_next o);
  Ok ("MEOrder" +:+ "[" +:+ "ticker:" +:+ tickerIdToString (o_ticker_id o) +:+ " " +:+
    "cid:" +:+ clientIdToString (o_client_id o) +:+ " " +:+
    "oid:" +:+ orderIdToString (o_client_order_id o) +:+ " " +:+
    "moid:" +:+ orderIdToString (o_market_order_id o) +:+ " " +:+
    "side:" +:+ sideToString (o_side o) +:+ " " +:+ "price:" +:+ priceToString (o_price o) +:+ " " +:+
    "qty:" +:+ qtyToString (o_qty o) +:+ " " +:+ "prio:" +:+ priorityToString (o_priority o) +:+ " " +:+
    "prev:" +:+ orderIdToString prev +:+ " " +:+ "next:" +:+ orderIdToString next +:+ "]").

Definition MarketOrder_toString (pool : MemPool MarketOrder) (o : MarketOrder) : res string :=
  prev ← link_id pool (mo_prev o);
  next ← link_id pool (mo_next o);
  Ok ("MarketOrder" +:+ "[" +:+ "oid:" +:+ orderIdToString (mo_order_id o) +:+ " " +:+
    "side:" +:+ sideToString (mo_side o) +:+ " " +:+ "price:" +:+ priceToString (mo_price o) +:+ " " +:+
    "qty:" +:+ qtyToString (mo_qty o) +:+ " " +:+ "prio:" +:+ priorityToString (mo_priority o) +:+ " " +:+
    "prev:" +:+ orderIdToString prev +:+ " " +:+ "next:" +:+ orderIdToString next +:+ "]").

(** The price of a neighbouring level; the sentinel for a null pointer. *)
Definition link_price (pool : MemPool Level) (link : option Z) : res Z :=
  match link with
  | None => Ok Price_INVALID
  | Some p => v ← load pool p; Ok (lv_price v)
  end.

(** [toString] of a level, for both kinds of book. *)
Definition level_text {Node} (label first_label : string) (order_text : MemPool Node -> Node -> res string)
    (b : Levels Node) (v : Level) : res string :=
  first ← match lv_first v with
    | None => Ok "null"
    | Some p => o ← load (lv_orders b) p; order_text (lv_orders b) o
    end;
  prev ← link_price (lv_levels b) (lv_prev v);
  next ← link_price (lv_levels b) (lv_next v);
  Ok (label +:+ "side:" +:+ sideToString (lv_side v) +:+ " " +:+ "price:" +:+ priceToString (lv_price v) +:+ " " +:+
    first_label +:+ first +:+ " " +:+ "prev:" +:+ priceToString prev +:+ " " +:+
    "next:" +:+ priceToString next +:+ "]").

Definition MEOrdersAtPrice_toString : Levels MEOrder -> Level -> res string :=
  level_text "MEOrdersAtPrice[" "first_me_order:" MEOrder_toString.
Definition MarketOrdersAtPrice_toString : Levels MarketOrder -> Level -> res string :=
  level_text "MarketOrdersAtPrice[" "first_mkt_order:" MarketOrder_toString.

Definition bookQtyToString (qty : Z) : string := if bool_decide (qty = BookQty_INVALID) then "INVALID" else pretty qty.

Definition BBO_toString (b : BBO) : string :=
  "BBO{" +:+ bookQtyToString (bid_qty b) +:+ "@" +:+ priceToString (bid_price b) +:+ "X" +:+
  priceToString (ask_price b) +:+ "@" +:+ bookQtyToString (ask_qty b) +:+ "}".

(** The volume in the text of a position: [qtyToString] takes a [Qty], an
    unsigned integer of 32 bits, the volume has 64. *)
Definition volume_text (p : PositionInfo) : string := " vol:" +:+ qtyToString (u32 (volume p)).

(** ** Fields of a text *)

Fixpoint made_of (p : ascii -> bool) (s : string) : bool :=
  match s with
  | EmptyString => true
  | String c s => p c && made_of p s
  end.

(** What numbers, identifiers and the names of the enumerations are made of. *)
Definition among (chars : string) (c : ascii) : bool := existsb (Ascii.eqb c) (String.list_ascii_of_string chars).
Definition number_char : ascii -> bool := among "0123456789-".
Definition id_char : ascii -> bool := among "0123456789-INVALID".
Definition name_char : ascii -> bool := among "ABCDEFGHIJKLMNOPQRSTUVWXYZ_".

Lemma number_id c : number_char c = true -> id_char c = true.
Proof.
  unfold number_char, id_char, among. rewrite !existsb_exists. intros (x & Hx & E). exists x. split; [|done].
  change (String.list_ascii_of_string "0123456789-INVALID") with
    (String.list_ascii_of_string "0123456789-" ++ String.list_ascii_of_string "INVALID")%list.
  apply in_or_app. by left.
Qed.

Lemma made_of_weaken (p q : ascii -> bool) s :
  (forall c, p c = true -> q c = true) -> made_of p s = true -> made_of q s = true.
Proof.
  intros H. induction s as [|c s IH]; [done|]. cbn. intros [Hc Hs]%andb_true_iff. by rewrite H, IH.
Qed.

Lemma made_of_app p a b : made_of p (a +:+ b) = made_of p a && made_of p b.
Proof.
  induction a as [|c a IH]; [done|].
  change (p c && made_of p (a +:+ b) = p c && made_of p a && made_of p b). by rewrite IH, andb_assoc.
Qed.

Lemma append_assoc (a b c : string) : (a +:+ b) +:+ c = a +:+ b +:+ c.
Proof.
  induction a as [|x a IH]; [done|]. change (String x ((a +:+ b) +:+ c) = String x (a +:+ b +:+ c)). by rewrite IH.
Qed.

Lemma split_at p c a b r r' :
  p c = false -> made_of p a = true -> made_of p b = true -> a +:+ String c r = b +:+ String c r' -> a = b /\ r = r'.
Proof.
  intros Hc. revert b. induction a as [|x a IH]; intros [|y b] Ha Hb E; cbn in *.
  - by injection E.
  - injection E as -> _. by rewrite Hc in Hb.
  - injection E as -> _. by rewrite Hc in Ha.
  - injection E as -> E. apply andb_true_iff in Ha as [_ Ha], Hb as [_ Hb]. by destruct (IH b Ha Hb E) as [-> ->].
Qed.

(** [text] shows [seen] of a value, in characters of [p]. *)
Class Field {A B} (text : A -> string) (seen : A -> B) (p : ascii -> bool) : Prop := {
  field_inj x y : text x = text y -> seen x = seen y;
  field_chars x : made_of p (text x) = true
}.

Lemma field_read {A B text seen p} `{!@Field A B text seen p} c x y r r' :
  p c = false -> text x +:+ String c r = text y +:+ String c r' -> seen x = seen y /\ r = r'.
Proof. intros Hc E. apply (split_at p) in E as [E ->]; [|done|apply field_chars..]. split; [by apply field_inj|done]. Qed.

(** *** Numbers *)
Lemma number_digit n : number_char (pretty_N_char n) = true.
Proof. destruct n as [|p]; [done|]. do 4 (try destruct p as [p|p|]); done. Qed.

Lemma number_go n s : made_of number_char s = true -> made_of number_char (pretty_N_go n s) = true.
Proof.
  revert s. induction (N.lt_wf_0 n) as [n _ IH]. intros s Hs. destruct (decide (0 < n)%N) as [Hn|Hn].
  - rewrite pretty_N_go_step by done. apply IH; [apply N.div_lt; lia|]. cbn [made_of]. by rewrite number_digit, Hs.
  - assert (n = 0%N) as -> by lia. by rewrite pretty_N_go_0.
Qed.

Lemma number_N n : made_of number_char (pretty (n : N)) = true.
Proof. unfold pretty, pretty_N. case_decide; [done|]. by apply number_go. Qed.

Lemma number_Z z : made_of number_char (pretty (z : Z)) = true.
Proof.
  destruct z as [|p|p]; [done|exact (number_N (N.pos p))|].
  change (pretty (Z.neg p)) with ("-" +:+ pretty (N.pos p)). rewrite made_of_app. by rewrite number_N.
Qed.

#[export] Instance pretty_field : Field (pretty : Z -> string) id number_char.
Proof. split; [intros x y; apply (inj pretty)|apply number_Z]. Qed.

(** The sentinel is shown by a text that is no number. *)
Lemma sentinel_field (sentinel : Z) :
  Field (λ z : Z, if bool_decide (z = sentinel) then "INVALID" else pretty z) id id_char.
Proof.
  assert (Hno : forall z : Z, pretty z <> "INVALID").
  { intros z E. pose proof (number_Z z) as H. by rewrite E in H. }
  split.
  - intros x y E. unfold id. repeat case_bool_decide; try congruence. by apply (inj pretty).
  - intros x. case_bool_decide; [done|]. eapply made_of_weaken; [apply number_id|apply number_Z].
Qed.

#[export] Instance orderId_field : Field orderIdToString id id_char := sentinel_field _.
#[export] Instance tickerId_field : Field tickerIdToString id id_char := sentinel_field _.
#[export] Instance clientId_field : Field clientIdToString id id_char := sentinel_field _.
#[export] Instance price_field : Field priceToString id id_char := sentinel_field _.
#[export] Instance qty_field : Field qtyToString id id_char := sentinel_field _.
#[export] Instance priority_field : Field priorityToString id id_char := sentinel_field _.
#[export] Instance bookQty_field : Field bookQtyToString id id_char := sentinel_field _.

(** *** Enumerations: all values without a name are shown alike *)
Definition seen_side (s : Side) : Side := match s with Side_unnamed _ => Side_unnamed 0 | s => s end.
Definition seen_request (t : ClientRequestType) : ClientRequestType :=
  match t with RequestType_unnamed _ => RequestType_unnamed 0 | t => t end.
Definition seen_response (t : ClientResponseType) : ClientResponseType :=
  match t with ResponseType_unnamed _ => ResponseType_unnamed 0 | t => t end.
Definition seen_update (t : MarketUpdateType) : MarketUpdateType :=
  match t with UpdateType_unnamed _ => UpdateType_unnamed 0 | t => t end.

Ltac names := split; [intros [] [] E; (discriminate E || reflexivity)|by intros []].

#[export] Instance side_field : Field sideToString seen_side name_char.
Proof. names. Qed.
#[export] Instance request_field : Field clientRequestTypeToString seen_request name_char.
Proof. names. Qed.
#[export] Instance response_field : Field clientResponseTypeToString seen_response name_char.
Proof. names. Qed.
#[export] Instance update_field : Field marketUpdateTypeToString seen_update name_char.
Proof. names. Qed.
#[export] Instance state_field : Field OMOrderStateToString id name_char.
Proof. names. Qed.

(** ** Texts *)

(** A text shows [seen] of a value, and its end can be found. *)
Class Readable {A : Type} (text : A -> string) (seen : A -> A) : Prop := {
  read_text x y r r' : text x +:+ r = text y +:+ r' -> seen x = seen y /\ r = r';
  seen_text x : text (seen x) = text x
}.

Lemma read_iff {A text seen} `{!@Readable A text seen} x y r r' :
  text x +:+ r = text y +:+ r' <-> seen x = seen y /\ r = r'.
Proof.
  split; [apply read_text|]. intros [E ->]. by rewrite <- (seen_text x), E, seen_text.
Qed.

#[export] Instance string_inj c : Inj (=) (=) (String c).
Proof. by intros s s' [= ->]. Qed.

(** Removes what two equal texts begin with: a literal, a field or a text. *)
Ltac read1 H :=
  lazymatch type of H with
  | String _ _ = String _ _ => apply (inj (String _)) in H
  | ?l +:+ _ = ?l +:+ _ => apply (inj (String.append l)) in H
  | _ => let E := fresh "E" in
      first [apply field_read in H as [E H]; [|reflexivity] | apply read_text in H as [E H]]
  end.
Ltac read H := rewrite ?append_assoc in H; repeat read1 H; unfold id in *.

Definition shown_request (r : MEClientRequest) : MEClientRequest :=
  mkRequest (seen_request (rq_type r)) (rq_client_id r) (rq_ticker_id r) (rq_order_id r) (seen_side (rq_side r))
    (rq_price r) (rq_qty r) 0 0.
Definition shown_response (r : MEClientResponse) : MEClientResponse :=
  mkResponse (seen_response (rs_type r)) (rs_client_id r) (rs_ticker_id r) (rs_client_order_id r)
    (rs_market_order_id r) (seen_side (rs_side r)) (rs_price r) (rs_exec_qty r) (rs_leaves_qty r)
    (RejectReason_of_Z (RejectReason_to_Z (rs_reject_reason r))) 0 0.
Definition shown_update (u : MEMarketUpdate) : MEMarketUpdate :=
  mkUpdate (seen_update (mu_type u)) (mu_order_id u) (mu_ticker_id u) (seen_side (mu_side u)) (mu_price u)
    (mu_qty u) (mu_priority u).
Definition shown_om_request (m : OMClientRequest) : OMClientRequest :=
  mkOMRequest (omrq_seq_num m) (shown_request (omrq_request m)) 0.
Definition shown_om_response (m : OMClientResponse) : OMClientResponse :=
  mkOMResponse (omrs_seq_num m) (shown_response (omrs_response m)) 0.
Definition shown_mdp (m : MDPMarketUpdate) : MDPMarketUpdate :=
  mkMDP (mdp_seq_num m) (shown_update (mdp_update m)) 0 0 0.
Definition shown_order (o : OMOrder) : OMOrder :=
  mkOMOrder (om_ticker_id o) (om_order_id o) (seen_side (om_side o)) (om_price o) (om_qty o) (om_state o).

#[export] Instance request_readable : Readable MEClientRequest_toString shown_request.
Proof.
  split; unfold MEClientRequest_toString, shown_request.
  - intros x y r r' H. read H. split; [congruence|done].
  - intros x. cbn. by destruct (rq_type x), (rq_side x).
Qed.

#[export] Instance response_readable : Readable MEClientResponse_toString shown_response.
Proof.
  split; unfold MEClientResponse_toString, shown_response.
  - intros x y r r' H. read H. split; [congruence|done].
  - intros x. cbn. rewrite RejectReason_to_of. by destruct (rs_type x), (rs_side x).
Qed.

#[export] Instance update_readable : Readable MEMarketUpdate_toString shown_update.
Proof.
  split; unfold MEMarketUpdate_toString, shown_update.
  - intros x y r r' H. read H. split; [congruence|done].
  - intros x. cbn. by destruct (mu_type x), (mu_side x).
Qed.

#[export] Instance om_request_readable : Readable OMClientRequest_toString shown_om_request.
Proof.
  split; unfold OMClientRequest_toString, shown_om_request.
  - intros x y r r' H. read H. split; [congruence|done].
  - intros x. cbn. by rewrite (seen_text (text := MEClientRequest_toString)).
Qed.

#[export] Instance om_response_readable : Readable OMClientResponse_toString shown_om_response.
Proof.
  split; unfold OMClientResponse_toString, shown_om_response.
  - intros x y r r' H. read H. split; [congruence|done].
  - intros x. cbn. by rewrite (seen_text (text := MEClientResponse_toString)).
Qed.

#[export] Instance mdp_readable : Readable MDPMarketUpdate_toString shown_mdp.
Proof.
  split; unfold MDPMarketUpdate_toString, shown_mdp.
  - intros x y r r' H. read H. split; [congruence|done].
  - intros x. cbn. by rewrite (seen_text (text := MEMarketUpdate_toString)).
Qed.

#[export] Instance om_order_readable : Readable OMOrder_toString shown_order.
Proof.
  split; unfold OMOrder_toString, shown_order.
  - intros x y r r' H. read H. split; [congruence|done].
  - intros x. cbn. by destruct (om_side x).
Qed.

#[export] Instance bbo_readable : Readable BBO_toString id.
Proof.
  split; unfold BBO_toString; [|done].
  intros [] [] r r' H. cbn in H. read H. cbn in *. split; [congruence|done].
Qed.

(** *** Orders and levels of the books *)
Definition shown_me_order (o : MEOrder) : MEOrder :=
  mkOrder (o_ticker_id o) (o_client_id o) (o_client_order_id o) (o_market_order_id o) (seen_side (o_side o))
    (o_price o) (o_qty o) (o_priority o) None None.
Definition shown_market_order (o : MarketOrder) : MarketOrder :=
  mkMarketOrder (mo_order_id o) (seen_side (mo_side o)) (mo_price o) (mo_qty o) (mo_priority o) None None.

(** An order with the identifiers of its neighbours in the queue. *)
Definition me_order_in (pool : MemPool MEOrder) (o : MEOrder) : res (MEOrder * Z * Z) :=
  prev ← link_id pool (o_prev o); next ← link_id pool (o_next o); Ok (shown_me_order o, prev, next).
Definition market_order_in (pool : MemPool MarketOrder) (o : MarketOrder) : res (MarketOrder * Z * Z) :=
  prev ← link_id pool (mo_prev o); next ← link_id pool (mo_next o); Ok (shown_market_order o, prev, next).

(** A text shows what [seen] finds of a node in its pool, and its end can be
    found; no text begins as the text of a null pointer. *)
Class ReadableIn {Node B} (text : MemPool Node -> Node -> res string) (seen : MemPool Node -> Node -> res B) : Prop := {
  read_in pool pool' x y t t' r r' : text pool x = Ok t -> text pool' y = Ok t' -> t +:+ r = t' +:+ r' ->
    seen pool x = seen pool' y /\ t = t' /\ r = r';
  same_text pool pool' x y : seen pool x = seen pool' y -> text pool x = text pool' y;
  not_null pool x t : text pool x = Ok t -> exists s, t = String "M" s
}.

Lemma read_in_iff {Node B text seen} `{!@ReadableIn Node B text seen} pool pool' x y t t' r r' :
  text pool x = Ok t -> text pool' y = Ok t' ->
  t +:+ r = t' +:+ r' <-> seen pool x = seen pool' y /\ r = r'.
Proof.
  intros Hx Hy. split.
  - intros E. by destruct (read_in _ _ _ _ _ _ _ _ Hx Hy E) as (? & _ & ?).
  - intros [E%same_text ->]. rewrite Hx, Hy in E. by injection E as ->.
Qed.

Lemma seen_side_text s s' : seen_side s = seen_side s' -> sideToString s = sideToString s'.
Proof. by destruct s, s'. Qed.

(** Opens the neighbours of two nodes. *)
Ltac neighbours H :=
  let p := fresh "p" in let n := fresh "n" in let Hp := fresh "Hp" in let Hn := fresh "Hn" in
  apply bind_Ok in H as (p & Hp & H); apply bind_Ok in H as (n & Hn & [= <-]); try rewrite Hp, Hn.

#[export] Instance me_order_readable : ReadableIn MEOrder_toString me_order_in.
Proof.
  unfold MEOrder_toString, me_order_in. split.
  - intros pool pool' x y t t' r r' Hx Hy H. neighbours Hx. neighbours Hy. read H. cbn.
    unfold shown_me_order.
    match goal with E : seen_side _ = seen_side _ |- _ => rewrite (seen_side_text _ _ E) end. split_and!; congruence.
  - intros pool pool' x y. destruct (link_id pool (o_prev x)), (link_id pool' (o_prev y)); try (by intros [=]);
      cbn; destruct (link_id pool (o_next x)), (link_id pool' (o_next y)); try (by intros [=]); cbn.
    all: intros [=]; try congruence.
    match goal with E : seen_side _ = seen_side _ |- _ => rewrite (seen_side_text _ _ E) end. congruence.
  - intros pool x t Hx. neighbours Hx. by eexists.
Qed.

#[export] Instance market_order_readable : ReadableIn MarketOrder_toString market_order_in.
Proof.
  unfold MarketOrder_toString, market_order_in. split.
  - intros pool pool' x y t t' r r' Hx Hy H. neighbours Hx. neighbours Hy. read H. cbn.
    unfold shown_market_order.
    match goal with E : seen_side _ = seen_side _ |- _ => rewrite (seen_side_text _ _ E) end. split_and!; congruence.
  - intros pool pool' x y. destruct (link_id pool (mo_prev x)), (link_id pool' (mo_prev y)); try (by intros [=]);
      cbn; destruct (link_id pool (mo_next x)), (link_id pool' (mo_next y)); try (by intros [=]); cbn.
    all: intros [=]; try congruence.
    match goal with E : seen_side _ = seen_side _ |- _ => rewrite (seen_side_text _ _ E) end. congruence.
  - intros pool x t Hx. neighbours Hx. by eexists.
Qed.

Lemma me_order_text pool pool' x y t t' r r' :
  MEOrder_toString pool x = Ok t -> MEOrder_toString pool' y = Ok t' ->
  t +:+ r = t' +:+ r' <->
  shown_me_order x = shown_me_order y /\ link_id pool (o_prev x) = link_id pool' (o_prev y) /\
  link_id pool (o_next x) = link_id pool' (o_next y) /\ r = r'.
Proof.
  intros Hx Hy. rewrite (read_in_iff _ _ _ _ _ _ r r' Hx Hy). unfold me_order_in.
  unfold MEOrder_toString in *. neighbours Hx. neighbours Hy. cbn.
  split; [intros [E ->]|intros (? & ? & ? & ->)]; split_and!; congruence.
Qed.

Lemma market_order_text pool pool' x y t t' r r' :
  MarketOrder_toString pool x = Ok t -> MarketOrder_toString pool' y = Ok t' ->
  t +:+ r = t' +:+ r' <->
  shown_market_order x = shown_market_order y /\ link_id pool (mo_prev x) = link_id pool' (mo_prev y) /\
  link_id pool (mo_next x) = link_id pool' (mo_next y) /\ r = r'.
Proof.
  intros Hx Hy. rewrite (read_in_iff _ _ _ _ _ _ r r' Hx Hy). unfold market_order_in.
  unfold MarketOrder_toString in *. neighbours Hx. neighbours Hy. cbn.
  split; [intros [E ->]|intros (? & ? & ? & ->)]; split_and!; congruence.
Qed.

(** The first order of a level, with its neighbours. *)
Definition first_order {Node B} (seen : MemPool Node -> Node -> res B) (b : Levels Node) (v : Level) : option (res B) :=
  p ← lv_first v; Some (o ← load (lv_orders b) p; seen (lv_orders b) o).

Section LevelText.
Context {Node B : Type} (label first_label : string).
Context (order_text : MemPool Node -> Node -> res string) (seen : MemPool Node -> Node -> res B).
Context `{!ReadableIn order_text seen}.

(** What the text of a level shows of its first order. *)
Definition first_text (b : Levels Node) (v : Level) : res string :=
  match lv_first v with
  | None => Ok "null"
  | Some p => o ← load (lv_orders b) p; order_text (lv_orders b) o
  end.

Lemma first_read b b' v v' f f' r r' :
  first_text b v = Ok f -> first_text b' v' = Ok f' -> f +:+ r = f' +:+ r' ->
  f = f' /\ r = r' /\ first_order seen b v = first_order seen b' v'.
Proof.
  unfold first_text, first_order. intros Hf Hf' H.
  destruct (lv_first v) as [q|], (lv_first v') as [q'|]; cbn.
  - apply bind_Ok in Hf as (o & -> & Ho), Hf' as (o' & -> & Ho'). cbn.
    by destruct (read_in _ _ _ _ _ _ _ _ Ho Ho' H) as (-> & -> & ->).
  - apply bind_Ok in Hf as (o & _ & Ho). injection Hf' as <-. destruct (not_null _ _ _ Ho) as [s ->]. discriminate H.
  - apply bind_Ok in Hf' as (o & _ & Ho). injection Hf as <-. destruct (not_null _ _ _ Ho) as [s ->]. discriminate H.
  - injection Hf as <-. injection Hf' as <-. split_and!; [done| |done]. by repeat read1 H.
Qed.

Lemma first_same b b' v v' f f' :
  first_text b v = Ok f -> first_text b' v' = Ok f' ->
  first_order seen b v = first_order seen b' v' -> f = f'.
Proof.
  unfold first_text, first_order. intros Hf Hf' H.
  destruct (lv_first v) as [q|], (lv_first v') as [q'|]; cbn in *; [|done..|congruence].
  apply bind_Ok in Hf as (o & Eo & Ho), Hf' as (o' & Eo' & Ho'). rewrite Eo, Eo' in H. cbn in H.
  injection H as H%same_text. congruence.
Qed.

Lemma level_read b b' v v' t t' r r' :
  level_text label first_label order_text b v = Ok t -> level_text label first_label order_text b' v' = Ok t' ->
  t +:+ r = t' +:+ r' <->
  seen_side (lv_side v) = seen_side (lv_side v') /\ lv_price v = lv_price v' /\
  first_order seen b v = first_order seen b' v' /\
  link_price (lv_levels b) (lv_prev v) = link_price (lv_levels b') (lv_prev v') /\
  link_price (lv_levels b) (lv_next v) = link_price (lv_levels b') (lv_next v') /\ r = r'.
Proof.
  intros (f & Hf & H1)%bind_Ok (f' & Hf' & H1')%bind_Ok.
  neighbours H1. neighbours H1'.
  change (first_text b v = Ok f) in Hf. change (first_text b' v' = Ok f') in Hf'. split.
  - intros H. rewrite ?append_assoc in H. repeat read1 H.
    destruct (first_read _ _ _ _ _ _ _ _ Hf Hf' H) as (-> & H' & Hfirst). clear H. repeat read1 H'. unfold id in *.
    split_and!; congruence.
  - intros (Es & -> & Hfirst & [= ->] & [= ->] & ->).
    by rewrite (seen_side_text _ _ Es), (first_same _ _ _ _ _ _ Hf Hf' Hfirst).
Qed.
End LevelText.

(** C40: the diagnostic texts form a prefix code.  The texts of two messages of
    a kind, whatever follows them in a log line, are alike exactly when they show
    the same message (up to the session fields, the identifiers of responses and
    the values of enumerations that have no name) and what follows is the same.
    The texts of two orders of books are alike exactly when every field of the
    orders is the same and their neighbours in the queue are the same orders; the
    texts of two price levels, when the side, the price and the prices of the
    neighbouring levels are the same, and so is the first order, with its
    neighbours. *)
Theorem message_text_is_faithful :
  (forall x y r r', MEClientRequest_toString x +:+ r = MEClientRequest_toString y +:+ r' <->
     shown_request x = shown_request y /\ r = r') /\
  (forall x y r r', OMClientRequest_toString x +:+ r = OMClientRequest_toString y +:+ r' <->
     shown_om_request x = shown_om_request y /\ r = r') /\
  (forall x y r r', MEClientResponse_toString x +:+ r = MEClientResponse_toString y +:+ r' <->
     shown_response x = shown_response y /\ r = r') /\
  (forall x y r r', OMClientResponse_toString x +:+ r = OMClientResponse_toString y +:+ r' <->
     shown_om_response x = shown_om_response y /\ r = r') /\
  (forall x y r r', MEMarketUpdate_toString x +:+ r = MEMarketUpdate_toString y +:+ r' <->
     shown_update x = shown_update y /\ r = r') /\
  (forall x y r r', MDPMarketUpdate_toString x +:+ r = MDPMarketUpdate_toString y +:+ r' <->
     shown_mdp x = shown_mdp y /\ r = r') /\
  (forall x y r r', OMOrder_toString x +:+ r = OMOrder_toString y +:+ r' <-> shown_order x = shown_order y /\ r = r') /\
  (forall x y r r', BBO_toString x +:+ r = BBO_toString y +:+ r' <-> x = y /\ r = r') /\
  (forall pool pool' x y t t' r r', MEOrder_toString pool x = Ok t -> MEOrder_toString pool' y = Ok t' ->
     t +:+ r = t' +:+ r' <->
     shown_me_order x = shown_me_order y /\ link_id pool (o_prev x) = link_id pool' (o_prev y) /\
     link_id pool (o_next x) = link_id pool' (o_next y) /\ r = r') /\
  (forall pool pool' x y t t' r r', MarketOrder_toString pool x = Ok t -> MarketOrder_toString pool' y = Ok t' ->
     t +:+ r = t' +:+ r' <->
     shown_market_order x = shown_market_order y /\ link_id pool (mo_prev x) = link_id pool' (mo_prev y) /\
     link_id pool (mo_next x) = link_id pool' (mo_next y) /\ r = r') /\
  (forall b b' v v' t t' r r', MEOrdersAtPrice_toString b v = Ok t -> MEOrdersAtPrice_toString b' v' = Ok t' ->
     t +:+ r = t' +:+ r' <->
     seen_side (lv_side v) = seen_side (lv_side v') /\ lv_price v = lv_price v' /\
     first_order me_order_in b v = first_order me_order_in b' v' /\
     link_price (lv_levels b) (lv_prev v) = link_price (lv_levels b') (lv_prev v') /\
     link_price (lv_levels b) (lv_next v) = link_price (lv_levels b') (lv_next v') /\ r = r') /\
  (forall b b' v v' t t' r r', MarketOrdersAtPrice_toString b v = Ok t -> MarketOrdersAtPrice_toString b' v' = Ok t' ->
     t +:+ r = t' +:+ r' <->
     seen_side (lv_side v) = seen_side (lv_side v') /\ lv_price v = lv_price v' /\
     first_order market_order_in b v = first_order market_order_in b' v' /\
     link_price (lv_levels b) (lv_prev v) = link_price (lv_levels b') (lv_prev v') /\
     link_price (lv_levels b) (lv_next v) = link_price (lv_levels b') (lv_next v') /\ r = r').
Proof.
  split_and!; try (intros; apply read_iff).
  - intros x y r r'. exact (read_iff (seen := id) x y r r').
  - intros pool pool' x y t t' r r' Hx Hy. by apply me_order_text.
  - intros pool pool' x y t t' r r' Hx Hy. by apply market_order_text.
  - intros b b' v v' t t' r r'. apply level_read, me_order_readable.
  - intros b b' v v' t t' r r'. apply level_read, market_order_readable.
Qed.

(** A level with one order, the same level in another place of another pool, and
    two requests that differ in their session. *)
Definition text_order (qty at_block : Z) : MEOrder := mkOrder 1 3 42 7 BUY 100 qty 1 (Some at_block) (Some at_block).
Definition text_level (at_block first : Z) : Level := mkLevel BUY 100 (Some first) (Some at_block) (Some at_block).
Definition text_book (block first : Z) : Levels MEOrder :=
  mkLevels (mkPool 8 {[first := text_order 5 first]} []) (mkPool 8 {[block := text_level block first]} []) ∅ (Some block) None.

Lemma message_text_is_faithful_witness :
  (exists t t', MEOrder_toString (lv_orders (text_book 0 0)) (text_order 5 0) = Ok t /\
     MEOrder_toString (lv_orders (text_book 0 0)) (text_order 6 0) = Ok t' /\ t <> t') /\
  first_order me_order_in (text_book 0 0) (text_level 0 0) = first_order me_order_in (text_book 2 3) (text_level 2 3) /\
  MEClientRequest_toString (mkRequest NEW 3 0 42 BUY 100 Qty_INVALID 77 1) +:+ " sent" =
    MEClientRequest_toString (mkRequest NEW 3 0 42 BUY 100 Qty_INVALID 78 9) +:+ " sent".
Proof.
  assert (Ht : MEOrdersAtPrice_toString (text_book 0 0) (text_level 0 0) =
    Ok ("MEOrdersAtPrice[side:BUY price:100 first_me_order:MEOrder[ticker:1 cid:3 oid:42 moid:7 side:BUY price:100 "
        +:+ "qty:5 prio:1 prev:7 next:7] prev:100 next:100]")) by (vm_compute; reflexivity).
  assert (Ht' : MEOrdersAtPrice_toString (text_book 2 3) (text_level 2 3) =
    MEOrdersAtPrice_toString (text_book 0 0) (text_level 0 0)) by (vm_compute; reflexivity).
  rewrite Ht in Ht'. destruct message_text_is_faithful as (H1 & _ & _ & _ & _ & _ & _ & _ & H9 & _ & H11 & _).
  destruct (MEOrder_toString (lv_orders (text_book 0 0)) (text_order 5 0)) as [t|] eqn:Ex; [|by vm_compute in Ex].
  destruct (MEOrder_toString (lv_orders (text_book 0 0)) (text_order 6 0)) as [t'|] eqn:Ey;
    [|by vm_compute in Ey].
  split_and!; [|by apply (H11 _ _ _ _ _ _ EmptyString EmptyString Ht Ht')|by apply H1].
  exists t, t'. split; [done|]. split; [done|]. intros <-.
  destruct (proj1 (H9 _ _ _ _ _ _ EmptyString EmptyString Ex Ey) eq_refl) as [E _]. discriminate E.
Defined.

(** The text of a position shows the volume only up to a multiple of 2^32, and shows
    some volumes as invalid. *)
Lemma volume_text_wraps p v :
  volume_text (mkPosition (position p) (real_pnl p) (unreal_pnl p) (total_pnl p) (open_vwap p) (volume p + 2 ^ 32 * v)) =
  volume_text p /\
  volume_text (mkPosition (position p) (real_pnl p) (unreal_pnl p) (total_pnl p) (open_vwap p) (2 ^ 33 - 1)) =
  " vol:INVALID".
Proof.
  split; [|done]. unfold volume_text. cbn [volume]. do 2 f_equal. unfold u32.
  by rewrite Z.mul_comm, Z.mod_add.
Qed.
