(* ===== verification/ExchangeMarket.v ===== *)
(** The exchange's market data: the matching engine, the publisher and the
    snapshot synthesizer with the queues that connect them, as
    exchange/exchange_main.cpp and the publisher's constructor put them
    together.

    The three threads take turns: the engine serves a request, the publisher
    and the synthesizer run one iteration of their loops.  A queue that two
    components share is handed over after every turn. *)
From S2P Require Import Prelude.
From S2P Require Import Types.
From S2P Require Import Wire.
From S2P Require Import MemPool.
From S2P Require Import MatchBook.
From S2P Require Import BookSpec.
From S2P Require Import BookRefinement.
From S2P Require Import BookInvariant.
From S2P Require Import BookTheorems.
From S2P Require Import LFQueue.
From S2P Require Import Journal.
From S2P Require Import MatchingEngine.
From S2P Require Import MarketView.
From S2P Require Import BookHash.
From S2P Require Import McastSocket.
From S2P Require Import Snapshot.
From S2P Require Import Publisher.
From S2P Require Import ClientFollows.
From S2P Require Import MarketRecovery.
From S2P Require Import RecoveryTheorems.
From S2P Require Import RecoveryProgress.
From S2P Require Import MarketHistory.
From stdpp Require Import base gmap list.
From Stdlib Require Import ZArith Lia.

Local Open Scope Z_scope.

Record ExchangeMarket : Type := mkExchangeMarket {
  xm_engine : MatchingEngine;
  xm_publisher : MarketDataPublisher;
  xm_synth : SnapshotSynthesizer
}.

(** A turn of one of the threads; the responses are taken by the order
    server.  The synthesizer reads its clock twice. *)
Inductive MarketOp : Type :=
  | ServeRequest (r : MEClientRequest)
  | TakeResponse
  | RunPublisher
  | RunSynthesizer (now now' : Z).

Module ExchangeMarket.

(** The queue of the engine's updates, and the queue between the publisher
    and its synthesizer. *)
Definition with_updates (q : LFQueue MEMarketUpdate) (e : MatchingEngine) : MatchingEngine :=
  mkEngine (me_books e) (me_requests e) (me_responses e) q (me_next_response_id e)
    (me_response_count e) (me_positions e) (me_audit e).
Definition with_responses (q : LFQueue MEClientResponse) (e : MatchingEngine) : MatchingEngine :=
  mkEngine (me_books e) (me_requests e) q (me_updates e) (me_next_response_id e)
    (me_response_count e) (me_positions e) (me_audit e).
Definition with_outgoing (q : LFQueue MEMarketUpdate) (p : MarketDataPublisher) : MarketDataPublisher :=
  mkPublisher (pb_next_inc_seq_num p) q (pb_snapshot_updates p) (pb_socket p).
Definition with_forwarded (q : LFQueue MDPMarketUpdate) (p : MarketDataPublisher) : MarketDataPublisher :=
  mkPublisher (pb_next_inc_seq_num p) (pb_outgoing p) q (pb_socket p).
Definition with_synth_updates (q : LFQueue MDPMarketUpdate) (s : SnapshotSynthesizer) : SnapshotSynthesizer :=
  mkSynth q (sn_socket s) (sn_orders s) (sn_last_inc_seq_num s) (sn_snapshot_cycle s)
    (sn_last_snapshot_time s) (sn_pool s).

(** The construction, for books, pools and queues of any size; [cycle] is the
    time at which the synthesizer is created. *)
Definition make_sized (orders levels pool queue cycle : Z) (requests : LFQueue MEClientRequest)
    (responses : LFQueue MEClientResponse) (updates : LFQueue MEMarketUpdate)
    (audit : option CriticalJournal) : option ExchangeMarket :=
  e ← MatchingEngine.make_sized orders levels requests responses updates audit;
  p ← MarketDataPublisher.make_sized queue updates;
  s ← SnapshotSynthesizer.make_sized pool (pb_snapshot_updates p) cycle;
  Some (mkExchangeMarket e p s).
Definition make (cycle : Z) := make_sized ME_MAX_ORDER_IDS ME_MAX_PRICE_LEVELS ME_MAX_ORDER_IDS
  ME_MAX_MARKET_UPDATES cycle.

Section Network.
Context (publisher_kernel synth_kernel : Kernel) (period : Z).

Definition step (x : ExchangeMarket) (op : MarketOp) : res ExchangeMarket :=
  match op with
  | ServeRequest r =>
      e ← MatchingEngine.processClientRequest r (xm_engine x);
      Ok (mkExchangeMarket e (with_outgoing (me_updates e) (xm_publisher x)) (xm_synth x))
  | TakeResponse =>
      '(_, q) ← try_pop (me_responses (xm_engine x));
      Ok (mkExchangeMarket (with_responses q (xm_engine x)) (xm_publisher x) (xm_synth x))
  | RunPublisher =>
      p ← MarketDataPublisher.run_iteration publisher_kernel (xm_publisher x);
      Ok (mkExchangeMarket (with_updates (pb_outgoing p) (xm_engine x)) p
            (with_synth_updates (pb_snapshot_updates p) (xm_synth x)))
  | RunSynthesizer now now' =>
      s ← SnapshotSynthesizer.run_iteration synth_kernel period now now' (xm_synth x);
      Ok (mkExchangeMarket (xm_engine x) (with_forwarded (sn_updates s) (xm_publisher x)) s)
  end.

Definition run (ops : list MarketOp) (x : ExchangeMarket) : res ExchangeMarket := res_fold step ops x.
End Network.
End ExchangeMarket.

(** Requests as the decoder delivers them. *)
Definition market_op_wf (op : MarketOp) : Prop :=
  match op with
  | ServeRequest r => request_wf r
  | _ => True
  end.

Section Market.
Context (orders levels : Z) (Horders : 0 <= orders) (Hlevels : 0 <= levels).

Notation history := (history orders levels).

(** ** The engine's books and the history *)
Record books_follow (e : MatchingEngine) (views : list View) : Prop := {
  bf_length : length (me_books e) = Z.to_nat ME_MAX_TICKERS;
  bf_books i b : me_books e !! i = Some b ->
    bk_events b = [] /\ bk_ticker_id b = Z.of_nat i /\
    exists a G, refines b a G /\ book_wf a /\ typed_orders (all_orders a) /\
      a_order_capacity a = orders /\ a_level_capacity a = levels /\ views !! i = Some (view a)
}.

(** What a call of the engine adds. *)
Record served (e' : MatchingEngine) (us : list MEMarketUpdate) (w : list MEMarketUpdate)
    (new : list MEMarketUpdate) (views' : list View) : Prop := {
  sv_history : history (us ++ new) views';
  sv_books : books_follow e' views';
  sv_responses : exists l, queue_ok (me_responses e') l;
  sv_updates : queue_ok (me_updates e') (w ++ new);
  sv_length : Z.of_nat (length new) <= 2 * orders + 1
}.

(** The updates of one operation of a book, in the history. *)
Lemma book_history op us views a i :
  history us views -> views !! i = Some (view a) -> book_wf a -> typed_orders (all_orders a) ->
  a_order_capacity a = orders -> a_level_capacity a = levels -> a_ticker_id a = Z.of_nat i ->
  op_wf op -> op_typed op ->
  let a' := fst (spec_step op a) in
  let new := updates_of (snd (spec_step op a)) in
  history (us ++ new) (<[i := view a']> views) /\ typed_orders (all_orders a') /\
  Z.of_nat (length new) <= 2 * orders + 1.
Proof.
  intros H Hv W Hty EA EL ET Hop Htop. cbv zeta.
  assert (Ht : 0 <= a_ticker_id a < ME_MAX_TICKERS).
  { apply lookup_lt_Some in Hv. rewrite (history_length _ _ _ _ H) in Hv. lia. }
  destruct (step_updates_ok op a W Hty Hop Htop Ht) as [Hnew Hlen].
  destruct (step_follows op a W Hop) as [Hpub Hfit]. rewrite EA, EL in Hfit. rewrite EA in Hlen.
  pose proof (step_replay op a W Hop) as Hrep. pose proof (spec_step_wf op a W Hop) as W'.
  destruct (spec_step_capacity op a) as (_ & _ & ET'). rewrite <- ET' in Ht.
  split; [|split; [|exact Hlen]].
  - eapply history_extend; [done|done|exact H|exact Hv| |exact Hrep|exact Hfit].
    rewrite Forall_forall in Hnew, Hpub. apply Forall_forall. intros u Hu. split; [by apply Hnew|].
    destruct (Hpub u Hu) as [-> _]. exact ET.
  - apply (view_typed _ W' Ht). eapply apply_all_wf; [|apply (view_typed a W); [by rewrite <- ET'|exact Hty]|exact Hrep].
    eapply Forall_impl; [exact Hnew|]. by intros u [].
Qed.

Lemma with_book_served e i op us views l w :
  books_follow e views -> history us views -> 0 <= i < ME_MAX_TICKERS -> op_wf op -> op_typed op ->
  queue_ok (me_responses e) l -> queue_ok (me_updates e) w ->
  match MatchingEngine.with_book i (book_step op) e with
  | Ok e' => exists new views', served e' us w new views'
  | Err f => f = AssertFailed
  end.
Proof.
  intros [Hlen Hbooks] H Hi Hop Htop Hr Hu.
  destruct (lookup_lt_is_Some_2 (me_books e) (Z.to_nat i)) as [b Hb]; [lia|].
  destruct (Hbooks _ _ Hb) as (Hev & Htk & a & G & R & W & Hty & EA & EL & Hv).
  assert (ET : a_ticker_id a = Z.of_nat (Z.to_nat i)) by (by rewrite <- (rf_ticker _ _ _ R)).
  destruct (book_history op us views a _ H Hv W Hty EA EL ET Hop Htop) as (Hh & Hty' & Hlen').
  pose proof (step_refines op b a G R W Hop) as Hstep. pose proof (spec_step_wf op a W Hop) as W'.
  destruct (spec_step_capacity op a) as (EA' & EL' & ET').
  unfold MatchingEngine.with_book. rewrite Hb. cbn [deref mbind res_bind].
  destruct (spec_step op a) as [a' evs]. destruct Hstep as (b' & G' & -> & R' & E'). rewrite Hev in E'.
  cbn [mbind res_bind fst snd app] in *. rewrite E'.
  pose proof (send_events_ok evs e l w Hr Hu) as Hsend.
  destruct (res_fold MatchingEngine.send_event evs e) as [e1|f]; cbn [mbind res_bind]; [|by destruct Hsend].
  destruct Hsend as (Hr' & Hu' & Hbs & _). exists (updates_of evs), (<[Z.to_nat i := view a']> views).
  split; [done| |by exists (l ++ stamped (me_next_response_id e) (me_positions e) evs)|done|done].
  split; cbn [me_books MatchingEngine.with_books]; rewrite Hbs; [by rewrite length_insert|].
  intros j x Hx. apply list_lookup_insert_Some in Hx as [(<- & <- & Hlt)|[Hne Hx]].
  - split; [done|]. split; [cbn; by rewrite (rf_ticker _ _ _ R'), ET', ET|].
    exists a', G'. split; [by destruct R'|]. rewrite EA', EL'. split_and!; try done.
    apply list_lookup_insert_eq. by eapply lookup_lt_Some.
  - rewrite list_lookup_insert_ne by done. by apply Hbooks.
Qed.

Lemma process_served e r us views l w :
  books_follow e views -> history us views -> request_wf r ->
  queue_ok (me_responses e) l -> queue_ok (me_updates e) w ->
  match MatchingEngine.processClientRequest r e with
  | Ok e' => exists new views', served e' us w new views'
  | Err f => f = AssertFailed
  end.
Proof.
  intros Hb H (_ & _ & Htid & _ & _ & Hprice & Hqty) Hr Hu.
  unfold MatchingEngine.processClientRequest. set (e0 := MatchingEngine.with_audit _ e).
  assert (Hb0 : books_follow e0 views) by (destruct Hb; by split).
  case_bool_decide as Hv; cbn [negb].
  - destruct (validate_cases r Hv) as (_ & Ht & _ & Htypes).
    assert (Hi : 0 <= rq_ticker_id r < ME_MAX_TICKERS) by (destruct Htid; lia).
    destruct Htypes as [E|[[E _]|[E _]]]; rewrite E.
    + exact (with_book_served e0 _ (OpQuery (rq_client_id r) (rq_order_id r)) us views l w Hb0 H Hi I I Hr Hu).
    + exact (with_book_served e0 _ (OpCancel (rq_client_id r) (rq_order_id r) (rq_ticker_id r)) us views l w
        Hb0 H Hi I I Hr Hu).
    + exact (with_book_served e0 _ (OpAdd (rq_client_id r) (rq_order_id r) (rq_ticker_id r) (rq_side r)
        (rq_price r) (rq_qty r)) us views l w Hb0 H Hi Hqty Hprice Hr Hu).
  - match goal with |- context [MatchingEngine.sendClientResponse ?x e0] =>
      pose proof (send_events_ok [Response x] e0 l w Hr Hu) as Hsend end.
    cbn [res_fold MatchingEngine.send_event] in Hsend.
    destruct (MatchingEngine.sendClientResponse _ e0) as [e1|f]; cbn [mbind res_bind] in Hsend; [|by destruct Hsend].
    destruct Hsend as (Hr' & Hu' & Hbs & _). exists [], views. cbn [updates_of] in Hu'.
    split; [by rewrite app_nil_r| |eauto|done|cbn; lia].
    destruct Hb0 as [H1 H2]. by split; rewrite Hbs.
Qed.

(** ** The synthesizer and the history *)

(** What [addToSnapshot] keeps of the state. *)
Record synth_frame (s s' : SnapshotSynthesizer) : Prop := {
  sf_socket : sn_socket s' = sn_socket s;
  sf_cycle : sn_snapshot_cycle s' = sn_snapshot_cycle s;
  sf_capacity : pool_capacity (sn_pool s') = pool_capacity (sn_pool s)
}.

#[local] Instance synth_frame_preorder : PreOrder synth_frame.
Proof. split; [by split|]. intros ??? [] []. split; congruence. Qed.

(** An ADD for which the pool has no order. *)
Lemma addToSnapshot_full s views u seq :
  synth_ok s views -> 0 <= mu_ticker_id u < ME_MAX_TICKERS -> mu_type u = MD_ADD ->
  pool_available (sn_pool s) = 0 ->
  fatal_or (λ _, False) (SnapshotSynthesizer.addToSnapshot (mkMDP seq u 0 0 0) s).
Proof.
  intros Hok Ht Ety E0. unfold SnapshotSynthesizer.addToSnapshot. cbn [mdp_update mdp_seq_num].
  rewrite (proj2 (Z.ltb_lt (mu_ticker_id u) _)) by apply Ht. cbn [ASSERT mbind res_bind].
  rewrite Ety. cbn [SnapshotSynthesizer.names_order].
  eapply ends_bind; [apply fatal_or_assert|]. intros _ _.
  destruct (lookup_lt_is_Some_2 (sn_orders s) (Z.to_nat (mu_ticker_id u))) as [o Ho].
  { rewrite (so_orders_length _ _ Hok). lia. }
  rewrite Ho. cbn [deref mbind res_bind].
  eapply (ends_bind (λ _, False)); [|by intros ? []].
  unfold SnapshotSynthesizer.apply_to_orders. rewrite Ety.
  eapply ends_bind; [apply fatal_or_assert|]. intros _ _. by rewrite allocate_none.
Qed.

Lemma addToSnapshot_total s views u views' seq :
  synth_ok s views -> update_ok u -> apply_ticker u views = Some views' ->
  seq = u64 (sn_last_inc_seq_num s + 1) ->
  fatal_or (λ s', synth_ok s' views' /\ sn_last_inc_seq_num s' = seq /\ sn_updates s' = sn_updates s /\
      synth_frame s s') (SnapshotSynthesizer.addToSnapshot (mkMDP seq u 0 0 0) s).
Proof.
  intros Hok Hu Ha Hseq. pose proof (so_available _ _ Hok) as Hav.
  destruct (decide (mu_type u = MD_ADD /\ pool_available (sn_pool s) = 0)) as [[Ety E0]|Hroom].
  - eapply ends_mono; [eapply addToSnapshot_full; [exact Hok|apply Hu|done|done]|by intros ? []].
  - destruct (addToSnapshot_ok s views u seq 0 0 0 views' Hok Ha)
      as (s' & -> & H1 & H2 & H3 & H4 & H5 & H6); [|done|by split_and!].
    intros Ety. assert (pool_available (sn_pool s) <> 0) by tauto. unfold pool_available in *. lia.
Qed.

Lemma increments_cons w u us : increments w (u :: us) = mkMDP (w + 1) u 0 0 0 :: increments (w + 1) us.
Proof. apply frames_from_cons. Qed.

(** The inner loop brings the synthesizer to the end of what was forwarded. *)
Lemma consume_follows fuel s views taken rest :
  history taken views -> synth_ok s views -> sn_last_inc_seq_num s = Z.of_nat (length taken) ->
  queue_ok (sn_updates s) (increments (Z.of_nat (length taken)) rest) ->
  (exists views', history (taken ++ rest) views') -> Z.of_nat (length (taken ++ rest)) < 2 ^ 64 ->
  (length rest <= fuel)%nat ->
  fatal_or (λ s', exists views', history (taken ++ rest) views' /\ synth_ok s' views' /\
      sn_last_inc_seq_num s' = Z.of_nat (length (taken ++ rest)) /\ queue_ok (sn_updates s') [] /\
      synth_frame s s') (SnapshotSynthesizer.consume fuel s).
Proof.
  revert s views taken rest. induction fuel as [|fuel IH];
    intros s views taken rest H Hok Hseq Hq [V HV] Hb Hf; (destruct rest as [|u rest]; [|]);
    cbn [SnapshotSynthesizer.consume]; rewrite (peek_ok _ _ Hq);
    rewrite ?increments_cons in Hq |- *; cbn [head mbind res_bind].
  1,3: rewrite app_nil_r; exists views; by split_and!.
  { cbn in Hf. lia. }
  rewrite cons_middle, app_assoc in HV |- *. rewrite cons_middle, app_assoc in Hb.
  destruct (history_prefix _ _ (taken ++ [u]) rest V HV) as [views1 H1].
  pose proof (history_snoc_inv _ _ _ _ _ H1) as (views0 & H0 & Hu & Ha & _).
  rewrite (history_unique _ _ _ _ _ H0 H) in Ha. rewrite !length_app in Hb. cbn [length] in Hb.
  pose proof (addToSnapshot_total s views u views1 (Z.of_nat (length taken) + 1) Hok Hu Ha) as Hadd.
  rewrite Hseq, u64_small in Hadd by lia. specialize (Hadd eq_refl).
  eapply ends_bind; [exact Hadd|]. cbn beta. intros s1 (Hok1 & Hseq1 & Hq1 & Hfr1).
  rewrite Hq1.
  destruct (pop_ok _ _ Hq) as (q & -> & Hq' & _). cbn [mbind res_bind].
  eapply ends_mono.
  - eapply (IH _ views1 (taken ++ [u]) rest H1); [by eapply synth_ok_transport|..].
    + cbn [sn_last_inc_seq_num]. rewrite Hseq1, length_app. cbn. lia.
    + cbn [sn_updates]. rewrite length_app. cbn [length].
      replace (Z.of_nat (length taken + 1)) with (Z.of_nat (length taken) + 1) by lia. exact Hq'.
    + by exists V.
    + rewrite !length_app. cbn [length]. lia.
    + cbn in Hf. lia.
  - cbn beta. intros s2 (views2 & H2 & Hok2 & Hseq2 & Hq2 & Hfr2). exists views2.
    split_and!; try done. etrans; [exact Hfr1|]. destruct Hfr2. by split.
Qed.

(** ** Published cycles *)

(** A cycle: its number, the updates before it and the books after them. *)
Record Cycle : Type := mkCycle {
  cy_number : Z;
  cy_updates : list MEMarketUpdate;
  cy_views : list View
}.

Definition cy_watermark (cy : Cycle) : Z := Z.of_nat (length (cy_updates cy)).

Definition frames_of_cycle (cy : Cycle) : list MDPMarketUpdate :=
  cycle_frames (cy_number cy) (cy_watermark cy) (bookHash (live_view (cy_views cy)))
    (cycle_events (cy_views cy) (cy_watermark cy)).

Lemma length_sorted_view m : length (sorted_view m) = size m.
Proof. unfold sorted_view. rewrite merge_sort_Permutation, length_fmap. apply length_map_to_list. Qed.

Lemma length_cycle_events views w :
  length views = Z.to_nat ME_MAX_TICKERS ->
  Z.of_nat (length (cycle_events views w)) = view_total views + 10.
Proof.
  intros Hl. change (Z.to_nat ME_MAX_TICKERS) with 8%nat in Hl.
  do 8 (destruct views as [|? views]; [done|]). destruct views; [|done].
  unfold cycle_events. change (seqZ 0 ME_MAX_TICKERS) with (Z.of_nat <$> seq 0 8).
  cbn [seq fmap list_fmap]. repeat (unfold mjoin; cbn [list_join length app]; rewrite ?length_app).
  rewrite !length_sorted_view, !Nat2Z.id.
  cbn [lookup list_lookup default from_option id view_total]. lia.
Qed.

Lemma publishSnapshot_frame kernel s s' :
  SnapshotSynthesizer.publishSnapshot kernel s = Ok s' ->
  sn_updates s' = sn_updates s /\ sn_pool s' = sn_pool s.
Proof.
  unfold SnapshotSynthesizer.publishSnapshot. intros H. res_inv.
  destruct x1 as [sq sock]. res_inv. destruct x1 as [r sock']. injection H as <-. done.
Qed.

(** The iteration of the synthesizer: it catches up, and when the period is
    over it publishes a cycle. *)
Lemma synthesizer_iteration kernel period now now' s views taken rest frames :
  history taken views -> synth_ok s views -> sn_last_inc_seq_num s = Z.of_nat (length taken) ->
  queue_ok (sn_updates s) (increments (Z.of_nat (length taken)) rest) ->
  (exists views', history (taken ++ rest) views') -> Z.of_nat (length (taken ++ rest)) < 2 ^ 64 ->
  McastSocket.mc_ok (sn_socket s) frames -> 0 <= sn_snapshot_cycle s < 2 ^ 64 - 1 ->
  pool_capacity (sn_pool s) < 2 ^ 32 ->
  fatal_or (λ s', exists views', history (taken ++ rest) views' /\ synth_ok s' views' /\
      sn_last_inc_seq_num s' = Z.of_nat (length (taken ++ rest)) /\ queue_ok (sn_updates s') [] /\
      pool_capacity (sn_pool s') = pool_capacity (sn_pool s) /\
      (sn_snapshot_cycle s' = sn_snapshot_cycle s /\ McastSocket.mc_ok (sn_socket s') frames \/
       sn_snapshot_cycle s' = sn_snapshot_cycle s + 1 /\
       McastSocket.mc_ok (sn_socket s') (frames ++ (encode_market <$>
         frames_of_cycle (mkCycle (sn_snapshot_cycle s + 1) (taken ++ rest) views')))))
    (SnapshotSynthesizer.run_iteration kernel period now now' s).
Proof.
  intros H Hok Hseq Hq HV Hb Hmc Hcy Hcap. unfold SnapshotSynthesizer.run_iteration.
  eapply ends_bind.
  { apply (consume_follows _ s views taken rest H Hok Hseq Hq HV Hb).
    rewrite (queue_size_ok _ _ Hq). unfold increments. rewrite length_frames_from. lia. }
  cbn beta. intros s1 (views1 & H1 & Hok1 & Hseq1 & Hq1 & [Esock Ecy Ecap]).
  destruct (period <? _).
  2:{ exists views1. rewrite Ecap, Ecy. split_and!; try done. left. by rewrite Esock. }
  set (s2 := mkSynth _ _ _ _ _ _ _).
  assert (Hok2 : synth_ok s2 views1) by (by eapply synth_ok_transport).
  pose proof (publishSnapshot_ok kernel s2 views1 frames Hok2) as Hp. cbn [s2 sn_socket] in Hp. rewrite Esock in Hp.
  specialize (Hp Hmc). fold s2 in Hp.
  destruct (SnapshotSynthesizer.publishSnapshot kernel s2) as [s3|f] eqn:Ep; [|by destruct Hp].
  destruct Hp as (Hmc3 & Hok3 & Hcy3 & Hseq3). destruct (publishSnapshot_frame _ _ _ Ep) as [Eq3 Epool].
  cbn [s2 sn_snapshot_cycle sn_last_inc_seq_num sn_updates sn_pool] in *.
  rewrite Ecy, u64_small in Hmc3, Hcy3 by lia.
  exists views1. rewrite Hseq3, Eq3, Epool, Ecap. split_and!; try done. right. split; [done|].
  unfold frames_of_cycle, cycle_frames, cy_watermark. cbn [cy_number cy_updates cy_views].
  rewrite frames_from_wire, <- Hseq1; [exact Hmc3|done|].
  rewrite length_cycle_events by (by eapply history_length).
  pose proof (so_available _ _ Hok1) as Hav. unfold pool_available in Hav. lia.
Qed.

(** ** The invariant *)

(** Where the updates are: those that the synthesizer has taken, those
    forwarded to it, those that the publisher has not sent yet; and the cycles
    published. *)
Record Feed : Type := mkFeed {
  fd_taken : list MEMarketUpdate;
  fd_rest : list MEMarketUpdate;
  fd_waiting : list MEMarketUpdate;
  fd_cycles : list Cycle
}.

Definition fd_sent (g : Feed) : list MEMarketUpdate := fd_taken g ++ fd_rest g.
Definition fd_updates (g : Feed) : list MEMarketUpdate := fd_sent g ++ fd_waiting g.

Definition increment_wire (us : list MEMarketUpdate) : list (list Z) := encode_market <$> increments 0 us.
Definition cycle_wire (cycles : list Cycle) : list (list Z) :=
  mjoin ((λ cy, encode_market <$> frames_of_cycle cy) <$> cycles).

Section Invariant.
Context (cycle0 : Z).

(** [left]: turns for which the counters have room. *)
Record market_ok (left : nat) (x : ExchangeMarket) (g : Feed) (views : list View) : Prop := {
  mk_history : history (fd_updates g) views;
  mk_books : books_follow (xm_engine x) views;
  mk_responses : exists l, queue_ok (me_responses (xm_engine x)) l;
  mk_publisher : publisher_ok (xm_publisher x) (fd_waiting g)
    (increments (Z.of_nat (length (fd_taken g))) (fd_rest g)) (increment_wire (fd_sent g));
  mk_next : pb_next_inc_seq_num (xm_publisher x) = Z.of_nat (length (fd_sent g)) + 1;
  mk_outgoing : pb_outgoing (xm_publisher x) = me_updates (xm_engine x);
  mk_forwarded : sn_updates (xm_synth x) = pb_snapshot_updates (xm_publisher x);
  mk_synth : exists taken_views, history (fd_taken g) taken_views /\ synth_ok (xm_synth x) taken_views;
  mk_last : sn_last_inc_seq_num (xm_synth x) = Z.of_nat (length (fd_taken g));
  mk_socket : McastSocket.mc_ok (sn_socket (xm_synth x)) (cycle_wire (fd_cycles g));
  mk_cycle : sn_snapshot_cycle (xm_synth x) = cycle0 + Z.of_nat (length (fd_cycles g));
  mk_cycles i cy : fd_cycles g !! i = Some cy ->
    cy_number cy = cycle0 + Z.of_nat i + 1 /\ cy_updates cy `prefix_of` fd_updates g /\
    history (cy_updates cy) (cy_views cy);
  mk_pool : pool_capacity (sn_pool (xm_synth x)) < 2 ^ 32;
  mk_room : Z.of_nat (length (fd_updates g)) + (2 * orders + 1) * Z.of_nat left < 2 ^ 64 - 2;
  mk_cycle_room : 0 <= cycle0 /\ cycle0 + Z.of_nat (length (fd_cycles g)) + Z.of_nat left < 2 ^ 64
}.

Lemma increments_app w us us' :
  increments w (us ++ us') = increments w us ++ increments (w + Z.of_nat (length us)) us'.
Proof. unfold increments. rewrite frames_from_app. do 2 f_equal. lia. Qed.

Lemma inc_updates_increments w us :
  0 <= w -> w + 1 + Z.of_nat (length us) < 2 ^ 64 -> inc_updates (w + 1) us = increments w us.
Proof.
  revert w. induction us as [|u us IH]; intros w Hw Hb; [done|]. cbn [inc_updates length] in *.
  rewrite increments_cons, u64_small, IH by lia. done.
Qed.

Lemma market_weaken n x g views : market_ok (S n) x g views -> market_ok n x g views.
Proof. intros []. split; try done; [|split; [apply mk_cycle_room0|]]; lia. Qed.

Lemma fd_updates_snoc taken rest waiting new cycles :
  fd_updates (mkFeed taken rest (waiting ++ new) cycles) = fd_updates (mkFeed taken rest waiting cycles) ++ new.
Proof. apply app_assoc. Qed.

Lemma serve_ok n x g views r :
  market_ok (S n) x g views -> request_wf r ->
  fatal_or (λ e, exists g' views',
      market_ok n (mkExchangeMarket e (ExchangeMarket.with_outgoing (me_updates e) (xm_publisher x)) (xm_synth x))
        g' views') (MatchingEngine.processClientRequest r (xm_engine x)).
Proof.
  intros Hok Hr. destruct (mk_responses _ _ _ _ Hok) as [l Hl].
  pose proof (mk_publisher _ _ _ _ Hok) as [Hw Hf Hs]. rewrite (mk_outgoing _ _ _ _ Hok) in Hw.
  pose proof (process_served _ r _ _ l _ (mk_books _ _ _ _ Hok) (mk_history _ _ _ _ Hok) Hr Hl Hw) as Hp.
  destruct (MatchingEngine.processClientRequest r (xm_engine x)) as [e|f]; [|exact Hp].
  destruct Hp as (new & views' & [Hh Hb Hresp Hu Hlen]). cbn [ends].
  pose proof (mk_room _ _ _ _ Hok) as Hroom.
  destruct (market_weaken _ _ _ _ Hok) as [_ _ _ _ Hnext _ Hfw Hsy Hlast Hsock Hcy Hcys Hpool _ Hcr].
  destruct g as [taken rest waiting cycles]. cbn [fd_taken fd_rest fd_waiting fd_cycles] in *.
  exists (mkFeed taken rest (waiting ++ new) cycles), views'.
  split; cbn [xm_engine xm_publisher xm_synth fd_taken fd_rest fd_waiting fd_cycles]; try done;
    rewrite ?fd_updates_snoc; try done.
  - intros i cy Hi. destruct (Hcys i cy Hi) as (? & Hpre & ?). split; [done|]. split; [|done].
    by apply prefix_app_r.
  - rewrite length_app. lia.
Qed.

Lemma publish_ok kernel n x g views :
  market_ok (S n) x g views ->
  fatal_or (λ p, exists g',
      market_ok n (mkExchangeMarket (ExchangeMarket.with_updates (pb_outgoing p) (xm_engine x)) p
        (ExchangeMarket.with_synth_updates (pb_snapshot_updates p) (xm_synth x))) g' views)
    (MarketDataPublisher.run_iteration kernel (xm_publisher x)).
Proof.
  intros Hok. pose proof (publisher_iteration_ok kernel _ _ _ _ (mk_publisher _ _ _ _ Hok)) as Hp.
  destruct (MarketDataPublisher.run_iteration kernel (xm_publisher x)) as [p|f]; [|exact Hp].
  destruct Hp as (sent & waiting' & Ew & Hpub & Hmore). cbn [ends].
  destruct (market_weaken _ _ _ _ Hok) as [Hh [Hb1 Hb2] Hresp _ Hnext _ _ Hsy Hlast Hsock Hcy Hcys Hpool Hroom Hcr].
  destruct g as [taken rest waiting cycles]. cbn [fd_taken fd_rest fd_waiting fd_cycles] in *. subst waiting.
  unfold fd_updates, fd_sent in *. cbn [fd_taken fd_rest fd_waiting] in *. rewrite Hnext in Hpub, Hmore.
  rewrite !length_app in Hroom. assert (0 <= (2 * orders + 1) * Z.of_nat n) by nia.
  assert (Einc : forall us, Z.of_nat (length us) <= Z.of_nat (length sent) + 1 ->
    inc_updates (Z.of_nat (length (taken ++ rest)) + 1) us = increments (Z.of_nat (length (taken ++ rest))) us).
  { intros us Hus. apply inc_updates_increments; rewrite length_app; lia. }
  rewrite Einc in Hpub by lia.
  exists (mkFeed taken (rest ++ sent) waiting' cycles). unfold fd_updates, fd_sent.
  assert (Eus : (taken ++ rest ++ sent) ++ waiting' = (taken ++ rest) ++ sent ++ waiting') by (by rewrite <- !app_assoc).
  split; cbn [xm_engine xm_publisher xm_synth fd_taken fd_rest fd_waiting fd_cycles]; unfold fd_updates, fd_sent;
    cbn [fd_taken fd_rest fd_waiting]; rewrite ?Eus; try done.
  - destruct Hpub as [H1 H2 H3]. split; [done| |].
    + rewrite increments_app. rewrite length_app, Nat2Z.inj_add in H2. exact H2.
    + unfold increment_wire in *. rewrite app_assoc, increments_app, fmap_app. exact H3.
  - specialize (Hmore [default_MEMarketUpdate]).
    rewrite !Einc, increments_app in Hmore by (rewrite ?length_app; cbn; lia).
    apply app_inv_head in Hmore. injection Hmore as Hmore. rewrite app_assoc, (length_app _ sent). lia.
  - destruct Hsy as (tv & H1 & H2). exists tv. split; [done|]. by eapply synth_ok_transport.
  - rewrite !length_app. lia.
Qed.

Lemma cycle_wire_snoc cycles cy :
  cycle_wire (cycles ++ [cy]) = cycle_wire cycles ++ (encode_market <$> frames_of_cycle cy).
Proof. unfold cycle_wire. rewrite fmap_app. apply mjoin_snoc. Qed.

Lemma synthesize_ok kernel period now now' n x g views :
  market_ok (S n) x g views ->
  fatal_or (λ s, exists g', market_ok n (mkExchangeMarket (xm_engine x)
        (ExchangeMarket.with_forwarded (sn_updates s) (xm_publisher x)) s) g' views)
    (SnapshotSynthesizer.run_iteration kernel period now now' (xm_synth x)).
Proof.
  intros Hok. destruct (mk_synth _ _ _ _ Hok) as (tv & Htv & Hsy).
  pose proof (mk_room _ _ _ _ Hok) as Hroom0. pose proof (mk_cycle_room _ _ _ _ Hok) as Hcr0.
  destruct (market_weaken _ _ _ _ Hok) as [Hh Hb Hresp [Hw Hf Hs] Hnext Eo Efw _ Hlast Hsock Hcy Hcys Hpool Hroom Hcr].
  destruct g as [taken rest waiting cycles]. unfold fd_updates, fd_sent in *.
  cbn [fd_taken fd_rest fd_waiting fd_cycles] in *. rewrite <- Efw in Hf.
  assert (Hlen : Z.of_nat (length (taken ++ rest)) < 2 ^ 64).
  { rewrite length_app in Hroom. assert (0 <= (2 * orders + 1) * Z.of_nat n) by nia. lia. }
  eapply ends_mono.
  { apply (synthesizer_iteration kernel period now now' _ tv taken rest (cycle_wire cycles) Htv Hsy Hlast Hf); try done; [|lia].
    by eapply history_prefix. }
  cbn beta. intros s (tv' & Htv' & Hsy' & Hlast' & Hq' & Hcap' & Hcase).
  set (cy := mkCycle (sn_snapshot_cycle (xm_synth x) + 1) (taken ++ rest) tv') in *.
  destruct Hcase as [[Ecy Hmc]|[Ecy Hmc]].
  - exists (mkFeed (taken ++ rest) [] waiting cycles).
    split; unfold fd_updates, fd_sent; cbn [xm_engine xm_publisher xm_synth fd_taken fd_rest fd_waiting fd_cycles
      ExchangeMarket.with_forwarded pb_outgoing pb_snapshot_updates pb_next_inc_seq_num];
      rewrite ?app_nil_r; try done; try lia; [by exists tv'].
  - exists (mkFeed (taken ++ rest) [] waiting (cycles ++ [cy])).
    split; unfold fd_updates, fd_sent; cbn [xm_engine xm_publisher xm_synth fd_taken fd_rest fd_waiting fd_cycles
      ExchangeMarket.with_forwarded pb_outgoing pb_snapshot_updates pb_next_inc_seq_num];
      rewrite ?app_nil_r, ?(length_app cycles); cbn [length]; try done; try lia.
    + by exists tv'.
    + by rewrite cycle_wire_snoc.
    + intros i c [[_ Hi]|[-> <-]]%lookup_snoc_Some; [exact (Hcys i c Hi)|]. cbn [cy cy_number cy_updates cy_views].
      split; [lia|]. split; [by apply prefix_app_r|done].
Qed.

Lemma market_step_ok pk sk period n x g views op :
  market_ok (S n) x g views -> market_op_wf op ->
  fatal_or (λ x', exists g' views', market_ok n x' g' views') (ExchangeMarket.step pk sk period x op).
Proof.
  intros Hok Hop. destruct op as [r| | |now now']; cbn [ExchangeMarket.step].
  - eapply ends_bind; [by apply (serve_ok n x g views)|]. cbn beta. done.
  - destruct (mk_responses _ _ _ _ Hok) as [l Hl]. pose proof (try_pop_ok _ _ Hl) as Hp.
    assert (exists y q l', try_pop (me_responses (xm_engine x)) = Ok (y, q) /\ queue_ok q l') as (y & q & l' & -> & Hq).
    { destruct l as [|y l]; [eauto|]. destruct Hp as (q & ? & ? & _). eauto. }
    cbn [mbind res_bind ends]. exists g, views.
    destruct (market_weaken _ _ _ _ Hok) as [? [? ?] ? ? ? ? ? ? ? ? ? ? ? ? ?]. by split; eauto.
  - eapply ends_bind; [by apply (publish_ok pk n x g views)|]. cbn beta. intros p [g' Hg']. by exists g', views.
  - eapply ends_bind; [by apply (synthesize_ok sk period now now' n x g views)|]. cbn beta.
    intros s [g' Hg']. by exists g', views.
Qed.

Lemma market_run_ok pk sk period ops n x g views :
  market_ok (length ops + n) x g views -> Forall market_op_wf ops ->
  fatal_or (λ x', exists g' views', market_ok n x' g' views') (ExchangeMarket.run pk sk period ops x).
Proof.
  intros Hok Hops. unfold ExchangeMarket.run. revert x g views Hok.
  induction Hops as [|op ops Hop Hops IH]; intros x g views Hok; [by exists g, views|].
  change (market_ok (S (length ops + n)) x g views) in Hok. cbn [res_fold].
  eapply ends_bind; [exact (market_step_ok pk sk period _ x g views op Hok Hop)|]. cbn beta. intros x1 (g1 & v1 & Hok1). by eapply IH.
Qed.
End Invariant.

(** A new exchange. *)
Lemma market_make_ok pool queue cycle rq rs up au x n :
  ExchangeMarket.make_sized orders levels pool queue cycle rq rs up au = Some x ->
  0 <= pool -> (exists l, queue_ok rs l) -> queue_ok up [] ->
  (2 * orders + 1) * Z.of_nat n < 2 ^ 64 - 2 -> 0 <= cycle -> cycle + Z.of_nat n < 2 ^ 64 ->
  market_ok cycle n x (mkFeed [] [] [] []) MarketRecovery.no_orders.
Proof.
  intros Hm Hpool Hrs Hup Hroom Hcy Hcr. unfold ExchangeMarket.make_sized in Hm.
  destruct (MatchingEngine.make_sized orders levels rq rs up au) as [e|] eqn:Ee; [|done].
  destruct (MarketDataPublisher.make_sized queue up) as [p|] eqn:Ep; [|done].
  cbn [mbind option_bind] in Hm. destruct (SnapshotSynthesizer.make_sized pool _ cycle) as [s|] eqn:Es; [|done].
  cbn [mbind option_bind] in Hm. injection Hm as <-.
  unfold MarketDataPublisher.make_sized in Ep.
  destruct (queue_new default_MDPMarketUpdate queue) as [sq|] eqn:Eq; [|done]. injection Ep as <-.
  apply queue_new_ok in Eq as [Hsq _]. cbn [pb_snapshot_updates] in Es.
  destruct (synth_make_ok _ _ _ _ Es Hpool) as (Hsy & Hmc & _ & _ & Hlast & Hcap & Hq).
  assert (Ecycle : sn_snapshot_cycle s = cycle /\ pool < 2 ^ 32).
  { unfold SnapshotSynthesizer.make_sized, pool_new in Es. case_match eqn:Ec; [done|].
    apply orb_false_iff in Ec as [_ Ec%Z.ltb_ge]. injection Es as <-. cbn. lia. }
  unfold MatchingEngine.make_sized in Ee. destruct (mapM _ _) as [books|] eqn:Eb; [|done].
  injection Ee as <-. apply mapM_Some_1 in Eb.
  destruct Ecycle as [Ecycle Hcap']. rewrite <- Hcap in Hcap'.
  split; cbn [xm_engine xm_publisher xm_synth]; try done; try (cbn; lia).
  - constructor.
  - split; cbn [me_books]; [by rewrite <- (Forall2_length _ _ _ Eb), length_seqZ|].
    intros i b Hb. destruct (Forall2_lookup_r _ _ _ _ _ Eb Hb) as (t & Ht & Hmk).
    apply lookup_seqZ in Ht as [-> Hlt]. destruct (make_refines _ _ _ _ Horders Hlevels Hmk) as [R Ev].
    split; [done|]. split; [rewrite (rf_ticker _ _ _ R); cbn; lia|].
    eexists _, _. split; [exact R|]. split; [by apply empty_book_wf|]. split; [constructor|].
    split; [done|]. split; [done|]. apply lookup_replicate_2. lia.
  - split; cbn; [done|done|]. split; cbn; [by exists [], []|lia|constructor].
  - exists MarketRecovery.no_orders. split; [constructor|exact Hsy].
Qed.
End Market.
