(* ===== verification/OrderManager.v ===== *)
(** Orders of a strategy: trading/strategy/order_manager.{h,cpp}.

    One order per ticker and side.  The manager sends its requests through the
    trade engine, which refers back to it: [RequestSink] is what it uses of the
    engine, and what it may rely on.  [TradeEngine] gives the instance of the
    engine. *)
From S2P Require Import Prelude.
From S2P Require Import Types.
From S2P Require Import Wire.
From S2P Require Import TradingTypes.
From stdpp Require Import base list.
From Stdlib Require Import ZArith Lia.

Local Open Scope Z_scope.

(** ** The engine as the order manager sees it *)

(** [sink_holds e l]: the sink is in a state where it works, and [l] are the
    requests that it has taken; [sink_frame e e']: what sending never changes
    is the same in [e] and [e']. *)
Class RequestSink (E : Type) : Type := {
  clientId : E -> Z;
  sendClientRequest : MEClientRequest -> E -> res (bool * E);
  sink_holds : E -> list MEClientRequest -> Prop;
  sink_frame : E -> E -> Prop;
  sink_frame_refl e : sink_frame e e;
  sink_frame_trans e1 e2 e3 : sink_frame e1 e2 -> sink_frame e2 e3 -> sink_frame e1 e3;
  sink_frame_client e e' : sink_frame e e' -> clientId e' = clientId e;
  sink_send e l r :
    sink_holds e l -> 0 <= rq_ticker_id r -> is_u32 (rq_qty r) ->
    exists sent e', sendClientRequest r e = Ok (sent, e') /\ sink_frame e e' /\
      (sent = true -> Wire.validate r = NONE) /\
      sink_holds e' (if sent then l ++ [r] else l)
}.

(** [ticker_side_order_] and [next_order_id_]. *)
Record OrderManager : Type := mkOM {
  om_orders : list (list OMOrder);
  om_next_id : Z
}.

(** An [OMOrder*]: ticker and side index. *)
Notation Slot := (nat * nat)%type.

Module OrderManager.

Definition make : OrderManager :=
  mkOM (replicate (Z.to_nat ME_MAX_TICKERS) (replicate side_slots default_OMOrder)) 1.

(** [ticker_side_order_.at(ticker).at(index)]. *)
Definition order_at (p : Slot) (m : OrderManager) : res OMOrder :=
  match om_orders m !! p.1 ≫= (.!! p.2) with
  | Some o => Ok o
  | None => Err AssertFailed
  end.

Definition set_order (p : Slot) (o : OMOrder) (m : OrderManager) : OrderManager :=
  mkOM (alter (<[p.2 := o]>) p.1 (om_orders m)) (om_next_id m).

Definition slot_of (ticker_id : Z) (side : Side) : Slot :=
  (Z.to_nat ticker_id, Z.to_nat (sideToIndex side)).

(** The switch of [onOrderUpdate]. *)
Definition apply_response (r : MEClientResponse) (order : OMOrder) : OMOrder :=
  match rs_type r with
  | ACCEPTED =>
      if bool_decide (om_state order = PENDING_NEW) then set_om_state LIVE order else order
  | FILLED =>
      let order := if rs_leaves_qty r <? om_qty order
                   then set_om_qty (rs_leaves_qty r) order else order in
      if om_qty order =? 0 then set_om_state DEAD order else order
  | CANCELED | REJECTED => set_om_state DEAD (set_om_qty 0 order)
  | CANCEL_REJECTED =>
      if bool_decide (om_state order = PENDING_CANCEL)
      then set_om_state (if negb (rs_leaves_qty r =? 0) then LIVE else DEAD) order else order
  | STATE =>
      let order := set_om_qty (rs_leaves_qty r) order in
      set_om_state (if negb (om_qty order =? 0) then LIVE else DEAD) order
  | _ => order
  end.

Definition onOrderUpdate (r : MEClientResponse) (m : OrderManager) : OrderManager :=
  if ME_MAX_TICKERS <=? rs_ticker_id r then m else
  match om_orders m !! Z.to_nat (rs_ticker_id r) with
  | None => m
  | Some candidates =>
      match list_find (λ c, om_order_id c = rs_client_order_id r /\ om_order_id c <> OrderId_INVALID)
              candidates with
      | None => m
      | Some (i, order) => set_order (Z.to_nat (rs_ticker_id r), i) (apply_response r order) m
      end
  end.

Section Sending.
Context {E : Type} `{RequestSink E}.

Definition newOrder (p : Slot) (ticker_id price : Z) (side : Side) (qty : Z)
    (st : OrderManager * E) : res (OrderManager * E) :=
  let '(m, e) := st in
  let new_request := mkRequest NEW (clientId e) ticker_id (om_next_id m) side price qty 0 0 in
  '(sent, e) ← sendClientRequest new_request e;
  if negb sent then Ok (m, e) else
  let m := set_order p (mkOMOrder ticker_id (om_next_id m) side price qty PENDING_NEW) m in
  Ok (mkOM (om_orders m) (u64 (om_next_id m + 1)), e).

Definition cancelOrder (p : Slot) (st : OrderManager * E) : res (OrderManager * E) :=
  let '(m, e) := st in
  order ← order_at p m;
  let cancel_request := mkRequest CANCEL (clientId e) (om_ticker_id order) (om_order_id order)
    (om_side order) (om_price order) (om_qty order) 0 0 in
  '(sent, e) ← sendClientRequest cancel_request e;
  if negb sent then Ok (m, e) else
  Ok (set_order p (set_om_state PENDING_CANCEL order) m, e).

Definition moveOrder (p : Slot) (ticker_id price : Z) (side : Side) (qty : Z)
    (st : OrderManager * E) : res (OrderManager * E) :=
  order ← order_at p st.1;
  match om_state order with
  | LIVE => if negb (om_price order =? price) then cancelOrder p st else Ok st
  | OM_INVALID | DEAD =>
      if negb (price =? Price_INVALID) then newOrder p ticker_id price side qty st else Ok st
  | PENDING_NEW | PENDING_CANCEL => Ok st
  end.

Definition moveOrders (ticker_id bid_price ask_price clip : Z) (st : OrderManager * E) :
    res (OrderManager * E) :=
  _ ← order_at (slot_of ticker_id BUY) st.1;
  st ← moveOrder (slot_of ticker_id BUY) ticker_id bid_price BUY clip st;
  _ ← order_at (slot_of ticker_id SELL) st.1;
  moveOrder (slot_of ticker_id SELL) ticker_id ask_price SELL clip st.

(** The public operations, as the strategies call them. *)
Inductive OmOp : Type :=
  | OmMove (ticker_id bid_price ask_price clip : Z)
  | OmResponse (r : MEClientResponse).

Definition om_step (st : OrderManager * E) (op : OmOp) : res (OrderManager * E) :=
  match op with
  | OmMove t b a c => moveOrders t b a c st
  | OmResponse r => Ok (onOrderUpdate r st.1, st.2)
  end.

Definition om_run (ops : list OmOp) (st : OrderManager * E) : res (OrderManager * E) :=
  res_fold om_step ops st.
End Sending.
End OrderManager.

(** ** The flow of requests *)
Definition op_ok (op : OrderManager.OmOp) : Prop :=
  match op with
  | OrderManager.OmMove t _ _ clip => 0 <= t < ME_MAX_TICKERS /\ is_u32 clip
  | OrderManager.OmResponse r => 0 <= rs_ticker_id r /\ is_u32 (rs_leaves_qty r)
  end.

Definition is_new (r : MEClientRequest) : bool := bool_decide (rq_type r = NEW).

(** [r] cancels the order that [r'] placed. *)
Definition cancels (r r' : MEClientRequest) : Prop :=
  rq_type r' = NEW /\ rq_ticker_id r = rq_ticker_id r' /\ rq_order_id r = rq_order_id r' /\
  rq_side r = rq_side r' /\ rq_price r = rq_price r'.

(** What the exchange may expect of the requests of client [c]. *)
Record flow_ok (c : Z) (l : list MEClientRequest) : Prop := {
  fl_valid r : r ∈ l -> rq_client_id r = c /\ Wire.validate r = NONE;
  fl_types r : r ∈ l -> rq_type r = NEW \/ rq_type r = CANCEL;
  fl_ids : rq_order_id <$> List.filter is_new l = seqZ 1 (Z.of_nat (length (List.filter is_new l)));
  fl_cancels l1 r l2 : l = l1 ++ r :: l2 -> rq_type r = CANCEL -> exists r', r' ∈ l1 /\ cancels r r'
}.

Record om_ok (m : OrderManager) (l : list MEClientRequest) : Prop := {
  om_rows : length (om_orders m) = Z.to_nat ME_MAX_TICKERS;
  om_row i row : om_orders m !! i = Some row -> length row = side_slots;
  om_next : om_next_id m = 1 + Z.of_nat (length (List.filter is_new l));
  om_next_range : om_next_id m <= ME_MAX_ORDER_IDS;
  om_slot p o : OrderManager.order_at p m = Ok o ->
    om_state o = OM_INVALID /\ om_order_id o = OrderId_INVALID \/
    is_u32 (om_qty o) /\ 0 <= om_ticker_id o /\
    exists r, r ∈ l /\ rq_type r = NEW /\ rq_ticker_id r = om_ticker_id o /\
      rq_order_id r = om_order_id o /\ rq_side r = om_side o /\ rq_price r = om_price o
}.

(** ** Lemmas *)
Section Lemmas.
Context {E : Type} `{RequestSink E}.

Lemma order_at_set p o p' m o0 :
  OrderManager.order_at p m = Ok o0 ->
  OrderManager.order_at p' (OrderManager.set_order p o m)
  = if decide (p' = p) then Ok o else OrderManager.order_at p' m.
Proof.
  unfold OrderManager.order_at, OrderManager.set_order. cbn [om_orders].
  destruct p as [t i], p' as [t' i']. cbn [fst snd].
  destruct (om_orders m !! t) as [row|] eqn:Er; [|done]. cbn [mbind option_bind].
  destruct (row !! i) as [x|] eqn:Ei; [|done]. intros _.
  destruct (decide (t' = t)) as [->|Ht].
  - rewrite list_lookup_alter_eq, Er. cbn [fmap option_fmap option_map mbind option_bind].
    destruct (decide (i' = i)) as [->|Hi].
    + rewrite list_lookup_insert_eq by (by eapply lookup_lt_Some). by rewrite decide_True.
    + rewrite list_lookup_insert_ne by done. rewrite decide_False by congruence. done.
  - rewrite list_lookup_alter_ne by done. by rewrite decide_False by congruence.
Qed.

Lemma slot_exists m l t s :
  om_ok m l -> 0 <= t < ME_MAX_TICKERS -> s = BUY \/ s = SELL ->
  exists o, OrderManager.order_at (OrderManager.slot_of t s) m = Ok o.
Proof.
  intros Hok Ht Hs. unfold OrderManager.order_at, OrderManager.slot_of. cbn [fst snd].
  destruct (lookup_lt_is_Some_2 (om_orders m) (Z.to_nat t)) as [row Hr];
    [rewrite (om_rows _ _ Hok); lia|].
  rewrite Hr. cbn [mbind option_bind]. pose proof (om_row _ _ Hok _ _ Hr) as Hl.
  destruct (lookup_lt_is_Some_2 row (Z.to_nat (sideToIndex s))) as [o ->]; [|by exists o].
  rewrite Hl. destruct Hs as [-> | ->]; vm_compute; lia.
Qed.

(** A change of one slot. *)
Lemma om_ok_set m l l' p o o0 n :
  om_ok m l -> OrderManager.order_at p m = Ok o0 -> (forall r, r ∈ l -> r ∈ l') ->
  n = 1 + Z.of_nat (length (List.filter is_new l')) -> n <= ME_MAX_ORDER_IDS ->
  (om_state o = OM_INVALID /\ om_order_id o = OrderId_INVALID \/ is_u32 (om_qty o) /\ 0 <= om_ticker_id o /\
     exists r, r ∈ l' /\ rq_type r = NEW /\ rq_ticker_id r = om_ticker_id o /\
       rq_order_id r = om_order_id o /\ rq_side r = om_side o /\ rq_price r = om_price o) ->
  om_ok (mkOM (om_orders (OrderManager.set_order p o m)) n) l'.
Proof.
  intros Hok Hp Hsub Hn Hmax Ho. split; [| |done|done|].
  - cbn. by rewrite length_alter, (om_rows _ _ Hok).
  - intros i row Hi. cbn in Hi. destruct (decide (p.1 = i)) as [<-|Hne].
    + rewrite list_lookup_alter_eq in Hi. apply fmap_Some in Hi as (row0 & Hr0 & ->).
      rewrite length_insert. by eapply om_row.
    + rewrite list_lookup_alter_ne in Hi by done. by eapply om_row.
  - intros p' o' Hp'.
    change (OrderManager.order_at p' (OrderManager.set_order p o m) = Ok o') in Hp'.
    rewrite (order_at_set _ _ _ _ _ Hp) in Hp'. case_decide; [by injection Hp' as <-|].
    destruct (om_slot _ _ Hok _ _ Hp') as [?|(H1 & H2 & r & H3 & H4)]; [by left|right].
    split; [done|]. split; [done|]. exists r. split; [auto|done].
Qed.

Lemma filter_new_snoc l r :
  length (List.filter is_new (l ++ [r])) = (length (List.filter is_new l) + if is_new r then 1 else 0)%nat.
Proof. rewrite List.filter_app, length_app. cbn. by destruct (is_new r). Qed.

Lemma flow_ok_snoc c l r :
  flow_ok c l -> rq_client_id r = c -> Wire.validate r = NONE ->
  (rq_type r = NEW /\ rq_order_id r = 1 + Z.of_nat (length (List.filter is_new l)) \/
   rq_type r = CANCEL /\ exists r', r' ∈ l /\ cancels r r') ->
  flow_ok c (l ++ [r]).
Proof.
  intros Hf Hc Hv Hr. split.
  - intros r0 [Hin| ->%list_elem_of_singleton]%elem_of_app; [by apply Hf|done].
  - intros r0 [Hin| ->%list_elem_of_singleton]%elem_of_app; [by apply (fl_types _ _ Hf)|tauto].
  - rewrite filter_new_snoc, List.filter_app, fmap_app, (fl_ids _ _ Hf). cbn [List.filter].
    destruct Hr as [[Ht Hid]|[Ht _]]; unfold is_new at 2 4; rewrite Ht.
    + rewrite bool_decide_true by done. cbn [fmap list_fmap]. rewrite Hid, Nat2Z.inj_add.
      rewrite seqZ_app by lia. done.
    + rewrite bool_decide_false by done. by rewrite Nat.add_0_r, app_nil_r.
  - intros l1 r0 l2 El Ht0. destruct l2 as [|x l2] using rev_ind.
    + apply app_inj_tail in El as [<- <-]. destruct Hr as [[Ht _]|[_ Hex]]; [congruence|done].
    + clear IHl2. rewrite app_comm_cons, app_assoc in El. apply app_inj_tail in El as [El _].
      by apply (fl_cancels _ _ Hf _ _ _ El).
Qed.

(** A state of the manager with its sink, which was [c] at the start and has
    taken the requests [l]. *)
Definition sys_ok (c : E) (l : list MEClientRequest) (st : OrderManager * E) : Prop :=
  sink_frame c st.2 /\ om_ok st.1 l /\ flow_ok (clientId c) l /\ sink_holds st.2 l.

(** [r], if it is a new order, is this one. *)
Definition places (t price : Z) (s : Side) (q : Z) (r : MEClientRequest) : Prop :=
  rq_type r = NEW -> rq_ticker_id r = t /\ rq_side r = s /\ rq_price r = price /\ rq_qty r = q /\
    price <> Price_INVALID.

Lemma validate_order_id r : Wire.validate r = NONE -> rq_order_id r < ME_MAX_ORDER_IDS.
Proof.
  unfold Wire.validate. destruct (Z.leb_spec ME_MAX_ORDER_IDS (rq_order_id r)); [|lia].
  by rewrite !orb_true_r.
Qed.

(** The outcome of an operation that may send requests satisfying [P]. *)
Definition sends (c : E) (l : list MEClientRequest) (P : MEClientRequest -> Prop)
    (out : res (OrderManager * E)) : Prop :=
  exists st' rs, out = Ok st' /\ sys_ok c (l ++ rs) st' /\ Forall P rs.

Lemma sends_nothing c l P st : sys_ok c l st -> sends c l P (Ok st).
Proof. intros Hsys. exists st, []. by rewrite app_nil_r. Qed.

Lemma newOrder_ok c l p t price s q st :
  sys_ok c l st -> 0 <= t -> is_u32 q -> price <> Price_INVALID ->
  (exists o, OrderManager.order_at p st.1 = Ok o) ->
  sends c l (places t price s q) (OrderManager.newOrder p t price s q st).
Proof.
  intros (Hc & Hok & Hf & Hs) Ht Hq Hpr [o0 Ho]. destruct st as [m e]. cbn [fst snd] in *.
  unfold OrderManager.newOrder. set (r := mkRequest NEW _ _ _ _ _ _ _ _).
  destruct (sink_send e l r Hs Ht Hq) as (b & e' & -> & Hc' & Hv & Hs'). cbn [mbind res_bind].
  destruct b; cbn [negb].
  2:{ apply sends_nothing. unfold sys_ok. cbn [fst snd].
      split; [by eapply sink_frame_trans|]. by split_and!. }
  specialize (Hv eq_refl). eexists _, [r]. split; [done|].
  pose proof (validate_order_id r Hv) as Hid. cbn [r rq_order_id] in Hid.
  pose proof (om_next _ _ Hok) as Hn. unfold ME_MAX_ORDER_IDS in Hid.
  assert (Hn1 : u64 (om_next_id m + 1) = om_next_id m + 1) by (apply u64_small; lia).
  split; [|by apply Forall_singleton]. unfold sys_ok. cbn [fst snd].
  split; [by eapply sink_frame_trans|]. split; [|split; [|done]].
  - change (om_next_id (OrderManager.set_order p ?o m)) with (om_next_id m). rewrite Hn1.
    eapply om_ok_set; [exact Hok|exact Ho|intros; apply elem_of_app; tauto| | |].
    + rewrite filter_new_snoc. change (is_new r) with true. cbv iota. lia.
    + unfold ME_MAX_ORDER_IDS. lia.
    + right. split; [done|]. split; [done|]. exists r. split; [|by cbn].
      apply elem_of_app. right. by apply list_elem_of_singleton.
  - apply flow_ok_snoc; [done|by apply sink_frame_client|done|]. left. by cbn.
Qed.

Lemma cancelOrder_ok c l p st o P :
  sys_ok c l st -> OrderManager.order_at p st.1 = Ok o -> om_state o <> OM_INVALID ->
  (forall r, rq_type r = CANCEL -> P r) ->
  sends c l P (OrderManager.cancelOrder p st).
Proof.
  intros (Hc & Hok & Hf & Hs) Ho Hst HP. destruct st as [m e]. cbn [fst snd] in *.
  unfold OrderManager.cancelOrder. rewrite Ho. cbn [mbind res_bind].
  set (r := mkRequest CANCEL _ _ _ _ _ _ _ _).
  destruct (om_slot _ _ Hok _ _ Ho) as [[? _]|(Hq & Ht & r' & Hr' & Hty & H1 & H2 & H3 & H4)]; [done|].
  destruct (sink_send e l r Hs Ht Hq) as (b & e' & -> & Hc' & Hv & Hs'). cbn [mbind res_bind].
  destruct b; cbn [negb].
  2:{ apply sends_nothing. unfold sys_ok. cbn [fst snd].
      split; [by eapply sink_frame_trans|]. by split_and!. }
  specialize (Hv eq_refl). eexists _, [r]. split; [done|].
  split; [|apply Forall_singleton; by apply HP]. unfold sys_ok. cbn [fst snd].
  split; [by eapply sink_frame_trans|]. split; [|split; [|done]].
  - change (OrderManager.set_order p (set_om_state PENDING_CANCEL o) m)
      with (mkOM (om_orders (OrderManager.set_order p (set_om_state PENDING_CANCEL o) m)) (om_next_id m)).
    eapply om_ok_set; [exact Hok|exact Ho|intros; apply elem_of_app; tauto| | |].
    + rewrite filter_new_snoc, Nat.add_0_r. apply Hok.
    + apply Hok.
    + right. split; [done|]. split; [done|]. exists r'. split; [apply elem_of_app; by left|done].
  - apply flow_ok_snoc; [done|by apply sink_frame_client|done|]. right. split; [done|]. exists r'. by unfold cancels.
Qed.

(** [moveOrder] never fails, keeps the flow well-formed, and places no other
    order than the one asked for. *)
Lemma moveOrder_ok c l p t price s q st o :
  sys_ok c l st -> 0 <= t -> is_u32 q -> OrderManager.order_at p st.1 = Ok o ->
  sends c l (places t price s q) (OrderManager.moveOrder p t price s q st).
Proof.
  intros Hsys Ht Hq Ho. unfold OrderManager.moveOrder. rewrite Ho. cbn [mbind res_bind].
  assert (Hnew : sends c l (places t price s q)
    (if negb (price =? Price_INVALID) then OrderManager.newOrder p t price s q st else Ok st)).
  { destruct (Z.eqb_spec price Price_INVALID); [by apply sends_nothing|]. eapply newOrder_ok; eauto. }
  destruct (om_state o) eqn:Est; try done; try by apply sends_nothing.
  destruct (negb (om_price o =? price)); [|by apply sends_nothing].
  eapply cancelOrder_ok; eauto; [congruence|]. intros r Hr. unfold places. by rewrite Hr.
Qed.

Lemma moveOrders_ok c l t b a q st :
  sys_ok c l st -> 0 <= t < ME_MAX_TICKERS -> is_u32 q ->
  sends c l (λ r, places t b BUY q r \/ places t a SELL q r) (OrderManager.moveOrders t b a q st).
Proof.
  intros Hsys Ht Hq. unfold OrderManager.moveOrders.
  assert (Hslot : forall l st s, sys_ok c l st -> s = BUY \/ s = SELL ->
    exists o, OrderManager.order_at (OrderManager.slot_of t s) st.1 = Ok o).
  { intros l1 st1 s (_ & Hok & _) Hs. by eapply slot_exists. }
  destruct (Hslot l st BUY Hsys ltac:(by left)) as [o1 H1]. rewrite H1. cbn [mbind res_bind].
  destruct (moveOrder_ok c l _ t b BUY q st o1 Hsys ltac:(lia) Hq H1) as (st1 & rs1 & -> & Hsys1 & HP1).
  cbn [mbind res_bind]. destruct (Hslot _ st1 SELL Hsys1 ltac:(by right)) as [o2 H2].
  rewrite H2. cbn [mbind res_bind].
  destruct (moveOrder_ok c _ _ t a SELL q st1 o2 Hsys1 ltac:(lia) Hq H2) as (st2 & rs2 & -> & Hsys2 & HP2).
  exists st2, (rs1 ++ rs2). rewrite app_assoc. split; [done|]. split; [done|].
  apply Forall_app. split; [eapply Forall_impl; [exact HP1|tauto]|eapply Forall_impl; [exact HP2|tauto]].
Qed.

(** A response keeps the identity of an order and its quantity a machine word. *)
Lemma apply_response_fields r o :
  let o' := OrderManager.apply_response r o in
  om_ticker_id o' = om_ticker_id o /\ om_order_id o' = om_order_id o /\ om_side o' = om_side o /\
  om_price o' = om_price o /\
  (is_u32 (om_qty o) -> is_u32 (rs_leaves_qty r) -> is_u32 (om_qty o')).
Proof.
  unfold OrderManager.apply_response. cbv zeta. assert (is_u32 0) by (unfold is_u32; lia).
  repeat case_match; by split_and!.
Qed.

Lemma onOrderUpdate_ok c l r st :
  sys_ok c l st -> is_u32 (rs_leaves_qty r) ->
  sys_ok c l (OrderManager.onOrderUpdate r st.1, st.2).
Proof.
  intros (Hc & Hok & Hf & Hs) Hq. destruct st as [m e]. unfold sys_ok. cbn [fst snd] in *. split_and!; try done. unfold OrderManager.onOrderUpdate.
  destruct (_ <=? _); [done|]. destruct (om_orders m !! Z.to_nat (rs_ticker_id r)) as [row|] eqn:Er; [|done].
  destruct (list_find _ row) as [[i o]|] eqn:Ef; [|done].
  apply list_find_Some in Ef as (Hi & [_ Hid] & _).
  assert (Hat : OrderManager.order_at (Z.to_nat (rs_ticker_id r), i) m = Ok o).
  { unfold OrderManager.order_at. cbn [fst snd]. rewrite Er. cbn [mbind option_bind]. by rewrite Hi. }
  destruct (apply_response_fields r o) as (F1 & F2 & F3 & F4 & F5).
  set (o' := OrderManager.apply_response r o) in *.
  change (OrderManager.set_order ?p o' m) with (mkOM (om_orders (OrderManager.set_order p o' m)) (om_next_id m)).
  eapply om_ok_set; [exact Hok|exact Hat|done|apply Hok|apply Hok|].
  destruct (om_slot _ _ Hok _ _ Hat) as [[_ Hst]|(H1 & H2 & r' & H3)].
  - by destruct (Hid Hst).
  - right. rewrite F1. split; [auto|]. split; [done|]. exists r'. by rewrite F2, F3, F4.
Qed.
End Lemmas.

(** ** Life of an order *)

(** An order that may still trade. *)
Definition working (o : OMOrder) : bool :=
  match om_state o with
  | PENDING_NEW | LIVE | PENDING_CANCEL => negb (om_qty o =? 0)
  | _ => false
  end.

(** A report that says that its order is gone. *)
Definition terminal (r : MEClientResponse) : bool :=
  match rs_type r with
  | CANCELED | REJECTED => true
  | FILLED | CANCEL_REJECTED | STATE => rs_leaves_qty r =? 0
  | _ => false
  end.

Lemma apply_response_working r o :
  working o = true -> terminal r = false -> working (OrderManager.apply_response r o) = true.
Proof.
  unfold working, terminal, OrderManager.apply_response. intros Hw Ht.
  destruct (om_state o) eqn:Es; try done; apply negb_true_iff in Hw;
    destruct (rs_type r); try done; rewrite ?Ht;
    try (case_bool_decide; cbn [negb om_state set_om_state om_qty]; rewrite ?Es, ?Hw; done);
    cbn [set_om_qty om_qty set_om_state om_state]; rewrite ?Ht; cbn [negb set_om_qty om_qty set_om_state om_state]; rewrite ?Es, ?Hw, ?Ht; try done;
    destruct (rs_leaves_qty r <? om_qty o); cbn [set_om_qty om_qty set_om_state om_state]; rewrite ?Ht, ?Hw; cbn [set_om_qty om_qty om_state]; rewrite ?Es, ?Ht, ?Hw; done.
Qed.

Section Life.
Context {E : Type} `{RequestSink E}.

(** Slot [p] holds the working order [id]. *)
Definition works (p : Slot) (id : Z) (st : OrderManager * E) : Prop :=
  exists o, OrderManager.order_at p st.1 = Ok o /\ om_order_id o = id /\ working o = true.

Lemma works_set p id p' o o0 m e n :
  works p id (m, e) -> OrderManager.order_at p' m = Ok o0 ->
  (p' = p -> om_order_id o = om_order_id o0 /\ (working o0 = true -> working o = true)) ->
  works p id (mkOM (om_orders (OrderManager.set_order p' o m)) n, e).
Proof.
  intros (x & Hx & Hid & Hw) H0 Ho. unfold works. cbn [fst] in *.
  change (OrderManager.order_at p (mkOM (om_orders (OrderManager.set_order p' o m)) n))
    with (OrderManager.order_at p (OrderManager.set_order p' o m)).
  rewrite (order_at_set _ _ _ _ _ H0). case_decide as Ep; [|by exists x]. subst p'.
  rewrite Hx in H0. injection H0 as <-. destruct (Ho eq_refl) as [H1 H2].
  exists o. split; [done|]. split; [congruence|auto].
Qed.

Lemma works_sink p id m e e' : works p id (m, e) -> works p id (m, e').
Proof. done. Qed.

Lemma moveOrder_works p id p' t price s q st st' :
  works p id st -> OrderManager.moveOrder p' t price s q st = Ok st' -> works p id st'.
Proof.
  intros Hw Hm. destruct st as [m e]. unfold OrderManager.moveOrder in Hm. cbn [fst] in Hm.
  apply bind_Ok in Hm as (o & Ho & Hm).
  assert (Hnew : om_state o = OM_INVALID \/ om_state o = DEAD ->
    (if negb (price =? Price_INVALID) then OrderManager.newOrder p' t price s q (m, e) else Ok (m, e))
      = Ok st' -> works p id st').
  { intros Est Hn. destruct (negb _); [|by injection Hn as <-].
    unfold OrderManager.newOrder in Hn. apply bind_Ok in Hn as ([[] e'] & _ & Hn); cbn [negb] in Hn.
    - injection Hn as <-. eapply works_set; [exact Hw|exact Ho|]. intros ->.
      destruct Hw as (x & Hx & _ & Hwx). cbn [fst] in Hx. rewrite Ho in Hx. injection Hx as <-.
      unfold working in Hwx. destruct Est as [Est|Est]; by rewrite Est in Hwx.
    - by injection Hn as <-. }
  destruct (om_state o) eqn:Est; try (by injection Hm as <-); try (by apply Hnew; [tauto|]).
  destruct (negb _); [|by injection Hm as <-]. unfold OrderManager.cancelOrder in Hm.
  rewrite Ho in Hm. cbn [mbind res_bind] in Hm.
  apply bind_Ok in Hm as ([[] e'] & _ & Hm); cbn [negb] in Hm; [|by injection Hm as <-].
  injection Hm as <-.
  change (OrderManager.set_order p' ?o' m) with (mkOM (om_orders (OrderManager.set_order p' o' m)) (om_next_id m)).
  eapply works_set; [exact Hw|exact Ho|]. intros _. split; [done|]. unfold working. by rewrite Est.
Qed.

Lemma om_step_works p id st st' op :
  works p id st -> OrderManager.om_step st op = Ok st' ->
  (forall r, op = OrderManager.OmResponse r -> rs_client_order_id r = id -> terminal r = false) ->
  works p id st'.
Proof.
  intros Hw Hstep Hr. destruct op as [t b a c|r]; cbn in Hstep.
  - unfold OrderManager.moveOrders in Hstep. res_inv.
    eapply moveOrder_works; [|exact Hstep]. by eapply moveOrder_works.
  - injection Hstep as <-. specialize (Hr r eq_refl). destruct st as [m e]. cbn [fst snd].
    unfold OrderManager.onOrderUpdate. destruct (_ <=? _); [done|].
    destruct (om_orders m !! Z.to_nat (rs_ticker_id r)) as [row|] eqn:Er; [|done].
    destruct (list_find _ row) as [[i o]|] eqn:Ef; [|done].
    apply list_find_Some in Ef as (Hi & [Hid _] & _).
    assert (Hat : OrderManager.order_at (Z.to_nat (rs_ticker_id r), i) m = Ok o).
    { unfold OrderManager.order_at. cbn [fst snd]. rewrite Er. cbn [mbind option_bind]. by rewrite Hi. }
    change (OrderManager.set_order ?q ?o' m) with (mkOM (om_orders (OrderManager.set_order q o' m)) (om_next_id m)).
    eapply works_set; [exact Hw|exact Hat|]. intros Ep.
    destruct (apply_response_fields r o) as (_ & -> & _). split; [done|]. intros Hwo.
    apply apply_response_working; [done|]. apply Hr. destruct Hw as (x & Hx & Hxid & _). cbn [fst] in Hx.
    rewrite <- Ep, Hat in Hx. injection Hx as <-. congruence.
Qed.

Lemma sys_ok_make (e0 : E) :
  sink_holds e0 [] -> sys_ok e0 [] (OrderManager.make, e0).
Proof.
  intros H0. unfold sys_ok. cbn [fst snd]. split; [apply sink_frame_refl|]. split; [|split; [|done]].
  - split; [done| |done|done|].
    + intros i row Hi. by apply lookup_replicate in Hi as [-> _].
    + intros p o Hp. left. unfold OrderManager.order_at in Hp.
      destruct (om_orders OrderManager.make !! p.1) as [row|] eqn:Er; [|done].
      apply lookup_replicate in Er as [-> _]. cbn [mbind option_bind] in Hp.
      destruct (replicate side_slots default_OMOrder !! p.2) as [x|] eqn:Ex; [|done].
      apply lookup_replicate in Ex as [-> _]. by injection Hp as <-.
  - split; [set_solver|set_solver|done|]. by intros [|? ?].
Qed.

(** while no report says that it is gone, a working order keeps its slot:
    no sequence of moves and reports replaces it by another order or lets it
    be forgotten, so that a strategy never has two orders on one side of a
    ticker. *)
Theorem working_order_stays ops st st' p o :
  OrderManager.order_at p st.1 = Ok o -> working o = true ->
  OrderManager.om_run ops st = Ok st' ->
  (forall r, OrderManager.OmResponse r ∈ ops -> rs_client_order_id r = om_order_id o ->
     terminal r = false) ->
  exists o', OrderManager.order_at p st'.1 = Ok o' /\ om_order_id o' = om_order_id o /\
    working o' = true.
Proof.
  intros Ho Hw Hrun Hops. change (works p (om_order_id o) st').
  assert (Hst : works p (om_order_id o) st) by (by exists o). clear Ho Hw.
  revert st Hst Hrun. induction ops as [|op ops IH]; intros st Hst Hrun; cbn in Hrun.
  { by injection Hrun as <-. }
  apply bind_Ok in Hrun as (st1 & H1 & Hrun). apply (IH ltac:(intros; apply Hops; [by right|done]) st1); [|done].
  eapply om_step_works; [exact Hst|exact H1|]. intros r -> Hr. apply Hops; [by left|done].
Qed.

(** C26: whatever a strategy asks and whatever is reported to it, no operation
    of the order manager fails, and the requests it has sent are those a
    client should send: all valid, the order ids of the new orders 1, 2, 3, ...
    in this order, and every cancel names an order sent before it. *)
Theorem order_flow_is_well_formed ops e0 :
  sink_holds e0 [] -> Forall op_ok ops ->
  exists m e l, OrderManager.om_run ops (OrderManager.make, e0) = Ok (m, e) /\
    sink_holds e l /\ flow_ok (clientId e0) l.
Proof.
  intros H0 Hops. pose proof (sys_ok_make e0 H0) as Hsys. revert Hsys.
  generalize (OrderManager.make, e0) (@nil MEClientRequest).
  induction Hops as [|op ops Hop Hops IH]; intros st l Hsys.
  - destruct st as [m e]. pose proof Hsys as (_ & _ & Hf & Hs). by exists m, e, l.
  - unfold OrderManager.om_run. cbn [res_fold].
    assert (Hstep : exists st1 l1, OrderManager.om_step st op = Ok st1 /\ sys_ok e0 l1 st1).
    { destruct op as [t b a q|r]; cbn.
      - destruct Hop as [Ht Hq].
        destruct (moveOrders_ok e0 l t b a q st Hsys Ht Hq) as (st' & rs & H1 & H2 & _). eauto.
      - eexists _, l. split; [done|]. apply onOrderUpdate_ok; [done|apply Hop]. }
    destruct Hstep as (st1 & l1 & -> & Hsys1). cbn [mbind res_bind]. by apply (IH st1 l1).
Qed.
End Life.

(** ** A sink that takes every valid request *)
#[export] Instance log_sink : RequestSink (list MEClientRequest).
Proof.
  refine {|
    clientId _ := 1;
    sendClientRequest r l :=
      Ok (if bool_decide (Wire.validate r = NONE) then (true, l ++ [r]) else (false, l));
    sink_holds l l' := l = l';
    sink_frame _ _ := True
  |}; try done.
  intros l l' r -> _ _. case_bool_decide as Hv; eexists _, _; (split; [reflexivity|]); by split_and!.
Defined.

Definition demo_flow : list OrderManager.OmOp :=
  [ OrderManager.OmMove 0 99 101 5;
    OrderManager.OmResponse (mkResponse ACCEPTED 1 0 1 7 BUY 99 0 5 NONE 1 0);
    OrderManager.OmMove 0 98 101 5;
    OrderManager.OmResponse (mkResponse CANCELED 1 0 1 7 BUY 99 Qty_INVALID 5 NONE 2 0);
    OrderManager.OmMove 0 98 Price_INVALID 5 ].

Lemma working_order_stays_witness :
  exists st o', OrderManager.om_run (take 3 demo_flow) (OrderManager.make, []) = Ok st /\
    OrderManager.order_at (OrderManager.slot_of 0 SELL) st.1 = Ok o' /\ om_order_id o' = 2 /\
    working o' = true.
Proof.
  assert (H : exists st1 st2 o, OrderManager.om_run (take 1 demo_flow) (OrderManager.make, []) = Ok st1 /\
    OrderManager.order_at (OrderManager.slot_of 0 SELL) st1.1 = Ok o /\ working o = true /\
    om_order_id o = 2 /\
    OrderManager.om_run (drop 1 (take 3 demo_flow)) st1 = Ok st2 /\
    OrderManager.om_run (take 3 demo_flow) (OrderManager.make, []) = Ok st2).
  { eexists _, _, _. split; [vm_compute; reflexivity|]. split; [vm_compute; reflexivity|].
    split; [vm_compute; reflexivity|]. split; [vm_compute; reflexivity|].
    split; vm_compute; reflexivity. }
  destruct H as (st1 & st2 & o & _ & Ho & Hw & Hid & Hrun & Hall).
  destruct (working_order_stays _ st1 st2 _ o Ho Hw Hrun) as (o' & H1 & H2 & H3).
  { intros r Hr _. cbn in Hr. set_unfold. by destruct Hr as [[= ->]|Hr]; [|naive_solver]. }
  exists st2, o'. split; [exact Hall|]. split; [exact H1|]. split; [by rewrite H2, Hid|exact H3].
Defined.

Lemma order_flow_is_well_formed_witness :
  exists m e l, OrderManager.om_run demo_flow (OrderManager.make, []) = Ok (m, e) /\
    e = l /\ flow_ok 1 l /\ rq_order_id <$> l = [1; 2; 1; 3].
Proof.
  assert (H0 : sink_holds ([] : list MEClientRequest) []) by reflexivity.
  assert (Hops : Forall op_ok demo_flow).
  { repeat (constructor; [cbn; unfold is_u32, ME_MAX_TICKERS, Qty_INVALID; lia|]). constructor. }
  destruct (order_flow_is_well_formed demo_flow ([] : list MEClientRequest) H0 Hops)
    as (m & e & l & Hrun & Hs & Hf).
  exists m, e, l. split; [exact Hrun|]. split; [exact Hs|]. split; [exact Hf|].
  cbn in Hs. subst e.
  assert (E : exists m', OrderManager.om_run demo_flow (OrderManager.make, []) = Ok (m', l)) by eauto.
  destruct E as [m' E]. vm_compute in E. injection E as _ <-. reflexivity.
Defined.
