(* ===== verification/Strategy.v ===== *)
(** Features and strategies: trading/strategy/feature_engine.h, strategy.h,
    market_maker.{h,cpp}, liquidity_taker.{h,cpp}, strategy_factory.{h,cpp}.

    A strategy is its three handlers; it reads the features and the book, and
    acts through the order manager.  Log lines are left out. *)
From S2P Require Import Prelude.
From S2P Require Import Types.
From S2P Require Import MemPool.
From S2P Require Import PriceLevels.
From S2P Require Import TradingTypes.
From S2P Require Import ClientBook.
From S2P Require Import OrderManager.
From stdpp Require Import base gmap list.
From Stdlib Require Import ZArith Lia SpecFloat.

Local Open Scope Z_scope.

(** ** Features *)
Record FeatureEngine : Type := mkFeatures {
  fe_prices : list double;
  fe_ratios : list double
}.

Definition Feature_INVALID : double := d_nan.

Module FeatureEngine.

Definition make : FeatureEngine :=
  mkFeatures (replicate (Z.to_nat ME_MAX_TICKERS) Feature_INVALID)
    (replicate (Z.to_nat ME_MAX_TICKERS) Feature_INVALID).

(** A two-sided quote with positive quantities. *)
Definition valid (bbo : BBO) : bool :=
  (0 <? bid_price bbo) && (0 <? ask_price bbo) && negb (bid_price bbo =? Price_INVALID)
  && negb (ask_price bbo =? Price_INVALID) && (0 <? bid_qty bbo) && (0 <? ask_qty bbo)
  && negb (bid_qty bbo =? BookQty_INVALID) && negb (ask_qty bbo =? BookQty_INVALID).

(** [if (!std::isfinite(x)) x = Feature_INVALID;] *)
Definition finite_or_invalid (x : double) : double := if isfinite x then x else Feature_INVALID.

(** Each price is weighted by the quantity of the other side. *)
Definition fair_price (bbo : BBO) : double :=
  d_div (d_add (d_mul (d_of_Z (bid_price bbo)) (d_of_Z (ask_qty bbo)))
               (d_mul (d_of_Z (ask_price bbo)) (d_of_Z (bid_qty bbo))))
    (d_add (d_of_Z (bid_qty bbo)) (d_of_Z (ask_qty bbo))).

Definition onOrderBookUpdate (ticker price : Z) (side : Side) (book : MarketOrderBook)
    (f : FeatureEngine) : FeatureEngine :=
  if ME_MAX_TICKERS <=? ticker then f else
  let bbo := MarketOrderBook.getBBO book in
  if valid bbo then
    mkFeatures (<[Z.to_nat ticker := finite_or_invalid (fair_price bbo)]> (fe_prices f)) (fe_ratios f)
  else
    mkFeatures (<[Z.to_nat ticker := Feature_INVALID]> (fe_prices f))
      (<[Z.to_nat ticker := Feature_INVALID]> (fe_ratios f)).

Definition onTradeUpdate (event : MEMarketUpdate) (book : MarketOrderBook) (f : FeatureEngine) :
    FeatureEngine :=
  if ME_MAX_TICKERS <=? mu_ticker_id event then f else
  let bbo := MarketOrderBook.getBBO book in
  let ratio :=
    if valid bbo && (0 <? mu_qty event) && negb (mu_qty event =? Qty_INVALID)
       && is_buy_or_sell (mu_side event)
    then finite_or_invalid
      (d_div (d_of_Z (mu_qty event))
         (d_of_Z (if bool_decide (mu_side event = BUY) then ask_qty bbo else bid_qty bbo)))
    else Feature_INVALID in
  mkFeatures (fe_prices f) (<[Z.to_nat (mu_ticker_id event) := ratio]> (fe_ratios f)).

(** The array read is in range: the index is below [ME_MAX_TICKERS]. *)
Definition getMktPrice (ticker : Z) (f : FeatureEngine) : double :=
  if ticker <? ME_MAX_TICKERS then default Feature_INVALID (fe_prices f !! Z.to_nat ticker)
  else Feature_INVALID.

Definition getAggTradeQtyRatio (ticker : Z) (f : FeatureEngine) : double :=
  if ticker <? ME_MAX_TICKERS then default Feature_INVALID (fe_ratios f !! Z.to_nat ticker)
  else Feature_INVALID.

End FeatureEngine.

(** ** Strategies *)
Record Strategy (E : Type) : Type := mkStrategy {
  onOrderBookUpdate : Z -> Z -> Side -> MarketOrderBook -> FeatureEngine -> OrderManager * E ->
    res (OrderManager * E);
  onTradeUpdate : MEMarketUpdate -> MarketOrderBook -> FeatureEngine -> OrderManager * E ->
    res (OrderManager * E);
  onOrderUpdate : MEClientResponse -> OrderManager * E -> res (OrderManager * E)
}.
Arguments mkStrategy {E} _ _ _.
Arguments onOrderBookUpdate {E} _ _ _ _ _ _ _.
Arguments onTradeUpdate {E} _ _ _ _ _.
Arguments onOrderUpdate {E} _ _ _.

(** [ticker_cfg_.at(ticker)]. *)
Definition cfg_at (ticker : Z) (cfg : list TradeEngineCfg) : res TradeEngineCfg :=
  match cfg !! Z.to_nat ticker with
  | Some c => Ok c
  | None => Err AssertFailed
  end.

Section Strategies.
Context {E : Type} `{RequestSink E}.


(** [MarketMaker::onOrderBookUpdate]. *)
Definition MarketMaker_onOrderBookUpdate (ticker_cfg : list TradeEngineCfg)
    (ticker_id price : Z) (side : Side) (book : MarketOrderBook) (features : FeatureEngine)
    (st : OrderManager * E) : res (OrderManager * E) :=
  let bbo := MarketOrderBook.getBBO book in
  let fair_price := FeatureEngine.getMktPrice ticker_id features in
  if negb (bid_price bbo =? Price_INVALID) && negb (ask_price bbo =? Price_INVALID)
     && isfinite fair_price then
    cfg ← cfg_at ticker_id ticker_cfg;
    let bid := i64 (bid_price bbo -
      (if d_ge (d_sub fair_price (d_of_Z (bid_price bbo))) (threshold cfg) then 0 else 1)) in
    if (bid_price bbo <=? 1) || (Price_INVALID - 1 <=? ask_price bbo) then Ok st else
    let ask := i64 (ask_price bbo +
      (if d_ge (d_sub (d_of_Z (ask_price bbo)) fair_price) (threshold cfg) then 0 else 1)) in
    OrderManager.moveOrders ticker_id bid ask (clip cfg) st
  else Ok st.

Definition MarketMaker (ticker_cfg : list TradeEngineCfg) : Strategy E := {|
  onOrderBookUpdate := MarketMaker_onOrderBookUpdate ticker_cfg;
  onTradeUpdate _ _ _ st := Ok st;
  onOrderUpdate r st := Ok (OrderManager.onOrderUpdate r st.1, st.2)
|}.

(** [LiquidityTaker::onTradeUpdate]. *)
Definition LiquidityTaker_onTradeUpdate (ticker_cfg : list TradeEngineCfg)
    (u : MEMarketUpdate) (book : MarketOrderBook) (features : FeatureEngine)
    (st : OrderManager * E) : res (OrderManager * E) :=
  let bbo := MarketOrderBook.getBBO book in
  let agg_qty_ratio := FeatureEngine.getAggTradeQtyRatio (mu_ticker_id u) features in
  if negb (bid_price bbo =? Price_INVALID) && negb (ask_price bbo =? Price_INVALID)
     && isfinite agg_qty_ratio then
    cfg ← cfg_at (mu_ticker_id u) ticker_cfg;
    if d_ge agg_qty_ratio (threshold cfg) then
      if bool_decide (mu_side u = BUY)
      then OrderManager.moveOrders (mu_ticker_id u) (ask_price bbo) Price_INVALID (clip cfg) st
      else OrderManager.moveOrders (mu_ticker_id u) Price_INVALID (bid_price bbo) (clip cfg) st
    else Ok st
  else Ok st.

Definition LiquidityTaker (ticker_cfg : list TradeEngineCfg) : Strategy E := {|
  onOrderBookUpdate _ _ _ _ _ st := Ok st;
  onTradeUpdate := LiquidityTaker_onTradeUpdate ticker_cfg;
  onOrderUpdate r st := Ok (OrderManager.onOrderUpdate r st.1, st.2)
|}.

(** The RANDOM load is produced by the main program; the strategy only logs. *)
Definition PassiveStrategy : Strategy E := {|
  onOrderBookUpdate _ _ _ _ _ st := Ok st;
  onTradeUpdate _ _ _ st := Ok st;
  onOrderUpdate _ st := Ok st
|}.

(** [None]: [std::invalid_argument]. *)
Definition createStrategy (type : AlgoType) (config : list TradeEngineCfg) : option (Strategy E) :=
  match type with
  | AlgoType_MAKER => Some (MarketMaker config)
  | AlgoType_TAKER => Some (LiquidityTaker config)
  | AlgoType_RANDOM => Some PassiveStrategy
  | _ => None
  end.

(** ** What the strategies send *)
Definition taker_price (u : MEMarketUpdate) (bbo : BBO) : Z :=
  if bool_decide (mu_side u = BUY) then ask_price bbo else bid_price bbo.

(** A configuration entry that the strategies can use. *)
Definition cfgs_ok (cfg : list TradeEngineCfg) : Prop :=
  length cfg = Z.to_nat ME_MAX_TICKERS /\ Forall (λ c, is_u32 (clip c)) cfg.

Lemma cfg_at_ok t cfg :
  cfgs_ok cfg -> 0 <= t < ME_MAX_TICKERS -> exists c, cfg_at t cfg = Ok c /\ is_u32 (clip c).
Proof.
  intros [Hl Hc] Ht. unfold cfg_at.
  destruct (lookup_lt_is_Some_2 cfg (Z.to_nat t)) as [c E0]; [lia|]. rewrite E0. exists c.
  split; [done|]. rewrite Forall_forall in Hc. apply Hc. by eapply list_elem_of_lookup_2.
Qed.

Lemma places_new t p s q r :
  places t p s q r -> rq_type r = NEW ->
  rq_ticker_id r = t /\ rq_side r = s /\ rq_price r = p /\ rq_qty r = q /\ p <> Price_INVALID.
Proof. intros Hp. exact Hp. Qed.

(** C34: a market maker only reacts to a two-sided quote with a usable
    estimate; the orders it places join the best price of their side or are
    one tick behind it, so its bid stays below its offer whenever the market
    is not crossed; its requests keep the flow of requests well-formed. *)
Theorem maker_quotes_are_passive cfg c l st t price side book features :
  sys_ok c l st -> cfgs_ok cfg -> 0 <= t < ME_MAX_TICKERS ->
  is_i64 (bid_price (cb_bbo book)) -> is_i64 (ask_price (cb_bbo book)) ->
  exists st' rs,
    onOrderBookUpdate (MarketMaker cfg) t price side book features st = Ok st' /\
    sys_ok c (l ++ rs) st' /\
    (rs <> [] -> bid_price (cb_bbo book) <> Price_INVALID /\ ask_price (cb_bbo book) <> Price_INVALID /\
       isfinite (FeatureEngine.getMktPrice t features) = true) /\
    forall r, r ∈ rs -> rq_type r = NEW ->
      rq_ticker_id r = t /\
      (rq_side r = BUY /\ 0 < rq_price r /\
         bid_price (cb_bbo book) - 1 <= rq_price r <= bid_price (cb_bbo book) \/
       rq_side r = SELL /\ rq_price r < Price_INVALID /\
         ask_price (cb_bbo book) <= rq_price r <= ask_price (cb_bbo book) + 1).
Proof.
  intros Hsys Hcfg Ht Hb Ha. cbn [onOrderBookUpdate MarketMaker]. unfold MarketMaker_onOrderBookUpdate.
  unfold MarketOrderBook.getBBO. set (bbo := cb_bbo book) in *.
  match goal with |- exists st' rs, _ /\ _ /\ (rs <> [] -> ?P) /\ forall r, r ∈ rs -> @?Q r =>
    assert (Hnone : exists st' rs, Ok st = Ok st' /\ sys_ok c (l ++ rs) st' /\ (rs <> [] -> P) /\
      forall r, r ∈ rs -> Q r) end.
  { exists st, []. rewrite app_nil_r. split_and!; try done. intros r Hr. set_solver. }
  destruct (negb _ && negb _ && _) eqn:Eg; [|done].
  rewrite !andb_true_iff, !negb_true_iff, !Z.eqb_neq in Eg. destruct Eg as [[E1 E2] E3].
  destruct (cfg_at_ok t cfg Hcfg Ht) as (cf & -> & Hq). cbn [mbind res_bind].
  destruct ((bid_price bbo <=? 1) || _) eqn:E4; [done|]. apply orb_false_iff in E4 as [E4 E5].
  set (db := if d_ge _ _ then 0 else 1). set (da := if d_ge (d_sub (d_of_Z (ask_price bbo)) _) _ then 0 else 1).
  assert (Hdb : 0 <= db <= 1) by (unfold db; by case_match; lia).
  assert (Hda : 0 <= da <= 1) by (unfold da; by case_match; lia).
  unfold is_i64, Price_INVALID in *. rewrite !i64_small by lia.
  destruct (moveOrders_ok c l t (bid_price bbo - db) (ask_price bbo + da) (clip cf) st Hsys Ht Hq)
    as (st' & rs & -> & Hsys' & HP).
  exists st', rs. split; [done|]. split; [done|]. split; [done|]. intros r Hr Hn.
  rewrite Forall_forall in HP. destruct (HP r Hr) as [Hp|Hp];
    destruct (Hp Hn) as (-> & -> & -> & _); (split; [done|]); [left|right]; (split; [done|]); lia.
Qed.

(** a liquidity taker only reacts to a trade that is large enough
    compared with the quote; it then bids the best offer after a buyer's
    trade, offers at the best bid after a seller's trade, and places no other
    order. *)
Theorem taker_follows_the_aggressor cfg c l st u book features :
  sys_ok c l st -> cfgs_ok cfg -> 0 <= mu_ticker_id u < ME_MAX_TICKERS ->
  exists st' rs,
    onTradeUpdate (LiquidityTaker cfg) u book features st = Ok st' /\
    sys_ok c (l ++ rs) st' /\
    forall r, r ∈ rs ->
      (exists cf, cfg_at (mu_ticker_id u) cfg = Ok cf /\
         d_ge (FeatureEngine.getAggTradeQtyRatio (mu_ticker_id u) features) (threshold cf) = true) /\
      (rq_type r = NEW ->
         rq_ticker_id r = mu_ticker_id u /\ rq_price r = taker_price u (cb_bbo book) /\
         rq_side r = if bool_decide (mu_side u = BUY) then BUY else SELL).
Proof.
  intros Hsys Hcfg Ht. cbn [onTradeUpdate LiquidityTaker]. unfold LiquidityTaker_onTradeUpdate.
  unfold MarketOrderBook.getBBO, taker_price. set (bbo := cb_bbo book) in *.
  set (ratio := FeatureEngine.getAggTradeQtyRatio _ _).
  match goal with |- exists st' rs, _ /\ _ /\ forall r, r ∈ rs -> @?Q r =>
    assert (Hnone : exists st' rs, Ok st = Ok st' /\ sys_ok c (l ++ rs) st' /\ forall r, r ∈ rs -> Q r) end.
  { exists st, []. rewrite app_nil_r. split_and!; try done. intros r Hr. set_solver. }
  destruct (negb _ && negb _ && _) eqn:Eg; [|done].
  destruct (cfg_at_ok _ cfg Hcfg Ht) as (cf & Hcf & Hq). rewrite Hcf in Hnone |- *. cbn [mbind res_bind].
  destruct (d_ge ratio (threshold cf)) eqn:Ed; [|done]. clear Hnone.
  destruct (bool_decide_reflect (mu_side u = BUY)) as [Es|Es].
  - destruct (moveOrders_ok c l _ (ask_price bbo) Price_INVALID (clip cf) st Hsys Ht Hq)
      as (st' & rs & -> & Hsys' & HP).
    exists st', rs. split; [done|]. split; [done|]. intros r Hr. split; [eauto|]. intros Hn.
    rewrite Forall_forall in HP.
    destruct (HP r Hr) as [Hp|Hp]; destruct (Hp Hn) as (H1 & H2 & H3 & _ & H4); done.
  - destruct (moveOrders_ok c l _ Price_INVALID (bid_price bbo) (clip cf) st Hsys Ht Hq)
      as (st' & rs & -> & Hsys' & HP).
    exists st', rs. split; [done|]. split; [done|]. intros r Hr. split; [eauto|]. intros Hn.
    rewrite Forall_forall in HP.
    destruct (HP r Hr) as [Hp|Hp]; destruct (Hp Hn) as (H1 & H2 & H3 & _ & H4); done.
Qed.
End Strategies.

(** ** The features follow the quotes *)
Inductive FeatureEvent : Type :=
  | FeBook (ticker price : Z) (side : Side) (book : MarketOrderBook)
  | FeTrade (u : MEMarketUpdate) (book : MarketOrderBook).

Definition fe_step (f : FeatureEngine) (e : FeatureEvent) : FeatureEngine :=
  match e with
  | FeBook t p s b => FeatureEngine.onOrderBookUpdate t p s b f
  | FeTrade u b => FeatureEngine.onTradeUpdate u b f
  end.

Definition fe_run (es : list FeatureEvent) : FeatureEngine := foldl fe_step FeatureEngine.make es.

Definition fe_ticker (e : FeatureEvent) : Z :=
  match e with
  | FeBook t _ _ _ => t
  | FeTrade u _ => mu_ticker_id u
  end.

(** The quote that a book event of ticker [t] brings. *)
Definition quote (t : Z) (e : FeatureEvent) : option BBO :=
  match e with
  | FeBook t' _ _ b => if t' =? t then Some (cb_bbo b) else None
  | FeTrade _ _ => None
  end.

(** A trade of ticker [t] against a valid quote, not followed by another
    trade of [t] nor by an invalid quote. *)
Definition fresh_trade (t : Z) (es : list FeatureEvent) : Prop :=
  exists es1 u b es2, es = es1 ++ FeTrade u b :: es2 /\ mu_ticker_id u = t /\
    FeatureEngine.valid (cb_bbo b) = true /\
    Forall (λ e, fe_ticker e = t -> exists q, quote t e = Some q /\ FeatureEngine.valid q = true) es2.

Definition features_ok (t : Z) (es : list FeatureEvent) (f : FeatureEngine) : Prop :=
  length (fe_prices f) = Z.to_nat ME_MAX_TICKERS /\ length (fe_ratios f) = Z.to_nat ME_MAX_TICKERS /\
  fe_prices f !! Z.to_nat t = Some (match last (omap (quote t) es) with
    | Some q => if FeatureEngine.valid q then FeatureEngine.finite_or_invalid (FeatureEngine.fair_price q)
                else Feature_INVALID
    | None => Feature_INVALID
    end) /\
  exists x, fe_ratios f !! Z.to_nat t = Some x /\ (isfinite x = true -> fresh_trade t es).

Lemma fresh_trade_snoc t es e :
  fresh_trade t es ->
  (fe_ticker e = t -> exists q, quote t e = Some q /\ FeatureEngine.valid q = true) ->
  fresh_trade t (es ++ [e]).
Proof.
  intros (es1 & u & b & es2 & -> & Hu & Hv & Hf) He. exists es1, u, b, (es2 ++ [e]).
  rewrite <- app_assoc. split_and!; try done. apply Forall_app. by rewrite Forall_singleton.
Qed.

Lemma fe_step_ok t es f e :
  0 <= t < ME_MAX_TICKERS -> 0 <= fe_ticker e ->
  features_ok t es f -> features_ok t (es ++ [e]) (fe_step f e).
Proof.
  intros Ht He (Hp & Hr & Hprice & x & Hx & Hfresh). unfold features_ok.
  rewrite omap_app, last_app. destruct e as [t' p s b|u b]; cbn [fe_step fe_ticker] in *.
  - unfold FeatureEngine.onOrderBookUpdate, MarketOrderBook.getBBO. cbn [omap list_omap quote].
    destruct (Z.eqb_spec t' t) as [->|Hne]; cbn [last].
    + rewrite (proj2 (Z.leb_gt _ _)) by lia.
      destruct (FeatureEngine.valid (cb_bbo b)) eqn:Ev; cbn [fe_prices fe_ratios]; rewrite ?length_insert.
      * split_and!; try done; [by rewrite list_lookup_insert_eq by lia|]. exists x. split; [done|].
        intros Hfin. apply fresh_trade_snoc; [auto|]. intros _. cbn. rewrite Z.eqb_refl. eauto.
      * split_and!; try done; [by rewrite list_lookup_insert_eq by lia|]. exists Feature_INVALID.
        split; [by rewrite list_lookup_insert_eq by lia|done].
    + assert (Hs : fresh_trade t es -> fresh_trade t (es ++ [FeBook t' p s b]))
        by (intros Hft; by apply fresh_trade_snoc).
      destruct (ME_MAX_TICKERS <=? t'); [split_and!; eauto 6|].
      destruct (FeatureEngine.valid (cb_bbo b)); cbn [fe_prices fe_ratios];
        rewrite ?length_insert, ?list_lookup_insert_ne by lia; split_and!; eauto 6.
  - unfold FeatureEngine.onTradeUpdate, MarketOrderBook.getBBO. cbn [omap list_omap quote last].
    destruct (Z.leb_spec ME_MAX_TICKERS (mu_ticker_id u)).
    { split_and!; try done. exists x. split; [done|]. intros Hfin. apply fresh_trade_snoc; [auto|].
      cbn. lia. }
    cbn [fe_prices fe_ratios]. rewrite length_insert. split_and!; try done.
    destruct (Z.eq_dec (mu_ticker_id u) t) as [Eu|Hne].
    + rewrite Eu, list_lookup_insert_eq by lia. eexists. split; [done|]. intros Hfin.
      destruct (FeatureEngine.valid (cb_bbo b)) eqn:Ev; [|done].
      exists es, u, b, []. split_and!; try done.
    + rewrite list_lookup_insert_ne by lia. exists x. split; [done|]. intros Hfin.
      apply fresh_trade_snoc; [auto|]. cbn. done.
Qed.

(** C35: the fair price of a ticker is always that of its last quote, and is
    no number when this quote is missing or one-sided; a trade ratio is a
    number only while the quotes since its trade have all been valid.  A
    strategy that tests its feature never acts on a stale quote. *)
Theorem features_are_never_stale es t :
  0 <= t < ME_MAX_TICKERS -> Forall (λ e, 0 <= fe_ticker e) es ->
  FeatureEngine.getMktPrice t (fe_run es) =
    match last (omap (quote t) es) with
    | Some q => if FeatureEngine.valid q then FeatureEngine.finite_or_invalid (FeatureEngine.fair_price q)
                else Feature_INVALID
    | None => Feature_INVALID
    end /\
  (isfinite (FeatureEngine.getAggTradeQtyRatio t (fe_run es)) = true -> fresh_trade t es).
Proof.
  intros Ht Hes.
  assert (Hok : features_ok t es (fe_run es)).
  { induction es as [|e es IH] using rev_ind.
    - unfold features_ok, fe_run. cbn [foldl omap list_omap last FeatureEngine.make fe_prices fe_ratios].
      assert (Hlk : replicate (Z.to_nat ME_MAX_TICKERS) Feature_INVALID !! Z.to_nat t = Some Feature_INVALID)
        by (apply lookup_replicate; split; [done|lia]).
      rewrite length_replicate. split_and!; try done. by exists Feature_INVALID.
    - apply Forall_app in Hes as [Hes He]. rewrite Forall_singleton in He. unfold fe_run.
      rewrite foldl_app. cbn [foldl]. apply fe_step_ok; [done|done|by apply IH]. }
  destruct Hok as (_ & _ & Hp & x & Hx & Hf).
  unfold FeatureEngine.getMktPrice, FeatureEngine.getAggTradeQtyRatio.
  rewrite (proj2 (Z.ltb_lt _ _)) by lia. rewrite Hp, Hx. by split.
Qed.

(** ** Witnesses *)
Definition demo_quote (bid ask bid_q ask_q : Z) : MarketOrderBook :=
  mkClientBook 0 (mkLevels (mkPool 1 ∅ [0]) (mkPool 1 ∅ [0]) ∅ None None) ∅ ∅ (mkBBO bid ask bid_q ask_q).

Definition demo_trade : MEMarketUpdate := mkUpdate MD_TRADE OrderId_INVALID 0 BUY 103 8 0.

Definition demo_events : list FeatureEvent :=
  [FeBook 0 100 BUY (demo_quote 100 103 10 10); FeTrade demo_trade (demo_quote 100 103 10 10)].

Definition demo_strategy_cfg : list TradeEngineCfg :=
  replicate (Z.to_nat ME_MAX_TICKERS) (mkCfg 5 d_half (mkRiskCfg 100 100 (d_of_Z (-1000)))).

Lemma demo_cfgs_ok : cfgs_ok demo_strategy_cfg.
Proof.
  split; [reflexivity|]. apply Forall_forall. intros c Hc. apply elem_of_replicate in Hc as [-> _].
  cbn. unfold is_u32. lia.
Defined.

Lemma features_are_never_stale_witness :
  isfinite (FeatureEngine.getMktPrice 0 (fe_run demo_events)) = true /\ fresh_trade 0 demo_events.
Proof.
  assert (H : Forall (λ e, 0 <= fe_ticker e) demo_events).
  { repeat (constructor; [cbn; lia|]). constructor. }
  destruct (features_are_never_stale demo_events 0 ltac:(unfold ME_MAX_TICKERS; lia) H) as [Hp Hf].
  split; [rewrite Hp; vm_compute; reflexivity|]. apply Hf. vm_compute. reflexivity.
Defined.

Lemma demo_sys_ok : sys_ok (@nil MEClientRequest) [] (OrderManager.make, @nil MEClientRequest).
Proof. exact (sys_ok_make (E := list MEClientRequest) [] eq_refl). Defined.

Lemma maker_quotes_are_passive_witness :
  exists st' rs,
    onOrderBookUpdate (MarketMaker demo_strategy_cfg) 0 100 BUY (demo_quote 100 103 10 10)
      (fe_run demo_events) (OrderManager.make, @nil MEClientRequest) = Ok st' /\
    sys_ok (@nil MEClientRequest) ([] ++ rs) st' /\ st'.2 = rs /\ rq_price <$> rs = [100; 103].
Proof.
  destruct (maker_quotes_are_passive demo_strategy_cfg (@nil MEClientRequest) [] (OrderManager.make, @nil MEClientRequest)
    0 100 BUY (demo_quote 100 103 10 10) (fe_run demo_events) demo_sys_ok demo_cfgs_ok)
    as (st' & rs & Hrun & Hsys & _); [unfold ME_MAX_TICKERS; lia|cbn; unfold is_i64; lia..|].
  exists st', rs. split; [exact Hrun|]. split; [exact Hsys|].
  assert (E : st'.2 = rs) by apply Hsys. split; [exact E|]. subst rs.
  vm_compute in Hrun. injection Hrun as <-. reflexivity.
Defined.

Lemma taker_follows_the_aggressor_witness :
  exists st' rs,
    onTradeUpdate (LiquidityTaker demo_strategy_cfg) demo_trade (demo_quote 100 103 10 10)
      (fe_run demo_events) (OrderManager.make, @nil MEClientRequest) = Ok st' /\
    sys_ok (@nil MEClientRequest) ([] ++ rs) st' /\ rq_price <$> st'.2 = [103].
Proof.
  destruct (taker_follows_the_aggressor demo_strategy_cfg (@nil MEClientRequest) [] (OrderManager.make, @nil MEClientRequest)
    demo_trade (demo_quote 100 103 10 10) (fe_run demo_events) demo_sys_ok demo_cfgs_ok)
    as (st' & rs & Hrun & Hsys & _); [cbn; unfold ME_MAX_TICKERS; lia|].
  exists st', rs. split; [exact Hrun|]. split; [exact Hsys|].
  vm_compute in Hrun. injection Hrun as <-. reflexivity.
Defined.
