(* ===== verification/TradeGate.v ===== *)
(** Admission and reconciliation: the part of trading/strategy/trade_engine.{h,cpp}
    that decides which requests leave and which reports count
    ([sendClientRequest], the locked block of [onOrderUpdate], [quiesce],
    [writeCheckpoint]).

    [Gate] holds the members of [TradeEngine] that these functions use.  It is
    the sink through which the order manager sends. *)
From S2P Require Import Prelude.
From S2P Require Import Types.
From S2P Require Import Wire.
From S2P Require Import LFQueue.
From S2P Require Import Journal.
From S2P Require Import TradingTypes.
From S2P Require Import PositionKeeper.
From S2P Require Import MapSum.
From S2P Require Import RiskManager.
From S2P Require Import OrderManager.
From stdpp Require Import base gmap list sorting pretty.
From Stdlib Require Import ZArith Lia.

Local Open Scope Z_scope.

Record Gate : Type := mkGate {
  g_client_id : Z;
  g_requests : LFQueue MEClientRequest;     (* outgoing_ogw_requests_ *)
  g_admitting : bool;
  g_market_generation : Z;
  g_applied_generation : Z;
  g_order_session : option bool;            (* the flag of the gateway, if set *)
  g_reconciled : bool;
  g_last_response_id : Z;
  g_accepted : Z;
  g_rejected : Z;
  g_duplicates : Z;
  g_keeper : PositionKeeper;
  g_risk : RiskManager
}.

(** ** Updates of single members *)
Definition with_requests (q : LFQueue MEClientRequest) (g : Gate) : Gate :=
  mkGate (g_client_id g) q (g_admitting g) (g_market_generation g) (g_applied_generation g)
    (g_order_session g) (g_reconciled g) (g_last_response_id g) (g_accepted g) (g_rejected g)
    (g_duplicates g) (g_keeper g) (g_risk g).
Definition with_admitting (b : bool) (g : Gate) : Gate :=
  mkGate (g_client_id g) (g_requests g) b (g_market_generation g) (g_applied_generation g)
    (g_order_session g) (g_reconciled g) (g_last_response_id g) (g_accepted g) (g_rejected g)
    (g_duplicates g) (g_keeper g) (g_risk g).
Definition with_generations (market applied : Z) (g : Gate) : Gate :=
  mkGate (g_client_id g) (g_requests g) (g_admitting g) market applied
    (g_order_session g) (g_reconciled g) (g_last_response_id g) (g_accepted g) (g_rejected g)
    (g_duplicates g) (g_keeper g) (g_risk g).
Definition with_session (s : option bool) (g : Gate) : Gate :=
  mkGate (g_client_id g) (g_requests g) (g_admitting g) (g_market_generation g)
    (g_applied_generation g) s (g_reconciled g) (g_last_response_id g) (g_accepted g)
    (g_rejected g) (g_duplicates g) (g_keeper g) (g_risk g).
Definition with_reconciled (b : bool) (g : Gate) : Gate :=
  mkGate (g_client_id g) (g_requests g) (g_admitting g) (g_market_generation g)
    (g_applied_generation g) (g_order_session g) b (g_last_response_id g) (g_accepted g)
    (g_rejected g) (g_duplicates g) (g_keeper g) (g_risk g).
Definition with_last_response (id : Z) (g : Gate) : Gate :=
  mkGate (g_client_id g) (g_requests g) (g_admitting g) (g_market_generation g)
    (g_applied_generation g) (g_order_session g) (g_reconciled g) id (g_accepted g)
    (g_rejected g) (g_duplicates g) (g_keeper g) (g_risk g).
Definition with_counters (accepted rejected duplicates : Z) (g : Gate) : Gate :=
  mkGate (g_client_id g) (g_requests g) (g_admitting g) (g_market_generation g)
    (g_applied_generation g) (g_order_session g) (g_reconciled g) (g_last_response_id g) accepted
    rejected duplicates (g_keeper g) (g_risk g).
Definition with_keeper (k : PositionKeeper) (g : Gate) : Gate :=
  mkGate (g_client_id g) (g_requests g) (g_admitting g) (g_market_generation g)
    (g_applied_generation g) (g_order_session g) (g_reconciled g) (g_last_response_id g)
    (g_accepted g) (g_rejected g) (g_duplicates g) k (g_risk g).
Definition with_risk (m : RiskManager) (g : Gate) : Gate :=
  mkGate (g_client_id g) (g_requests g) (g_admitting g) (g_market_generation g)
    (g_applied_generation g) (g_order_session g) (g_reconciled g) (g_last_response_id g)
    (g_accepted g) (g_rejected g) (g_duplicates g) (g_keeper g) m.

Module Gate.

(** The constructor of the engine, as far as these members go. *)
Definition make (client_id : Z) (ticker_cfg : list TradeEngineCfg)
    (client_requests : LFQueue MEClientRequest) : Gate :=
  mkGate client_id client_requests true 1 0 None true 0 0 0 0 PositionKeeper.make
    (RiskManager.make ticker_cfg).

Definition marketReady (g : Gate) : bool := g_applied_generation g =? g_market_generation g.

Definition setMarketTrusted (trusted : bool) (g : Gate) : Gate :=
  with_generations (g_market_generation g) (if trusted then g_market_generation g else 0) g.

(** [market_generation_.fetch_add(1)]. *)
Definition bump_generation (g : Gate) : Gate :=
  with_generations (u64 (g_market_generation g + 1)) (g_applied_generation g) g.

Definition setOrderSession (state : bool) (g : Gate) : Gate := with_session (Some state) g.

Definition reject (g : Gate) : Gate :=
  with_counters (g_accepted g) (u64 (g_rejected g + 1)) (g_duplicates g) g.

(** The tests at the head of [sendClientRequest]. *)
Definition refused (r : MEClientRequest) (g : Gate) : bool :=
  (negb (g_admitting g) && bool_decide (rq_type r = NEW))
  || negb (bool_decide (Wire.validate r = NONE))
  || negb (rq_client_id r =? g_client_id g) || negb (g_reconciled g)
  || bool_decide (g_order_session g = Some false)
  || (bool_decide (rq_type r = NEW) && negb (marketReady g)).

Definition sendClientRequest (r : MEClientRequest) (g : Gate) : res (bool * Gate) :=
  if refused r g then Ok (false, reject g) else
  '(risk, m) ← RiskManager.reserve r (g_keeper g) (g_risk g);
  let g := with_risk m g in
  if negb (bool_decide (risk = ALLOWED)) then Ok (false, reject g) else
  '(pushed, q) ← LFQueue.try_push r (g_requests g);
  let g := with_requests q g in
  if negb pushed then
    m ← RiskManager.rollback r (g_risk g);
    Ok (false, reject (with_risk m g))
  else
    Ok (true, with_counters (u64 (g_accepted g + 1)) (g_rejected g) (g_duplicates g) g).

(** The locked block of [onOrderUpdate]; [true]: the strategy is told. *)
Definition reconcile (r : MEClientResponse) (g : Gate) : res (bool * Gate) :=
  if negb (rs_client_id r =? g_client_id g) || (ME_MAX_TICKERS <=? rs_ticker_id r)
  then Ok (false, with_reconciled false g) else
  if negb (rs_response_id r =? 0) && (rs_response_id r <=? g_last_response_id g)
  then Ok (false, with_counters (g_accepted g) (g_rejected g) (u64 (g_duplicates g + 1)) g) else
  if (rs_response_id r =? 0) && bool_decide (rs_type r = FILLED)
  then Ok (false, with_reconciled false g) else
  let g := if negb (rs_response_id r =? 0) then with_last_response (rs_response_id r) g else g in
  '(matched, m) ← RiskManager.onResponse r (g_risk g);
  let g := with_risk m g in
  if negb matched then Ok (false, with_reconciled false g) else
  k ← (if bool_decide (rs_type r = FILLED) then PositionKeeper.addFill r (g_keeper g)
       else Ok (g_keeper g));
  let g := with_keeper k g in
  mismatch ← (if bool_decide (rs_type r = STATE) then
                p ← PositionKeeper.getPositionInfo (rs_ticker_id r) (g_keeper g);
                Ok (negb (rs_position r =? position p))
              else Ok false);
  if mismatch : bool then Ok (false, with_reconciled false g)
  else Ok (true, g).

(** [quiesce]: the other threads act while it sleeps ([env]); [expired k]: at
    the k-th failed attempt the deadline has passed. *)
Section Quiesce.
Context (env : Gate -> Gate) (expired : nat -> bool).

(** The rest of the requests and the number of failed attempts so far;
    returns [false] when it gives up. *)
Fixpoint quiesce_loop (fuel failed : nat) (cancels : list MEClientRequest) (g : Gate) :
    res (bool * Gate) :=
  match cancels with
  | [] => Ok (true, g)
  | request :: cancels' =>
      match fuel with
      | O => Err NoFuel
      | S fuel =>
          '(sent, g) ← sendClientRequest request g;
          if sent : bool then quiesce_loop fuel failed cancels' g
          else if bool_decide (g_order_session g = Some false) || expired failed then Ok (false, g)
          else quiesce_loop fuel (S failed) cancels (env g)
      end
  end.

Definition quiesce (fuel : nat) (g : Gate) : res (bool * Gate) :=
  let g := with_admitting false g in
  quiesce_loop fuel 0 (RiskManager.cancellations (g_client_id g) (g_risk g)) g.
End Quiesce.

Definition position_text (ticker : Z) (p : PositionInfo) : string :=
  fields ["POSITION"; pretty ticker; pretty (position p); pretty (volume p)].

(** [std::to_string] of a [bool]. *)
Definition bool_text (b : bool) : string := if b then "1" else "0".

Definition writeCheckpoint (epoch : Z) (healthy : bool) (g : Gate) (audit : CriticalJournal) :
    res CriticalJournal :=
  let audit := append (fields ["ACCOUNT"; pretty (g_client_id g); pretty epoch; bool_text healthy]) audit in
  audit ← res_fold (λ audit ticker,
    p ← PositionKeeper.getPositionInfo ticker (g_keeper g);
    Ok (append (position_text ticker p) audit)) (seqZ 0 ME_MAX_TICKERS) audit;
  Ok (foldl (λ audit request, journal_request "UNRESOLVED" request audit) audit
    (RiskManager.cancellations (g_client_id g) (g_risk g))).

End Gate.

(** ** The invariant *)

(** [l]: the requests taken so far; the gateway has removed a prefix of them
    from the queue. *)
Record gate_ok (g : Gate) (l : list MEClientRequest) : Prop := {
  gk_risk : risk_ok (g_risk g) (g_keeper g);
  gk_queue : exists sent waiting, l = sent ++ waiting /\ queue_ok (g_requests g) waiting;
  gk_valid r : r ∈ l -> Wire.validate r = NONE /\ rq_client_id r = g_client_id g;
  gk_source key v : rk_reservations (g_risk g) !! key = Some v ->
    exists r, r ∈ l /\ rq_type r = NEW /\ RiskManager.request_key r = key /\
      rq_side r = rv_side v /\ rq_price r = rv_price v
}.

(** ** Admission *)
Lemma reserve_other r k m : rq_type r <> NEW -> RiskManager.reserve r k m = Ok (ALLOWED, m).
Proof. intros H. unfold RiskManager.reserve. by rewrite bool_decide_false. Qed.

Lemma rollback_other r m : rq_type r <> NEW -> RiskManager.rollback r m = Ok m.
Proof. intros H. unfold RiskManager.rollback. by rewrite bool_decide_false. Qed.

(** Taking back what was added to a pending quantity. *)
Lemma add_pending_undo s t d m k m1 :
  risk_ok m k -> tradable_side s -> known_ticker t -> 0 <= pend s t m + d < 2 ^ 64 ->
  RiskManager.add_pending s t d m = Ok m1 -> RiskManager.add_pending s t (- d) m1 = Ok m.
Proof.
  intros Hok Hs Ht Hd H. unfold RiskManager.add_pending in *.
  pose proof (lookup_pend _ _ s t Hok Ht) as Hv. rewrite Hv in H. cbn [deref mbind res_bind] in H.
  pose proof (pend_bound _ _ _ _ Hok Hs Ht) as Hb. pose proof (ro_arrays _ _ Hok s) as Hlen.
  unfold known_ticker in Ht. rewrite u64_small in H by lia.
  set (l := <[Z.to_nat t := pend s t m + d]> (RiskManager.pending_array s m)) in H.
  assert (El : RiskManager.pending_array s m1 = l /\ rk_cfg m1 = rk_cfg m /\
    rk_reservations m1 = rk_reservations m /\ (s = BUY -> rk_sell m1 = rk_sell m) /\
    (s = SELL -> rk_buy m1 = rk_buy m)).
  { injection H as <-. unfold RiskManager.pending_array. destruct Hs as [-> | ->]; done. }
  destruct El as (El & Ec & Er & Esell & Ebuy). rewrite El.
  assert (Hl : l !! Z.to_nat t = Some (pend s t m + d)) by (apply list_lookup_insert_eq; lia).
  rewrite Hl. cbn [deref mbind res_bind].
  replace (pend s t m + d + - d) with (pend s t m) by lia. rewrite u64_small by lia.
  unfold l. rewrite list_insert_insert_eq, list_insert_id by done. rewrite Ec, Er.
  destruct Hs as [-> | ->]; cbn [bool_decide]; unfold RiskManager.pending_array in *.
  - rewrite Esell by done. by destruct m.
  - rewrite Ebuy by done. by destruct m.
Qed.

(** [rollback] undoes [reserve]. *)
Lemma reserve_rollback r m k m1 :
  risk_ok m k -> 0 <= rq_ticker_id r -> is_u32 (rq_qty r) ->
  RiskManager.reserve r k m = Ok (ALLOWED, m1) -> RiskManager.rollback r m1 = Ok m.
Proof.
  intros Hok Ht Hq Hr. destruct (decide (rq_type r = NEW)) as [Hn|Hn].
  2:{ rewrite reserve_other in Hr by done. injection Hr as <-. by apply rollback_other. }
  unfold RiskManager.reserve in Hr. rewrite bool_decide_true in Hr by done. cbn [negb] in Hr.
  destruct (bool_decide_reflect (is_Some (rk_reservations m !! RiskManager.request_key r))) as [|Hfresh]; [done|].
  apply eq_None_not_Some in Hfresh.
  destruct (check_ok m k (rq_ticker_id r) (rq_side r) (rq_qty r) Hok Ht Hq) as (chk & Hchk & Hal).
  rewrite Hchk in Hr. cbn [mbind res_bind] in Hr.
  destruct (bool_decide_reflect (chk = ALLOWED)) as [Ec|Ec]; cbn [negb] in Hr; [|congruence].
  destruct (Hal Ec) as (Hkt & Hs & Hqr & _). rewrite add_pending_reservations in Hr.
  destruct (RiskManager.add_pending (rq_side r) (rq_ticker_id r) (rq_qty r) m) as [m2|] eqn:Ha; [|done].
  cbn [mbind res_bind] in Hr. injection Hr as _ <-. unfold RiskManager.rollback. rewrite bool_decide_true by done. cbn [negb].
  cbn [rk_reservations RiskManager.with_reservations].
  rewrite lookup_insert_eq. cbn [rv_side rv_qty]. rewrite add_pending_reservations.
  pose proof (pend_bound _ _ _ _ Hok Hs Hkt) as Hb. unfold INT32_MAX in Hqr.
  assert (Hd : 0 <= pend (rq_side r) (rq_ticker_id r) m + rq_qty r < 2 ^ 64) by lia.
  rewrite (add_pending_undo _ _ _ _ _ _ Hok Hs Hkt Hd Ha). cbn [mbind res_bind].
  unfold RiskManager.with_reservations. cbn [rk_reservations rk_cfg rk_buy rk_sell].
  rewrite delete_insert_id by done. by destruct m.
Qed.

(** What [sendClientRequest] does, decision by decision. *)
Lemma send_cases r g l :
  gate_ok g l -> 0 <= rq_ticker_id r -> is_u32 (rq_qty r) ->
  exists sent g', Gate.sendClientRequest r g = Ok (sent, g') /\
    if sent then
      Gate.refused r g = false /\
      RiskManager.reserve r (g_keeper g) (g_risk g) = Ok (ALLOWED, g_risk g') /\
      (exists waiting, queue_ok (g_requests g) waiting /\
         queue_ok (g_requests g') (waiting ++ [r])) /\
      g' = with_counters (u64 (g_accepted g + 1)) (g_rejected g) (g_duplicates g)
             (with_requests (g_requests g') (with_risk (g_risk g') g)) /\
      capacity (g_requests g') = capacity (g_requests g)
    else exists q, g' = Gate.reject (with_requests q g) /\ (q = g_requests g \/ q = recordFull (g_requests g)).
Proof.
  intros Hok Ht Hq. unfold Gate.sendClientRequest.
  assert (Hsame : forall g0 : Gate, with_requests (g_requests g0) g0 = g0) by (by intros []).
  destruct (Gate.refused r g) eqn:Er.
  { eexists false, _. split; [done|]. exists (g_requests g). rewrite Hsame. split; [done|by left]. }
  destruct (reserve_ok r _ _ (gk_risk _ _ Hok) Ht Hq) as (chk & m & Hres & Hok1 & Hno & _).
  rewrite Hres. cbn [mbind res_bind]. destruct (bool_decide_reflect (chk = ALLOWED)) as [->|Hc]; cbn [negb].
  2:{ eexists false, _. split; [done|]. exists (g_requests g). rewrite (Hno Hc).
      replace (with_risk (g_risk g) g) with g by (by destruct g). rewrite Hsame. split; [done|by left]. }
  destruct (gk_queue _ _ Hok) as (l1 & l2 & El & Hqueue).
  pose proof (try_push_ok _ _ r Hqueue) as Hpush. cbn [g_requests with_risk].
  destruct (_ =? capacity _).
  - destruct Hpush as [-> _]. cbn [mbind res_bind negb].
    change (g_risk (with_requests _ (with_risk m g))) with m.
    rewrite (reserve_rollback _ _ _ _ (gk_risk _ _ Hok) Ht Hq Hres). cbn [mbind res_bind].
    eexists false, _. split; [done|]. exists (recordFull (g_requests g)). split; [by destruct g|by right].
  - destruct Hpush as (q' & -> & Hq' & Hcap). cbn [mbind res_bind negb].
    eexists true, _. split; [done|]. split; [done|]. split; [done|].
    split; [by exists l2|]. by split.
Qed.

Lemma not_refused r g :
  Gate.refused r g = false ->
  Wire.validate r = NONE /\ rq_client_id r = g_client_id g /\ g_reconciled g = true /\
  g_order_session g <> Some false /\
  (rq_type r = NEW -> g_admitting g = true /\ Gate.marketReady g = true).
Proof.
  unfold Gate.refused. rewrite !orb_false_iff, !negb_false_iff, !bool_decide_eq_true, bool_decide_eq_false.
  rewrite Z.eqb_eq. intros [[[[[H1 H2] H3] H4] H5] H6]. split_and!; try done. intros Hn.
  rewrite bool_decide_true in H1, H6 by done. rewrite andb_true_r in H1.
  apply negb_false_iff in H1. cbn in H6. by apply negb_false_iff in H6.
Qed.

Lemma gate_ok_counters g l a b c : gate_ok g l -> gate_ok (with_counters a b c g) l.
Proof. intros []. by split. Qed.

Lemma gate_ok_full g l q :
  gate_ok g l -> q = g_requests g \/ q = recordFull (g_requests g) ->
  gate_ok (with_requests q g) l.
Proof.
  intros Hok Hq. split; try apply Hok.
  destruct (gk_queue _ _ Hok) as (l1 & l2 & El & Hqueue). exists l1, l2. split; [done|].
  cbn [g_requests with_requests]. destruct Hq as [-> | ->]; [done|]. destruct Hqueue. by split.
Qed.

(** The gate is a sink for the order manager. *)
Lemma send_ok r g l :
  gate_ok g l -> 0 <= rq_ticker_id r -> is_u32 (rq_qty r) ->
  exists sent g', Gate.sendClientRequest r g = Ok (sent, g') /\ g_client_id g' = g_client_id g /\
    (sent = true -> Wire.validate r = NONE) /\ gate_ok g' (if sent then l ++ [r] else l).
Proof.
  intros Hok Ht Hq. destruct (send_cases r g l Hok Ht Hq) as (sent & g' & -> & Hcase).
  exists sent, g'. split; [done|]. destruct sent.
  2:{ destruct Hcase as (q & -> & Hq'). split; [done|]. split; [done|].
      by apply gate_ok_counters, gate_ok_full. }
  destruct Hcase as (Hr & Hres & (l2 & Hw & Hw') & Eg & _).
  destruct (not_refused _ _ Hr) as (Hv & Hc & _).
  split; [by rewrite Eg|]. split; [done|].
  destruct (reserve_ok r _ _ (gk_risk _ _ Hok) Ht Hq) as (chk & m & Hres' & Hrisk & _ & Hnew).
  rewrite Hres in Hres'. injection Hres' as <- <-.
  split.
  - rewrite Eg. exact Hrisk.
  - destruct (gk_queue _ _ Hok) as (l1 & l3 & -> & Hq3).
    rewrite (queue_contents_unique _ _ _ Hw Hq3) in Hw'. exists l1, (l3 ++ [r]).
    by rewrite app_assoc.
  - intros r0. rewrite elem_of_app, list_elem_of_singleton. rewrite Eg. cbn [g_client_id with_counters with_requests with_risk].
    intros [Hin| ->]; [by apply Hok|done].
  - intros key v Hkey. destruct (decide (rq_type r = NEW)) as [Hn|Hn].
    + destruct (Hnew Hn eq_refl) as [_ Hins]. rewrite Hins in Hkey.
      apply lookup_insert_Some in Hkey as [[<- <-]|[_ Hkey]].
      * exists r. split_and!; try done. apply elem_of_app. right. by apply list_elem_of_singleton.
      * destruct (gk_source _ _ Hok _ _ Hkey) as (r0 & Hin & Hrest). exists r0.
        split; [apply elem_of_app; by left|done].
    + rewrite reserve_other in Hres by done. injection Hres as Hres. rewrite <- Hres in Hkey.
      destruct (gk_source _ _ Hok _ _ Hkey) as (r0 & Hin & Hrest). exists r0.
      split; [apply elem_of_app; by left|done].
Qed.
