(* ===== verification/TradeGateTheorems.v ===== *)
(** What admission and reconciliation guarantee.

    The threads that act on the gate are interleaved as a sequence of
    operations ([GateOp]): the strategy sends, the exchange reports, the
    recovery thread moves the generations, the gateway takes requests from the
    queue and flips the session flag. *)
From S2P Require Import Prelude.
From S2P Require Import Types.
From S2P Require Import Wire.
From S2P Require Import LFQueue.
From S2P Require Import Journal.
From S2P Require Import TradingTypes.
From S2P Require Import PositionKeeper.
From S2P Require Import MapSum.
From S2P Require Import RiskManager.
From S2P Require Import OrderManager.
From S2P Require Import TradeGate.
From stdpp Require Import base gmap list sorting pretty.
From Stdlib Require Import ZArith Lia.

Local Open Scope Z_scope.

(** What sending never changes. *)
Definition gate_frame (g g' : Gate) : Prop :=
  g_client_id g' = g_client_id g /\ rk_cfg (g_risk g') = rk_cfg (g_risk g).

Lemma send_frame r g l sent g' :
  gate_ok g l -> 0 <= rq_ticker_id r -> is_u32 (rq_qty r) ->
  Gate.sendClientRequest r g = Ok (sent, g') -> gate_frame g g'.
Proof.
  intros Hok Ht Hq H. destruct (send_cases r g l Hok Ht Hq) as (b & g1 & E & Hc).
  rewrite H in E. injection E as <- <-. destruct sent.
  - destruct Hc as (_ & Hres & _ & Eg & _). split; [by rewrite Eg|].
    apply (risk_step_cfg (g_risk g, g_keeper g) (g_risk g', g_keeper g)). by eapply rs_reserve.
  - by destruct Hc as (q & -> & _).
Qed.

#[export] Instance gate_sink : RequestSink Gate.
Proof.
  refine {|
    OrderManager.clientId := g_client_id;
    OrderManager.sendClientRequest := Gate.sendClientRequest;
    OrderManager.sink_holds := gate_ok;
    OrderManager.sink_frame := gate_frame
  |}.
  - done.
  - intros g1 g2 g3 [? ?] [? ?]. split; congruence.
  - by intros g g' [? _].
  - intros g l r Hok Ht Hq. destruct (send_ok r g l Hok Ht Hq) as (sent & g' & H & _ & Hv & Hok').
    exists sent, g'. split; [done|]. split; [by eapply send_frame|done].
Defined.

(** ** Reports *)
Definition report_ok (r : MEClientResponse) : Prop :=
  0 <= rs_ticker_id r /\ is_u32 (rs_exec_qty r) /\ is_u32 (rs_leaves_qty r) /\
  is_u64 (rs_response_id r).

(** A report changes at most the quantity of a reservation. *)
Lemma onResponse_source r m b m' :
  RiskManager.onResponse r m = Ok (b, m') ->
  forall key v, rk_reservations m' !! key = Some v ->
    exists v0, rk_reservations m !! key = Some v0 /\ rv_side v = rv_side v0 /\ rv_price v = rv_price v0.
Proof.
  assert (Hadd : forall s t d m0 m1, RiskManager.add_pending s t d m0 = Ok m1 ->
    rk_reservations m1 = rk_reservations m0).
  { intros s t d m0 m1 H. unfold RiskManager.add_pending in H. res_inv. by case_bool_decide. }
  intros H key v Hv. unfold RiskManager.onResponse in H.
  destruct (ME_MAX_TICKERS <=? rs_ticker_id r); [injection H as _ <-; eauto|].
  destruct (rk_reservations m !! _) as [w|] eqn:Ew; [|injection H as _ <-; eauto].
  assert (Hdel : forall m1, RiskManager.add_pending (rv_side w) (rs_ticker_id r) (- rv_qty w) m = Ok m1 ->
    m' = RiskManager.with_reservations (delete (rs_ticker_id r, rs_client_order_id r) (rk_reservations m1)) m1 ->
    exists v0, rk_reservations m !! key = Some v0 /\ rv_side v = rv_side v0 /\ rv_price v = rv_price v0).
  { intros m1 H1 ->. cbn in Hv. rewrite (Hadd _ _ _ _ _ H1) in Hv.
    apply lookup_delete_Some in Hv as [_ Hv]. eauto. }
  destruct (rs_type r); try (injection H as _ <-; eauto); try (destruct (bool_decide _));
    try (injection H as _ <-; by eauto); try (res_inv; simplify_eq; by eauto).
  destruct (negb _ || _ || _ || _); [injection H as _ <-; eauto|].
  apply bind_Ok in H as (m1 & H1 & H). injection H as _ <-. cbn in Hv. rewrite (Hadd _ _ _ _ _ H1) in Hv.
  destruct (rs_leaves_qty r =? 0); [apply lookup_delete_Some in Hv as [_ Hv]; eauto|].
  apply lookup_insert_Some in Hv as [[<- <-]|[_ Hv]]; eauto.
Qed.

Lemma updateBBO_total t b k :
  keeper_ok k -> 0 <= t < ME_MAX_TICKERS -> exists k', PositionKeeper.updateBBO t b k = Ok k'.
Proof.
  intros Hk Ht. unfold PositionKeeper.updateBBO.
  destruct (at_ticker_ok k t Hk Ht) as (p & -> & _ & Hl & _). cbn [mbind res_bind].
  unfold PositionInfo.updateBBO. case_match; [|by eexists].
  destruct (unrealised_ok (position p) (d_mul (d_add (d_of_Z (bid_price b)) (d_of_Z (ask_price b))) d_half)
    (open_vwap p) Hl) as [u ->]. by eexists.
Qed.

(** The signed quantity that a report adds to the position of [t]. *)
Definition fill_qty (t : Z) (r : MEClientResponse) : Z :=
  if bool_decide (rs_type r = FILLED /\ rs_ticker_id r = t) then signed_qty r else 0.

(** A matched fill is of the side and ticker of a reservation. *)
Lemma matched_fill r m k m' :
  risk_ok m k -> rs_type r = FILLED -> RiskManager.onResponse r m = Ok (true, m') ->
  tradable_side (rs_side r) /\ known_ticker (rs_ticker_id r).
Proof.
  intros Hok Hf H. unfold RiskManager.onResponse in H. rewrite Hf in H.
  destruct (ME_MAX_TICKERS <=? rs_ticker_id r); [done|].
  destruct (rk_reservations m !! _) as [v|] eqn:Hv.
  - destruct (ro_reservation _ _ Hok _ _ Hv) as (Hs & _ & Ht).
    destruct (bool_decide_reflect (rs_side r = rv_side v)) as [->|]; [done|done].
  - by rewrite bool_decide_true in H.
Qed.

(** The position after a matched report. *)
Lemma matched_position r m k m' k' :
  risk_ok m k -> risk_ok m' k' -> is_u32 (rs_exec_qty r) ->
  RiskManager.onResponse r m = Ok (true, m') -> fill_of r k = Ok k' ->
  forall t, known_ticker t -> ticker_position k' t = ticker_position k t + fill_qty t r.
Proof.
  intros Hok Hok' Hx Hm Hk t Ht. unfold fill_of in Hk. unfold fill_qty.
  destruct (bool_decide_reflect (rs_type r = FILLED)) as [Hf|Hf].
  2:{ injection Hk as <-. rewrite bool_decide_false by tauto. lia. }
  destruct (matched_fill _ _ _ _ Hok Hf Hm) as [Hs Hkt].
  destruct (keeper_addFill_ok r k (ro_keeper _ _ Hok) Hs Hkt) as (k1 & Hk1 & _ & Hpos).
  rewrite Hk in Hk1. injection Hk1 as <-. rewrite Hpos by done.
  destruct (decide (rs_ticker_id r = t)) as [E|E]; [|rewrite bool_decide_false by tauto; lia].
  rewrite bool_decide_true by done. apply i64_small.
  destruct (risk_bounds _ _ _ Hok Ht) as [Hp _]. pose proof (ro_limit _ _ Hok _ Ht).
  assert (Hsq : - 2 ^ 32 < signed_qty r < 2 ^ 32).
  { unfold signed_qty, is_u32 in *. destruct Hs as [-> | ->]; cbn [sideToValue Side_to_Z]; lia. }
  lia.
Qed.

Lemma gate_ok_reports g l m k :
  gate_ok g l -> risk_ok m k ->
  (forall key v, rk_reservations m !! key = Some v ->
     exists v0, rk_reservations (g_risk g) !! key = Some v0 /\ rv_side v = rv_side v0 /\
       rv_price v = rv_price v0) ->
  gate_ok (with_keeper k (with_risk m g)) l.
Proof.
  intros Hok Hr Hs. split; try apply Hok; [exact Hr|].
  intros key v Hv. cbn in Hv. destruct (Hs key v Hv) as (v0 & Hv0 & -> & ->). by apply Hok.
Qed.

(** Members that the invariant does not mention. *)
Lemma gate_ok_flags g g' l :
  gate_ok g l -> g_risk g' = g_risk g -> g_keeper g' = g_keeper g ->
  g_requests g' = g_requests g -> g_client_id g' = g_client_id g -> gate_ok g' l.
Proof.
  intros [H1 H2 H3 H4] E1 E2 E3 E4. split; rewrite ?E1, ?E2, ?E3, ?E4; done.
Qed.

(** What a report does to the gate: [told]: it reaches the strategy. *)
Record reported (r : MEClientResponse) (l : list MEClientRequest) (told : bool) (g g' : Gate) : Prop := {
  rp_ok : gate_ok g' l;
  rp_client : g_client_id g' = g_client_id g;
  rp_last : g_last_response_id g <= g_last_response_id g';
  rp_fill : told = true -> rs_type r = FILLED ->
    g_last_response_id g < rs_response_id r /\ g_last_response_id g' = rs_response_id r;
  rp_closed : g_reconciled g = false -> g_reconciled g' = false;
  rp_requests : g_requests g' = g_requests g;
  rp_cfg : rk_cfg (g_risk g') = rk_cfg (g_risk g);
  rp_admitting : g_admitting g' = g_admitting g;
  rp_generations : g_market_generation g' = g_market_generation g /\
    g_applied_generation g' = g_applied_generation g;
  rp_position t : known_ticker t ->
    ticker_position (g_keeper g') t = ticker_position (g_keeper g) t + if told then fill_qty t r else 0
}.

(** A report that leaves risk and positions alone. *)
Lemma reported_flags r l g g' :
  gate_ok g l -> g_risk g' = g_risk g -> g_keeper g' = g_keeper g ->
  g_requests g' = g_requests g -> g_client_id g' = g_client_id g ->
  g_last_response_id g <= g_last_response_id g' ->
  (g_reconciled g = false -> g_reconciled g' = false) ->
  g_market_generation g' = g_market_generation g -> g_applied_generation g' = g_applied_generation g ->
  g_admitting g' = g_admitting g -> reported r l false g g'.
Proof.
  intros Hok E1 E2 E3 E4 E5 E6 E7 E8 E9. split; try done.
  - by eapply gate_ok_flags.
  - by rewrite E1.
  - intros t _. rewrite E2. lia.
Qed.

Lemma reconcile_ok r g l :
  gate_ok g l -> report_ok r ->
  exists told g', Gate.reconcile r g = Ok (told, g') /\ reported r l told g g'.
Proof.
  intros Hok (Ht & Hx & Hlv & Hid). unfold Gate.reconcile.
  destruct (negb _ || _) eqn:E1.
  { eexists false, _. split; [done|]. by apply reported_flags. }
  apply orb_false_iff in E1 as [_ E1%Z.leb_gt].
  destruct (negb (rs_response_id r =? 0) && _) eqn:E2.
  { eexists false, _. split; [done|]. by apply reported_flags. }
  destruct ((rs_response_id r =? 0) && _) eqn:E3.
  { eexists false, _. split; [done|]. by apply reported_flags. }
  set (g1 := if negb (rs_response_id r =? 0) then _ else g).
  assert (Hg1 : reported r l false g g1 /\ g_risk g1 = g_risk g /\ g_keeper g1 = g_keeper g /\
    (rs_type r = FILLED -> g_last_response_id g < rs_response_id r /\ g_last_response_id g1 = rs_response_id r)).
  { unfold g1. destruct (Z.eqb_spec (rs_response_id r) 0) as [E|E]; cbn [negb andb] in *.
    - split_and!; try done; [by apply reported_flags|]. intros Hf. by rewrite bool_decide_true in E3.
    - apply Z.leb_gt in E2. split_and!; try done. apply reported_flags; try done. cbn. lia. }
  destruct Hg1 as (Hrep & Erisk & Ekeep & Hlast). clearbody g1.
  pose proof (rp_ok _ _ _ _ _ Hrep) as Hok1. rewrite Erisk.
  destruct (response_ok r _ _ (gk_risk _ _ Hok) Ht Hx Hlv) as (b & m & Hm & Hmis & Hmat).
  rewrite Hm. cbn [mbind res_bind]. destruct b; cbn [negb].
  2:{ eexists false, _. split; [done|]. rewrite (Hmis eq_refl), <- Erisk.
      apply reported_flags; cbn [with_reconciled with_risk g_risk g_keeper g_requests g_client_id
        g_last_response_id g_reconciled g_market_generation g_applied_generation g_admitting];
        try done; apply Hrep. }
  destruct (Hmat eq_refl) as (k & Hk & Hrisk). rewrite <- Ekeep in Hk.
  change (if bool_decide (rs_type r = FILLED) then _ else Ok (g_keeper (with_risk m g1)))
    with (fill_of r (g_keeper g1)).
  rewrite Hk. cbn [mbind res_bind]. rewrite Ekeep in Hk.
  pose proof (matched_position _ _ _ _ _ (gk_risk _ _ Hok) Hrisk Hx Hm Hk) as Hpos.
  assert (Hcfg : rk_cfg m = rk_cfg (g_risk g)).
  { apply (risk_step_cfg (g_risk g, g_keeper g) (m, k)). by eapply rs_matched. }
  set (g2 := with_keeper k (with_risk m g1)).
  assert (Hok2 : gate_ok g2 l).
  { apply gate_ok_reports; [done|done|]. rewrite Erisk. by eapply onResponse_source. }
  assert (Hrep2 : reported r l true g g2).
  { destruct Hrep. by split. }
  destruct (bool_decide_reflect (rs_type r = STATE)) as [Es|Es].
  2:{ cbn [mbind res_bind]. by exists true, g2. }
  destruct (at_ticker_ok k (rs_ticker_id r) (ro_keeper _ _ Hrisk)) as (p & Hp & _); [lia|].
  unfold PositionKeeper.getPositionInfo. cbn [g_keeper with_keeper g2]. rewrite Hp. cbn [mbind res_bind].
  destruct (negb (rs_position r =? position p)); [|by exists true, g2].
  eexists false, _. split; [done|]. destruct Hrep2. split; try done.
  - by eapply gate_ok_flags.
  - intros t Hkt. cbn. rewrite Hpos by done. unfold fill_qty.
    rewrite bool_decide_false; [done|]. intros [Hf _]. congruence.
Qed.

(** ** Interleavings *)
Inductive GateOp : Type :=
  | OpSend (r : MEClientRequest)            (* a strategy or the main thread *)
  | OpReport (r : MEClientResponse)
  | OpQuote (ticker : Z) (b : BBO)          (* [position_keeper_.updateBBO] *)
  | OpStale                                 (* a new market generation *)
  | OpCommit (generation : Z)               (* a recovery marker *)
  | OpSession (up : bool)
  | OpTrust (trusted : bool)                (* [setMarketTrusted] *)
  | OpStopAdmitting                         (* [stop] and [quiesce] *)
  | OpTake.                                 (* the gateway takes a request *)

Definition gate_step (g : Gate) (op : GateOp) : res (list MEClientRequest * Gate) :=
  match op with
  | OpSend r => '(sent, g) ← Gate.sendClientRequest r g; Ok (if sent : bool then [r] else [], g)
  | OpReport r => '(_, g) ← Gate.reconcile r g; Ok ([], g)
  | OpQuote t b => k ← PositionKeeper.updateBBO t b (g_keeper g); Ok ([], with_keeper k g)
  | OpStale => Ok ([], Gate.bump_generation g)
  | OpCommit generation =>
      Ok ([], if generation =? g_market_generation g
              then with_generations (g_market_generation g) generation g else g)
  | OpSession up => Ok ([], Gate.setOrderSession up g)
  | OpTrust trusted => Ok ([], Gate.setMarketTrusted trusted g)
  | OpStopAdmitting => Ok ([], with_admitting false g)
  | OpTake => '(_, q) ← try_pop (g_requests g); Ok ([], with_requests q g)
  end.

(** The requests admitted by a sequence of operations, and the final gate. *)
Fixpoint gate_run (ops : list GateOp) (g : Gate) : res (list MEClientRequest * Gate) :=
  match ops with
  | [] => Ok ([], g)
  | op :: ops' =>
      '(l1, g) ← gate_step g op;
      '(l2, g) ← gate_run ops' g;
      Ok (l1 ++ l2, g)
  end.

Definition gop_ok (op : GateOp) : Prop :=
  match op with
  | OpSend r => 0 <= rq_ticker_id r /\ is_u32 (rq_qty r)
  | OpReport r => report_ok r
  | OpQuote t _ => known_ticker t
  | _ => True
  end.

(** What a step preserves, besides the invariant. *)
Record stepped (g g' : Gate) : Prop := {
  sp_client : g_client_id g' = g_client_id g;
  sp_cfg : rk_cfg (g_risk g') = rk_cfg (g_risk g);
  sp_closed : g_reconciled g = false -> g_reconciled g' = false;
  sp_admitting : g_admitting g = false -> g_admitting g' = false
}.

Lemma stepped_trans g1 g2 g3 : stepped g1 g2 -> stepped g2 g3 -> stepped g1 g3.
Proof. intros [] []. split; [congruence|congruence|auto|auto]. Qed.

Lemma sent_stepped r g l sent g' :
  gate_ok g l -> 0 <= rq_ticker_id r -> is_u32 (rq_qty r) ->
  Gate.sendClientRequest r g = Ok (sent, g') ->
  stepped g g' /\ (sent = true -> Gate.refused r g = false) /\
  g_market_generation g' = g_market_generation g /\ g_applied_generation g' = g_applied_generation g /\
  g_admitting g' = g_admitting g /\ g_order_session g' = g_order_session g /\
  g_reconciled g' = g_reconciled g.
Proof.
  intros Hok Ht Hq H. destruct (send_cases r g l Hok Ht Hq) as (b & g1 & E & Hc).
  rewrite H in E. injection E as <- <-. destruct sent.
  - destruct Hc as (Hr & Hres & _ & Eg & _).
    destruct (send_frame r g l true g' Hok Ht Hq H) as [Hcl Hcfg].
    split; [split; [done|done|by rewrite Eg|by rewrite Eg]|]. split; [done|]. by rewrite Eg.
  - destruct Hc as (q & -> & _). split; [by split|]. done.
Qed.

Lemma gate_step_ok g l op :
  gate_ok g l -> gop_ok op ->
  exists rs g', gate_step g op = Ok (rs, g') /\ gate_ok g' (l ++ rs) /\ stepped g g'.
Proof.
  intros Hok Hop. destruct op as [r|r|t b| |n|up|trusted| |]; cbn [gate_step gop_ok] in *.
  - destruct Hop as [Ht Hq]. destruct (send_ok r g l Hok Ht Hq) as (sent & g' & H & _ & _ & Hok').
    destruct (sent_stepped r g l sent g' Hok Ht Hq H) as [Hst _]. rewrite H. cbn [mbind res_bind].
    eexists _, g'. split; [done|]. destruct sent; [done|by rewrite app_nil_r].
  - destruct (reconcile_ok r g l Hok Hop) as (told & g' & -> & Hr). cbn [mbind res_bind].
    eexists [], g'. rewrite app_nil_r. split; [done|]. destruct Hr. split; [done|]. split; congruence || done.
  - destruct (updateBBO_total t b _ (ro_keeper _ _ (gk_risk _ _ Hok)) Hop) as [k Hk]. rewrite Hk.
    cbn [mbind res_bind]. eexists [], _. rewrite app_nil_r. split; [done|]. split; [|by split].
    assert (Hrisk : risk_ok (g_risk g) k).
    { apply (risk_step_ok (g_risk g, g_keeper g) (g_risk g, k)); [|apply Hok].
      eapply rs_quote; [|exact Hk]. apply Hop. }
    split; try apply Hok. exact Hrisk.
  - eexists [], _. rewrite app_nil_r. split; [done|]. split; [by eapply gate_ok_flags|by split].
  - eexists [], _. rewrite app_nil_r. split; [done|].
    destruct (n =? g_market_generation g); (split; [by eapply gate_ok_flags|by split]).
  - eexists [], _. rewrite app_nil_r. split; [done|]. split; [by eapply gate_ok_flags|by split].
  - eexists [], _. rewrite app_nil_r. split; [done|]. split; [by eapply gate_ok_flags|by split].
  - eexists [], _. rewrite app_nil_r. split; [done|]. split; [by eapply gate_ok_flags|by split].
  - destruct (gk_queue _ _ Hok) as (l1 & l2 & El & Hq). pose proof (try_pop_ok _ _ Hq) as Hpop.
    assert (Hpopped : exists x q l1' l2', try_pop (g_requests g) = Ok (x, q) /\ l1 ++ l2 = l1' ++ l2' /\
      queue_ok q l2').
    { destruct l2 as [|x l2]; [by exists None, (g_requests g), l1, []|].
      destruct Hpop as (q' & -> & Hq' & _). exists (Some x), q', (l1 ++ [x]), l2.
      by rewrite <- app_assoc. }
    destruct Hpopped as (x & q & l1' & l2' & -> & E2 & Hq'). cbn [mbind res_bind].
    eexists [], _. rewrite app_nil_r. split; [done|]. split; [|by split].
    split; try apply Hok. exists l1', l2'. by rewrite El.
Qed.

Lemma gate_run_ok ops g l :
  gate_ok g l -> Forall gop_ok ops ->
  exists rs g', gate_run ops g = Ok (rs, g') /\ gate_ok g' (l ++ rs) /\ stepped g g'.
Proof.
  intros Hok Hops. revert g l Hok. induction Hops as [|op ops Hop Hops IH]; intros g l Hok.
  - exists [], g. rewrite app_nil_r. by split_and!.
  - destruct (gate_step_ok g l op Hok Hop) as (rs1 & g1 & H1 & Hok1 & Hst1).
    destruct (IH g1 _ Hok1) as (rs2 & g2 & H2 & Hok2 & Hst2). cbn [gate_run]. rewrite H1.
    cbn [mbind res_bind]. rewrite H2. cbn [mbind res_bind]. exists (rs1 ++ rs2), g2.
    rewrite app_assoc. split; [done|]. split; [done|]. by eapply stepped_trans.
Qed.

Lemma gate_make_ok c cfg q : cfg_ok cfg -> queue_ok q [] -> gate_ok (Gate.make c cfg q) [].
Proof.
  intros Hcfg Hq. split.
  - by apply risk_make_ok.
  - by exists [], [].
  - set_solver.
  - intros key v Hv. cbn in Hv. by rewrite lookup_empty in Hv.
Qed.

(** ** Properties *)

(** C15: a request is admitted completely or not at all.  An admitted request
    is valid, of this client, and was sent while reports and orders were
    reconciled and the session was not known to be down; a new order also
    needs admission to be open and the market data to be current.  It is put
    at the end of the queue.  A request that is not admitted leaves the queue's
    contents, the reservations and the positions exactly as they were, also
    when the queue was full and its reservation had to be undone. *)
Theorem admission_all_or_nothing r g l waiting :
  gate_ok g l -> queue_ok (g_requests g) waiting -> 0 <= rq_ticker_id r -> is_u32 (rq_qty r) ->
  exists sent g', Gate.sendClientRequest r g = Ok (sent, g') /\
    (sent = true ->
       Wire.validate r = NONE /\ rq_client_id r = g_client_id g /\ g_reconciled g = true /\
       g_order_session g <> Some false /\
       (rq_type r = NEW -> g_admitting g = true /\ Gate.marketReady g = true) /\
       queue_ok (g_requests g') (waiting ++ [r]) /\ g_keeper g' = g_keeper g) /\
    (sent = false ->
       queue_ok (g_requests g') waiting /\ g_risk g' = g_risk g /\ g_keeper g' = g_keeper g /\
       g_rejected g' = u64 (g_rejected g + 1)).
Proof.
  intros Hok Hw Ht Hq. destruct (send_cases r g l Hok Ht Hq) as (sent & g' & -> & Hc).
  exists sent, g'. split; [done|]. destruct sent; (split; [|try done]); try done; intros _.
  - destruct Hc as (Hr & _ & (w & Hw1 & Hw2) & Eg & _).
    destruct (not_refused _ _ Hr) as (H1 & H2 & H3 & H4 & H5). split_and!; try done.
    + by rewrite (queue_contents_unique _ _ _ Hw Hw1).
    + by rewrite Eg.
  - destruct Hc as (q & -> & Hq'). split_and!; try done. cbn.
    destruct Hq' as [-> | ->]; [done|]. destruct Hw. by split.
Qed.

(** whatever happens on the threads around the gate, none of its
    operations fails, every request that leaves is valid, and the position of
    every ticker stays within its limit, also if all pending orders of one
    side were filled. *)
Theorem gate_is_safe c cfg q ops :
  cfg_ok cfg -> queue_ok q [] -> Forall gop_ok ops ->
  exists l g, gate_run ops (Gate.make c cfg q) = Ok (l, g) /\
    Forall (λ r, Wire.validate r = NONE /\ rq_client_id r = c) l /\
    forall t, known_ticker t ->
      - limit t (RiskManager.make cfg) <= ticker_position (g_keeper g) t <= limit t (RiskManager.make cfg) /\
      ticker_position (g_keeper g) t + pend BUY t (g_risk g) <= limit t (RiskManager.make cfg) /\
      - limit t (RiskManager.make cfg) <= ticker_position (g_keeper g) t - pend SELL t (g_risk g).
Proof.
  intros Hcfg Hq Hops. pose proof (gate_make_ok c cfg q Hcfg Hq) as Hok.
  destruct (gate_run_ok ops _ _ Hok Hops) as (l & g & Hrun & Hok' & [Hcl Hc _ _]). cbn in Hok', Hcl, Hc.
  exists l, g. split; [done|]. split.
  - apply Forall_forall. intros r Hr. destruct (gk_valid _ _ Hok' r Hr) as [? E]. split; [done|]. congruence.
  - intros t Ht. pose proof (gk_risk _ _ Hok') as Hrisk.
    assert (El : limit t (RiskManager.make cfg) = limit t (g_risk g)) by (unfold limit; by rewrite Hc).
    rewrite El. destruct (risk_bounds _ _ t Hrisk Ht) as [Hp _].
    split; [done|]. split; [by apply (ro_long _ _ Hrisk)|by apply (ro_short _ _ Hrisk)].
Qed.

Lemma gate_step_closed g l op :
  gate_ok g l -> gop_ok op -> g_reconciled g = false ->
  exists g', gate_step g op = Ok ([], g') /\ gate_ok g' l /\ g_reconciled g' = false.
Proof.
  intros Hok Hop Hc. destruct (gate_step_ok g l op Hok Hop) as (rs & g' & H & Hok' & Hst).
  assert (rs = []) as ->.
  { destruct op as [r|r|t b| |n|up|trusted| |]; cbn in H.
    - apply bind_Ok in H as ([sent g1] & H0 & H). injection H as <- <-. destruct Hop as [Ht Hq].
      destruct (sent_stepped _ _ _ _ _ Hok Ht Hq H0) as (_ & Hs & _). destruct sent; [|done].
      destruct (not_refused _ _ (Hs eq_refl)) as (_ & _ & Hrec & _). congruence.
    - apply bind_Ok in H as ([? ?] & _ & H). by injection H.
    - apply bind_Ok in H as (? & _ & H). by injection H.
    - by injection H.
    - by injection H.
    - by injection H.
    - by injection H.
    - by injection H.
    - apply bind_Ok in H as ([? ?] & _ & H). by injection H. }
  rewrite app_nil_r in Hok'. exists g'. split; [done|]. split; [done|]. by apply (sp_closed _ _ Hst).
Qed.

(** once a report contradicts the local state (foreign, unmatched, or
    with another position), no request leaves any more, whatever the threads
    do afterwards. *)
Theorem unreconciled_gate_stays_shut g l ops :
  gate_ok g l -> g_reconciled g = false -> Forall gop_ok ops ->
  exists g', gate_run ops g = Ok ([], g') /\ g_reconciled g' = false.
Proof.
  intros Hok Hc Hops. revert g Hok Hc. induction Hops as [|op ops Hop Hops IH]; intros g Hok Hc.
  - by exists g.
  - destruct (gate_step_closed g l op Hok Hop Hc) as (g1 & H1 & Hok1 & Hc1).
    destruct (IH g1 Hok1 Hc1) as (g2 & H2 & Hc2). exists g2. cbn [gate_run]. rewrite H1.
    cbn [mbind res_bind]. by rewrite H2.
Qed.

(** The generation that the strategies use is an old one. *)
Definition stale (g : Gate) : Prop := 0 <= g_applied_generation g < g_market_generation g.

(** Recovery has not completed, and the counter of generations has not wrapped. *)
Fixpoint not_recovered (ops : list GateOp) (generation : Z) : Prop :=
  match ops with
  | [] => True
  | OpStale :: ops' => generation + 1 < 2 ^ 64 /\ not_recovered ops' (generation + 1)
  | OpCommit n :: ops' => n <> generation /\ not_recovered ops' generation
  | OpTrust trusted :: ops' => trusted = false /\ not_recovered ops' generation
  | _ :: ops' => not_recovered ops' generation
  end.

Lemma gate_step_stale g l op rs g' :
  gate_ok g l -> gop_ok op -> stale g -> not_recovered [op] (g_market_generation g) ->
  gate_step g op = Ok (rs, g') ->
  Forall (λ r, rq_type r <> NEW) rs /\ stale g' /\
  g_market_generation g' = g_market_generation g + (match op with OpStale => 1 | _ => 0 end).
Proof.
  intros Hok Hop Hst Hnr H. unfold stale in *. destruct op as [r|r|t b| |n|up|trusted| |]; cbn in H.
  - apply bind_Ok in H as ([sent g1] & H0 & H). injection H as <- <-. destruct Hop as [Ht Hq].
    destruct (sent_stepped _ _ _ _ _ Hok Ht Hq H0) as (_ & Hs & -> & -> & _).
    split; [|lia]. destruct sent; [|done]. apply Forall_singleton. intros Hn.
    destruct (not_refused _ _ (Hs eq_refl)) as (_ & _ & _ & _ & Hnew). destruct (Hnew Hn) as [_ Hr].
    unfold Gate.marketReady in Hr. lia.
  - apply bind_Ok in H as ([told g1] & H0 & H). injection H as <- <-.
    destruct (reconcile_ok r g l Hok Hop) as (told' & g2 & H1 & Hr). rewrite H0 in H1.
    injection H1 as <- <-. destruct (rp_generations _ _ _ _ _ Hr) as [-> ->]. split; [done|lia].
  - apply bind_Ok in H as (k & _ & H). injection H as <- <-. split; [done|]. cbn. lia.
  - injection H as <- <-. cbn in *. split; [done|]. rewrite u64_small by lia. lia.
  - injection H as <- <-. cbn in Hnr. rewrite (proj2 (Z.eqb_neq _ _)) by tauto. split; [done|lia].
  - injection H as <- <-. split; [done|]. cbn. lia.
  - injection H as <- <-. destruct Hnr as [-> _]. split; [done|]. cbn. lia.
  - injection H as <- <-. split; [done|]. cbn. lia.
  - apply bind_Ok in H as ([? q] & _ & H). injection H as <- <-. split; [done|]. cbn. lia.
Qed.

(** A cancel of a reconciled gate with an open session fails only on a full queue. *)
Lemma send_cancel r g l waiting :
  gate_ok g l -> queue_ok (g_requests g) waiting -> rq_type r = CANCEL -> Wire.validate r = NONE ->
  rq_client_id r = g_client_id g -> 0 <= rq_ticker_id r -> is_u32 (rq_qty r) ->
  g_reconciled g = true -> g_order_session g <> Some false ->
  Z.of_nat (length waiting) < capacity (g_requests g) ->
  exists g', Gate.sendClientRequest r g = Ok (true, g') /\ gate_ok g' (l ++ [r]) /\
    queue_ok (g_requests g') (waiting ++ [r]) /\ capacity (g_requests g') = capacity (g_requests g) /\
    g_client_id g' = g_client_id g /\ g_risk g' = g_risk g /\ g_reconciled g' = true /\
    g_order_session g' = g_order_session g /\ g_admitting g' = g_admitting g.
Proof.
  intros Hok Hw Hty Hv Hc Ht Hq Hrec Hses Hroom.
  assert (Hr : Gate.refused r g = false).
  { unfold Gate.refused. rewrite Hty, Hv, Hc, Hrec, Z.eqb_refl.
    rewrite (bool_decide_false (g_order_session g = Some false)) by done.
    rewrite !(bool_decide_false (CANCEL = NEW)) by done. rewrite bool_decide_true by done.
    by rewrite andb_false_r. }
  destruct (send_ok r g l Hok Ht Hq) as (sent & g' & Hs & Hcl & _ & Hok').
  destruct (send_cases r g l Hok Ht Hq) as (sent' & g1 & Hs1 & Hcase).
  rewrite Hs in Hs1. injection Hs1 as <- <-.
  assert (sent = true) as ->.
  { unfold Gate.sendClientRequest in Hs. rewrite Hr, reserve_other in Hs by congruence.
    cbn [mbind res_bind] in Hs. rewrite bool_decide_true in Hs by done. cbn [negb] in Hs.
    pose proof (try_push_ok _ _ r Hw) as Hpush. rewrite (proj2 (Z.eqb_neq _ _)) in Hpush by lia.
    destruct Hpush as (q' & Hp & _). cbn [g_requests with_risk] in Hs. rewrite Hp in Hs.
    cbn [mbind res_bind negb] in Hs. by injection Hs. }
  destruct Hcase as (_ & Hres & (w & Hw1 & Hw2) & Eg & Hcap). exists g'. split; [done|]. split; [done|].
  rewrite reserve_other in Hres by congruence. injection Hres as Hres.
  split; [by rewrite (queue_contents_unique _ _ _ Hw Hw1)|]. split; [done|]. split; [done|].
  split; [done|]. by rewrite Eg.
Qed.

(** A new order on stale data changes nothing but the count of rejections. *)
Lemma stale_refuses_new r g : stale g -> rq_type r = NEW -> Gate.sendClientRequest r g = Ok (false, Gate.reject g).
Proof.
  intros Hst Hn. unfold Gate.sendClientRequest, Gate.refused, Gate.marketReady. unfold stale in Hst.
  rewrite (bool_decide_true (rq_type r = NEW)), (proj2 (Z.eqb_neq (g_applied_generation g) _)) by (done || lia).
  cbn [negb andb]. by rewrite orb_true_r.
Qed.

Lemma gate_run_stale ops g l :
  gate_ok g l -> stale g -> Forall gop_ok ops -> not_recovered ops (g_market_generation g) ->
  exists rs g', gate_run ops g = Ok (rs, g') /\ gate_ok g' (l ++ rs) /\ stale g' /\
    g_client_id g' = g_client_id g /\ Forall (λ r, rq_type r <> NEW) rs.
Proof.
  intros Hok Hst Hops. revert g l Hok Hst. induction Hops as [|op ops Hop Hops IH]; intros g l Hok Hst Hnr.
  - exists [], g. by rewrite app_nil_r.
  - destruct (gate_step_ok g l op Hok Hop) as (rs1 & g1 & H1 & Hok1 & Hsp).
    assert (Hone : not_recovered [op] (g_market_generation g) /\
      not_recovered ops (g_market_generation g + match op with OpStale => 1 | _ => 0 end)).
    { destruct op; cbn in Hnr |- *; rewrite ?Z.add_0_r; tauto. }
    destruct Hone as [Hone Hrest].
    destruct (gate_step_stale g l op rs1 g1 Hok Hop Hst Hone H1) as (Hn & Hst1 & Hg).
    rewrite <- Hg in Hrest.
    destruct (IH g1 _ Hok1 Hst1 Hrest) as (rs2 & g2 & H2 & Hok2 & Hst2 & Hc2 & Hn2).
    exists (rs1 ++ rs2), g2. cbn [gate_run]. rewrite H1. cbn [mbind res_bind]. rewrite H2, app_assoc.
    split; [done|]. split; [done|]. split; [done|]. split; [by rewrite Hc2, (sp_client _ _ Hsp)|]. by apply Forall_app.
Qed.

(** C32: after the market data has become stale, no new order is admitted,
    whatever the threads do, until the recovery of the latest generation has been
    applied; the marker of an older generation does not count, and withdrawing
    the trust in the data keeps it so.  A new order is then refused with no effect
    but the count of rejections.  Cancels still pass: a valid cancel of this
    client is put at the end of the queue, if reports and orders are reconciled,
    the session is not known to be down and the queue has room. *)
Theorem stale_market_admits_no_new_order g l ops :
  gate_ok g l -> stale g -> Forall gop_ok ops -> not_recovered ops (g_market_generation g) ->
  exists rs g', gate_run ops g = Ok (rs, g') /\ stale g' /\ Forall (λ r, rq_type r <> NEW) rs /\
    (forall r, rq_type r = NEW -> Gate.sendClientRequest r g' = Ok (false, Gate.reject g')) /\
    (forall r waiting, queue_ok (g_requests g') waiting -> Z.of_nat (length waiting) < capacity (g_requests g') ->
       g_reconciled g' = true -> g_order_session g' <> Some false ->
       rq_type r = CANCEL -> Wire.validate r = NONE -> rq_client_id r = g_client_id g ->
       0 <= rq_ticker_id r -> is_u32 (rq_qty r) ->
       exists g'', Gate.sendClientRequest r g' = Ok (true, g'') /\ queue_ok (g_requests g'') (waiting ++ [r])).
Proof.
  intros Hok Hst Hops Hnr.
  destruct (gate_run_stale ops g l Hok Hst Hops Hnr) as (rs & g' & Hrun & Hok' & Hst' & Hc & Hn).
  exists rs, g'. split; [done|]. split; [done|]. split; [done|].
  split; [intros r; by apply stale_refuses_new|]. intros r waiting Hw Hroom Hrec Hses Hty Hv Hcl Ht Hq.
  destruct (send_cancel r g' _ waiting Hok' Hw Hty Hv ltac:(congruence) Ht Hq Hrec Hses Hroom)
    as (g'' & Hs & _ & Hw' & _). by exists g''.
Qed.

(** ** Reports count once *)

(** A sequence of reports; returns those told to the strategy. *)
Fixpoint report_run (rs : list MEClientResponse) (g : Gate) : res (list MEClientResponse * Gate) :=
  match rs with
  | [] => Ok ([], g)
  | r :: rs' =>
      '(told, g) ← Gate.reconcile r g;
      '(l, g) ← report_run rs' g;
      Ok ((if told : bool then [r] else []) ++ l, g)
  end.

Definition fills (l : list MEClientResponse) : list MEClientResponse :=
  List.filter (λ r, bool_decide (rs_type r = FILLED)) l.

(** The quantity that told reports add to the position of [t]. *)
Fixpoint told_qty (t : Z) (l : list MEClientResponse) : Z :=
  match l with
  | [] => 0
  | r :: l' => fill_qty t r + told_qty t l'
  end.

Lemma sorted_lower_head (a b : Z) (l : list Z) :
  a <= b -> StronglySorted Z.lt (b :: l) -> StronglySorted Z.lt (a :: l).
Proof.
  intros Hab Hs. apply StronglySorted_inv in Hs as [Hs Hall]. constructor; [done|].
  eapply Forall_impl; [exact Hall|]. intros x Hx. cbn in Hx. lia.
Qed.

Lemma sorted_push (a b : Z) (l : list Z) :
  a < b -> StronglySorted Z.lt (b :: l) -> StronglySorted Z.lt (a :: b :: l).
Proof.
  intros Hab Hs. constructor; [done|]. apply StronglySorted_inv in Hs as [Hs Hall].
  constructor; [done|]. eapply Forall_impl; [exact Hall|]. intros x Hx. cbn in Hx. lia.
Qed.

(** C25: however often the exchange's reports are delivered, every fill counts
    at most once: the fills that are applied have strictly increasing response
    ids, and each position is the sum of the signed quantities of the applied
    fills of its ticker. *)
Theorem fills_count_once rs g l :
  gate_ok g l -> Forall report_ok rs ->
  exists told g', report_run rs g = Ok (told, g') /\ told `sublist_of` rs /\
    StronglySorted Z.lt (g_last_response_id g :: (rs_response_id <$> fills told)) /\
    forall t, known_ticker t ->
      ticker_position (g_keeper g') t = ticker_position (g_keeper g) t + told_qty t told.
Proof.
  intros Hok Hrs. revert g Hok. induction Hrs as [|r rs Hr Hrs IH]; intros g Hok.
  - exists [], g. split_and!; try done; [by repeat constructor|]. intros t _. cbn. lia.
  - destruct (reconcile_ok r g l Hok Hr) as (b & g1 & H1 & [R1 R2 R3 R4 _ _ _ _ _ R9]).
    destruct (IH g1 R1) as (told & g2 & H2 & Hsub & Hsort & Hpos).
    exists ((if b then [r] else []) ++ told), g2. cbn [report_run]. rewrite H1. cbn [mbind res_bind].
    rewrite H2. cbn [mbind res_bind]. split; [done|]. split; [destruct b; cbn; by constructor|]. split.
    + unfold fills in *. destruct b; cbn [app List.filter]; [|by eapply sorted_lower_head].
      destruct (bool_decide_reflect (rs_type r = FILLED)) as [Hf|Hf]; [|by eapply sorted_lower_head].
      destruct (R4 eq_refl Hf) as [Hlt Heq]. rewrite Heq in Hsort. by apply sorted_push.
    + intros t Ht. rewrite Hpos, R9 by done. destruct b; cbn; lia.
Qed.

(** ** Quiescing *)
Lemma cancellation_ok g l r :
  gate_ok g l -> r ∈ RiskManager.cancellations (g_client_id g) (g_risk g) ->
  rq_type r = CANCEL /\ Wire.validate r = NONE /\ rq_client_id r = g_client_id g /\
  0 <= rq_ticker_id r /\ is_u32 (rq_qty r) /\
  exists r', r' ∈ l /\ cancels r r'.
Proof.
  intros Hok Hr. unfold RiskManager.cancellations in Hr.
  apply list_elem_of_fmap in Hr as ([[t o] v] & -> & Hin).
  rewrite merge_sort_Permutation, elem_of_map_to_list in Hin.
  destruct (gk_source _ _ Hok _ _ Hin) as (r & Hr & Hn & Hk & Hs & Hp). injection Hk as Ht Ho.
  destruct (ro_reservation _ _ (gk_risk _ _ Hok) _ _ Hin) as (_ & Hq & Hkt). cbn [fst] in Hkt.
  destruct (gk_valid _ _ Hok _ Hr) as [Hv Hc]. split; [done|]. split.
  - unfold Wire.validate in Hv |- *. rewrite Hn in Hv. cbn [rq_type rq_client_id rq_ticker_id rq_order_id].
    rewrite Hc, Ht, Ho in Hv. destruct (_ || _ || _); [done|].
    rewrite bool_decide_false in Hv by done. rewrite bool_decide_false by done.
    rewrite bool_decide_true in Hv by done. cbn [negb andb] in Hv.
    rewrite (bool_decide_true (CANCEL = CANCEL)), andb_false_r by done.
    destruct (o =? 0); done.
  - split; [done|]. unfold known_ticker in Hkt. unfold is_u32, INT32_MAX in *. cbn.
    split; [lia|]. split; [lia|]. exists r. split; [done|]. unfold cancels. cbn. by rewrite Ht, Ho, Hs, Hp.
Qed.

Section Quiesce.
Context (env : Gate -> Gate) (expired : nat -> bool).

Lemma quiesce_loop_sends cancels : forall fuel failed g l waiting,
  (length cancels <= fuel)%nat -> gate_ok g l -> queue_ok (g_requests g) waiting ->
  g_reconciled g = true -> g_order_session g <> Some false ->
  Z.of_nat (length waiting + length cancels) <= capacity (g_requests g) ->
  Forall (λ r, rq_type r = CANCEL /\ Wire.validate r = NONE /\ rq_client_id r = g_client_id g /\
    0 <= rq_ticker_id r /\ is_u32 (rq_qty r)) cancels ->
  exists g', Gate.quiesce_loop env expired fuel failed cancels g = Ok (true, g') /\
    queue_ok (g_requests g') (waiting ++ cancels) /\ g_risk g' = g_risk g /\
    g_admitting g' = g_admitting g.
Proof.
  induction cancels as [|r cancels IH]; intros fuel failed g l waiting Hf Hok Hw Hrec Hses Hroom Hall.
  - destruct fuel; exists g; by rewrite app_nil_r.
  - destruct fuel as [|fuel]; [cbn in Hf; lia|]. cbn [length] in Hroom, Hf.
    apply Forall_cons in Hall as [(H1 & H2 & H3 & H4 & H5) Hall].
    destruct (send_cancel r g l waiting Hok Hw H1 H2 H3 H4 H5 Hrec Hses ltac:(lia))
      as (g1 & Hs & Hok1 & Hw1 & Hcap & Hcl & Hrisk & Hrec1 & Hses1 & Had).
    cbn [Gate.quiesce_loop]. rewrite Hs. cbn [mbind res_bind].
    destruct (IH fuel failed g1 (l ++ [r]) (waiting ++ [r])) as (g2 & H6 & H7 & H8 & H9);
      [lia|done|done|done|congruence|rewrite Hcap, length_app; cbn; lia|by rewrite Hcl|].
    exists g2. rewrite <- app_assoc in H7. split; [done|]. split; [done|]. split; congruence.
Qed.

Lemma quiesce_loop_ends fuel : forall failed cancels g l,
  (forall g l, gate_ok g l -> gate_ok (env g) l /\ g_client_id (env g) = g_client_id g /\
     g_admitting (env g) = g_admitting g) ->
  gate_ok g l -> (length cancels <= fuel)%nat ->
  (exists n, (failed <= n)%nat /\ expired n = true /\ (length cancels + (n - failed) < fuel)%nat) ->
  Forall (λ r, 0 <= rq_ticker_id r /\ is_u32 (rq_qty r)) cancels ->
  exists b g', Gate.quiesce_loop env expired fuel failed cancels g = Ok (b, g') /\
    g_admitting g' = g_admitting g.
Proof.
  induction fuel as [|fuel IH]; intros failed cancels g l Henv Hok Hlen (n & Hn1 & Hn2 & Hn3) Hall;
    [lia|].
  destruct cancels as [|r cancels]; [by exists true, g|].
  apply Forall_cons in Hall as Hall'. destruct Hall' as [[Ht Hq] Hall2]. cbn [Gate.quiesce_loop].
  destruct (send_ok r g l Hok Ht Hq) as (sent & g1 & Hs & _ & _ & Hok1).
  destruct (sent_stepped _ _ _ _ _ Hok Ht Hq Hs) as (_ & _ & _ & _ & Had & _).
  rewrite Hs. cbn [mbind res_bind]. cbn [length] in *. destruct sent.
  - destruct (IH failed cancels g1 _ Henv Hok1) as (b & g2 & H1 & H2); [lia|exists n; split_and!; try done; lia|done|].
    exists b, g2. split; [done|congruence].
  - destruct (bool_decide (g_order_session g1 = Some false) || expired failed) eqn:E;
      [exists false, g1; split; [done|congruence]|].
    apply orb_false_iff in E as [_ E].
    assert (n <> failed) by (intros ->; congruence).
    destruct (Henv g1 _ Hok1) as (Hok2 & _ & Had2).
    destruct (IH (S failed) (r :: cancels) (env g1) _ Henv Hok2) as (b & g2 & H1 & H2);
      [cbn; lia|exists n; split_and!; [lia|done|cbn; lia]|done|].
    exists b, g2. split; [done|congruence].
Qed.

(** C33: quiescing always ends (at the latest when the deadline passes), and
    leaves admission closed.  When the queue has room, the session is up and
    the reports are reconciled, it sends one cancel for every open order, in
    the order of ticker and order id, and nothing else. *)
Theorem quiesce_cancels_open_orders g l waiting fuel n :
  (forall g l, gate_ok g l -> gate_ok (env g) l /\ g_client_id (env g) = g_client_id g /\
     g_admitting (env g) = g_admitting g) ->
  gate_ok g l -> queue_ok (g_requests g) waiting -> expired n = true ->
  let cancels := RiskManager.cancellations (g_client_id g) (g_risk g) in
  (length cancels + n < fuel)%nat ->
  exists b g', Gate.quiesce env expired fuel g = Ok (b, g') /\ g_admitting g' = false /\
    (g_reconciled g = true -> g_order_session g <> Some false ->
     Z.of_nat (length waiting + length cancels) <= capacity (g_requests g) ->
     b = true /\ queue_ok (g_requests g') (waiting ++ cancels) /\
     cancels ≡ₚ (λ '((t, o), v), mkRequest CANCEL (g_client_id g) t o (rv_side v) (rv_price v) (rv_qty v) 0 0)
       <$> map_to_list (rk_reservations (g_risk g))).
Proof.
  intros Henv Hok Hw Hexp cancels Hfuel. unfold Gate.quiesce.
  assert (Hok0 : gate_ok (with_admitting false g) l) by (by eapply gate_ok_flags).
  change (RiskManager.cancellations _ (g_risk (with_admitting false g))) with cancels.
  assert (Hall : Forall (λ r, rq_type r = CANCEL /\ Wire.validate r = NONE /\
    rq_client_id r = g_client_id g /\ 0 <= rq_ticker_id r /\ is_u32 (rq_qty r)) cancels).
  { apply Forall_forall. intros r Hr. by destruct (cancellation_ok g l r Hok Hr) as (? & ? & ? & ? & ? & _). }
  destruct (quiesce_loop_ends fuel 0 cancels (with_admitting false g) l Henv Hok0)
    as (b & g' & Hrun & Had); [lia|exists n; split_and!; try done; lia| |].
  { eapply Forall_impl; [exact Hall|]. by intros r (_ & _ & _ & ? & ?). }
  exists b, g'. split; [done|]. split; [done|]. intros Hrec Hses Hroom.
  destruct (quiesce_loop_sends cancels fuel 0 (with_admitting false g) l waiting)
    as (g2 & Hrun2 & Hq2 & _); [lia|done..|]. rewrite Hrun in Hrun2. injection Hrun2 as -> ->.
  split; [done|]. split; [done|]. unfold cancels, RiskManager.cancellations. by rewrite merge_sort_Permutation.
Qed.
End Quiesce.

(** ** Witnesses *)
Definition demo_requests : LFQueue MEClientRequest :=
  mkQueue (replicate 4 default_MEClientRequest) 3 7 0 0 0 0.

Definition demo_gate : Gate := Gate.setMarketTrusted true (Gate.make 1 demo_cfg demo_requests).

Definition demo_order : MEClientRequest := demo_new 1 10.

(** The order is partly filled twice; the second report comes twice. *)
Definition demo_report (id exec leaves : Z) : MEClientResponse :=
  mkResponse FILLED 1 0 1 5 BUY 100 exec leaves NONE id 0.

Definition demo_reports : list MEClientResponse :=
  [demo_report 1 4 6; demo_report 2 6 0; demo_report 2 6 0].

Lemma demo_cfg_ok : cfg_ok demo_cfg.
Proof.
  split; [reflexivity|]. apply Forall_forall. intros c Hc. apply elem_of_replicate in Hc as [-> _].
  unfold is_u32. cbn. lia.
Defined.

Lemma demo_requests_ok : queue_ok demo_requests [].
Proof. by apply (queue_new_ok default_MEClientRequest 4 demo_requests). Defined.

Lemma demo_gate_ok : gate_ok demo_gate [].
Proof.
  eapply gate_ok_flags; [apply (gate_make_ok 1 demo_cfg demo_requests)|reflexivity..].
  - exact demo_cfg_ok.
  - exact demo_requests_ok.
Defined.

Lemma admission_all_or_nothing_witness :
  exists g, Gate.sendClientRequest demo_order demo_gate = Ok (true, g) /\
    queue_ok (g_requests g) [demo_order].
Proof.
  destruct (admission_all_or_nothing demo_order demo_gate [] [] demo_gate_ok demo_requests_ok)
    as (sent & g & Hs & Hyes & _); [cbn; lia|cbn; unfold is_u32; lia|].
  assert (E : sent = true).
  { pose proof Hs as Hs'. vm_compute in Hs'. by injection Hs' as <- _. }
  subst sent. exists g. split; [exact Hs|]. destruct (Hyes eq_refl) as (_ & _ & _ & _ & _ & Hq & _).
  exact Hq.
Defined.

Lemma demo_ops_gop_ok : Forall gop_ok
  [OpCommit 1; OpSend demo_order; OpTake; OpReport (demo_report 1 4 6); OpSend (demo_new 2 10)].
Proof.
  repeat (constructor; [cbn; unfold report_ok, is_u32, is_u64; cbn; lia|]). constructor.
Defined.

(** The second order would exceed the limit of 15 and does not leave. *)
Lemma gate_is_safe_witness :
  exists l g, gate_run [OpCommit 1; OpSend demo_order; OpTake; OpReport (demo_report 1 4 6);
      OpSend (demo_new 2 10)] (Gate.make 1 demo_cfg demo_requests) = Ok (l, g) /\
    l = [demo_order] /\ ticker_position (g_keeper g) 0 + pend BUY 0 (g_risk g) <= 15.
Proof.
  destruct (gate_is_safe 1 demo_cfg demo_requests _ demo_cfg_ok demo_requests_ok demo_ops_gop_ok)
    as (l & g & Hrun & _ & Hsafe).
  exists l, g. split; [exact Hrun|]. split.
  - vm_compute in Hrun. by injection Hrun as <- _.
  - apply (Hsafe 0). unfold known_ticker, ME_MAX_TICKERS. lia.
Defined.

Lemma unreconciled_gate_stays_shut_witness :
  exists g, gate_run [OpSend demo_order; OpSession true; OpCommit 1; OpSend demo_order]
      (with_reconciled false demo_gate) = Ok ([], g) /\ g_reconciled g = false.
Proof.
  apply (unreconciled_gate_stays_shut (with_reconciled false demo_gate) []).
  - eapply gate_ok_flags; [exact demo_gate_ok|reflexivity..].
  - reflexivity.
  - repeat (constructor; [cbn; unfold is_u32; try exact I; lia|]). constructor.
Defined.

Lemma stale_market_admits_no_new_order_witness :
  exists rs g g', gate_run [OpSend demo_order; OpStale; OpCommit 1; OpTrust false; OpSend demo_order]
      (Gate.make 1 demo_cfg demo_requests) = Ok (rs, g) /\ stale g /\ rs = [] /\
    Gate.sendClientRequest (mkRequest CANCEL 1 0 1 BUY 100 10 0 0) g = Ok (true, g') /\
    queue_ok (g_requests g') [mkRequest CANCEL 1 0 1 BUY 100 10 0 0].
Proof.
  destruct (stale_market_admits_no_new_order (Gate.make 1 demo_cfg demo_requests) []
    [OpSend demo_order; OpStale; OpCommit 1; OpTrust false; OpSend demo_order]) as (rs & g & Hrun & Hst & _ & _ & Hcancel).
  - exact (gate_make_ok 1 demo_cfg demo_requests demo_cfg_ok demo_requests_ok).
  - unfold stale. cbn. lia.
  - repeat (constructor; [cbn; unfold is_u32; try exact I; lia|]). constructor.
  - cbn. lia.
  - assert (E : rs = [] /\ g_requests g = demo_requests /\ g_reconciled g = true /\ g_order_session g = None).
    { vm_compute in Hrun. injection Hrun as <- <-. by vm_compute. }
    destruct E as (E1 & E2 & E3 & E4). rewrite E2, E3, E4 in Hcancel.
    destruct (Hcancel (mkRequest CANCEL 1 0 1 BUY 100 10 0 0) [] demo_requests_ok) as (g' & Hs & Hq);
      [by vm_compute|done|done|reflexivity|by vm_compute|reflexivity|cbn; lia|cbn; unfold is_u32; lia|].
    exists rs, g, g'. split; [exact Hrun|]. split; [exact Hst|]. split; [exact E1|]. by split.
Defined.

Lemma fills_count_once_witness :
  exists g told g', Gate.sendClientRequest demo_order demo_gate = Ok (true, g) /\
    report_run demo_reports g = Ok (told, g') /\
    rs_response_id <$> told = [1; 2] /\ ticker_position (g_keeper g') 0 = 10.
Proof.
  destruct (send_ok demo_order demo_gate [] demo_gate_ok) as (sent & g & Hs & _ & _ & Hok);
    [cbn; lia|cbn; unfold is_u32; lia|].
  assert (E : sent = true) by (pose proof Hs as Hs'; vm_compute in Hs'; by injection Hs' as <- _).
  subst sent. cbn [app] in Hok.
  assert (Hrs : Forall report_ok demo_reports).
  { repeat (constructor; [unfold report_ok, is_u32, is_u64; cbn; lia|]). constructor. }
  destruct (fills_count_once demo_reports g _ Hok Hrs) as (told & g' & Hrun & _ & _ & Hpos).
  exists g, told, g'. split; [exact Hs|]. split; [exact Hrun|].
  assert (E : rs_response_id <$> told = [1; 2] /\ told_qty 0 told = 10 /\ ticker_position (g_keeper g) 0 = 0).
  { vm_compute in Hs. injection Hs as <-. vm_compute in Hrun. injection Hrun as <- _. by vm_compute. }
  destruct E as (E1 & E2 & E3). split; [exact E1|]. rewrite Hpos, E2, E3; [reflexivity|].
  unfold known_ticker, ME_MAX_TICKERS. lia.
Defined.

Lemma quiesce_cancels_open_orders_witness :
  exists g g', Gate.sendClientRequest demo_order demo_gate = Ok (true, g) /\
    Gate.quiesce (λ g, g) (λ n, bool_decide (n = 3%nat)) 10 g = Ok (true, g') /\
    queue_ok (g_requests g') [demo_order; mkRequest CANCEL 1 0 1 BUY 100 10 0 0].
Proof.
  destruct (admission_all_or_nothing demo_order demo_gate [] [] demo_gate_ok demo_requests_ok)
    as (sent & g & Hs & Hyes & _); [cbn; lia|cbn; unfold is_u32; lia|].
  destruct (send_ok demo_order demo_gate [] demo_gate_ok) as (sent' & g2 & Hs2 & _ & _ & Hok);
    [cbn; lia|cbn; unfold is_u32; lia|].
  rewrite Hs in Hs2. injection Hs2 as <- <-.
  assert (E : sent = true) by (pose proof Hs as Hs'; vm_compute in Hs'; by injection Hs' as <- _).
  subst sent. destruct (Hyes eq_refl) as (_ & _ & _ & _ & _ & Hq & _). cbn [app] in Hok, Hq.
  assert (Hg : RiskManager.cancellations (g_client_id g) (g_risk g) = [mkRequest CANCEL 1 0 1 BUY 100 10 0 0] /\
    g_reconciled g = true /\ g_order_session g <> Some false /\ capacity (g_requests g) = 4).
  { vm_compute in Hs. injection Hs as <-. split_and!; by vm_compute. }
  destruct Hg as (Hc & H1 & H2 & H3).
  destruct (quiesce_cancels_open_orders (λ g, g) (λ n, bool_decide (n = 3%nat)) g [demo_order] [demo_order] 10 3)
    as (b & g' & Hrun & _ & Hsent); [done|exact Hok|exact Hq|reflexivity|rewrite Hc; cbn; lia|].
  destruct (Hsent H1 H2) as (-> & Hq' & _); [rewrite Hc, H3; cbn; lia|].
  exists g, g'. split; [exact Hs|]. split; [exact Hrun|]. rewrite Hc in Hq'. exact Hq'.
Defined.
