(* ===== verification/TradeEngine.v ===== *)
(** The trading engine: the event loop of trading/strategy/trade_engine.{h,cpp}.

    The engine thread takes the reports of the order gateway and the updates
    of the market data consumer from two queues, keeps one order book per
    ticker, and calls the strategy.  The handlers that the order books call
    back are here; admission and reconciliation are in [TradeGate]. *)
From S2P Require Import Prelude.
From S2P Require Import Types.
From S2P Require Import LFQueue.
From S2P Require Import TradingTypes.
From S2P Require Import PositionKeeper.
From S2P Require Import RiskManager.
From S2P Require Import MarketView.
From S2P Require Import ClientBook.
From S2P Require Import ClientBookSpec.
From S2P Require Import OrderManager.
From S2P Require Import Strategy.
From S2P Require Import TradeGate.
From S2P Require Import TradeGateTheorems.
From stdpp Require Import base gmap list.
From Stdlib Require Import ZArith Lia.

Local Open Scope Z_scope.

Record TradeEngine : Type := mkTradeEngine {
  te_gate : Gate;
  te_books : list MarketOrderBook;              (* ticker_order_book_ *)
  te_responses : LFQueue MEClientResponse;      (* incoming_ogw_responses_ *)
  te_updates : LFQueue MEMarketUpdate;          (* incoming_md_updates_ *)
  te_features : FeatureEngine;
  te_orders : OrderManager
}.

Definition with_gate (g : Gate) (e : TradeEngine) : TradeEngine :=
  mkTradeEngine g (te_books e) (te_responses e) (te_updates e) (te_features e) (te_orders e).
Definition with_books (l : list MarketOrderBook) (e : TradeEngine) : TradeEngine :=
  mkTradeEngine (te_gate e) l (te_responses e) (te_updates e) (te_features e) (te_orders e).
Definition with_features (f : FeatureEngine) (e : TradeEngine) : TradeEngine :=
  mkTradeEngine (te_gate e) (te_books e) (te_responses e) (te_updates e) f (te_orders e).
Definition with_queues (r : LFQueue MEClientResponse) (u : LFQueue MEMarketUpdate) (e : TradeEngine) :
    TradeEngine :=
  mkTradeEngine (te_gate e) (te_books e) r u (te_features e) (te_orders e).

Module TradeEngine.

(** The constructor, for order books of any size; [make] has the sizes of the
    code.  [None]: a pool cannot be allocated. *)
Definition make_sized (orders levels client_id : Z) (ticker_cfg : list TradeEngineCfg)
    (client_requests : LFQueue MEClientRequest) (client_responses : LFQueue MEClientResponse)
    (market_updates : LFQueue MEMarketUpdate) : option TradeEngine :=
  books ← mapM (λ i, MarketOrderBook.make_sized i orders levels) (seqZ 0 ME_MAX_TICKERS);
  Some (mkTradeEngine (Gate.make client_id ticker_cfg client_requests) books client_responses
    market_updates FeatureEngine.make OrderManager.make).
Definition make := make_sized ME_MAX_ORDER_IDS ME_MAX_PRICE_LEVELS.

Section Loop.
Context (strategy : Strategy Gate).

(** The strategy acts on the order manager and, through it, on the gate. *)
Definition call (handler : OrderManager * Gate -> res (OrderManager * Gate)) (e : TradeEngine) :
    res TradeEngine :=
  '(m, g) ← handler (te_orders e, te_gate e);
  Ok (mkTradeEngine g (te_books e) (te_responses e) (te_updates e) (te_features e) m).

Definition onOrderBookUpdate (ticker_id price : Z) (side : Side) (book : MarketOrderBook)
    (e : TradeEngine) : res TradeEngine :=
  let bbo := MarketOrderBook.getBBO book in
  k ← PositionKeeper.updateBBO ticker_id bbo (g_keeper (te_gate e));
  let e := with_gate (with_keeper k (te_gate e)) e in
  let e := with_features (FeatureEngine.onOrderBookUpdate ticker_id price side book (te_features e)) e in
  if Gate.marketReady (te_gate e)
  then call (Strategy.onOrderBookUpdate strategy ticker_id price side book (te_features e)) e
  else Ok e.

Definition onTradeUpdate (u : MEMarketUpdate) (book : MarketOrderBook) (e : TradeEngine) :
    res TradeEngine :=
  let e := with_features (FeatureEngine.onTradeUpdate u book (te_features e)) e in
  if Gate.marketReady (te_gate e)
  then call (Strategy.onTradeUpdate strategy u book (te_features e)) e
  else Ok e.

Definition onOrderUpdate (r : MEClientResponse) (e : TradeEngine) : res TradeEngine :=
  '(told, g) ← Gate.reconcile r (te_gate e);
  let e := with_gate g e in
  if told : bool then call (Strategy.onOrderUpdate strategy r) e else Ok e.

(** The body of the second inner loop, without the queue. *)
Definition process_update (u : MEMarketUpdate) (e : TradeEngine) : res TradeEngine :=
  let g := te_gate e in
  if bool_decide (mu_type u = MD_RECOVERY_COMMIT) then
    let generation := mu_priority u in
    Ok (if generation =? g_market_generation g
        then with_gate (with_generations (g_market_generation g) generation g) e else e)
  else
  _ ← ASSERT (mu_ticker_id u <? Z.of_nat (length (te_books e)));
  book ← deref (te_books e !! Z.to_nat (mu_ticker_id u));
  '(ok, callback, book) ← MarketOrderBook.onMarketUpdate u book;
  let e := with_books (<[Z.to_nat (mu_ticker_id u) := book]> (te_books e)) e in
  if negb ok then Ok (with_gate (Gate.bump_generation (te_gate e)) e) else
  match callback with
  | NoCallback => Ok e
  | CallTradeUpdate => onTradeUpdate u book e
  | CallBookUpdate => onOrderBookUpdate (mu_ticker_id u) (mu_price u) (mu_side u) book e
  end.

(** The two inner loops; the event is removed after it has been handled. *)
Fixpoint drain_responses (fuel : nat) (e : TradeEngine) : res TradeEngine :=
  client_response ← peek (te_responses e);
  match client_response with
  | None => Ok e
  | Some r =>
      match fuel with
      | O => Err NoFuel
      | S fuel =>
          e ← onOrderUpdate r e;
          q ← pop (te_responses e);
          drain_responses fuel (with_queues q (te_updates e) e)
      end
  end.

Fixpoint drain_updates (fuel : nat) (e : TradeEngine) : res TradeEngine :=
  market_update ← peek (te_updates e);
  match market_update with
  | None => Ok e
  | Some u =>
      match fuel with
      | O => Err NoFuel
      | S fuel =>
          e ← process_update u e;
          q ← pop (te_updates e);
          drain_updates fuel (with_queues (te_responses e) q e)
      end
  end.

Definition run_iteration (e : TradeEngine) : res TradeEngine :=
  e ← drain_responses (Z.to_nat (queue_size (te_responses e))) e;
  drain_updates (Z.to_nat (queue_size (te_updates e))) e.

(** The outer loop after [run_] has become false, when nothing is pushed any more. *)
Fixpoint run_stopped (fuel : nat) (e : TradeEngine) : res TradeEngine :=
  r ← peek (te_responses e);
  u ← peek (te_updates e);
  match r, u with
  | None, None => Ok e
  | _, _ =>
      match fuel with
      | O => Err NoFuel
      | S fuel => e ← run_iteration e; run_stopped fuel e
      end
  end.

End Loop.
End TradeEngine.

(** ** What the engine relies on: a strategy that never fails and only sends
    through the order manager *)
Class StrategyOk (s : Strategy Gate) : Prop := {
  so_book c l st t price side book f :
    OrderManager.sys_ok c l st -> 0 <= t < ME_MAX_TICKERS ->
    OrderManager.sends c l (λ _, True) (Strategy.onOrderBookUpdate s t price side book f st);
  so_trade c l st u book f :
    OrderManager.sys_ok c l st -> 0 <= mu_ticker_id u < ME_MAX_TICKERS ->
    OrderManager.sends c l (λ _, True) (Strategy.onTradeUpdate s u book f st);
  so_order c l st r :
    OrderManager.sys_ok c l st -> report_ok r ->
    OrderManager.sends c l (λ _, True) (Strategy.onOrderUpdate s r st)
}.

Lemma sends_weaken {E} `{RequestSink E} c l (P : MEClientRequest -> Prop) out :
  OrderManager.sends (E := E) c l P out -> OrderManager.sends c l (λ _, True) out.
Proof.
  intros (st' & rs & -> & Hsys & HP). exists st', rs. split; [done|]. split; [done|].
  eapply Forall_impl; [exact HP|done].
Qed.

(** The manager's handler of reports. *)
Lemma sends_report c l (st : OrderManager * Gate) r :
  OrderManager.sys_ok c l st -> report_ok r ->
  OrderManager.sends c l (λ _, True) (Ok (OrderManager.onOrderUpdate r st.1, st.2)).
Proof.
  intros Hsys (_ & _ & Hl & _). apply OrderManager.sends_nothing. by apply OrderManager.onOrderUpdate_ok.
Qed.

#[export] Instance maker_ok cfg : cfgs_ok cfg -> StrategyOk (MarketMaker cfg).
Proof.
  intros Hcfg. split; cbn [Strategy.onOrderBookUpdate Strategy.onTradeUpdate Strategy.onOrderUpdate MarketMaker].
  - intros c l st t price side book f Hsys Ht. unfold MarketMaker_onOrderBookUpdate.
    destruct (_ && _ && _); [|by apply OrderManager.sends_nothing].
    destruct (cfg_at_ok t cfg Hcfg Ht) as (cf & -> & Hq). cbn [mbind res_bind].
    destruct (_ || _); [by apply OrderManager.sends_nothing|].
    eapply sends_weaken. by apply OrderManager.moveOrders_ok.
  - intros c l st u book f Hsys Ht. by apply OrderManager.sends_nothing.
  - intros c l st r. apply sends_report.
Qed.

#[export] Instance taker_ok cfg : cfgs_ok cfg -> StrategyOk (LiquidityTaker cfg).
Proof.
  intros Hcfg. split; cbn [Strategy.onOrderBookUpdate Strategy.onTradeUpdate Strategy.onOrderUpdate LiquidityTaker].
  - intros c l st t price side book f Hsys Ht. by apply OrderManager.sends_nothing.
  - intros c l st u book f Hsys Ht. unfold LiquidityTaker_onTradeUpdate.
    destruct (_ && _ && _); [|by apply OrderManager.sends_nothing].
    destruct (cfg_at_ok _ cfg Hcfg Ht) as (cf & -> & Hq). cbn [mbind res_bind].
    destruct (d_ge _ _); [|by apply OrderManager.sends_nothing].
    case_bool_decide; eapply sends_weaken; by apply OrderManager.moveOrders_ok.
  - intros c l st r. apply sends_report.
Qed.

#[export] Instance passive_ok : StrategyOk PassiveStrategy.
Proof. split; intros; by apply OrderManager.sends_nothing. Qed.

(** Every strategy that the factory creates. *)
Lemma created_strategy_ok type cfg s :
  cfgs_ok cfg -> createStrategy type cfg = Some s -> StrategyOk s.
Proof. intros Hcfg H. destruct type; try done; injection H as <-; [apply passive_ok|by apply maker_ok|by apply taker_ok].
Qed.

(** ** The invariant *)

(** Updates that do not end the process: the ticker is known, except in a
    recovery marker. *)
Definition md_ok (u : MEMarketUpdate) : Prop :=
  0 <= mu_order_id u /\ is_u32 (mu_qty u) /\
  (mu_type u <> MD_RECOVERY_COMMIT -> 0 <= mu_ticker_id u < ME_MAX_TICKERS).

(** The book of a ticker holds some orders and quotes their best prices. *)
Definition book_ok (orders levels : Z) (i : nat) (b : MarketOrderBook) : Prop :=
  exists m G, client_ok (Z.of_nat i) orders levels b m G /\ quotes_ok b m.

Record engine_ok (orders levels : Z) (c : Gate) (e : TradeEngine) (l : list MEClientRequest) : Prop := {
  ek_flow : OrderManager.sys_ok c l (te_orders e, te_gate e);
  ek_length : length (te_books e) = Z.to_nat ME_MAX_TICKERS;
  ek_books i b : te_books e !! i = Some b -> book_ok orders levels i b
}.

(** What the books of the tickers become. *)
Fixpoint feed_books (us : list MEMarketUpdate) (books : list MarketOrderBook) :
    res (list MarketOrderBook) :=
  match us with
  | [] => Ok books
  | u :: us' =>
      if bool_decide (mu_type u = MD_RECOVERY_COMMIT) then feed_books us' books else
      book ← deref (books !! Z.to_nat (mu_ticker_id u));
      '(_, _, book) ← MarketOrderBook.onMarketUpdate u book;
      feed_books us' (<[Z.to_nat (mu_ticker_id u) := book]> books)
  end.

Section Engine.
Context (strategy : Strategy Gate) `{Hstrategy : !StrategyOk strategy}.
Context (orders levels : Z).

Notation engine_ok := (engine_ok orders levels).

Lemma engine_ok_same c e e' l :
  engine_ok c e l -> te_orders e' = te_orders e -> te_gate e' = te_gate e ->
  te_books e' = te_books e -> engine_ok c e' l.
Proof. intros [] E1 E2 E3. split; rewrite ?E1, ?E2, ?E3; done. Qed.

(** A change of the gate that its own operations justify. *)
Lemma engine_ok_gate c e l g :
  engine_ok c e l -> gate_ok g l -> gate_frame (te_gate e) g -> engine_ok c (with_gate g e) l.
Proof.
  intros [(Hc & Hm & Hf & Hg) Hl Hb] Hg' Hfr. split; [|done|done].
  unfold OrderManager.sys_ok in *. cbn [fst snd te_gate te_orders with_gate] in *.
  split; [by apply (OrderManager.sink_frame_trans _ (te_gate e))|]. by split_and!.
Qed.

Lemma engine_gate c e l : engine_ok c e l -> gate_ok (te_gate e) l.
Proof. intros [(_ & _ & _ & Hg) _ _]. exact Hg. Qed.

(** A handler of the strategy. *)
Lemma call_ok c e l h :
  engine_ok c e l ->
  OrderManager.sends c l (λ _, True) (h (te_orders e, te_gate e)) ->
  exists e' rs, TradeEngine.call h e = Ok e' /\ engine_ok c e' (l ++ rs) /\
    te_books e' = te_books e /\ te_responses e' = te_responses e /\ te_updates e' = te_updates e.
Proof.
  intros Hok ([m g] & rs & H & Hsys & _). unfold TradeEngine.call. rewrite H. cbn [mbind res_bind].
  eexists _, rs. split; [done|]. split; [|done]. split; [exact Hsys|apply Hok|apply Hok].
Qed.

Lemma call_none c e l :
  engine_ok c e l ->
  exists e' rs, Ok e = Ok e' /\ engine_ok c e' (l ++ rs) /\
    te_books e' = te_books e /\ te_responses e' = te_responses e /\ te_updates e' = te_updates e.
Proof. intros Hok. exists e, []. by rewrite app_nil_r. Qed.

Lemma engine_onOrderUpdate_ok c e l r :
  engine_ok c e l -> report_ok r ->
  exists e' rs, TradeEngine.onOrderUpdate strategy r e = Ok e' /\ engine_ok c e' (l ++ rs) /\
    te_books e' = te_books e /\ te_responses e' = te_responses e /\ te_updates e' = te_updates e.
Proof.
  intros Hok Hr. unfold TradeEngine.onOrderUpdate.
  destruct (reconcile_ok r _ l (engine_gate _ _ _ Hok) Hr) as (told & g & -> & Hrep).
  cbn [mbind res_bind].
  pose proof (engine_ok_gate c e l g Hok (rp_ok _ _ _ _ _ Hrep)
    (conj (rp_client _ _ _ _ _ Hrep) (rp_cfg _ _ _ _ _ Hrep))) as Hok1.
  destruct told; [|exact (call_none c _ l Hok1)].
  destruct (call_ok c (with_gate g e) l (Strategy.onOrderUpdate strategy r) Hok1)
    as (e' & rs & H1 & H2 & H3); [apply (so_order c l); [apply Hok1|done]|].
  exists e', rs. done.
Qed.

Lemma onTradeUpdate_ok c e l u book :
  engine_ok c e l -> 0 <= mu_ticker_id u < ME_MAX_TICKERS ->
  exists e' rs, TradeEngine.onTradeUpdate strategy u book e = Ok e' /\ engine_ok c e' (l ++ rs) /\
    te_books e' = te_books e /\ te_responses e' = te_responses e /\ te_updates e' = te_updates e.
Proof.
  intros Hok Ht. unfold TradeEngine.onTradeUpdate.
  set (f := FeatureEngine.onTradeUpdate u book (te_features e)).
  assert (Hok1 : engine_ok c (with_features f e) l) by (by eapply engine_ok_same).
  destruct (Gate.marketReady _); [|exact (call_none c _ l Hok1)].
  destruct (call_ok c (with_features f e) l (Strategy.onTradeUpdate strategy u book f) Hok1)
    as (e' & rs & H1 & H2 & H3); [apply (so_trade c l); [apply Hok1|done]|].
  exists e', rs. done.
Qed.

Lemma onOrderBookUpdate_ok c e l t price side book :
  engine_ok c e l -> 0 <= t < ME_MAX_TICKERS ->
  exists e' rs, TradeEngine.onOrderBookUpdate strategy t price side book e = Ok e' /\
    engine_ok c e' (l ++ rs) /\
    te_books e' = te_books e /\ te_responses e' = te_responses e /\ te_updates e' = te_updates e.
Proof.
  intros Hok Ht. unfold TradeEngine.onOrderBookUpdate.
  destruct (gate_step_ok _ l (OpQuote t (MarketOrderBook.getBBO book)) (engine_gate _ _ _ Hok) Ht)
    as (rs0 & g & Hg & Hgok & Hst). cbn [gate_step] in Hg.
  destruct (PositionKeeper.updateBBO t _ _) as [k|] eqn:Ek; [|done]. cbn [mbind res_bind] in Hg |- *.
  injection Hg as <- <-. rewrite app_nil_r in Hgok.
  set (f := FeatureEngine.onOrderBookUpdate t price side book _). set (e1 := with_features f _).
  assert (Hok1 : engine_ok c e1 l).
  { eapply engine_ok_same; [eapply (engine_ok_gate c e l (with_keeper k (te_gate e))); [done|done|]|done..].
    split; apply Hst. }
  destruct (Gate.marketReady _); [|exact (call_none c _ l Hok1)].
  destruct (call_ok c e1 l (Strategy.onOrderBookUpdate strategy t price side book f) Hok1)
    as (e' & rs & H1 & H2 & H3); [apply (so_book c l); [apply Hok1|done]|].
  exists e', rs. done.
Qed.

(** One update of the market data. *)
Lemma process_update_ok c e l u :
  engine_ok c e l -> md_ok u ->
  exists e' rs books, TradeEngine.process_update strategy u e = Ok e' /\ engine_ok c e' (l ++ rs) /\
    feed_books [u] (te_books e) = Ok books /\ te_books e' = books /\
    te_responses e' = te_responses e /\ te_updates e' = te_updates e.
Proof.
  intros Hok (Hid & Hq & Ht). unfold TradeEngine.process_update. cbn [feed_books].
  destruct (bool_decide_reflect (mu_type u = MD_RECOVERY_COMMIT)) as [Ec|Ec].
  { eexists _, [], (te_books e). split; [done|]. rewrite app_nil_r. destruct (_ =? _); [|done].
    split; [|done]. apply engine_ok_gate; [done| |done].
    by apply (gate_ok_flags (te_gate e)); [eapply engine_gate|..]. }
  specialize (Ht Ec). pose proof (ek_length _ _ _ _ _ Hok) as Hlen.
  rewrite (proj2 (Z.ltb_lt _ _)) by (rewrite Hlen; unfold ME_MAX_TICKERS in *; lia). cbn [ASSERT mbind res_bind].
  destruct (lookup_lt_is_Some_2 (te_books e) (Z.to_nat (mu_ticker_id u))) as [b Hb]; [lia|].
  rewrite Hb. cbn [deref mbind res_bind].
  destruct (ek_books _ _ _ _ _ Hok _ _ Hb) as (m & G & Hbook & Hquote).
  destruct (onMarketUpdate_ok _ _ _ b m G u Hbook Hquote Hid Hq)
    as (ok & cb & b' & -> & Hno & Hyes & _). cbn [mbind res_bind].
  set (books := <[_ := b']> (te_books e)).
  assert (Hok1 : engine_ok c (with_books books e) l).
  { split; [apply Hok|cbn; by unfold books; rewrite length_insert|].
    intros i x Hi. cbn in Hi. unfold books in Hi.
    apply list_lookup_insert_Some in Hi as [(<- & <- & _)|[_ Hi]]; [|by apply Hok].
    destruct ok.
    - destruct (Hyes eq_refl) as (_ & m' & G' & _ & H1 & H2). by exists m', G'.
    - destruct (Hno eq_refl) as [-> _]. by exists m, G. }
  destruct ok; cbn [negb].
  2:{ eexists _, [], books. rewrite app_nil_r. split; [done|]. split; [|done].
      apply engine_ok_gate; [done| |done]. cbn.
      by apply (gate_ok_flags (te_gate e)); [eapply engine_gate|..]. }
  destruct cb.
  - eexists _, [], books. rewrite app_nil_r. by split_and!.
  - destruct (onTradeUpdate_ok c _ l u b' Hok1 Ht) as (e' & rs & H1 & H2 & H3 & H4 & H5).
    exists e', rs, books. split_and!; done.
  - destruct (onOrderBookUpdate_ok c _ l (mu_ticker_id u) (mu_price u) (mu_side u) b' Hok1 Ht)
      as (e' & rs & H1 & H2 & H3 & H4 & H5).
    exists e', rs, books. split_and!; done.
Qed.

Lemma drain_responses_ok c l0 : forall waiting fuel e,
  engine_ok c e l0 -> queue_ok (te_responses e) waiting -> Forall report_ok waiting ->
  (length waiting <= fuel)%nat ->
  exists e' rs, TradeEngine.drain_responses strategy fuel e = Ok e' /\ engine_ok c e' (l0 ++ rs) /\
    queue_ok (te_responses e') [] /\ te_books e' = te_books e /\ te_updates e' = te_updates e.
Proof.
  intros waiting. revert l0. induction waiting as [|r waiting IH]; intros l0 fuel e Hok Hq Hall Hf.
  - exists e, []. rewrite app_nil_r. destruct fuel; cbn [TradeEngine.drain_responses];
      rewrite (peek_ok _ _ Hq); by split_and!.
  - destruct fuel as [|fuel]; [cbn in Hf; lia|]. apply Forall_cons in Hall as [Hr Hall].
    cbn [TradeEngine.drain_responses]. rewrite (peek_ok _ _ Hq). cbn [head mbind res_bind].
    destruct (engine_onOrderUpdate_ok c e l0 r Hok Hr) as (e1 & rs1 & -> & Hok1 & Hb1 & Hr1 & Hu1).
    cbn [mbind res_bind]. rewrite Hr1. destruct (pop_ok _ _ Hq) as (q & -> & Hq' & _).
    cbn [mbind res_bind].
    destruct (IH (l0 ++ rs1) fuel (with_queues q (te_updates e1) e1)) as (e2 & rs2 & H1 & H2 & H3 & H4 & H5);
      [by eapply engine_ok_same|done|done|cbn in Hf; lia|].
    exists e2, (rs1 ++ rs2). rewrite app_assoc. cbn in H4, H5. split_and!; try done; congruence.
Qed.

Lemma feed_books_cons u us books books1 :
  feed_books [u] books = Ok books1 -> feed_books (u :: us) books = feed_books us books1.
Proof.
  cbn [feed_books]. destruct (bool_decide _); [by intros [= ->]|]. intros H.
  destruct (deref _) as [b|]; [|done]. cbn [mbind res_bind] in *.
  destruct (MarketOrderBook.onMarketUpdate u b) as [[[ok cb] b']|]; [|done]. cbn [mbind res_bind] in *.
  by injection H as ->.
Qed.

Lemma drain_updates_ok c l0 : forall waiting fuel e,
  engine_ok c e l0 -> queue_ok (te_updates e) waiting -> Forall md_ok waiting ->
  (length waiting <= fuel)%nat ->
  exists e' rs, TradeEngine.drain_updates strategy fuel e = Ok e' /\ engine_ok c e' (l0 ++ rs) /\
    queue_ok (te_updates e') [] /\ feed_books waiting (te_books e) = Ok (te_books e') /\
    te_responses e' = te_responses e.
Proof.
  intros waiting. revert l0. induction waiting as [|u waiting IH]; intros l0 fuel e Hok Hq Hall Hf.
  - exists e, []. rewrite app_nil_r. destruct fuel; cbn [TradeEngine.drain_updates];
      rewrite (peek_ok _ _ Hq); by split_and!.
  - destruct fuel as [|fuel]; [cbn in Hf; lia|]. apply Forall_cons in Hall as [Hu Hall].
    cbn [TradeEngine.drain_updates]. rewrite (peek_ok _ _ Hq). cbn [head mbind res_bind].
    destruct (process_update_ok c e l0 u Hok Hu) as (e1 & rs1 & books & -> & Hok1 & Hfeed & Hb1 & Hr1 & Hu1).
    cbn [mbind res_bind]. rewrite Hu1. destruct (pop_ok _ _ Hq) as (q & -> & Hq' & _).
    cbn [mbind res_bind].
    destruct (IH (l0 ++ rs1) fuel (with_queues (te_responses e1) q e1)) as (e2 & rs2 & H1 & H2 & H3 & H4 & H5);
      [by eapply engine_ok_same|done|done|cbn in Hf; lia|].
    exists e2, (rs1 ++ rs2). rewrite app_assoc, (feed_books_cons u _ _ books Hfeed).
    cbn in H4, H5. rewrite Hb1 in H4. split_and!; try done; congruence.
Qed.

Lemma run_iteration_ok c e l rw uw :
  engine_ok c e l -> queue_ok (te_responses e) rw -> queue_ok (te_updates e) uw ->
  Forall report_ok rw -> Forall md_ok uw ->
  exists e' rs, TradeEngine.run_iteration strategy e = Ok e' /\ engine_ok c e' (l ++ rs) /\
    queue_ok (te_responses e') [] /\ queue_ok (te_updates e') [] /\
    feed_books uw (te_books e) = Ok (te_books e').
Proof.
  intros Hok Hr Hu Hrall Huall. unfold TradeEngine.run_iteration.
  rewrite (queue_size_ok _ _ Hr), Nat2Z.id.
  destruct (drain_responses_ok c l rw (length rw) e Hok Hr Hrall ltac:(lia))
    as (e1 & rs1 & -> & Hok1 & Hr1 & Hb1 & Hu1). cbn [mbind res_bind].
  rewrite <- Hu1 in Hu. rewrite (queue_size_ok _ _ Hu), Nat2Z.id.
  destruct (drain_updates_ok c _ uw (length uw) e1 Hok1 Hu Huall ltac:(lia))
    as (e2 & rs2 & -> & Hok2 & Hu2 & Hb2 & Hr2).
  exists e2, (rs1 ++ rs2). rewrite app_assoc. rewrite Hr2, <- Hb1. by split_and!.
Qed.

End Engine.

(** ** A new engine *)
Lemma make_books_ok orders levels ts books :
  0 <= orders -> 0 <= levels ->
  mapM (λ i, MarketOrderBook.make_sized i orders levels) ts = Some books ->
  length books = length ts /\
  forall i b t, books !! i = Some b -> ts !! i = Some t ->
    client_ok t orders levels b ∅ (λ _, []) /\ quotes_ok b ∅.
Proof.
  intros Ho Hl H. apply mapM_Some in H. split; [symmetry; by eapply Forall2_length|].
  intros i b t Hb Ht. pose proof (Forall2_lookup_lr _ _ _ _ _ _ H Ht Hb) as Hm.
  by apply (client_make_ok t orders levels b Hm Ho Hl).
Qed.

Lemma engine_make_ok orders levels c cfg rq rs us e :
  TradeEngine.make_sized orders levels c cfg rq rs us = Some e ->
  0 <= orders -> 0 <= levels -> cfg_ok cfg -> queue_ok rq [] ->
  engine_ok orders levels (te_gate e) e [] /\ te_responses e = rs /\ te_updates e = us /\
  te_gate e = Gate.make c cfg rq.
Proof.
  intros Hm Ho Hl Hcfg Hq. unfold TradeEngine.make_sized in Hm.
  destruct (mapM _ _) as [books|] eqn:Eb; [|done]. injection Hm as <-. cbn [te_gate te_responses te_updates].
  split; [|done]. destruct (make_books_ok _ _ _ _ Ho Hl Eb) as [Hlen Hbooks].
  split; cbn [te_gate te_books te_orders].
  - apply OrderManager.sys_ok_make. by apply gate_make_ok.
  - rewrite Hlen. apply length_seqZ.
  - intros i b Hb. assert (Ht : seqZ 0 ME_MAX_TICKERS !! i = Some (Z.of_nat i)).
    { apply lookup_seqZ. apply lookup_lt_Some in Hb. rewrite Hlen, length_seqZ in Hb.
      unfold ME_MAX_TICKERS in *. lia. }
    destruct (Hbooks _ _ _ Hb Ht) as [H1 H2]. by exists ∅, (λ _, []).
Qed.

(** C12: an engine with any of the built-in strategies, started on any waiting
    reports and updates, handles them all and stops: no handler fails, both
    queues end empty, every book has followed its updates in order, what left
    is a well-formed flow of requests, and no position exceeds its limit. *)
Theorem trade_engine_drains_safely type cfg strategy orders levels c rq rs us e0 rw uw n :
  createStrategy type cfg = Some strategy -> cfgs_ok cfg -> cfg_ok cfg ->
  TradeEngine.make_sized orders levels c cfg rq rs us = Some e0 -> 0 <= orders -> 0 <= levels ->
  queue_ok rq [] -> queue_ok rs rw -> queue_ok us uw -> Forall report_ok rw -> Forall md_ok uw ->
  exists e l, TradeEngine.run_stopped strategy (S n) e0 = Ok e /\
    queue_ok (te_responses e) [] /\ queue_ok (te_updates e) [] /\
    feed_books uw (te_books e0) = Ok (te_books e) /\ flow_ok c l /\
    (exists taken waiting, l = taken ++ waiting /\ queue_ok (g_requests (te_gate e)) waiting) /\
    forall t, known_ticker t ->
      - limit t (RiskManager.make cfg) <= ticker_position (g_keeper (te_gate e)) t
        <= limit t (RiskManager.make cfg).
Proof.
  intros Hs Hclip Hcfg Hm Ho Hl Hrq Hrs Hus Hrw Huw.
  pose proof (created_strategy_ok _ _ _ Hclip Hs) as Hstrat.
  destruct (engine_make_ok _ _ _ _ _ _ _ _ Hm Ho Hl Hcfg Hrq) as (Hok & E1 & E2 & E3).
  rewrite <- E1 in Hrs. rewrite <- E2 in Hus.
  destruct (run_iteration_ok strategy orders levels _ _ _ _ _ Hok Hrs Hus Hrw Huw)
    as (e & l & Hrun & Hok' & Hr' & Hu' & Hfeed). cbn [app] in Hok'.
  destruct (ek_flow _ _ _ _ _ Hok') as ([Hcl Hlim] & _ & Hflow & Hgate).
  cbn [fst snd] in *. rewrite E3 in Hcl, Hlim, Hflow. cbn in Hcl, Hflow.
  assert (Hstop : forall k, TradeEngine.run_stopped strategy k e = Ok e).
  { intros k. destruct k; cbn [TradeEngine.run_stopped];
      by rewrite (peek_ok _ _ Hr'), (peek_ok _ _ Hu'). }
  assert (Hpos : forall t, known_ticker t ->
      - limit t (RiskManager.make cfg) <= ticker_position (g_keeper (te_gate e)) t
        <= limit t (RiskManager.make cfg)).
  { intros t Ht. replace (limit t (RiskManager.make cfg)) with (limit t (g_risk (te_gate e)))
      by (unfold limit; by rewrite Hlim).
    by destruct (risk_bounds _ _ t (gk_risk _ _ Hgate) Ht). }
  assert (Hgoal : forall e1, e1 = e -> queue_ok (te_responses e1) [] /\ queue_ok (te_updates e1) [] /\
    feed_books uw (te_books e0) = Ok (te_books e1) /\ flow_ok c l /\
    (exists taken waiting, l = taken ++ waiting /\ queue_ok (g_requests (te_gate e1)) waiting) /\
    forall t, known_ticker t -> - limit t (RiskManager.make cfg)
      <= ticker_position (g_keeper (te_gate e1)) t <= limit t (RiskManager.make cfg)).
  { intros e1 ->. split_and!; try done. exact (gk_queue _ _ Hgate). }
  cbn [TradeEngine.run_stopped]. rewrite (peek_ok _ _ Hrs), (peek_ok _ _ Hus). cbn [mbind res_bind].
  destruct (head rw) eqn:Er, (head uw) eqn:Eu; rewrite ?Hrun; cbn [mbind res_bind];
    try (rewrite Hstop; exists e, l; split; [done|by apply Hgoal]).
  destruct rw; [|done]. destruct uw; [|done].
  assert (E : e0 = e).
  { unfold TradeEngine.run_iteration in Hrun. rewrite (queue_size_ok _ _ Hrs), Nat2Z.id in Hrun.
    cbn [length TradeEngine.drain_responses] in Hrun.
    rewrite (peek_ok _ _ Hrs) in Hrun. cbn [head mbind res_bind] in Hrun.
    rewrite (queue_size_ok _ _ Hus), Nat2Z.id in Hrun.
    cbn [length TradeEngine.drain_updates] in Hrun.
    rewrite (peek_ok _ _ Hus) in Hrun. cbn [head mbind res_bind] in Hrun. by injection Hrun. }
  exists e0, l. split; [done|]. by apply Hgoal.
Qed.

(** A maker: the recovery marker, a two-sided market, and an accepted report. *)
Definition demo_md : list MEMarketUpdate :=
  [ mkUpdate MD_RECOVERY_COMMIT 0 TickerId_INVALID Side_INVALID Price_INVALID Qty_INVALID 1;
    mkUpdate MD_ADD 1 0 BUY 100 10 1; mkUpdate MD_ADD 2 0 SELL 103 10 1 ].

Definition demo_md_queue : LFQueue MEMarketUpdate :=
  mkQueue (demo_md ++ [default_MEMarketUpdate]) 3 7 0 3 0 3.

Definition demo_rs_queue : LFQueue MEClientResponse :=
  mkQueue [default_MEClientResponse] 0 1 0 0 0 0.

Lemma demo_md_queue_ok : queue_ok demo_md_queue demo_md.
Proof.
  split; [exists 2; split; [lia|reflexivity]|reflexivity|reflexivity|by vm_compute|reflexivity|by vm_compute|].
  intros i x Hi. destruct i as [|[|[|i]]]; cbn in Hi; [by injection Hi as <-..|].
  by destruct i.
Defined.

Lemma trade_engine_drains_safely_witness :
  exists strategy e0 e, createStrategy AlgoType_MAKER demo_strategy_cfg = Some strategy /\
    TradeEngine.make_sized 4 4 1 demo_strategy_cfg demo_requests demo_rs_queue demo_md_queue = Some e0 /\
    TradeEngine.run_stopped strategy 1 e0 = Ok e /\ queue_ok (te_updates e) [] /\
    queue_size (g_requests (te_gate e)) = 2.
Proof.
  assert (H : exists strategy e0, createStrategy AlgoType_MAKER demo_strategy_cfg = Some strategy /\
    TradeEngine.make_sized 4 4 1 demo_strategy_cfg demo_requests demo_rs_queue demo_md_queue = Some e0 /\
    (queue_size ∘ g_requests ∘ te_gate <$> (match TradeEngine.run_stopped strategy 1 e0 with
       Ok e => Some e | Err _ => None end)) = Some 2).
  { eexists _, _. split; [reflexivity|]. split; [vm_compute; reflexivity|]. vm_compute. reflexivity. }
  destruct H as (strategy & e0 & Hs & Hm & Hsize).
  assert (Hcfg : cfg_ok demo_strategy_cfg).
  { split; [reflexivity|]. apply Forall_forall. intros c Hc. apply elem_of_replicate in Hc as [-> _].
    unfold is_u32. cbn. lia. }
  assert (Hmd : Forall md_ok demo_md).
  { repeat (constructor; [unfold md_ok, is_u32, ME_MAX_TICKERS, Qty_INVALID; cbn; split_and!; try lia;
      by intros ?|]). constructor. }
  assert (Hrq : queue_ok demo_rs_queue []).
  { by apply (queue_new_ok default_MEClientResponse 1 demo_rs_queue). }
  destruct (trade_engine_drains_safely AlgoType_MAKER demo_strategy_cfg strategy 4 4 1 demo_requests
    demo_rs_queue demo_md_queue e0 [] demo_md 0 Hs demo_cfgs_ok Hcfg Hm ltac:(lia) ltac:(lia)
    demo_requests_ok Hrq demo_md_queue_ok ltac:(constructor) Hmd) as (e & l & Hrun & _ & Hu & _).
  exists strategy, e0, e. split; [exact Hs|]. split; [exact Hm|]. split; [exact Hrun|].
  split; [exact Hu|]. rewrite Hrun in Hsize. by injection Hsize.
Defined.
