(* ===== verification/MarketEndToEnd.v ===== *)
(** Market data from end to end.

    The exchange's system ([ExchangeMarket]) and a client's market data thread
    ([MarketDataConsumer]) are connected by a network that may lose, repeat
    and reorder datagrams, but delivers only what was sent.  Whatever it does,
    the order books that follow the client's events are, after every event
    handed over, the exchange's own books after some number of its updates. *)
From S2P Require Import Prelude.
From S2P Require Import Types.
From S2P Require Import Wire.
From S2P Require Import MemPool.
From S2P Require Import PriceLevels.
From S2P Require Import MatchBook.
From S2P Require Import BookSpec.
From S2P Require Import LFQueue.
From S2P Require Import MatchingEngine.
From S2P Require Import MarketView.
From S2P Require Import BookHash.
From S2P Require Import McastSocket.
From S2P Require Import Snapshot.
From S2P Require Import Publisher.
From S2P Require Import ClientBook.
From S2P Require Import ClientBookSpec.
From S2P Require Import ClientFollows.
From S2P Require Import MarketRecovery.
From S2P Require Import RecoveryTheorems.
From S2P Require Import RecoveryProgress.
From S2P Require Import MarketDataConsumer.
From S2P Require Import ConsumerTheorems.
From S2P Require Import MarketHistory.
From S2P Require Import ExchangeMarket.
From S2P Require Import TradeEngine.
From stdpp Require Import base gmap list.
From Stdlib Require Import ZArith Lia.

Local Open Scope Z_scope.

(** ** The books of a client *)

(** What the trade engine's books become when they accept every update in
    turn; [Err] when a book refuses one.  [feed_books] is what the engine does
    with updates that may be refused. *)
Fixpoint accepting (us : list MEMarketUpdate) (books : list MarketOrderBook) :
    res (list MarketOrderBook) :=
  match us with
  | [] => Ok books
  | u :: us' =>
      if bool_decide (mu_type u = MD_RECOVERY_COMMIT) then accepting us' books else
      book ← deref (books !! Z.to_nat (mu_ticker_id u));
      '(ok, _, book) ← MarketOrderBook.onMarketUpdate u book;
      _ ← ASSERT ok;
      accepting us' (<[Z.to_nat (mu_ticker_id u) := book]> books)
  end.

Lemma accepting_app us us' books :
  accepting (us ++ us') books = (accepting us books ≫= accepting us').
Proof.
  revert books. induction us as [|u us IH]; intros books; [done|]. cbn [accepting app].
  destruct (bool_decide _); [apply IH|].
  destruct (deref _) as [b|]; [|done]. cbn [mbind res_bind].
  destruct (MarketOrderBook.onMarketUpdate u b) as [[[ok cb] b']|]; [|done]. cbn [mbind res_bind].
  destruct ok; cbn [ASSERT mbind res_bind]; [apply IH|done].
Qed.

Lemma accepting_feed us books books' : accepting us books = Ok books' -> feed_books us books = Ok books'.
Proof.
  revert books. induction us as [|u us IH]; intros books; [done|]. cbn [accepting feed_books].
  destruct (bool_decide _); [apply IH|].
  destruct (deref _) as [b|]; [|done]. cbn [mbind res_bind].
  destruct (MarketOrderBook.onMarketUpdate u b) as [[[ok cb] b']|]; [|done]. cbn [mbind res_bind].
  destruct ok; [apply IH|done].
Qed.

Section Client.
Context (orders levels : Z) (Horders : 0 <= orders) (Hlevels : 0 <= levels).

(** The books list the orders of the views and quote their best prices. *)
Record clients_ok (books : list MarketOrderBook) (views : list View) : Prop := {
  cl_books : length books = Z.to_nat ME_MAX_TICKERS;
  cl_views : length views = Z.to_nat ME_MAX_TICKERS;
  cl_book t b m : books !! t = Some b -> views !! t = Some m ->
    exists G, client_ok (Z.of_nat t) orders levels b m G /\ quotes_ok b m
}.

Lemma replay_event_inv views u views' :
  replay_event views u = Some views' ->
  exists m m', views !! Z.to_nat (mu_ticker_id u) = Some m /\ client_update u m = Some m' /\
    views' = <[Z.to_nat (mu_ticker_id u) := m']> views /\ mu_type u <> MD_RECOVERY_COMMIT /\
    (mu_type u = MD_ADD -> apply_update u m = Some m').
Proof.
  unfold replay_event. case_bool_decide as E.
  - destruct (views !! _) as [m|] eqn:Em; [|done]. cbn. intros [= <-]. exists m, ∅.
    unfold client_update. rewrite E. by split_and!.
  - intros H. apply apply_ticker_inv in H as (m & m' & Hm & Ha & ->). exists m, m'.
    unfold client_update, apply_update in *. destruct (mu_type u); by split_and!.
Qed.

(** Events with room are accepted. *)
Lemma room_accepted us views views' books :
  room orders levels us views views' -> clients_ok books views ->
  exists books', accepting us books = Ok books' /\ clients_ok books' views'.
Proof.
  revert views books. induction us as [|u us IH]; intros views books H Hok.
  { cbn in H. subst. by exists books. }
  destruct H as (views1 & Hr & Ht & Hid & Hq & Hfit & Hrest).
  apply replay_event_inv in Hr as (m & m' & Hm & Hu & -> & Hty & Hadd).
  cbn [accepting]. rewrite bool_decide_false by done.
  destruct (lookup_lt_is_Some_2 books (Z.to_nat (mu_ticker_id u))) as [b Hb].
  { rewrite (cl_books _ _ Hok). lia. }
  pose proof (lookup_lt_Some _ _ _ Hm) as Hlt.
  destruct (cl_book _ _ Hok _ _ _ Hb Hm) as (G & Hc & Hqu). rewrite Hb. cbn [deref mbind res_bind].
  destruct (onMarketUpdate_ok _ _ _ b m G u Hc Hqu Hid Hq) as (ok & cb & b1 & -> & _ & Htrue & Hiff).
  rewrite list_lookup_insert_eq in Hfit by done. cbn in Hfit.
  assert (ok = true) as ->.
  { apply Hiff. split; [rewrite (co_ticker _ _ _ _ _ _ Hc); lia|]. split; [eauto|]. intros Ety.
    eapply client_room; eauto. }
  cbn [mbind res_bind ASSERT]. destruct (Htrue eq_refl) as (_ & m1 & G1 & Hu1 & Hc1 & Hq1).
  rewrite Hu in Hu1. injection Hu1 as <-. eapply IH; [exact Hrest|].
  split; [rewrite length_insert; apply Hok..|].
  intros t b' mt Hb' Hmt. apply list_lookup_insert_Some in Hb' as [(<- & <- & _)|[Hne Hb']].
  - rewrite list_lookup_insert_eq in Hmt by done. injection Hmt as <-. by exists G1.
  - rewrite list_lookup_insert_ne in Hmt by done. by eapply Hok.
Qed.

Lemma clients_make books :
  mapM (λ t, MarketOrderBook.make_sized t orders levels) (seqZ 0 ME_MAX_TICKERS) = Some books ->
  clients_ok books MarketRecovery.no_orders.
Proof.
  intros H%mapM_Some_1. split; [by rewrite <- (Forall2_length _ _ _ H), length_seqZ|done|].
  intros t b m Hb Hm. rewrite (no_orders_lookup _ _ Hm).
  destruct (Forall2_lookup_r _ _ _ _ _ H Hb) as (t' & Ht & Hmk). apply lookup_seqZ in Ht as [-> Ht].
  destruct (client_make_ok _ _ _ _ Hmk Horders Hlevels) as [Hc Hq]. rewrite Z.add_0_l in Hc. eauto.
Qed.
End Client.

(** ** The network *)

(** A receiving kernel delivers datagrams that the sending socket put on the
    wire, in any order, any number of times. *)
Definition from_wire (kernel : Kernel) (sender : McastSocket) : Prop :=
  forall k bytes trunc, snd (kernel k) = Datagram bytes trunc -> bytes ∈ mc_wire sender.

(** A datagram is a sequence of frames of the sender. *)
Lemma datagram_frames sender (ms : list MDPMarketUpdate) kernel k bytes trunc :
  McastSocket.mc_ok sender (encode_market <$> ms) -> from_wire kernel sender ->
  snd (kernel k) = Datagram bytes trunc ->
  exists group : list MDPMarketUpdate, bytes = mjoin (encode_market <$> group) /\ forall m, m ∈ group -> m ∈ ms.
Proof.
  intros [(groups & last & Hw & _ & Ha) _ _] Hk Hd. specialize (Hk k bytes trunc Hd).
  rewrite Hw in Hk. apply list_elem_of_fmap in Hk as (g & -> & Hg).
  assert (Hin : forall f, f ∈ g -> exists m, f = encode_market m /\ m ∈ ms).
  { intros f Hf. apply list_elem_of_fmap. rewrite Ha. apply elem_of_app. left.
    apply list_elem_of_In, in_concat. exists g. by split; apply list_elem_of_In. }
  clear -Hin. induction g as [|f g IH].
  { exists []. split; [done|]. by intros m ?%elem_of_nil. }
  destruct IH as (group & E & Hg); [intros; apply Hin; by right|].
  destruct (Hin f) as (m & -> & Hm); [by left|]. exists (m :: group). split; [cbn; by rewrite E|].
  intros m' [->|Hm']%elem_of_cons; [done|by apply Hg].
Qed.

Lemma decode_in_datagram group n u :
  Forall mdp_wf group ->
  decode_market (drop (n * MarketSize) (mjoin (encode_market <$> group))) default_MDPMarketUpdate
    = Ok (true, u) -> u ∈ group.
Proof.
  intros Hwf. revert n. induction Hwf as [|m group Hm Hwf IH]; intros n.
  - change (mjoin _) with (@nil Z). rewrite drop_nil. by vm_compute.
  - destruct n as [|n]; cbn [fmap list_fmap mjoin list_join].
    + rewrite Nat.mul_0_l, drop_0.
      change (mjoin (encode_market m :: (encode_market <$> group)))
        with (encode_market m ++ mjoin (encode_market <$> group)).
      rewrite decode_encode_market by done. intros [= <-]. by left.
    + change (mjoin (encode_market m :: (encode_market <$> group)))
        with (encode_market m ++ mjoin (encode_market <$> group)).
      rewrite drop_app_ge by (rewrite encode_market_size; lia). rewrite encode_market_size.
      replace (S n * MarketSize - MarketSize)%nat with (n * MarketSize)%nat by lia.
      intros H. right. by eapply IH.
Qed.

Lemma mjoin_bytes (l : list (list Z)) : Forall (Forall is_byte) l -> Forall is_byte (mjoin l).
Proof. induction 1; cbn; [constructor|]. by apply Forall_app. Qed.

(** ** The published frames fit the wire *)
Section Wire.
Context (orders levels : Z).

Lemma history_updates us views u : history orders levels us views -> u ∈ us -> update_ok u.
Proof.
  induction 1 as [|us views v views' H IH Hv Ha Hf]; [by intros ?%elem_of_nil|].
  intros [Hu|Hu%list_elem_of_singleton]%elem_of_app; [by apply IH|by subst].
Qed.

Lemma update_on_wire u : update_ok u -> update_wf u /\ market_type_on_wire (mu_type u) = true.
Proof. intros [Hwf Hty _ _]. split; [done|]. by destruct Hty as [-> |[-> |[-> | ->]]]. Qed.

Lemma increments_on_wire us views :
  history orders levels us views -> Z.of_nat (length us) + 1 < 2 ^ 64 -> Forall mdp_wf (increments 0 us).
Proof.
  intros H Hb. unfold increments, frames_from. apply Forall_forall.
  intros m [i Hi]%list_elem_of_lookup. rewrite list_lookup_imap in Hi.
  destruct (us !! i) as [u|] eqn:Eu; [|done]. injection Hi as <-. pose proof (lookup_lt_Some _ _ _ Eu).
  destruct (update_on_wire u) as [Hwf Hty]; [eapply history_updates; [done|by eapply list_elem_of_lookup_2]|].
  unfold mdp_wf, is_u64 in *. cbn. split_and!; try done; try lia; apply Hwf.
Qed.

(** Every event of a cycle. *)
Lemma cycle_event_on_wire us views w e :
  history orders levels us views -> is_u64 w -> e ∈ cycle_events views w ->
  update_wf e /\ market_type_on_wire (mu_type e) = true.
Proof.
  intros H Hw He. rewrite cycle_events_split in He.
  assert (Hmark : forall t, t = MD_SNAPSHOT_START \/ t = MD_SNAPSHOT_END ->
    update_wf (SnapshotSynthesizer.marker t w) /\
    market_type_on_wire (mu_type (SnapshotSynthesizer.marker t w)) = true).
  { intros t [-> | ->]; (split; [|done]); unfold update_wf; cbn; split_and!; try done; apply Hw. }
  apply elem_of_cons in He as [->|He]; [apply Hmark; by left|].
  apply elem_of_app in He as [He|He%list_elem_of_singleton]; [|subst; apply Hmark; by right].
  unfold inner_events in He. apply list_elem_of_join in He as (l & He & Hl).
  apply list_elem_of_fmap in Hl as (t & -> & Ht%elem_of_seqZ). unfold ticker_block in He.
  apply elem_of_cons in He as [->|He].
  { split; [|done]. unfold SnapshotSynthesizer.clear, update_wf, is_u32, ME_MAX_TICKERS in *. cbn.
    split_and!; done || lia. }
  destruct (views !! Z.to_nat t) as [m|] eqn:Em; [|by apply not_elem_of_nil in He].
  apply sorted_view_elem in He as [id He]. split; [by eapply history_wf|].
  by rewrite (ls_type _ _ _ (pb_listed _ (history_public _ _ _ _ H) _ _ _ _ Em He)).
Qed.

Lemma cycle_on_wire cy :
  history orders levels (cy_updates cy) (cy_views cy) -> is_u64 (cy_number cy) -> is_u64 (cy_watermark cy) ->
  Z.of_nat (length (cycle_events (cy_views cy) (cy_watermark cy))) < 2 ^ 64 ->
  Forall mdp_wf (frames_of_cycle cy).
Proof.
  intros H Hn Hw Hb. apply Forall_forall. intros m [i Hi]%list_elem_of_lookup.
  unfold frames_of_cycle, cycle_frames, frames_from in Hi. rewrite list_lookup_imap in Hi.
  destruct (cycle_events _ _ !! i) as [e|] eqn:Ee; [|done]. injection Hi as <-.
  pose proof (lookup_lt_Some _ _ _ Ee).
  destruct (cycle_event_on_wire _ _ _ e H Hw) as [Hwf Hty]; [by eapply list_elem_of_lookup_2|].
  pose proof (bookHash_range (live_view (cy_views cy))) as Hh.
  unfold mdp_wf. cbn. split; [unfold is_u64; lia|]. by split_and!.
Qed.
End Wire.

(** ** What a client receives *)
Lemma view_total_bound views :
  public_books views -> view_total views <= ME_MAX_ORDER_IDS * Z.of_nat (length views).
Proof.
  intros Hp.
  assert (H : Forall (λ m : View, Z.of_nat (size m) <= ME_MAX_ORDER_IDS) views).
  { apply Forall_forall. intros m [t Hm]%list_elem_of_lookup. pose proof (view_bound m) as Hb.
    enough (Z.of_nat (size m) <= ME_MAX_ORDER_IDS - 1) by lia. apply Hb. intros id [u Hu].
    pose proof (pb_listed _ Hp _ _ _ _ Hm Hu) as Hl. pose proof (ls_valid _ _ _ Hl) as Hv.
    rewrite <- (ls_id _ _ _ Hl). apply valid_order_id_range. unfold valid_add in Hv.
    by rewrite !andb_true_iff in Hv; destruct_and?. }
  clear Hp. induction H as [|m views Hm H IH]; [done|]. cbn [view_total length]. lia.
Qed.

Lemma elem_of_increments u us :
  u ∈ increments 0 us -> exists i, us !! i = Some (mdp_update u) /\ mdp_seq_num u = Z.of_nat i + 1.
Proof.
  intros [i Hi]%list_elem_of_lookup. unfold increments, frames_from in Hi. rewrite list_lookup_imap in Hi.
  destruct (us !! i) as [v|] eqn:Ev; [|done]. injection Hi as <-. exists i. cbn. split; [done|lia].
Qed.

(** Consecutive increments are a piece of the sequence. *)
Lemma increments_piece l us w :
  mdp_seq_num <$> l = seqZ (Z.of_nat w + 1) (Z.of_nat (length l)) ->
  (forall u, u ∈ l -> u ∈ increments 0 us) -> (w <= length us)%nat ->
  mdp_update <$> l = take (length l) (drop w us) /\ (w + length l <= length us)%nat.
Proof.
  intros Hseq Hin Hw.
  assert (Hi : forall i u, l !! i = Some u -> us !! (w + i)%nat = Some (mdp_update u)).
  { intros i u Hu. destruct (elem_of_increments u us) as (j & Hj & Ej).
    { apply Hin. by eapply list_elem_of_lookup_2. }
    assert (E : (mdp_seq_num <$> l) !! i = Some (mdp_seq_num u)) by (by rewrite list_lookup_fmap, Hu).
    rewrite Hseq in E. apply lookup_seqZ in E as [E _]. replace (w + i)%nat with j by lia. done. }
  assert (Hlen : (w + length l <= length us)%nat).
  { destruct (length l) as [|n] eqn:El; [lia|].
    destruct (lookup_lt_is_Some_2 l n) as [u Hu]; [lia|]. apply Hi, lookup_lt_Some in Hu. lia. }
  split; [|done]. apply list_eq_same_length with (n := length l).
  - rewrite length_take, length_drop. lia.
  - apply length_fmap.
  - intros i x y Hlt Hx Hy. rewrite list_lookup_fmap in Hx. rewrite lookup_take_lt, lookup_drop in Hy by done.
    destruct (l !! i) as [u|] eqn:Eu; [|done]. injection Hx as <-. rewrite (Hi _ _ Eu) in Hy. congruence.
Qed.

(** Consecutive frames of a cycle that end with its end marker are the whole
    cycle. *)
Lemma whole_cycle cycle w h views L end_ :
  public_books views -> mu_type (mdp_update end_) = MD_SNAPSHOT_END ->
  (forall u, u ∈ L ++ [end_] -> u ∈ cycle_frames cycle w h (cycle_events views w)) ->
  mdp_seq_num <$> L ++ [end_] = seqZ 0 (Z.of_nat (length L) + 1) ->
  L ++ [end_] = cycle_frames cycle w h (cycle_events views w).
Proof.
  intros Hp Hend Hin Hseq. set (F := cycle_frames cycle w h (cycle_events views w)) in *.
  assert (HF : forall j f, F !! j = Some f -> mdp_seq_num f = Z.of_nat j).
  { intros j f Hf. unfold F, cycle_frames, frames_from in Hf. rewrite list_lookup_imap in Hf.
    destruct (cycle_events views w !! j); [|done]. injection Hf as <-. done. }
  assert (HL : forall i u, (L ++ [end_]) !! i = Some u -> F !! i = Some u).
  { intros i u Hu. pose proof (Hin u ltac:(by eapply list_elem_of_lookup_2)) as [j Hj]%list_elem_of_lookup.
    assert (E : (mdp_seq_num <$> L ++ [end_]) !! i = Some (mdp_seq_num u)) by (by rewrite list_lookup_fmap, Hu).
    rewrite Hseq in E. apply lookup_seqZ in E as [E _]. rewrite (HF _ _ Hj) in E.
    replace i with j by lia. done. }
  assert (Hlast : F !! length L = Some end_) by (apply HL, list_lookup_middle; done).
  pose proof (cycle_frames_split views cycle w h) as EF. fold F in EF.
  assert (Hlen : length F = S (length L)).
  { rewrite EF in Hlast |- *. destruct (length L) as [|i]; cbn [lookup list_lookup length] in *.
    - injection Hlast as <-. done.
    - rewrite length_app, length_frames_from. cbn [length].
      apply lookup_app_Some in Hlast as [Hi|[Hle Hi]].
      + exfalso. assert (He : mdp_update end_ ∈ inner_events views).
        { rewrite <- (frames_from_updates cycle w h 1 (inner_events views)).
          apply list_elem_of_fmap_2. by eapply list_elem_of_lookup_2. }
        by apply (inner_listed _ _ Hp) in He as [He _].
      + rewrite length_frames_from in *. apply list_lookup_singleton_Some in Hi as [Hi _]. lia. }
  apply list_eq_same_length with (n := S (length L)); [done|rewrite length_app; cbn; lia|].
  intros i x y Hi Hx Hy. apply HL in Hx. congruence.
Qed.

Lemma encode_cycles (l : list Cycle) :
  encode_market <$> mjoin (frames_of_cycle <$> l) = cycle_wire l.
Proof.
  unfold cycle_wire. induction l as [|cy l IH]; [done|].
  change (encode_market <$> frames_of_cycle cy ++ mjoin (frames_of_cycle <$> l) = (encode_market <$> frames_of_cycle cy)
    ++ mjoin ((λ cy, encode_market <$> frames_of_cycle cy) <$> l)). by rewrite fmap_app, IH.
Qed.

Section Received.
Context (orders levels : Z) (Horders : 0 <= orders) (Hlevels : 0 <= levels).
Context (cycle0 : Z) (x : ExchangeMarket) (g : Feed) (final : list View).
Context (incremental snapshot : Kernel).
Hypothesis Hok : market_ok orders levels cycle0 0 x g final.
Hypothesis Hinc : from_wire incremental (pb_socket (xm_publisher x)).
Hypothesis Hsnap : from_wire snapshot (sn_socket (xm_synth x)).

Let us := fd_updates g.
Let cycles := fd_cycles g.

Lemma history_us : history orders levels us final.
Proof. apply Hok. Qed.

Lemma us_bound : Z.of_nat (length us) + 2 < 2 ^ 64.
Proof. pose proof (mk_room _ _ _ _ _ _ _ Hok). unfold us. lia. Qed.

Lemma cycle_facts i cy :
  cycles !! i = Some cy ->
  cy_number cy = cycle0 + Z.of_nat i + 1 /\ (cy_updates cy `prefix_of` us) /\
  history orders levels (cy_updates cy) (cy_views cy) /\ is_u64 (cy_number cy) /\ is_u64 (cy_watermark cy) /\
  Forall mdp_wf (frames_of_cycle cy).
Proof.
  intros Hi. destruct (mk_cycles _ _ _ _ _ _ _ Hok i cy Hi) as (Hn & Hp & Hh).
  pose proof (mk_cycle_room _ _ _ _ _ _ _ Hok) as [Hc0 Hcr]. pose proof (lookup_lt_Some _ _ _ Hi) as Hlt.
  pose proof us_bound. pose proof (prefix_length _ _ Hp) as Hlen.
  assert (is_u64 (cy_number cy)) by (unfold is_u64, cycles in *; lia).
  assert (is_u64 (cy_watermark cy)) by (unfold is_u64, cy_watermark, us in *; lia).
  split_and!; try done; try (unfold is_u64 in *; lia).
  eapply cycle_on_wire; [exact Hh|done|done|]. rewrite length_cycle_events by (by eapply history_length).
  pose proof (view_total_bound _ (history_public _ _ _ _ Hh)) as Hv.
  rewrite (history_length _ _ _ _ Hh) in Hv. unfold ME_MAX_ORDER_IDS, ME_MAX_TICKERS in Hv. lia.
Qed.

(** What can arrive on the two channels. *)
Definition sent_on (c : bool) : list MDPMarketUpdate :=
  if c then mjoin (frames_of_cycle <$> cycles) else increments 0 (fd_sent g).

Lemma sent_on_wire c : Forall mdp_wf (sent_on c).
Proof.
  destruct c; cbn [sent_on].
  - apply Forall_forall. intros m (l & Hm & Hl)%list_elem_of_join.
    apply list_elem_of_fmap in Hl as (cy & -> & [i Hi]%list_elem_of_lookup).
    pose proof (cycle_facts i cy Hi) as (_ & _ & _ & _ & _ & Hwf). rewrite Forall_forall in Hwf. by apply Hwf.
  - destruct (history_prefix _ _ (fd_sent g) (fd_waiting g) final history_us) as [v Hv].
    eapply increments_on_wire; [exact Hv|]. pose proof us_bound. unfold us, fd_updates in *.
    rewrite length_app in *. lia.
Qed.

Lemma datagrams_sent (c : bool) k bytes trunc :
  snd ((if c then snapshot else incremental) k) = Datagram bytes trunc ->
  exists group : list MDPMarketUpdate, bytes = mjoin (encode_market <$> group) /\ forall m, m ∈ group -> m ∈ sent_on c.
Proof.
  intros Hk. destruct c.
  - eapply (datagram_frames (sn_socket (xm_synth x))); [|exact Hsnap|exact Hk].
    cbn [sent_on]. rewrite encode_cycles. apply Hok.
  - eapply (datagram_frames (pb_socket (xm_publisher x))); [|exact Hinc|exact Hk].
    apply (po_socket _ _ _ _ (mk_publisher _ _ _ _ _ _ _ Hok)).
Qed.

Lemma arrives_sent c u : arrives incremental snapshot c u -> u ∈ sent_on c.
Proof.
  intros (k & bytes & trunc & n & Hk & Hd). destruct (datagrams_sent c k bytes trunc Hk) as (group & -> & Hg).
  apply Hg. eapply decode_in_datagram; [|exact Hd]. pose proof (sent_on_wire c) as Hwf.
  rewrite Forall_forall in Hwf. apply Forall_forall. intros m Hm. by apply Hwf, Hg.
Qed.

Lemma kernels_deliver_bytes : delivers_bytes incremental snapshot.
Proof.
  intros c k bytes trunc Hk. destruct (datagrams_sent c k bytes trunc Hk) as (group & -> & _).
  apply mjoin_bytes, Forall_fmap, Forall_forall. intros m _. apply encode_market_bytes.
Qed.

Lemma arrives_increment u :
  arrives incremental snapshot false u ->
  u ∈ increments 0 us.
Proof.
  intros Hu%arrives_sent. cbn [sent_on] in Hu. unfold us, fd_updates, increments.
  rewrite frames_from_app. apply elem_of_app. by left.
Qed.

Lemma arrives_cycle u :
  arrives incremental snapshot true u ->
  exists i cy, cycles !! i = Some cy /\ u ∈ frames_of_cycle cy /\ mdp_snapshot_cycle u = cy_number cy.
Proof.
  intros (l & Hu & Hl)%arrives_sent%list_elem_of_join.
  apply list_elem_of_fmap in Hl as (cy & -> & [i Hi]%list_elem_of_lookup). exists i, cy. split; [done|].
  split; [done|]. pose proof (frames_from_meta (cy_number cy) (cy_watermark cy) (bookHash (live_view (cy_views cy))) 0
    (cycle_events (cy_views cy) (cy_watermark cy))) as Hm. rewrite Forall_forall in Hm. by apply Hm.
Qed.

(** A recovery batch brings any books to the exchange's. *)
Lemma batch_room b :
  consistent_batch (arrives incremental snapshot) b ->
  exists (k : nat) V, ba_watermark b = Z.of_nat k /\ (k <= length us)%nat /\
    history orders levels (take k us) V /\
    forall views, length views = Z.to_nat ME_MAX_TICKERS -> room orders levels (ba_events b) views V.
Proof.
  intros [(w & h & first & mid & end_ & incs & books & Hev & Hseen & Hinc' & (cycle & Hof) & Hseq & _ & Hend &
    Hiseq & Hwm & _)].
  destruct (arrives_cycle first) as (i & cy & Hi & Hfirst & Hnum); [apply Hseen; by left|].
  destruct (cycle_facts i cy Hi) as (Hcy & Hpre & Hh & _).
  pose proof Hof as [Ef _]%Forall_cons. destruct Ef as (Ec & Ew & _).
  assert (Hin : forall u, u ∈ (first :: mid) ++ [end_] -> u ∈ frames_of_cycle cy).
  { intros u Hu. destruct (arrives_cycle u) as (j & cy' & Hj & Hu' & Hnum'); [by apply Hseen|].
    destruct (cycle_facts j cy' Hj) as (Hcy' & _). rewrite Forall_forall in Hof.
    destruct (Hof u Hu) as (Ec' & _). assert (i = j) as <- by lia. congruence. }
  assert (Hwhole : (first :: mid) ++ [end_] = frames_of_cycle cy).
  { apply whole_cycle; [by eapply history_public|done|exact Hin|]. cbn [app length].
    replace (Z.of_nat (S (length mid)) + 1) with (Z.of_nat (length mid) + 2) by lia. exact Hseq. }
  assert (Hmid : mdp_update <$> mid = inner_events (cy_views cy)).
  { unfold frames_of_cycle in Hwhole. rewrite cycle_frames_split in Hwhole.
    apply (f_equal tail) in Hwhole. cbn [tail app] in Hwhole.
    apply app_inj_tail in Hwhole as [-> _]. apply frames_from_updates. }
  assert (Hw : w = cy_watermark cy).
  { pose proof (frames_from_meta (cy_number cy) (cy_watermark cy) (bookHash (live_view (cy_views cy))) 0
      (cycle_events (cy_views cy) (cy_watermark cy))) as Hm. rewrite Forall_forall in Hm.
    destruct (Hm first Hfirst) as (_ & E & _). congruence. }
  pose proof (prefix_length _ _ Hpre) as Hlen.
  destruct (increments_piece incs us (length (cy_updates cy))) as [Hpiece Hbound]; [|by intros u Hu; apply arrives_increment, Hinc'|done|].
  { rewrite Hiseq, Hw. done. }
  exists (length (cy_updates cy) + length incs)%nat.
  assert (Etake : take (length (cy_updates cy) + length incs) us = cy_updates cy ++ (mdp_update <$> incs)).
  { rewrite Hpiece. destruct Hpre as [us' ->]. rewrite drop_app_length.
    rewrite take_app_ge by lia. do 2 f_equal. lia. }
  destruct (history_prefix orders levels (take (length (cy_updates cy) + length incs) us)
    (drop (length (cy_updates cy) + length incs) us) final) as [V HV]; [rewrite take_drop; apply history_us|].
  exists V. split; [rewrite Hwm, Hw; unfold cy_watermark; lia|]. split; [done|]. split; [done|].
  intros views Hv. rewrite Hev, Hmid. rewrite Etake in HV. eapply room_app.
  - apply inner_room; [by eapply history_public|intros t m; by eapply history_wf|by eapply history_fits|done].
  - by eapply history_room.
Qed.

(** The next increment. *)
Lemma live_room u (k : nat) V :
  arrives incremental snapshot false u -> mdp_seq_num u = Z.of_nat k + 1 -> history orders levels (take k us) V ->
  exists V', (S k <= length us)%nat /\ history orders levels (take (S k) us) V' /\ room orders levels [mdp_update u] V V'.
Proof.
  intros (i & Hi & Ei)%arrives_increment%elem_of_increments Hk HV. assert (i = k) as -> by lia.
  pose proof (lookup_lt_Some _ _ _ Hi). pose proof (take_S_r _ _ _ Hi) as Et.
  destruct (history_prefix orders levels (take (S k) us) (drop (S k) us) final) as [V' HV'];
    [rewrite take_drop; apply history_us|].
  exists V'. split; [done|]. split; [done|]. rewrite Et in HV'. by eapply history_room.
Qed.

(** After every event handed over the client's books are the exchange's after
    some number of updates: the last one handed over. *)
Lemma log_follows log books :
  log_ok incremental snapshot log -> clients_ok orders levels books MarketRecovery.no_orders ->
  exists books' V, accepting (mjoin (item_events <$> log)) books = Ok books' /\
    clients_ok orders levels books' V /\
    (log <> [] -> exists k : nat, next_of log = Some (Z.of_nat k + 1) /\ (k <= length us)%nat /\
       history orders levels (take k us) V).
Proof.
  intros Hlog Hb. pose proof us_bound as Hbound. induction Hlog as [|log b gen Hlog IH Hc|log u Hlog IH Hnext Ha Hi].
  { exists books, MarketRecovery.no_orders. by split_and!. }
  all: destruct IH as (books1 & V1 & E1 & Hc1 & Hk1); rewrite fmap_app; cbn [fmap list_fmap];
    rewrite mjoin_snoc, accepting_app, E1; cbn [mbind res_bind item_events]; rewrite next_snoc.
  - destruct (batch_room b Hc) as (k & V & Hw & Hk & HV & Hroom).
    destruct (room_accepted orders levels Horders Hlevels (ba_events b) V1 V books1) as (books2 & E2 & Hc2);
      [by apply Hroom, Hc1|done|].
    exists books2, V. split; [|split; [done|]].
    + by rewrite accepting_app, E2.
    + intros _. exists k. split; [|by split]. rewrite Hw, u64_small by lia. done.
  - destruct Hk1 as (k & Ek & Hk & HV1); [by intros ->|]. rewrite Hnext in Ek. injection Ek as Ek.
    destruct (live_room u k V1 Ha Ek HV1) as (V & Hk' & HV & Hroom).
    destruct (room_accepted orders levels Horders Hlevels [mdp_update u] V1 V books1 Hroom Hc1) as (books2 & E2 & Hc2).
    exists books2, V. split; [exact E2|]. split; [done|].
    intros _. exists (S k). split; [|by split]. rewrite Ek, u64_small by lia. f_equal. lia.
Qed.
End Received.

(** ** The exchange and its clients *)

(** The exchange's books, and a client's, list the orders of the views. *)
Definition exchange_lists (x : ExchangeMarket) (views : list View) : Prop :=
  forall (t : nat) b m, me_books (xm_engine x) !! t = Some b -> views !! t = Some m ->
    MEOrderBook.liveOrders b = Ok (sorted_view m).
Definition client_lists (books : list MarketOrderBook) (views : list View) : Prop :=
  forall (t : nat) b m, books !! t = Some b -> views !! t = Some m ->
    MarketOrderBook.liveOrders b = Ok (sorted_view m) /\ quotes_ok b m.

Lemma books_follow_lists orders levels x views :
  books_follow orders levels (xm_engine x) views -> exchange_lists x views.
Proof.
  intros [_ H] t b m Hb Hm. destruct (H t b Hb) as (_ & _ & a & G & R & W & _ & _ & _ & Hv).
  destruct (view_live b a G R W) as (us & -> & Ev & Hs).
  rewrite Hm in Hv. injection Hv as ->. by rewrite Ev, sorted_view_of_live.
Qed.

Lemma clients_ok_lists orders levels books views :
  clients_ok orders levels books views -> client_lists books views.
Proof.
  intros [_ _ H] t b m Hb Hm. destruct (H t b m Hb Hm) as (G & Hc & Hq).
  split; [by eapply client_liveOrders|exact Hq].
Qed.

Lemma log_ok_prefix incremental snapshot log1 log2 :
  log_ok incremental snapshot (log1 ++ log2) -> log_ok incremental snapshot log1.
Proof.
  induction log2 as [|i log2 IH] using rev_ind; [by rewrite app_nil_r|].
  rewrite app_assoc. intros H. apply IH. inversion H as [E|log b g Hl Hc E|log u Hl Hn Ha Hi E].
  - by destruct (app_cons_not_nil (log1 ++ log2) [] i).
  - by apply app_inj_tail in E as [-> _].
  - by apply app_inj_tail in E as [-> _].
Qed.

(** What one client with the given kernels sees of the exchange's updates. *)
Definition client_follows (orders levels : Z) (us : list MEMarketUpdate) (x : ExchangeMarket)
    (incremental snapshot : Kernel) : Prop :=
  forall limit generation q c0 books0 ops,
    MarketDataConsumer.make limit generation q = Ok c0 -> limit < 2 ^ 64 -> queue_ok q [] ->
    mapM (λ t, MarketOrderBook.make_sized t orders levels) (seqZ 0 ME_MAX_TICKERS) = Some books0 ->
    exists popped c log waiting,
      consumer_run incremental snapshot ops ([], c0) = Ok (popped, c) /\
      queue_ok (mdc_output c) waiting /\ popped ++ waiting = mjoin (item_events <$> log) /\
      forall log1 log2, log = log1 ++ log2 -> log1 <> [] ->
        exists (n : nat) views books,
          next_of log1 = Some (Z.of_nat n + 1) /\ (n <= length us)%nat /\
          replay_all (take n us) MarketRecovery.no_orders = Some views /\
          accepting (mjoin (item_events <$> log1)) books0 = Ok books /\
          feed_books (mjoin (item_events <$> log1)) books0 = Ok books /\
          client_lists books views /\ (n = length us -> exchange_lists x views).

Lemma market_client orders levels cycle x g final incremental snapshot :
  0 <= orders -> 0 <= levels -> market_ok orders levels cycle 0 x g final ->
  from_wire incremental (pb_socket (xm_publisher x)) -> from_wire snapshot (sn_socket (xm_synth x)) ->
  client_follows orders levels (fd_updates g) x incremental snapshot.
Proof.
  intros Ho Hl Hok Hinc Hsnap limit generation q c0 books0 ops Hm Hlim Hq Hb0.
  pose proof (kernels_deliver_bytes orders levels cycle x g final incremental snapshot Hok Hinc Hsnap) as Hbytes.
  destruct (consumer_run_ok incremental snapshot Hbytes ops [] [] c0) as (log & popped & c & E & Hc).
  { by eapply make_consumer_ok. }
  destruct (co_queue _ _ _ _ _ Hc) as (waiting & Hw & Eq). exists popped, c, log, waiting.
  split; [exact E|]. split; [exact Hw|]. split; [exact Eq|]. intros log1 log2 -> Hne.
  pose proof (log_ok_prefix _ _ log1 log2 (co_log _ _ _ _ _ Hc)) as Hlog.
  destruct (log_follows orders levels Ho Hl cycle x g final incremental snapshot Hok Hinc Hsnap log1 books0 Hlog)
    as (books & V & Ea & Hcl & Hk); [by apply clients_make|].
  destruct (Hk Hne) as (n & Hn & Hle & HV). exists n, V, books.
  split; [exact Hn|]. split; [exact Hle|]. split; [by eapply history_replay|]. split; [exact Ea|].
  split; [by apply accepting_feed|]. split; [by eapply clients_ok_lists|]. intros ->. rewrite firstn_all in HV.
  eapply books_follow_lists. rewrite (history_unique _ _ _ _ _ HV (mk_history _ _ _ _ _ _ _ Hok)). apply Hok.
Qed.

(** C1: from the exchange's books to a client's.  Whatever requests the engine
    serves, however the turns of the engine, the publisher and the synthesizer
    interleave and whatever their sockets report: either an ASSERT ends the
    exchange, or its updates lead to the books of its engine, and a client
    whose network loses, repeats or reorders the datagrams sent follows them.
    After each recovery or increment handed over, the trade engine's books
    have accepted the events and list the orders, and quote the best prices, of the exchange
    after its first n updates, n+1 being the sequence number expected next;
    when n is all of them, they list what the engine's books list. *)
Theorem client_books_follow_exchange orders levels pool queue cycle rq rs up au pk sk period ops x0 :
  0 <= orders -> 0 <= levels -> 0 <= pool -> queue_ok rs [] -> queue_ok up [] ->
  (2 * orders + 1) * Z.of_nat (length ops) < 2 ^ 64 - 2 ->
  0 <= cycle -> cycle + Z.of_nat (length ops) < 2 ^ 64 ->
  ExchangeMarket.make_sized orders levels pool queue cycle rq rs up au = Some x0 ->
  Forall market_op_wf ops ->
  match ExchangeMarket.run pk sk period ops x0 with
  | Err f => f = AssertFailed
  | Ok x =>
      exists us final, replay_all us MarketRecovery.no_orders = Some final /\ exchange_lists x final /\
        forall incremental snapshot,
          from_wire incremental (pb_socket (xm_publisher x)) ->
          from_wire snapshot (sn_socket (xm_synth x)) ->
          client_follows orders levels us x incremental snapshot
  end.
Proof.
  intros Ho Hl Hp Hrs Hup Hroom Hc Hcr Hm Hops.
  assert (Hok : market_ok orders levels cycle (length ops + 0) x0 (mkFeed [] [] [] []) MarketRecovery.no_orders).
  { rewrite Nat.add_0_r. eapply (market_make_ok orders levels Ho Hl); eauto. }
  pose proof (market_run_ok orders levels Ho Hl cycle pk sk period ops 0 x0 _ _ Hok Hops) as Hrun.
  destruct (ExchangeMarket.run pk sk period ops x0) as [x|f]; [|exact Hrun].
  destruct Hrun as (g & final & Hx). exists (fd_updates g), final.
  split; [eapply history_replay, Hx|]. split; [eapply books_follow_lists, Hx|].
  intros incremental snapshot Hinc Hsnap. by eapply market_client.
Qed.

Lemma from_wire_datagrams sender : from_wire (datagrams (mc_wire sender)) sender.
Proof.
  intros k bytes trunc. unfold datagrams. cbn. destruct (mc_wire sender !! k) eqn:E; [|done].
  intros [= <- <-]. by eapply list_elem_of_lookup_2.
Qed.

(** An order of five rests and trades three; a snapshot is published between
    the two, and the client receives every datagram. *)
Definition demo_exchange : option ExchangeMarket :=
  rq ← queue_new default_MEClientRequest 64;
  rs ← queue_new default_MEClientResponse 64;
  up ← queue_new default_MEMarketUpdate 64;
  ExchangeMarket.make_sized 4 2 16 64 0 rq rs up None.
Definition demo_market_ops : list MarketOp :=
  [ServeRequest (mkRequest NEW 1 0 1 BUY 100 5 0 0); RunPublisher; RunSynthesizer 100 100;
   ServeRequest (mkRequest NEW 2 0 2 SELL 100 3 0 0); RunPublisher].
Definition demo_publisher_kernel : Kernel := λ k, (SentBytes (match k with O => 70 | _ => 140 end), NoDatagram).
Definition demo_synth_kernel : Kernel := λ k, (SentBytes 70, NoDatagram).
Definition demo_market_run : res ExchangeMarket :=
  match demo_exchange with
  | Some x => ExchangeMarket.run demo_publisher_kernel demo_synth_kernel 10 demo_market_ops x
  | None => Err AssertFailed
  end.
Definition demo_client_ops : list ConsumerOp := replicate 12 Iterate ++ [TakeEvent; TakeEvent].

Lemma client_books_follow_exchange_witness :
  exists x0 x us final c0 popped c log n views books0 books,
    demo_exchange = Some x0 /\
    ExchangeMarket.run demo_publisher_kernel demo_synth_kernel 10 demo_market_ops x0 = Ok x /\
    replay_all us MarketRecovery.no_orders = Some final /\ exchange_lists x final /\
    consumer_run (datagrams (mc_wire (pb_socket (xm_publisher x)))) (datagrams (mc_wire (sn_socket (xm_synth x))))
      demo_client_ops ([], c0) = Ok (popped, c) /\
    length popped = 2%nat /\ mr_expected (mdc_recovery c) = 4 /\ popped `prefix_of` mjoin (item_events <$> log) /\
    next_of log = Some (Z.of_nat n + 1) /\ replay_all (take n us) MarketRecovery.no_orders = Some views /\
    accepting (mjoin (item_events <$> log)) books0 = Ok books /\ client_lists books views.
Proof.
  destruct (queue_new default_MEClientRequest 64) as [rq|] eqn:Erq; [|by vm_compute in Erq].
  destruct (queue_new default_MEClientResponse 64) as [rs|] eqn:Ers; [|by vm_compute in Ers].
  destruct (queue_new default_MEMarketUpdate 64) as [up|] eqn:Eup; [|by vm_compute in Eup].
  destruct (queue_new_ok _ _ _ Ers) as [Hrs _]. destruct (queue_new_ok _ _ _ Eup) as [Hup _].
  assert (Ex : demo_exchange = ExchangeMarket.make_sized 4 2 16 64 0 rq rs up None).
  { unfold demo_exchange. by rewrite Erq, Ers, Eup. }
  destruct demo_exchange as [x0|] eqn:E0; [|by vm_compute in E0].
  destruct (MarketDataConsumer.make 40 0 up) as [c0|] eqn:Ec; [|vm_compute in Eup; injection Eup as <-; by vm_compute in Ec].
  destruct (mapM (λ t, MarketOrderBook.make_sized t 4 2) (seqZ 0 ME_MAX_TICKERS)) as [books0|] eqn:Eb; [|by vm_compute in Eb].
  pose proof (client_books_follow_exchange 4 2 16 64 0 rq rs up None demo_publisher_kernel demo_synth_kernel 10
    demo_market_ops x0 ltac:(lia) ltac:(lia) ltac:(lia) Hrs Hup ltac:(cbn; lia) ltac:(lia) ltac:(cbn; lia) (eq_sym Ex)) as H.
  assert (Hops : Forall market_op_wf demo_market_ops).
  { repeat constructor; cbn; (lia || auto). }
  specialize (H Hops).
  destruct (ExchangeMarket.run demo_publisher_kernel demo_synth_kernel 10 demo_market_ops x0) as [x|] eqn:Er.
  2:{ vm_compute in E0. injection E0 as <-. by vm_compute in Er. }
  destruct H as (us & final & Hus & Hx & Hcl).
  destruct (Hcl _ _ (from_wire_datagrams _) (from_wire_datagrams _) 40 0 up c0 books0 demo_client_ops Ec
    ltac:(lia) Hup Eb) as (popped & c & log & waiting & E & Hw & Eq & Hlog).
  assert (Hend : (length popped, mr_expected (mdc_recovery c)) = (2%nat, 4)).
  { vm_compute in E0. injection E0 as <-. vm_compute in Er. injection Er as <-.
    vm_compute in Eup. injection Eup as <-. vm_compute in Ec. injection Ec as <-.
    vm_compute in E. injection E as <- <-. reflexivity. }
  injection Hend as Hlen Hexp.
  destruct (Hlog log []) as (n & views & books & Hn & _ & Hv & Ha & _ & Hl & _); [by rewrite app_nil_r| |].
  { intros ->. cbn in Eq. apply app_eq_nil in Eq as [-> _]. done. }
  exists x0, x, us, final, c0, popped, c, log, n, views, books0, books.
  split_and!; try done. rewrite <- Eq. by apply prefix_app_r.
Defined.
