(* ===== verification/Config.v ===== *)
(** Startup configuration: common/runtime_config.h and
    common/startup_options.h.

    The JSON reader (Glaze), the network functions of the C library and the
    file system are parameters: [read_json] gives an object or the formatted
    error, [inet_pton] the host-order value of a numeric address, [getIfaceIP]
    the address of an interface, [read_file] the contents of a file and whether
    reading failed, [from_chars_double] a decimal number and the rest of the
    text.  An exception is the left side of a sum. *)
From S2P Require Import Prelude.
From S2P Require Import Types.
From S2P Require Import TradingTypes.
From stdpp Require Import base strings pretty list.
From Stdlib Require Import Ascii ZArith Lia SpecFloat.

Local Open Scope Z_scope.

(** ** [ConfigError] *)
Definition checked (A : Type) : Type := (string + A)%type.
#[export] Instance checked_ret : MRet checked := λ A a, inr a.
#[export] Instance checked_bind : MBind checked := λ A B f m,
  match m with
  | inl message => inl message
  | inr a => f a
  end.
Definition ConfigError {A} (message : string) : checked A := inl message.

Fixpoint checked_fold {S A} (f : S -> A -> checked S) (l : list A) (s : S) : checked S :=
  match l with
  | [] => mret s
  | a :: l' => s' ← f s a; checked_fold f l' s'
  end.

(** ** The objects read from JSON *)
Record NetworkEndpoint : Type := mkEndpoint {
  address : string;
  port : Z
}.

Record MarketDataConfig : Type := mkMarketData {
  interface : string;
  incremental : NetworkEndpoint;
  snapshot : NetworkEndpoint
}.

Record ExchangeConfig : Type := mkExchangeConfig {
  ex_market_data : MarketDataConfig;
  ex_tcp : NetworkEndpoint
}.

Record RuntimeRiskConfig : Type := mkRuntimeRisk {
  rr_max_order_size : Z;
  rr_max_position : Z;
  rr_max_loss : double
}.

Record StrategyParameters : Type := mkParameters {
  sp_clip : Z;
  sp_threshold : double;
  sp_risk : RuntimeRiskConfig
}.

Record TickerStrategyConfig : Type := mkTickerStrategy {
  ts_ticker_id : Z;
  ts_parameters : StrategyParameters
}.

Record StrategyConfig : Type := mkStrategyConfig {
  sc_type : string;
  sc_default_parameters : StrategyParameters;
  sc_tickers : list TickerStrategyConfig
}.

Record RuntimeConfig : Type := mkRuntime {
  run_seconds : Z;
  random_orders : Z;
  random_delay_us : Z
}.

Definition default_RuntimeConfig : RuntimeConfig := mkRuntime 0 10000 20000.

Record ClientConfig : Type := mkClientConfig {
  cc_client_id : Z;
  cc_market_data : MarketDataConfig;
  cc_tcp : NetworkEndpoint;
  cc_strategy : StrategyConfig;
  cc_runtime : option RuntimeConfig
}.

Module ClientConfig.

Definition runtimeConfig (c : ClientConfig) : RuntimeConfig :=
  default default_RuntimeConfig (cc_runtime c).

(** [std::toupper] in the C locale. *)
Definition toupper (c : ascii) : ascii :=
  if (97 <=? nat_of_ascii c)%nat && (nat_of_ascii c <=? 122)%nat
  then ascii_of_nat (nat_of_ascii c - 32) else c.

Fixpoint string_toupper (s : string) : string :=
  match s with
  | EmptyString => EmptyString
  | String c s' => String (toupper c) (string_toupper s')
  end.

Definition strategyType (c : ClientConfig) : AlgoType :=
  let algo := stringToAlgoType (string_toupper (sc_type (cc_strategy c))) in
  if bool_decide (algo = AlgoType_MAKER) || bool_decide (algo = AlgoType_TAKER)
     || bool_decide (algo = AlgoType_RANDOM)
  then algo else AlgoType_INVALID.

End ClientConfig.

(** The bytes before the first NUL. *)
Fixpoint c_str (s : string) : string :=
  match s with
  | EmptyString => EmptyString
  | String c s' => if bool_decide (c = zero) then EmptyString else String c (c_str s')
  end.

Definition IN_MULTICAST (host : Z) : bool := Z.land host 4026531840 =? 3758096384.
Definition INADDR_BROADCAST : Z := 2 ^ 32 - 1.
Definition INADDR_ANY : Z := 0.

Module ConfigDetail.

Definition require (condition : bool) (message : string) : checked () :=
  if condition then mret () else ConfigError message.

Section Network.
Context (inet_pton : string -> option Z) (getIfaceIP : string -> string).

Definition ipv4 (endpoint : NetworkEndpoint) (field : string) : checked Z :=
  _ ← require (bool_decide (is_Some (inet_pton (c_str (address endpoint)))))
        (field +:+ ".address 必须是数字 IPv4 地址");
  _ ← require ((1 <=? port endpoint) && (port endpoint <=? 65535))
        (field +:+ ".port 必须在 1 到 65535 之间");
  mret (default 0 (inet_pton (c_str (address endpoint)))).

Definition validate_market (market : MarketDataConfig) : checked () :=
  _ ← require (negb (bool_decide (interface market = EmptyString))
               && negb (bool_decide (getIfaceIP (interface market) = EmptyString)))
        "market_data.interface 必须是本机具有 IPv4 地址的网卡";
  inc ← ipv4 (incremental market) "market_data.incremental";
  snap ← ipv4 (snapshot market) "market_data.snapshot";
  _ ← require (IN_MULTICAST inc) "增量行情地址必须是 IPv4 组播地址";
  _ ← require (IN_MULTICAST snap) "快照行情地址必须是 IPv4 组播地址";
  require (negb (port (incremental market) =? port (snapshot market)))
    "增量行情与快照行情必须使用不同的 UDP 端口".

Definition validateTCP (endpoint : NetworkEndpoint) (server : bool) : checked () :=
  host ← ipv4 endpoint "tcp";
  _ ← require (negb (IN_MULTICAST host) && negb (host =? INADDR_BROADCAST))
        "tcp.address 必须是单播地址，监听端也可使用 0.0.0.0";
  require (server || negb (host =? INADDR_ANY)) "客户端 tcp.address 不能是 0.0.0.0".

Definition d_zero : double := S754_zero false.

Definition validate_parameters (parameters : StrategyParameters) : checked () :=
  let risk := sp_risk parameters in
  _ ← require ((0 <? sp_clip parameters) && (sp_clip parameters <=? rr_max_order_size risk)
               && (rr_max_order_size risk <=? INT32_MAX))
        "策略 clip 必须为正数且不超过 max_order_size，数量上限不能超过 INT32_MAX";
  _ ← require (rr_max_position risk <=? INT32_MAX) "max_position 不能超过 INT32_MAX";
  _ ← require (isfinite (sp_threshold parameters) && d_ge (sp_threshold parameters) d_zero)
        "threshold 必须是有限的非负数";
  require (isfinite (rr_max_loss risk) && d_ge d_zero (rr_max_loss risk))
    "max_loss 必须是有限的非正数".

Definition validate_exchange (config : ExchangeConfig) : checked () :=
  _ ← validate_market (ex_market_data config);
  validateTCP (ex_tcp config) true.

(** The loop over the overrides, with [seen]. *)
Definition validate_ticker (seen : list bool) (ticker : TickerStrategyConfig) : checked (list bool) :=
  _ ← require (ts_ticker_id ticker <? ME_MAX_TICKERS) "ticker_id 必须在 0 到 7 之间";
  _ ← require (negb (default false (seen !! Z.to_nat (ts_ticker_id ticker))))
        "同一个 ticker_id 不能重复配置";
  let seen := <[Z.to_nat (ts_ticker_id ticker) := true]> seen in
  _ ← validate_parameters (ts_parameters ticker);
  mret seen.

Definition validate_client (config : ClientConfig) : checked () :=
  _ ← require ((0 <? cc_client_id config) && (cc_client_id config <? ME_MAX_NUM_CLIENTS))
        "client_id 必须在 1 到 255 之间";
  _ ← validate_market (cc_market_data config);
  _ ← validateTCP (cc_tcp config) false;
  _ ← require (negb (bool_decide (ClientConfig.strategyType config = AlgoType_INVALID)))
        "strategy.type 仅支持 MAKER、TAKER 或 RANDOM";
  _ ← validate_parameters (sc_default_parameters (cc_strategy config));
  _ ← checked_fold validate_ticker (sc_tickers (cc_strategy config))
        (replicate (Z.to_nat ME_MAX_TICKERS) false);
  let runtime := ClientConfig.runtimeConfig config in
  _ ← require (run_seconds runtime <=? 86400) "run_seconds 不能超过 86400 秒";
  _ ← require (random_orders runtime <=? 900000) "random_orders 不能超过 900000";
  require (random_delay_us runtime <=? 1000000) "random_delay_us 不能超过 1000000 微秒".

End Network.

Definition tickerConfig (parameters : StrategyParameters) : TradeEngineCfg :=
  let risk := sp_risk parameters in
  mkCfg (sp_clip parameters) (sp_threshold parameters)
    (mkRiskCfg (rr_max_order_size risk) (rr_max_position risk) (rr_max_loss risk)).

(** ** Reading a file *)
Definition BOM : string :=
  String (ascii_of_nat 239) (String (ascii_of_nat 187) (String (ascii_of_nat 191) EmptyString)).

(** [starts_with] and [erase(0, 3)]. *)
Definition skip_BOM (buffer : string) : string :=
  if String.prefix BOM buffer then String.substring 3 (String.length buffer - 3) buffer else buffer.

(** The end of a line. *)
Definition newline : string := String (ascii_of_nat 10) EmptyString.

Section Files.
Context {T : Type} (read_json : string -> string + T) (validate : T -> checked ()).
Context (read_file : string -> option (string * bool)).

Definition parse (buffer : string) : checked T :=
  match read_json (skip_BOM buffer) with
  | inl error => ConfigError ("JSON 配置格式错误：" +:+ newline +:+ error)
  | inr config => _ ← validate config; mret config
  end.

Definition load (path : string) : checked T :=
  match read_file path with
  | None => ConfigError ("无法打开配置文件：" +:+ path)
  | Some (buffer, bad) =>
      if bad : bool then ConfigError ("读取配置文件失败：" +:+ path) else
      match parse buffer with
      | inl error => ConfigError (path +:+ "：" +:+ error)
      | inr config => mret config
      end
  end.
End Files.
End ConfigDetail.

(** [ClientConfig::tickerConfig]: an unchecked array, indexed by ticker. *)
Definition ClientConfig_tickerConfig (c : ClientConfig) : res (list TradeEngineCfg) :=
  let config := replicate (Z.to_nat ME_MAX_TICKERS)
                  (ConfigDetail.tickerConfig (sc_default_parameters (cc_strategy c))) in
  res_fold (λ config ticker,
    if (0 <=? ts_ticker_id ticker) && (ts_ticker_id ticker <? ME_MAX_TICKERS)
    then Ok (<[Z.to_nat (ts_ticker_id ticker) := ConfigDetail.tickerConfig (ts_parameters ticker)]> config)
    else Err BadAccess) (sc_tickers (cc_strategy c)) config.

(** ** Command line and environment *)
Record StartupOptions : Type := mkOptions {
  config_path : string;
  first_positional : Z;
  check_only : bool
}.

(** [path / name] of [std::filesystem], for a relative [name]. *)
Definition path_join (path name : string) : string :=
  match path, String.get (String.length path - 1) path with
  | EmptyString, _ => name
  | _, Some "/"%char => path +:+ name
  | _, _ => path +:+ "/" +:+ name
  end.

Fixpoint scan_options (i : Z) (args : list string) (result : StartupOptions) : checked StartupOptions :=
  match args with
  | [] => mret result
  | option :: rest =>
      if bool_decide (option = "--config") then
        match rest with
        | [] => ConfigError "--config 需要且只能指定一个文件"
        | value :: rest =>
            if negb (bool_decide (config_path result = EmptyString)) || bool_decide (value = EmptyString)
            then ConfigError "--config 需要且只能指定一个文件"
            else scan_options (i + 2) rest (mkOptions value (i + 2) (check_only result))
        end
      else if bool_decide (option = "--check-config") then
        scan_options (i + 1) rest (mkOptions (config_path result) (i + 1) true)
      else mret (mkOptions (config_path result) i (check_only result))
  end.

(** [args]: [argv] without the program's name; [exe_directory]: the parent of
    the executable's canonical path. *)
Definition startupOptions (exe_directory : string) (args : list string) (filename : string) :
    checked StartupOptions :=
  result ← scan_options 1 args (mkOptions EmptyString 1 false);
  mret (if bool_decide (config_path result = EmptyString)
        then mkOptions (path_join (path_join exe_directory "config") filename)
               (first_positional result) (check_only result)
        else result).

(** [std::from_chars] on [uint64_t]: the longest prefix of digits; the value
    ([None]: not representable, or no digit) and the rest of the text. *)
Definition digit_value (c : ascii) : option Z :=
  let n := nat_of_ascii c in
  if (48 <=? n)%nat && (n <=? 57)%nat then Some (Z.of_nat n - 48) else None.

Fixpoint digits (value : Z) (text : string) : Z * string :=
  match text with
  | EmptyString => (value, text)
  | String c text' =>
      match digit_value c with
      | Some d => digits (10 * value + d) text'
      | None => (value, text)
      end
  end.

Definition from_chars (text : string) : option Z * string :=
  let '(value, rest) := digits 0 text in
  (if bool_decide (rest = text) then None else if value <? 2 ^ 64 then Some value else None, rest).

Definition unsignedSetting (text : string) (maximum : Z) (field : string) : checked Z :=
  match from_chars text with
  | (Some value, EmptyString) =>
      if value <=? maximum then mret value else ConfigError (field +:+ " 必须是范围内的非负整数")
  | _ => ConfigError (field +:+ " 必须是范围内的非负整数")
  end.

Definition floatingSetting (from_chars_double : string -> option (double * string))
    (text : string) (field : string) : checked double :=
  match from_chars_double text with
  | Some (value, EmptyString) =>
      if isfinite value then mret value else ConfigError (field +:+ " 必须是有限数值")
  | _ => ConfigError (field +:+ " 必须是有限数值")
  end.

Definition environmentSetting (getenv : string -> option string) (key : string)
    (fallback maximum : Z) : checked Z :=
  match getenv key with
  | Some text => unsignedSetting text maximum key
  | None => mret fallback
  end.
