(* ===== verification/ConfigTheorems.v ===== *)
(** What the validation of the startup configuration guarantees: which
    configurations it accepts, the parameters every ticker gets, and the
    reading of numbers from the command line and the environment. *)
From S2P Require Import Prelude.
From S2P Require Import Types.
From S2P Require Import TradingTypes.
From S2P Require Import Config.
From stdpp Require Import base strings pretty list.
From Stdlib Require Import Ascii ZArith Lia SpecFloat.

Local Open Scope Z_scope.

(** ** The checks as propositions *)
Lemma checked_bind_inr {A B} (m : checked A) (f : A -> checked B) b :
  m ≫= f = inr b <-> exists a, m = inr a /\ f a = inr b.
Proof.
  destruct m as [e|a]; cbn; split.
  - discriminate.
  - by intros (? & ? & _).
  - eauto.
  - by intros (? & [= ->] & ?).
Qed.

Lemma checked_seq_inr {B} (m : checked ()) (k : checked B) b :
  (_ ← m; k) = inr b <-> m = inr () /\ k = inr b.
Proof. rewrite checked_bind_inr. split; [by intros ([] & ?)|by exists ()]. Qed.

Lemma require_inr b message u : ConfigDetail.require b message = inr u <-> b = true.
Proof. destruct b, u; split; done. Qed.

(** Turn a successful check into what it checked. *)
Ltac checks :=
  rewrite ?checked_seq_inr, ?require_inr, ?andb_true_iff, ?orb_true_iff, ?negb_true_iff,
    ?bool_decide_eq_true, ?bool_decide_eq_false, ?Z.leb_le, ?Z.ltb_lt, ?Z.eqb_neq.

(** ** Which configurations are accepted *)

(** Quantities are positive and fit a signed 32-bit integer; the doubles are
    finite and have the right sign. *)
Record valid_parameters (p : StrategyParameters) : Prop := {
  vp_clip : 0 < sp_clip p <= rr_max_order_size (sp_risk p);
  vp_size : rr_max_order_size (sp_risk p) <= INT32_MAX;
  vp_position : rr_max_position (sp_risk p) <= INT32_MAX;
  vp_threshold : isfinite (sp_threshold p) = true /\
    d_ge (sp_threshold p) ConfigDetail.d_zero = true;
  vp_loss : isfinite (rr_max_loss (sp_risk p)) = true /\
    d_ge ConfigDetail.d_zero (rr_max_loss (sp_risk p)) = true
}.

Lemma validate_parameters_inr p : ConfigDetail.validate_parameters p = inr () <-> valid_parameters p.
Proof.
  unfold ConfigDetail.validate_parameters. checks. split.
  - intros ([[? ?] ?] & ? & [? ?] & ? & ?). by split.
  - intros [? ? ? [? ?] [? ?]]. tauto.
Qed.

Section Accepted.
Context (inet_pton : string -> option Z) (getIfaceIP : string -> string).

(** An endpoint with a numeric address of some kind. *)
Definition endpoint_ok (kind : Z -> Prop) (e : NetworkEndpoint) : Prop :=
  1 <= port e <= 65535 /\ exists host, inet_pton (c_str (address e)) = Some host /\ kind host.

Definition multicast (host : Z) : Prop := IN_MULTICAST host = true.
Definition unicast (server : bool) (host : Z) : Prop :=
  IN_MULTICAST host = false /\ host <> INADDR_BROADCAST /\ (server = false -> host <> INADDR_ANY).

Record market_ok (m : MarketDataConfig) : Prop := {
  mo_interface : interface m <> EmptyString /\ getIfaceIP (interface m) <> EmptyString;
  mo_incremental : endpoint_ok multicast (incremental m);
  mo_snapshot : endpoint_ok multicast (snapshot m);
  mo_ports : port (incremental m) <> port (snapshot m)
}.

Lemma ipv4_inr e field host :
  ConfigDetail.ipv4 inet_pton e field = inr host <->
  1 <= port e <= 65535 /\ inet_pton (c_str (address e)) = Some host.
Proof.
  unfold ConfigDetail.ipv4. checks. split.
  - intros ([x Hx] & Hp & Hd). rewrite Hx in *. injection Hd as <-. by split.
  - intros [[Hp1 Hp2] ->]. split; [by eexists|]. done.
Qed.

#[local] Opaque ConfigDetail.ipv4.

Lemma validate_market_inr m :
  ConfigDetail.validate_market inet_pton getIfaceIP m = inr () <-> market_ok m.
Proof.
  unfold ConfigDetail.validate_market. checks.
  setoid_rewrite checked_bind_inr. setoid_rewrite checked_bind_inr.
  setoid_rewrite ipv4_inr. split.
  - intros (Hi & h1 & (Hp1 & H1) & h2 & (Hp2 & H2) & Hrest). revert Hrest. checks.
    intros (Hm1 & Hm2 & Hne). split; [tauto| | |done]; (split; [done|]); [by exists h1|by exists h2].
  - intros [[Hi1 Hi2] (Hp1 & h1 & E1 & Hm1) (Hp2 & h2 & E2 & Hm2) Hne].
    split; [done|]. exists h1. split; [done|]. exists h2. split; [done|]. by checks.
Qed.

Lemma validateTCP_inr e server :
  ConfigDetail.validateTCP inet_pton e server = inr () <-> endpoint_ok (unicast server) e.
Proof.
  unfold ConfigDetail.validateTCP. setoid_rewrite checked_bind_inr. setoid_rewrite ipv4_inr. split.
  - intros (h & (Hp & H) & Hrest). revert Hrest. checks. intros ([Hm Hb] & Ha).
    split; [done|]. exists h. split; [done|]. split_and!; [done|done|]. intros ->. by destruct Ha.
  - intros (Hp & h & E & Hm & Hb & Ha). exists h. split; [done|]. checks.
    split_and!; [done|done|]. destruct server; [by left|right; auto].
Qed.

(** The overrides: known tickers, each at most once. *)
Definition tickers_ok (l : list TickerStrategyConfig) : Prop :=
  Forall (λ t, 0 <= ts_ticker_id t < ME_MAX_TICKERS /\ valid_parameters (ts_parameters t)) l /\
  NoDup (ts_ticker_id <$> l).

Record client_config_ok (c : ClientConfig) : Prop := {
  co_client : 0 < cc_client_id c < ME_MAX_NUM_CLIENTS;
  co_market : market_ok (cc_market_data c);
  co_tcp : endpoint_ok (unicast false) (cc_tcp c);
  co_strategy : ClientConfig.strategyType c <> AlgoType_INVALID;
  co_default : valid_parameters (sc_default_parameters (cc_strategy c));
  co_tickers : tickers_ok (sc_tickers (cc_strategy c));
  co_seconds : run_seconds (ClientConfig.runtimeConfig c) <= 86400;
  co_orders : random_orders (ClientConfig.runtimeConfig c) <= 900000;
  co_delay : random_delay_us (ClientConfig.runtimeConfig c) <= 1000000
}.

(** [seen] marks the tickers of [done]. *)
Definition marks (seen : list bool) (done : list Z) : Prop :=
  length seen = Z.to_nat ME_MAX_TICKERS /\
  forall t, 0 <= t < ME_MAX_TICKERS -> seen !! Z.to_nat t = Some (bool_decide (t ∈ done)).

Lemma marks_insert seen done t :
  marks seen done -> 0 <= t < ME_MAX_TICKERS -> marks (<[Z.to_nat t := true]> seen) (t :: done).
Proof.
  intros [Hl Hs] Ht. split; [by rewrite length_insert|]. intros u Hu.
  destruct (decide (u = t)) as [->|Hne].
  - rewrite list_lookup_insert_eq by (rewrite Hl; lia). rewrite bool_decide_eq_true_2; [done|by left].
  - rewrite list_lookup_insert_ne, Hs by lia. f_equal. apply bool_decide_ext.
    rewrite elem_of_cons. naive_solver.
Qed.

Lemma validate_ticker_inr seen done t seen1 :
  marks seen done -> 0 <= ts_ticker_id t ->
  ConfigDetail.validate_ticker seen t = inr seen1 <->
  (ts_ticker_id t < ME_MAX_TICKERS /\ ts_ticker_id t ∉ done /\ valid_parameters (ts_parameters t)) /\
  seen1 = <[Z.to_nat (ts_ticker_id t) := true]> seen.
Proof.
  intros Hm Ht. unfold ConfigDetail.validate_ticker.
  rewrite !checked_seq_inr, !require_inr, validate_parameters_inr, Z.ltb_lt. split.
  - intros (Hb & Hd & Hv & [= ->]). rewrite (proj2 Hm) in Hd by lia. cbn in Hd.
    apply negb_true_iff, bool_decide_eq_false in Hd. done.
  - intros ((Hb & Hd & Hv) & ->). rewrite (proj2 Hm) by lia. cbn.
    rewrite bool_decide_eq_false_2 by done. done.
Qed.

Lemma validate_tickers_inr l seen done :
  marks seen done -> Forall (λ t, 0 <= ts_ticker_id t) l ->
  (exists seen', checked_fold ConfigDetail.validate_ticker l seen = inr seen') <->
  Forall (λ t, 0 <= ts_ticker_id t < ME_MAX_TICKERS /\ valid_parameters (ts_parameters t)) l /\
  NoDup (ts_ticker_id <$> l) /\ (forall t, t ∈ ts_ticker_id <$> l -> t ∉ done).
Proof.
  intros Hm Hpos. revert seen done Hm. induction Hpos as [|t l Ht Hpos IH]; intros seen done Hm.
  { cbn. split; [|by eauto]. intros _. split_and!; [done|constructor|]. intros ? []%not_elem_of_nil. }
  cbn [checked_fold fmap list_fmap].
  rewrite Forall_cons, NoDup_cons. setoid_rewrite elem_of_cons.
  pose proof (λ seen1, validate_ticker_inr seen done t seen1 Hm Ht) as Hone.
  split.
  - intros (seen' & H). apply checked_bind_inr in H as (seen1 & H1 & H).
    apply Hone in H1 as ((Hb & Hd & Hv) & ->).
    destruct (proj1 (IH _ _ (marks_insert _ _ _ Hm (conj Ht Hb))) (ex_intro _ _ H)) as (Hf & Hn & Hall).
    split; [split; [done|exact Hf]|]. split; [split; [|done]|].
    + intros Hin. apply (Hall _ Hin). by left.
    + intros u [->|Hu]; [done|]. intros Hin. apply (Hall _ Hu). by right.
  - intros ([[Hb Hv] Hf] & [Hni Hn] & Hall).
    destruct (proj2 (IH _ _ (marks_insert _ _ _ Hm Hb))) as (seen' & H).
    { split_and!; [done|done|]. intros u Hu [->|Hin]%elem_of_cons; [done|]. apply (Hall u); auto. }
    exists seen'. apply checked_bind_inr. eexists. split; [|exact H]. apply Hone.
    split; [|done]. split_and!; [lia|apply Hall; by left|done].
Qed.

(** What holds of every object of type [ClientConfig]: the unsigned fields. *)
Record client_config_typed (c : ClientConfig) : Prop := {
  ct_positions : Forall (λ p, 0 <= rr_max_position (sp_risk p))
    (sc_default_parameters (cc_strategy c) :: (ts_parameters <$> sc_tickers (cc_strategy c)));
  ct_tickers : Forall (λ t, 0 <= ts_ticker_id t) (sc_tickers (cc_strategy c))
}.

#[local] Opaque ConfigDetail.validate_market ConfigDetail.validateTCP ConfigDetail.validate_parameters
  ConfigDetail.require.

Lemma validate_client_inr c :
  client_config_typed c ->
  ConfigDetail.validate_client inet_pton getIfaceIP c = inr () <-> client_config_ok c.
Proof.
  intros [_ Ht]. unfold ConfigDetail.validate_client.
  rewrite !checked_seq_inr, checked_bind_inr.
  setoid_rewrite checked_seq_inr. setoid_rewrite checked_seq_inr. setoid_rewrite require_inr.
  rewrite validate_market_inr, validateTCP_inr, validate_parameters_inr. checks. setoid_rewrite Z.leb_le.
  assert (Hm : marks (replicate (Z.to_nat ME_MAX_TICKERS) false) []).
  { split; [apply length_replicate|]. intros t Hb. rewrite lookup_replicate_2 by lia.
    by rewrite bool_decide_eq_false_2 by apply not_elem_of_nil. }
  pose proof (validate_tickers_inr _ _ _ Hm Ht) as Hv. split.
  - intros (? & ? & ? & ? & ? & (seen & Hf & ? & ? & ?)). destruct (proj1 Hv (ex_intro _ _ Hf)) as (? & ? & _).
    by split.
  - intros []. do 5 (split; [done|]). destruct (proj2 Hv) as (seen & Hs); [|by exists seen].
    destruct co_tickers0. split; [done|]. split; [done|]. intros ??. apply not_elem_of_nil.
Qed.
End Accepted.

(** ** The parameters of a ticker: its override or the default *)
Fixpoint override (t : Z) (l : list TickerStrategyConfig) : option StrategyParameters :=
  match l with
  | [] => None
  | x :: l' => if ts_ticker_id x =? t then Some (ts_parameters x) else override t l'
  end.

Definition parameters_of (c : ClientConfig) (t : Z) : StrategyParameters :=
  default (sc_default_parameters (cc_strategy c)) (override t (sc_tickers (cc_strategy c))).

Lemma override_None t l : t ∉ ts_ticker_id <$> l -> override t l = None.
Proof.
  induction l as [|x l IH]; [done|]. cbn. intros [Hne Hni]%not_elem_of_cons.
  destruct (Z.eqb_spec (ts_ticker_id x) t); [congruence|auto].
Qed.

Lemma override_in t l p : override t l = Some p -> exists x, x ∈ l /\ ts_ticker_id x = t /\ ts_parameters x = p.
Proof.
  induction l as [|x l IH]; [done|]. cbn.
  destruct (Z.eqb_spec (ts_ticker_id x) t) as [He|_]; [intros [= <-]; exists x; split; [by left|done]|].
  intros (y & Hy & H)%IH. exists y. split; [by right|done].
Qed.

Lemma tickerConfig_fold l cfg :
  Forall (λ t, 0 <= ts_ticker_id t < ME_MAX_TICKERS) l -> NoDup (ts_ticker_id <$> l) ->
  length cfg = Z.to_nat ME_MAX_TICKERS ->
  exists cfg', res_fold (λ config ticker,
      if (0 <=? ts_ticker_id ticker) && (ts_ticker_id ticker <? ME_MAX_TICKERS)
      then Ok (<[Z.to_nat (ts_ticker_id ticker) := ConfigDetail.tickerConfig (ts_parameters ticker)]> config)
      else Err BadAccess) l cfg = Ok cfg' /\ length cfg' = Z.to_nat ME_MAX_TICKERS /\
    forall t, 0 <= t < ME_MAX_TICKERS ->
      cfg' !! Z.to_nat t = match override t l with
                           | Some p => Some (ConfigDetail.tickerConfig p)
                           | None => cfg !! Z.to_nat t
                           end.
Proof.
  intros Hl. revert cfg. induction Hl as [|x l Hx Hl IH]; intros cfg Hn Hlen; [by exists cfg|].
  cbn [fmap list_fmap] in Hn. apply NoDup_cons in Hn as [Hni Hn]. cbn [res_fold].
  rewrite (proj2 (andb_true_iff _ _)) by lia. cbn [mbind res_bind].
  destruct (IH (<[Z.to_nat (ts_ticker_id x) := ConfigDetail.tickerConfig (ts_parameters x)]> cfg) Hn)
    as (cfg' & -> & Hlen' & H); [by rewrite length_insert|].
  exists cfg'. split; [done|]. split; [done|]. intros t Ht. rewrite H by done. cbn [override].
  destruct (Z.eqb_spec (ts_ticker_id x) t) as [<-|Hne].
  - rewrite override_None by done. by rewrite list_lookup_insert_eq by (rewrite Hlen; lia).
  - destruct (override t l); [done|]. by rewrite list_lookup_insert_ne by lia.
Qed.

Lemma tickerConfig_ok c :
  tickers_ok (sc_tickers (cc_strategy c)) ->
  exists cfg, ClientConfig_tickerConfig c = Ok cfg /\ length cfg = Z.to_nat ME_MAX_TICKERS /\
    forall t, 0 <= t < ME_MAX_TICKERS ->
      cfg !! Z.to_nat t = Some (ConfigDetail.tickerConfig (parameters_of c t)).
Proof.
  intros [Hf Hn].
  destruct (tickerConfig_fold (sc_tickers (cc_strategy c)) (replicate (Z.to_nat ME_MAX_TICKERS)
      (ConfigDetail.tickerConfig (sc_default_parameters (cc_strategy c)))))
    as (cfg & H & Hlen & Hcfg); [by eapply Forall_impl; [exact Hf|intros ? []]|done|apply length_replicate|].
  exists cfg. split; [exact H|]. split; [done|]. intros t Ht. rewrite Hcfg by done. unfold parameters_of.
  destruct (override t _); [done|]. by rewrite lookup_replicate_2 by lia.
Qed.

Lemma parameters_of_valid c t : tickers_ok (sc_tickers (cc_strategy c)) ->
  valid_parameters (sc_default_parameters (cc_strategy c)) -> valid_parameters (parameters_of c t).
Proof.
  intros [Hf _] Hd. unfold parameters_of. destruct (override t _) as [p|] eqn:E; [|done].
  apply override_in in E as (x & Hx & _ & <-). rewrite Forall_forall in Hf. by apply Hf.
Qed.

(** ** Numbers *)

Lemma digits_nonneg v text : 0 <= v -> 0 <= (digits v text).1.
Proof.
  revert v. induction text as [|c text IH]; intros v Hv; cbn; [done|].
  unfold digit_value. destruct (_ && _) eqn:E; [|done]. apply IH.
  apply andb_true_iff in E as [E1 E2]. apply Nat.leb_le in E1. lia.
Qed.

(** The characters that [pretty] writes. *)
Lemma digit_value_pretty n : (n < 10)%N -> digit_value (pretty_N_char n) = Some (Z.of_N n).
Proof.
  intros H. unfold digit_value.
  destruct n as [|p]; [done|]. do 4 (try destruct p as [p|p|]; try done).
Qed.

Lemma digits_pretty_go n s : digits 0 (pretty_N_go n s) = digits (Z.of_N n) s.
Proof.
  revert s. induction (N.lt_wf_0 n) as [n _ IH]; intros s.
  destruct (decide (0 < n)%N) as [Hn|Hn].
  - rewrite pretty_N_go_step by done. rewrite IH by (apply N.div_lt; lia).
    cbn [digits]. rewrite digit_value_pretty by (apply N.mod_lt; lia). f_equal.
    rewrite N2Z.inj_div, N2Z.inj_mod. pose proof (Z.div_mod (Z.of_N n) 10). lia.
  - assert (n = 0%N) as -> by lia. by rewrite pretty_N_go_0.
Qed.

Lemma digits_pretty v : 0 <= v -> digits 0 (pretty v) = (v, EmptyString).
Proof.
  intros Hv. destruct v as [|p|p]; [done| |lia].
  change (pretty (Z.pos p)) with (pretty (N.pos p)). unfold pretty, pretty_N.
  rewrite decide_False by done. by rewrite digits_pretty_go.
Qed.

Fixpoint zeros (k : nat) (s : string) : string :=
  match k with
  | O => s
  | S k => String "0" (zeros k s)
  end.

Lemma digits_zeros k s : digits 0 (zeros k s) = digits 0 s.
Proof. by induction k. Qed.

Lemma digit_value_inv c d : digit_value c = Some d -> 0 <= d < 10 /\ c = pretty_N_char (Z.to_N d).
Proof.
  unfold digit_value. destruct (_ && _) eqn:E; [|done]. intros [= <-].
  apply andb_true_iff in E as [E1 E2]. apply Nat.leb_le in E1. apply Nat.leb_le in E2.
  split; [lia|]. rewrite <- (ascii_nat_embedding c) at 1. generalize dependent (nat_of_ascii c). intros n E1 E2.
  do 48 (destruct n as [|n]; [lia|]). do 10 (destruct n as [|n]; [done|]). lia.
Qed.

(** Digits written behind a positive number. *)
Lemma pretty_go_digits v s w :
  0 < v -> digits v s = (w, EmptyString) ->
  0 < w /\ pretty_N_go (Z.to_N v) s = pretty_N_go (Z.to_N w) EmptyString.
Proof.
  revert v. induction s as [|c s IH]; intros v Hv; cbn [digits]; [by intros [= <-]|].
  destruct (digit_value c) as [d|] eqn:Hd; [|done]. apply digit_value_inv in Hd as [Hd ->].
  intros H. destruct (IH (10 * v + d)) as [Hw E]; [lia|done|]. split; [done|]. rewrite <- E.
  rewrite (pretty_N_go_step (Z.to_N (10 * v + d))) by lia.
  replace (Z.to_N (10 * v + d) `div` 10)%N with (Z.to_N v)
    by (rewrite Z2N.inj_add, Z2N.inj_mul by lia; apply (N.div_unique _ _ _ (Z.to_N d)); lia).
  replace (Z.to_N (10 * v + d) `mod` 10)%N with (Z.to_N d)
    by (rewrite Z2N.inj_add, Z2N.inj_mul by lia; apply (N.mod_unique _ _ (Z.to_N v)); lia).
  done.
Qed.

Lemma pretty_positive w : 0 < w -> pretty w = pretty_N_go (Z.to_N w) EmptyString.
Proof. destruct w as [|p|p]; [lia|done|lia]. Qed.

(** A text of digits is a printed number behind zeros. *)
Lemma digits_inv s w :
  digits 0 s = (w, EmptyString) -> s <> EmptyString -> 0 <= w /\ exists k, s = zeros k (pretty w).
Proof.
  induction s as [|c s IH]; cbn [digits]; [done|].
  destruct (digit_value c) as [d|] eqn:Hd; [|done]. apply digit_value_inv in Hd as [Hd ->].
  intros H _. destruct (decide (d = 0)) as [->|Hne].
  - destruct (decide (s = EmptyString)) as [->|Hs].
    + injection H as <-. split; [done|]. by exists O.
    + destruct (IH H Hs) as (Hw & k & ->). split; [done|]. by exists (S k).
  - destruct (pretty_go_digits d s w) as [Hw E]; [lia|by rewrite Z.add_0_l in H|].
    split; [lia|]. exists O. cbn [zeros]. rewrite pretty_positive, <- E by done.
    rewrite pretty_N_go_step by lia.
    replace (Z.to_N d `div` 10)%N with 0%N by (symmetry; apply N.div_small; lia).
    rewrite pretty_N_go_0. by rewrite N.mod_small by lia.
Qed.

(** Which texts are read as a setting, and as what. *)
Lemma unsignedSetting_inr text maximum field v :
  maximum < 2 ^ 64 ->
  unsignedSetting text maximum field = inr v <->
  0 <= v <= maximum /\ exists k, text = zeros k (pretty v).
Proof.
  intros Hmax. unfold unsignedSetting, from_chars. destruct (digits 0 text) as [w rest] eqn:E. split.
  - case_bool_decide as Hr; [done|]. destruct (Z.ltb_spec w (2 ^ 64)); [|done].
    destruct rest; [|done]. destruct (Z.leb_spec w maximum); [|done]. intros [= <-].
    destruct (digits_inv text w) as [Hw Hk]; [done|congruence|]. split; [lia|done].
  - intros [Hv (k & ->)]. rewrite digits_zeros, digits_pretty in E by lia. injection E as <- <-.
    rewrite bool_decide_eq_false_2.
    + rewrite (proj2 (Z.ltb_lt _ _)) by lia. by rewrite (proj2 (Z.leb_le _ _)) by lia.
    + intros He. assert (Hd : digits 0 (zeros k (pretty v)) = (0, EmptyString)) by (by rewrite <- He).
      rewrite digits_zeros, digits_pretty in Hd by lia. injection Hd as ->. by destruct k.
Qed.

(** A market maker with a limit of its own for ticker 3. *)
Definition demo_parameters : StrategyParameters :=
  mkParameters 10 d_half (mkRuntimeRisk 200 1000 (d_of_Z (- 5))).

Definition demo_config : ClientConfig :=
  mkClientConfig 1
    (mkMarketData "lo" (mkEndpoint "233.252.14.3" 20001) (mkEndpoint "233.252.14.1" 20000))
    (mkEndpoint "127.0.0.1" 12345)
    (mkStrategyConfig "MAKER" demo_parameters
      [mkTickerStrategy 3 (mkParameters 10 d_half (mkRuntimeRisk 200 50 (d_of_Z (- 5))))])
    None.

(** The addresses of the example, in host order. *)
Definition demo_pton (s : string) : option Z :=
  if bool_decide (s = "233.252.14.3") then Some (((233 * 256 + 252) * 256 + 14) * 256 + 3)
  else if bool_decide (s = "233.252.14.1") then Some (((233 * 256 + 252) * 256 + 14) * 256 + 1)
  else if bool_decide (s = "127.0.0.1") then Some (127 * 256 ^ 3 + 1) else None.

(** C21: validation accepts exactly the configurations that the program can run
    with - clients, endpoints, quantities and doubles in range, every override
    for a known ticker and none twice - and an accepted configuration gives
    every ticker its own parameters, or the default ones, which are valid. *)
Theorem configuration_is_checked inet_pton getIfaceIP c :
  client_config_typed c ->
  (ConfigDetail.validate_client inet_pton getIfaceIP c = inr () <->
     client_config_ok inet_pton getIfaceIP c) /\
  (ConfigDetail.validate_client inet_pton getIfaceIP c = inr () ->
     exists cfg, ClientConfig_tickerConfig c = Ok cfg /\ length cfg = Z.to_nat ME_MAX_TICKERS /\
       forall t, 0 <= t < ME_MAX_TICKERS ->
         cfg !! Z.to_nat t = Some (ConfigDetail.tickerConfig (parameters_of c t)) /\
         valid_parameters (parameters_of c t)).
Proof.
  intros Ht. pose proof (validate_client_inr inet_pton getIfaceIP c Ht) as H. split; [exact H|].
  intros Hok%H. destruct (tickerConfig_ok c (co_tickers _ _ _ Hok)) as (cfg & E & Hl & Hcfg).
  exists cfg. split; [done|]. split; [done|]. intros t Hb. split; [by apply Hcfg|].
  apply parameters_of_valid; apply Hok.
Qed.

Lemma configuration_is_checked_witness :
  ConfigDetail.validate_client demo_pton (λ _, "127.0.0.1") demo_config = inr () /\
  client_config_ok demo_pton (λ _, "127.0.0.1") demo_config /\
  exists cfg, ClientConfig_tickerConfig demo_config = Ok cfg /\ length cfg = 8%nat /\
    cfg !! 3%nat = Some (ConfigDetail.tickerConfig (parameters_of demo_config 3)).
Proof.
  assert (Ht : client_config_typed demo_config).
  { split; repeat constructor; cbn; lia. }
  destruct (configuration_is_checked demo_pton (λ _, "127.0.0.1") demo_config Ht) as [Hiff Hcfg].
  assert (Hv : ConfigDetail.validate_client demo_pton (λ _, "127.0.0.1") demo_config = inr ())
    by (vm_compute; reflexivity).
  split; [exact Hv|]. split; [by apply Hiff|]. destruct (Hcfg Hv) as (cfg & E & Hl & H).
  exists cfg. split; [exact E|]. split; [exact Hl|]. apply (H 3). unfold ME_MAX_TICKERS. lia.
Defined.
