(* ===== verification/ExchangeMain.v ===== *)
(** The exchange program, exchange/exchange_main.cpp: the arguments and the
    configuration, the threads that [main] starts, and the shutdown
    [quiesce], [engine->stop], [publisher->stop], [server->stop].

    The five threads (main, matching engine, publisher, synthesizer, network)
    take turns, a turn being one iteration of a thread's loop; a turn of [main]
    is one test of the loop it is in, or of a [join].  Objects that components
    share, the queues and the journal, are handed over after each turn.
    Signals may be raised between any two turns. *)
From S2P Require Import Prelude.
From S2P Require Import Types.
From S2P Require Import MatchBook.
From S2P Require Import LFQueue.
From S2P Require Import Journal.
From S2P Require Import MatchingEngine.
From S2P Require Import FIFOSequencer.
From S2P Require Import TcpSocket.
From S2P Require Import OrderServer.
From S2P Require Import McastSocket.
From S2P Require Import Snapshot.
From S2P Require Import Publisher.
From S2P Require Import ExchangeMarket.
From S2P Require Import Config.
From stdpp Require Import base gmap list strings.
From Stdlib Require Import ZArith Lia Ascii.

Local Open Scope Z_scope.

(** A thread with the flag [run_] that its loop tests: the flag is set, it is
    not, the thread has ended. *)
Inductive Worker : Type :=
  | Running
  | Stopping
  | Ended.

(** The publisher's thread flushes its socket after its loop. *)
Inductive PublisherWorker : Type :=
  | Publishing
  | PublishingRest
  | Flushing (deadline : Z)
  | PublisherEnded.

(** Where [main] is: in its loop, in [quiesce], or in the [join] of a stop. *)
Inductive MainPhase : Type :=
  | Serving
  | Quiescing (deadline : Z)
  | JoiningEngine
  | JoiningPublisher
  | JoiningSynthesizer
  | JoiningServer
  | Returned.

#[export] Instance Worker_eq_dec : EqDecision Worker.
Proof. solve_decision. Defined.
#[export] Instance PublisherWorker_eq_dec : EqDecision PublisherWorker.
Proof. solve_decision. Defined.

Record Exchange : Type := mkExchange {
  xg_market : ExchangeMarket;
  xg_server : OrderServer;      (* with the [run_] of its thread *)
  xg_engine : Worker;
  xg_publisher : PublisherWorker;
  xg_synth : Worker;
  xg_network_ended : bool;
  xg_main : MainPhase;
  xg_stopping : bool            (* set by the signal handler *)
}.

(** Turns.  Clocks are read where the code reads them. *)
Inductive ExchangeOp : Type :=
  | RaiseSignal
  | MainTurn (now : Z)
  | EngineTurn
  | PublisherTurn (now : Z)
  | SynthTurn (now now' : Z)
  | NetworkTurn (now : Z) (events : list PollEvent) (accepts : list bool).

Module Exchange.

Definition with_market (m : ExchangeMarket) (x : Exchange) : Exchange :=
  mkExchange m (xg_server x) (xg_engine x) (xg_publisher x) (xg_synth x) (xg_network_ended x)
    (xg_main x) (xg_stopping x).
Definition with_server (s : OrderServer) (x : Exchange) : Exchange :=
  mkExchange (xg_market x) s (xg_engine x) (xg_publisher x) (xg_synth x) (xg_network_ended x)
    (xg_main x) (xg_stopping x).
Definition with_workers (e : Worker) (p : PublisherWorker) (y : Worker) (n : bool) (x : Exchange) : Exchange :=
  mkExchange (xg_market x) (xg_server x) e p y n (xg_main x) (xg_stopping x).
Definition with_main (m : MainPhase) (x : Exchange) : Exchange :=
  mkExchange (xg_market x) (xg_server x) (xg_engine x) (xg_publisher x) (xg_synth x)
    (xg_network_ended x) m (xg_stopping x).
Definition engine_is (w : Worker) (x : Exchange) : Exchange :=
  with_workers w (xg_publisher x) (xg_synth x) (xg_network_ended x) x.
Definition publisher_is (w : PublisherWorker) (x : Exchange) : Exchange :=
  with_workers (xg_engine x) w (xg_synth x) (xg_network_ended x) x.
Definition synth_is (w : Worker) (x : Exchange) : Exchange :=
  with_workers (xg_engine x) (xg_publisher x) w (xg_network_ended x) x.
Definition network_ends (x : Exchange) : Exchange :=
  with_workers (xg_engine x) (xg_publisher x) (xg_synth x) true x.

(** What the engine shares with the server, after a turn of either. *)
Definition from_engine (e : MatchingEngine) (s : OrderServer) : OrderServer :=
  OrderServer.with_sequencer (os_sequencer s) (me_requests e)
    (OrderServer.with_responses (me_responses e) (OrderServer.with_audit (me_audit e) s)).
Definition from_server (s : OrderServer) (e : MatchingEngine) : MatchingEngine :=
  mkEngine (me_books e) (os_requests s) (os_responses s) (me_updates e) (me_next_response_id e)
    (me_response_count e) (me_positions e) (os_audit s).

Definition set_engine (e : MatchingEngine) (x : Exchange) : Exchange :=
  let m := xg_market x in
  with_server (from_engine e (xg_server x))
    (with_market (mkExchangeMarket e (ExchangeMarket.with_outgoing (me_updates e) (xm_publisher m)) (xm_synth m)) x).
Definition set_server (s : OrderServer) (x : Exchange) : Exchange :=
  let m := xg_market x in
  with_market (mkExchangeMarket (from_server s (xm_engine m)) (xm_publisher m) (xm_synth m)) (with_server s x).

(** The objects that [main] creates, with everything started. *)
Definition make_sized (orders levels pool queue cycle : Z) (requests : LFQueue MEClientRequest)
    (responses : LFQueue MEClientResponse) (updates : LFQueue MEMarketUpdate)
    (audit : option CriticalJournal) : option Exchange :=
  m ← ExchangeMarket.make_sized orders levels pool queue cycle requests responses updates audit;
  Some (mkExchange m (OrderServer.start (OrderServer.make requests responses audit))
    Running Publishing Running false Serving false).

Section Threads.
Context (publisher_kernel synth_kernel : Kernel) (period : Z).
Context (connections : nat -> TcpKernel) (capacity : nat).

(** A turn of the matching engine; the request it served. *)
Definition engine_turn (x : Exchange) : res (option MEClientRequest * Exchange) :=
  match xg_engine x with
  | Ended => Ok (None, x)
  | w =>
      let e := xm_engine (xg_market x) in
      head ← peek (me_requests e);
      match head with
      | None => Ok (None, if bool_decide (w = Running) then x else engine_is Ended x)
      | Some r => e ← MatchingEngine.run_once e; Ok (Some r, set_engine e x)
      end
  end.

Definition publish (x : Exchange) : res Exchange :=
  m ← ExchangeMarket.step publisher_kernel synth_kernel period (xg_market x) RunPublisher;
  Ok (with_market m x).

Definition publisher_turn (now : Z) (x : Exchange) : res Exchange :=
  let m := xg_market x in
  let p := xm_publisher m in
  match xg_publisher x with
  | Publishing => publish x
  | PublishingRest =>
      head ← peek (pb_outgoing p);
      match head with
      | Some _ => publish x
      | None => Ok (publisher_is (Flushing (now + 5 * 1000000000)) x)
      end
  | Flushing deadline =>
      match mc_outbound (pb_socket p) with
      | [] => Ok (publisher_is PublisherEnded x)
      | _ =>
          _ ← ASSERT (now <? deadline);
          '(_, socket) ← McastSocket.sendAndRecv publisher_kernel (pb_socket p);
          Ok (with_market (mkExchangeMarket (xm_engine m)
                (mkPublisher (pb_next_inc_seq_num p) (pb_outgoing p) (pb_snapshot_updates p) socket)
                (xm_synth m)) x)
      end
  | PublisherEnded => Ok x
  end.

Definition synthesize (now now' : Z) (x : Exchange) : res Exchange :=
  m ← ExchangeMarket.step publisher_kernel synth_kernel period (xg_market x) (RunSynthesizer now now');
  Ok (with_market m x).

(** After its loop the synthesizer publishes a last cycle. *)
Definition synth_turn (now now' : Z) (x : Exchange) : res Exchange :=
  let m := xg_market x in
  match xg_synth x with
  | Running => synthesize now now' x
  | Stopping =>
      head ← peek (sn_updates (xm_synth m));
      match head with
      | Some _ => synthesize now now' x
      | None =>
          s ← SnapshotSynthesizer.publishSnapshot synth_kernel (xm_synth m);
          Ok (synth_is Ended (with_market (mkExchangeMarket (xm_engine m) (xm_publisher m) s) x))
      end
  | Ended => Ok x
  end.

Definition network_turn (now : Z) (events : list PollEvent) (accepts : list bool) (x : Exchange) : res Exchange :=
  if xg_network_ended x then Ok x else
  on ← OrderServer.goes_on (xg_server x);
  if negb on then Ok (network_ends x) else
  s ← OrderServer.run_iteration connections capacity now events accepts (xg_server x);
  Ok (set_server s x).

(** A turn of [main]. *)
Definition main_turn (now : Z) (x : Exchange) : res Exchange :=
  let s := xg_server x in
  match xg_main x with
  | Serving =>
      Ok (if xg_stopping x
          then with_main (Quiescing (now + 5 * 1000000000)) (with_server (OrderServer.quiesce s) x)
          else x)
  | Quiescing deadline =>
      if os_quiesced s then Ok (with_main JoiningEngine (engine_is Stopping x)) else
      _ ← ASSERT (now <? deadline); Ok x
  | JoiningEngine =>
      Ok (if bool_decide (xg_engine x = Ended)
          then with_main JoiningPublisher (publisher_is PublishingRest x) else x)
  | JoiningPublisher =>
      Ok (if bool_decide (xg_publisher x = PublisherEnded)
          then with_main JoiningSynthesizer (synth_is Stopping x) else x)
  | JoiningSynthesizer =>
      Ok (if bool_decide (xg_synth x = Ended)
          then with_main JoiningServer (with_server (OrderServer.stop now s) x) else x)
  | JoiningServer => Ok (if xg_network_ended x then with_main Returned x else x)
  | Returned => Ok x
  end.

(** The list records the requests that the engine served. *)
Definition step (st : Exchange * list MEClientRequest) (op : ExchangeOp) :
    res (Exchange * list MEClientRequest) :=
  let '(x, served) := st in
  match op with
  | RaiseSignal =>
      Ok (mkExchange (xg_market x) (xg_server x) (xg_engine x) (xg_publisher x) (xg_synth x)
            (xg_network_ended x) (xg_main x) true, served)
  | MainTurn now => x ← main_turn now x; Ok (x, served)
  | EngineTurn => '(r, x) ← engine_turn x; Ok (x, served ++ option_list r)
  | PublisherTurn now => x ← publisher_turn now x; Ok (x, served)
  | SynthTurn now now' => x ← synth_turn now now' x; Ok (x, served)
  | NetworkTurn now events accepts => x ← network_turn now events accepts x; Ok (x, served)
  end.

Definition run (ops : list ExchangeOp) (x : Exchange) : res (Exchange * list MEClientRequest) :=
  res_fold step ops (x, []).
End Threads.
End Exchange.

(** ** The start of [main] *)

(** [std::strtoll] with base 10. *)
Definition is_space (c : ascii) : bool :=
  let n := nat_of_ascii c in ((n =? 32) || ((9 <=? n) && (n <=? 13)))%nat.

Fixpoint skip_space (text : string) : string :=
  match text with
  | String c text' => if is_space c then skip_space text' else text
  | EmptyString => EmptyString
  end.

Definition strtoll (text : string) : Z :=
  match skip_space text with
  | String "-" rest => Z.max (- 2 ^ 63) (- (digits 0 rest).1)
  | String "+" rest => Z.min (2 ^ 63 - 1) (digits 0 rest).1
  | rest => Z.min (2 ^ 63 - 1) (digits 0 rest).1
  end.

(** The period that the synthesizer's thread reads from the environment. *)
Definition snapshot_period (configured : option string) : res Z :=
  let milliseconds := match configured with Some text => strtoll text | None => 60000 end in
  _ ← ASSERT ((0 <? milliseconds) && (milliseconds <=? 3600000));
  Ok (milliseconds * 1000000).

Inductive MainResult : Type :=
  | ExitCode (n : Z)
  | Started (x : Exchange) (period : Z).

Section Startup.
Context (read_json : string -> string + ExchangeConfig) (inet_pton : string -> option Z).
Context (getIfaceIP : string -> string) (read_file : string -> option (string * bool)).
Context (getenv : string -> option string) (exe_directory : string).
(** Whether the sockets of a configuration can be opened. *)
Context (sockets_open : ExchangeConfig -> bool).

(** The [try] block; the flag is [--check-config]. *)
Definition exchange_startup (args : list string) : checked (ExchangeConfig * bool) :=
  options ← startupOptions exe_directory args "exchange.json";
  if negb (first_positional options =? 1 + Z.of_nat (length args))
  then ConfigError "用法：exchange_main [--config 文件] [--check-config]" else
  config ← ConfigDetail.load read_json (ConfigDetail.validate_exchange inet_pton getIfaceIP) read_file
    (config_path options);
  mret (config, check_only options).

(** [main] until all threads run, for pools and queues of any size; [cycle] is
    the time at which the synthesizer is created. *)
Definition exchange_main_sized (orders levels pool requests updates cycle : Z) (args : list string) :
    res MainResult :=
  match exchange_startup args with
  | inl _ => Ok (ExitCode 2)
  | inr (_, true) => Ok (ExitCode 0)
  | inr (config, false) =>
      rq ← deref (queue_new default_MEClientRequest requests);
      rs ← deref (queue_new default_MEClientResponse requests);
      up ← deref (queue_new default_MEMarketUpdate updates);
      _ ← ASSERT (sockets_open config);
      period ← snapshot_period (getenv "TRADE_SNAPSHOT_MS");
      x ← deref (Exchange.make_sized orders levels pool updates cycle rq rs up (Some journal_new));
      Ok (Started x period)
  end.
Definition exchange_main := exchange_main_sized ME_MAX_ORDER_IDS ME_MAX_PRICE_LEVELS ME_MAX_ORDER_IDS
  ME_MAX_CLIENT_UPDATES ME_MAX_MARKET_UPDATES.
End Startup.
