(* ===== verification/ExchangeMainTheorems.v ===== *)
(** The exchange program as a whole: what holds while its threads take turns,
    and that an orderly shutdown loses nothing. *)
From S2P Require Import Prelude.
From S2P Require Import Types.
From S2P Require Import Wire.
From S2P Require Import MemPool.
From S2P Require Import MatchBook.
From S2P Require Import BookSpec.
From S2P Require Import LFQueue.
From S2P Require Import Journal.
From S2P Require Import MatchingEngine.
From S2P Require Import FIFOSequencer.
From S2P Require Import TcpSocket.
From S2P Require Import OrderServer.
From S2P Require Import ServerTheorems.
From S2P Require Import ServerDelivery.
From S2P Require Import Config.
From S2P Require Import ConfigTheorems.
From S2P Require Import MarketView.
From S2P Require Import McastSocket.
From S2P Require Import Snapshot.
From S2P Require Import Publisher.
From S2P Require Import MarketRecovery.
From S2P Require Import RecoveryProgress.
From S2P Require Import RecoveryTheorems.
From S2P Require Import MarketHistory.
From S2P Require Import ExchangeMarket.
From S2P Require Import MarketEndToEnd.
From S2P Require Import ExchangeMain.
From stdpp Require Import base gmap list.
From Stdlib Require Import ZArith Lia.

Local Open Scope Z_scope.
Local Arguments encode_response : simpl never.

(** A request has been answered: the response waits for the network thread,
    or is in the stream of a connection. *)
Definition answered (waiting : list MEClientResponse) (socks : list TCPSocket) (r : MEClientRequest) : Prop :=
  exists a, addressed (rq_client_id r, rq_order_id r) a /\ (a ∈ waiting \/ delivered socks a).

Section Exchange.
Context (orders levels : Z) (Horders : 0 <= orders) (Hlevels : 0 <= levels) (cycle0 : Z).

(** ** The data *)
Record data_ok (n : nat) (x : Exchange) (served : list MEClientRequest) : Prop := {
  da_market : exists g views, market_ok orders levels cycle0 n (xg_market x) g views;
  da_engine : engine_ok (xm_engine (xg_market x));
  da_server : server_ok served (xg_server x);
  da_requests : me_requests (xm_engine (xg_market x)) = os_requests (xg_server x);
  da_responses : me_responses (xm_engine (xg_market x)) = os_responses (xg_server x);
  da_counted lq : queue_ok (os_requests (xg_server x)) lq ->
    Forall request_wf (lq ++ pending_requests (xg_server x)) /\
    u64 (os_accepted (xg_server x)) = u64 (Z.of_nat (length (served ++ lq ++ pending_requests (xg_server x))));
  da_answered lr : queue_ok (os_responses (xg_server x)) lr ->
    Forall (answered lr (os_sockets (xg_server x))) served;
  da_responses_wf lr : queue_ok (os_responses (xg_server x)) lr -> Forall response_wf lr
}.

(** The threads and the queues that have run dry. *)
Record control_ok (x : Exchange) : Prop := {
  ct_quiesced : os_quiesced (xg_server x) = true ->
    os_accepting (xg_server x) = false /\ pending_requests (xg_server x) = [];
  ct_engine_stop : xg_engine x <> Running -> os_quiesced (xg_server x) = true;
  ct_engine_end : xg_engine x = Ended -> queue_ok (os_requests (xg_server x)) [];
  ct_publisher_stop : xg_publisher x <> Publishing -> xg_engine x = Ended;
  ct_publisher_rest : xg_publisher x <> Publishing -> xg_publisher x <> PublishingRest ->
    queue_ok (pb_outgoing (xm_publisher (xg_market x))) [];
  ct_publisher_end : xg_publisher x = PublisherEnded -> mc_outbound (pb_socket (xm_publisher (xg_market x))) = [];
  ct_synth_stop : xg_synth x <> Running -> xg_publisher x = PublisherEnded;
  ct_synth_end : xg_synth x = Ended -> queue_ok (sn_updates (xm_synth (xg_market x))) [];
  ct_server_stop : os_run (xg_server x) = false -> xg_synth x = Ended;
  ct_network_end : xg_network_ended x = true -> os_run (xg_server x) = false /\
    queue_ok (os_responses (xg_server x)) [] /\ Forall (λ c, TCPSocket.unsent c = []) (os_sockets (xg_server x));
  ct_returned : xg_main x = Returned -> xg_network_ended x = true;
  ct_phase : match xg_main x with
    | Serving | Quiescing _ => xg_engine x = Running
    | JoiningEngine => xg_publisher x = Publishing
    | JoiningPublisher => xg_synth x = Running
    | JoiningSynthesizer => os_run (xg_server x) = true
    | JoiningServer | Returned => True
    end
}.

(** The invariant of a state with changed fields: what is unchanged, what
    contradicts the state of a thread. *)
Ltac control Hc :=
  pose proof Hc as []; split; cbn; try done; intros; try congruence;
  try match goal with
  | H : match xg_main ?x with _ => _ end |- match xg_main ?x with _ => _ end => destruct (xg_main x); congruence
  end.

Lemma queue_ok_exists {T} (q : LFQueue T) l : queue_ok q l -> exists l, queue_ok q l.
Proof. eauto. Qed.

(** The market does not depend on the queues of the requests and responses. *)
Lemma market_replace n m g views e :
  market_ok orders levels cycle0 n m g views ->
  me_books e = me_books (xm_engine m) -> me_updates e = me_updates (xm_engine m) ->
  (exists l, queue_ok (me_responses e) l) ->
  market_ok orders levels cycle0 n (mkExchangeMarket e (xm_publisher m) (xm_synth m)) g views.
Proof.
  intros [Hh [Hb1 Hb2] _ Hp Hnext Ho Hf Hsy Hlast Hsock Hcy Hcys Hpool Hroom Hcr] Eb Eu Hr.
  split; cbn [xm_engine xm_publisher xm_synth]; try done; [|congruence]. split; by rewrite Eb.
Qed.

Lemma engine_replace e e' :
  engine_ok e -> me_books e' = me_books e -> me_next_response_id e' = me_next_response_id e ->
  me_positions e' = me_positions e ->
  (exists l, queue_ok (me_responses e') l) -> (exists l, queue_ok (me_updates e') l) -> engine_ok e'.
Proof.
  intros [H1 H2 _ _ H5 H6] Eb En Ep Hr Hu. split; try done; [by rewrite Eb|by rewrite Eb|by rewrite En|by rewrite Ep].
Qed.

Lemma data_weaken n x served : data_ok (S n) x served -> data_ok n x served.
Proof.
  intros [(g & views & Hm) H2 H3 H4 H5 H6 H7 H8]. split; try done. exists g, views. by apply market_weaken.
Qed.

(** [xg_main] and the threads are not part of the data. *)
Lemma data_workers n x served e p y w : data_ok n x served -> data_ok n (Exchange.with_workers e p y w x) served.
Proof. intros []. by split. Qed.
Lemma data_main n x served m : data_ok n x served -> data_ok n (Exchange.with_main m x) served.
Proof. intros []. by split. Qed.

Lemma server_sane served s : server_ok served s -> Forall sane (os_sockets s).
Proof.
  intros (adm & _ & Hc & _). apply Forall_lookup. intros id x Hx. by destruct (co_conns _ _ _ _ Hc id x Hx).
Qed.

(** A turn of the engine, seen by the server. *)
Lemma server_from_engine served s e r lq lr rs :
  server_ok served s -> queue_ok (os_requests s) (r :: lq) -> queue_ok (me_requests e) lq ->
  queue_ok (os_responses s) lr -> queue_ok (me_responses e) (lr ++ rs) -> Forall response_wf rs ->
  server_ok (served ++ [r]) (Exchange.from_engine e s).
Proof.
  intros (adm & (lq0 & lr0 & Hlq0 & Hlr0 & Hcl & Hp) & Hc & Hg) Hlq Hlq' Hlr Hlr' Hrs.
  rewrite (queue_contents_unique _ _ _ Hlq0 Hlq) in Hp. rewrite (queue_contents_unique _ _ _ Hlr0 Hlr) in Hcl.
  exists adm. split; [|by split]. exists lq, (lr ++ rs). split_and!; [done|done| |].
  { apply Forall_app. split; [done|]. eapply Forall_impl; [exact Hrs|]. by intros a (_ & [? _] & _). }
  cbn. by rewrite Hp, <- app_assoc.
Qed.

(** ** A turn of the engine *)
Lemma network_live x : control_ok x -> os_run (xg_server x) = true -> xg_network_ended x = false.
Proof.
  intros Hc Hr. destruct (xg_network_ended x) eqn:E; [|done]. apply (ct_network_end _ Hc) in E as [E _]. congruence.
Qed.

Lemma synth_live x :
  control_ok x -> xg_synth x <> Ended -> os_run (xg_server x) = true /\ xg_network_ended x = false.
Proof.
  intros Hc Hy. assert (Hr : os_run (xg_server x) = true).
  { destruct (os_run (xg_server x)) eqn:E; [done|]. by destruct Hy; apply (ct_server_stop _ Hc). }
  split; [done|]. by apply network_live.
Qed.

Lemma publisher_live x :
  control_ok x -> xg_publisher x <> PublisherEnded ->
  xg_synth x = Running /\ os_run (xg_server x) = true /\ xg_network_ended x = false.
Proof.
  intros Hc Hp. assert (Hy : xg_synth x = Running).
  { destruct (decide (xg_synth x = Running)) as [|Hy]; [done|]. by destruct Hp; apply (ct_synth_stop _ Hc). }
  split; [done|]. apply synth_live; [done|congruence].
Qed.

Lemma engine_live x :
  control_ok x -> xg_engine x <> Ended ->
  xg_publisher x = Publishing /\ xg_synth x = Running /\ os_run (xg_server x) = true /\ xg_network_ended x = false.
Proof.
  intros Hc He. assert (Hp : xg_publisher x = Publishing).
  { destruct (decide (xg_publisher x = Publishing)) as [|Hp]; [done|]. by destruct He; apply (ct_publisher_stop _ Hc). }
  split; [done|]. apply publisher_live; [done|congruence].
Qed.

Lemma server_queues served s : server_ok served s ->
  exists lq lr, queue_ok (os_requests s) lq /\ queue_ok (os_responses s) lr.
Proof. intros (adm & (lq & lr & Hlq & Hlr & _) & _). by exists lq, lr. Qed.

Lemma market_updates n m g views :
  market_ok orders levels cycle0 n m g views -> queue_ok (me_updates (xm_engine m)) (fd_waiting g).
Proof. intros H. rewrite <- (mk_outgoing _ _ _ _ _ _ _ H). apply (mk_publisher _ _ _ _ _ _ _ H). Qed.

Lemma serve_head n x served r lq :
  data_ok (S n) x served -> queue_ok (os_requests (xg_server x)) (r :: lq) ->
  fatal_or (λ e, data_ok n (Exchange.set_engine e x) (served ++ [r]))
    (MatchingEngine.run_once (xm_engine (xg_market x))).
Proof.
  intros Hd Hlq. pose proof Hd as [(g & views & Hm) He Hs Erq Ers Hcnt Hans Hwfr].
  destruct (server_queues _ _ Hs) as (_ & lr & _ & Hlr). destruct (Hcnt _ Hlq) as [Hwf Hn].
  apply Forall_cons in Hwf as [Hr Hwf]. unfold MatchingEngine.run_once. rewrite Erq, (peek_ok _ _ Hlq).
  cbn [mbind res_bind head]. pose proof (market_updates _ _ _ _ Hm) as Hup.
  pose proof (serve_ok orders levels Horders Hlevels cycle0 n (xg_market x) g views r Hm Hr) as Hserve.
  rewrite <- Ers in Hlr. pose proof (process_adds _ r lr (fd_waiting g) He Hr Hlr Hup) as Hadd.
  pose proof (process_keeps_requests r (xm_engine (xg_market x))) as Hkeep.
  destruct (MatchingEngine.processClientRequest r (xm_engine (xg_market x))) as [e|f]; [|exact Hserve].
  destruct Hserve as (g' & views' & Hm'). destruct Hadd as (He' & rs & us & Hrs & (a & Ha & Hka) & Hlr' & Hup' & _).
  destruct (pop_ok _ _ Hlq) as (q & Eq & Hq & _). cbn [mbind res_bind].
  rewrite (Hkeep e eq_refl), Erq, Eq. cbn [mbind res_bind ends].
  set (e' := MatchingEngine.with_requests q e). rewrite Ers in Hlr.
  split; cbn [Exchange.set_engine Exchange.with_server Exchange.with_market xg_market xg_server xm_engine]; try done.
  - exists g', views'. change (me_updates e') with (me_updates e).
    apply (market_replace n _ g' views' e' Hm'); [done|done|by eexists].
  - apply (engine_replace e); [done..|by eexists|by eexists].
  - by apply (server_from_engine served _ e' r lq lr rs).
  - intros lq' Hlq'. cbn in Hlq'. rewrite (queue_contents_unique _ _ _ Hlq' Hq). split; [exact Hwf|].
    change (pending_requests _) with (pending_requests (xg_server x)). cbn in Hn |- *. rewrite Hn. f_equal.
    rewrite !length_app. cbn [length]. rewrite length_app. lia.
  - intros lr' Hl. cbn in Hl. rewrite (queue_contents_unique _ _ _ Hl Hlr'). cbn. apply Forall_app. split.
    + eapply Forall_impl; [exact (Hans lr Hlr)|]. intros y (b & Hb & Hin). exists b. split; [done|].
      destruct Hin as [Hin|Hin]; [left; apply elem_of_app; by left|by right].
    + apply Forall_singleton. exists a. split; [done|]. left. apply elem_of_app. by right.
  - intros lr' Hl. cbn in Hl. rewrite (queue_contents_unique _ _ _ Hl Hlr'). apply Forall_app. split; [|done].
    by apply Hwfr.
Qed.

Lemma engine_turn_ok n x served :
  data_ok (S n) x served -> control_ok x ->
  fatal_or (λ '(r, x'), data_ok n x' (served ++ option_list r) /\ control_ok x') (Exchange.engine_turn x).
Proof.
  intros Hd Hc. unfold Exchange.engine_turn.
  destruct (decide (xg_engine x = Ended)) as [Ee|Ee].
  { rewrite Ee. cbn. rewrite app_nil_r. split; [by apply data_weaken|done]. }
  destruct (engine_live x Hc Ee) as (Ep & Ey & Er & En). destruct (server_queues _ _ (da_server _ _ _ Hd)) as (lq & lr & Hlq & Hlr).
  assert (Hturn : fatal_or (λ '(r, x'), data_ok n x' (served ++ option_list r) /\ control_ok x')
    (head ← peek (me_requests (xm_engine (xg_market x)));
     match head with
     | None => Ok (None, if bool_decide (xg_engine x = Running) then x else Exchange.engine_is Ended x)
     | Some r => e ← MatchingEngine.run_once (xm_engine (xg_market x)); Ok (Some r, Exchange.set_engine e x)
     end)).
  { rewrite (da_requests _ _ _ Hd), (peek_ok _ _ Hlq). cbn [mbind res_bind]. destruct lq as [|r lq]; cbn [head].
    - cbn [ends option_list]. rewrite app_nil_r. case_bool_decide as Erun; [split; [by apply data_weaken|done]|].
      split; [by apply data_workers, data_weaken|]. control Hc. by apply ct_engine_stop0.
    - eapply ends_bind; [by apply (serve_head n x served r lq)|]. intros e Hd'. cbn [ends option_list]. split; [exact Hd'|].
      control Hc. }
  destruct (xg_engine x); [exact Hturn|exact Hturn|done].
Qed.

(** ** Turns of the publisher and the synthesizer *)

(** The market moves on; the engine keeps its books, its requests and its
    responses. *)
Lemma data_market n x served m g views :
  data_ok (S n) x served -> market_ok orders levels cycle0 n m g views ->
  me_books (xm_engine m) = me_books (xm_engine (xg_market x)) ->
  me_requests (xm_engine m) = me_requests (xm_engine (xg_market x)) ->
  me_responses (xm_engine m) = me_responses (xm_engine (xg_market x)) ->
  me_next_response_id (xm_engine m) = me_next_response_id (xm_engine (xg_market x)) ->
  me_positions (xm_engine m) = me_positions (xm_engine (xg_market x)) ->
  data_ok n (Exchange.with_market m x) served.
Proof.
  intros [_ He Hs Erq Ers Hcnt Hans Hwfr] Hm E1 E2 E3 E4 E5.
  split; cbn [Exchange.with_market xg_market xg_server]; try done; try congruence; [by exists g, views|].
  apply (engine_replace (xm_engine (xg_market x))); [done..| |].
  - rewrite E3, Ers. destruct (server_queues _ _ Hs) as (lq & lr & _ & H). by exists lr.
  - exists (fd_waiting g). by eapply market_updates.
Qed.

Section Threads.
Context (pk sk : Kernel) (period : Z) (connections : nat -> TcpKernel) (capacity : nat).
Context (Hk : forall id, kernel_ok (connections id)).

Lemma publish_turn n x served :
  data_ok (S n) x served ->
  fatal_or (λ x', data_ok n x' served /\ exists m, x' = Exchange.with_market m x /\
    sn_updates (xm_synth m) = pb_snapshot_updates (xm_publisher m)) (Exchange.publish pk sk period x).
Proof.
  intros Hd. destruct (da_market _ _ _ Hd) as (g & views & Hm). unfold Exchange.publish. cbn [ExchangeMarket.step].
  pose proof (publish_ok orders levels Horders cycle0 pk n (xg_market x) g views Hm) as Hp.
  destruct (MarketDataPublisher.run_iteration pk (xm_publisher (xg_market x))) as [p|f]; [|exact Hp].
  destruct Hp as [g' Hm']. cbn [mbind res_bind ends]. split; [|by eexists]. by eapply data_market.
Qed.

Lemma publisher_turn_ok n x served now :
  data_ok (S n) x served -> control_ok x ->
  fatal_or (λ x', data_ok n x' served /\ control_ok x') (Exchange.publisher_turn pk sk period now x).
Proof.
  intros Hd Hc. unfold Exchange.publisher_turn. destruct (da_market _ _ _ Hd) as (g & views & Hm).
  assert (Hpub : xg_publisher x = Publishing \/ xg_publisher x = PublishingRest ->
    fatal_or (λ x', data_ok n x' served /\ control_ok x') (Exchange.publish pk sk period x)).
  { intros Hw. eapply ends_mono; [by apply (publish_turn n x served)|]. intros x' [Hd' (m & -> & _)]. split; [exact Hd'|].
    assert (Hy : xg_synth x = Running).
    { destruct (decide (xg_synth x = Running)) as [|Hy]; [done|]. apply (ct_synth_stop _ Hc) in Hy. destruct Hw; congruence. }
    control Hc; destruct Hw; congruence. }
  destruct (xg_publisher x) eqn:Ew; [by apply Hpub; left| | |].
  - pose proof (mk_publisher _ _ _ _ _ _ _ Hm) as [Hq _ _]. rewrite (peek_ok _ _ Hq). cbn [mbind res_bind].
    destruct (fd_waiting g) as [|u l]; cbn [head]; [|by apply Hpub; right]. cbn [ends]. split; [by apply data_workers, data_weaken|].
    control Hc; try (apply ct_publisher_stop0; congruence).
    apply ct_synth_stop0 in H. congruence.
  - destruct (mc_outbound (pb_socket (xm_publisher (xg_market x)))) as [|b bs] eqn:Eo.
    + cbn [ends]. split; [by apply data_workers, data_weaken|].
      control Hc; try (apply ct_publisher_stop0; congruence).
      apply ct_publisher_rest0; congruence.
    + destruct (now <? deadline); [|done]. cbn [ASSERT mbind res_bind].
      pose proof (mk_publisher _ _ _ _ _ _ _ Hm) as [Hq Hf Hs].
      destruct (McastSocket.sendAndRecv pk _) as [[r sock]|f] eqn:Es; [|by eapply McastSocket.sendAndRecv_err].
      cbn [mbind res_bind ends]. apply (McastSocket.sendAndRecv_ok _ _ _ _ _ Hs) in Es. split.
      * apply (data_market n x served _ g views); [done| |done..].
        apply (market_weaken _ _ Horders) in Hm as [Hh Hb Hr _ Hnext Ho Hfw Hsy Hlast Hsock Hcy Hcys Hpool Hroom Hcr].
        split; cbn [xm_engine xm_publisher xm_synth]; try done.
      * control Hc.
  - cbn [ends]. split; [by apply data_weaken|done].
Qed.

Lemma synthesize_turn n x served now now' :
  data_ok (S n) x served -> xg_synth x <> Ended -> control_ok x ->
  fatal_or (λ x', data_ok n x' served /\ control_ok x') (Exchange.synthesize pk sk period now now' x).
Proof.
  intros Hd Hy Hc. destruct (da_market _ _ _ Hd) as (g & views & Hm). unfold Exchange.synthesize. cbn [ExchangeMarket.step].
  pose proof (synthesize_ok orders levels Horders cycle0 sk period now now' n (xg_market x) g views Hm) as Hp.
  destruct (SnapshotSynthesizer.run_iteration sk period now now' (xm_synth (xg_market x))) as [s|f]; [|exact Hp].
  destruct Hp as [g' Hm']. cbn [mbind res_bind ends]. split; [by eapply data_market|].
  pose proof Hc as []. by split.
Qed.

(** The last cycle is an iteration that finds no update and whose period is
    over. *)
Lemma last_cycle s :
  queue_ok (sn_updates s) [] ->
  SnapshotSynthesizer.publishSnapshot sk s
  = SnapshotSynthesizer.run_iteration sk (- 2 ^ 63 - 1) 0 (sn_last_snapshot_time s) s.
Proof.
  intros Hq. unfold SnapshotSynthesizer.run_iteration. rewrite (queue_size_ok _ _ Hq).
  change (Z.to_nat (Z.of_nat (length []))) with 0%nat. cbn [SnapshotSynthesizer.consume]. rewrite (peek_ok _ _ Hq). cbn [mbind res_bind head].
  rewrite (proj2 (Z.ltb_lt _ _)); [by destruct s|]. unfold i64.
  pose proof (Z.mod_pos_bound (0 - sn_last_snapshot_time s + 2 ^ 63) (2 ^ 64)). lia.
Qed.

Lemma synth_turn_ok n x served now now' :
  data_ok (S n) x served -> control_ok x ->
  fatal_or (λ x', data_ok n x' served /\ control_ok x') (Exchange.synth_turn pk sk period now now' x).
Proof.
  intros Hd Hc. unfold Exchange.synth_turn. destruct (xg_synth x) eqn:Ey.
  - apply synthesize_turn; [done|congruence|done].
  - destruct (da_market _ _ _ Hd) as (g & views & Hm).
    pose proof (mk_publisher _ _ _ _ _ _ _ Hm) as [_ Hf _]. rewrite <- (mk_forwarded _ _ _ _ _ _ _ Hm) in Hf.
    rewrite (peek_ok _ _ Hf). cbn [mbind res_bind].
    destruct (increments (Z.of_nat (length (fd_taken g))) (fd_rest g)) as [|u l]; cbn [head];
      [|apply synthesize_turn; [done|congruence|done]].
    rewrite (last_cycle _ Hf).
    pose proof (synthesize_ok orders levels Horders cycle0 sk (- 2 ^ 63 - 1) 0
      (sn_last_snapshot_time (xm_synth (xg_market x))) n (xg_market x) g views Hm) as Hp.
    pose proof (last_cycle _ Hf) as El.
    destruct (SnapshotSynthesizer.run_iteration sk _ _ _ _) as [s|f]; [|exact Hp]. destruct Hp as [g' Hm'].
    cbn [mbind res_bind ends].
    apply publishSnapshot_frame in El as [Eu _].
    assert (Ep : ExchangeMarket.with_forwarded (sn_updates s) (xm_publisher (xg_market x)) = xm_publisher (xg_market x)).
    { rewrite Eu, (mk_forwarded _ _ _ _ _ _ _ Hm). by destruct (xm_publisher (xg_market x)). }
    rewrite Ep in Hm'. split.
    + apply data_workers. by eapply data_market.
    + control Hc;
        first [by rewrite Eu|apply ct_synth_stop0; congruence].
  - cbn [ends]. split; [by apply data_weaken|done].
Qed.

(** ** A turn of the network thread *)
Lemma data_server n x served s :
  data_ok n x served -> server_ok served s -> turn (xg_server x) s -> data_ok n (Exchange.set_server s x) served.
Proof.
  intros [(g & views & Hm) He Hs Erq Ers Hcnt Hans Hwfr] Hs' Ht.
  destruct (server_queues _ _ Hs) as (lq & lr & Hlq & Hlr). destruct (server_queues _ _ Hs') as (lq' & lr' & Hlq' & Hlr').
  split; cbn [Exchange.set_server Exchange.with_market Exchange.with_server xg_market xg_server xm_engine Exchange.from_server
    me_requests me_responses]; try done.
  - exists g, views. apply (market_replace _ _ _ _ _ Hm); [done|done|by eexists].
  - apply (engine_replace (xm_engine (xg_market x))); [done..|by eexists|].
    exists (fd_waiting g). by eapply market_updates.
  - intros l Hl. rewrite (queue_contents_unique _ _ _ Hl Hlq'). destruct (Hcnt lq Hlq) as [Hw Hn].
    destruct (tn_requests _ _ Ht lq Hlq) as (l1 & new & Hl1 & Hp & Hwn & Hacc).
    rewrite (queue_contents_unique _ _ _ Hl1 Hlq') in Hp. split.
    + rewrite Hp. by apply Forall_app.
    + rewrite Hacc. unfold u64 in *. rewrite <- Zplus_mod_idemp_l, Hn, Zplus_mod_idemp_l. f_equal.
      rewrite !(length_app served), Hp, !length_app. lia.
  - intros l Hl. rewrite (queue_contents_unique _ _ _ Hl Hlr').
    destruct (tn_responses _ _ Ht lr Hlr) as (sent & l1 & -> & Hl1 & Hsent).
    rewrite (queue_contents_unique _ _ _ Hl1 Hlr') in *. specialize (Hans _ Hlr).
    eapply Forall_impl; [exact Hans|]. intros r (a & Ha & Hin). exists a. split; [done|].
    destruct Hin as [[Hin|Hin]%elem_of_app|Hin]; [right|by left|right; by eapply delivered_grown; [apply Ht|]].
    rewrite Forall_forall in Hsent. by apply Hsent.
  - intros l Hl. destruct (tn_responses _ _ Ht lr Hlr) as (sent & l1 & -> & Hl1 & _).
    rewrite (queue_contents_unique _ _ _ Hl Hl1). by apply Hwfr, Forall_app in Hlr as [_ ?].
Qed.

Lemma network_turn_ok n x served now events accepts :
  data_ok (S n) x served -> control_ok x ->
  fatal_or (λ x', data_ok n x' served /\ control_ok x')
    (Exchange.network_turn connections capacity now events accepts x).
Proof.
  intros Hd Hc. apply data_weaken in Hd. unfold Exchange.network_turn. destruct (xg_network_ended x) eqn:En; [by split|].
  pose proof (da_server _ _ _ Hd) as Hs. destruct (server_queues _ _ Hs) as (lq & lr & Hlq & Hlr).
  unfold OrderServer.goes_on. rewrite (peek_ok _ _ Hlr). cbn [mbind res_bind].
  destruct (os_run (xg_server x) || _ || _) eqn:Eon; cbn [negb].
  - pose proof (run_server_ok connections capacity now events accepts served (xg_server x) Hk Hs) as H1.
    pose proof (run_iteration_turn connections capacity Hk now events accepts (xg_server x) (server_sane _ _ Hs)
      (queue_ok_exists _ _ Hlr)) as H2.
    destruct (OrderServer.run_iteration _ _ _ _ _ _) as [s|f]; [|exact H1]. destruct H2 as [_ Ht].
    cbn [mbind res_bind ends] in *. split; [by apply data_server|]. pose proof Hc as []. destruct Ht as [_ Ea Er Hst Hq _ Hcl _].
    split; cbn; try done; try congruence.
    + intros Hq'. destruct (Hq Hq') as [Hq0|Hq0]; [|exact Hq0]. destruct (ct_quiesced0 Hq0) as [A P].
      split; [congruence|]. by apply Hcl.
    + intros He. by apply Hst, ct_engine_stop0.
    + intros He. destruct (ct_quiesced0 (ct_engine_stop0 ltac:(congruence))) as [A P].
      destruct (Hcl A P) as [E _]. rewrite E. by apply ct_engine_end0.
    + intros Hr. apply ct_server_stop0. congruence.
    + destruct (xg_main x); congruence.
  - apply orb_false_iff in Eon as [[Erun Ehead]%orb_false_iff Epend]. cbn [ends]. split; [by apply data_workers|].
    pose proof Hc as []. split; cbn; try done. intros _. split; [done|].
    apply bool_decide_eq_false in Ehead. apply negb_false_iff, bool_decide_eq_true in Epend.
    destruct lr as [|r lr]; [|by destruct Ehead]. split; [exact Hlr|].
    apply Forall_forall. intros c Hin. unfold TCPSocket.unsent.
    assert (Hz : TCPSocket.pending_bytes c = 0%nat).
    { unfold OrderServer.pendingBytes in Epend. apply (sum_list_with_in _ TCPSocket.pending_bytes) in Hin. lia. }
    unfold TCPSocket.pending_bytes in Hz. by rewrite Hz.
Qed.

(** ** A turn of [main] *)
Lemma data_flags n x served s :
  data_ok n x served -> os_sessions s = os_sessions (xg_server x) -> os_anonymous s = os_anonymous (xg_server x) ->
  os_clients s = os_clients (xg_server x) -> os_sockets s = os_sockets (xg_server x) ->
  os_sequencer s = os_sequencer (xg_server x) -> os_requests s = os_requests (xg_server x) ->
  os_responses s = os_responses (xg_server x) -> os_accepted s = os_accepted (xg_server x) ->
  data_ok n (Exchange.with_server s x) served.
Proof.
  intros [Hm He (adm & (lq & lr & Hq) & Hc & Hg) Erq Ers Hcnt Hans Hwfr] E1 E2 E3 E4 E5 E6 E7 E8.
  split; cbn [Exchange.with_server xg_market xg_server]; try done; try congruence.
  - exists adm. rewrite E1, E2, E3, E4. split; [|by split]. exists lq, lr. by rewrite E5, E6, E7.
  - unfold pending_requests in *. rewrite E5, E6, E8. done.
  - rewrite E4, E7. done.
  - by rewrite E7.
Qed.

Lemma main_turn_ok n x served now :
  data_ok (S n) x served -> control_ok x ->
  fatal_or (λ x', data_ok n x' served /\ control_ok x') (Exchange.main_turn now x).
Proof.
  intros Hd Hc. apply data_weaken in Hd. unfold Exchange.main_turn.
  pose proof (ct_phase _ Hc) as Hph. pose proof (ct_returned _ Hc) as Hret. destruct (xg_main x) eqn:Em.
  - cbn [ends]. destruct (xg_stopping x); [|by split]. split; [by apply data_main, data_flags|].
    control Hc. split; [done|]. by apply ct_quiesced0.
  - destruct (os_quiesced (xg_server x)) eqn:Eq; [|destruct (now <? deadline); [by split|done]].
    destruct (engine_live x Hc) as (Ep & Ey & Er & En); [congruence|].
    cbn [ends]. split; [by apply data_main, data_workers|]. control Hc.
  - cbn [ends]. case_bool_decide as Ee; [|by split]. destruct (publisher_live x Hc) as (Ey & Er & En); [congruence|].
    split; [by apply data_main, data_workers|]. control Hc.
  - cbn [ends]. case_bool_decide as Ee; [|by split]. destruct (synth_live x Hc) as (Er & En); [congruence|].
    split; [by apply data_main, data_workers|]. control Hc.
  - cbn [ends]. case_bool_decide as Ee; [|by split]. pose proof (network_live x Hc Hph) as En.
    split; [by apply data_main, data_flags|]. control Hc. split; [done|]. by apply ct_quiesced0.
  - cbn [ends]. destruct (xg_network_ended x) eqn:En; [|by split]. split; [by apply data_main|]. control Hc.
  - by split.
Qed.
End Threads.

(** ** Runs *)
Section Runs.
Context (pk sk : Kernel) (period : Z) (connections : nat -> TcpKernel) (capacity : nat).
Context (Hk : forall id, kernel_ok (connections id)).

Lemma exchange_step_ok n st op :
  data_ok (S n) st.1 st.2 -> control_ok st.1 ->
  fatal_or (λ st', data_ok n st'.1 st'.2 /\ control_ok st'.1) (Exchange.step pk sk period connections capacity st op).
Proof.
  intros Hd Hc. destruct st as [x served]. cbn [fst snd] in *.
  destruct op as [|now| |now|now now'|now events accepts]; cbn [Exchange.step].
  - cbn [ends fst snd]. split; [destruct (data_weaken _ _ _ Hd); by split|destruct Hc; by split].
  - eapply ends_bind; [by apply main_turn_ok|]. done.
  - eapply ends_bind; [by apply engine_turn_ok|]. by intros [r x'].
  - eapply ends_bind; [by apply publisher_turn_ok|]. done.
  - eapply ends_bind; [by apply synth_turn_ok|]. done.
  - eapply ends_bind; [by apply network_turn_ok|]. done.
Qed.

Lemma exchange_run_ok n ops st :
  data_ok (length ops + n) st.1 st.2 -> control_ok st.1 ->
  fatal_or (λ st', data_ok n st'.1 st'.2 /\ control_ok st'.1)
    (res_fold (Exchange.step pk sk period connections capacity) ops st).
Proof.
  revert st. induction ops as [|op ops IH]; intros st Hd Hc; cbn [res_fold length Nat.add] in *; [done|].
  eapply ends_bind; [by apply (exchange_step_ok (length ops + n))|]. intros st' [Hd' Hc']. by apply IH.
Qed.
End Runs.

Lemma exchange_make_ok pool queue rq rs up au x n :
  Exchange.make_sized orders levels pool queue cycle0 rq rs up au = Some x ->
  0 <= pool -> queue_ok rq [] -> queue_ok rs [] -> queue_ok up [] ->
  (2 * orders + 1) * Z.of_nat n < 2 ^ 64 - 2 -> 0 <= cycle0 -> cycle0 + Z.of_nat n < 2 ^ 64 ->
  data_ok n x [] /\ control_ok x.
Proof.
  intros Hm Hpool Hrq Hrs Hup Hroom Hc Hcr. unfold Exchange.make_sized in Hm.
  destruct (ExchangeMarket.make_sized _ _ _ _ _ _ _ _ _) as [m|] eqn:Em; [|done]. injection Hm as <-.
  pose proof (market_make_ok orders levels Horders Hlevels pool queue cycle0 rq rs up au m n Em Hpool
    (queue_ok_exists _ _ Hrs) Hup Hroom Hc Hcr) as Hok.
  unfold ExchangeMarket.make_sized in Em.
  destruct (MatchingEngine.make_sized orders levels rq rs up au) as [e|] eqn:Ee; [|done]. cbn [mbind option_bind] in Em.
  destruct (MarketDataPublisher.make_sized queue up) as [p|]; [|done]. cbn [mbind option_bind] in Em.
  destruct (SnapshotSynthesizer.make_sized _ _ _) as [y|]; [|done]. cbn [mbind option_bind] in Em. injection Em as <-.
  destruct (make_ok orders levels rq rs up au e Horders Hlevels (queue_ok_exists _ _ Hrs) (queue_ok_exists _ _ Hup) Ee) as [He _].
  assert (Eq : me_requests e = rq /\ me_responses e = rs).
  { unfold MatchingEngine.make_sized in Ee. destruct (mapM _ _); [|done]. by injection Ee as <-. }
  destruct Eq as [E1 E2]. split; [|by split].
  split; cbn [xg_market xg_server xm_engine]; try done.
  - by eexists _, _.
  - by apply start_server_ok.
  - intros lq Hlq. rewrite (queue_contents_unique _ _ _ Hlq Hrq). by split; [constructor|].
  - intros lr Hlr. rewrite (queue_contents_unique _ _ _ Hlr Hrs). constructor.
Qed.
End Exchange.

(** ** The shutdown *)

(** What is true when [main] returns, of the requests that the engine served. *)
Record nothing_lost (x : Exchange) (served : list MEClientRequest) : Prop := {
  (* every admitted request has been served, in particular none waits *)
  nl_counted : u64 (os_accepted (xg_server x)) = u64 (Z.of_nat (length served));
  nl_requests : queue_ok (os_requests (xg_server x)) [] /\ pending_client_requests (os_sequencer (xg_server x)) = [];
  (* those that change a book only once *)
  nl_once : Forall (λ c, Z.of_nat (length (ts_wire c) + length served) < 2 ^ 64 - 2) (os_sockets (xg_server x)) ->
    NoDup (request_key <$> filter has_effect served);
  (* each was answered, and the kernel has taken the answer *)
  nl_answered : Forall (λ r, exists a id c before number epoch after,
    rs_client_id a = rq_client_id r /\ rs_client_order_id a = rq_order_id r /\
    os_sockets (xg_server x) !! id = Some c /\
    ts_wire c = before ++ encode_response (mkOMResponse number a epoch) ++ after) served;
  (* no response waits *)
  nl_responses : queue_ok (os_responses (xg_server x)) [] /\
    Forall (λ c, TCPSocket.unsent c = []) (os_sockets (xg_server x));
  (* the datagrams hold all updates with their numbers, and lead to the books *)
  nl_updates : exists us final, replay_all us MarketRecovery.no_orders = Some final /\
    exchange_lists (xg_market x) final /\
    bytes_of (mc_wire (pb_socket (xm_publisher (xg_market x)))) = bytes_of (encode_market <$> increments 0 us) /\
    mc_outbound (pb_socket (xm_publisher (xg_market x))) = [] /\
    sn_last_inc_seq_num (xm_synth (xg_market x)) = Z.of_nat (length us)
}.

Lemma bytes_of_groups (groups : list (list (list Z))) : bytes_of (bytes_of <$> groups) = bytes_of (frames_of groups).
Proof. induction groups as [|g groups IH]; [done|]. cbn. by rewrite concat_app, <- IH. Qed.

(** An empty buffer: all bytes are on the wire. *)
Lemma all_on_wire socket frames :
  McastSocket.mc_ok socket frames -> mc_outbound socket = [] -> bytes_of (mc_wire socket) = bytes_of frames.
Proof.
  intros [(groups & last & Hw & Ho & ->) _ _] E. rewrite Hw, bytes_of_groups, concat_app, <- Ho, E. by rewrite app_nil_r.
Qed.

Lemma returned_nothing_lost orders levels cycle0 n x served :
  0 <= orders -> data_ok orders levels cycle0 n x served -> control_ok x -> xg_main x = Returned -> nothing_lost x served.
Proof.
  intros Ho Hd Hc Hr.
  pose proof (ct_network_end _ Hc (ct_returned _ Hc Hr)) as (Hrun & Hlr & Hsent).
  pose proof (ct_server_stop _ Hc Hrun) as Ey. pose proof (ct_synth_stop _ Hc ltac:(congruence)) as Ep.
  pose proof (ct_publisher_stop _ Hc ltac:(congruence)) as Ee. pose proof (ct_engine_end _ Hc Ee) as Hlq.
  destruct (ct_quiesced _ Hc (ct_engine_stop _ Hc ltac:(congruence))) as [_ Hpend].
  assert (Hp : pending_client_requests (os_sequencer (xg_server x)) = []) by (by eapply map_eq_nil).
  assert (Hwire : forall id c, os_sockets (xg_server x) !! id = Some c -> accepted_bytes c = ts_wire c).
  { intros id c Hx. unfold accepted_bytes. rewrite (Forall_lookup_1 _ _ _ _ Hsent Hx). apply app_nil_r. }
  split.
  - destruct (da_counted _ _ _ _ _ _ Hd [] Hlq) as [_ E]. rewrite E, Hpend. do 3 f_equal. apply app_nil_r.
  - done.
  - intros Hb. destruct (da_server _ _ _ _ _ _ Hd) as (adm & (lq & lr & Hlq' & _ & _ & Hadm) & _ & Hg).
    rewrite (queue_contents_unique _ _ _ Hlq' Hlq), Hp, app_nil_r in Hadm. rewrite <- Hadm. apply Hg.
    unfold bounded. apply Forall_lookup. intros id c Hx. rewrite (Hwire id c Hx), Hadm.
    by apply (Forall_lookup_1 _ _ _ _ Hb Hx).
  - eapply Forall_impl; [exact (da_answered _ _ _ _ _ _ Hd [] Hlr)|].
    intros r (a & [H1 H2] & [Hin|(id & c & before & k & e & after & Hx & E)]); [by apply elem_of_nil in Hin|].
    exists a, id, c, before, k, e, after. rewrite <- (Hwire id c Hx). by split_and!.
  - done.
  - destruct (da_market _ _ _ _ _ _ Hd) as (g & views & Hm). pose proof (mk_publisher _ _ _ _ _ _ _ Hm) as [Hw Hf Hs].
    pose proof (queue_contents_unique _ _ _ Hw (ct_publisher_rest _ Hc ltac:(congruence) ltac:(congruence))) as Ew.
    rewrite <- (mk_forwarded _ _ _ _ _ _ _ Hm) in Hf.
    pose proof (queue_contents_unique _ _ _ Hf (ct_synth_end _ Hc Ey)) as Er.
    assert (Erest : fd_rest g = []).
    { apply (f_equal length) in Er. unfold increments in Er. rewrite length_frames_from in Er. by destruct (fd_rest g). }
    pose proof (ct_publisher_end _ Hc Ep) as Eo.
    assert (Eus : fd_updates g = fd_sent g) by (unfold fd_updates; by rewrite Ew, app_nil_r).
    exists (fd_updates g), views. split; [eapply history_replay, Hm|]. split; [eapply books_follow_lists, Hm|].
    split; [rewrite Eus; by apply all_on_wire|]. split; [done|]. rewrite (mk_last _ _ _ _ _ _ _ Hm), Eus.
    unfold fd_sent. by rewrite Erest, app_nil_r.
Qed.

(** What [main] starts, from empty queues. *)
Lemma started_parts read_json inet_pton getIfaceIP read_file getenv exe_directory sockets_open
    orders levels pool requests updates cycle args x0 period :
  exchange_main_sized read_json inet_pton getIfaceIP read_file getenv exe_directory sockets_open
    orders levels pool requests updates cycle args = Ok (Started x0 period) ->
  exists rq rs up au, Exchange.make_sized orders levels pool updates cycle rq rs up au = Some x0 /\
    queue_ok rq [] /\ queue_ok rs [] /\ queue_ok up [].
Proof.
  intros Hm. unfold exchange_main_sized in Hm.
  destruct (exchange_startup _ _ _ _ _ _) as [|[config []]]; [done..|].
  destruct (queue_new default_MEClientRequest requests) as [rq|] eqn:Erq; [|done].
  destruct (queue_new default_MEClientResponse requests) as [rs|] eqn:Ers; [|done].
  destruct (queue_new default_MEMarketUpdate updates) as [up|] eqn:Eup; [|done]. cbn [deref mbind res_bind] in Hm.
  destruct (sockets_open config); [|done]. cbn [ASSERT mbind res_bind] in Hm.
  destruct (snapshot_period _) as [period'|]; [|done]. cbn [mbind res_bind] in Hm.
  destruct (Exchange.make_sized _ _ _ _ _ _ _ _ _) as [x|] eqn:Ex; [|done]. cbn [deref mbind res_bind] in Hm.
  injection Hm as -> _. apply queue_new_ok in Erq as [Hrq _], Ers as [Hrs _], Eup as [Hup _].
  exists rq, rs, up, (Some journal_new). by split_and!.
Qed.

(** C3: an orderly shutdown loses nothing.  From the arguments of [main] on,
    however the threads of the exchange take turns, whatever its connections,
    its sockets and its clocks do, and whenever the signal is raised: either an
    ASSERT or a FATAL ends the process, or, when [main] returns, every request
    that was admitted has been served, those that change a book once, and was
    answered; the kernel has taken the answers and all other responses; the
    multicast datagrams contain every update of the books with consecutive
    numbers, and these updates lead to the final books. *)
Theorem orderly_shutdown_loses_nothing read_json inet_pton getIfaceIP read_file getenv exe_directory sockets_open
    orders levels pool requests updates cycle args x0 period pk sk connections capacity ops :
  0 <= orders -> 0 <= levels -> 0 <= pool -> (2 * orders + 1) * Z.of_nat (length ops) < 2 ^ 64 - 2 ->
  0 <= cycle -> cycle + Z.of_nat (length ops) < 2 ^ 64 -> (forall id, kernel_ok (connections id)) ->
  exchange_main_sized read_json inet_pton getIfaceIP read_file getenv exe_directory sockets_open
    orders levels pool requests updates cycle args = Ok (Started x0 period) ->
  fatal_or (λ '(x, served), xg_main x = Returned -> nothing_lost x served)
    (Exchange.run pk sk period connections capacity ops x0).
Proof.
  intros Ho Hl Hpool Hroom Hc Hcr Hk Hm.
  destruct (started_parts _ _ _ _ _ _ _ _ _ _ _ _ _ _ _ _ Hm) as (rq & rs & up & au & Ex & Hrq & Hrs & Hup).
  rewrite <- (Nat.add_0_r (length ops)) in Hroom, Hcr.
  destruct (exchange_make_ok orders levels Ho Hl cycle pool updates rq rs up au x0 _ Ex Hpool Hrq Hrs Hup Hroom Hc Hcr)
    as [Hd Hct].
  eapply ends_mono; [exact (exchange_run_ok orders levels Ho Hl cycle pk sk period connections capacity Hk 0 ops
    (x0, []) Hd Hct)|].
  intros [x' served] [Hd' Hct'] Hret.
  exact (returned_nothing_lost orders levels cycle 0 x' served Ho Hd' Hct' Hret).
Qed.

(** A run: a client sends an order; after its answer the signal is raised. *)
Definition shutdown_config : ExchangeConfig :=
  mkExchangeConfig (cc_market_data demo_config) (cc_tcp demo_config).
Definition shutdown_start : res MainResult :=
  exchange_main_sized (λ _, inr shutdown_config) demo_pton (λ _, "127.0.0.1"%string)
    (λ _, Some (EmptyString, false)) (λ _, None) "/" (λ _, true) 4 2 16 64 64 0 [].
Definition shutdown_connections (id : nat) : TcpKernel := scripted_kernel [(0%nat, demo_request NEW 1 42)].
Definition shutdown_kernel : Kernel := λ _, (SentBytes 70, NoDatagram).
Definition shutdown_ops : list ExchangeOp :=
  [NetworkTurn 0 [ListenerReady] [true]; EngineTurn; NetworkTurn 0 [] []; PublisherTurn 0; SynthTurn 0 0;
   RaiseSignal; MainTurn 0; NetworkTurn 0 [] []; MainTurn 0; EngineTurn; MainTurn 0; PublisherTurn 0;
   PublisherTurn 0; MainTurn 0; SynthTurn 0 0; MainTurn 0; NetworkTurn 0 [] []; MainTurn 0].
Definition shutdown_run (x0 : Exchange) (period : Z) : res (Exchange * list MEClientRequest) :=
  Exchange.run shutdown_kernel shutdown_kernel period shutdown_connections 400 shutdown_ops x0.

Lemma shutdown_connections_ok id : kernel_ok (shutdown_connections id).
Proof. apply scripted_kernel_ok. apply (bool_decide_unpack _). vm_compute. exact I. Qed.

Lemma orderly_shutdown_loses_nothing_witness :
  exists x0 period x served,
    shutdown_start = Ok (Started x0 period) /\ shutdown_run x0 period = Ok (x, served) /\
    xg_main x = Returned /\ (rq_order_id <$> served) = [42] /\ nothing_lost x served.
Proof.
  assert (Hd : match shutdown_start with
    | Ok (Started x0 period) => match shutdown_run x0 period with
        | Ok (x, served) => xg_main x = Returned /\ (rq_order_id <$> served) = [42]
        | Err _ => False end
    | _ => False end) by (vm_compute; split; reflexivity).
  destruct shutdown_start as [[n|x0 period]|] eqn:E; [done| |done].
  unfold shutdown_start in E.
  pose proof (orderly_shutdown_loses_nothing _ _ _ _ _ _ _ 4 2 16 64 64 0 [] x0 period shutdown_kernel shutdown_kernel
    shutdown_connections 400 shutdown_ops ltac:(lia) ltac:(lia) ltac:(lia) ltac:(cbn; lia) ltac:(lia) ltac:(cbn; lia)
    shutdown_connections_ok E) as H.
  fold (shutdown_run x0 period) in H.
  destruct (shutdown_run x0 period) as [[x served]|] eqn:Er; [|done]. destruct Hd as [Hr Hs].
  exists x0, period, x, served. split_and!; [done|done|done|done|exact (H Hr)].
Defined.
