(* ===== verification/OrderSessionEndToEnd.v ===== *)
(** An order session from end to end: the gateway of a client, the network, and
    the exchange program with its threads.  The network is a reliable stream in
    each direction: a side has received a prefix of what the other has sent. *)
From S2P Require Import Prelude.
From S2P Require Import Types.
From S2P Require Import Wire.
From S2P Require Import LFQueue.
From S2P Require Import Journal.
From S2P Require Import MatchBook.
From S2P Require Import MatchingEngine.
From S2P Require Import FIFOSequencer.
From S2P Require Import TcpSocket.
From S2P Require Import OrderGateway.
From S2P Require Import OrderServer.
From S2P Require Import ServerTheorems.
From S2P Require Import ServerDelivery.
From S2P Require Import Config.
From S2P Require Import ConfigTheorems.
From S2P Require Import McastSocket.
From S2P Require Import Snapshot.
From S2P Require Import Publisher.
From S2P Require Import ExchangeMarket.
From S2P Require Import MarketEndToEnd.
From S2P Require Import ExchangeMain.
From S2P Require Import ExchangeMainTheorems.
From S2P Require Import GatewayTheorems.
From S2P Require Import OrderSession.
From stdpp Require Import base gmap list.
From Stdlib Require Import ZArith Lia.

Local Open Scope Z_scope.
Local Arguments encode_response : simpl never.
Local Arguments encode_request : simpl never.

(** ** The exchange keeps the session *)
Section Exchange.
Context (orders levels : Z) (Horders : 0 <= orders) (Hlevels : 0 <= levels) (cycle0 : Z).
Context (id : nat) (c epoch : Z) (G : list OMClientRequest).
Hypothesis Hc : 0 <= c < ME_MAX_NUM_CLIENTS.
Hypothesis Hepoch : epoch <> 0.
Hypothesis Hfits : is_u64 epoch.
Hypothesis Hframes : forall k q, G !! k = Some q -> client_frame c epoch k q.

Notation holds := (ends (λ _, True)).
Notation session served s := (server_session id c epoch G served s).

(** The tables and the connections are the same. *)
Lemma session_same served s s' :
  session served s -> os_sessions s' = os_sessions s -> os_clients s' = os_clients s ->
  os_anonymous s' = os_anonymous s -> os_sockets s' = os_sockets s -> os_sequencer s' = os_sequencer s ->
  os_requests s' = os_requests s -> os_responses s' = os_responses s -> session served s'.
Proof.
  intros [Hs Hok] E1 E2 E3 E4 E5 E6 E7. split; [by rewrite E4|]. unfold session_ok. rewrite E4. intros Hh.
  destruct (Hok Hh) as (k & rs & [F1 F2 F3 F4 F5 F6 F7 F8 F9]). exists k, rs. split; rewrite ?E4, ?E6, ?E7; try done.
  - by eapply session_tables.
  - unfold clients_ok. by rewrite E2.
  - unfold pending_requests. by rewrite E5.
Qed.

(** A request moves from the queue to those served; its responses are queued. *)
Lemma session_served served s e r lq lr rs :
  session served s -> queue_ok (os_requests s) (r :: lq) -> queue_ok (me_requests e) lq ->
  queue_ok (os_responses s) lr -> queue_ok (me_responses e) (lr ++ rs) ->
  (exists a, a ∈ rs /\ addressed (rq_client_id r, rq_order_id r) a) ->
  session (served ++ [r]) (Exchange.from_engine e s).
Proof.
  intros [Hs Hok] Hlq Hlq' Hlr Hlr' (a & Ha & Hka). split; [exact Hs|]. intros Hh.
  destruct (Hok Hh) as (k & fs & [F1 F2 F3 F4 F5 F6 F7 F8 F9]). exists k, fs. split; try done.
  - by eapply session_tables.
  - intros l Hl. cbn in Hl. rewrite (queue_contents_unique _ _ _ Hl Hlq'), <- app_assoc. exact (F7 _ Hlq).
  - intros l Hl. cbn in Hl. rewrite (queue_contents_unique _ _ _ Hl Hlr'). apply Forall_app. split.
    + eapply Forall_impl; [exact (F8 _ Hlr)|]. intros q Hq Hcl. destruct (Hq Hcl) as (b & Hb & [Hin|Hin]);
        (exists b; split; [done|]); [left; apply elem_of_app; by left|by right].
    + apply Forall_singleton. intros Hcl. exists a. rewrite <- Hcl. split; [done|left]. apply elem_of_app. by right.
Qed.

Lemma session_engine n x served :
  data_ok orders levels cycle0 (S n) x served -> session served (xg_server x) ->
  holds (λ '(r, x'), session (served ++ option_list r) (xg_server x')) (Exchange.engine_turn x).
Proof.
  intros Hd Hs. unfold Exchange.engine_turn.
  destruct (server_queues _ _ (da_server _ _ _ _ _ _ Hd)) as (lq & lr & Hlq & Hlr).
  assert (Hturn : holds (λ '(r, x'), session (served ++ option_list r) (xg_server x'))
    (head ← peek (me_requests (xm_engine (xg_market x)));
     match head with
     | None => Ok (None, if bool_decide (xg_engine x = Running) then x else Exchange.engine_is Ended x)
     | Some r => e ← MatchingEngine.run_once (xm_engine (xg_market x)); Ok (Some r, Exchange.set_engine e x)
     end)).
  { pose proof (da_requests _ _ _ _ _ _ Hd) as Erq. rewrite Erq, (peek_ok _ _ Hlq). cbn [mbind res_bind].
    destruct lq as [|r lq]; cbn [head].
    { cbn [ends option_list]. rewrite app_nil_r. by case_bool_decide. }
    unfold MatchingEngine.run_once. rewrite Erq, (peek_ok _ _ Hlq). cbn [mbind res_bind head].
    destruct (da_counted _ _ _ _ _ _ Hd _ Hlq) as [Hwf _]. apply Forall_cons in Hwf as [Hr _].
    destruct (da_market _ _ _ _ _ _ Hd) as (g & views & Hm). pose proof (market_updates _ _ _ _ _ _ _ Hm) as Hup.
    assert (Hlr0 : queue_ok (me_responses (xm_engine (xg_market x))) lr) by (by rewrite (da_responses _ _ _ _ _ _ Hd)).
    pose proof (process_adds _ r lr _ (da_engine _ _ _ _ _ _ Hd) Hr Hlr0 Hup) as Hadd.
    pose proof (process_keeps_requests r (xm_engine (xg_market x))) as Hkeep.
    destruct (MatchingEngine.processClientRequest r (xm_engine (xg_market x))) as [e|f]; [|done].
    destruct Hadd as (_ & rs & us & _ & Hans & Hlr' & _).
    destruct (pop_ok _ _ Hlq) as (q & Eq & Hq & _). cbn [mbind res_bind].
    rewrite (Hkeep e eq_refl), Erq, Eq. cbn [mbind res_bind ends option_list].
    by apply (session_served served _ (MatchingEngine.with_requests q e) r lq lr rs). }
  destruct (xg_engine x); [exact Hturn|exact Hturn|]. cbn. by rewrite app_nil_r.
Qed.

Section Threads.
Context (pk sk : Kernel) (period : Z) (connections : nat -> TcpKernel) (capacity : nat).
Context (Hk : forall i, kernel_ok (connections i)).

Lemma server_published x : holds (λ x', xg_server x' = xg_server x) (Exchange.publish pk sk period x).
Proof. unfold Exchange.publish. by destruct (ExchangeMarket.step _ _ _ _ _). Qed.

Lemma server_synthesized now now' x : holds (λ x', xg_server x' = xg_server x) (Exchange.synthesize pk sk period now now' x).
Proof. unfold Exchange.synthesize. by destruct (ExchangeMarket.step _ _ _ _ _). Qed.

Lemma publisher_server now x : holds (λ x', xg_server x' = xg_server x) (Exchange.publisher_turn pk sk period now x).
Proof.
  unfold Exchange.publisher_turn. destruct (xg_publisher x); [apply server_published| | |done].
  - destruct (peek _) as [[u|]|]; cbn [mbind res_bind]; [apply server_published|done|done].
  - destruct (mc_outbound _); [done|]. destruct (ASSERT _) as [[]|]; [|done]. cbn [mbind res_bind].
    by destruct (McastSocket.sendAndRecv _ _) as [[]|].
Qed.

Lemma synth_server now now' x : holds (λ x', xg_server x' = xg_server x) (Exchange.synth_turn pk sk period now now' x).
Proof.
  unfold Exchange.synth_turn. destruct (xg_synth x); [apply server_synthesized| |done].
  destruct (peek _) as [[u|]|]; cbn [mbind res_bind]; [apply server_synthesized| |done].
  by destruct (SnapshotSynthesizer.publishSnapshot _ _).
Qed.

Lemma session_main served now x :
  session served (xg_server x) -> holds (λ x', session served (xg_server x')) (Exchange.main_turn now x).
Proof.
  intros Hs. unfold Exchange.main_turn. destruct (xg_main x); cbn [ends].
  - destruct (xg_stopping x); [|done]. by eapply session_same.
  - destruct (os_quiesced _); [done|]. by destruct (ASSERT _).
  - by case_bool_decide.
  - by case_bool_decide.
  - case_bool_decide; [|done]. by eapply session_same.
  - by destruct (xg_network_ended x).
  - done.
Qed.

Lemma session_step n st op :
  data_ok orders levels cycle0 (S n) st.1 st.2 -> session st.2 (xg_server st.1) ->
  holds (λ st', session st'.2 (xg_server st'.1)) (Exchange.step pk sk period connections capacity st op).
Proof.
  intros Hd Hs. destruct st as [x served]. cbn [fst snd] in *.
  destruct op as [|now| |now|now now'|now events accepts]; cbn [Exchange.step].
  - exact Hs.
  - eapply ends_bind; [by apply session_main|]. done.
  - eapply ends_bind; [by apply (session_engine n)|]. by intros [r x'].
  - eapply ends_bind; [apply publisher_server|]. intros x' E. cbn. by rewrite E.
  - eapply ends_bind; [apply synth_server|]. intros x' E. cbn. by rewrite E.
  - unfold Exchange.network_turn. destruct (xg_network_ended x); [exact Hs|].
    destruct (OrderServer.goes_on (xg_server x)) as [[]|]; cbn [mbind res_bind negb]; [|exact Hs|done].
    destruct (server_queues _ _ (da_server _ _ _ _ _ _ Hd)) as (lq & lr & Hlq & Hlr).
    pose proof (session_turn id c epoch G Hc Hepoch Hfits Hframes connections capacity Hk served now events accepts
      (xg_server x) Hs (ex_intro _ lq Hlq) (ex_intro _ lr (conj Hlr (da_responses_wf _ _ _ _ _ _ Hd _ Hlr)))) as Ht.
    destruct (OrderServer.run_iteration _ _ _ _ _ _) as [s|]; [|done]. exact Ht.
Qed.

Lemma session_run n ops st :
  data_ok orders levels cycle0 (length ops + n) st.1 st.2 -> control_ok st.1 -> session st.2 (xg_server st.1) ->
  holds (λ st', session st'.2 (xg_server st'.1)) (res_fold (Exchange.step pk sk period connections capacity) ops st).
Proof.
  revert st. induction ops as [|op ops IH]; intros st Hd Hct Hs; cbn [res_fold length Nat.add] in *; [done|].
  pose proof (session_step _ _ op Hd Hs) as H1.
  pose proof (exchange_step_ok orders levels Horders Hlevels cycle0 pk sk period connections capacity Hk
    (length ops + n) st op Hd Hct) as H2.
  destruct (Exchange.step _ _ _ _ _ st op) as [st'|]; [|done]. cbn [mbind res_bind ends] in *.
  destruct H2 as [Hd' Hc']. by apply IH.
Qed.
End Threads.

Lemma session_start rq rs au :
  queue_ok rq [] -> queue_ok rs [] -> session [] (OrderServer.start (OrderServer.make rq rs au)).
Proof.
  intros Hrq Hrs. split; [constructor|]. intros _. exists 0%nat, []. split; try done.
  - split.
    + exists OrderServer.fresh_session. split; [|by split_and!]. apply lookup_replicate.
      unfold ME_MAX_NUM_CLIENTS in *. split; [done|lia].
    + done.
    + intros d e Hd Ho. by apply lookup_replicate in Hd as [-> _].
  - cbn. lia.
  - intros lq Hlq. cbn in Hlq. by rewrite (queue_contents_unique _ _ _ Hlq Hrq).
Qed.
End Exchange.

(** ** The frames of a session *)

(** The frames of the requests [sent], as the server decodes them. *)
Definition received (epoch : Z) (sent : list MEClientRequest) : list OMClientRequest :=
  received_request <$> numbered epoch sent.

Lemma received_bytes epoch sent : request_bytes (received epoch sent) = request_bytes (numbered epoch sent).
Proof. unfold request_bytes, received. by rewrite <- list_fmap_compose. Qed.

Lemma received_frames c epoch sent k q :
  is_u64 epoch -> Forall (λ r, request_wf r /\ rq_client_id r = c) sent ->
  received epoch sent !! k = Some q -> client_frame c epoch k q.
Proof.
  intros He Hs Hq. unfold received in Hq. apply list_lookup_fmap_Some in Hq as (m & -> & Hm).
  unfold numbered in Hm. rewrite list_lookup_imap in Hm. destruct (sent !! k) as [r|] eqn:Er; [|done].
  injection Hm as <-. destruct (Forall_lookup_1 _ _ _ _ Hs Er) as [Hr Hc].
  split; [|done|exact Hc|done|unfold after; cbn; f_equal; lia].
  split; [apply is_u64_u64|]. by split.
Qed.

Lemma in_sequence_all frames next :
  omrs_seq_num <$> frames = after next <$> seq 0 (length frames) -> is_u64 next -> in_sequence next frames = frames.
Proof.
  revert next. induction frames as [|f frames IH]; intros next H Hn; [done|]. cbn [fmap list_fmap length seq] in H.
  injection H as Hf H. unfold after in Hf. rewrite Z.add_0_r, u64_small in Hf by done.
  cbn [in_sequence]. rewrite Hf, Z.eqb_refl.
  f_equal. apply IH; [|apply is_u64_u64]. rewrite H, <- fmap_S_seq, <- list_fmap_compose.
  apply list_fmap_ext. intros ???. by rewrite after_S.
Qed.

Lemma encode_response_inj f g rest rest' :
  om_response_wf f -> om_response_wf g -> encode_response f ++ rest = encode_response g ++ rest' -> f = g /\ rest = rest'.
Proof.
  intros Hf Hg E. assert (f = g) as ->.
  { pose proof (decode_encode_response f f rest Hf) as D. rewrite E, decode_encode_response in D by done. by injection D. }
  split; [done|]. by apply app_inv_head in E.
Qed.

(** Well-formed frames are determined by their bytes. *)
Lemma response_bytes_prefix frames rs rest rest' :
  Forall om_response_wf frames -> Forall om_response_wf rs -> (length frames <= length rs)%nat ->
  response_bytes frames ++ rest = response_bytes rs ++ rest' -> frames `prefix_of` rs.
Proof.
  intros Hf. revert rs. induction Hf as [|f frames Hf Hfs IH]; intros rs Hr Hl E; [apply prefix_nil|].
  destruct Hr as [|r rs Hr Hrs]; [cbn in Hl; lia|].
  change (response_bytes (f :: frames)) with (encode_response f ++ response_bytes frames) in E.
  change (response_bytes (r :: rs)) with (encode_response r ++ response_bytes rs) in E.
  rewrite <- !app_assoc in E. apply encode_response_inj in E as [-> E]; [|done|done].
  apply prefix_cons. apply IH; [done|cbn in Hl; lia|done].
Qed.

Lemma length_response_bytes l : length (response_bytes l) = (length l * ResponseSize)%nat.
Proof.
  induction l as [|q l IH]; [done|]. change (response_bytes (q :: l)) with (encode_response q ++ response_bytes l).
  rewrite length_app, encode_response_size, IH. cbn [length]. by rewrite Nat.mul_succ_l, Nat.add_comm.
Qed.

Lemma received_prefix frames rs rest :
  Forall om_response_wf frames -> Forall om_response_wf rs ->
  response_bytes frames ++ rest `prefix_of` response_bytes rs -> frames `prefix_of` rs.
Proof.
  intros Hf Hr [more E]. apply (response_bytes_prefix _ _ (rest ++ more) []); [done|done| |].
  - apply (f_equal length) in E. rewrite !length_app, !length_response_bytes in E. unfold ResponseSize in *. lia.
  - by rewrite app_nil_r, E, app_assoc.
Qed.

(** ** From end to end *)

(** The network between the connection [id] of the server, with the socket [y],
    and the gateway: each side has received a prefix of what the kernel of the
    other took; no other connection sends frames with the client's number. *)
Record reliable (c : Z) (id : nat) (socks : list TCPSocket) (y g : TCPSocket) : Prop := {
  rl_server : socks !! id = Some y;
  rl_up : ts_stream y `prefix_of` ts_wire g;
  rl_down : ts_stream g `prefix_of` ts_wire y;
  rl_others j z : j <> id -> socks !! j = Some z -> foreign c (ts_stream z)
}.

(** The session of a client: of the requests submitted to its gateway, [sent]
    have gone out; the server has handled the frames of the first [k] and has
    written [rs]; the gateway has read [frames]; [lq] and [lr] wait in the
    queues of the exchange. *)
Record session_kept (c epoch : Z) (x : Exchange) (served : list MEClientRequest) (y : TCPSocket) (st : GatewayRun)
    (sent : list MEClientRequest) (k : nat) (lq : list MEClientRequest) (lr : list MEClientResponse)
    (rs frames : list OMClientResponse) : Prop := {
  (* in the order of submission *)
  sk_sent : exists waiting, gr_submitted st = sent ++ waiting /\ queue_ok (og_requests (gr_gateway st)) waiting;
  sk_handled : (k <= length sent)%nat /\ ts_stream y = request_bytes (take k (received epoch sent)) ++ ts_inbound y;
  (* every valid request is served or waits, once; every other one is rejected *)
  sk_admitted : queue_ok (os_requests (xg_server x)) lq /\
    mine c (served ++ lq ++ pending_requests (xg_server x)) ≡ₚ admitted (take k (received epoch sent));
  sk_settled : Forall (settled rs) (take k (received epoch sent));
  (* every request served has its answer, and the answers are numbered from 1 *)
  sk_answered : queue_ok (os_responses (xg_server x)) lr /\ Forall (has_answer c lr rs) served;
  sk_replies : replies c epoch y rs;
  (* the gateway hands out the first of them, in this order *)
  sk_received : ts_stream (gr_socket st) = response_bytes frames ++ ts_inbound (gr_socket st) /\ frames `prefix_of` rs;
  sk_handed : exists queued, queue_ok (og_responses (gr_gateway st)) queued /\
    gr_popped st ++ queued = omrs_response <$> frames;
  (* all of them, once the network has delivered all *)
  sk_complete : accepted_bytes y = ts_stream (gr_socket st) -> ts_inbound (gr_socket st) = [] -> frames = rs;
  (* after [main] has returned nothing waits in the exchange *)
  sk_returned : xg_main x = Returned ->
    lq = [] /\ pending_requests (xg_server x) = [] /\ lr = [] /\ TCPSocket.unsent y = []
}.

Lemma session_conclusion orders levels cycle0 n x served id c epoch y st sent waiting :
  data_ok orders levels cycle0 n x served -> control_ok x ->
  server_session id c epoch (received epoch sent) served (xg_server x) -> gr_ok c epoch st ->
  queue_ok (og_requests (gr_gateway st)) waiting -> gr_submitted st = sent ++ waiting ->
  accepted_bytes (gr_socket st) = request_bytes (numbered epoch sent) ->
  reliable c id (os_sockets (xg_server x)) y (gr_socket st) ->
  exists k lq lr rs frames, session_kept c epoch x served y st sent k lq lr rs frames.
Proof.
  intros Hd Hct [_ Hs] Hg Hw Hsub Hb [Hy Hup Hdown Hother].
  assert (Hh : honest id c (received epoch sent) (os_sockets (xg_server x))).
  { split; [|exact Hother]. intros z Hz. rewrite Hy in Hz. injection Hz as <-. rewrite received_bytes, <- Hb.
    etrans; [exact Hup|]. by eexists. }
  destruct (Hs Hh) as (k & rs & [F1 F2 F3 F4 F5 F6 F7 F8 F9]). destruct (F4 y Hy) as [Hr Hown].
  destruct (server_queues _ _ (da_server _ _ _ _ _ _ Hd)) as (lq & lr & Hlq & Hlr).
  destruct Hg as [_ _ _ _ (frames & Hf & [(queued & Hq & Hp) _ Hfown _])]. cbn [fst snd] in *.
  assert (Hdown' : response_bytes frames ++ ts_inbound (gr_socket st) `prefix_of` response_bytes rs).
  { rewrite <- Hf, <- (rp_bytes _ _ _ _ Hr). etrans; [exact Hdown|]. by eexists. }
  assert (Hwr : Forall om_response_wf rs) by (eapply Forall_impl; [exact (rp_wf _ _ _ _ Hr)|]; by intros ? []).
  assert (Hpre : frames `prefix_of` rs).
  { eapply received_prefix; [|done|exact Hdown']. eapply Forall_impl; [exact Hfown|]. by intros ? (_ & _ & ?). }
  assert (Eseq : in_sequence 1 frames = frames).
  { apply in_sequence_all; [|done]. destruct Hpre as [more ->]. pose proof (rp_numbers _ _ _ _ Hr) as E.
    apply (f_equal (take (length frames))) in E. unfold first_numbers in E.
    rewrite fmap_app, take_app_length' in E by (by rewrite length_fmap). rewrite E, <- fmap_take, take_seq, length_app.
    do 2 f_equal. lia. }
  exists k, lq, lr, rs, frames. split; try done.
  - by exists waiting.
  - unfold received, numbered in F2. by rewrite length_fmap, length_imap in F2.
  - split; [done|by apply F7].
  - split; [done|by apply F8].
  - exists queued. by rewrite Hp, Eseq.
  - intros Eall Enil. destruct Hpre as [more ->]. rewrite Hf, Enil, app_nil_r, (rp_bytes _ _ _ _ Hr), response_bytes_app in Eall.
    apply (f_equal length) in Eall. rewrite length_app, !length_response_bytes in Eall. unfold ResponseSize in Eall.
    destruct more; [by rewrite app_nil_r|cbn in Eall; lia].
  - intros Hret. pose proof (ct_network_end _ Hct (ct_returned _ Hct Hret)) as (Hrun & Hlr0 & Hsent).
    pose proof (ct_server_stop _ Hct Hrun) as Ey. pose proof (ct_synth_stop _ Hct ltac:(congruence)) as Ep.
    pose proof (ct_publisher_stop _ Hct ltac:(congruence)) as Ee.
    rewrite (queue_contents_unique _ _ _ Hlq (ct_engine_end _ Hct Ee)), (queue_contents_unique _ _ _ Hlr Hlr0).
    destruct (ct_quiesced _ Hct (ct_engine_stop _ Hct ltac:(congruence))) as [_ Hpend].
    split_and!; [done|exact Hpend|done|]. by apply (Forall_lookup_1 _ _ _ _ Hsent Hy).
Qed.

(** C2: an order session from end to end.  The gateway of a client, driven in
    any way, and the exchange program, with its threads in any order, are joined
    by a reliable network; no other connection uses the number of the client.
    Unless an ASSERT or a FATAL ends the exchange: its order server admits, of
    the requests in the order of submission, exactly the valid ones, each once:
    each is served by the engine or waits, and every other one is rejected with
    the reason of the validation; each request that was served has its answer;
    the answers to the client are numbered 1, 2, ...; the trade engine of the
    client is handed the first of them, in this order and without a gap, and all
    of them once they have been received; and when [main] has returned, nothing
    of the session waits in the exchange. *)
Theorem order_session_end_to_end read_json inet_pton getIfaceIP read_file getenv exe_directory sockets_open
    orders levels pool requests updates cycle args x0 period pk sk connections capacity ops
    kernel capacity_g client epoch gr gs st0 gops id :
  0 <= orders -> 0 <= levels -> 0 <= pool -> (2 * orders + 1) * Z.of_nat (length ops) < 2 ^ 64 - 2 ->
  0 <= cycle -> cycle + Z.of_nat (length ops) < 2 ^ 64 -> (forall i, kernel_ok (connections i)) ->
  exchange_main_sized read_json inet_pton getIfaceIP read_file getenv exe_directory sockets_open
    orders levels pool requests updates cycle args = Ok (Started x0 period) ->
  kernel_ok kernel -> gateway_start capacity_g client epoch gr gs = Ok st0 -> queue_ok gr [] -> queue_ok gs [] ->
  0 <= client < ME_MAX_NUM_CLIENTS -> epoch <> 0 -> is_u64 epoch ->
  exists st, res_fold (gateway_step kernel) gops st0 = Ok st /\
    (Forall (λ r, request_wf r /\ rq_client_id r = client) (gr_submitted st) ->
     fatal_or (λ '(x, served), forall y, reliable client id (os_sockets (xg_server x)) y (gr_socket st) ->
         exists sent k lq lr rs frames, session_kept client epoch x served y st sent k lq lr rs frames)
       (Exchange.run pk sk period connections capacity ops x0)).
Proof.
  intros Ho Hl Hpool Hroom Hc Hcr Hk Hm Hkg Hst0 Hgr Hgs Hcl Hep Hfit.
  destruct (proj1 (always_Ok _ _) (gateway_run_ok kernel gops st0 client epoch gr gs capacity_g Hkg Hst0 Hgr Hgs))
    as (st & Est & Hg).
  exists st. split; [exact Est|]. intros Hsub. destruct (gw_sent _ _ _ _ _ Hg) as (sent & waiting & Hw & Es & Hb & _).
  rewrite Es in Hsub. apply Forall_app in Hsub as [Hsent _].
  pose proof (fun k q => received_frames client epoch sent k q Hfit Hsent) as Hframes.
  destruct (started_parts _ _ _ _ _ _ _ _ _ _ _ _ _ _ _ _ Hm) as (rq & rs & up & au & Ex & Hrq & Hrs & Hup).
  rewrite <- (Nat.add_0_r (length ops)) in Hroom, Hcr.
  destruct (exchange_make_ok orders levels Ho Hl cycle pool updates rq rs up au x0 _ Ex Hpool Hrq Hrs Hup Hroom Hc Hcr)
    as [Hd Hct].
  assert (Hs : server_session id client epoch (received epoch sent) [] (xg_server x0)).
  { unfold Exchange.make_sized in Ex. destruct (ExchangeMarket.make_sized _ _ _ _ _ _ _ _ _); [|done].
    injection Ex as <-. by apply session_start. }
  pose proof (exchange_run_ok orders levels Ho Hl cycle pk sk period connections capacity Hk 0 ops (x0, []) Hd Hct) as H1.
  pose proof (session_run orders levels Ho Hl cycle id client epoch (received epoch sent) Hcl Hep Hfit Hframes
    pk sk period connections capacity Hk 0 ops (x0, []) Hd Hct Hs) as H2.
  unfold Exchange.run. destruct (res_fold _ ops (x0, [])) as [[x served]|f]; [|exact H1]. cbn [ends fst snd] in *.
  destruct H1 as [Hd' Hct']. intros y Hy. exists sent.
  by apply (session_conclusion orders levels cycle 0 x served id client epoch y st sent waiting).
Qed.

(** A client submits a valid order and one without a price; both answers reach
    its trade engine, then the exchange shuts down. *)
Definition session_requests : list MEClientRequest :=
  [mkRequest NEW 3 0 42 BUY 100 5 0 0; mkRequest NEW 3 0 43 BUY 0 5 0 0].
Definition session_responses : list OMClientResponse :=
  [mkOMResponse 1 (mkResponse REJECTED 3 0 43 OrderId_INVALID BUY 0 0 0 INVALID_PRICE 0 0) 77;
   mkOMResponse 2 (mkResponse ACCEPTED 3 0 42 1 BUY 100 0 5 NONE 1 0) 77].
Definition session_connections (id : nat) : TcpKernel :=
  scripted_kernel [(0%nat, request_bytes (numbered 77 session_requests))].
Definition session_exchange (x0 : Exchange) (period : Z) : res (Exchange * list MEClientRequest) :=
  Exchange.run shutdown_kernel shutdown_kernel period session_connections 400 shutdown_ops x0.
Definition session_kernel : TcpKernel := scripted_kernel [(2%nat, response_bytes session_responses)].
Definition session_ops : list GatewayOp :=
  (Submit <$> session_requests) ++ [GatewayTurn 5; GatewayTurn 6; TakeResponse; TakeResponse].

(** What the two runs computed. *)
Definition session_seen (x : Exchange) (st : GatewayRun) : Prop :=
  xg_main x = Returned /\ (rs_type <$> gr_popped st) = [REJECTED; ACCEPTED] /\ gr_submitted st = session_requests /\
  (ts_stream <$> os_sockets (xg_server x)) = [ts_wire (gr_socket st)] /\
  (ts_wire <$> os_sockets (xg_server x)) = [ts_stream (gr_socket st)].

Lemma seen_reliable x st : session_seen x st ->
  exists y, reliable 3 0 (os_sockets (xg_server x)) y (gr_socket st).
Proof.
  intros (_ & _ & _ & H1 & H2). destruct (os_sockets (xg_server x)) as [|y [|z l]]; [done| |done].
  injection H1 as E1. injection H2 as E2. exists y. split; [done|by rewrite E1|by rewrite E2|].
  intros j z Hj Hz. by apply list_lookup_singleton_Some in Hz as [-> _].
Qed.

Lemma order_session_end_to_end_witness :
  exists x0 period x served gr gs st0 st y sent k lq lr rs frames,
    shutdown_start = Ok (Started x0 period) /\ session_exchange x0 period = Ok (x, served) /\
    gateway_start 400 3 77 gr gs = Ok st0 /\ res_fold (gateway_step session_kernel) session_ops st0 = Ok st /\
    session_seen x st /\ session_kept 3 77 x served y st sent k lq lr rs frames.
Proof.
  destruct (queue_new default_MEClientRequest 4) as [gr|] eqn:E1; [|by vm_compute in E1].
  destruct (queue_new default_MEClientResponse 4) as [gs|] eqn:E2; [|by vm_compute in E2].
  assert (Hd : match queue_new default_MEClientRequest 4, queue_new default_MEClientResponse 4, shutdown_start with
    | Some gr, Some gs, Ok (Started x0 period) =>
        match gateway_start 400 3 77 gr gs, session_exchange x0 period with
        | Ok st0, Ok (x, served) => match res_fold (gateway_step session_kernel) session_ops st0 with
            | Ok st => session_seen x st | Err _ => False end
        | _, _ => False end
    | _, _, _ => False end) by (vm_compute; repeat split; reflexivity).
  rewrite E1, E2 in Hd. destruct shutdown_start as [[n|x0 period]|] eqn:E; [done| |done]. unfold shutdown_start in E.
  destruct (gateway_start 400 3 77 gr gs) as [st0|] eqn:E0; [|done].
  apply queue_new_ok in E1 as [Hgr _], E2 as [Hgs _].
  destruct (order_session_end_to_end (λ _, inr shutdown_config) demo_pton (λ _, "127.0.0.1"%string)
    (λ _, Some (EmptyString, false)) (λ _, None) "/"%string (λ _, true) 4 2 16 64 64 0 [] x0 period
    shutdown_kernel shutdown_kernel session_connections 400 shutdown_ops session_kernel 400 3 77 gr gs st0 session_ops 0%nat)
    as (st & Est & H); [lia|lia|lia|cbn; lia|lia|cbn; lia| |exact E| |exact E0|exact Hgr|exact Hgs| |done|..].
  { intros i. apply scripted_kernel_ok. apply (bool_decide_unpack _). vm_compute. exact I. }
  { apply scripted_kernel_ok. apply (bool_decide_unpack _). vm_compute. exact I. }
  { unfold ME_MAX_NUM_CLIENTS. lia. }
  { unfold is_u64. lia. }
  fold (session_exchange x0 period) in H. rewrite Est in Hd.
  destruct (session_exchange x0 period) as [[x served]|] eqn:Er; [|done].
  destruct (seen_reliable x st Hd) as [y Hy]. assert (Hsub : gr_submitted st = session_requests) by apply Hd.
  destruct (H ltac:(rewrite Hsub; apply (bool_decide_unpack _); vm_compute; exact I) y Hy) as (sent & k & lq & lr & rs & frames & Hk).
  exists x0, period, x, served, gr, gs, st0, st, y, sent, k, lq, lr, rs, frames. by split_and!.
Defined.
