(* ===== verification/TradingMain.v ===== *)
(** The client program: trading/trading_main.cpp.

    Reading of the configuration, the load generator of the RANDOM mode and
    the orderly end of a run.  The other threads act on the gate of the engine
    while the main thread sleeps: their operations are arguments. *)
From S2P Require Import Prelude.
From S2P Require Import Types.
From S2P Require Import LFQueue.
From S2P Require Import Journal.
From S2P Require Import TradingTypes.
From S2P Require Import TradeGate.
From S2P Require Import TradeGateTheorems.
From S2P Require Import Config.
From stdpp Require Import base strings pretty list.
From Stdlib Require Import ZArith Lia.

Local Open Scope Z_scope.

(** The load generator: [next_order], [sent], [base] and the number of calls of [std::rand]. *)
Record Generator : Type := mkGenerator {
  next_order : Z;
  sent : list MEClientRequest;
  base : list Z;
  calls : nat
}.

Module TradingMain.

(** ** The configuration of a run *)
Definition with_client (client : Z) (type : string) (c : ClientConfig) : ClientConfig :=
  let s := cc_strategy c in
  mkClientConfig client (cc_market_data c) (cc_tcp c)
    (mkStrategyConfig type (sc_default_parameters s) (sc_tickers s)) (cc_runtime c).

Definition with_tickers (l : list TickerStrategyConfig) (c : ClientConfig) : ClientConfig :=
  let s := cc_strategy c in
  mkClientConfig (cc_client_id c) (cc_market_data c) (cc_tcp c)
    (mkStrategyConfig (sc_type s) (sc_default_parameters s) l) (cc_runtime c).

Definition with_runtime (r : RuntimeConfig) (c : ClientConfig) : ClientConfig :=
  mkClientConfig (cc_client_id c) (cc_market_data c) (cc_tcp c) (cc_strategy c) (Some r).

(** [find_if], then [push_back] or assignment to the entry found. *)
Fixpoint set_override (ticker : Z) (parameters : StrategyParameters) (l : list TickerStrategyConfig) :
    list TickerStrategyConfig :=
  match l with
  | [] => [mkTickerStrategy ticker parameters]
  | value :: l' =>
      if ts_ticker_id value =? ticker then mkTickerStrategy ticker parameters :: l'
      else value :: set_override ticker parameters l'
  end.

Section Startup.
Context (from_chars_double : string -> option (double * string)).

(** The loop over groups of five arguments. *)
Fixpoint legacy_tickers (ticker : Z) (args : list string) (config : ClientConfig) : checked ClientConfig :=
  match args with
  | a_clip :: a_threshold :: a_size :: a_position :: a_loss :: args' =>
      clip ← unsignedSetting a_clip INT32_MAX "CLIP";
      threshold ← floatingSetting from_chars_double a_threshold "THRESH";
      size ← unsignedSetting a_size INT32_MAX "MAX_ORDER_SIZE";
      position ← unsignedSetting a_position INT32_MAX "MAX_POSITION";
      loss ← floatingSetting from_chars_double a_loss "MAX_LOSS";
      let parameters := mkParameters clip threshold (mkRuntimeRisk size position loss) in
      legacy_tickers (ticker + 1) args'
        (with_tickers (set_override ticker parameters (sc_tickers (cc_strategy config))) config)
  | _ => mret config
  end.

(** [args]: the arguments from the first positional one on. *)
Definition applyLegacyArguments (config : ClientConfig) (args : list string) : checked ClientConfig :=
  let remaining := Z.of_nat (length args) in
  if remaining =? 0 then mret config else
  if (remaining <? 2) || negb ((remaining - 2) mod 5 =? 0) || (ME_MAX_TICKERS <? (remaining - 2) / 5)
  then ConfigError ("用法：trading_main [--config 文件] [--check-config] " +:+
    "[CLIENT_ID ALGO [CLIP THRESH MAX_ORDER_SIZE MAX_POSITION MAX_LOSS] ...]") else
  match args with
  | a_client :: a_algo :: args' =>
      client ← unsignedSetting a_client (ME_MAX_NUM_CLIENTS - 1) "CLIENT_ID";
      legacy_tickers 0 args' (with_client client a_algo config)
  | _ => mret config
  end.

Context (read_json : string -> string + ClientConfig) (inet_pton : string -> option Z).
Context (getIfaceIP : string -> string) (read_file : string -> option (string * bool)).
Context (getenv : string -> option string) (exe_directory : string).

(** The [try] block of [main]; the flag is [--check-config]. *)
Definition startup (args : list string) : checked (ClientConfig * bool) :=
  let validate := ConfigDetail.validate_client inet_pton getIfaceIP in
  options ← startupOptions exe_directory args "client.json";
  startup ← ConfigDetail.load read_json validate read_file (config_path options);
  startup ← applyLegacyArguments startup (drop (Z.to_nat (first_positional options - 1)) args);
  let runtime := ClientConfig.runtimeConfig startup in
  seconds ← environmentSetting getenv "TRADE_RUN_SECONDS" (run_seconds runtime) 86400;
  orders ← environmentSetting getenv "TRADE_RANDOM_ORDERS" (random_orders runtime) 900000;
  delay ← environmentSetting getenv "TRADE_RANDOM_DELAY_US" (random_delay_us runtime) 1000000;
  let startup := with_runtime (mkRuntime seconds orders delay) startup in
  _ ← validate startup;
  mret (startup, check_only options).

End Startup.

(** ** The load generator *)

Section Random.
(** The [k]-th result of [std::rand]; it is not negative, so that [%] is [mod]. *)
Context (rand : nat -> Z) (client : Z).
(** What the other threads do in the [n]-th pause, and [active()] before the
    [n]-th order. *)
Context (env : nat -> list GateOp) (active : nat -> bool).

Definition random_start (first : nat) : Generator :=
  mkGenerator (client * 1000) [] ((λ k, 100 + rand (first + k) mod 100) <$> seq 0 8) (first + 8).

Definition random_order (s : Generator) : res (MEClientRequest * Generator) :=
  let ticker := rand (calls s) mod ME_MAX_TICKERS in
  price ← deref (base s !! Z.to_nat ticker);
  let side := if negb (rand (S (calls s)) mod 2 =? 0) then BUY else SELL in
  let request := mkRequest NEW client ticker (next_order s) side
    (price + 1 + rand (2 + calls s)%nat mod 10) (2 + rand (3 + calls s)%nat mod 100) 0 0 in
  Ok (request, mkGenerator (next_order s + 1) (sent s) (base s) (4 + calls s)).

Definition random_cancel (s : Generator) : res (MEClientRequest * Generator) :=
  cancel ← deref (sent s !! Z.to_nat (rand (calls s) mod Z.of_nat (length (sent s))));
  Ok (set_rq_type CANCEL cancel, mkGenerator (next_order s) (sent s) (base s) (S (calls s))).

(** One round of the loop; the trace has every request with the answer of
    [sendClientRequest]. *)
Definition random_round (i : nat) (s : Generator) (g : Gate) :
    res (list (MEClientRequest * bool) * Generator * Gate) :=
  '(request, s) ← random_order s;
  '(ok, g) ← Gate.sendClientRequest request g;
  let s := if ok : bool then mkGenerator (next_order s) (sent s ++ [request]) (base s) (calls s) else s in
  '(_, g) ← gate_run (env (2 * i)) g;
  '(trace, s, g) ←
    match sent s with
    | [] => Ok ([(request, ok)], s, g)
    | _ :: _ =>
        '(cancel, s) ← random_cancel s;
        '(ok', g) ← Gate.sendClientRequest cancel g;
        Ok ([(request, ok); (cancel, ok')], s, g)
    end;
  '(_, g) ← gate_run (env (2 * i + 1)) g;
  Ok (trace, s, g).

(** [count] rounds from the [i]-th on. *)
Fixpoint random_loop (count i : nat) (s : Generator) (g : Gate) :
    res (list (MEClientRequest * bool) * Gate) :=
  match count with
  | O => Ok ([], g)
  | S count =>
      if active i then
        '(trace, s, g) ← random_round i s g;
        '(rest, g) ← random_loop count (S i) s g;
        Ok (trace ++ rest, g)
      else Ok ([], g)
  end.

Definition random_mode (count : Z) (first : nat) (g : Gate) : res (list (MEClientRequest * bool) * Gate) :=
  random_loop (Z.to_nat count) 0 (random_start first) g.

End Random.

(** ** A run: from the engine's creation to the account checkpoint *)
Section Run.
Context (rand : nat -> Z) (config : ClientConfig).
(** The other threads: until the generator starts, during its pauses, until
    the end of the run, while quiescing waits and until the engine has stopped. *)
Context (before : list GateOp) (env : nat -> list GateOp) (active : nat -> bool).
Context (after : list GateOp) (pause : list GateOp) (expired : nat -> bool) (drain : list GateOp).

(** The pause of [quiesce]. *)
Definition paused (g : Gate) : Gate :=
  match gate_run pause g with
  | Ok (_, g') => g'
  | Err _ => g
  end.

(** [late]: what was admitted after quiescing. *)
Definition run (requests : LFQueue MEClientRequest) (epoch : Z) (healthy : bool) (fuel : nat)
    (account : CriticalJournal) :
    res (list (MEClientRequest * bool) * list MEClientRequest * Gate * CriticalJournal) :=
  cfg ← ClientConfig_tickerConfig config;
  let client := cc_client_id config in
  let g := Gate.make client cfg requests in
  '(_, g) ← gate_run before g;
  '(trace, g) ← (if bool_decide (ClientConfig.strategyType config = AlgoType_RANDOM)
                 then random_mode rand client env active
                        (random_orders (ClientConfig.runtimeConfig config)) 0 g
                 else Ok ([], g));
  '(_, g) ← gate_run after g;
  '(_, g) ← Gate.quiesce paused expired fuel g;
  '(late, g) ← gate_run drain g;
  '(_, g) ← gate_step g OpStopAdmitting;
  account ← Gate.writeCheckpoint epoch healthy g account;
  Ok (trace, late, g, account).
End Run.

End TradingMain.
