(* ===== verification/TradingMainTheorems.v ===== *)
(** The client program: what it accepts, what its load generator sends, and
    that a run started from an accepted configuration is safe. *)
From S2P Require Import Prelude.
From S2P Require Import Types.
From S2P Require Import Wire.
From S2P Require Import LFQueue.
From S2P Require Import Journal.
From S2P Require Import TradingTypes.
From S2P Require Import PositionKeeper.
From S2P Require Import RiskManager.
From S2P Require Import OrderManager.
From S2P Require Import Strategy.
From S2P Require Import TradeGate.
From S2P Require Import TradeGateTheorems.
From S2P Require Import Config.
From S2P Require Import ConfigTheorems.
From S2P Require Import TradingMain.
From stdpp Require Import base gmap strings pretty list.
From Stdlib Require Import ZArith Lia.

Local Open Scope Z_scope.

(** ** A configuration and the engine's configuration *)
Lemma typed_parameters c t :
  client_config_typed c -> 0 <= rr_max_position (sp_risk (parameters_of c t)).
Proof.
  intros [Hp _]. rewrite Forall_cons, Forall_fmap in Hp. destruct Hp as [Hd Hl]. unfold parameters_of.
  destruct (override t _) as [p|] eqn:E; [|done]. apply override_in in E as (x & Hx & _ & <-).
  rewrite Forall_forall in Hl. by apply (Hl x).
Qed.

Lemma lookup_tickers {A} (P : A -> Prop) (l : list A) (f : Z -> A) :
  length l = Z.to_nat ME_MAX_TICKERS ->
  (forall t, 0 <= t < ME_MAX_TICKERS -> l !! Z.to_nat t = Some (f t) /\ P (f t)) -> Forall P l.
Proof.
  intros Hlen H. apply Forall_forall. intros x [i Hi]%list_elem_of_lookup.
  pose proof (lookup_lt_Some _ _ _ Hi) as Hlt. destruct (H (Z.of_nat i)) as [E HP].
  { unfold ME_MAX_TICKERS in *. lia. }
  rewrite Nat2Z.id, Hi in E. by injection E as ->.
Qed.

(** A valid configuration gives the engine one entry per ticker, with which
    its strategy and its risk manager work. *)
Lemma engine_config_ok c :
  client_config_typed c -> tickers_ok (sc_tickers (cc_strategy c)) ->
  valid_parameters (sc_default_parameters (cc_strategy c)) ->
  exists cfg, ClientConfig_tickerConfig c = Ok cfg /\ cfg_ok cfg /\ cfgs_ok cfg /\
    forall t, known_ticker t -> cfg !! Z.to_nat t = Some (ConfigDetail.tickerConfig (parameters_of c t)).
Proof.
  intros Hty Ht Hd. destruct (tickerConfig_ok c Ht) as (cfg & H & Hlen & Hcfg).
  exists cfg. split; [done|]. split; [|split; [|done]]; (split; [done|]);
    apply (lookup_tickers _ _ (λ t, ConfigDetail.tickerConfig (parameters_of c t)) Hlen);
    intros t Hr; (split; [by apply Hcfg|]); cbn; pose proof (parameters_of_valid c t Ht Hd) as [].
  - pose proof (typed_parameters c t Hty). unfold is_u32, INT32_MAX in *. lia.
  - unfold is_u32, INT32_MAX in *. lia.
Qed.

(** The strategy that the factory creates. *)
Lemma strategy_created c cfg :
  ClientConfig.strategyType c <> AlgoType_INVALID ->
  is_Some (createStrategy (E := Gate) (ClientConfig.strategyType c) cfg).
Proof.
  unfold ClientConfig.strategyType. destruct (stringToAlgoType _); cbn; intros H; try done; by eexists.
Qed.

(** ** Overrides on the command line *)
Lemma set_override_lookup ticker p l t :
  override t (TradingMain.set_override ticker p l) = if t =? ticker then Some p else override t l.
Proof.
  induction l as [|x l IH]; cbn; [by rewrite Z.eqb_sym|].
  destruct (Z.eqb_spec (ts_ticker_id x) ticker) as [He|Hne]; cbn.
  - rewrite (Z.eqb_sym ticker t). destruct (Z.eqb_spec t ticker); [done|].
    destruct (Z.eqb_spec (ts_ticker_id x) t); [congruence|done].
  - rewrite IH. destruct (Z.eqb_spec t ticker); [|done].
    destruct (Z.eqb_spec (ts_ticker_id x) t); [congruence|done].
Qed.

Lemma set_override_params ticker p l :
  ts_parameters <$> TradingMain.set_override ticker p l ⊆ p :: (ts_parameters <$> l).
Proof.
  induction l as [|x l IH]; cbn; [done|]. destruct (_ =? _); cbn; [set_solver|].
  intros y. rewrite !elem_of_cons. intros [->|Hy]; [auto|]. apply IH in Hy. set_solver.
Qed.

Lemma set_override_ids ticker p l :
  ts_ticker_id <$> TradingMain.set_override ticker p l ⊆ ticker :: (ts_ticker_id <$> l).
Proof.
  induction l as [|x l IH]; cbn; [done|]. destruct (_ =? _); cbn; [set_solver|].
  intros y. rewrite !elem_of_cons. intros [->|Hy]; [auto|]. apply IH in Hy. set_solver.
Qed.

(** The legacy arguments keep the object well typed. *)
Lemma with_override_typed c ticker p :
  client_config_typed c -> 0 <= ticker -> 0 <= rr_max_position (sp_risk p) ->
  client_config_typed (TradingMain.with_tickers
    (TradingMain.set_override ticker p (sc_tickers (cc_strategy c))) c).
Proof.
  intros [Hp Ht] Hti Hpos. apply Forall_cons in Hp as [Hd Hl]. split; cbn.
  - constructor; [done|]. apply Forall_forall. intros q Hq%set_override_params.
    apply elem_of_cons in Hq as [->|Hq]; [done|]. rewrite Forall_forall in Hl. by apply Hl.
  - rewrite <- (Forall_fmap ts_ticker_id (λ t, 0 <= t)). apply Forall_forall. intros q Hq%set_override_ids.
    apply elem_of_cons in Hq as [->|Hq]; [done|].
    rewrite <- (Forall_fmap ts_ticker_id (λ t, 0 <= t)), Forall_forall in Ht. by apply Ht.
Qed.

Lemma unsigned_setting_range text maximum field v :
  maximum < 2 ^ 64 -> unsignedSetting text maximum field = inr v -> 0 <= v <= maximum.
Proof. intros Hm H. by apply unsignedSetting_inr in H as [? _]. Qed.

Section Startup.
Context (from_chars_double : string -> option (double * string)).

Lemma legacy_tickers_typed n : forall args ticker c c',
  (length args < n)%nat -> client_config_typed c -> 0 <= ticker ->
  TradingMain.legacy_tickers from_chars_double ticker args c = inr c' -> client_config_typed c'.
Proof.
  induction n as [|n IH]; intros args ticker c c' Hn Hc Ht H; [lia|].
  do 5 (destruct args as [|? args]; [cbn in H; by injection H as <-|]). cbn [TradingMain.legacy_tickers] in H.
  repeat (apply checked_bind_inr in H as (? & ? & H)).
  eapply IH; [|..|exact H]; [cbn in Hn; lia|apply with_override_typed; [done|done|]|lia].
  match goal with Hp : unsignedSetting _ _ "MAX_POSITION" = inr _ |- _ =>
    apply unsigned_setting_range in Hp; [cbn; lia|done] end.
Qed.

Lemma legacy_arguments_typed args c c' :
  client_config_typed c ->
  TradingMain.applyLegacyArguments from_chars_double c args = inr c' -> client_config_typed c'.
Proof.
  intros Hc H. unfold TradingMain.applyLegacyArguments in H.
  destruct (_ =? 0); [cbn in H; by injection H as <-|]. destruct (_ || _); [done|].
  destruct args as [|a [|b args]]; [cbn in H; by injection H as <-..|].
  apply checked_bind_inr in H as (client & _ & H).
  eapply legacy_tickers_typed; [|..|exact H]; [apply Nat.lt_succ_diag_r| |done].
  destruct Hc. by split.
Qed.

Context (read_json : string -> string + ClientConfig) (inet_pton : string -> option Z).
Context (getIfaceIP : string -> string) (read_file : string -> option (string * bool)).
Context (getenv : string -> option string) (exe_directory : string).

(** The JSON reader only produces objects of the type. *)
Definition reads_typed : Prop := forall buffer c, read_json buffer = inr c -> client_config_typed c.

(** Whatever the command line, the files and the environment: what [main]
    goes on with is a valid configuration. *)
Lemma startup_valid args c check :
  reads_typed ->
  TradingMain.startup from_chars_double read_json inet_pton getIfaceIP read_file getenv exe_directory
    args = inr (c, check) ->
  client_config_typed c /\ client_config_ok inet_pton getIfaceIP c.
Proof.
  intros Htyped H. unfold TradingMain.startup in H.
  apply checked_bind_inr in H as (options & _ & H). apply checked_bind_inr in H as (c1 & Hload & H).
  apply checked_bind_inr in H as (c2 & Hlegacy & H).
  do 3 (apply checked_bind_inr in H as (? & _ & H)). apply checked_seq_inr in H as [Hv H].
  injection H as <- _.
  assert (Hc1 : client_config_typed c1).
  { unfold ConfigDetail.load, ConfigDetail.parse in Hload. destruct (read_file _) as [[buffer bad]|]; [|done].
    destruct bad; [done|]. destruct (read_json _) as [|c0] eqn:E; [done|].
    destruct (ConfigDetail.validate_client _ _ c0); [done|]. injection Hload as <-. by eapply Htyped. }
  apply (legacy_arguments_typed _ _ _ Hc1) in Hlegacy.
  assert (Hty : forall r, client_config_typed (TradingMain.with_runtime r c2)) by (intros r; by destruct Hlegacy).
  split; [apply Hty|]. by apply validate_client_inr in Hv.
Qed.
End Startup.

(** ** The load generator *)

(** The [n]-th order of the generator. *)
Record generated (client : Z) (n : nat) (r : MEClientRequest) : Prop := {
  gn_type : rq_type r = NEW;
  gn_client : rq_client_id r = client;
  gn_id : rq_order_id r = client * 1000 + Z.of_nat n;
  gn_ticker : known_ticker (rq_ticker_id r);
  gn_side : rq_side r = BUY \/ rq_side r = SELL;
  gn_price : 101 <= rq_price r <= 209;
  gn_qty : 2 <= rq_qty r <= 101
}.

(** Its orders are valid as long as their ids are below the limit. *)
Lemma generated_valid client n r :
  0 < client < ME_MAX_NUM_CLIENTS -> generated client n r ->
  Wire.validate r = NONE <-> client * 1000 + Z.of_nat n < ME_MAX_ORDER_IDS.
Proof.
  intros Hc [Ht Hcl Hid Htk Hs Hp Hq]. unfold Wire.validate, known_ticker, ME_MAX_NUM_CLIENTS in *.
  rewrite Hcl, Hid. rewrite (proj2 (Z.leb_gt _ client)) by lia.
  rewrite (proj2 (Z.leb_gt _ (rq_ticker_id r))) by lia. cbn [orb].
  destruct (Z.leb_spec ME_MAX_ORDER_IDS (client * 1000 + Z.of_nat n)); [split; [done|lia]|].
  split; [done|intros _]. rewrite Ht. cbn [bool_decide].
  rewrite (proj2 (Z.eqb_neq _ 0)) by lia. unfold is_buy_or_sell, Price_INVALID, Qty_INVALID, INT32_MAX.
  rewrite (proj2 (Z.leb_gt (rq_price r) 0)), !(proj2 (Z.eqb_neq (rq_price r) _)),
    !(proj2 (Z.eqb_neq (rq_qty r) _)), (proj2 (Z.ltb_ge _ (rq_qty r))) by lia.
  by destruct Hs as [-> | ->].
Qed.

(** What a generator has tried so far, with the answers: its orders are
    numbered, a cancel repeats an order that was admitted before, and what was
    admitted is valid. *)
Record trace_ok (client : Z) (n : nat) (l : list (MEClientRequest * bool)) : Prop := {
  tr_count : length (List.filter is_new (fst <$> l)) = n;
  tr_orders i r : List.filter is_new (fst <$> l) !! i = Some r -> generated client i r;
  tr_cancels l1 r ok l2 : l = l1 ++ (r, ok) :: l2 -> rq_type r <> NEW ->
    exists r', (r', true) ∈ l1 /\ rq_type r' = NEW /\ r = set_rq_type CANCEL r';
  tr_valid r : (r, true) ∈ l -> Wire.validate r = NONE
}.

Lemma trace_order client n l r ok :
  trace_ok client n l -> generated client n r -> (ok = true -> Wire.validate r = NONE) ->
  trace_ok client (S n) (l ++ [(r, ok)]).
Proof.
  intros [Hn Ho Hc Hv] Hg Hok. pose proof (gn_type _ _ _ Hg) as Ht.
  assert (Hnew : List.filter is_new (fst <$> l ++ [(r, ok)]) = List.filter is_new (fst <$> l) ++ [r]).
  { rewrite fmap_app. cbn. rewrite List.filter_app. cbn. unfold is_new. by rewrite Ht. }
  split.
  - rewrite Hnew, length_app, Hn. cbn. lia.
  - rewrite Hnew. intros i x [Hi|[Hi Hx]]%lookup_app_Some; [by apply Ho|].
    apply list_lookup_singleton_Some in Hx as [H0 <-]. by replace i with n by lia.
  - intros l1 x b l2 E Hx. destruct l2 as [|y l2 _] using rev_ind.
    + apply app_inj_tail in E as [_ [= -> _]]. done.
    + rewrite app_comm_cons, app_assoc in E. apply app_inj_tail in E as [-> _]. by eapply Hc.
  - intros x [Hx|Hx%list_elem_of_singleton]%elem_of_app; [by apply Hv|]. injection Hx as -> <-. by apply Hok.
Qed.

Lemma trace_cancel client n l r ok :
  trace_ok client n l -> (r, true) ∈ l -> rq_type r = NEW ->
  (ok = true -> Wire.validate (set_rq_type CANCEL r) = NONE) ->
  trace_ok client n (l ++ [(set_rq_type CANCEL r, ok)]).
Proof.
  intros [Hn Ho Hc Hv] Hr Ht Hok.
  assert (Hnew : List.filter is_new (fst <$> l ++ [(set_rq_type CANCEL r, ok)]) = List.filter is_new (fst <$> l)).
  { rewrite fmap_app. cbn. rewrite List.filter_app. cbn. by rewrite app_nil_r. }
  split.
  - by rewrite Hnew.
  - by rewrite Hnew.
  - intros l1 x b l2 E Hx. destruct l2 as [|y l2 _] using rev_ind.
    + apply app_inj_tail in E as [-> [= <- _]]. by exists r.
    + rewrite app_comm_cons, app_assoc in E. apply app_inj_tail in E as [-> _]. by eapply Hc.
  - intros x [Hx|Hx%list_elem_of_singleton]%elem_of_app; [by apply Hv|]. injection Hx as -> <-. by apply Hok.
Qed.

Section Generator.
Context (rand : nat -> Z) (client : Z) (env : nat -> list GateOp) (active : nat -> bool).
Context (Henv : forall k, Forall gop_ok (env k)).

(** The generator after [n] orders, with the trace [l]. *)
Record generator_ok (n : nat) (l : list (MEClientRequest * bool)) (s : Generator) : Prop := {
  go_next : next_order s = client * 1000 + Z.of_nat n;
  go_sent r : r ∈ sent s -> (r, true) ∈ l /\ rq_type r = NEW;
  go_base t : known_ticker t -> exists p, base s !! Z.to_nat t = Some p /\ 100 <= p <= 199;
  go_trace : trace_ok client n l
}.

Lemma random_start_ok first : generator_ok 0 [] (TradingMain.random_start rand client first).
Proof.
  split; cbn [TradingMain.random_start next_order sent base].
  - lia.
  - intros r []%not_elem_of_nil.
  - intros t Ht. unfold known_ticker, ME_MAX_TICKERS in Ht. rewrite list_lookup_fmap, lookup_seq_lt by lia.
    eexists. split; [done|]. pose proof (Z.mod_pos_bound (rand (first + (0 + Z.to_nat t))) 100). lia.
  - split; cbn; try done.
    + intros [] ????; done.
    + intros r []%not_elem_of_nil.
Qed.

(** The next order. *)
Lemma random_order_ok n l s :
  generator_ok n l s -> exists r s', TradingMain.random_order rand client s = Ok (r, s') /\
    generated client n r /\ sent s' = sent s /\ base s' = base s /\
    next_order s' = client * 1000 + Z.of_nat (S n).
Proof.
  intros [Hn _ Hb _]. unfold TradingMain.random_order.
  assert (Ht : known_ticker (rand (calls s) mod ME_MAX_TICKERS)) by (apply Z.mod_pos_bound; done).
  destruct (Hb _ Ht) as (p & -> & Hp). cbn [deref mbind res_bind].
  eexists _, _. split; [reflexivity|]. cbn [sent base next_order]. split_and!; [|done|done|lia].
  split; cbn [rq_type rq_client_id rq_order_id rq_ticker_id rq_side rq_price rq_qty]; try done.
  - destruct (negb _); auto.
  - pose proof (Z.mod_pos_bound (rand (2 + calls s)%nat) 10). lia.
  - pose proof (Z.mod_pos_bound (rand (3 + calls s)%nat) 100). lia.
Qed.

(** What one call of the gate does, for the generator. *)
Lemma random_send r g l :
  gate_ok g l -> known_ticker (rq_ticker_id r) -> is_u32 (rq_qty r) ->
  exists ok g' l', Gate.sendClientRequest r g = Ok (ok, g') /\ gate_ok g' l' /\ stepped g g' /\
    (ok = true -> Wire.validate r = NONE).
Proof.
  intros Hg Ht Hq. assert (Ht0 : 0 <= rq_ticker_id r) by (unfold known_ticker in Ht; lia).
  destruct (send_ok r g l Hg Ht0 Hq) as (ok & g' & H & _ & Hv & Hg').
  destruct (sent_stepped r g l ok g' Hg Ht0 Hq H) as [Hst _]. by exists ok, g', (if ok then l ++ [r] else l).
Qed.

(** An order of the trace, to be canceled. *)
Lemma trace_member n l r :
  trace_ok client n l -> (r, true) ∈ l -> rq_type r = NEW -> known_ticker (rq_ticker_id r) /\ is_u32 (rq_qty r).
Proof.
  intros Htr Hr Ht. assert (Hin : r ∈ List.filter is_new (fst <$> l)).
  { apply list_elem_of_In, List.filter_In. split; [|unfold is_new; by rewrite Ht].
    apply list_elem_of_In, list_elem_of_fmap. by exists (r, true). }
  apply list_elem_of_lookup in Hin as [i Hi]. apply (tr_orders _ _ _ Htr) in Hi as [_ _ _ Htk _ _ Hq].
  split; [done|]. unfold is_u32. lia.
Qed.

Lemma random_cancel_ok n l s :
  generator_ok n l s -> sent s <> [] ->
  exists r s', TradingMain.random_cancel rand s = Ok (set_rq_type CANCEL r, s') /\ r ∈ sent s /\
    sent s' = sent s /\ base s' = base s /\ next_order s' = next_order s.
Proof.
  intros Hs Hne. unfold TradingMain.random_cancel.
  assert (Hlen : (0 < length (sent s))%nat) by (destruct (sent s); [done|cbn; lia]).
  pose proof (Z.mod_pos_bound (rand (calls s)) (Z.of_nat (length (sent s)))) as Hm.
  destruct (lookup_lt_is_Some_2 (sent s) (Z.to_nat (rand (calls s) mod Z.of_nat (length (sent s)))))
    as [r Hr]; [lia|]. rewrite Hr. cbn [deref mbind res_bind].
  eexists r, _. split; [reflexivity|]. split; [by eapply list_elem_of_lookup_2|done].
Qed.

(** The state after an order that was answered with [ok]. *)
Definition after_order (r : MEClientRequest) (ok : bool) (s : Generator) : Generator :=
  if ok then mkGenerator (next_order s) (sent s ++ [r]) (base s) (calls s) else s.

Lemma after_order_ok n tr s s1 r ok :
  generator_ok n tr s -> generated client n r -> (ok = true -> Wire.validate r = NONE) ->
  sent s1 = sent s -> base s1 = base s -> next_order s1 = client * 1000 + Z.of_nat (S n) ->
  generator_ok (S n) (tr ++ [(r, ok)]) (after_order r ok s1).
Proof.
  intros Hs Hgen Hv Hsent Hbase Hnext.
  assert (Htr : trace_ok client (S n) (tr ++ [(r, ok)])) by (by apply trace_order; [apply Hs| |]).
  assert (Hold : forall x, x ∈ sent s -> (x, true) ∈ tr ++ [(r, ok)] /\ rq_type x = NEW).
  { intros x Hx. destruct (go_sent _ _ _ Hs x Hx) as [? ?]. split; [apply elem_of_app; by left|done]. }
  unfold after_order. destruct ok; split; cbn [next_order sent base]; rewrite ?Hsent, ?Hbase; try done; try apply Hs.
  intros x [Hx|Hx%list_elem_of_singleton]%elem_of_app; [by apply Hold|].
  subst x. split; [apply elem_of_app; right; by left|apply Hgen].
Qed.

(** The second half of a round. *)
Definition cancel_step (first : list (MEClientRequest * bool)) (s : Generator) (g : Gate) :
    res (list (MEClientRequest * bool) * Generator * Gate) :=
  match sent s with
  | [] => Ok (first, s, g)
  | _ :: _ =>
      '(cancel, s) ← TradingMain.random_cancel rand s;
      '(ok', g) ← Gate.sendClientRequest cancel g;
      Ok (first ++ [(cancel, ok')], s, g)
  end.

Lemma cancel_step_ok n tr first s g l :
  generator_ok n (tr ++ first) s -> gate_ok g l ->
  exists t s' g' l', cancel_step first s g = Ok (t, s', g') /\
    generator_ok n (tr ++ t) s' /\ gate_ok g' l' /\ stepped g g'.
Proof.
  intros Hs Hg. unfold cancel_step. destruct (sent s) as [|x0 xs] eqn:Es; [by exists first, s, g, l|].
  destruct (random_cancel_ok _ _ _ Hs ltac:(by rewrite Es)) as (x & s3 & -> & Hx & E1 & E2 & E3).
  destruct (go_sent _ _ _ Hs x Hx) as [Hin Hnew].
  destruct (trace_member _ _ _ (go_trace _ _ _ Hs) Hin Hnew) as [Htk Hq]. cbn [mbind res_bind].
  destruct (random_send (set_rq_type CANCEL x) g _ Hg Htk Hq) as (ok' & g3 & l3 & -> & Hg3 & Hst3 & Hv3).
  cbn [mbind res_bind]. eexists _, s3, g3, l3. split; [reflexivity|]. split; [|done].
  rewrite app_assoc. split; rewrite ?E1, ?E2, ?E3; try apply Hs.
  - intros y Hy. destruct (go_sent _ _ _ Hs y Hy). split; [apply elem_of_app; by left|done].
  - by apply trace_cancel; [apply Hs| | |].
Qed.

(** A round is an order, a pause, a cancel and a pause. *)
Lemma random_round_steps i s g :
  TradingMain.random_round rand client env i s g =
  ('(r, s) ← TradingMain.random_order rand client s;
   '(ok, g) ← Gate.sendClientRequest r g;
   '(_, g) ← gate_run (env (2 * i)) g;
   '(t, s, g) ← cancel_step [(r, ok)] (after_order r ok s) g;
   '(_, g) ← gate_run (env (2 * i + 1)) g;
   Ok (t, s, g)).
Proof. reflexivity. Qed.

Lemma random_round_ok i n tr s g l :
  generator_ok n tr s -> gate_ok g l ->
  exists t s' g' l', TradingMain.random_round rand client env i s g = Ok (t, s', g') /\
    generator_ok (S n) (tr ++ t) s' /\ gate_ok g' l' /\ stepped g g'.
Proof.
  intros Hs Hg. rewrite random_round_steps.
  destruct (random_order_ok n tr s Hs) as (r & s1 & -> & Hgen & Hsent & Hbase & Hnext). cbn [mbind res_bind].
  destruct (random_send r g l Hg (gn_ticker _ _ _ Hgen)) as (ok & g1 & l1 & -> & Hg1 & Hst1 & Hv);
    [pose proof (gn_qty _ _ _ Hgen); unfold is_u32; lia|]. cbn [mbind res_bind].
  destruct (gate_run_ok (env (2 * i)) g1 l1 Hg1 (Henv _)) as (rs1 & g2 & -> & Hg2 & Hst2). cbn [mbind res_bind].
  destruct (cancel_step_ok (S n) tr [(r, ok)] (after_order r ok s1) g2 _
    (after_order_ok _ _ _ _ _ _ Hs Hgen Hv Hsent Hbase Hnext) Hg2) as (t & s3 & g3 & l3 & -> & Hs3 & Hg3 & Hst3).
  cbn [mbind res_bind].
  destruct (gate_run_ok (env (2 * i + 1)) g3 l3 Hg3 (Henv _)) as (rs4 & g4 & -> & Hg4 & Hst4).
  cbn [mbind res_bind]. exists t, s3, g4, (l3 ++ rs4). split; [done|]. split; [done|]. split; [done|].
  eapply stepped_trans; [|exact Hst4]. eapply stepped_trans; [|exact Hst3]. by eapply stepped_trans.
Qed.

Lemma random_loop_ok count : forall i n tr s g l,
  generator_ok n tr s -> gate_ok g l ->
  exists t m g' l', TradingMain.random_loop rand client env active count i s g = Ok (t, g') /\
    (m <= n + count)%nat /\ trace_ok client m (tr ++ t) /\ gate_ok g' l' /\ stepped g g'.
Proof.
  induction count as [|count IH]; intros i n tr s g l Hs Hg; cbn [TradingMain.random_loop].
  { exists [], n, g, l. rewrite app_nil_r. split; [done|]. split; [lia|]. split; [apply Hs|]. by split. }
  destruct (active i).
  - destruct (random_round_ok i n tr s g l Hs Hg) as (t1 & s1 & g1 & l1 & -> & Hs1 & Hg1 & Hst1).
    cbn [mbind res_bind].
    destruct (IH (S i) (S n) _ _ _ _ Hs1 Hg1) as (t2 & m & g2 & l2 & -> & Hm & Htr & Hg2 & Hst2).
    cbn [mbind res_bind]. exists (t1 ++ t2), m, g2, l2. rewrite app_assoc. split; [done|]. split; [lia|].
    split; [done|]. split; [done|]. by eapply stepped_trans.
  - exists [], n, g, l. rewrite app_nil_r. split; [done|]. split; [lia|]. split; [apply Hs|]. by split.
Qed.
End Generator.

(** ** After admission has been closed *)
Lemma gate_step_no_new g l op rs g' :
  gate_ok g l -> gop_ok op -> g_admitting g = false -> gate_step g op = Ok (rs, g') ->
  Forall (λ r, rq_type r <> NEW) rs.
Proof.
  intros Hok Hop Had H. destruct op as [r|r|t b| |n|up|trusted| |]; cbn [gate_step gop_ok] in *;
    try (apply bind_Ok in H as (? & ? & H)); try (by injection H as <- _).
  2,3: repeat case_match; by simplify_eq.
  destruct Hop as [Ht Hq]. destruct x as [sent g1]. injection H as <- <-.
  destruct (sent_stepped r g l sent g1 Hok Ht Hq H0) as (_ & Hr & _).
  destruct sent; [|constructor]. constructor; [|constructor]. intros Hn.
  destruct (not_refused _ _ (Hr eq_refl)) as (_ & _ & _ & _ & Hnew). destruct (Hnew Hn). congruence.
Qed.

Lemma gate_run_no_new ops : forall g l,
  gate_ok g l -> Forall gop_ok ops -> g_admitting g = false ->
  exists rs g', gate_run ops g = Ok (rs, g') /\ gate_ok g' (l ++ rs) /\ stepped g g' /\
    Forall (λ r, rq_type r <> NEW) rs.
Proof.
  induction ops as [|op ops IH]; intros g l Hok Hops Had.
  { exists [], g. rewrite app_nil_r. by split_and!. }
  apply Forall_cons in Hops as [Hop Hops].
  destruct (gate_step_ok g l op Hok Hop) as (rs1 & g1 & H1 & Hok1 & Hst1).
  pose proof (gate_step_no_new _ _ _ _ _ Hok Hop Had H1) as Hn1.
  destruct (IH g1 _ Hok1 Hops (sp_admitting _ _ Hst1 Had)) as (rs2 & g2 & H2 & Hok2 & Hst2 & Hn2).
  cbn [gate_run]. rewrite H1. cbn [mbind res_bind]. rewrite H2. cbn [mbind res_bind].
  exists (rs1 ++ rs2), g2. rewrite app_assoc. split; [done|]. split; [done|].
  split; [by eapply stepped_trans|by apply Forall_app].
Qed.

(** ** Quiescing while the other threads go on *)
Section Quiesce.
Context (env : Gate -> Gate) (expired : nat -> bool).
Context (Henv : forall g l, gate_ok g l -> exists l', gate_ok (env g) l' /\ stepped g (env g)).

Lemma quiesce_loop_gate fuel : forall failed cancels g l n,
  gate_ok g l -> (length cancels <= fuel)%nat ->
  (failed <= n)%nat -> expired n = true -> (length cancels + (n - failed) < fuel)%nat ->
  Forall (λ r, 0 <= rq_ticker_id r /\ is_u32 (rq_qty r)) cancels ->
  exists b g' l', Gate.quiesce_loop env expired fuel failed cancels g = Ok (b, g') /\
    gate_ok g' l' /\ stepped g g'.
Proof.
  induction fuel as [|fuel IH]; intros failed cancels g l n Hok Hlen Hn Hexp Hfuel Hall; [lia|].
  destruct cancels as [|r cancels]; [by exists true, g, l|].
  apply Forall_cons in Hall as Hall'. destruct Hall' as [[Ht Hq] Hall2]. cbn [Gate.quiesce_loop].
  destruct (send_ok r g l Hok Ht Hq) as (sent & g1 & Hs & _ & _ & Hok1).
  destruct (sent_stepped _ _ _ _ _ Hok Ht Hq Hs) as (Hst & _).
  rewrite Hs. cbn [mbind res_bind]. cbn [length] in *. destruct sent.
  - destruct (IH failed cancels g1 _ n Hok1) as (b & g2 & l2 & H1 & H2 & H3); [lia|done|done|lia|done|].
    exists b, g2, l2. split; [done|]. split; [done|]. by eapply stepped_trans.
  - destruct (bool_decide (g_order_session g1 = Some false) || expired failed) eqn:E; [by eexists false, g1, _|].
    apply orb_false_iff in E as [_ E]. assert (n <> failed) by (intros ->; congruence).
    destruct (Henv g1 _ Hok1) as (l2 & Hok2 & Hst2).
    destruct (IH (S failed) (r :: cancels) (env g1) _ n Hok2) as (b & g3 & l3 & H1 & H2 & H3);
      [cbn; lia|lia|done|cbn; lia|done|].
    exists b, g3, l3. split; [done|]. split; [done|].
    eapply stepped_trans; [exact Hst|]. by eapply stepped_trans.
Qed.

Lemma quiesce_gate g l n fuel :
  gate_ok g l -> expired n = true ->
  (length (RiskManager.cancellations (g_client_id g) (g_risk g)) + n < fuel)%nat ->
  exists b g' l', Gate.quiesce env expired fuel g = Ok (b, g') /\ gate_ok g' l' /\ stepped g g' /\
    g_admitting g' = false.
Proof.
  intros Hok Hexp Hfuel. unfold Gate.quiesce.
  assert (Hok0 : gate_ok (with_admitting false g) l) by (by eapply gate_ok_flags).
  destruct (quiesce_loop_gate fuel 0 (RiskManager.cancellations (g_client_id g) (g_risk g))
    (with_admitting false g) l n Hok0) as (b & g' & l' & H & Hok' & Hst'); [lia|lia|done|lia| |].
  { apply Forall_forall. intros r Hr.
    by destruct (cancellation_ok g l r Hok Hr) as (_ & _ & _ & ? & ? & _). }
  exists b, g', l'. split; [exact H|]. split; [done|].
  assert (Hst0 : stepped g (with_admitting false g)) by (by split).
  split; [by eapply stepped_trans|by apply (sp_admitting _ _ Hst')].
Qed.
End Quiesce.

(** ** The account checkpoint *)

(** One line per ticker, then one per order whose end is not known. *)
Definition checkpoint_lines (epoch : Z) (healthy : bool) (g : Gate) (ps : list PositionInfo) : list string :=
  fields ["ACCOUNT"; pretty (g_client_id g); pretty epoch; Gate.bool_text healthy]
  :: zip_with Gate.position_text (seqZ 0 ME_MAX_TICKERS) ps
  ++ (request_text "UNRESOLVED" <$> RiskManager.cancellations (g_client_id g) (g_risk g)).

Lemma journal_requests_text phase l j :
  j_text (foldl (λ audit request, journal_request phase request audit) j l)
  = j_text j ++ (request_text phase <$> l).
Proof.
  revert j. induction l as [|r l IH]; intros j; cbn; [by rewrite app_nil_r|].
  rewrite IH. cbn. by rewrite <- app_assoc.
Qed.

Lemma positions_text k ts j :
  keeper_ok k -> Forall known_ticker ts ->
  exists j' ps, res_fold (λ audit ticker,
      p ← PositionKeeper.getPositionInfo ticker k; Ok (append (Gate.position_text ticker p) audit)) ts j = Ok j' /\
    j_text j' = j_text j ++ zip_with Gate.position_text ts ps /\
    Forall2 (λ t p, position p = ticker_position k t) ts ps.
Proof.
  intros Hk Hts. revert j. induction Hts as [|t ts Ht Hts IH]; intros j.
  { exists j, []. cbn. by rewrite app_nil_r. }
  destruct (at_ticker_ok k t Hk Ht) as (p & Hp & _ & _ & Hpos). cbn [res_fold].
  assert (E : PositionKeeper.getPositionInfo t k = Ok p) by exact Hp. rewrite E. cbn [mbind res_bind].
  destruct (IH (append (Gate.position_text t p) j)) as (j' & ps & -> & Ht' & Hall).
  exists j', (p :: ps). split; [done|]. split; [|by constructor].
  rewrite Ht'. cbn. by rewrite <- app_assoc.
Qed.

Lemma writeCheckpoint_ok epoch healthy g l j :
  gate_ok g l -> exists j' ps, Gate.writeCheckpoint epoch healthy g j = Ok j' /\
    j_text j' = j_text j ++ checkpoint_lines epoch healthy g ps /\
    Forall2 (λ t p, position p = ticker_position (g_keeper g) t) (seqZ 0 ME_MAX_TICKERS) ps.
Proof.
  intros Hok. unfold Gate.writeCheckpoint.
  destruct (positions_text (g_keeper g) (seqZ 0 ME_MAX_TICKERS)
    (append (fields ["ACCOUNT"; pretty (g_client_id g); pretty epoch; Gate.bool_text healthy]) j))
    as (j' & ps & -> & Ht & Hall); [apply (gk_risk _ _ Hok)| |].
  { apply Forall_forall. intros t Ht%elem_of_seqZ. unfold known_ticker. lia. }
  cbn [mbind res_bind]. eexists _, ps. split; [reflexivity|]. split; [|done].
  rewrite journal_requests_text, Ht. unfold checkpoint_lines. cbn. by rewrite <- !app_assoc.
Qed.

(** ** A run of the client *)
Section Run.
Context (from_chars_double : string -> option (double * string)).
Context (read_json : string -> string + ClientConfig) (inet_pton : string -> option Z).
Context (getIfaceIP : string -> string) (read_file : string -> option (string * bool)).
Context (getenv : string -> option string) (exe_directory : string).
Context (rand : nat -> Z) (before after pause drain : list GateOp) (env : nat -> list GateOp).
Context (active expired : nat -> bool).

(** What the other threads do is well formed, and the deadline of [quiesce]
    passes some time. *)
Definition threads_ok : Prop :=
  Forall gop_ok (before ++ after ++ pause ++ drain) /\ (forall k, Forall gop_ok (env k)) /\
  exists n, expired n = true.

Lemma paused_ok g l :
  Forall gop_ok pause -> gate_ok g l ->
  exists l', gate_ok (TradingMain.paused pause g) l' /\ stepped g (TradingMain.paused pause g).
Proof.
  intros Hp Hok. unfold TradingMain.paused.
  destruct (gate_run_ok pause g l Hok Hp) as (rs & g' & -> & Hok' & Hst). by exists (l ++ rs).
Qed.

(** The part of the run before quiescing. *)
Lemma generate_ok c g l :
  (forall k, Forall gop_ok (env k)) -> gate_ok g l ->
  exists trace m g' l',
    (if bool_decide (ClientConfig.strategyType c = AlgoType_RANDOM)
     then TradingMain.random_mode rand (cc_client_id c) env active
            (random_orders (ClientConfig.runtimeConfig c)) 0 g
     else Ok ([], g)) = Ok (trace, g') /\
    Z.of_nat m <= Z.max 0 (random_orders (ClientConfig.runtimeConfig c)) /\
    trace_ok (cc_client_id c) m trace /\ gate_ok g' l' /\ stepped g g'.
Proof.
  intros Henv Hok. pose proof (random_start_ok rand (cc_client_id c) 0) as Hstart.
  destruct (bool_decide _).
  - destruct (random_loop_ok rand (cc_client_id c) env active Henv
      (Z.to_nat (random_orders (ClientConfig.runtimeConfig c))) 0 0 [] _ g l Hstart Hok)
      as (t & m & g' & l' & H & Hm & Htr & Hok' & Hst).
    exists t, m, g', l'. split; [exact H|]. split; [lia|]. by split_and!.
  - exists [], 0%nat, g, l. split; [done|]. split; [lia|]. split; [apply Hstart|]. by split.
Qed.

(** C11: a run of the client program is safe, whatever configuration [main]
    accepts from the command line, the file and the environment, and whatever
    the other threads do.  The run ends; every request the load generator
    tries is a numbered order or a cancel of an order admitted before, and only
    valid ones are admitted; after quiescing no new order leaves; the position
    of each ticker keeps within the limit configured for it; and the account
    checkpoint lists these positions and every order whose end is not known. *)
Theorem client_run_is_safe args c check requests epoch healthy account :
  reads_typed read_json -> threads_ok -> queue_ok requests [] ->
  TradingMain.startup from_chars_double read_json inet_pton getIfaceIP read_file getenv exe_directory
    args = inr (c, check) ->
  exists fuel0, forall fuel, (fuel0 <= fuel)%nat ->
  exists trace late g account' m ps,
    TradingMain.run rand c before env active after pause expired drain requests epoch healthy fuel account
      = Ok (trace, late, g, account') /\
    Z.of_nat m <= 900000 /\ trace_ok (cc_client_id c) m trace /\
    Forall (λ r, rq_type r <> NEW) late /\ g_admitting g = false /\
    (forall t, known_ticker t -> Z.abs (ticker_position (g_keeper g) t)
       <= rr_max_position (sp_risk (parameters_of c t)) <= INT32_MAX) /\
    j_text account' = j_text account ++ checkpoint_lines epoch healthy g ps /\
    Forall2 (λ t p, position p = ticker_position (g_keeper g) t) (seqZ 0 ME_MAX_TICKERS) ps.
Proof.
  intros Htyped (Hops & Henv & n & Hexp) Hq Hstart.
  apply Forall_app in Hops as [Hbefore Hops]. apply Forall_app in Hops as [Hafter Hops].
  apply Forall_app in Hops as [Hpause Hdrain].
  destruct (startup_valid _ _ _ _ _ _ _ _ _ _ Htyped Hstart) as [Hty Hc].
  destruct (engine_config_ok c Hty (co_tickers _ _ _ Hc) (co_default _ _ _ Hc)) as (cfg & Hcfg & Hlimits & _ & Hat).
  pose proof (gate_make_ok (cc_client_id c) cfg requests Hlimits Hq) as Hg0.
  destruct (gate_run_ok before _ _ Hg0 Hbefore) as (rs1 & g1 & E1 & Hg1 & Hst1).
  destruct (generate_ok c g1 _ Henv Hg1) as (trace & m & g2 & l2 & E2 & Hm & Htr & Hg2 & Hst2).
  destruct (gate_run_ok after _ _ Hg2 Hafter) as (rs3 & g3 & E3 & Hg3 & Hst3).
  exists (S (length (RiskManager.cancellations (g_client_id g3) (g_risk g3)) + n)). intros fuel Hfuel.
  destruct (quiesce_gate (TradingMain.paused pause) expired (λ g l, paused_ok g l Hpause) g3 _ n fuel Hg3 Hexp)
    as (b & g4 & l4 & E4 & Hg4 & Hst4 & Had); [lia|].
  destruct (gate_run_no_new drain g4 l4 Hg4 Hdrain Had) as (late & g5 & E5 & Hg5 & Hst5 & Hlate).
  destruct (gate_step_ok g5 _ OpStopAdmitting Hg5 I) as (rs6 & g6 & E6 & Hg6 & Hst6).
  destruct (writeCheckpoint_ok epoch healthy g6 _ account Hg6) as (account' & ps & E7 & Htext & Hps).
  exists trace, late, g6, account', m, ps. unfold TradingMain.run.
  rewrite Hcfg. cbn [mbind res_bind]. rewrite E1. cbn [mbind res_bind]. rewrite E2. cbn [mbind res_bind].
  rewrite E3. cbn [mbind res_bind]. rewrite E4. cbn [mbind res_bind]. rewrite E5. cbn [mbind res_bind].
  rewrite E6. cbn [mbind res_bind]. rewrite E7. cbn [mbind res_bind].
  assert (Hst : stepped (Gate.make (cc_client_id c) cfg requests) g6) by (by repeat (eapply stepped_trans; [eassumption|])).
  split; [done|]. split; [pose proof (co_orders _ _ _ Hc); lia|]. split; [done|]. split; [done|].
  split; [by injection E6 as _ <-|]. split; [|done]. intros t Ht.
  destruct (risk_bounds _ _ t (gk_risk _ _ Hg6) Ht) as [Hp _].
  assert (El : limit t (g_risk g6) = rr_max_position (sp_risk (parameters_of c t))).
  { unfold limit. rewrite (sp_cfg _ _ Hst). cbn [g_risk Gate.make RiskManager.make rk_cfg].
    by rewrite list_lookup_fmap, Hat by done. }
  rewrite El in Hp. split; [lia|]. apply parameters_of_valid; [apply Hc|apply Hc].
Qed.
End Run.

(** The client in RANDOM mode tries two orders; its queue has four places, which
    the gateway empties. *)
Definition demo_startup : checked (ClientConfig * bool) :=
  TradingMain.startup (λ _, None) (λ _, inr demo_config) demo_pton (λ _, "127.0.0.1")
    (λ _, Some (EmptyString, false)) (λ key, if bool_decide (key = "TRADE_RANDOM_ORDERS") then Some "2" else None)
    "/opt/bin" ["--config"; "client.json"; "5"; "random"].

Definition demo_run (c : ClientConfig) (fuel : nat) :
    res (list (MEClientRequest * bool) * list MEClientRequest * Gate * CriticalJournal) :=
  TradingMain.run Z.of_nat c [OpCommit 1] (λ _, [OpTake]) (λ _, true) [OpTake; OpTake] [OpTake]
    (λ n, bool_decide (n = 3%nat)) [OpTake] demo_requests 7 true fuel journal_new.

Lemma client_run_is_safe_witness :
  exists c fuel trace late g account m,
    demo_startup = inr (c, false) /\ cc_client_id c = 5 /\
    demo_run c fuel = Ok (trace, late, g, account) /\
    trace_ok 5 m trace /\ g_admitting g = false /\
    (forall t, known_ticker t -> Z.abs (ticker_position (g_keeper g) t)
       <= rr_max_position (sp_risk (parameters_of c t))) /\
    rr_max_position (sp_risk (parameters_of c 3)) = 50.
Proof.
  assert (Hs : exists c, demo_startup = inr (c, false)) by (eexists; vm_compute; reflexivity).
  destruct Hs as [c Hs].
  destruct (client_run_is_safe (λ _, None) (λ _, inr demo_config) demo_pton (λ _, "127.0.0.1")
    (λ _, Some (EmptyString, false)) (λ key, if bool_decide (key = "TRADE_RANDOM_ORDERS") then Some "2" else None)
    "/opt/bin" Z.of_nat [OpCommit 1] [OpTake; OpTake] [OpTake] [OpTake] (λ _, [OpTake])
    (λ _, true) (λ n, bool_decide (n = 3%nat)) ["--config"; "client.json"; "5"; "random"] c false demo_requests 7
    true journal_new) as (fuel0 & H).
  - intros ? ? [= <-]. split; cbn; repeat apply Forall_cons_2; try apply Forall_nil_2; cbn; lia.
  - split; [by repeat constructor|]. split; [by repeat constructor|]. by exists 3%nat.
  - exact demo_requests_ok.
  - exact Hs.
  - destruct (H (10 + fuel0)%nat) as (trace & late & g & account & m & ps & Hrun & Hm & Htr & _ & Had & Hp & _); [lia|].
    exists c, (10 + fuel0)%nat, trace, late, g, account, m.
    assert (Hc : cc_client_id c = 5 /\ rr_max_position (sp_risk (parameters_of c 3)) = 50 /\
      random_orders (ClientConfig.runtimeConfig c) = 2 /\ ClientConfig.strategyType c = AlgoType_RANDOM).
    { vm_compute in Hs. injection Hs as <-. split_and!; reflexivity. }
    destruct Hc as (H1 & H2 & _). rewrite H1 in Htr.
    split; [exact Hs|]. split; [exact H1|]. split; [exact Hrun|].
    split; [done|]. split; [done|]. split; [intros t Ht; by apply Hp|done].
Defined.

(** The same run with ten attempts to quiesce: two orders, each canceled once
    by the generator and, as nothing was answered, once more at the end. *)
Example demo_run_checkpoint :
  match demo_startup with
  | inl _ => None
  | inr (c, _) =>
      match demo_run c 10 with
      | Ok (trace, late, g, account) =>
          Some ((λ '(r, ok), (rq_order_id r, ok)) <$> trace, late, drop 10 (j_text account))
      | Err _ => None
      end
  end = Some ([(5000, true); (5000, true); (5001, true); (5001, true)], [],
    ["UNRESOLVED 5 0 0 2 0 5000 1 101 13"; "UNRESOLVED 5 0 0 2 5 5001 -1 111 18"]).
Proof. vm_compute. reflexivity. Qed.
